(* ===== verification/_CoqProject ===== *)
-Q . S2P
Prelude.v
JsString.v
Regex.v
JsNum.v
JsExact.v
Json.v
JsTable.v
StatusCodes.v
Sse.v
AdvancedCustom.v
ChannelForm.v
ChannelFormProps.v
ChannelSubmit.v
ChannelUtils.v
AuthSession.v
MiniChat.v
MiniAuth.v
Flow.v
BillingExpr.v
TierExpr.v
TierPrices.v
TierText.v
TierEditor.v
ModelPricing.v
ModelPricingStore.v
UpstreamSync.v
ParamOverride.v
ParamOverrideEditor.v
Playground.v
PlaygroundRequest.v
PlaygroundChat.v
PlaygroundSpec.v
PlaygroundRuns.v
PlaygroundStore.v
JsDate.v
UsageAudit.v
SupplierStandard.v
SupplierRequest.v
SupplierRun.v
