(* ===== verification/Prelude.v ===== *)
(** * Verification of the web and mini app clients

    The repository is an API gateway: a Go server, a web client (TypeScript,
    [web/src]) and a WeChat mini app (TypeScript, [miniapp/src]) that talk to it.
    This library models the logic of the two clients, translated definition by
    definition from the TypeScript source, and proves what makes it correct.

    ** The language

    - [Prelude] (this file): options, stable sorting by a comparator, insertion
      ordered maps, sums over accumulated maps, filters.
    - [JsString]: strings as lists of UTF-16 code units and the operations of
      [String.prototype] that are used.
    - [Regex]: regular expressions with the backtracking semantics of ECMAScript.
      The loop of a quantifier has fuel for the units left; [rep_loop_enough] and
      [rep_fuel_irrelevant] show that more fuel changes nothing.
    - [JsNum]: numbers as IEEE 754 doubles, [Number(s)], [Number::toString].
    - [JsExact]: sums of integers of the safe range are exact ([num_sum_exact]).
    - [Json]: values, [JSON.parse], [JSON.stringify] and that they are inverse.
    - [JsTable]: the language's conversions of values ([String], [Number], [||])
      and objects used as tables.
    - [JsDate]: the calendar, time values, [toISOString] and [Date.parse] of times
      with an offset ([iso_roundtrip]).

    ** The components

    - [StatusCodes] (lib/http-status-code-rules.ts, status-code-risk-guard.ts):
      rule lists are parsed into sorted, separated ranges; the guard finds the
      risky redirects of a mapping.
    - [Sse] (miniapp api/sse.ts): a streaming UTF-8 decoder and the line oriented
      event parser on top; the events do not depend on the chunks.
    - [AdvancedCustom] (channels/lib/advanced-custom.ts): the route table of a
      channel: templates, normalization, management routes, validation.
    - [AuthSession] (stores/auth-store.ts, lib/auth-session.ts,
      lib/auth-session-sync.ts, lib/http-client.ts): the session of a tab as a
      state machine whose refresh is suspended at every [await], events between
      tabs, and the retry of a request.
    - [MiniChat] (miniapp playground/storage.ts) and [MiniAuth] (miniapp
      auth/session.ts, auth/client.ts, api/request.ts, api/url.ts): device storage
      behind the interface [Taro] with its laws; conversations; the session, its
      rotation, login and logout.
    - [Flow] (dashboard/lib/flow.ts, flow-selection.ts): usage rows become the
      nodes and links of a chart.
    - [BillingExpr] (pricing/lib/billing-expr.ts): price tiers and request rules
      read out of a stored expression, and the rule editor's writer. [TierExpr]
      (pricing/lib/tier-expr.ts): the tiers of the visual editor, written and read
      back. [TierPrices]: what the former reads of what the latter wrote.
    - Prices in the settings of the web client (system-settings/models).
      [TierText]: the shape of the texts the tier editor writes, by which they are
      split from the rules. [TierEditor] (tiered-pricing-editor.tsx): the editor
      with its two modes as a machine of renders, effects and handlers, its number
      drafts, tiers, rule groups and presets. [ModelPricing] (pricing-format.ts,
      model-pricing-core.ts, model-pricing-sheet.tsx): the panel that keeps the
      stored ratios in step with the prices typed. [ModelPricingStore]
      (model-pricing-snapshots.ts, model-ratio-visual-editor.tsx): the ten options
      the prices are stored in, the rows read from them, saving and deleting.
      [UpstreamSync] (upstream-ratio-sync-helpers.ts, upstream-ratio-sync.tsx,
      upstream-ratio-sync-table.tsx): differences to other servers, the values
      selected, conflicts to confirm, the options written.
    - Parameter overrides of a channel (channels/components/dialogs,
      param-override-editor-dialog.tsx). [ParamOverride]: rules and conditions, read
      from the stored JSON text, checked and written back; the drafts of custom
      errors and pruning rules; identifiers drawn from a counter ([Gen]).
      [ParamOverrideEditor]: the dialog as a machine of handlers, effects and
      renders, its two modes, dragging, templates and saving.
    - Channels. [ChannelForm] (channels/lib/channel-form.ts): the form's schema,
      how it is filled from a channel and how the two settings texts and the
      payloads are built; [ChannelFormProps]: its theorems. [ChannelSubmit]
      (model-mapping-validation.ts, channel-mutate-drawer.tsx,
      use-channel-mutate-form.ts): the submit handler with its checks, the
      permission for sensitive settings, the request sent. [ChannelUtils]
      (channel-utils.ts, channel-field-update.ts, upstream-update-utils.ts,
      use-channel-upstream-updates.ts, lib/channel-connection-info.ts): keys,
      groups, tag rows, the delayed update of a cell as a machine with timers,
      upstream models, the connection text.
    - The supplier test (features/supplier-test). [SupplierStandard] (baselines.ts):
      judgment standards, their editor and the verdicts on the figures of a test.
      [SupplierRequest] (constants.ts, video-json.ts, index.tsx): the forms, the body
      of a video request and back, the checks before a run and its request.
      [SupplierRun] (use-supplier-test-run.ts): the run as a machine of events, with
      the streams it opens and closes.
    - The usage audit of the billing pages (features/billing). [UsageAudit]
      (lib/usage-audit.ts, usage-audit-panel.tsx, usage-audit-results.tsx): exact
      sums of amounts, the exported tables with a reader for them, the form and its
      selection, the panel as a machine of queries, the pages of the results.
    - The chat of the web client (features/playground), in six files.
      [Playground] (types.ts, lib/message): messages and what is shown of them,
      think tags, streamed chunks, edits. [PlaygroundRequest] (lib/streaming,
      lib/options, lib/input, lib/parameters, use-playground-options.ts): request
      bodies, stream events, errors, the choice of model and group.
      [PlaygroundChat] (use-stream-request.ts, use-chat-handler.ts,
      use-playground-conversation.ts): the stream controller and the chat handler
      as one machine, whose events are what the user, the network, the timer and
      React do. [PlaygroundSpec]: a machine with one request slot, the invariant
      of the chat and the simulation between them. [PlaygroundRuns]: what follows
      for runs of the chat. [PlaygroundStore] (lib/storage, lib/state,
      use-playground-state.ts): the stored configuration and messages.

    The chat calls [PlaygroundRequest] for its payloads and events and
    [Playground] for its messages; the store keeps the messages of [Playground].
    What [UpstreamSync] writes is read by [ModelPricingStore].
    The panel hands its texts to [ModelPricingStore], which combines and splits
    expressions with [BillingExpr]; the panel embeds the editor of [TierEditor].
    The channel form validates its routes with [AdvancedCustom] and its status
    codes with [StatusCodes]; its override texts come from [ParamOverride].

    ** Conventions

    A thrown error or a rejected promise is the left side of a sum or [None]; a
    callback is the log of its calls; code up to an [await] and each continuation
    are functions on the state, so that runs may interleave them. An updater given
    to React is data in a queue, evaluated by an event of its own. Code outside the
    repository (URL parsing, locale comparison, number formatting, device and
    browser storage, zod, the server) is a Section variable or a class with laws.

    Fuel: [decode_loop] and [consume_lines] of [Sse] get the length of their input,
    of which each round takes at least one unit; [drive] of [AuthSession] is shown
    to need at most 14 waits; [unwrap_loop] of [BillingExpr] gets the length of the
    text, of which each round removes two units.

    ** What the theorems show

    The chat: the machine refines one with a single request slot ([latest_wins]),
    a superseded request is silent, stopping and the end of a stream end the
    generation, a streamed answer is the concatenation of its chunks, saved
    conversations are read back, what was shown last is written. The sessions: a
    login supersedes a refresh, credentials are absent, valid or those of an answer
    that a login form did not check ([tab_invariant]), bounded retries, restart
    keeps the session. The flow chart: conservation of a metric that is an integer
    of the safe range (columns add up, nodes are balanced) and masking of labels. Round trips of events,
    conversations, configurations, rule lists, billing rules and price tiers; functional
    specifications of validators and parsers; bounds on what is kept or shown;
    error behaviour, and where the code loses something: the batch that a stop
    discards, a conversation with a numeric error code, a logout undone by a
    rotation.

    Prices: what is saved for models is what is read for them and touches no
    other ([persist_reads]), a model with an expression of the visual editor, or none,
    opened and saved as it is keeps its row ([save_unchanged]), a changed row is one whose fields differ; the ratios of
    the panel follow its prices; the editor keeps an expression it has written
    when it is opened and when its mode is switched, and its renders end. Values
    selected from another server are read back for the models synced and for no
    other ([sync_reads]); a selection never mixes kinds of billing
    ([selection_consistent]); all is selected when all is ticked
    ([select_all_selects]); without a conflict no kind of billing is lost, unless
    the model had two ([unconfirmed_sync_keeps]). Errors: an expression or rules the visual editor
    cannot read are lost when it is opened, a fixed price hides the prices per
    token, a refused option counts as synced, a price synced for a model billed by
    an expression changes nothing.

    Parameter overrides: rules saved and opened again are the rules saved
    ([overrides_roundtrip]), also by way of the JSON text
    ([mode_switch_keeps_rules]); whatever is done, the state of the dialog is well
    formed and no identifier occurs twice ([dialog_invariant]); dropping a rule on
    another puts it there; every template passes the checks. Errors: conditions of
    pruning rules can be neither added, changed nor deleted, a string in quotes
    changes its type, a space at the end of a message is lost.

    Channels: what an accepted form is saved as is what it shows when it is
    opened again, unknown settings are kept, and saving again changes nothing
    ([save_stable], [settings_roundtrip]); without the permission an update sends
    only the open fields ([locked_update_open_fields]); nothing is sent that was
    not checked ([submit_checked]); a cell sends the last value typed, once
    ([cell_refines_spec]); tag rows lose no channel ([tag_rows]). Errors: a model
    with a comma in its name cannot be added, -1 as a priority is taken for none.

    The supplier test: a superseded run is silent ([superseded_run_silent]), one
    stream is open at most and every other is closed once ([one_stream]); a body
    is read back into an empty form ([video_body_roundtrip]); standards are inside
    their bounds whatever they are read from ([standard_in_bounds]); the overall
    verdict is what the limits say ([stress_overall]). Errors: a body applied to a
    form clears nothing, a blank task is sent.

    The usage audit: an exported table is read back whatever its cells hold
    ([csv_reads_back]), the details of a report with every log, its times and its
    exact price difference ([details_read_back]); subtotals are exact
    ([amounts_sum_exact]); exports are enabled only for the query the form shows
    ([exports_current]); the form opens with an accepted period
    ([default_form_accepted]). Server times are integers, at most 240000000000 seconds
    in these theorems, where years have four digits.

    ** Not modelled

    The Go server (its answers are inputs), rendering code (React, Taro), class
    names and icons, HTTP wrappers, report texts, translations, generated code,
    chart styling, number and date formatting through [Intl]. Channel actions and
    tables of texts per channel type are calls and data only. *)

From Stdlib Require Import NArith ZArith Lia Sorted.
From stdpp Require Import base list gmap strings sorting.

Declare Scope js_scope.
Delimit Scope js_scope with js.

(** * Options *)

(** JavaScript's [a ?? b] on a value that may be undefined. *)
Definition nullish {A} (o : option A) (d : A) : A :=
  match o with Some x => x | None => d end.
Notation "o ?? d" := (nullish o d) (at level 60, right associativity) : js_scope.
Open Scope js_scope.

Definition is_some {A} (o : option A) : bool :=
  match o with Some _ => true | None => false end.

(** [first_some xs] is the first present value. *)
Definition or_else {A} (o1 o2 : option A) : option A :=
  match o1 with Some x => Some x | None => o2 end.

(** * Stable sorting with a JavaScript comparator

    [Array.prototype.sort] is stable, so for a consistent comparator its result
    is determined; it is computed here by insertion. *)
Section Sorting.
Context {A : Type} (cmp : A -> A -> Z).

Fixpoint insert_by (x : A) (l : list A) : list A :=
  match l with
  | [] => [x]
  | y :: t => if (cmp x y <=? 0)%Z then x :: y :: t else y :: insert_by x t
  end.

Fixpoint sort_by (l : list A) : list A :=
  match l with
  | [] => []
  | x :: t => insert_by x (sort_by t)
  end.

Lemma insert_by_perm x l : insert_by x l ≡ₚ x :: l.
Proof.
  induction l as [|y t IH]; simpl; [done|].
  destruct (_ <=? _)%Z; [done|]. rewrite IH. apply Permutation_swap.
Qed.

Lemma sort_by_perm l : sort_by l ≡ₚ l.
Proof.
  induction l as [|x t IH]; simpl; [done|]. by rewrite insert_by_perm, IH.
Qed.

Lemma sort_by_elem x l : x ∈ sort_by l <-> x ∈ l.
Proof. by rewrite sort_by_perm. Qed.

Lemma sort_by_length l : length (sort_by l) = length l.
Proof. apply Permutation_length, sort_by_perm. Qed.

Definition cmp_le (x y : A) : Prop := (cmp x y <= 0)%Z.

(** What a comparator must satisfy for the sorted order to be meaningful. *)
Context (Htotal : forall x y, (cmp x y <= 0)%Z \/ (cmp y x <= 0)%Z).

Lemma insert_by_hdrel y x l :
  cmp_le y x -> HdRel cmp_le y l -> HdRel cmp_le y (insert_by x l).
Proof.
  intros Hyx Hl. destruct l as [|z t]; simpl; [by constructor|].
  inversion Hl; subst. destruct (_ <=? _)%Z; by constructor.
Qed.

Lemma insert_by_sorted x l : Sorted cmp_le l -> Sorted cmp_le (insert_by x l).
Proof.
  induction l as [|y t IH]; simpl; intros Hs.
  - constructor; constructor.
  - destruct (cmp x y <=? 0)%Z eqn:E.
    + constructor; [done|]. constructor. unfold cmp_le. lia.
    + inversion Hs; subst. constructor; [auto|].
      apply insert_by_hdrel; [|done]. unfold cmp_le.
      destruct (Htotal x y); lia.
Qed.

Lemma sort_by_sorted l : Sorted cmp_le (sort_by l).
Proof. induction l; simpl; [constructor|by apply insert_by_sorted]. Qed.

(** Sorting a sorted list is the identity (stability on the sorted input). *)
Lemma insert_by_head x l : HdRel cmp_le x l -> insert_by x l = x :: l.
Proof.
  destruct l as [|y t]; simpl; intros H; [done|]. inversion H; subst.
  unfold cmp_le in *. by rewrite (proj2 (Z.leb_le _ _)).
Qed.

Lemma sort_by_id l : Sorted cmp_le l -> sort_by l = l.
Proof.
  induction 1 as [|x t Hs IH Hd]; simpl; [done|].
  rewrite IH. by apply insert_by_head.
Qed.
End Sorting.

(** A sorted list is sorted for any weaker relation. *)
Lemma Sorted_weaken {A} (R1 R2 : A -> A -> Prop) l :
  (forall x y, R1 x y -> R2 x y) -> Sorted R1 l -> Sorted R2 l.
Proof.
  intros HR. induction 1 as [|x l Hs IH Hd]; constructor; [done|].
  destruct Hd; constructor; auto.
Qed.

Lemma StronglySorted_weaken {A} (R1 R2 : A -> A -> Prop) l :
  (forall x y, R1 x y -> R2 x y) -> StronglySorted R1 l -> StronglySorted R2 l.
Proof.
  intros HR. induction 1 as [|x l Hs IH Hf]; constructor; [done|].
  eapply Forall_impl; [exact Hf|]. auto.
Qed.

Lemma StronglySorted_reverse {A} (R : A -> A -> Prop) l :
  StronglySorted R l -> StronglySorted (flip R) (reverse l).
Proof.
  induction 1 as [|x l Hs IH Hf]; [constructor|].
  rewrite reverse_cons. apply StronglySorted_app_2; [|done|repeat constructor].
  intros y z Hy Hz. apply list_elem_of_singleton in Hz as ->.
  rewrite elem_of_reverse in Hy. rewrite Forall_forall in Hf. by apply Hf.
Qed.

(** * Sets with insertion order

    [\[...new Set(xs)\]] keeps the first occurrence of every value, in order. *)
Section Uniq.
Context {A : Type} `{EqDecision A}.

Fixpoint uniq_aux (seen l : list A) : list A :=
  match l with
  | [] => []
  | x :: t => if bool_decide (x ∈ seen) then uniq_aux seen t
              else x :: uniq_aux (x :: seen) t
  end.

Definition uniq (l : list A) : list A := uniq_aux [] l.

Lemma uniq_aux_elem x seen l : x ∈ uniq_aux seen l <-> x ∈ l /\ x ∉ seen.
Proof.
  revert seen. induction l as [|y t IH]; intros seen; simpl; [set_solver|].
  case_bool_decide as Hy.
  - rewrite IH. set_solver.
  - rewrite elem_of_cons, IH. set_unfold. destruct (decide (x = y)); naive_solver.
Qed.

Lemma uniq_elem x l : x ∈ uniq l <-> x ∈ l.
Proof. unfold uniq. rewrite uniq_aux_elem. set_solver. Qed.

Lemma uniq_aux_nodup seen l : NoDup (uniq_aux seen l).
Proof.
  revert seen. induction l as [|y t IH]; intros seen; simpl; [constructor|].
  case_bool_decide; [done|]. constructor; [|done]. rewrite uniq_aux_elem. set_solver.
Qed.

Lemma uniq_nodup l : NoDup (uniq l).
Proof. apply uniq_aux_nodup. Qed.

Lemma uniq_aux_id seen l : NoDup l -> (forall x, x ∈ l -> x ∉ seen) -> uniq_aux seen l = l.
Proof.
  revert seen. induction l as [|y t IH]; intros seen Hnd Hs; simpl; [done|].
  inversion Hnd; subst.
  rewrite bool_decide_eq_false_2 by (apply Hs; set_solver).
  f_equal. apply IH; [done|]. intros x Hx. rewrite elem_of_cons.
  intros [->|Hin]; [done|]. apply (Hs x); [set_solver|done].
Qed.

Lemma uniq_aux_length seen l : length (uniq_aux seen l) <= length l.
Proof.
  revert seen. induction l as [|y t IH]; intros seen; simpl; [lia|].
  case_bool_decide; simpl; [specialize (IH seen)|specialize (IH (y :: seen))]; lia.
Qed.

Lemma uniq_length l : length (uniq l) <= length l.
Proof. apply uniq_aux_length. Qed.

Lemma uniq_aux_snoc seen l x :
  uniq_aux seen (l ++ [x]) = uniq_aux seen l ++ (if bool_decide (x ∈ seen \/ x ∈ l) then [] else [x]).
Proof.
  revert seen. induction l as [|y l IH]; intros seen; simpl.
  - destruct (bool_decide_reflect (x ∈ seen)) as [H|H].
    + rewrite bool_decide_true; [done|by left].
    + rewrite bool_decide_false; [done|]. intros [?|?]; [done|by eapply not_elem_of_nil].
  - destruct (bool_decide_reflect (y ∈ seen)) as [H|H].
    + rewrite IH. f_equal. assert (E : bool_decide (x ∈ seen \/ x ∈ l) = bool_decide (x ∈ seen \/ x ∈ y :: l)); [|by rewrite E].
      apply bool_decide_ext. rewrite elem_of_cons. naive_solver.
    + simpl. rewrite IH. do 2 f_equal.
      assert (E : bool_decide (x ∈ y :: seen \/ x ∈ l) = bool_decide (x ∈ seen \/ x ∈ y :: l)); [|by rewrite E].
      apply bool_decide_ext. rewrite !elem_of_cons. naive_solver.
Qed.

Lemma uniq_snoc l x : uniq (l ++ [x]) = if bool_decide (x ∈ l) then uniq l else uniq l ++ [x].
Proof.
  unfold uniq. rewrite uniq_aux_snoc. destruct (bool_decide_reflect (x ∈ l)) as [H|H].
  - rewrite bool_decide_true by (by right). by rewrite app_nil_r.
  - rewrite bool_decide_false; [done|]. intros [?|?]; [by eapply not_elem_of_nil|done].
Qed.

Lemma uniq_id l : NoDup l -> uniq l = l.
Proof. intros. apply uniq_aux_id; [done|]. set_solver. Qed.
End Uniq.

(** * Maps with insertion order: JavaScript's [Map] *)
Section OrdMap.
Context {K V : Type} `{EqDecision K}.

Fixpoint map_get (k : K) (m : list (K * V)) : option V :=
  match m with
  | [] => None
  | (k', v) :: t => if bool_decide (k = k') then Some v else map_get k t
  end.

(** [Map.set]: an existing key keeps its place, a new one goes last. *)
Fixpoint map_set (k : K) (v : V) (m : list (K * V)) : list (K * V) :=
  match m with
  | [] => [(k, v)]
  | (k', v') :: t => if bool_decide (k = k') then (k', v) :: t
                     else (k', v') :: map_set k v t
  end.

Lemma map_get_set_eq k v m : map_get k (map_set k v m) = Some v.
Proof.
  induction m as [|[k' v'] t IH]; simpl.
  - by rewrite bool_decide_eq_true_2.
  - case_bool_decide as E; simpl; subst.
    + by rewrite bool_decide_eq_true_2.
    + by rewrite bool_decide_eq_false_2.
Qed.

Lemma map_get_set_ne k k' v m : k <> k' -> map_get k (map_set k' v m) = map_get k m.
Proof.
  intros Hne. induction m as [|[k0 v0] t IH]; simpl.
  - by rewrite bool_decide_eq_false_2.
  - case_bool_decide as E; simpl; subst.
    + by rewrite !bool_decide_eq_false_2.
    + case_bool_decide; [done|]. apply IH.
Qed.

Lemma map_set_keys k v m :
  (map_set k v m).*1 = if is_some (map_get k m) then m.*1 else m.*1 ++ [k].
Proof.
  induction m as [|[k0 v0] t IH]; [done|]. simpl map_set. simpl map_get.
  case_bool_decide as E; csimpl; subst; [done|]. rewrite IH.
  by destruct (is_some _).
Qed.

Lemma map_get_elem k m : is_some (map_get k m) = true <-> k ∈ m.*1.
Proof.
  induction m as [|[k0 v0] t IH]; csimpl; [set_solver|].
  case_bool_decide as E; csimpl; subst; [set_solver|]. rewrite IH. set_solver.
Qed.

Lemma map_get_none k m : map_get k m = None <-> k ∉ m.*1.
Proof.
  rewrite <-map_get_elem. destruct (map_get k m); simpl; naive_solver.
Qed.

Lemma map_get_in k v m : NoDup m.*1 -> (k, v) ∈ m -> map_get k m = Some v.
Proof.
  induction m as [|[k0 v0] t IH]; csimpl; intros Hnd Hin; [set_solver|].
  apply NoDup_cons in Hnd as [Hni Hnd].
  apply elem_of_cons in Hin as [Heq|Hin]; simplify_eq.
  - by rewrite bool_decide_eq_true_2.
  - rewrite bool_decide_eq_false_2; [auto|]. intros ->. apply Hni.
    apply list_elem_of_fmap. by exists (k0, v).
Qed.

Lemma map_get_filter (p : K -> bool) k m : map_get k (List.filter (fun e => p e.1) m) = if p k then map_get k m else None.
Proof.
  induction m as [|[k0 v0] t IH]; [by destruct (p k)|]. cbn [List.filter fst]. destruct (p k0) eqn:E; cbn [map_get].
  - rewrite IH. case_bool_decide; [subst; by rewrite E|done].
  - rewrite IH. case_bool_decide; [subst; by rewrite E|done].
Qed.

Lemma map_get_mem k v m : map_get k m = Some v -> (k, v) ∈ m.
Proof.
  induction m as [|[k0 v0] t IH]; [done|]. simpl. case_bool_decide; [intros [= ->]; subst; left|]. intros Hg. right. auto.
Qed.

Lemma map_set_nodup k v m : NoDup m.*1 -> NoDup (map_set k v m).*1.
Proof.
  intros Hnd. rewrite map_set_keys. destruct (is_some _) eqn:E; [done|].
  apply NoDup_app; repeat split; [done| |repeat constructor; set_solver].
  intros x Hx Hk. apply list_elem_of_singleton in Hk as ->.
  apply map_get_elem in Hx. congruence.
Qed.
End OrdMap.

(** * Sums and accumulation *)

Definition sumZ {A} (w : A -> Z) (l : list A) : Z := foldr (fun a n => w a + n)%Z 0%Z l.

Lemma sumZ_cons {A} (w : A -> Z) a l : sumZ w (a :: l) = (w a + sumZ w l)%Z.
Proof. done. Qed.

Lemma sumZ_app {A} (w : A -> Z) l1 l2 : sumZ w (l1 ++ l2) = (sumZ w l1 + sumZ w l2)%Z.
Proof. induction l1 as [|a l1 IH]; simpl; lia. Qed.

Lemma sumZ_map {A B} (w : B -> Z) (f : A -> B) l : sumZ w (List.map f l) = sumZ (fun a => w (f a)) l.
Proof. induction l as [|a l IH]; simpl; lia. Qed.

Lemma sumZ_concat {A} (w : A -> Z) ls : sumZ w (concat ls) = sumZ (sumZ w) ls.
Proof. induction ls as [|l ls IH]; simpl; [done|]. rewrite sumZ_app. lia. Qed.

Lemma sumZ_ext {A} (w1 w2 : A -> Z) l : (forall a, a ∈ l -> w1 a = w2 a) -> sumZ w1 l = sumZ w2 l.
Proof.
  induction l as [|a l IH]; intros H; simpl; [done|]. rewrite (H a), IH by set_solver. done.
Qed.

Lemma sumZ_zero {A} (w : A -> Z) l : (forall a, a ∈ l -> w a = 0%Z) -> sumZ w l = 0%Z.
Proof. induction l as [|a l IH]; intros H; simpl; [done|]. rewrite (H a), IH by set_solver. done. Qed.

Lemma sumZ_scale {A} (w : A -> Z) c l : sumZ (fun a => c * w a)%Z l = (c * sumZ w l)%Z.
Proof. induction l as [|a l IH]; simpl; lia. Qed.

Lemma sumZ_nonneg {A} (w : A -> Z) l : (forall a, a ∈ l -> (0 <= w a)%Z) -> (0 <= sumZ w l)%Z.
Proof.
  induction l as [|a l IH]; simpl; intros H; [done|]. assert (0 <= w a)%Z by (apply H; left).
  assert (0 <= sumZ w l)%Z by (apply IH; intros; apply H; by right). lia.
Qed.

Lemma sumZ_le {A} (w1 w2 : A -> Z) l : (forall a, a ∈ l -> (w1 a <= w2 a)%Z) -> (sumZ w1 l <= sumZ w2 l)%Z.
Proof.
  induction l as [|a l IH]; simpl; intros H; [done|]. assert (w1 a <= w2 a)%Z by (apply H; left).
  assert (sumZ w1 l <= sumZ w2 l)%Z by (apply IH; intros; apply H; by right). lia.
Qed.

#[export] Instance sumZ_perm {A} (w : A -> Z) : Proper ((≡ₚ) ==> (=)) (sumZ w).
Proof. induction 1; simpl; lia. Qed.

Lemma sumZ_filter {A} (w : A -> Z) (p : A -> bool) l :
  sumZ w (List.filter p l) = sumZ (fun a => if p a then w a else 0)%Z l.
Proof. induction l as [|a l IH]; simpl; [done|]. destruct (p a); simpl; lia. Qed.

(** The weight at one key of a list without repeated keys. *)
Lemma sumZ_at {A B} `{EqDecision B} (key : A -> B) (w : A -> Z) l x :
  NoDup (List.map key l) -> x ∈ l -> sumZ (fun a => if bool_decide (key a = key x) then w a else 0)%Z l = w x.
Proof.
  induction l as [|a l IH]; simpl; intros Hnd Hx; [set_solver|].
  apply NoDup_cons in Hnd as [Hni Hnd]. apply elem_of_cons in Hx as [->|Hx].
  - rewrite bool_decide_eq_true_2 by done. rewrite sumZ_zero; [lia|].
    intros b Hb. rewrite bool_decide_eq_false_2; [done|]. intros E. apply Hni.
    rewrite <-E. by apply list_elem_of_fmap_2.
  - rewrite IH by done. rewrite bool_decide_eq_false_2; [lia|]. intros E. apply Hni.
    rewrite E. by apply list_elem_of_fmap_2.
Qed.

(** A loop that updates the entry of a key of a [Map], or creates it. *)
Section Accumulate.
Context {K V A : Type} `{EqDecision K} (key : A -> K) (init : A -> V) (upd : A -> V -> V).

Definition acc_step (m : list (K * V)) (a : A) : list (K * V) :=
  map_set (key a) (upd a (map_get (key a) m ?? init a)) m.

Definition acc (l : list A) : list (K * V) := fold_left acc_step l [].

Lemma map_set_sum (w : V -> Z) (k : K) v (m : list (K * V)) :
  sumZ (fun e => w e.2) (map_set k v m) =
  (sumZ (fun e => w e.2) m + w v - match map_get k m with Some v0 => w v0 | None => 0 end)%Z.
Proof.
  induction m as [|[k0 v0] t IH]; simpl; [lia|]. case_bool_decide; simpl; [lia|]. rewrite IH. lia.
Qed.

Lemma map_set_Forall (P : K -> V -> Prop) (k : K) v (m : list (K * V)) :
  P k v -> Forall (fun e => P e.1 e.2) m -> Forall (fun e => P e.1 e.2) (map_set k v m).
Proof.
  intros Hv. induction 1 as [|[k0 v0] t Hx Ht IH]; simpl; [by repeat constructor|].
  case_bool_decide; subst; by constructor.
Qed.

Lemma map_get_Forall (P : K -> V -> Prop) (k : K) v (m : list (K * V)) :
  Forall (fun e => P e.1 e.2) m -> map_get k m = Some v -> P k v.
Proof.
  induction 1 as [|[k0 v0] t Hx Ht IH]; simpl; [done|]. case_bool_decide; [naive_solver|done].
Qed.

(** What every entry keeps: [P], true of a new entry and kept by an update. *)
Lemma acc_inv (P : K -> V -> Prop) l :
  (forall a, a ∈ l -> P (key a) (init a)) ->
  (forall a v, a ∈ l -> P (key a) v -> P (key a) (upd a v)) ->
  Forall (fun e => P e.1 e.2) (acc l) /\ NoDup (acc l).*1 /\ (forall k, k ∈ (acc l).*1 <-> k ∈ List.map key l).
Proof.
  unfold acc. intros Hi Hu.
  assert (H : forall m, Forall (fun e => P e.1 e.2) m -> NoDup m.*1 ->
    Forall (fun e => P e.1 e.2) (fold_left acc_step l m) /\ NoDup (fold_left acc_step l m).*1 /\
    (forall k, k ∈ (fold_left acc_step l m).*1 <-> k ∈ m.*1 \/ k ∈ List.map key l)).
  { induction l as [|a l IH]; intros m Hm Hnd; simpl; [set_solver|].
    destruct (IH ltac:(intros; apply Hi; by right) ltac:(intros; apply Hu; [by right|done]) (acc_step m a))
      as (H1 & H2 & H3).
    - apply map_set_Forall; [|done]. apply Hu; [by left|].
      destruct (map_get (key a) m) as [v|] eqn:E; simpl; [by eapply map_get_Forall|]. apply Hi. by left.
    - by apply map_set_nodup.
    - do 2 (split; [done|]). intros k. rewrite H3. unfold acc_step. rewrite map_set_keys.
      destruct (is_some (map_get (key a) m)) eqn:E; [|set_solver].
      apply map_get_elem in E. rewrite elem_of_cons. split; [tauto|]. intros [?|[->|?]]; auto. }
  destruct (H [] ltac:(constructor) ltac:(constructor)) as (H1 & H2 & H3).
  do 2 (split; [done|]). intros k. rewrite H3. set_solver.
Qed.

(** A weight that an update raises by [c] adds up to the sum of the [c]; an update
    may do so only while what the entries hold, by their size, and what is added
    stay within a bound. *)
Lemma acc_sum_bounded (P : K -> V -> Prop) (size w : V -> Z) (cost c : A -> Z) (B : Z) l :
  (forall v, (0 <= size v)%Z) -> (forall a, (0 <= cost a)%Z) ->
  (forall a, a ∈ l -> P (key a) (init a) /\ size (init a) = 0%Z /\ w (init a) = 0%Z) ->
  (forall a v, a ∈ l -> P (key a) v -> (size v + cost a <= B)%Z ->
     P (key a) (upd a v) /\ (size (upd a v) <= size v + cost a)%Z /\ w (upd a v) = (w v + c a)%Z) ->
  (sumZ cost l <= B)%Z ->
  Forall (fun e => P e.1 e.2) (acc l) /\ (sumZ (fun e => size e.2) (acc l) <= sumZ cost l)%Z /\
  sumZ (fun e => w e.2) (acc l) = sumZ c l.
Proof.
  unfold acc. intros Hs Hc Hi Hu.
  assert (H : forall m, Forall (fun e => P e.1 e.2) m -> (sumZ (fun e => size e.2) m + sumZ cost l <= B)%Z ->
    Forall (fun e => P e.1 e.2) (fold_left acc_step l m) /\
    (sumZ (fun e => size e.2) (fold_left acc_step l m) <= sumZ (fun e => size e.2) m + sumZ cost l)%Z /\
    sumZ (fun e => w e.2) (fold_left acc_step l m) = (sumZ (fun e => w e.2) m + sumZ c l)%Z).
  { induction l as [|a l IH]; intros m Hm Hb; simpl in *; [split; [done|lia]|].
    destruct (Hi a) as (Hia & Hs0 & Hw0); [by left|].
    assert (Hl : (0 <= sumZ cost l)%Z) by (apply sumZ_nonneg; auto).
    set (v := map_get (key a) m ?? init a).
    assert (Hv : P (key a) v /\ (size v <= sumZ (fun e => size e.2) m)%Z).
    { subst v. destruct (map_get (key a) m) as [v|] eqn:E; simpl.
      - split; [by eapply map_get_Forall|]. pose proof (map_set_sum size (key a) v m) as Hsum. rewrite E in Hsum.
        apply map_get_mem in E. clear -E Hs. induction m as [|e m IH]; [by apply elem_of_nil in E|].
        assert (0 <= sumZ (fun e => size e.2) m)%Z by (apply sumZ_nonneg; auto). pose proof (Hs e.2). simpl.
        apply elem_of_cons in E as [<-|E]; simpl in *; [lia|]. specialize (IH E). lia.
      - split; [done|]. rewrite Hs0. apply sumZ_nonneg. auto. }
    destruct Hv as [Hpv Hsv]. destruct (Hu a v) as (Hp' & Hs' & Hw'); [by left|done|lia|].
    destruct (IH ltac:(intros; apply Hi; by right) ltac:(intros; apply Hu; [by right|done..]) (acc_step m a)) as (H1 & H2 & H3).
    - unfold acc_step. by apply map_set_Forall.
    - unfold acc_step. rewrite map_set_sum. fold v. subst v. destruct (map_get (key a) m); simpl in *; lia.
    - split; [done|]. unfold acc_step in H2, H3 |- *. rewrite map_set_sum in H2, H3. fold v in H2, H3.
      subst v. destruct (map_get (key a) m); simpl in *; lia. }
  intros Hb. destruct (H [] ltac:(constructor)) as (H1 & H2 & H3); [done|]. by simpl in *.
Qed.

(** The entry of a key: the updates by the elements of that key, in order. *)
Definition same_key (k : K) (l : list A) : list A := List.filter (fun a => bool_decide (key a = k)) l.

Definition folded (l : list A) : option V :=
  match l with [] => None | a :: _ => Some (fold_left (fun v b => upd b v) l (init a)) end.

Lemma folded_snoc l a : folded (l ++ [a]) = Some (upd a (folded l ?? init a)).
Proof. destruct l as [|b l]; [done|]. simpl. by rewrite fold_left_app. Qed.

Lemma acc_get l k : map_get k (acc l) = folded (same_key k l).
Proof.
  unfold acc, same_key. induction l as [|a l IH] using rev_ind; [done|].
  rewrite fold_left_app, List.filter_app. cbn [fold_left List.filter]. unfold acc_step at 1.
  destruct (bool_decide_reflect (key a = k)) as [<-|Hk].
  - by rewrite map_get_set_eq, folded_snoc, IH.
  - rewrite app_nil_r, map_get_set_ne; [done|congruence].
Qed.

(** The keys are in the order of their first elements. *)
Lemma acc_keys l : (acc l).*1 = uniq (List.map key l).
Proof.
  unfold acc. induction l as [|a l IH] using rev_ind; [done|].
  rewrite fold_left_app, map_app. cbn [fold_left List.map]. unfold acc_step at 1. rewrite map_set_keys.
  rewrite uniq_snoc, IH. destruct (is_some _) eqn:E.
  - apply map_get_elem in E. rewrite IH, uniq_elem in E. by rewrite bool_decide_true.
  - assert (Hn : key a ∉ List.map key l); [|by rewrite bool_decide_false].
    intros Hin. apply not_true_iff_false in E. apply E, map_get_elem. by rewrite IH, uniq_elem.
Qed.
End Accumulate.

(** * Filters *)

Lemma Forall_filter' {A} (P : A -> Prop) (p : A -> bool) l : Forall P l -> Forall P (List.filter p l).
Proof. induction 1 as [|x l Hx _ IH]; simpl; [constructor|]. destruct (p x); [by constructor|done]. Qed.

Lemma elem_filter {A} (p : A -> bool) x l : x ∈ List.filter p l <-> x ∈ l /\ p x = true.
Proof. rewrite !list_elem_of_In. apply filter_In. Qed.

Lemma filter_filter_same {A} (p : A -> bool) l : List.filter p (List.filter p l) = List.filter p l.
Proof. induction l as [|x l IH]; simpl; [done|]. destruct (p x) eqn:E; simpl; [by rewrite E, IH|done]. Qed.

Lemma filter_negb_same {A} (p : A -> bool) l : List.filter (fun x => negb (p x)) (List.filter p l) = [].
Proof. induction l as [|x l IH]; simpl; [done|]. destruct (p x) eqn:E; simpl; [by rewrite E|done]. Qed.

Lemma filter_all {A} (p : A -> bool) l : Forall (fun y => p y = true) l -> List.filter p l = l.
Proof. induction 1 as [|x l Hx _ IH]; simpl; [done|]. by rewrite Hx, IH. Qed.

#[export] Instance filter_perm {A} (p : A -> bool) : Proper ((≡ₚ) ==> (≡ₚ)) (List.filter p).
Proof.
  induction 1 as [|x l l' _ IH|x y l|l1 l2 l3 _ IH1 _ IH2]; simpl.
  - done.
  - destruct (p x); [by constructor|done].
  - destruct (p x), (p y); try done. constructor.
  - by etransitivity.
Qed.

Lemma nodup_map_filter {A B} (f : A -> B) (p : A -> bool) l :
  NoDup (List.map f l) -> NoDup (List.map f (List.filter p l)).
Proof.
  induction l as [|x l IH]; simpl; [done|]. intros [Hni Hnd]%NoDup_cons. destruct (p x); simpl; [|auto].
  constructor; [|auto]. intros Hin. apply Hni.
  apply list_elem_of_In, in_map_iff in Hin as (y & <- & Hy). apply filter_In in Hy as [Hy _].
  apply list_elem_of_fmap_2. by apply list_elem_of_In.
Qed.

Lemma NoDup_incl_length' {A} (l1 l2 : list A) : NoDup l1 -> (forall x, x ∈ l1 -> x ∈ l2) -> length l1 <= length l2.
Proof. intros Hnd H. by apply submseteq_length, NoDup_submseteq. Qed.

Lemma filter_none {A} (p : A -> bool) l : Forall (fun y => p y = false) l -> List.filter p l = [].
Proof. induction 1 as [|x l Hx _ IH]; simpl; [done|]. by rewrite Hx. Qed.

(** * Booleans *)

Lemma negb_false_true b : negb b = false <-> b = true.
Proof. by destruct b. Qed.

(** Splits every boolean conjunction and disjunction of the context. *)
Ltac bool_hyps :=
  repeat match goal with
  | H : (_ && _)%bool = true |- _ => apply andb_true_iff in H as [? ?]
  | H : (_ || _)%bool = false |- _ => apply orb_false_iff in H as [? ?]
  | H : negb _ = true |- _ => apply negb_true_iff in H
  | H : negb _ = false |- _ => apply negb_false_true in H
  | H : bool_decide _ = true |- _ => apply bool_decide_eq_true_1 in H
  | H : bool_decide _ = false |- _ => apply bool_decide_eq_false_1 in H
  end.

(** Destructs the scrutinee of the first match or conditional of the goal. *)
Ltac step_match :=
  match goal with
  | |- context [match ?x with _ => _ end] => destruct x eqn:?
  end.

Create HintDb js discriminated.
#[export] Hint Rewrite @sort_by_elem @uniq_elem @map_get_set_eq @sort_by_length : js.
#[export] Hint Resolve uniq_nodup map_set_nodup sort_by_perm : js.
