(* ===== verification/JsString.v ===== *)
(** JavaScript strings as lists of UTF-16 code units, with the operations of
    [String.prototype] the program uses: [trim], [split], [join], [startsWith],
    [includes], [indexOf], [slice], the decimal printing of integers and the
    default (code unit) order of [Array.prototype.sort].

    A code unit is an [N]; every character of a literal written with [js] is
    below 128.  [jq] reads a back quote as the double quote character. *)

From Stdlib Require Import NArith ZArith Lia ZifyBool ZifyN Ascii String.
From stdpp Require Import base list gmap strings.
From S2P Require Import Prelude.

Notation jstr := (list N) (only parsing).

Definition js (s : string) : jstr :=
  List.map N_of_ascii (String.list_ascii_of_string s).

Definition jq (s : string) : jstr :=
  List.map (fun c => if N.eqb c 96 then 34%N else c) (js s).

(** Writes the literals of the goal out as lists of units. *)
Ltac norm_lits :=
  repeat match goal with
  | |- context [js ?s] => let v := eval vm_compute in (js s) in change (js s) with v
  | |- context [jq ?s] => let v := eval vm_compute in (jq s) in change (jq s) with v
  end; rewrite <-?app_assoc; cbn [app]; rewrite <-?app_assoc; cbn [app].

Definition jstr_eqb (a b : jstr) : bool := bool_decide (a = b).
Notation "a =s b" := (jstr_eqb a b) (at level 70) : js_scope.

(** [Boolean(s)] of a string. *)
Definition truthy (s : jstr) : bool :=
  match s with [] => false | _ => true end.

(** [s || d] of strings. *)
Definition or_str (s d : jstr) : jstr := if truthy s then s else d.

(** ** Character classes *)

Definition in_range (lo hi c : N) : bool := (N.leb lo c && N.leb c hi)%bool.

(** WhiteSpace and LineTerminator of ECMAScript: what [trim] removes and what
    the regular expression class [\s] matches. *)
Definition is_ws (c : N) : bool :=
  in_range 9 13 c || N.eqb c 32 || N.eqb c 160 || N.eqb c 5760 ||
  in_range 8192 8202 c || N.eqb c 8232 || N.eqb c 8233 || N.eqb c 8239 ||
  N.eqb c 8287 || N.eqb c 12288 || N.eqb c 65279.

Definition is_digit (c : N) : bool := in_range 48 57 c.

Definition is_word (c : N) : bool :=
  is_digit c || in_range 65 90 c || in_range 97 122 c || N.eqb c 95.

(** ** Trimming *)

Fixpoint drop_while (p : N -> bool) (s : jstr) : jstr :=
  match s with
  | [] => []
  | c :: t => if p c then drop_while p t else s
  end.

Definition trim_start (s : jstr) : jstr := drop_while is_ws s.
Definition trim_end (s : jstr) : jstr := reverse (drop_while is_ws (reverse s)).
Definition trim (s : jstr) : jstr := trim_end (trim_start s).

(** ** Searching *)

Fixpoint strip_prefix (p s : jstr) : option jstr :=
  match p, s with
  | [], _ => Some s
  | a :: p', b :: s' => if N.eqb a b then strip_prefix p' s' else None
  | _ :: _, [] => None
  end.

Definition starts_with (p s : jstr) : bool := is_some (strip_prefix p s).
Definition ends_with (p s : jstr) : bool := starts_with (reverse p) (reverse s).

(** [s.indexOf(p)], [None] for -1. *)
Fixpoint index_of (p s : jstr) : option nat :=
  if starts_with p s then Some 0%nat
  else match s with
       | [] => None
       | _ :: t => S <$> index_of p t
       end.

Definition includes (p s : jstr) : bool := is_some (index_of p s).

(** [s.slice(a, b)] for [0 <= a] and [0 <= b]. *)
Definition slice (a b : nat) (s : jstr) : jstr := take (b - a) (drop a s).

(** ** Splitting and joining *)

(** [s.split(c)] for a separator of one code unit. *)
Fixpoint split_unit (c : N) (s : jstr) : list jstr :=
  match s with
  | [] => [[]]
  | x :: t =>
      if N.eqb x c then [] :: split_unit c t
      else match split_unit c t with
           | [] => [[x]]
           | w :: ws => (x :: w) :: ws
           end
  end.

(** [xs.join(sep)] *)
Fixpoint join (sep : jstr) (xs : list jstr) : jstr :=
  match xs with
  | [] => []
  | [x] => x
  | x :: t => x ++ sep ++ join sep t
  end.

(** ** Integers in decimal *)

Fixpoint dec_digits (fuel : nat) (n : N) (acc : jstr) : jstr :=
  match fuel with
  | O => acc
  | S f =>
      let acc' := (48 + n mod 10)%N :: acc in
      if N.eqb (n / 10) 0 then acc' else dec_digits f (n / 10)%N acc'
  end.

(** [String(n)] of a non-negative integer (below 10^21). *)
Definition print_N (n : N) : jstr := dec_digits (S (N.size_nat n)) n [].

Definition print_Z (z : Z) : jstr :=
  match z with
  | Zneg p => 45%N :: print_N (Npos p)
  | _ => print_N (Z.to_N z)
  end.

Definition digits_from (acc : N) (s : jstr) : N :=
  fold_left (fun a c => 10 * a + (c - 48))%N s acc.

(** [Number.parseInt(s, 10)] of a string of decimal digits. *)
Definition digits_value (s : jstr) : N := digits_from 0 s.

Definition all_digits (s : jstr) : bool := truthy s && forallb is_digit s.

(** ** The default order of [sort]: by code units *)

Fixpoint jstr_compare (a b : jstr) : comparison :=
  match a, b with
  | [], [] => Eq
  | [], _ :: _ => Lt
  | _ :: _, [] => Gt
  | x :: a', y :: b' =>
      match N.compare x y with
      | Eq => jstr_compare a' b'
      | o => o
      end
  end.

Definition jstr_order (a b : jstr) : Z :=
  match jstr_compare a b with Lt => -1 | Eq => 0 | Gt => 1 end.

(** [xs.sort()] of an array of strings. *)
Definition sort_strings (l : list jstr) : list jstr := sort_by jstr_order l.

(** * Lemmas *)

Lemma jstr_eqb_true a b : (a =s b) = true <-> a = b.
Proof. apply bool_decide_eq_true. Qed.

Lemma jstr_eqb_false a b : (a =s b) = false <-> a <> b.
Proof. apply bool_decide_eq_false. Qed.

Lemma jstr_eqb_refl a : (a =s a) = true.
Proof. by apply jstr_eqb_true. Qed.

Lemma truthy_true s : truthy s = true <-> s <> [].
Proof. by destruct s. Qed.

Lemma truthy_false s : truthy s = false <-> s = [].
Proof. by destruct s. Qed.

(** ** Trimming *)

Lemma drop_while_suffix p s : exists u, s = u ++ drop_while p s /\ forallb p u = true.
Proof.
  induction s as [|c t [u [Hu Hp]]]; simpl; [by exists []|].
  destruct (p c) eqn:E; [|by exists []].
  exists (c :: u). simpl. rewrite E. simpl. split; [by f_equal|done].
Qed.

Lemma drop_while_head p s c t : drop_while p s = c :: t -> p c = false.
Proof.
  induction s as [|x s IH]; simpl; [done|].
  destruct (p x) eqn:E; [done|]. by intros [= -> _].
Qed.

Lemma drop_while_keep p c t : p c = false -> drop_while p (c :: t) = c :: t.
Proof. simpl. by intros ->. Qed.

Lemma drop_while_idemp p s : drop_while p (drop_while p s) = drop_while p s.
Proof.
  destruct (drop_while p s) as [|c t] eqn:E; [done|].
  apply drop_while_keep. by eapply drop_while_head.
Qed.

Lemma drop_while_app p u s : forallb p u = true -> drop_while p (u ++ s) = drop_while p s.
Proof. induction u as [|c t IH]; simpl; [done|]. by destruct (p c). Qed.

Lemma drop_while_all p s : forallb p s = true -> drop_while p s = [].
Proof. induction s as [|c t IH]; simpl; [done|]. by destruct (p c). Qed.

(** A string that neither begins nor ends with white space. *)
Definition trimmed (s : jstr) : Prop :=
  (forall c, head s = Some c -> is_ws c = false) /\
  (forall c, last s = Some c -> is_ws c = false).

Lemma trim_start_id s : (forall c, head s = Some c -> is_ws c = false) -> trim_start s = s.
Proof. destruct s as [|c t]; simpl; [done|]. intros H. unfold trim_start. by apply drop_while_keep, H. Qed.

Lemma trim_end_id s : (forall c, last s = Some c -> is_ws c = false) -> trim_end s = s.
Proof.
  intros H. unfold trim_end.
  rewrite <-(reverse_involutive s) at 2. f_equal.
  destruct (reverse s) as [|c t] eqn:E; [done|]. apply drop_while_keep, H.
  rewrite <-(reverse_involutive s), E, reverse_cons. by rewrite last_snoc.
Qed.

Lemma trim_id s : trimmed s -> trim s = s.
Proof. intros [Hh Hl]. unfold trim. by rewrite (trim_start_id s), trim_end_id. Qed.

Lemma trim_trimmed s : trimmed (trim s).
Proof.
  unfold trim. assert (Hu : forall c, head (trim_start s) = Some c -> is_ws c = false).
  { intros c Hc. destruct (trim_start s) as [|c' t] eqn:E; simplify_eq/=.
    eapply (drop_while_head is_ws s). exact E. }
  revert Hu. generalize (trim_start s). intros u Hu. unfold trim_end.
  destruct (drop_while_suffix is_ws (reverse u)) as [v [Hv Hp]].
  remember (drop_while is_ws (reverse u)) as w eqn:Hw.
  assert (Hru : u = reverse w ++ reverse v).
  { rewrite <-(reverse_involutive u), Hv, reverse_app. done. }
  split.
  - intros c Hc. apply Hu. rewrite Hru. destruct (reverse w); [done|]. exact Hc.
  - intros c Hc. destruct w as [|d w']; [done|]. symmetry in Hw.
    rewrite reverse_cons, last_snoc in Hc. injection Hc as <-.
    eapply drop_while_head. exact Hw.
Qed.

Lemma trim_idemp s : trim (trim s) = trim s.
Proof. apply trim_id, trim_trimmed. Qed.

Lemma trim_truthy s : (exists c, c ∈ s /\ is_ws c = false) -> truthy (trim s) = true.
Proof.
  intros (c & Hin & Hc). apply truthy_true. intros E.
  assert (Hall : forall u, drop_while is_ws u = [] -> c ∉ u).
  { intros u Hu Hcu. destruct (drop_while_suffix is_ws u) as (w & Hw & Hf).
    rewrite Hu, app_nil_r in Hw. subst w. rewrite forallb_forall in Hf.
    apply list_elem_of_In, Hf in Hcu. congruence. }
  destruct (drop_while_suffix is_ws s) as (w & Hw & Hf). unfold trim, trim_end, trim_start in E.
  apply (f_equal reverse) in E. rewrite reverse_involutive in E.
  apply Hall in E. apply E. rewrite elem_of_reverse. rewrite Hw in Hin.
  apply elem_of_app in Hin as [Hin|Hin]; [|done].
  rewrite forallb_forall in Hf. apply list_elem_of_In, Hf in Hin. congruence.
Qed.

Lemma trimmed_no_ws s : forallb (fun c => negb (is_ws c)) s = true -> trimmed s.
Proof.
  intros H. rewrite forallb_forall in H.
  split; intros c Hc; apply negb_true_iff, H, list_elem_of_In.
  - destruct s; simplify_eq/=. by left.
  - by apply last_Some_elem_of.
Qed.

(** ** Prefixes *)

Lemma strip_prefix_app p s : strip_prefix p (p ++ s) = Some s.
Proof. induction p as [|c p IH]; simpl; [done|]. by rewrite N.eqb_refl. Qed.

Lemma strip_prefix_some p s r : strip_prefix p s = Some r -> s = p ++ r.
Proof.
  revert s. induction p as [|a p IH]; intros s; simpl; [by intros [= ->]|].
  destruct s as [|b s]; [done|]. destruct (N.eqb_spec a b) as [->|]; [|done].
  intros H. f_equal. by apply IH.
Qed.

Lemma starts_with_app p s : starts_with p (p ++ s) = true.
Proof. unfold starts_with. by rewrite strip_prefix_app. Qed.

Lemma starts_with_true p s : starts_with p s = true <-> exists r, s = p ++ r.
Proof.
  unfold starts_with. destruct (strip_prefix p s) as [r|] eqn:E; simpl.
  - apply strip_prefix_some in E. naive_solver.
  - split; [done|]. intros [r ->]. by rewrite strip_prefix_app in E.
Qed.

Lemma includes_true p s : includes p s = true <-> exists u v, s = u ++ p ++ v.
Proof.
  unfold includes. induction s as [|c t IH]; simpl.
  - destruct (starts_with p []) eqn:E; simpl.
    + apply starts_with_true in E as [r E]. split; [|done]. intros _. by exists [], r.
    + split; [done|]. intros (u & v & H). destruct u; [|done].
      simpl in H. assert (starts_with p [] = true) by (apply starts_with_true; eauto). congruence.
  - destruct (starts_with p (c :: t)) eqn:E; simpl.
    + apply starts_with_true in E as [r E]. split; [|done]. intros _. by exists [], r.
    + destruct (index_of p t) as [n|]; simpl in *.
      * split; [|done]. intros _. destruct (proj1 IH eq_refl) as (u & v & ->).
        by exists (c :: u), v.
      * split; [done|]. intros (u & v & H). destruct u as [|d u]; simplify_eq/=.
        -- by rewrite H, starts_with_app in E.
        -- apply IH. eauto.
Qed.

(** ** Splitting and joining *)

Lemma split_unit_no c s : c ∉ s -> split_unit c s = [s].
Proof.
  induction s as [|x t IH]; intros H; simpl; [done|].
  apply not_elem_of_cons in H as [Hx Ht].
  destruct (N.eqb_spec x c); [by subst|]. by rewrite IH.
Qed.

Lemma split_unit_app c w s : c ∉ w -> split_unit c (w ++ c :: s) = w :: split_unit c s.
Proof.
  induction w as [|x w IH]; intros H; simpl.
  - by rewrite N.eqb_refl.
  - apply not_elem_of_cons in H as [Hx Ht].
    destruct (N.eqb_spec x c); [by subst|]. by rewrite IH.
Qed.

Lemma split_unit_join c ws :
  ws <> [] -> Forall (fun w => c ∉ w) ws -> split_unit c (join [c] ws) = ws.
Proof.
  induction ws as [|w ws IH]; intros Hne Hf; [done|].
  apply Forall_cons in Hf as [Hw Hf]. destruct ws as [|w' ws].
  - simpl. by apply split_unit_no.
  - change (join [c] (w :: w' :: ws)) with (w ++ c :: join [c] (w' :: ws)).
    rewrite split_unit_app by done. f_equal. by apply IH.
Qed.

Lemma split_unit_pieces c s : Forall (fun w => c ∉ w) (split_unit c s).
Proof.
  induction s as [|x t IH]; simpl; [repeat constructor; set_solver|].
  destruct (N.eqb_spec x c); [constructor; [set_solver|done]|].
  destruct (split_unit c t) as [|w ws]; [repeat constructor; set_solver|].
  apply Forall_cons in IH as [? ?]. constructor; [set_solver|done].
Qed.

Lemma split_unit_nonempty c s : split_unit c s <> [].
Proof. destruct s as [|x t]; simpl; [done|]. destruct (N.eqb x c); [done|]. by destruct (split_unit c t). Qed.

Lemma join_split_unit c s : join [c] (split_unit c s) = s.
Proof.
  induction s as [|x t IH]; [done|]. simpl.
  pose proof (split_unit_nonempty c t).
  destruct (N.eqb_spec x c) as [->|]; destruct (split_unit c t) as [|w ws] eqn:E; try done.
  - simpl in *. rewrite <-IH. done.
  - simpl in *. rewrite <-IH. by destruct ws.
Qed.

(** ** Decimal integers *)

Lemma is_digit_val d : (d < 10)%N -> is_digit (48 + d) = true.
Proof. intros. unfold is_digit, in_range. apply andb_true_iff; split; apply N.leb_le; lia. Qed.

Lemma digits_from_app acc u v : digits_from acc (u ++ v) = digits_from (digits_from acc u) v.
Proof. apply fold_left_app. Qed.

Lemma dec_digits_spec fuel n acc :
  (n < 10 ^ N.of_nat fuel)%N -> (0 < fuel)%nat ->
  exists u, dec_digits fuel n acc = u ++ acc /\ u <> [] /\
            forallb is_digit u = true /\ digits_value u = n.
Proof.
  revert n acc. induction fuel as [|f IH]; intros n acc Hn Hf; [lia|]. simpl.
  assert (Hmod : (n mod 10 < 10)%N) by (apply N.mod_lt; lia).
  assert (Hdm : (n = 10 * (n / 10) + n mod 10)%N) by (apply N.div_mod; lia).
  destruct (N.eqb_spec (n / 10) 0) as [E|E].
  - exists [(48 + n mod 10)%N]. split; [done|]. split; [done|]. split.
    + simpl. by rewrite is_digit_val.
    + unfold digits_value. simpl. lia.
  - destruct f as [|f'].
    { exfalso. apply E. apply N.div_small. simpl in Hn. lia. }
    destruct (IH (n / 10)%N ((48 + n mod 10)%N :: acc)) as (u & Hu & Hne & Hd & Hv).
    + apply N.Div0.div_lt_upper_bound. 
      replace (N.of_nat (S (S f'))) with (N.succ (N.of_nat (S f'))) in Hn by lia.
      by rewrite N.pow_succ_r' in Hn.
    + lia.
    + exists (u ++ [(48 + n mod 10)%N]). rewrite Hu, <-app_assoc. split; [done|].
      split; [by destruct u|]. split.
      * rewrite forallb_app, Hd. simpl. by rewrite is_digit_val.
      * unfold digits_value in *. rewrite digits_from_app, Hv. unfold digits_from; simpl fold_left.
        rewrite (N.add_comm 48), N.add_sub. by symmetry.
Qed.

Lemma size_nat_bound n : (n < 10 ^ N.of_nat (S (N.size_nat n)))%N.
Proof.
  assert (H : (n < 2 ^ N.of_nat (N.size_nat n))%N).
  { destruct n as [|p]; [simpl; lia|].
    pose proof (N.size_gt (Npos p)) as Hg.
    replace (N.of_nat (N.size_nat (N.pos p))) with (N.size (N.pos p)); [done|].
    simpl. clear Hg. induction p; simpl; lia. }
  eapply N.lt_le_trans; [exact H|].
  transitivity (10 ^ N.of_nat (N.size_nat n))%N.
  - apply N.pow_le_mono_l. lia.
  - apply N.pow_le_mono_r; lia.
Qed.

Lemma print_N_spec n :
  print_N n <> [] /\ forallb is_digit (print_N n) = true /\ digits_value (print_N n) = n.
Proof.
  unfold print_N.
  destruct (dec_digits_spec (S (N.size_nat n)) n []) as (u & Hu & H); [apply size_nat_bound|lia|].
  rewrite Hu, app_nil_r. done.
Qed.

Lemma print_N_value n : digits_value (print_N n) = n.
Proof. apply print_N_spec. Qed.

Lemma print_N_digits n : all_digits (print_N n) = true.
Proof.
  unfold all_digits. destruct (print_N_spec n) as (H1 & H2 & _).
  apply truthy_true in H1. by rewrite H1, H2.
Qed.

Lemma print_N_inj a b : print_N a = print_N b -> a = b.
Proof. intros H. by rewrite <-(print_N_value a), H, print_N_value. Qed.

Lemma digit_not_ws c : is_digit c = true -> is_ws c = false.
Proof.
  intros H. destruct (is_ws c) eqn:E; [|done].
  unfold is_digit, is_ws, in_range in *. lia.
Qed.

Lemma all_digits_no c s : forallb is_digit s = true -> is_digit c = false -> c ∉ s.
Proof.
  intros Hs Hc Hin. rewrite forallb_forall in Hs.
  apply list_elem_of_In, Hs in Hin. congruence.
Qed.

Lemma all_digits_trimmed s : forallb is_digit s = true -> trimmed s.
Proof.
  intros H. apply trimmed_no_ws. rewrite forallb_forall in *. intros c Hc.
  apply negb_true_iff, digit_not_ws, H, Hc.
Qed.

(** ** The code unit order *)

Lemma jstr_compare_antisym a b : jstr_compare b a = CompOpp (jstr_compare a b).
Proof.
  revert b. induction a as [|x a IH]; intros [|y b]; simpl; try done.
  rewrite N.compare_antisym. destruct (x ?= y)%N; simpl; auto.
Qed.

Lemma jstr_order_total a b : (jstr_order a b <= 0)%Z \/ (jstr_order b a <= 0)%Z.
Proof. unfold jstr_order. rewrite (jstr_compare_antisym a b). destruct (jstr_compare a b); simpl; lia. Qed.

Lemma jstr_compare_eq a b : jstr_compare a b = Eq -> a = b.
Proof.
  revert b. induction a as [|x a IH]; intros [|y b]; simpl; try done.
  destruct (N.compare_spec x y) as [->|?|?]; try done. intros H. f_equal. auto.
Qed.

#[export] Hint Rewrite jstr_eqb_refl trim_idemp print_N_value strip_prefix_app starts_with_app : js.
#[export] Hint Resolve trim_trimmed split_unit_pieces print_N_digits jstr_order_total : js.

(** * Searching *)

Lemma index_of_none p s : includes p s = false <-> index_of p s = None.
Proof. unfold includes. by destruct (index_of p s). Qed.

Lemma index_of_some p s i :
  index_of p s = Some i -> s = take i s ++ p ++ drop (i + length p) s.
Proof.
  revert i. induction s as [|c s IH]; intros i; cbn [index_of].
  - destruct (starts_with p []) eqn:E; [|done]. apply starts_with_true in E as [r E]. intros [= <-].
    by destruct p.
  - destruct (starts_with p (c :: s)) eqn:E.
    + intros [= <-]. apply starts_with_true in E as [r ->]. cbn [take app Nat.add]. by rewrite drop_app_length.
    + destruct (index_of p s) as [j|]; [|done]. intros [= <-]. cbn [take app Nat.add drop]. f_equal. by apply IH.
Qed.

(** There is no occurrence before the one found. *)
Lemma index_of_before p s i : p <> [] -> index_of p s = Some i -> includes p (take i s) = false.
Proof.
  intros Hp. revert i. induction s as [|c s IH]; intros i; cbn [index_of].
  - destruct (starts_with p []); [|done]. intros [= <-]. by destruct p.
  - destruct (starts_with p (c :: s)) eqn:E; [intros [= <-]; by destruct p|].
    destruct (index_of p s) as [j|]; [|done]. intros [= <-]. cbn [take]. apply index_of_none. cbn [index_of].
    destruct (starts_with p (c :: take j s)) eqn:E'.
    + apply starts_with_true in E' as [r E']. assert (starts_with p (c :: s) = true); [|congruence].
      apply starts_with_true. exists (r ++ drop j s). rewrite app_assoc, <-E'. simpl. by rewrite take_drop.
    + by rewrite (proj1 (index_of_none _ _) (IH j eq_refl)).
Qed.

(** The first occurrence of a mark whose head unit does not occur again in it. *)
Lemma index_of_first c q v s :
  c ∉ q -> includes (c :: q) v = false -> index_of (c :: q) (v ++ (c :: q) ++ s) = Some (length v).
Proof.
  intros Hc. induction v as [|x v IH]; intros Hv.
  - pose proof (starts_with_app (c :: q) s) as E. cbn [app length index_of] in *. by rewrite E.
  - cbn [app length index_of]. destruct (starts_with (c :: q) (x :: v ++ c :: q ++ s)) eqn:E.
    + exfalso. apply starts_with_true in E as [r E].
      destruct (decide (length (c :: q) <= length (x :: v))) as [Hl|Hl].
      * assert (Hi : includes (c :: q) (x :: v) = true); [|congruence].
        apply includes_true. exists [], (drop (length (c :: q)) (x :: v)).
        assert (Ht : take (length (c :: q)) (x :: v ++ c :: q ++ s) = c :: q) by (by rewrite E, take_app_length).
        change (x :: v ++ c :: q ++ s) with ((x :: v) ++ c :: q ++ s) in Ht. rewrite take_app_le in Ht by done.
        pose proof (take_drop (length (c :: q)) (x :: v)) as Htd. rewrite Ht in Htd. exact (eq_sym Htd).
      * (* the mark would contain its head again *)
        assert (Hn : (x :: v ++ c :: q ++ s) !! length (x :: v) = Some c).
        { exact (list_lookup_middle (x :: v) (q ++ s) c _ eq_refl). }
        rewrite E in Hn. simpl length in Hl. change ((q ++ r) !! length v = Some c) in Hn.
        rewrite lookup_app_l in Hn by lia. by apply list_elem_of_lookup_2 in Hn.
    + change (v ++ c :: q ++ s) with (v ++ (c :: q) ++ s). rewrite IH; [done|].
      destruct (includes (c :: q) v) eqn:E'; [|done]. apply includes_true in E' as (a & b & ->).
      assert (includes (c :: q) (x :: a ++ (c :: q) ++ b) = true); [|congruence].
      apply includes_true. by exists (x :: a), b.
Qed.

(** ** Units of a trimmed string *)

Lemma drop_while_sub p s c : c ∈ drop_while p s -> c ∈ s.
Proof. destruct (drop_while_suffix p s) as (u & E & _). intros H. rewrite E. set_solver. Qed.

Lemma trim_sub s c : c ∈ trim s -> c ∈ s.
Proof.
  unfold trim, trim_end, trim_start. rewrite elem_of_reverse. intros H%drop_while_sub.
  rewrite elem_of_reverse in H. by apply drop_while_sub in H.
Qed.

Lemma trim_end_app b s : forallb is_ws b = true -> trim_end (s ++ b) = trim_end s.
Proof.
  intros H. unfold trim_end. rewrite reverse_app, drop_while_app; [done|].
  rewrite forallb_forall in *. intros c Hc. apply H, list_elem_of_In, elem_of_reverse, list_elem_of_In, Hc.
Qed.

(** White space around a text that has none at its ends. *)
Lemma trim_around a s b : forallb is_ws a = true -> forallb is_ws b = true -> trimmed s -> s <> [] -> trim (a ++ s ++ b) = s.
Proof.
  intros Ha Hb Hs Hne. unfold trim. unfold trim_start. rewrite drop_while_app by done.
  destruct s as [|c t]; [done|]. rewrite <-app_comm_cons, drop_while_keep by exact (proj1 Hs c eq_refl).
  rewrite app_comm_cons, trim_end_app by done. apply trim_end_id, Hs.
Qed.
