(* ===== verification/Regex.v ===== *)
(** Regular expressions with the backtracking semantics of ECMAScript: greedy
    quantifiers with the empty-iteration check and per-iteration capture reset,
    leftmost alternatives first, capture groups, back references, [^], [$] and
    word boundaries.  The matcher is in continuation style, as in the language
    specification; a quantifier's loop is bounded by the length of the input
    left, which [rep_loop_enough] shows is never what stops it. *)

From Stdlib Require Import NArith ZArith Lia ZifyBool ZifyN.
From stdpp Require Import base list gmap strings.
From S2P Require Import Prelude JsString.

(** * Syntax *)

Inductive re :=
| RLit (l : jstr)                              (** a literal sequence of units *)
| RSet (p : N -> bool)                         (** a character class *)
| RSeq (a b : re)
| RAlt (a b : re)
| RRep (r : re) (mn : nat) (mx : option nat)   (** greedy quantifier *)
| RGroup (i : nat) (r : re)                    (** capture group [i] *)
| RBack (i : nat)                              (** back reference *)
| RBol                                         (** [^] *)
| REol                                         (** [$] *)
| RWordB.                                      (** word boundary *)


Definition RStar (r : re) : re := RRep r 0 None.
Definition RPlus (r : re) : re := RRep r 1 None.
Definition ROpt (r : re) : re := RRep r 0 (Some 1).

Fixpoint RSeqs (l : list re) : re :=
  match l with
  | [] => RLit []
  | [r] => r
  | r :: t => RSeq r (RSeqs t)
  end.

Fixpoint RAlts (l : list re) : re :=
  match l with
  | [] => RSet (fun _ => false)
  | [r] => r
  | r :: t => RAlt r (RAlts t)
  end.

(** [.] without the [s] flag *)
Definition is_line_end (c : N) : bool := (c =? 10)%N || (c =? 13)%N || (c =? 8232)%N || (c =? 8233)%N.
Definition RDot : re := RSet (fun c => negb (is_line_end c)).
Definition RAny : re := RSet (fun _ => true).
Definition RWs : re := RSet is_ws.
Definition RDigit : re := RSet is_digit.

(** A class given by its members. *)
Definition one_of (l : jstr) (c : N) : bool := existsb (N.eqb c) l.

(** * Matching *)

Record st := St { prev : option N; rest : jstr; caps : list (nat * jstr) }.

Fixpoint groups (r : re) : list nat :=
  match r with
  | RSeq a b | RAlt a b => groups a ++ groups b
  | RRep r _ _ => groups r
  | RGroup i r => i :: groups r
  | _ => []
  end.

Fixpoint cap_get (i : nat) (l : list (nat * jstr)) : option jstr :=
  match l with
  | [] => None
  | (j, v) :: t => if Nat.eqb i j then Some v else cap_get i t
  end.

Definition clear_caps (gs : list nat) (s : st) : st :=
  match gs with
  | [] => s
  | _ => St (prev s) (rest s) (List.filter (fun p => negb (existsb (Nat.eqb p.1) gs)) (caps s))
  end.

Definition set_cap (i : nat) (v : jstr) (s : st) : st :=
  St (prev s) (rest s) ((i, v) :: List.filter (fun p => negb (Nat.eqb p.1 i)) (caps s)).

(** The state after consuming [u], [v] being what is left. *)
Definition adv (s : st) (u v : jstr) : st :=
  St (match last u with Some c => Some c | None => prev s end) v (caps s).

Definition word_at (o : option N) : bool :=
  match o with Some c => is_word c | None => false end.

Definition consumed (s s' : st) : jstr := take (length (rest s) - length (rest s')) (rest s).

Section Rep.
(** [body] matches the quantified atom, [k] the rest of the expression. *)
Context (body : (st -> option st) -> st -> option st) (gs : list nat) (k : st -> option st).

Fixpoint rep_loop (n mn : nat) (mx : option nat) (s : st) : option st :=
  match mx with
  | Some O => k s
  | _ =>
    match n with
    | O => None
    | S n' =>
      match body (fun s' =>
               if Nat.eqb mn 0 && Nat.eqb (length (rest s')) (length (rest s)) then None
               else rep_loop n' (pred mn) (pred <$> mx) s')
              (clear_caps gs s) with
      | Some x => Some x
      | None => if Nat.eqb mn 0 then k s else None
      end
    end
  end.
End Rep.

Fixpoint m (r : re) (k : st -> option st) (s : st) {struct r} : option st :=
  match r with
  | RLit l =>
      match strip_prefix l (rest s) with
      | Some t => k (adv s l t)
      | None => None
      end
  | RSet p =>
      match rest s with
      | c :: t => if p c then k (adv s [c] t) else None
      | [] => None
      end
  | RSeq a b => m a (m b k) s
  | RAlt a b => match m a k s with Some x => Some x | None => m b k s end
  | RRep r0 mn mx => rep_loop (m r0) (groups r0) k (mn + S (length (rest s))) mn mx s
  | RGroup i r0 => m r0 (fun s' => k (set_cap i (consumed s s') s')) s
  | RBack i =>
      match cap_get i (caps s) with
      | None => k s
      | Some v => match strip_prefix v (rest s) with
                  | Some t => k (adv s v t)
                  | None => None
                  end
      end
  | RBol => match prev s with None => k s | Some _ => None end
  | REol => match rest s with [] => k s | _ :: _ => None end
  | RWordB =>
      if Bool.eqb (word_at (prev s)) (word_at (head (rest s))) then None else k s
  end.

(** A match found: where it starts, what is left after it, the captures. *)
Record found := Found { f_before : nat; f_text : jstr; f_prev : option N; f_rest : jstr; f_caps : list (nat * jstr) }.

Fixpoint scan (r : re) (i : nat) (p : option N) (s : jstr) : option found :=
  match m r Some (St p s []) with
  | Some s' => Some (Found i (take (length s - length (rest s')) s) (prev s') (rest s') (caps s'))
  | None => match s with
            | [] => None
            | c :: t => scan r (S i) (Some c) t
            end
  end.

(** [s.match(re)], [re.exec(s)] for an expression without the [g] flag. *)
Definition re_match (r : re) (s : jstr) : option found := scan r 0 None s.

(** [re.test(s)] *)
Definition re_test (r : re) (s : jstr) : bool := is_some (re_match r s).

(** [m\[i\]] of a match. *)
Definition group (f : found) (i : nat) : option jstr := cap_get i (f_caps f).
Definition group_or_empty (f : found) (i : nat) : jstr := nullish (group f i) [].

(** The [while ((m = re.exec(s)) !== null)] loop of a [g] expression: every
    match from [lastIndex] on.  An expression that matches the empty string
    would not advance (the program has none); the fuel is the length of [s]. *)
Fixpoint exec_all_from (fuel : nat) (r : re) (i : nat) (p : option N) (s : jstr) : list found :=
  match fuel with
  | O => []
  | S n =>
      match scan r i p s with
      | None => []
      | Some f => f :: exec_all_from n r (f_before f + length (f_text f)) (f_prev f) (f_rest f)
      end
  end.

Definition exec_all (r : re) (s : jstr) : list found :=
  exec_all_from (S (length s)) r 0 None s.

(** [s.replaceAll(re, w)] with a [g] expression and a literal replacement. *)
Fixpoint replace_from (pos : nat) (s : jstr) (fs : list found) (w : jstr) : jstr :=
  match fs with
  | [] => s
  | f :: t =>
      take (f_before f - pos) s ++ w ++
      replace_from (f_before f + length (f_text f)) (f_rest f) t w
  end.

Definition replace_all (r : re) (w s : jstr) : jstr := replace_from 0 s (exec_all r s) w.

(** [s.split(re)] without captures in [re]. *)
Fixpoint split_from (pos : nat) (s : jstr) (fs : list found) : list jstr :=
  match fs with
  | [] => [s]
  | f :: t => take (f_before f - pos) s :: split_from (f_before f + length (f_text f)) (f_rest f) t
  end.

Definition split_re (r : re) (s : jstr) : list jstr := split_from 0 s (exec_all r s).

(** * Lemmas *)

Lemma adv_nil s : adv s [] (rest s) = s.
Proof. by destruct s. Qed.

Lemma adv_adv s u v w : adv (adv s u (v ++ w)) v w = adv s (u ++ v) w.
Proof.
  unfold adv; simpl. f_equal. destruct (last v) as [c|] eqn:E.
  - assert (Hv : last (u ++ v) = Some c); [|by rewrite Hv].
    apply last_Some in E as [v' ->]. by rewrite app_assoc, last_snoc.
  - apply last_None in E as ->. by rewrite app_nil_r.
Qed.

Lemma m_seq a b k s : m (RSeq a b) k s = m a (m b k) s.
Proof. done. Qed.

Lemma m_lit l k s t : rest s = l ++ t -> m (RLit l) k s = k (adv s l t).
Proof. intros H. simpl. by rewrite H, strip_prefix_app. Qed.

Lemma m_lit_fail l k s : strip_prefix l (rest s) = None -> m (RLit l) k s = None.
Proof. intros H. simpl. by rewrite H. Qed.

Lemma m_group i r k s : m (RGroup i r) k s = m r (fun s' => k (set_cap i (consumed s s') s')) s.
Proof. done. Qed.

Lemma consumed_adv s u v : rest s = u ++ v -> consumed s (adv s u v) = u.
Proof.
  intros H. unfold consumed. simpl. rewrite H, length_app.
  replace (length u + length v - length v)%nat with (length u) by lia.
  by rewrite take_app_length.
Qed.

(** The matcher never looks past the continuation's failure: if the rest of the
    expression fails everywhere, so does the whole. *)
Lemma rep_loop_none body gs n mn mx s :
  (forall k s, (forall s', k s' = None) -> body k s = None) ->
  rep_loop body gs (fun _ => None) n mn mx s = None.
Proof.
  intros Hb. revert mn mx s. induction n as [|n IH]; intros mn mx s; simpl.
  - by destruct mx as [[|?]|].
  - assert (E : body (fun s' => if Nat.eqb mn 0 && Nat.eqb (length (rest s')) (length (rest s)) then None
                 else rep_loop body gs (fun _ => None) n (pred mn) (pred <$> mx) s') (clear_caps gs s) = None).
    { apply Hb. intros s'. destruct (_ && _)%bool; [done|apply IH]. }
    rewrite E. destruct mx as [[|?]|]; [done|by destruct (mn =? 0)|by destruct (mn =? 0)].
Qed.

(** ** Runs of a character class *)

Section Runs.
Context (p : N -> bool) (k : st -> option st).

Lemma rep_set_success n mn s u v x :
  rest s = u ++ v -> forallb p u = true -> mn <= length u -> length u < n ->
  match v with c :: _ => p c = false | [] => True end ->
  k (adv s u v) = Some x ->
  rep_loop (m (RSet p)) [] k n mn None s = Some x.
Proof.
  revert n mn s. induction u as [|c u IH]; intros n mn s Hr Hp Hmn Hn Hv Hk; simpl in *.
  - destruct n; [lia|]. simpl. rewrite Hr. assert (mn = 0) as -> by lia. simpl.
    rewrite <-Hr, adv_nil in Hk.
    destruct v as [|d v]; simpl; [done|]. by rewrite Hv.
  - destruct n; [lia|]. simpl. rewrite Hr. simpl. apply andb_true_iff in Hp as [Hc Hp]. rewrite Hc.
    assert (Hlen : Nat.eqb (length (u ++ v)) (S (length (u ++ v))) = false) by (apply Nat.eqb_neq; lia).
    rewrite Hlen, andb_false_r.
    rewrite (IH n (pred mn) (adv s [c] (u ++ v))); try done; try lia.
    rewrite (adv_adv s [c] u v). done.
Qed.

Lemma rep_set_fail n mn s u v :
  rest s = u ++ v -> forallb p u = true -> 
  match v with c :: _ => p c = false | [] => True end ->
  (forall u1 u2, u = u1 ++ u2 -> mn <= length u1 -> k (adv s u1 (u2 ++ v)) = None) ->
  rep_loop (m (RSet p)) [] k n mn None s = None.
Proof.
  revert n mn s. induction u as [|c u IH]; intros n mn s Hr Hp Hv Hk; simpl in *.
  - destruct n; [done|]. simpl. rewrite Hr. 
    assert (E : (if mn =? 0 then k s else None) = None).
    { destruct (Nat.eqb_spec mn 0) as [->|]; [|done].
      
      transitivity (k (adv s [] v)); [by rewrite <-(adv_nil s) at 1; rewrite Hr|by apply (Hk [] [])]. }
    rewrite E. destruct v as [|d v]; simpl; [done|]. by rewrite Hv.
  - destruct n; [done|]. simpl. rewrite Hr. simpl. apply andb_true_iff in Hp as [Hc Hp]. rewrite Hc.
    assert (Hlen : Nat.eqb (length (u ++ v)) (S (length (u ++ v))) = false) by (apply Nat.eqb_neq; lia).
    rewrite Hlen, andb_false_r. rewrite IH; try done.
    + destruct (Nat.eqb_spec mn 0) as [->|]; [|done].
      
      transitivity (k (adv s [] ((c :: u) ++ v))); [by rewrite <-(adv_nil s) at 1; rewrite Hr|].
      apply (Hk [] (c :: u)); [done|simpl; lia].
    + intros u1 u2 -> Hl. rewrite (adv_adv s [c] u1 (u2 ++ v)) || rewrite <-app_assoc, (adv_adv s [c] u1).
      apply (Hk (c :: u1) u2); [done|simpl; lia].
Qed.

(** What a run that succeeds consumed. *)
Lemma rep_set_inv n mn s x :
  rep_loop (m (RSet p)) [] k n mn None s = Some x ->
  exists u v, rest s = u ++ v /\ forallb p u = true /\ mn <= length u /\ k (adv s u v) = Some x.
Proof.
  revert mn s. induction n as [|n IH]; intros mn s; simpl; [done|].
  destruct (rest s) as [|c t] eqn:Hr.
  - destruct (Nat.eqb_spec mn 0) as [->|]; [|done]. intros H.
    exists [], []. split; [done|]. split; [done|]. split; [lia|].
    by rewrite <-(adv_nil s), Hr in H.
  - assert (Hstop : (if mn =? 0 then k s else None) = Some x ->
      exists u v, c :: t = u ++ v /\ forallb p u = true /\ mn <= length u /\ k (adv s u v) = Some x).
    { destruct (Nat.eqb_spec mn 0) as [->|]; [|done]. intros H.
      exists [], (c :: t). split; [done|]. split; [done|]. split; [simpl; lia|].
      by rewrite <-(adv_nil s), Hr in H. }
    destruct (p c) eqn:Hc; [|exact Hstop].
    simpl. assert (Hlen : Nat.eqb (length t) (S (length t)) = false) by (apply Nat.eqb_neq; lia).
    rewrite Hlen, andb_false_r.
    match goal with |- context [rep_loop ?b _ k n] => change b with (m (RSet p)) end.
    destruct (rep_loop (m (RSet p)) [] k n (pred mn) None (adv s [c] t)) as [y|] eqn:E; [|exact Hstop].
    intros [= ->]. apply IH in E as (u & v & Hu & Hp & Hl & Hk). simpl in Hu.
    exists (c :: u), v. simpl. rewrite Hc, Hp. split; [by f_equal|]. split; [done|]. split; [lia|].
    rewrite <-Hk, Hu, (adv_adv s [c] u v). done.
Qed.
End Runs.

Lemma m_run p mn k s u v x :
  rest s = u ++ v -> forallb p u = true -> mn <= length u ->
  match v with c :: _ => p c = false | [] => True end ->
  k (adv s u v) = Some x -> m (RRep (RSet p) mn None) k s = Some x.
Proof.
  intros Hr Hp Hm Hv Hk. simpl. eapply rep_set_success; try done.
  rewrite Hr, length_app. lia.
Qed.

Lemma m_run_fail p mn k s u v :
  rest s = u ++ v -> forallb p u = true ->
  match v with c :: _ => p c = false | [] => True end ->
  (forall u1 u2, u = u1 ++ u2 -> mn <= length u1 -> k (adv s u1 (u2 ++ v)) = None) ->
  m (RRep (RSet p) mn None) k s = None.
Proof. intros. simpl. by eapply rep_set_fail. Qed.

Lemma m_run_inv p mn k s x :
  m (RRep (RSet p) mn None) k s = Some x ->
  exists u v, rest s = u ++ v /\ forallb p u = true /\ mn <= length u /\ k (adv s u v) = Some x.
Proof. simpl. apply rep_set_inv. Qed.

(** ** The fuel of a quantifier suffices *)

(** A body that hands its continuation only states with at most as much input. *)
Definition shrinking (body : (st -> option st) -> st -> option st) : Prop :=
  forall k1 k2 s, (forall s', length (rest s') <= length (rest s) -> k1 s' = k2 s') -> body k1 s = body k2 s.

Lemma length_strip_prefix l s t : strip_prefix l s = Some t -> length t <= length s.
Proof. intros ->%strip_prefix_some. rewrite length_app. lia. Qed.

Lemma rep_loop_enough body gs k n1 n2 mn mx s :
  shrinking body ->
  mn + length (rest s) < n1 -> mn + length (rest s) < n2 ->
  rep_loop body gs k n1 mn mx s = rep_loop body gs k n2 mn mx s.
Proof.
  intros Hb. revert n2 mn mx s. induction n1 as [|n1 IH]; intros n2 mn mx s H1 H2; [lia|].
  destruct n2 as [|n2]; [lia|]. simpl.
  rewrite (Hb _ (fun s' => if Nat.eqb mn 0 && Nat.eqb (length (rest s')) (length (rest s)) then None
             else rep_loop body gs k n2 (pred mn) (pred <$> mx) s')); [done|].
  intros s' Hs'.
  assert (Hrest : rest (clear_caps gs s) = rest s) by (by destruct gs).
  rewrite Hrest in Hs'.
  destruct (Nat.eqb_spec mn 0) as [->|]; destruct (Nat.eqb_spec (length (rest s')) (length (rest s))); simpl;
    try done; apply IH; lia.
Qed.

Lemma rep_loop_ext body gs k1 k2 n mn mx s :
  shrinking body ->
  (forall s', length (rest s') <= length (rest s) -> k1 s' = k2 s') ->
  rep_loop body gs k1 n mn mx s = rep_loop body gs k2 n mn mx s.
Proof.
  intros Hb. revert mn mx s. induction n as [|n IH]; intros mn mx s Hk; simpl.
  - destruct mx as [[|?]|]; [|done|done]. apply Hk. lia.
  - assert (Hrest : rest (clear_caps gs s) = rest s) by (by destruct gs).
    rewrite (Hb _ (fun s' => if Nat.eqb mn 0 && Nat.eqb (length (rest s')) (length (rest s)) then None
             else rep_loop body gs k2 n (pred mn) (pred <$> mx) s')).
    + rewrite (Hk s) by lia. by destruct mx as [[|?]|].
    + intros s' Hs'. rewrite Hrest in Hs'. destruct (_ && _)%bool; [done|].
      apply IH. intros s'' ?. apply Hk. lia.
Qed.

Lemma m_shrinking r : shrinking (m r).
Proof.
  induction r as [l|p|a IHa b IHb|a IHa b IHb|r IH mn mx|i r IH|i| | |]; intros k1 k2 s Hk; simpl.
  - destruct (strip_prefix l (rest s)) eqn:E; [|done]. apply Hk. simpl. by eapply length_strip_prefix.
  - destruct (rest s) as [|c t] eqn:E; [done|]. destruct (p c); [|done]. apply Hk. simpl. lia.
  - apply IHa. intros s' Hs'. apply IHb. intros s'' Hs''. apply Hk. lia.
  - by rewrite (IHa k1 k2), (IHb k1 k2).
  - by apply rep_loop_ext.
  - apply IH. intros s' Hs'. by apply Hk.
  - destruct (cap_get i (caps s)); [|by apply Hk].
    destruct (strip_prefix _ (rest s)) eqn:E; [|done]. apply Hk. simpl. by eapply length_strip_prefix.
  - destruct (prev s); [done|]. by apply Hk.
  - destruct (rest s) eqn:E; [|done]. apply Hk. by rewrite E.
  - destruct (Bool.eqb _ _); [done|]. by apply Hk.
Qed.

(** Any fuel above the quantifier's own gives the same match. *)
Lemma rep_fuel_irrelevant r k n mn mx s :
  mn + length (rest s) < n ->
  rep_loop (m r) (groups r) k n mn mx s = m (RRep r mn mx) k s.
Proof. intros H. simpl. apply rep_loop_enough; [apply m_shrinking|done|lia]. Qed.

(** ** Anchored expressions *)

Lemma scan_bol_later r i c s : scan (RSeq RBol r) i (Some c) s = None.
Proof. revert i c. induction s as [|d t IH]; intros i c; simpl; [done|apply IH]. Qed.

(** [/^.../] is tried at the start only. *)
Lemma match_bol r s :
  re_match (RSeq RBol r) s =
  (fun s' => Found 0 (take (length s - length (rest s')) s) (prev s') (rest s') (caps s')) <$>
  m r Some (St None s []).
Proof.
  unfold re_match. destruct s as [|c t]; simpl.
  - by destruct (m r Some _).
  - destruct (m r Some _); simpl; [done|]. apply scan_bol_later.
Qed.

Lemma test_bol r s : re_test (RSeq RBol r) s = is_some (m r Some (St None s [])).
Proof. unfold re_test. rewrite match_bol. by destruct (m r Some _). Qed.

(** [/^[class]+$/.test(s)] *)
Lemma test_class p s :
  re_test (RSeqs [RBol; RPlus (RSet p); REol]) s = (truthy s && forallb p s)%bool.
Proof.
  unfold RPlus. cbn [RSeqs]. rewrite test_bol, m_seq.
  destruct (truthy s && forallb p s)%bool eqn:E.
  - apply andb_true_iff in E as [Ht Hp]. apply truthy_true in Ht.
    erewrite (m_run p 1 _ (St None s []) s []); [done|simpl; by rewrite app_nil_r|done| |done|done].
    destruct s; [done|simpl; lia].
  - match goal with |- is_some ?o = _ => destruct o as [x|] eqn:Em; [|done] end.
    apply m_run_inv in Em as (u & v & Hu & Hp & Hl & Hk). simpl in *. subst.
    destruct v as [|? ?]; [|done]. rewrite app_nil_r, Hp in E.
    destruct u; simpl in *; [lia|done].
Qed.

(** ** Steps of a match *)

(** A continuation that fails on every unit of the class. *)
Definition rejects (p : N -> bool) (k : st -> option st) : Prop :=
  forall s c t, rest s = c :: t -> p c = true -> k s = None.

Definition stops (p : N -> bool) (v : jstr) : Prop := match v with c :: _ => p c = false | [] => True end.

Lemma rejects_lit p d l k : p d = false -> rejects p (m (RLit (d :: l)) k).
Proof.
  intros Hd s c t Hs Hc. simpl. rewrite Hs. simpl.
  destruct (N.eqb_spec d c) as [->|]; [congruence|done].
Qed.

Lemma rejects_seq p a b k : rejects p (m a (m b k)) -> rejects p (m (RSeq a b) k).
Proof. done. Qed.

Lemma rejects_eol p : rejects p (m REol Some).
Proof. intros s c t Hs _. simpl. by rewrite Hs. Qed.

Lemma rejects_set_cap p k i (w : st -> jstr) : rejects p k -> rejects p (fun s' => k (set_cap i (w s') s')).
Proof. intros Hk s c t Hs Hc. by apply (Hk _ c t). Qed.

(** A run whose continuation rejects the class takes all it can. *)
Lemma m_run_eq p mn k s u v :
  rest s = u ++ v -> forallb p u = true -> mn <= length u -> stops p v -> rejects p k ->
  m (RRep (RSet p) mn None) k s = k (adv s u v).
Proof.
  intros Hr Hp Hm Hv Hk. destruct (k (adv s u v)) as [x|] eqn:E; [by eapply m_run|].
  eapply m_run_fail; [done|done|done|]. intros u1 [|c u2] -> _.
  - by rewrite app_nil_r in E.
  - apply (Hk _ c (u2 ++ v)); [done|]. rewrite forallb_app in Hp. by apply andb_true_iff in Hp as [_ [-> _]%andb_true_iff].
Qed.

Lemma m_group_run p mn i k s u v :
  rest s = u ++ v -> forallb p u = true -> mn <= length u -> stops p v -> rejects p k ->
  m (RGroup i (RRep (RSet p) mn None)) k s = k (set_cap i u (adv s u v)).
Proof.
  intros Hr Hp Hm Hv Hk. rewrite m_group, (m_run_eq p mn _ s u v); try done.
  - by rewrite (consumed_adv s u v Hr).
  - by apply rejects_set_cap.
Qed.

(** A run that has to give back [w] for the rest to match. *)
Lemma m_run_back p mn k s u w v x :
  rest s = u ++ w ++ v -> forallb p (u ++ w) = true -> mn <= length u -> stops p v ->
  k (adv s u (w ++ v)) = Some x ->
  (forall w1 w2, w = w1 ++ w2 -> w1 <> [] -> k (adv s (u ++ w1) (w2 ++ v)) = None) ->
  m (RRep (RSet p) mn None) k s = Some x.
Proof.
  intros Hr Hp Hm Hv Hk Hf. simpl.
  assert (Hn : mn + S (length (rest s)) > length u) by (rewrite Hr, length_app; lia).
  revert Hn. generalize (mn + S (length (rest s))) as n.
  revert mn s Hr Hm Hk Hf. induction u as [|c u IH]; intros mn s Hr Hm Hk Hf n Hn; cbn [length app] in *.
  - assert (mn = 0) as -> by lia. destruct n as [|n]; [lia|].
    cbn [rep_loop m clear_caps]. rewrite Hr. destruct w as [|c w].
    + rewrite <-(adv_nil s), Hr. destruct v as [|d v]; simpl; [done|]. by rewrite Hv.
    + apply andb_true_iff in Hp as [Hc Hp]. cbn [app]. rewrite Hc. cbn [Nat.eqb andb pred fmap option_fmap option_map length adv rest].
      assert (Hlen : Nat.eqb (length (w ++ v)) (S (length (w ++ v))) = false) by (apply Nat.eqb_neq; lia).
      rewrite Hlen.
      match goal with |- context [rep_loop ?b _ k n] => change b with (m (RSet p)) end.
      rewrite (rep_set_fail p k n 0 (adv s [c] (w ++ v)) w v); try done.
      * cbn [app] in Hk. by rewrite <-(adv_nil s), Hr.
      * intros u1 u2 -> _. rewrite <-app_assoc, (adv_adv s [c] u1 (u2 ++ v)). by apply (Hf (c :: u1) u2).
  - apply andb_true_iff in Hp as [Hc Hp]. destruct n as [|n]; [lia|].
    cbn [rep_loop m clear_caps]. rewrite Hr. cbn [app]. rewrite Hc. cbn [length adv rest].
    assert (Hlen : Nat.eqb (length (u ++ w ++ v)) (S (length (u ++ w ++ v))) = false) by (apply Nat.eqb_neq; lia).
    rewrite Hlen, andb_false_r. cbn [fmap option_fmap option_map].
    match goal with |- context [rep_loop ?b _ k n] => change b with (m (RSet p)) end.
    rewrite (IH Hp (pred mn) (adv s [c] (u ++ w ++ v))); try done; try lia.
    + by rewrite (adv_adv s [c] u (w ++ v)).
    + intros w1 w2 -> Hw. rewrite <-!app_assoc, (app_assoc u w1), (adv_adv s [c] (u ++ w1) (w2 ++ v)). by apply Hf.
Qed.

(** ** What a match can consume *)

(** Every unit the expression consumes is in the class. *)
Fixpoint within (p : N -> bool) (r : re) : Prop :=
  match r with
  | RLit l => forallb p l = true
  | RSet q => forall c, q c = true -> p c = true
  | RSeq a b | RAlt a b => within p a /\ within p b
  | RRep r _ _ | RGroup _ r => within p r
  | RBack _ => False
  | RBol | REol | RWordB => True
  end.

Definition eats (p : N -> bool) (k : st -> option st) (s : st) : Prop :=
  exists u s', rest s = u ++ rest s' /\ forallb p u = true /\ is_some (k s') = true.

Lemma eats_app p u k s s' : rest s = u ++ rest s' -> forallb p u = true -> eats p k s' -> eats p k s.
Proof.
  intros Hr Hu (w & s2 & Hw & Hp & Hk). exists (u ++ w), s2.
  by rewrite Hr, Hw, app_assoc, forallb_app, Hu, Hp.
Qed.

Lemma rep_eats p body gs k n mn mx s :
  (forall k' s', is_some (body k' s') = true -> eats p k' s') ->
  is_some (rep_loop body gs k n mn mx s) = true -> eats p k s.
Proof.
  intros Hb. revert mn mx s. induction n as [|n IH]; intros mn mx s; simpl.
  - destruct mx as [[|?]|]; [|done|done]. intros H. by exists [], s.
  - assert (Hend : is_some (k s) = true -> eats p k s) by (intros H; by exists [], s).
    assert (Hgo : is_some (match body (fun s' =>
               if Nat.eqb mn 0 && Nat.eqb (length (rest s')) (length (rest s)) then None
               else rep_loop body gs k n (pred mn) (pred <$> mx) s') (clear_caps gs s) with
      | Some x => Some x
      | None => if Nat.eqb mn 0 then k s else None
      end) = true -> eats p k s); [|by destruct mx as [[|?]|]; auto].
    destruct (body _ _) as [x|] eqn:E.
    + intros _. destruct (Hb _ _ ltac:(by erewrite E)) as (u & s1 & Hr & Hu & Hk).
      assert (Hrest : rest (clear_caps gs s) = rest s) by (by destruct gs). rewrite Hrest in Hr.
      destruct (_ && _)%bool in Hk; [done|]. eapply eats_app; [done|done|by eapply IH].
    + destruct (mn =? 0); [done|]. intros [=].
Qed.

Lemma m_within p r k s : within p r -> is_some (m r k s) = true -> eats p k s.
Proof.
  revert k s. induction r as [l|q|a IHa b IHb|a IHa b IHb|r IH mn mx|i r IH|i| | |]; intros k s Hw; simpl in *.
  - destruct (strip_prefix l (rest s)) as [t|] eqn:E; [|done]. apply strip_prefix_some in E.
    intros H. by exists l, (adv s l t).
  - destruct (rest s) as [|c t] eqn:E; [done|]. destruct (q c) eqn:Eq; [|done].
    intros H. exists [c], (adv s [c] t). simpl. by rewrite E, (Hw c Eq).
  - destruct Hw as [Ha Hb]. intros H. destruct (IHa _ _ Ha H) as (u & s1 & Hr & Hu & Hk).
    by eapply eats_app; [| |by apply IHb].
  - destruct Hw as [Ha Hb]. destruct (m a k s) eqn:E; [intros _; apply IHa; [done|by rewrite E]|by apply IHb].
  - intros H. eapply rep_eats; [|done]. auto.
  - intros H. destruct (IH _ _ Hw H) as (u & s1 & Hr & Hu & Hk). by exists u, (set_cap i (consumed s s1) s1).
  - done.
  - destruct (prev s); [done|]. intros H. by exists [], s.
  - destruct (rest s) eqn:E; [|done]. intros H. by exists [], s.
  - destruct (Bool.eqb _ _); [done|]. intros H. by exists [], s.
Qed.

Lemma m_seqs_snoc l r k s : m (RSeqs (l ++ [r])) k s = m (RSeqs l) (m r k) s.
Proof.
  revert k s. induction l as [|a l IH]; intros k s.
  - simpl. by rewrite adv_nil.
  - destruct l as [|b l]; [done|].
    change (m a (m (RSeqs ((b :: l) ++ [r])) k) s = m a (m (RSeqs (b :: l)) (m r k)) s).
    apply m_shrinking. intros s' _. apply IH.
Qed.

(** A text a whole-text expression accepts has only units of the class. *)
Lemma test_within p l s : within p (RSeqs l) -> re_test (RSeqs (RBol :: l ++ [REol])) s = true -> forallb p s = true.
Proof.
  intros Hw. assert (E : RSeqs (RBol :: l ++ [REol]) = RSeq RBol (RSeqs (l ++ [REol]))) by (by destruct l).
  rewrite E, test_bol, m_seqs_snoc. intros H.
  destruct (m_within p _ _ _ Hw H) as (u & s1 & Hr & Hu & Hk). simpl in *.
  destruct (rest s1) eqn:E1; [|done]. by rewrite Hr, app_nil_r.
Qed.

(** Results of an anchored expression. *)
Lemma match_hit r s s' cs :
  m r Some (St None s []) = Some s' -> caps s' = cs ->
  exists f, re_match (RSeq RBol r) s = Some f /\ f_caps f = cs.
Proof. intros H <-. rewrite match_bol, H. simpl. by eexists. Qed.

Lemma m_back i k s v t : cap_get i (caps s) = Some v -> rest s = v ++ t -> m (RBack i) k s = k (adv s v t).
Proof. intros Hc Hr. simpl. by rewrite Hc, Hr, strip_prefix_app. Qed.

Lemma match_miss r s : m r Some (St None s []) = None -> re_match (RSeq RBol r) s = None.
Proof. intros H. by rewrite match_bol, H. Qed.

Lemma m_alt_miss a b k s : m a k s = None -> m (RAlt a b) k s = m b k s.
Proof. intros H. simpl. by rewrite H. Qed.

Lemma m_alt_hit a b k s : m b k s = None -> m (RAlt a b) k s = m a k s.
Proof. intros H. simpl. rewrite H. by destruct (m a k s). Qed.

Lemma m_eol k s : rest s = [] -> m REol k s = k s.
Proof. intros H. simpl. by rewrite H. Qed.

Lemma m_eol_fail k s c t : rest s = c :: t -> m REol k s = None.
Proof. intros H. simpl. by rewrite H. Qed.

(** ** Sequences, options and repetitions *)

Lemma m_seqs l k s : m (RSeqs l) k s = foldr m k l s.
Proof.
  revert k s. induction l as [|a l IH]; intros k s; [simpl; by rewrite adv_nil|].
  destruct l as [|b l]; [done|]. change (m a (m (RSeqs (b :: l)) k) s = m a (foldr m k (b :: l)) s).
  apply m_shrinking. intros s' _. apply IH.
Qed.

(** The body of an option or of a round consumed something. *)
Definition progress (k : st -> option st) (s s' : st) : option st :=
  if Nat.eqb (length (rest s')) (length (rest s)) then None else k s'.

Lemma rest_clear gs s : rest (clear_caps gs s) = rest s.
Proof. by destruct gs. Qed.

Lemma m_opt r k s :
  m (ROpt r) k s =
  match m r (progress k s) (clear_caps (groups r) s) with Some x => Some x | None => k s end.
Proof.
  unfold ROpt. cbn [m Nat.add rep_loop Nat.eqb andb fmap option_fmap option_map pred].
  erewrite (m_shrinking r _ (progress k s)); [done|]. intros s' _. unfold progress.
  destruct (_ =? _); [done|]. by destruct (length (rest s)).
Qed.

Lemma m_star r k s :
  m (RStar r) k s =
  match m r (progress (m (RStar r) k) s) (clear_caps (groups r) s) with Some x => Some x | None => k s end.
Proof.
  unfold RStar. cbn [m Nat.add rep_loop Nat.eqb andb fmap option_fmap option_map pred].
  erewrite (m_shrinking r _ (progress (m (RRep r 0 None) k) s)); [done|]. intros s' Hl. rewrite rest_clear in Hl.
  unfold progress. destruct (Nat.eqb_spec (length (rest s')) (length (rest s))); [done|].
  apply rep_fuel_irrelevant. lia.
Qed.

Lemma progress_adv k s s' u : rest s = u ++ rest s' -> u <> [] -> progress k s s' = k s'.
Proof.
  intros Hr Hu. unfold progress. rewrite Hr, length_app.
  assert (0 < length u) by (destruct u; [done|simpl; lia]).
  by rewrite (proj2 (Nat.eqb_neq _ _)) by lia.
Qed.

(** A run of at most what is there, when nothing of the class is there. *)
Lemma m_run_none p k s : stops p (rest s) -> m (RRep (RSet p) 0 None) k s = k s.
Proof.
  intros Hs. destruct (k s) as [x|] eqn:E.
  - eapply (m_run p 0 k s [] (rest s)); [done|done|simpl; lia|exact Hs|by rewrite adv_nil].
  - apply (m_run_fail p 0 k s [] (rest s)); [done|done|exact Hs|].
    intros u1 u2 Hu _. symmetry in Hu. apply app_eq_nil in Hu as [-> ->]. by rewrite app_nil_l, adv_nil.
Qed.

(** ** Captures *)

Lemma cap_get_filter p i l :
  cap_get i (List.filter (fun q => negb (p q.1)) l) = if p i then None else cap_get i l.
Proof.
  induction l as [|[j v] l IH]; cbn [List.filter cap_get]; [by destruct (p i)|]. cbn [fst].
  destruct (p j) eqn:Hp; cbn [negb cap_get]; destruct (Nat.eqb_spec i j) as [->|]; try rewrite IH; by rewrite ?Hp.
Qed.

Lemma cap_get_set i j v s : cap_get i (caps (set_cap j v s)) = if Nat.eqb i j then Some v else cap_get i (caps s).
Proof.
  cbn [set_cap caps cap_get]. destruct (Nat.eqb i j) eqn:E; [done|].
  by rewrite (cap_get_filter (fun x => Nat.eqb x j)), E.
Qed.

Lemma cap_get_clear i gs s :
  cap_get i (caps (clear_caps gs s)) = if existsb (Nat.eqb i) gs then None else cap_get i (caps s).
Proof. destruct gs as [|g gs]; [done|]. cbn [clear_caps caps]. by rewrite (cap_get_filter (fun x => existsb (Nat.eqb x) (g :: gs))). Qed.

(** ** Searching *)

Lemma scan_here r i p s s' :
  m r Some (St p s []) = Some s' ->
  scan r i p s = Some (Found i (take (length s - length (rest s')) s) (prev s') (rest s') (caps s')).
Proof. intros H. destruct s; cbn [scan]; by rewrite H. Qed.

Lemma scan_skip r i p c s : m r Some (St p (c :: s) []) = None -> scan r i p (c :: s) = scan r (S i) (Some c) s.
Proof. intros H. cbn [scan]. by rewrite H. Qed.

(** ** Texts an expression takes

    [takes l u v c]: before [v], the sequence [l] takes the text [u] on its first
    way, and changes the captures by [c]. [fails r w]: on [w] there is no way. *)

Definition cset (i : nat) (u : jstr) (cs : list (nat * jstr)) : list (nat * jstr) :=
  (i, u) :: List.filter (fun q => negb (Nat.eqb q.1 i)) cs.

Definition cclear (gs : list nat) (cs : list (nat * jstr)) : list (nat * jstr) := caps (clear_caps gs (St None [] cs)).

Lemma cap_get_cset i j v cs : cap_get i (cset j v cs) = if Nat.eqb i j then Some v else cap_get i cs.
Proof.
  unfold cset. cbn [cap_get]. destruct (Nat.eqb i j) eqn:E; [done|].
  by rewrite (cap_get_filter (fun x => Nat.eqb x j)), E.
Qed.

Lemma cap_get_cclear i gs cs : cap_get i (cclear gs cs) = if existsb (Nat.eqb i) gs then None else cap_get i cs.
Proof. unfold cclear. by rewrite cap_get_clear. Qed.

Definition reaches (l : list re) (s s' : st) : Prop := forall k x, k s' = Some x -> foldr m k l s = Some x.

Definition takes (l : list re) (u v : jstr) (c : list (nat * jstr) -> list (nat * jstr)) : Prop :=
  forall s, rest s = u ++ v -> exists s', rest s' = v /\ caps s' = c (caps s) /\ reaches l s s'.

Definition fails (r : re) (w : jstr) : Prop := forall k s, rest s = w -> m r k s = None.

Lemma caps_clear gs s : caps (clear_caps gs s) = cclear gs (caps s).
Proof. by destruct gs. Qed.

Lemma takes_conv l u u' v c c' :
  takes l u v c -> u = u' -> (forall cs, c cs = c' cs) -> takes l u' v c'.
Proof. intros H <- Hc s Hs. destruct (H s Hs) as (s' & H1 & H2 & H3). exists s'. by rewrite H2, Hc. Qed.

Lemma takes_app l1 l2 u1 u2 v c1 c2 :
  takes l1 u1 (u2 ++ v) c1 -> takes l2 u2 v c2 -> takes (l1 ++ l2) (u1 ++ u2) v (fun cs => c2 (c1 cs)).
Proof.
  intros H1 H2 s Hs. rewrite <-app_assoc in Hs. destruct (H1 s Hs) as (s1 & Hr1 & Hc1 & Hk1).
  destruct (H2 s1 Hr1) as (s2 & Hr2 & Hc2 & Hk2). exists s2. split_and!; [done|by rewrite Hc2, Hc1|].
  intros k x Hk. rewrite foldr_app. by apply Hk1, Hk2.
Qed.

Lemma takes_cons a l u1 u2 v c1 c2 :
  takes [a] u1 (u2 ++ v) c1 -> takes l u2 v c2 -> takes (a :: l) (u1 ++ u2) v (fun cs => c2 (c1 cs)).
Proof. apply (takes_app [a] l). Qed.

Lemma takes_nil v : takes [] [] v id.
Proof. intros s Hs. exists s. split_and!; [done|done|]. by intros k x Hk. Qed.

Lemma takes_lit l v : takes [RLit l] l v id.
Proof.
  intros s Hs. exists (adv s l v). split_and!; [done|done|]. intros k x Hk. cbn [foldr].
  by rewrite (m_lit l _ _ v).
Qed.

Lemma takes_run p mn u v :
  forallb p u = true -> mn <= length u -> stops p v -> takes [RRep (RSet p) mn None] u v id.
Proof.
  intros Hp Hm Hv s Hs. exists (adv s u v). split_and!; [done|done|]. intros k x Hk. cbn [foldr].
  by apply (m_run p mn _ s u v).
Qed.

Lemma takes_group i r u v c : takes [r] u v c -> takes [RGroup i r] u v (fun cs => cset i u (c cs)).
Proof.
  intros H s Hs. destruct (H s Hs) as (s' & Hr & Hc & Hk). exists (set_cap i u s').
  split_and!; [done|by cbn [set_cap caps]; rewrite Hc|]. intros k x Hx. cbn [foldr]. rewrite m_group. apply Hk.
  replace (consumed s s') with u; [done|]. unfold consumed. rewrite Hs, Hr, length_app.
  replace (length u + length v - length v) with (length u) by lia. by rewrite take_app_length.
Qed.

Lemma takes_seqs l u v c : takes l u v c -> takes [RSeqs l] u v c.
Proof.
  intros H s Hs. destruct (H s Hs) as (s' & Hr & Hc & Hk). exists s'. split_and!; [done|done|].
  intros k x Hx. cbn [foldr]. rewrite m_seqs. by apply Hk.
Qed.

Lemma takes_alt_r a b u v c : fails a (u ++ v) -> takes [b] u v c -> takes [RAlt a b] u v c.
Proof.
  intros Ha H s Hs. destruct (H s Hs) as (s' & Hr & Hc & Hk). exists s'. split_and!; [done|done|].
  intros k x Hx. cbn [foldr]. rewrite m_alt_miss by by apply Ha. by apply (Hk k x).
Qed.

Lemma takes_alt_first a b l u v c : takes (a :: l) u v c -> takes (RAlt a b :: l) u v c.
Proof.
  intros H s Hs. destruct (H s Hs) as (s' & Hr & Hc & Hk). exists s'. split_and!; [done|done|].
  intros k x Hx. cbn [foldr m]. specialize (Hk k x Hx). cbn [foldr] in Hk. by rewrite Hk.
Qed.

(** An alternative that takes a text and cannot be followed. *)
Lemma takes_alt_seq a b l u v c :
  fails (RSeqs (a :: l)) (u ++ v) -> takes (b :: l) u v c -> takes (RAlt a b :: l) u v c.
Proof.
  intros Ha H s Hs. destruct (H s Hs) as (s' & Hr & Hc & Hk). exists s'. split_and!; [done|done|].
  intros k x Hx. cbn [foldr]. specialize (Ha k s Hs). rewrite m_seqs in Ha. cbn [foldr] in Ha.
  rewrite m_alt_miss by done. by apply (Hk k x).
Qed.

Lemma takes_opt r u v c :
  u <> [] -> takes [r] u v c -> takes [ROpt r] u v (fun cs => c (cclear (groups r) cs)).
Proof.
  intros Hu H s Hs. destruct (H (clear_caps (groups r) s)) as (s' & Hr & Hc & Hk); [by rewrite rest_clear|].
  exists s'. split_and!; [done|by rewrite Hc, caps_clear|]. intros k x Hx. cbn [foldr]. rewrite m_opt.
  specialize (Hk (progress k s) x). cbn [foldr] in Hk. rewrite Hk; [done|].
  rewrite (progress_adv k s s' u); [done|by rewrite Hr|done].
Qed.

Lemma takes_opt_none r v : fails r v -> takes [ROpt r] [] v id.
Proof.
  intros H s Hs. exists s. split_and!; [done|done|]. intros k x Hx. cbn [foldr]. rewrite m_opt, H; [done|].
  by rewrite rest_clear.
Qed.

Lemma takes_star_nil r v : fails r v -> takes [RStar r] [] v id.
Proof.
  intros H s Hs. exists s. split_and!; [done|done|]. intros k x Hx. cbn [foldr]. rewrite m_star, H; [done|].
  by rewrite rest_clear.
Qed.

Lemma takes_star_cons r u w v :
  groups r = [] -> u <> [] -> takes [r] u (w ++ v) id -> takes [RStar r] w v id -> takes [RStar r] (u ++ w) v id.
Proof.
  intros Hg Hu H1 H2 s Hs. rewrite <-app_assoc in Hs. destruct (H1 s Hs) as (s1 & Hr1 & Hc1 & Hk1).
  destruct (H2 s1 Hr1) as (s2 & Hr2 & Hc2 & Hk2). exists s2. split_and!; [done|by rewrite Hc2, Hc1|].
  intros k x Hx. cbn [foldr]. rewrite m_star, Hg. cbn [clear_caps].
  specialize (Hk1 (progress (m (RStar r) k) s) x). cbn [foldr] in Hk1. rewrite Hk1; [done|].
  rewrite (progress_adv _ s s1 u); [by apply (Hk2 k x)|by rewrite Hr1|done].
Qed.

Lemma fails_lit l w : strip_prefix l w = None -> fails (RLit l) w.
Proof. intros H k s <-. by apply m_lit_fail. Qed.

Lemma fails_set p w : stops p w -> fails (RSet p) w.
Proof. intros H k s <-. cbn [m]. destruct (rest s) as [|c t]; [done|]. by simpl in H; rewrite H. Qed.

Lemma fails_alt a b w : fails a w -> fails b w -> fails (RAlt a b) w.
Proof. intros Ha Hb k s Hs. rewrite m_alt_miss; [by apply Hb|by apply Ha]. Qed.

Lemma fails_group i r w : fails r w -> fails (RGroup i r) w.
Proof. intros H k s Hs. rewrite m_group. by apply H. Qed.

Lemma fails_head a l w : fails a w -> fails (RSeqs (a :: l)) w.
Proof. intros H k s Hs. rewrite m_seqs. by apply H. Qed.

Lemma fails_after_lit u l w : fails (RSeqs l) w -> fails (RSeqs (RLit u :: l)) (u ++ w).
Proof.
  intros H k s Hs. rewrite m_seqs. cbn [foldr]. rewrite (m_lit u _ s w Hs), <-m_seqs. by apply H.
Qed.

Lemma fails_group_lit i x l w : fails (RSeqs (RLit x :: l)) w -> fails (RSeqs (RGroup i (RLit x) :: l)) w.
Proof.
  intros H k s Hs. specialize (H k (set_cap i x s) Hs). rewrite m_seqs in H |- *. cbn [foldr] in *. rewrite m_group.
  cbn [m] in *. cbn [set_cap rest] in H. destruct (strip_prefix x (rest s)) as [t|] eqn:E; [|done].
  apply strip_prefix_some in E. by rewrite (consumed_adv s x t E).
Qed.

Lemma fails_after_none p l w : stops p w -> fails (RSeqs l) w -> fails (RSeqs (RStar (RSet p) :: l)) w.
Proof.
  intros Hp H k s Hs. rewrite m_seqs. cbn [foldr]. unfold RStar. rewrite m_run_none by by rewrite Hs.
  rewrite <-m_seqs. by apply H.
Qed.

(** A run before a literal that is outside of the class. *)
Lemma fails_after_run p d t l u w :
  forallb p u = true -> stops p w -> p d = false ->
  fails (RSeqs (RLit (d :: t) :: l)) w -> fails (RSeqs (RStar (RSet p) :: RLit (d :: t) :: l)) (u ++ w).
Proof.
  intros Hu Hw Hd H k s Hs. rewrite m_seqs. cbn [foldr]. unfold RStar.
  rewrite (m_run_eq p 0 _ s u w); [|done|done|lia|done|by apply rejects_lit].
  specialize (H k (adv s u w) eq_refl). by rewrite m_seqs in H.
Qed.

Lemma fails_plus p l w : stops p w -> fails (RSeqs (RPlus (RSet p) :: l)) w.
Proof.
  intros Hp k s Hs. rewrite m_seqs. cbn [foldr]. apply (m_run_fail p 1 _ s [] w); [done|done|exact Hp|].
  intros u1 u2 Hu Hl. symmetry in Hu. apply app_eq_nil in Hu as [-> _]. simpl in Hl. lia.
Qed.

Lemma fails_opt_head r l w : fails r w -> fails (RSeqs l) w -> fails (RSeqs (ROpt r :: l)) w.
Proof.
  intros Hr Hl k s Hs. rewrite m_seqs. cbn [foldr]. rewrite m_opt, Hr by by rewrite rest_clear.
  rewrite <-m_seqs. by apply Hl.
Qed.

Lemma scan_takes l u v c i p :
  takes l u v c ->
  exists q, scan (RSeqs l) i p (u ++ v) = Some (Found i u q v (c [])).
Proof.
  intros H. destruct (H (St p (u ++ v) []) eq_refl) as (s' & Hr & Hc & Hk). exists (prev s').
  erewrite scan_here; [|rewrite m_seqs; by apply Hk]. rewrite Hr, Hc, length_app.
  replace (length u + length v - length v) with (length u) by lia. by rewrite take_app_length.
Qed.

Lemma takes_eol : takes [REol] [] [] id.
Proof.
  intros s Hs. exists s. split_and!; [done|done|]. intros k x Hk. cbn [foldr]. by rewrite m_eol.
Qed.

(** An expression for the whole text. *)
Lemma match_takes r l u c :
  takes (r :: l) u [] c -> exists q, re_match (RSeqs (RBol :: r :: l)) u = Some (Found 0 u q [] (c [])).
Proof.
  intros H. destruct (H (St None u []) (eq_sym (app_nil_r u))) as (s' & Hr & Hc & Hk). exists (prev s').
  change (RSeqs (RBol :: r :: l)) with (RSeq RBol (RSeqs (r :: l))).
  rewrite match_bol, m_seqs, (Hk Some s' eq_refl). cbn [fmap option_fmap option_map]. rewrite Hr, Hc. simpl.
  rewrite Nat.sub_0_r. by rewrite firstn_all.
Qed.

(** ** Running an expression

    [re_step] matches the next part of the expression on a text whose literal
    parts are written out; the hypotheses on the symbolic parts are those of
    [m_group_run], found in the context. *)
Ltac rejects_tac :=
  repeat match goal with |- rejects _ (m (RSeq _ _) _) => apply rejects_seq end;
  first [apply rejects_eol | apply rejects_lit; reflexivity].
Ltac alt_miss := repeat (rewrite m_alt_miss by (apply m_lit_fail; reflexivity)).
Ltac re_step :=
  first
  [ erewrite consumed_adv by reflexivity
  | rewrite m_seq
  | rewrite m_lit_fail by reflexivity
  | erewrite m_lit by reflexivity
  | erewrite m_group_run; [|reflexivity|assumption|assumption|reflexivity|rejects_tac]
  | erewrite m_group_run; [|symmetry; apply app_nil_r|assumption|assumption|exact I|rejects_tac]
  | rewrite m_alt_miss by (apply m_lit_fail; reflexivity)
  | rewrite m_alt_hit by (alt_miss; apply m_lit_fail; reflexivity)
  | erewrite m_back; [|reflexivity|reflexivity]
  | rewrite m_eol by reflexivity
  | erewrite m_eol_fail by reflexivity
  | rewrite m_group ].

(** ** Bounded runs at the end *)

Lemma rep_eol p n mn mx s : length (rest s) < n ->
  is_some (rep_loop (m (RSet p)) [] (m REol Some) n mn (Some mx) s) =
  (forallb p (rest s) && (mn <=? length (rest s))%nat && (length (rest s) <=? mx)%nat)%bool \/ (mx < mn)%nat.
Proof.
  revert mn mx s. induction n as [|n IH]; intros mn mx s Hn; [lia|]. cbn [rep_loop].
  destruct mx as [|mx].
  - destruct mn as [|mn]; [left|right; lia]. simpl. destruct (rest s); [done|]. simpl. by rewrite andb_false_r.
  - destruct (rest s) as [|c t] eqn:Er; cbn [m clear_caps rest]; rewrite ?Er.
    + left. destruct mn; simpl; by rewrite ?Er.
    + simpl in Hn. destruct (p c) eqn:Ec; [|left; destruct mn; simpl; rewrite ?Ec, ?Er; done].
      cbn [length adv rest]. rewrite (proj2 (Nat.eqb_neq (length t) (S (length t)))) by lia. rewrite andb_false_r.
      cbn [fmap option_fmap option_map pred].
      destruct (IH (pred mn) mx (adv s [c] t)) as [H|H]; [simpl; lia| |right; lia].
      cbn [adv rest] in H. destruct (rep_loop _ _ _ _ _ _ _) as [x|] eqn:E.
      * left. simpl in H. cbn [forallb]. rewrite Ec. simpl. destruct mn; simpl in *; by rewrite <-H.
      * left. simpl in H. cbn [forallb]. rewrite Ec. simpl.
        destruct mn; simpl in *; rewrite ?Er; by rewrite <-H.
Qed.

Lemma m_bounded_eol p mn mx s : (mn <= mx)%nat ->
  is_some (m (RRep (RSet p) mn (Some mx)) (m REol Some) s) =
  (forallb p (rest s) && (mn <=? length (rest s))%nat && (length (rest s) <=? mx)%nat)%bool.
Proof. intros H. cbn [m groups]. destruct (rep_eol p (mn + S (length (rest s))) mn mx s) as [E|E]; [lia|done|lia]. Qed.
