(* ===== verification/JsNum.v ===== *)
(** JavaScript numbers: IEEE 754 binary64 values ([spec_float] with 53 bits of
    precision), with the arithmetic, the comparisons, [Number(s)],
    [Number::toString] and the predicates of [Number] the program uses. *)

From Stdlib Require Import NArith ZArith Lia ZifyBool ZifyN.
From Stdlib Require Import SpecFloat.
From stdpp Require Import base list gmap strings.
From S2P Require Import Prelude JsString.

Notation num := spec_float (only parsing).

#[export] Instance num_eq_dec : EqDecision spec_float.
Proof. solve_decision. Defined.

Definition nprec : Z := 53.
Definition nemax : Z := 1024.

Definition nzero : num := S754_zero false.

Definition num_add : num -> num -> num := SFadd nprec nemax.
Definition num_sub : num -> num -> num := SFsub nprec nemax.
Definition num_mul : num -> num -> num := SFmul nprec nemax.
Definition num_div : num -> num -> num := SFdiv nprec nemax.

(** The double nearest to an integer. *)
Definition num_of_Z (z : Z) : num := binary_normalize nprec nemax z 0 false.

(** [a < b], [a <= b], [a === b] on numbers. *)
Definition num_ltb (a b : num) : bool := SFltb a b.
Definition num_leb (a b : num) : bool := SFleb a b.
Definition num_eqb (a b : num) : bool := SFeqb a b.

(** [Number.isFinite(x)] *)
Definition num_is_finite (x : num) : bool :=
  match x with S754_zero _ | S754_finite _ _ _ => true | _ => false end.

(** The integer a number equals, if any. *)
Definition num_to_Z (x : num) : option Z :=
  match x with
  | S754_zero _ => Some 0%Z
  | S754_finite s mm e =>
      let z := (if s then Zneg mm else Zpos mm) in
      if (0 <=? e)%Z then Some (z * 2 ^ e)%Z
      else if (z mod 2 ^ (- e) =? 0)%Z then Some (z / 2 ^ (- e))%Z else None
  | _ => None
  end.

(** [Number.isInteger(x)] *)
Definition num_is_integer (x : num) : bool := is_some (num_to_Z x).

(** [Boolean(x)] of a number: 0, -0 and NaN are falsy. *)
Definition num_truthy (x : num) : bool :=
  match x with S754_zero _ | S754_nan => false | _ => true end.

(** [x || 0] *)
Definition num_or_zero (x : num) : num := if num_truthy x then x else nzero.

(** [Math.floor(x)] of a finite number, as an integer. *)
Definition num_floor (x : num) : option Z :=
  match x with
  | S754_zero _ => Some 0%Z
  | S754_finite s mm e =>
      let z := (if s then Zneg mm else Zpos mm) in
      if (0 <=? e)%Z then Some (z * 2 ^ e)%Z else Some (z / 2 ^ (- e))%Z
  | _ => None
  end.

(** [Math.max(a, b)]: NaN wins, and 0 is above -0. *)
Definition num_max (a b : num) : num :=
  match a, b with
  | S754_nan, _ | _, S754_nan => S754_nan
  | _, _ =>
      if num_ltb a b then b
      else if num_ltb b a then a
      else match a with S754_zero true => b | _ => a end
  end.

(** [Math.min(a, b)]: NaN wins, and -0 is below 0. *)
Definition num_min (a b : num) : num :=
  match a, b with
  | S754_nan, _ | _, S754_nan => S754_nan
  | _, _ =>
      if num_ltb a b then a
      else if num_ltb b a then b
      else match a with S754_zero false => b | _ => a end
  end.

(** [Math.trunc(x)] *)
Definition num_trunc (x : num) : num :=
  match x with
  | S754_finite s mm e =>
      if (0 <=? e)%Z then x
      else
        let z := (Zpos mm / 2 ^ (- e))%Z in
        if (z =? 0)%Z then S754_zero s else if s then SFopp (num_of_Z z) else num_of_Z z
  | _ => x
  end.

(** [Math.ceil(x)]; what lies between -1 and 0 rounds to -0. *)
Definition num_ceil (x : num) : num :=
  match x with
  | S754_finite s mm e =>
      if (0 <=? e)%Z then x
      else
        let z := (- ((if s then Zpos mm else Zneg mm) / 2 ^ (- e)))%Z in
        if (z =? 0)%Z then S754_zero s else num_of_Z z
  | _ => x
  end.

(** [Math.abs(x)] and [Math.round(x)]: the nearest integer, the upper one when
    two are; what rounds to zero keeps its sign. *)
Definition num_abs (x : num) : num := SFabs x.

Definition num_round (x : num) : num :=
  match x with
  | S754_finite s mm e =>
      if (0 <=? e)%Z then x
      else
        let z := ((2 * (if s then Zneg mm else Zpos mm) + 2 ^ (- e)) / (2 * 2 ^ (- e)))%Z in
        if (z =? 0)%Z then S754_zero s else num_of_Z z
  | _ => x
  end.

(** ** Decimal literals

    The double nearest to [mant * 10^e10], correctly rounded in one step. *)
Definition num_of_dec (neg : bool) (mant : N) (e10 : Z) : num :=
  match mant with
  | N0 => S754_zero neg
  | Npos p =>
      let r :=
        if (400 <? e10)%Z then S754_infinity false
        else if (e10 <? - (400 + Z.log2 (Zpos p)))%Z then S754_zero false
        else if (0 <=? e10)%Z then binary_normalize nprec nemax (Zpos p * 10 ^ e10) 0 false
        else
          let '(mz, ez, lz) := SFdiv_core_binary nprec nemax (Zpos p) 0 (10 ^ (- e10)) 0 in
          binary_round_aux nprec nemax false mz ez lz in
      if neg then SFopp r else r
  end.

(** The longest run of digits at the start of a string. *)
Fixpoint span_digits (s : jstr) : jstr * jstr :=
  match s with
  | c :: t => if is_digit c then let '(a, b) := span_digits t in (c :: a, b) else ([], s)
  | [] => ([], [])
  end.

(** An optional exponent part: its value and what is left.  [None] when an
    exponent letter is not followed by digits. *)
Definition read_exponent (s : jstr) : option (Z * jstr) :=
  match s with
  | c :: t =>
      if (N.eqb c 101 || N.eqb c 69)%bool then
        let '(neg, t') := match t with
                          | 45%N :: u => (true, u)
                          | 43%N :: u => (false, u)
                          | _ => (false, t)
                          end in
        let '(ds, r) := span_digits t' in
        if truthy ds then
          let e := Z.of_N (digits_value ds) in
          Some ((if neg then - e else e)%Z, r)
        else None
      else Some (0%Z, s)
  | [] => Some (0%Z, [])
  end.

(** StrUnsignedDecimalLiteral: digits with an optional fraction and exponent. *)
Definition read_unsigned (neg : bool) (s : jstr) : option (num * jstr) :=
  let '(ip, r) := span_digits s in
  let '(fp, r') := match r with
                   | 46%N :: u => span_digits u
                   | _ => ([], r)
                   end in
  if truthy (ip ++ fp) then
    match read_exponent r' with
    | Some (e, r'') =>
        Some (num_of_dec neg (digits_value (ip ++ fp)) (e - Z.of_nat (length fp)), r'')
    | None => None
    end
  else None.

Definition hex_val (c : N) : option N :=
  if is_digit c then Some (c - 48)%N
  else if in_range 97 102 c then Some (c - 87)%N
  else if in_range 65 70 c then Some (c - 55)%N
  else None.

Fixpoint radix_value (radix : N) (acc : N) (s : jstr) : option N :=
  match s with
  | [] => Some acc
  | c :: t => match hex_val c with
              | Some d => if (d <? radix)%N then radix_value radix (acc * radix + d) t else None
              | None => None
              end
  end.

Definition read_radix (radix : N) (s : jstr) : num :=
  if truthy s then
    match radix_value radix 0 s with
    | Some n => num_of_dec false n 0
    | None => S754_nan
    end
  else S754_nan.

(** [Number(s)] of a string. *)
Definition num_of_string (s : jstr) : num :=
  let t := trim s in
  let signed (neg : bool) (u : jstr) :=
    if (u =s js "Infinity") then S754_infinity neg
    else match read_unsigned neg u with
         | Some (x, []) => x
         | _ => S754_nan
         end in
  match t with
  | [] => nzero
  | 43%N :: u => signed false u
  | 45%N :: u => signed true u
  | 48%N :: c :: u =>
      if (N.eqb c 120 || N.eqb c 88)%bool then read_radix 16 u
      else if (N.eqb c 111 || N.eqb c 79)%bool then read_radix 8 u
      else if (N.eqb c 98 || N.eqb c 66)%bool then read_radix 2 u
      else signed false t
  | _ => signed false t
  end.

(** [Number.parseFloat(s)]: the longest prefix that is a decimal literal. *)
Definition parse_float (s : jstr) : num :=
  let go (neg : bool) (v : jstr) :=
    if starts_with (js "Infinity") v then S754_infinity neg
    else
      let '(ip, r) := span_digits v in
      let '(fp, r') := match r with
                       | 46%N :: w => span_digits w
                       | _ => ([], r)
                       end in
      if truthy (ip ++ fp) then
        let e := match read_exponent r' with Some (e, _) => e | None => 0%Z end in
        num_of_dec neg (digits_value (ip ++ fp)) (e - Z.of_nat (length fp))
      else S754_nan in
  match trim_start s with
  | 43%N :: v => go false v
  | 45%N :: v => go true v
  | u => go false u
  end.

(** [Number(x.toFixed(f))] for [x] below 10^21: the decimal with [f] digits
    nearest to [x], the one away from 0 when two are. *)
Definition num_fixed (f : Z) (x : num) : num :=
  match x with
  | S754_finite s mm e =>
      let '(nu, de) := (if (0 <=? e)%Z then (Zpos mm * 2 ^ e, 1)%Z else (Zpos mm, 2 ^ (- e))%Z) in
      num_of_dec s (Z.to_N ((2 * nu * 10 ^ f + de) / (2 * de))) (- f)
  | S754_zero _ => nzero
  | _ => x
  end.

(** ** [Number::toString]

    The exact value is [nu/de]; [n] is such that [10^(n-1) <= nu/de < 10^n]. *)
Definition exact_ratio (mm : positive) (e : Z) : Z * Z :=
  if (0 <=? e)%Z then (Zpos mm * 2 ^ e, 1)%Z else (Zpos mm, 2 ^ (- e))%Z.

Definition below_pow10 (nu de n : Z) : bool :=
  if (0 <=? n)%Z then (nu <? de * 10 ^ n)%Z else (nu * 10 ^ (- n) <? de)%Z.

Fixpoint find_exponent (fuel : nat) (nu de n : Z) : Z :=
  match fuel with
  | O => n
  | S f => if below_pow10 nu de (n - 1) then find_exponent f nu de (n - 1) else n
  end.

(** The floor of [nu/de * 10^(k-n)]. *)
Definition scaled_floor (nu de n k : Z) : Z :=
  if (n <=? k)%Z then (nu * 10 ^ (k - n) / de)%Z else (nu / (de * 10 ^ (n - k)))%Z.

(** The shortest digits: the least [k] with a [k]-digit [s] whose value
    [s * 10^(n-k)] rounds to the number, the closest such [s]. *)
Fixpoint shortest (fuel : nat) (x : num) (nu de n k : Z) : Z * Z :=
  match fuel with
  | O => (scaled_floor nu de n k, k)
  | S f =>
      let lo := scaled_floor nu de n k in
      let hi := (lo + 1)%Z in
      let ok s := (10 ^ (k - 1) <=? s)%Z && (s <? 10 ^ k)%Z &&
                  num_eqb (num_of_dec false (Z.to_N s) (n - k)) x in
      (* twice the distance of [lo] against one unit *)
      let r := if (n <=? k)%Z then (2 * (nu * 10 ^ (k - n) - lo * de), de)%Z
               else (2 * (nu - lo * (de * 10 ^ (n - k))), de * 10 ^ (n - k))%Z in
      let lo_closer := (r.1 <=? r.2)%Z in
      if (ok lo && (negb (ok hi) || lo_closer))%bool then (lo, k)
      else if ok hi then (hi, k)
      else shortest f x nu de n (k + 1)
  end.

Definition zeros (n : Z) : jstr := List.repeat 48%N (Z.to_nat n).

Definition format_digits (s k n : Z) : jstr :=
  let ds := print_N (Z.to_N s) in
  if ((k <=? n) && (n <=? 21))%Z then ds ++ zeros (n - k)
  else if ((0 <? n) && (n <=? 21))%Z then
    take (Z.to_nat n) ds ++ js "." ++ drop (Z.to_nat n) ds
  else if ((-6 <? n) && (n <=? 0))%Z then js "0." ++ zeros (- n) ++ ds
  else
    let e := (n - 1)%Z in
    let es := (if (0 <=? e)%Z then js "+" else js "-") ++ print_N (Z.to_N (Z.abs e)) in
    if (k =? 1)%Z then ds ++ js "e" ++ es
    else take 1 ds ++ js "." ++ drop 1 ds ++ js "e" ++ es.

(** [String(x)] of a number. *)
Definition num_to_string (x : num) : jstr :=
  match x with
  | S754_nan => js "NaN"
  | S754_zero _ => js "0"
  | S754_infinity false => js "Infinity"
  | S754_infinity true => js "-Infinity"
  | S754_finite s mm e =>
      let '(nu, de) := exact_ratio mm e in
      let start := (Z.log2 (Zpos mm) + e + 2)%Z in
      let hi := (if 0 <? start then start / 3 + 2 else start / 4 + 2)%Z in
      let n := find_exponent 400 nu de hi in
      let '(ds, k) := shortest 17 (S754_finite false mm e) nu de n 1 in
      let body := format_digits ds k n in
      if s then 45%N :: body else body
  end.

(** * Concrete values *)

Example num_to_string_int : num_to_string (num_of_Z 12345) = js "12345".
Proof. vm_compute. reflexivity. Qed.

Example num_to_string_tenth : num_to_string (num_of_string (js "0.1")) = js "0.1".
Proof. vm_compute. reflexivity. Qed.

Example num_to_string_small : num_to_string (num_of_string (js "1.5e-7")) = js "1.5e-7".
Proof. vm_compute. reflexivity. Qed.

Example num_to_string_big : num_to_string (num_of_string (js "123456789012345678901234")) = js "1.2345678901234569e+23".
Proof. vm_compute. reflexivity. Qed.

Example num_sum_tenths :
  num_to_string (num_add (num_of_string (js "0.1")) (num_of_string (js "0.2"))) = js "0.30000000000000004".
Proof. vm_compute. reflexivity. Qed.

Example num_round_tie : num_round (num_of_string (js "-2.5")) = num_of_Z (-2).
Proof. vm_compute. reflexivity. Qed.

Example num_ceil_up : num_ceil (num_of_string (js "1.25")) = num_of_Z 2.
Proof. vm_compute. reflexivity. Qed.

Example num_ceil_neg : num_ceil (num_of_string (js "-0.5")) = S754_zero true.
Proof. vm_compute. reflexivity. Qed.

Example parse_float_prefix : parse_float (js " 1.5e3px") = num_of_Z 1500.
Proof. vm_compute. reflexivity. Qed.

Example num_fixed_tie : num_to_string (num_fixed 1 (num_of_string (js "0.25"))) = js "0.3".
Proof. vm_compute. reflexivity. Qed.

Example num_of_string_hex : num_of_string (js " 0xff ") = num_of_Z 255.
Proof. vm_compute. reflexivity. Qed.

Example num_of_string_bad : num_of_string (js "12px") = S754_nan.
Proof. vm_compute. reflexivity. Qed.

Example num_smallest : num_to_string (num_of_string (js "5e-324")) = js "5e-324".
Proof. vm_compute. reflexivity. Qed.

Example num_largest : num_to_string (num_of_string (js "1.7976931348623157e308")) = js "1.7976931348623157e+308".
Proof. vm_compute. reflexivity. Qed.

(** * The text of a number *)

Definition dark (s : jstr) : bool := forallb (fun c => negb (is_ws c)) s.

Lemma dark_app u v : dark (u ++ v) = (dark u && dark v)%bool.
Proof. apply forallb_app. Qed.

Lemma dark_incl (u v : jstr) : (forall c, c ∈ u -> c ∈ v) -> dark v = true -> dark u = true.
Proof.
  unfold dark. rewrite !forallb_forall. intros H Hv c Hc. apply Hv, list_elem_of_In, H. by apply list_elem_of_In.
Qed.

Lemma dark_print_N n : dark (print_N n) = true.
Proof.
  pose proof (print_N_digits n) as H. unfold all_digits in H. apply andb_prop in H as [_ H]. unfold dark.
  rewrite forallb_forall in *. intros c Hc. by rewrite (digit_not_ws c) by auto.
Qed.

Lemma dark_zeros n : dark (zeros n) = true.
Proof. unfold zeros. by induction (Z.to_nat n). Qed.

Lemma dark_format s k n : dark (format_digits s k n) = true.
Proof.
  pose proof (dark_print_N (Z.to_N s)) as Hd. unfold format_digits. set (ds := print_N (Z.to_N s)) in *.
  assert (Ht : forall i, dark (take i ds) = true).
  { intros i. apply (dark_incl _ ds); [|done]. intros c Hc. rewrite <-(take_drop i ds). apply elem_of_app. by left. }
  assert (Hr : forall i, dark (drop i ds) = true).
  { intros i. apply (dark_incl _ ds); [|done]. intros c Hc. rewrite <-(take_drop i ds). apply elem_of_app. by right. }
  repeat (case_match; try (rewrite !dark_app, ?Hd, ?Ht, ?Hr, ?dark_zeros, ?dark_print_N; reflexivity)).
Qed.

Lemma num_to_string_dark x : dark (num_to_string x) = true.
Proof.
  destruct x as [b|[]| |b m e]; try done. unfold num_to_string. destruct (exact_ratio m e) as [nu de]. cbv zeta.
  destruct (shortest _ _ _ _ _ _) as [ds k]. destruct b; [|apply dark_format].
  unfold dark. cbn [forallb]. apply (dark_format ds k).
Qed.
