(* ===== verification/JsExact.v ===== *)
(** Sums of integers as numbers: below 2^53 in absolute value an integer is a
    number, and adding two such numbers is exact as long as the sum stays below
    2^53; so is adding up a list whose absolute values do. *)

From Stdlib Require Import NArith ZArith Lia SpecFloat.
From stdpp Require Import base list gmap strings.
From S2P Require Import Prelude JsString JsNum.

(** * Mantissas with zeros at the end *)

Definition up (k : nat) (p : positive) : positive := Nat.iter k xO p.

(** The number of binary digits. *)
Definition width (p : positive) : Z := Zpos (digits2_pos p).

Lemma up_up j k p : up j (up k p) = up (j + k) p.
Proof. unfold up. by rewrite Nat.iter_add. Qed.

Lemma up_Z k p : Zpos (up k p) = (Zpos p * 2 ^ Z.of_nat k)%Z.
Proof.
  induction k as [|k IH]; [simpl; lia|]. change (up (S k) p) with (xO (up k p)).
  rewrite Pos2Z.inj_xO, IH, Nat2Z.inj_succ, Z.pow_succ_r by lia. lia.
Qed.

Lemma width_up k p : width (up k p) = (width p + Z.of_nat k)%Z.
Proof.
  unfold width. induction k as [|k IH]; [simpl; lia|]. change (up (S k) p) with (xO (up k p)).
  cbn [digits2_pos]. lia.
Qed.

Lemma width_low p : (2 ^ width p <= 2 * Zpos p)%Z.
Proof.
  unfold width. induction p as [p IH|p IH|]; [| |done].
  all: cbn [digits2_pos]; rewrite Pos2Z.inj_succ, Z.pow_succ_r by lia; lia.
Qed.

Lemma width_pos p : (1 <= width p)%Z.
Proof. unfold width. lia. Qed.

Lemma width_bound p : (Zpos p < 2 ^ 53)%Z -> (width p <= 53)%Z.
Proof.
  intros H. pose proof (width_low p). destruct (Z.le_gt_cases (width p) 53) as [|Hw]; [done|].
  assert (2 ^ 54 <= 2 ^ width p)%Z by (apply Z.pow_le_mono_r; lia). lia.
Qed.

Lemma pos_iter_up d p : Pos.iter xO p d = up (Pos.to_nat d) p.
Proof. unfold up. by rewrite Pos2Nat.inj_iter. Qed.

Lemma iter_pos_nat {A} (f : A -> A) n : forall x, SpecFloat.iter_pos f n x = Nat.iter (Pos.to_nat n) f x.
Proof.
  induction n as [n IH|n IH|]; intros x; cbn [SpecFloat.iter_pos]; [..|done]; rewrite !IH, <-?Nat.iter_add.
  - rewrite Pos2Nat.inj_xI. replace (S (2 * Pos.to_nat n)) with ((Pos.to_nat n + Pos.to_nat n) + 1) by lia.
    by rewrite (Nat.iter_add _ 1).
  - rewrite Pos2Nat.inj_xO. f_equal. lia.
Qed.

Lemma shr_up j : forall k p,
  Nat.iter j shr_1 (Build_shr_record (Zpos (up (j + k) p)) false false) = Build_shr_record (Zpos (up k p)) false false.
Proof.
  induction j as [|j IH]; intros k p; [done|]. rewrite Nat.iter_succ_r. exact (IH k p).
Qed.

(** * Integers as numbers *)

(** The number of an integer of at most 53 digits. *)
Definition canon (s : bool) (p : positive) : num :=
  S754_finite s (up (Z.to_nat (53 - width p)) p) (width p - 53).

Lemma fexp_width p : fexp nprec nemax (width p) = (width p - 53)%Z.
Proof. pose proof (width_pos p). unfold fexp, emin, nprec, nemax. lia. Qed.

(** Aligning an integer to its exponent loses nothing. *)
Lemma shr_exact k p : (width p <= 53)%Z -> (53 - width p <= Z.of_nat k)%Z ->
  shr_fexp nprec nemax (Zpos (up k p)) (- Z.of_nat k) loc_Exact =
  (Build_shr_record (Zpos (up (Z.to_nat (53 - width p)) p)) false false, (width p - 53)%Z).
Proof.
  intros Hw Hk. unfold shr_fexp. change (Zdigits2 (Zpos (up k p))) with (width (up k p)).
  rewrite width_up. replace (width p + Z.of_nat k + - Z.of_nat k)%Z with (width p) by lia. rewrite fexp_width.
  cbn [shr_record_of_loc]. unfold shr.
  destruct (width p - 53 - - Z.of_nat k)%Z as [|n|n] eqn:E; [| |lia].
  - replace (Z.to_nat (53 - width p)) with k by lia. f_equal. lia.
  - rewrite iter_pos_nat. replace k with (Pos.to_nat n + Z.to_nat (53 - width p)) at 1 by lia.
    rewrite shr_up. f_equal. lia.
Qed.

Lemma round_aux_exact s k p : (width p <= 53)%Z -> (53 - width p <= Z.of_nat k)%Z ->
  binary_round_aux nprec nemax s (Zpos (up k p)) (- Z.of_nat k) loc_Exact = canon s p.
Proof.
  intros Hw Hk. unfold binary_round_aux. rewrite shr_exact by done. cbn [shr_m loc_of_shr_record round_nearest_even].
  replace (width p - 53)%Z with (- Z.of_nat (Z.to_nat (53 - width p)))%Z at 1 by lia.
  rewrite shr_exact by lia. cbn [shr_m]. rewrite (proj2 (Z.leb_le _ _)); [done|]. unfold nemax, nprec. lia.
Qed.

Lemma round_exact s k p : (width p <= 53)%Z -> binary_round nprec nemax s (up k p) (- Z.of_nat k) = canon s p.
Proof.
  intros Hw. unfold binary_round. change (Zpos (digits2_pos (up k p))) with (width (up k p)). rewrite width_up.
  replace (width p + Z.of_nat k + - Z.of_nat k)%Z with (width p) by lia. rewrite fexp_width. unfold shl_align.
  destruct (width p - 53 - - Z.of_nat k)%Z as [|n|n] eqn:E; [apply round_aux_exact; lia..|].
  rewrite pos_iter_up, up_up. replace (Pos.to_nat n + k) with (Z.to_nat (53 - width p)) by lia.
  replace (width p - 53)%Z with (- Z.of_nat (Z.to_nat (53 - width p)))%Z at 1 by lia. apply round_aux_exact; lia.
Qed.

(** [z] with zeros at the end is the number of [z]. *)
Lemma normalize_exact z k : (Z.abs z < 2 ^ 53)%Z ->
  binary_normalize nprec nemax (z * 2 ^ Z.of_nat k) (- Z.of_nat k) false =
  match z with Z0 => nzero | Zpos p => canon false p | Zneg p => canon true p end.
Proof.
  intros H. destruct z as [|p|p]; [done| |].
  - rewrite <-up_Z. apply round_exact, width_bound. lia.
  - rewrite <-Pos2Z.opp_pos, Z.mul_opp_l, <-up_Z. apply round_exact, width_bound. lia.
Qed.

Lemma num_of_Z_canon z : (Z.abs z < 2 ^ 53)%Z ->
  num_of_Z z = match z with Z0 => nzero | Zpos p => canon false p | Zneg p => canon true p end.
Proof. intros H. rewrite <-(normalize_exact z 0 H). unfold num_of_Z. by rewrite Z.mul_1_r. Qed.

Lemma num_to_of_Z z : (Z.abs z < 2 ^ 53)%Z -> num_to_Z (num_of_Z z) = Some z.
Proof.
  intros H. rewrite num_of_Z_canon by done.
  assert (Hc : forall s p, (Zpos p < 2 ^ 53)%Z -> num_to_Z (canon s p) = Some (if s then Zneg p else Zpos p)).
  { intros s p Hp. pose proof (width_bound p Hp) as Hw. unfold canon, num_to_Z. cbv zeta.
    set (j := Z.to_nat (53 - width p)). replace (- (width p - 53))%Z with (Z.of_nat j) by lia.
    assert (E : (if s then Zneg (up j p) else Zpos (up j p)) = ((if s then Zneg p else Zpos p) * 2 ^ Z.of_nat j)%Z).
    { destruct s; [|apply up_Z]. rewrite <-!Pos2Z.opp_pos, up_Z. lia. }
    rewrite E. destruct (Z.leb_spec 0 (width p - 53)).
    - replace j with 0 by lia. replace (width p - 53)%Z with 0%Z by lia. by rewrite !Z.mul_1_r.
    - assert (0 < 2 ^ Z.of_nat j)%Z by (apply Z.pow_pos_nonneg; lia).
      rewrite Z.mod_mul, Z.eqb_refl, Z.div_mul by lia. done. }
  destruct z as [|p|p]; [done|by rewrite Hc by lia|by rewrite Hc by lia].
Qed.

Lemma align_canon p e : (width p <= 53)%Z -> (e <= width p - 53)%Z ->
  (shl_align (up (Z.to_nat (53 - width p)) p) (width p - 53) e).1 = up (Z.to_nat (- e)) p.
Proof.
  intros Hw He. unfold shl_align. destruct (e - (width p - 53))%Z as [|n|n] eqn:E; [|lia|]; cbn [fst].
  - f_equal. lia.
  - rewrite pos_iter_up, up_up. f_equal. lia.
Qed.

(** Adding is exact. *)
Lemma num_add_exact a b : (Z.abs a < 2 ^ 53)%Z -> (Z.abs b < 2 ^ 53)%Z -> (Z.abs (a + b) < 2 ^ 53)%Z ->
  num_add (num_of_Z a) (num_of_Z b) = num_of_Z (a + b).
Proof.
  intros Ha Hb Hab. rewrite !num_of_Z_canon by done.
  assert (Hc : forall s t p q, (width p <= 53)%Z -> (width q <= 53)%Z ->
    num_add (canon s p) (canon t q) =
    let e := Z.min (width p - 53) (width q - 53) in
    binary_normalize nprec nemax ((cond_Zopp s (Zpos p) + cond_Zopp t (Zpos q)) * 2 ^ Z.of_nat (Z.to_nat (- e))) e false).
  { intros s t p q Hp Hq. unfold num_add, canon, SFadd. cbv zeta.
    change (fst (shl_align ?m ?x ?y)) with ((shl_align m x y).1). rewrite !align_canon by lia.
    f_equal. rewrite !up_Z. destruct s, t; cbn [cond_Zopp]; lia. }
  assert (Hfin : forall s t p q, (width p <= 53)%Z -> (width q <= 53)%Z ->
    (cond_Zopp s (Zpos p) + cond_Zopp t (Zpos q) = a + b)%Z ->
    num_add (canon s p) (canon t q) = match (a + b)%Z with Z0 => nzero | Zpos p => canon false p | Zneg p => canon true p end).
  { intros s t p q Hp Hq E. rewrite Hc by done. cbv zeta. rewrite E.
    set (e := Z.min _ _). replace e with (- Z.of_nat (Z.to_nat (- e)))%Z at 2 by lia. by apply normalize_exact. }
  destruct a as [|p|p], b as [|q|q]; rewrite ?Z.add_0_r, ?Z.add_0_l; try done.
  all: apply Hfin; try (apply width_bound; lia); cbn [cond_Zopp]; lia.
Qed.

(** * Sums *)

(** The integer of a number that is one. *)
Definition zval (x : num) : Z := num_to_Z x ?? 0%Z.

(** A number that is an integer of the safe range. *)
Definition safe_integer (x : num) : Prop := x = num_of_Z (zval x) /\ (Z.abs (zval x) < 2 ^ 53)%Z.

Lemma zval_of_Z z : (Z.abs z < 2 ^ 53)%Z -> zval (num_of_Z z) = z.
Proof. intros H. unfold zval. by rewrite num_to_of_Z. Qed.

Lemma exact_of_Z z : (Z.abs z < 2 ^ 53)%Z -> safe_integer (num_of_Z z).
Proof. intros H. unfold safe_integer. by rewrite zval_of_Z. Qed.

Lemma exact_zero : safe_integer nzero.
Proof. by apply (exact_of_Z 0). Qed.

Lemma exact_add x y : safe_integer x -> safe_integer y -> (Z.abs (zval x) + Z.abs (zval y) < 2 ^ 53)%Z ->
  safe_integer (num_add x y) /\ zval (num_add x y) = (zval x + zval y)%Z.
Proof.
  intros [Ex Hx] [Ey Hy] H. assert (E : num_add x y = num_of_Z (zval x + zval y)).
  { rewrite Ex, Ey at 1. apply num_add_exact; lia. }
  rewrite E, zval_of_Z by lia. split; [apply exact_of_Z; lia|done].
Qed.

(** [list.reduce((sum, x) => sum + x, 0)] *)
Definition num_sum (l : list num) : num := fold_left num_add l nzero.

Lemma num_sum_exact {A} (f : A -> num) (l : list A) :
  Forall (fun a => safe_integer (f a)) l -> (sumZ (fun a => Z.abs (zval (f a))) l < 2 ^ 53)%Z ->
  num_sum (List.map f l) = num_of_Z (sumZ (fun a => zval (f a)) l).
Proof.
  unfold num_sum. intros Hl. assert (H : forall s, safe_integer s ->
    (Z.abs (zval s) + sumZ (fun a => Z.abs (zval (f a))) l < 2 ^ 53)%Z ->
    fold_left num_add (List.map f l) s = num_of_Z (zval s + sumZ (fun a => zval (f a)) l)).
  { induction Hl as [|a l Ha Hl IH]; intros s Hs Hb; simpl in *; [rewrite Z.add_0_r; apply Hs|].
    assert (Hn : (0 <= sumZ (fun a => Z.abs (zval (f a))) l)%Z) by (apply sumZ_nonneg; lia).
    destruct (exact_add s (f a)) as [He Ez]; [done|done|lia|]. rewrite IH, Ez by (done || lia). f_equal. lia. }
  intros Hb. rewrite H; [done|apply exact_zero|]. change (zval nzero) with 0%Z. lia.
Qed.

Example num_sum_cents : num_sum [num_of_Z 3; num_of_Z (-5); num_of_Z (2 ^ 52)] = num_of_Z (2 ^ 52 - 2).
Proof. vm_compute. reflexivity. Qed.
