(* ===== verification/Json.v ===== *)
(** JavaScript values as [JSON.parse] builds them and as the program inspects
    them, with [JSON.parse], [JSON.stringify], [typeof], [Boolean] and [String].

    An object is the list of its own enumerable properties in the order of
    [Object.keys]: array index keys first, in ascending order, then the others
    in insertion order. *)

From Stdlib Require Import NArith ZArith Lia ZifyBool ZifyN.
From Stdlib Require Import SpecFloat.
From stdpp Require Import base list gmap strings.
From S2P Require Import Prelude JsString JsNum.

Inductive jv :=
| JUndef
| JNull
| JBool (b : bool)
| JNum (x : num)
| JStr (s : jstr)
| JArr (l : list jv)
| JObj (l : list (jstr * jv)).

(** ** Inspecting values *)

(** [Boolean(v)] *)
Definition jv_truthy (v : jv) : bool :=
  match v with
  | JUndef | JNull => false
  | JBool b => b
  | JNum x => num_truthy x
  | JStr s => truthy s
  | JArr _ | JObj _ => true
  end.

(** [typeof v] *)
Definition jv_typeof (v : jv) : jstr :=
  match v with
  | JUndef => js "undefined"
  | JNull | JArr _ | JObj _ => js "object"
  | JBool _ => js "boolean"
  | JNum _ => js "number"
  | JStr _ => js "string"
  end.

Definition is_object (v : jv) : bool := jv_typeof v =s js "object".
Definition is_array (v : jv) : bool := match v with JArr _ => true | _ => false end.

(** [v\[key\]] for a key that is not an index or [length]: only objects answer. *)
Definition jv_get (v : jv) (k : jstr) : jv :=
  match v with
  | JObj l => nullish (map_get k l) JUndef
  | _ => JUndef
  end.

Definition obj_keys (l : list (jstr * jv)) : list jstr := l.*1.
Definition obj_values (l : list (jstr * jv)) : list jv := l.*2.

(** [Object.entries(v)] of an array or object. *)
Definition jv_entries (v : jv) : list (jstr * jv) :=
  match v with
  | JObj l => l
  | JArr l => imap (fun i x => (print_N (N.of_nat i), x)) l
  | _ => []
  end.

(** [String(v)]; an array joins its elements, null and undefined as empty. *)
Fixpoint jv_to_string (v : jv) : jstr :=
  match v with
  | JUndef => js "undefined"
  | JNull => js "null"
  | JBool true => js "true"
  | JBool false => js "false"
  | JNum x => num_to_string x
  | JStr s => s
  | JArr l =>
      join (js ",") ((fix elems (l : list jv) :=
        match l with
        | [] => []
        | JUndef :: t | JNull :: t => [] :: elems t
        | x :: t => jv_to_string x :: elems t
        end) l)
  | JObj _ => js "[object Object]"
  end.

(** [Number(v)] *)
Definition jv_number (v : jv) : num :=
  match v with
  | JNum x => x
  | JUndef => S754_nan
  | JNull | JBool false => nzero
  | JBool true => num_of_Z 1
  | _ => num_of_string (jv_to_string v)
  end.

(** ** Own property order *)

(** A canonical array index below 2^32 - 1. *)
Definition array_index (k : jstr) : option N :=
  if all_digits k then
    let n := digits_value k in
    if (print_N n =s k) && (n <? 4294967295)%N then Some n else None
  else None.

Definition key_order {V} (a b : jstr * V) : Z :=
  match array_index a.1, array_index b.1 with
  | Some x, Some y => (Z.of_N x - Z.of_N y)%Z
  | Some _, None => -1
  | None, Some _ => 1
  | None, None => 0
  end.

(** The object with these properties assigned one after the other. *)
Definition make_obj (l : list (jstr * jv)) : jv :=
  JObj (sort_by key_order (fold_left (fun m e => map_set e.1 e.2 m) l [])).

(** ** [JSON.parse] *)

Definition is_json_ws (c : N) : bool :=
  ((c =? 9) || (c =? 10) || (c =? 13) || (c =? 32))%N.

Definition skip_ws (s : jstr) : jstr := drop_while is_json_ws s.

Definition hex4 (s : jstr) : option (N * jstr) :=
  match s with
  | a :: b :: c :: d :: t =>
      match hex_val a, hex_val b, hex_val c, hex_val d with
      | Some x, Some y, Some z, Some w => Some (x * 4096 + y * 256 + z * 16 + w, t)%N
      | _, _, _, _ => None
      end
  | _ => None
  end.

(** The character an escape letter stands for. *)
Definition simple_escape (c : N) : option N :=
  if (c =? 34)%N then Some 34%N
  else if (c =? 92)%N then Some 92%N
  else if (c =? 47)%N then Some 47%N
  else if (c =? 98)%N then Some 8%N
  else if (c =? 102)%N then Some 12%N
  else if (c =? 110)%N then Some 10%N
  else if (c =? 114)%N then Some 13%N
  else if (c =? 116)%N then Some 9%N
  else None.

(** The rest of a string literal, after its opening quote. *)
Fixpoint parse_string_body (fuel : nat) (s : jstr) : option (jstr * jstr) :=
  match fuel with
  | O => None
  | S f =>
      match s with
      | [] => None
      | c :: t =>
          if (c =? 34)%N then Some ([], t)
          else if (c <? 32)%N then None
          else if (c =? 92)%N then
            match t with
            | [] => None
            | e :: u =>
                if (e =? 117)%N then
                  match hex4 u with
                  | Some (x, w) =>
                      match parse_string_body f w with
                      | Some (r, z) => Some (x :: r, z)
                      | None => None
                      end
                  | None => None
                  end
                else
                  match simple_escape e with
                  | Some x =>
                      match parse_string_body f u with
                      | Some (r, z) => Some (x :: r, z)
                      | None => None
                      end
                  | None => None
                  end
            end
          else
            match parse_string_body f t with
            | Some (r, z) => Some (c :: r, z)
            | None => None
            end
      end
  end.

(** A JSON number: no leading zeros, no bare point. *)
Definition parse_number (s : jstr) : option (num * jstr) :=
  let '(neg, t) := match s with 45%N :: u => (true, u) | _ => (false, s) end in
  let '(ip, r) := span_digits t in
  let int_ok := match ip with
                | [] => false
                | 48%N :: _ :: _ => false
                | _ => true
                end in
  let frac_ok := match r with
                 | 46%N :: u => truthy (span_digits u).1
                 | _ => true
                 end in
  if (int_ok && frac_ok)%bool then read_unsigned neg t else None.

(** White space, then the unit [c]. *)
Definition expect (c : N) (s : jstr) : option jstr :=
  match skip_ws s with
  | x :: u => if (x =? c)%N then Some u else None
  | [] => None
  end.

(** A word or a number. *)
Definition parse_scalar (s : jstr) : option (jv * jstr) :=
  match strip_prefix (js "true") s with
  | Some u => Some (JBool true, u)
  | None =>
  match strip_prefix (js "false") s with
  | Some u => Some (JBool false, u)
  | None =>
  match strip_prefix (js "null") s with
  | Some u => Some (JNull, u)
  | None =>
  match parse_number s with
  | Some (x, u) => Some (JNum x, u)
  | None => None
  end end end end.

Fixpoint parse_value (fuel : nat) (s : jstr) : option (jv * jstr) :=
  match fuel with
  | O => None
  | S f =>
      match skip_ws s with
      | [] => None
      | c :: t =>
          if (c =? 123)%N then
            match expect 125 t with
            | Some u => Some (JObj [], u)
            | None =>
                match parse_members f t with
                | Some (l, u) => Some (make_obj l, u)
                | None => None
                end
            end
          else if (c =? 91)%N then
            match expect 93 t with
            | Some u => Some (JArr [], u)
            | None =>
                match parse_elements f t with
                | Some (l, u) => Some (JArr l, u)
                | None => None
                end
            end
          else if (c =? 34)%N then
            match parse_string_body (S (length t)) t with
            | Some (x, u) => Some (JStr x, u)
            | None => None
            end
          else parse_scalar (c :: t)
      end
  end
with parse_members (fuel : nat) (s : jstr) : option (list (jstr * jv) * jstr) :=
  match fuel with
  | O => None
  | S f =>
      match expect 34 s with
      | None => None
      | Some t =>
          match parse_string_body (S (length t)) t with
          | None => None
          | Some (k, u) =>
              match expect 58 u with
              | None => None
              | Some w =>
                  match parse_value f w with
                  | None => None
                  | Some (v, z) =>
                      match expect 44 z with
                      | Some z' =>
                          match parse_members f z' with
                          | Some (l, y) => Some ((k, v) :: l, y)
                          | None => None
                          end
                      | None =>
                          match expect 125 z with
                          | Some z' => Some ([(k, v)], z')
                          | None => None
                          end
                      end
                  end
              end
          end
      end
  end
with parse_elements (fuel : nat) (s : jstr) : option (list jv * jstr) :=
  match fuel with
  | O => None
  | S f =>
      match parse_value f s with
      | None => None
      | Some (v, z) =>
          match expect 44 z with
          | Some z' =>
              match parse_elements f z' with
              | Some (l, y) => Some (v :: l, y)
              | None => None
              end
          | None =>
              match expect 93 z with
              | Some z' => Some ([v], z')
              | None => None
              end
          end
      end
  end.

(** [JSON.parse(s)]: [None] is a thrown SyntaxError.  Every call consumes a
    unit before a value and one between two, so the fuel is never short. *)
Definition json_parse (s : jstr) : option jv :=
  match parse_value (S (2 * length s)) s with
  | Some (v, u) => match skip_ws u with [] => Some v | _ => None end
  | None => None
  end.

(** ** [JSON.stringify] *)

Definition hex_digit (n : N) : N := if (n <? 10)%N then (48 + n)%N else (87 + n)%N.

Definition unicode_escape (c : N) : jstr :=
  [92; 117; hex_digit (c / 4096); hex_digit (c / 256 mod 16); hex_digit (c / 16 mod 16); hex_digit (c mod 16)]%N.

Definition is_high (c : N) : bool := in_range 55296 56319 c.
Definition is_low (c : N) : bool := in_range 56320 57343 c.

Definition quote_unit (c : N) : jstr :=
  (if c =? 8 then [92; 98]
   else if c =? 9 then [92; 116]
   else if c =? 10 then [92; 110]
   else if c =? 12 then [92; 102]
   else if c =? 13 then [92; 114]
   else if c =? 34 then [92; 34]
   else if c =? 92 then [92; 92]
   else if c <? 32 then unicode_escape c
   else [c])%N.

(** A lone surrogate is escaped, a pair is kept. *)
Fixpoint quote_body (s : jstr) : jstr :=
  match s with
  | [] => []
  | c :: t =>
      if is_high c then
        match t with
        | d :: u => if is_low d then c :: d :: quote_body u else unicode_escape c ++ quote_body t
        | [] => unicode_escape c
        end
      else if is_low c then unicode_escape c ++ quote_body t
      else quote_unit c ++ quote_body t
  end.

(** [JSON.stringify(s)] of a string. *)
Definition json_quote (s : jstr) : jstr := 34%N :: quote_body s ++ [34%N].

Definition json_num (x : num) : jstr := if num_is_finite x then num_to_string x else js "null".

(** [JSON.stringify(v, null, gap)] at an indentation; an undefined property is
    left out, an undefined element is written [null]. Without a gap nothing but
    the punctuation stands between the parts. *)
Definition brk (gap ind : jstr) : jstr := match gap with [] => [] | _ => 10%N :: ind end.
Definition colon (gap : jstr) : jstr := match gap with [] => js ":" | _ => js ": " end.

Fixpoint stringify_gap (gap ind : jstr) (v : jv) : jstr :=
  let ind' := ind ++ gap in
  match v with
  | JUndef | JNull => js "null"
  | JBool true => js "true"
  | JBool false => js "false"
  | JNum x => json_num x
  | JStr s => json_quote s
  | JArr [] => js "[]"
  | JArr l =>
      js "[" ++ brk gap ind' ++
      join (js "," ++ brk gap ind') (List.map (stringify_gap gap ind') l) ++
      brk gap ind ++ js "]"
  | JObj l =>
      let props := (fix props (l : list (jstr * jv)) : list jstr :=
        match l with
        | [] => []
        | (_, JUndef) :: t => props t
        | (k, x) :: t => (json_quote k ++ colon gap ++ stringify_gap gap ind' x) :: props t
        end) l in
      match props with
      | [] => js "{}"
      | _ => js "{" ++ brk gap ind' ++ join (js "," ++ brk gap ind') props ++ brk gap ind ++ js "}"
      end
  end.

Definition json_stringify (v : jv) : jstr := stringify_gap [] [] v.
Definition json_stringify2 (v : jv) : jstr := stringify_gap (js "  ") [] v.

Example json_parse_ex :
  json_parse (jq " {`b`: [1, true, null], `2`: `x\n`, `1`: {}} ") =
  Some (JObj [(js "1", JObj []); (js "2", JStr [120; 10]%N);
              (js "b", JArr [JNum (num_of_Z 1); JBool true; JNull])]).
Proof. vm_compute. reflexivity. Qed.

Example json_parse_bad : json_parse (js "[01]") = None.
Proof. vm_compute. reflexivity. Qed.

Example json_stringify_ex :
  json_parse (json_stringify2 (JObj [(js "a", JArr [JStr (jq "q`\"); JNull]); (js "u", JUndef)])) =
  Some (JObj [(js "a", JArr [JStr (jq "q`\"); JNull])]).
Proof. vm_compute. reflexivity. Qed.

(** * Lemmas *)

(** ** Strings *)

Lemma hex_val_digit n : (n < 16)%N -> hex_val (hex_digit n) = Some n.
Proof.
  intros Hn.
  assert (H : forallb (fun k => match hex_val (hex_digit (N.of_nat k)) with
                                | Some x => N.eqb x (N.of_nat k) | None => false end) (seq 0 16) = true)
    by (vm_compute; reflexivity).
  rewrite forallb_forall in H. specialize (H (N.to_nat n)). rewrite N2Nat.id in H.
  destruct (hex_val (hex_digit n)) as [x|].
  - f_equal. apply N.eqb_eq, H, in_seq. lia.
  - discriminate H. apply in_seq. lia.
Qed.

Lemma hex4_escape c t :
  (c < 65536)%N ->
  hex4 (hex_digit (c / 4096) :: hex_digit (c / 256 mod 16) :: hex_digit (c / 16 mod 16) :: hex_digit (c mod 16) :: t)%N
  = Some (c, t).
Proof.
  intros Hc. unfold hex4.
  rewrite !hex_val_digit by (apply N.mod_lt || apply N.Div0.div_lt_upper_bound; lia).
  do 2 f_equal.
  pose proof (N.Div0.div_mod c 16) as E1. pose proof (N.Div0.div_mod (c / 16) 16) as E2.
  pose proof (N.Div0.div_mod (c / 16 / 16) 16) as E3.
  rewrite !N.Div0.div_div in *. simpl in *. lia.
Qed.

Definition units_ok (s : jstr) : Prop := Forall (fun c => (c < 65536)%N) s.

Lemma units_check s : forallb (fun c => (c <? 65536)%N) s = true -> units_ok s.
Proof. intros Hs. apply Forall_forall. intros c Hc. apply list_elem_of_In in Hc. apply N.ltb_lt.
  apply (proj1 (forallb_forall _ s) Hs c Hc). Qed.

Ltac units_done := lazymatch goal with |- units_ok _ => apply units_check; vm_compute; reflexivity end.

Lemma parse_body_unicode f c t r z :
  (c < 65536)%N -> parse_string_body f t = Some (r, z) ->
  parse_string_body (S f) (unicode_escape c ++ t) = Some (c :: r, z).
Proof.
  intros Hc H. unfold unicode_escape. rewrite <-!app_comm_cons. cbn [parse_string_body app].
  change (92 =? 34)%N with false. change (92 <? 32)%N with false. change (92 =? 92)%N with true.
  change (117 =? 117)%N with true. cbn iota. by rewrite hex4_escape, H.
Qed.

Lemma parse_body_unit f c t r z :
  (c < 65536)%N -> parse_string_body f t = Some (r, z) ->
  parse_string_body (S f) (quote_unit c ++ t) = Some (c :: r, z).
Proof.
  intros Hc H. unfold quote_unit.
  repeat match goal with
  | |- context [(c =? ?k)%N] => destruct (N.eqb_spec c k) as [->|?]; [simpl; by rewrite H|]
  end.
  destruct (N.ltb_spec c 32); [by apply parse_body_unicode|].
  simpl. rewrite (proj2 (N.eqb_neq c 34)), (proj2 (N.ltb_ge c 32)), (proj2 (N.eqb_neq c 92)) by done.
  by rewrite H.
Qed.

(** Reading back a quoted string. *)
Lemma parse_quote_body s t f :
  units_ok s -> length s < f -> parse_string_body f (quote_body s ++ 34%N :: t) = Some (s, t).
Proof.
  remember (length s) as n eqn:Hn. revert s f Hn. induction (lt_wf n) as [n _ IH].
  intros s f -> Hu Hf. destruct s as [|c s].
  - destruct f; [lia|]. done.
  - apply Forall_cons in Hu as [Hc Hu]. destruct f as [|f]; [lia|]. cbn [length] in *. cbn [quote_body].
    assert (Hone : parse_string_body f (quote_body s ++ 34%N :: t) = Some (s, t)).
    { apply (IH (length s)); [lia|done|done|lia]. }
    destruct (is_high c) eqn:Eh.
    + destruct s as [|d s].
      * by apply parse_body_unicode.
      * destruct (is_low d) eqn:El.
        -- apply Forall_cons in Hu as [Hd Hu]. rewrite <-!app_comm_cons.
           destruct f as [|f]; [simpl in Hf; lia|].
           unfold is_high, is_low, in_range in *.
           cbn [parse_string_body].
           rewrite (proj2 (N.eqb_neq c 34)), (proj2 (N.ltb_ge c 32)), (proj2 (N.eqb_neq c 92)) by lia.
           rewrite (proj2 (N.eqb_neq d 34)), (proj2 (N.ltb_ge d 32)), (proj2 (N.eqb_neq d 92)) by lia.
           rewrite (IH (length s)); [done|simpl; lia|done|done|simpl in Hf; lia].
        -- rewrite <-app_assoc. by apply parse_body_unicode.
    + destruct (is_low c) eqn:El; rewrite <-app_assoc; [by apply parse_body_unicode|by apply parse_body_unit].
Qed.

(** Quoting never shortens. *)
Lemma quote_body_length s : length s <= length (quote_body s).
Proof.
  remember (length s) as n eqn:Hn. revert s Hn. induction (lt_wf n) as [n _ IH]. intros s ->.
  destruct s as [|c s]; [simpl; lia|]. cbn [quote_body length].
  pose proof (IH (length s) ltac:(simpl; lia) s eq_refl) as H1.
  assert (Hq : 1 <= length (quote_unit c)).
  { unfold quote_unit. repeat case_match; simpl; lia. }
  destruct (is_high c).
  - destruct s as [|d s]; [simpl; lia|].
    pose proof (IH (length s) ltac:(simpl; lia) s eq_refl) as H2.
    destruct (is_low d); rewrite ?length_app; simpl in *; lia.
  - destruct (is_low c); rewrite length_app; [simpl length at 2|]; simpl in *; lia.
Qed.

(** ** Objects *)

Lemma map_set_fresh {V} (l m : list (jstr * V)) :
  NoDup (m.*1 ++ l.*1) -> fold_left (fun m e => map_set e.1 e.2 m) l m = m ++ l.
Proof.
  revert m. induction l as [|[k v] l IH]; intros m H; simpl; [by rewrite app_nil_r|].
  csimpl in H. assert (Hk : k ∉ m.*1).
  { apply NoDup_app in H as (_ & H & _). intros Hin. apply (H k Hin). left. }
  assert (E : map_set k v m = m ++ [(k, v)]).
  { clear -Hk. induction m as [|[k' v'] m IH]; [done|]. csimpl in Hk.
    apply not_elem_of_cons in Hk as [H1 H2]. simpl. rewrite bool_decide_false by done. by rewrite IH. }
  rewrite E, IH, <-app_assoc; [done|].
  rewrite fmap_app, <-app_assoc. exact H.
Qed.

Lemma make_obj_id l :
  NoDup l.*1 -> Forall (fun k => array_index k = None) l.*1 -> make_obj l = JObj l.
Proof.
  intros Hnd Hk. unfold make_obj. rewrite map_set_fresh by done. simpl. f_equal.
  assert (Hz : forall a b, a ∈ l -> b ∈ l -> key_order a b = 0%Z).
  { intros a b Ha Hb. unfold key_order. rewrite Forall_forall in Hk.
    rewrite (Hk a.1), (Hk b.1); [done|apply list_elem_of_fmap; eauto..]. }
  apply sort_by_id. clear Hnd Hk. induction l as [|x l IH]; constructor.
  - apply IH. intros; apply Hz; by right.
  - destruct l as [|y l]; constructor. unfold cmp_le. rewrite Hz; [done|left|right; left].
Qed.

(** ** Values print and parse back *)

(** What may follow a number: anything that does not continue it. *)
Definition num_stop (t : jstr) : bool :=
  match t with [] => true | c :: _ => negb (is_digit c || bool_decide (c ∈ [46; 101; 69; 43; 45; 120; 88]%N)) end.

(** A number whose text reads back as it, in any context. *)
Definition num_reads (x : num) : Prop :=
  (exists c u, json_num x = c :: u /\ (is_digit c = true \/ c = 45%N)) /\
  forall t, num_stop t = true -> parse_number (json_num x ++ t) = Some (x, t).


Fixpoint plain (v : jv) : Prop :=
  match v with
  | JUndef => False
  | JNum x => num_reads x
  | JNull | JBool _ => True
  | JStr s => units_ok s
  | JArr l => (fix all (l : list jv) := match l with [] => True | x :: t => plain x /\ all t end) l
  | JObj l =>
      NoDup l.*1 /\ Forall (fun k => units_ok k /\ array_index k = None) l.*1 /\
      (fix all (l : list (jstr * jv)) := match l with [] => True | (_, x) :: t => plain x /\ all t end) l
  end.

(** Fuel that parsing the printed value takes. *)
Fixpoint need (v : jv) : nat :=
  match v with
  | JArr l => S ((fix sum (l : list jv) := match l with [] => 0 | x :: t => S (need x + sum t) end) l)
  | JObj l => S ((fix sum (l : list (jstr * jv)) := match l with [] => 0 | (_, x) :: t => S (need x + sum t) end) l)
  | _ => 1
  end.

Definition need_list (l : list jv) : nat := foldr (fun x n => S (need x + n)) 0 l.
Definition plain_list (l : list jv) : Prop := foldr (fun x P => plain x /\ P) True l.

Lemma need_arr l : need (JArr l) = S (need_list l).
Proof. reflexivity. Qed.

Lemma need_obj l : need (JObj l) = S (need_list l.*2).
Proof. simpl. f_equal. induction l as [|[k x] l IH]; [done|]. simpl. by rewrite IH. Qed.

Lemma plain_arr l : plain (JArr l) = plain_list l.
Proof. reflexivity. Qed.

Lemma plain_obj l :
  plain (JObj l) =
  (NoDup l.*1 /\ Forall (fun k => units_ok k /\ array_index k = None) l.*1 /\ plain_list l.*2).
Proof. simpl. do 2 f_equal. induction l as [|[k x] l IH]; [done|]. simpl. by rewrite IH. Qed.

Lemma plain_list_Forall l : plain_list l <-> Forall plain l.
Proof.
  induction l as [|x l IH]; simpl; [split; [constructor|done]|].
  rewrite IH, Forall_cons. done.
Qed.

(** Induction over values, through arrays and objects. *)
Lemma jv_nested_ind (P : jv -> Prop) :
  P JUndef -> P JNull -> (forall b, P (JBool b)) -> (forall x, P (JNum x)) -> (forall s, P (JStr s)) ->
  (forall l, Forall P l -> P (JArr l)) -> (forall l, Forall P l.*2 -> P (JObj l)) ->
  forall v, P v.
Proof.
  intros H1 H2 H3 H4 H5 H6 H7. fix IH 1. intros [| |b|x|s|l|l]; [done|done|auto|auto|auto| |].
  - apply H6. induction l as [|x l IHl]; constructor; auto.
  - apply H7. induction l as [|[k x] l IHl]; constructor; simpl; auto.
Qed.

Definition ws_str (w : jstr) : Prop := forallb is_json_ws w = true.

Lemma skip_ws_app w s : ws_str w -> skip_ws (w ++ s) = skip_ws s.
Proof. apply drop_while_app. Qed.

Lemma expect_ws c w s : ws_str w -> expect c (w ++ s) = expect c s.
Proof. intros H. unfold expect. by rewrite skip_ws_app. Qed.

Lemma expect_hit c s : is_json_ws c = false -> expect c (c :: s) = Some s.
Proof. intros H. unfold expect, skip_ws. rewrite drop_while_keep by done. by rewrite N.eqb_refl. Qed.

Lemma expect_miss c d s : is_json_ws d = false -> d <> c -> expect c (d :: s) = None.
Proof.
  intros H Hne. unfold expect, skip_ws. rewrite drop_while_keep by done.
  by rewrite (proj2 (N.eqb_neq _ _) Hne).
Qed.

Lemma parse_value_ws f w s : ws_str w -> parse_value f (w ++ s) = parse_value f s.
Proof. intros H. destruct f; [done|]. cbn [parse_value]. by rewrite skip_ws_app. Qed.

Lemma brk_ws gap ind : ws_str ind -> ws_str (brk gap ind).
Proof. by destruct gap. Qed.

Lemma colon_ws gap : exists w, colon gap = 58%N :: w /\ ws_str w.
Proof. destruct gap; by eexists. Qed.

Lemma ws_deeper gap ind : ws_str gap -> ws_str ind -> ws_str (ind ++ gap).
Proof. intros Hg H. unfold ws_str. by rewrite forallb_app, H, Hg. Qed.

Lemma stop_ws w c t : ws_str w -> num_stop (c :: t) = true -> num_stop (w ++ c :: t) = true.
Proof.
  destruct w as [|x w]; [done|]. intros [Hx _]%andb_true_iff _. unfold is_json_ws in Hx.
  repeat (apply orb_prop in Hx as [Hx|Hx]); apply N.eqb_eq in Hx as ->; done.
Qed.

Lemma parse_scalar_number x t :
  num_reads x -> num_stop t = true -> parse_scalar (json_num x ++ t) = Some (JNum x, t).
Proof.
  intros [(c & u & E & Hc) H] Ht. unfold parse_scalar.
  assert (Hne : c <> 116%N /\ c <> 102%N /\ c <> 110%N).
  { destruct Hc as [Hc| ->]; [|done]. unfold is_digit, in_range in Hc. lia. }
  rewrite E, <-app_comm_cons. cbn [strip_prefix js].
  change (js "true") with [116; 114; 117; 101]%N. change (js "false") with [102; 97; 108; 115; 101]%N.
  change (js "null") with [110; 117; 108; 108]%N. cbn [strip_prefix].
  destruct Hne as (H1 & H2 & H3).
  rewrite (proj2 (N.eqb_neq 116 c)), (proj2 (N.eqb_neq 102 c)), (proj2 (N.eqb_neq 110 c)) by congruence.
  rewrite app_comm_cons, <-E. by rewrite H.
Qed.

Section Printed.
Context (gap : jstr) (Hgap : ws_str gap).

(** The head of a printed value: no white space, no closing bracket. *)
Lemma stringify_head ind v :
  plain v -> exists c t, stringify_gap gap ind v = c :: t /\ is_json_ws c = false /\ c <> 93%N /\ c <> 125%N.
Proof.
  destruct v as [| |[|]|x|s|[|x l]|l]; intros Hp; try done; try (simpl; eexists _, _; by split_and!).
  - destruct Hp as [(c & u & E & Hc) _]. exists c, u. split; [done|].
    destruct Hc as [Hc| ->]; [|done]. unfold is_digit, in_range, is_json_ws in *. lia.
  - simpl. match goal with |- context [match ?p with [] => _ | _ => _ end] => destruct p end;
      eexists _, _; by split_and!.
Qed.

(** A value parses back in any context. *)
Definition reads (v : jv) : Prop :=
  forall ind f t, ws_str ind -> num_stop t = true -> need v <= f ->
  parse_value f (stringify_gap gap ind v ++ t) = Some (v, t).

Lemma parse_elements_ws f w s : ws_str w -> parse_elements f (w ++ s) = parse_elements f s.
Proof. intros H. destruct f; [done|]. cbn [parse_elements]. by rewrite parse_value_ws. Qed.

Lemma parse_members_ws f w s : ws_str w -> parse_members f (w ++ s) = parse_members f s.
Proof. intros H. destruct f; [done|]. cbn [parse_members]. by rewrite expect_ws. Qed.

Lemma join_cons2 sep a b l : join sep (a :: b :: l) = a ++ sep ++ join sep (b :: l).
Proof. done. Qed.

Lemma parse_elements_list ind l x f w t :
  ws_str ind -> Forall reads (x :: l) -> need_list (x :: l) <= f -> ws_str w ->
  parse_elements f (join (js "," ++ brk gap ind) (List.map (stringify_gap gap ind) (x :: l)) ++
    w ++ 93%N :: t) = Some (x :: l, t).
Proof.
  intros Hi. revert x f. induction l as [|y l IH]; intros x f Hr Hn Hw;
    pose proof (Forall_inv Hr) as Hx; pose proof (Forall_inv_tail Hr) as Hr';
    (destruct f as [|f]; [simpl in Hn; lia|]); cbn [parse_elements].
  - cbn [List.map join]. rewrite Hx by (done || (by apply stop_ws) || simpl in Hn; lia).
    rewrite !expect_ws by done. by rewrite expect_miss, expect_hit.
  - cbn [List.map]. rewrite join_cons2, <-!app_assoc, Hx by (done || simpl in Hn; lia).
    change (js "," ++ ?z) with (44%N :: z). rewrite expect_hit by done.
    rewrite parse_elements_ws by by apply brk_ws.
    specialize (IH y f Hr'). cbn [List.map] in IH. rewrite IH; [done| |done].
    simpl in *. lia.
Qed.

(** A property as printed. *)
Definition print_prop (ind : jstr) (e : jstr * jv) : jstr :=
  json_quote e.1 ++ colon gap ++ stringify_gap gap ind e.2.

Lemma parse_quoted_key k s f :
  units_ok k -> length (quote_body k ++ 34%N :: s) < f ->
  parse_string_body f (quote_body k ++ 34%N :: s) = Some (k, s).
Proof.
  intros Hk Hf. apply parse_quote_body; [done|].
  rewrite length_app in Hf. pose proof (quote_body_length k). lia.
Qed.

Lemma parse_members_list ind l e f w t :
  ws_str ind -> Forall reads (e :: l).*2 -> Forall units_ok (e :: l).*1 ->
  need_list (e :: l).*2 <= f -> ws_str w ->
  parse_members f (join (js "," ++ brk gap ind) (List.map (print_prop ind) (e :: l)) ++
    w ++ 125%N :: t) = Some (e :: l, t).
Proof.
  intros Hi. destruct (colon_ws gap) as (cw & Ecol & Hcol).
  revert e f. induction l as [|e' l IH]; intros [k v] f Hr Hk Hn Hw;
    csimpl in Hr; csimpl in Hk; csimpl in Hn; apply Forall_cons in Hr as [Hv Hr]; apply Forall_cons in Hk as [Hk Hks];
    (destruct f as [|f]; [lia|]); cbn [parse_members].
  - cbn [List.map join]. unfold print_prop at 1, json_quote. cbn [fst snd].
    rewrite <-!app_comm_cons, expect_hit by done. rewrite <-!app_assoc.
    change ([34%N] ++ ?z) with (34%N :: z).
    rewrite parse_quoted_key by (done || lia).
    rewrite Ecol, <-app_comm_cons, expect_hit by done.
    rewrite parse_value_ws by done. rewrite Hv by (done || (by apply stop_ws) || lia).
    rewrite !expect_ws by done. by rewrite expect_miss, expect_hit.
  - cbn [List.map]. rewrite join_cons2. unfold print_prop at 1, json_quote. cbn [fst snd].
    rewrite <-!app_comm_cons, expect_hit by done. rewrite <-!app_assoc.
    change ([34%N] ++ ?z) with (34%N :: z).
    rewrite parse_quoted_key by (done || lia).
    rewrite Ecol, <-app_comm_cons, expect_hit by done.
    rewrite parse_value_ws by done. rewrite Hv by (done || lia).
    change (js "," ++ ?z) with (44%N :: z). rewrite expect_hit by done.
    rewrite parse_members_ws by by apply brk_ws.
    specialize (IH e' f). cbn [List.map] in IH. rewrite IH; [done|done|done|csimpl; lia|done].
Qed.

Lemma plain_props l :
  Forall plain l.*2 ->
  forall ind, (fix props (l : list (jstr * jv)) : list jstr :=
        match l with
        | [] => []
        | (_, JUndef) :: t => props t
        | (k, x) :: t => (json_quote k ++ colon gap ++ stringify_gap gap ind x) :: props t
        end) l = List.map (print_prop ind) l.
Proof.
  intros H ind. induction l as [|[k x] l IH]; [done|]. csimpl in H.
  apply Forall_cons in H as [Hx H]. rewrite (IH H). by destruct x.
Qed.

(** Every such value parses back from its printed text. *)
Lemma plain_reads v : plain v -> reads v.
Proof.
  induction v as [| |b|x|s|l IH|l IH] using jv_nested_ind; intros Hp ind f t Hi Ht Hf; try done.
  - destruct f; [simpl in Hf; lia|]. done.
  - destruct f; [simpl in Hf; lia|]. by destruct b.
  - destruct f; [simpl in Hf; lia|]. cbn [stringify_gap]. pose proof (parse_scalar_number x t Hp Ht) as H.
    destruct Hp as [(c & u & E & Hc) _]. rewrite E, <-app_comm_cons in *. cbn [parse_value].
    assert (Hnot : is_json_ws c = false /\ c <> 123%N /\ c <> 91%N /\ c <> 34%N).
    { destruct Hc as [Hc| ->]; [|done]. unfold is_digit, in_range, is_json_ws in *. lia. }
    destruct Hnot as (Hw & H1 & H2 & H3). unfold skip_ws. rewrite drop_while_keep by done. cbn iota.
    rewrite (proj2 (N.eqb_neq c 123)), (proj2 (N.eqb_neq c 91)), (proj2 (N.eqb_neq c 34)) by done. done.
  - destruct f; [simpl in Hf; lia|]. cbn [stringify_gap json_quote]. unfold json_quote.
    rewrite <-app_comm_cons, <-app_assoc. cbn [parse_value].
    change (skip_ws (34%N :: ?z)) with (34%N :: z). cbn iota.
    change ([34%N] ++ t) with (34%N :: t).
    change (34 =? 123)%N with false. change (34 =? 91)%N with false. change (34 =? 34)%N with true.
    cbn iota. rewrite parse_quoted_key; [done|done|lia].
  - rewrite plain_arr, plain_list_Forall in Hp. rewrite need_arr in Hf.
    destruct f as [|f]; [lia|]. destruct l as [|x l]; [done|].
    assert (Hr : Forall reads (x :: l)).
    { rewrite Forall_forall in *. intros y Hy. by apply IH; [|apply Hp]. }
    cbn [stringify_gap]. change (js "[" ++ ?z) with (91%N :: z).
    change ((91%N :: ?z) ++ t) with (91%N :: (z ++ t)). cbn [parse_value].
    change (skip_ws (91%N :: ?z)) with (91%N :: z). cbn iota.
    change (91 =? 123)%N with false. change (91 =? 91)%N with true. cbn iota.
    assert (Hi' : ws_str (ind ++ gap)) by (by apply ws_deeper).
    revert Hi'. generalize (ind ++ gap). intros ind' Hi'. rewrite <-!app_assoc.
    rewrite expect_ws by by apply brk_ws.
    assert (Hmiss : forall z, expect 93 (join (js "," ++ brk gap ind') (List.map (stringify_gap gap ind') (x :: l)) ++ z) = None).
    { intros z. destruct (stringify_head ind' x) as (c & u & Hc & Hw & H1 & H2); [by inversion Hp|].
      cbn [List.map]. destruct (List.map (stringify_gap gap ind') l); [simpl join|rewrite join_cons2];
        rewrite Hc, <-?app_assoc, <-?app_comm_cons; by apply expect_miss. }
    rewrite Hmiss, parse_elements_ws by by apply brk_ws.
    change (js "]" ++ t) with (93%N :: t).
    rewrite parse_elements_list; [done|done|done|lia|by apply brk_ws].
  - rewrite plain_obj in Hp. destruct Hp as (Hnd & Hk & Hpl). rewrite plain_list_Forall in Hpl.
    rewrite need_obj in Hf. destruct f as [|f]; [lia|].
    cbn [stringify_gap]. rewrite plain_props by done.
    destruct l as [|e l]; [done|].
    assert (Hr : Forall reads (e :: l).*2).
    { rewrite Forall_forall in *. intros y Hy. by apply IH; [|apply Hpl]. }
    assert (Hu : Forall units_ok (e :: l).*1) by (eapply Forall_impl; [exact Hk|naive_solver]).
    assert (Hx : Forall (fun k => array_index k = None) (e :: l).*1)
      by (eapply Forall_impl; [exact Hk|naive_solver]).
    assert (Hi' : ws_str (ind ++ gap)) by (by apply ws_deeper).
    revert Hi'. generalize (ind ++ gap). intros ind' Hi'.
    change (match List.map (print_prop ind') (e :: l) with [] => js "{}" | _ :: _ => ?z end) with z.
    change (js "{" ++ ?z) with (123%N :: z).
    change ((123%N :: ?z) ++ t) with (123%N :: (z ++ t)). cbn [parse_value].
    change (skip_ws (123%N :: ?z)) with (123%N :: z). cbn iota.
    change (123 =? 123)%N with true. cbn iota.
    rewrite <-!app_assoc.
    rewrite expect_ws by by apply brk_ws.
    assert (Hmiss : forall z, expect 125 (join (js "," ++ brk gap ind') (List.map (print_prop ind') (e :: l)) ++ z) = None).
    { intros z. cbn [List.map].
      destruct (List.map (print_prop ind') l); [simpl join|rewrite join_cons2];
        unfold print_prop at 1, json_quote; rewrite <-?app_assoc, <-?app_comm_cons; by apply expect_miss. }
    rewrite Hmiss, parse_members_ws by by apply brk_ws.
    change (js "}" ++ t) with (125%N :: t).
    rewrite parse_members_list; [|done|done|done|lia|by apply brk_ws]. by rewrite make_obj_id.
Qed.

(** The fuel of [json_parse] is enough for every printed value. *)
Lemma need_length v : plain v -> forall ind, need v + 1 <= 2 * length (stringify_gap gap ind v).
Proof.
  assert (Hjoin : forall (A : Type) (g : A -> jstr) sep (l : list A) (n : A -> nat),
    Forall (fun a => n a + 1 <= 2 * length (g a)) l ->
    foldr (fun a k => S (n a + k)) 0 l <= 2 * length (join sep (List.map g l))).
  { intros A g sep l n. induction 1 as [|a l Ha Hl IH]; [simpl; lia|].
    cbn [List.map foldr]. destruct (List.map g l) eqn:E.
    - destruct l; [simpl; lia|done].
    - rewrite join_cons2, !length_app. lia. }
  induction v as [| |b|x|s|l IH|l IH] using jv_nested_ind; intros Hp ind; try done; try (simpl; lia).
  - destruct b; simpl; lia.
  - destruct Hp as [(c & u & E & _) _]. cbn [need stringify_gap]. rewrite E. simpl. lia.
  - rewrite plain_arr, plain_list_Forall in Hp. rewrite need_arr. destruct l as [|x l]; [simpl; lia|].
    cbn [stringify_gap]. set (ind' := ind ++ gap).
    pose proof (Hjoin jv (stringify_gap gap ind') (js "," ++ brk gap ind') (x :: l) need) as H.
    assert (Hall : Forall (fun a => need a + 1 <= 2 * length (stringify_gap gap ind' a)) (x :: l)).
    { rewrite Forall_forall in *. intros y Hy. apply IH; [done|by apply Hp]. }
    specialize (H Hall). unfold need_list. rewrite !length_app.
    change (length (js "[")) with 1. change (length (js "]")) with 1. lia.
  - rewrite plain_obj in Hp. destruct Hp as (_ & _ & Hpl). rewrite plain_list_Forall in Hpl.
    rewrite need_obj. cbn [stringify_gap]. rewrite plain_props by done.
    destruct l as [|e l]; [simpl; lia|]. set (ind' := ind ++ gap).
    change (match List.map (print_prop ind') (e :: l) with [] => js "{}" | _ :: _ => ?z end) with z.
    pose proof (Hjoin _ (print_prop ind') (js "," ++ brk gap ind') (e :: l) (fun e => need e.2)) as H.
    assert (Hall : Forall (fun a => need a.2 + 1 <= 2 * length (print_prop ind' a)) (e :: l)).
    { apply Forall_forall. intros y Hy. unfold print_prop. rewrite !length_app.
      rewrite Forall_forall in IH, Hpl.
      assert (Hy2 : y.2 ∈ (e :: l).*2) by (apply list_elem_of_fmap; eauto).
      specialize (IH _ Hy2 (Hpl _ Hy2) ind'). lia. }
    specialize (H Hall). rewrite !length_app.
    assert (Hn : need_list (e :: l).*2 = foldr (fun a k => S (need a.2 + k)) 0 (e :: l)).
    { clear. unfold need_list. induction (e :: l) as [|x t IH]; [done|]. csimpl. by rewrite IH. }
    change (length (js "{")) with 1. change (length (js "}")) with 1. lia.
Qed.

Lemma json_parse_gap v : plain v -> json_parse (stringify_gap gap [] v) = Some v.
Proof.
  intros Hp. unfold json_parse.
  pose proof (plain_reads v Hp [] (S (2 * length (stringify_gap gap [] v))) []) as H.
  rewrite app_nil_r in H. rewrite H; [done|done|done|]. pose proof (need_length v Hp []). lia.
Qed.
End Printed.

Lemma json_parse_stringify v : plain v -> json_parse (json_stringify2 v) = Some v.
Proof. by apply json_parse_gap. Qed.

Lemma json_parse_compact v : plain v -> json_parse (json_stringify v) = Some v.
Proof. by apply json_parse_gap. Qed.

(** ** Numbers that read back *)

Lemma span_digits_stop ds t :
  forallb is_digit ds = true -> num_stop t = true -> span_digits (ds ++ t) = (ds, t).
Proof.
  intros Hd Ht. induction ds as [|c ds IH].
  - destruct t as [|c t]; [done|]. simpl in *. destruct (is_digit c); done.
  - simpl in *. apply andb_true_iff in Hd as [Hc Hd]. by rewrite Hc, IH.
Qed.

(** A natural number printed without a leading zero. *)
Definition canonical_digits (ds : jstr) : bool :=
  all_digits ds && match ds with 48%N :: _ :: _ => false | _ => true end.

Lemma parse_number_digits ds t :
  canonical_digits ds = true -> num_stop t = true ->
  parse_number (ds ++ t) = Some (num_of_dec false (digits_value ds) 0, t).
Proof.
  intros [[Htr Hd]%andb_true_iff Hz]%andb_true_iff Ht. unfold parse_number.
  assert (Hneg : match ds ++ t with 45%N :: u => (true, u) | _ => (false, ds ++ t) end = (false, ds ++ t)).
  { destruct ds as [|c ds]; [done|]. simpl in Hd. apply andb_true_iff in Hd as [Hc _]. cbn [app].
    destruct (decide (c = 45%N)) as [->|Hne]; [done|].
    destruct c as [|p]; [done|]. repeat (destruct p as [p|p|]; try done). }
  rewrite Hneg, span_digits_stop by done.
  assert (Hr : read_unsigned false (ds ++ t) = Some (num_of_dec false (digits_value ds) 0, t)).
  { unfold read_unsigned. rewrite span_digits_stop by done.
    assert (Hdot : match t with 46%N :: u => span_digits u | _ => ([], t) end = ([], t)).
    { destruct t as [|c t]; [done|]. destruct (decide (c = 46%N)) as [->|Hne]; [done|].
      destruct c as [|p]; [done|]. repeat (destruct p as [p|p|]; try done). }
    rewrite Hdot, app_nil_r, Htr.
    assert (read_exponent t = Some (0%Z, t)) as ->; [|done].
    destruct t as [|c t]; [done|]. unfold read_exponent. simpl in Ht.
    destruct (N.eqb_spec c 101) as [->|]; [done|]. destruct (N.eqb_spec c 69) as [->|]; [done|]. done. }
  assert (Hf : match t with 46%N :: u => truthy (span_digits u).1 | _ => true end = true).
  { destruct t as [|c t]; [done|]. destruct (decide (c = 46%N)) as [->|Hne]; [done|].
    destruct c as [|p]; [done|]. repeat (destruct p as [p|p|]; try done). }
  rewrite Hf, andb_true_r, Hr.
  destruct ds as [|c [|d ds]]; [done| |]; destruct (decide (c = 48%N)) as [->|Hne]; try done;
    destruct c as [|p]; try done; repeat (destruct p as [p|p|]; try done).
Qed.

Lemma num_reads_digits x :
  canonical_digits (json_num x) = true -> num_of_dec false (digits_value (json_num x)) 0 = x -> num_reads x.
Proof.
  intros Hc Hx. split.
  - unfold canonical_digits, all_digits in Hc. destruct (json_num x) as [|c u]; [done|]. exists c, u. split; [done|].
    apply andb_true_iff in Hc as [Hc _]. simpl in Hc. apply andb_true_iff in Hc as [Hc _]. by left.
  - intros t Ht. by rewrite parse_number_digits, Hx.
Qed.

(** ** The ends of a printed value *)

Lemma fenced_trimmed (a b : N) (u : jstr) : is_ws a = false -> is_ws b = false -> trimmed (a :: u ++ [b]).
Proof.
  intros Ha Hb. split; intros c; [by intros [= <-]|]. rewrite app_comm_cons, last_snoc. by intros [= <-].
Qed.

Lemma stringify_trimmed gap ind v : trimmed (stringify_gap gap ind v).
Proof.
  destruct v as [| |[|]|x|s|[|x l]|l]; try (apply trimmed_no_ws; reflexivity).
  - cbn [stringify_gap]. unfold json_num. apply trimmed_no_ws. destruct (num_is_finite x); [apply num_to_string_dark|done].
  - cbn [stringify_gap]. unfold json_quote. by apply fenced_trimmed.
  - cbn [stringify_gap]. change (js "[") with [91%N]. change (js "]") with [93%N].
    cbv zeta. rewrite !app_assoc. by apply (fenced_trimmed 91 93).
  - cbn [stringify_gap]. cbv zeta. change (js "{") with [123%N]. change (js "}") with [125%N].
    match goal with |- context [match ?p with [] => _ | _ => _ end] => destruct p end; [by apply trimmed_no_ws|].
    rewrite !app_assoc. by apply (fenced_trimmed 123 125).
Qed.

(** ** Blank texts *)

Lemma ws_unit c : is_ws c = true ->
  is_digit c = false /\ c <> 45%N /\ c <> 116%N /\ c <> 102%N /\ c <> 110%N /\ c <> 123%N /\ c <> 91%N /\ c <> 34%N.
Proof. unfold is_ws, is_digit, in_range. lia. Qed.

Lemma parse_blank f s : forallb is_ws s = true -> parse_value f s = None.
Proof.
  intros Hs. destruct f as [|f]; [done|]. cbn [parse_value]. unfold skip_ws.
  destruct (drop_while_suffix is_json_ws s) as (u & E & _).
  destruct (drop_while is_json_ws s) as [|c t]; [done|].
  rewrite E, forallb_app in Hs. apply andb_true_iff in Hs as [_ Hs]. simpl in Hs. apply andb_true_iff in Hs as [Hc _].
  destruct (ws_unit c Hc) as (Hd & H1 & H2 & H3 & H4 & H5 & H6 & H7).
  rewrite (proj2 (N.eqb_neq c 123)), (proj2 (N.eqb_neq c 91)), (proj2 (N.eqb_neq c 34)) by done.
  unfold parse_scalar, parse_number.
  assert (Hp : forall x w, c <> x -> strip_prefix (x :: w) (c :: t) = None).
  { intros x w Hx. simpl. by rewrite (proj2 (N.eqb_neq x c)) by done. }
  change (js "true") with [116; 114; 117; 101]%N. change (js "false") with [102; 97; 108; 115; 101]%N.
  change (js "null") with [110; 117; 108; 108]%N. rewrite !Hp by done.
  assert (Hn : match c :: t with 45%N :: u => (true, u) | _ => (false, c :: t) end = (false, c :: t)).
  { destruct c as [|p]; [done|]. repeat (destruct p as [p|p|]; try done). }
  rewrite Hn. cbn [span_digits]. by rewrite Hd.
Qed.

Lemma json_parse_blank s : truthy (trim s) = false -> json_parse s = None.
Proof.
  intros Ht. unfold json_parse. rewrite parse_blank; [done|].
  apply forallb_forall. intros c Hc%list_elem_of_In. destruct (is_ws c) eqn:E; [done|].
  rewrite trim_truthy in Ht; [done|by exists c].
Qed.
