(* ===== verification/JsTable.v ===== *)
(** Values of the language as the forms read and write them: conversions that
    throw, and an object as a table that is changed one property at a time. *)

From Stdlib Require Import NArith ZArith Lia ZifyBool ZifyN.
From stdpp Require Import base list strings.
From S2P Require Import Prelude JsString JsNum Json.

(** * Values of the language *)

(** [String(v)] and [Number(v)] throw for an object whose own [toString], which
    in a parsed value is never a function, hides that of all objects; an array
    asks its elements. *)
Fixpoint unprintable (v : jv) : bool :=
  match v with
  | JArr l => existsb unprintable l
  | JObj l => is_some (map_get (js "toString") l)
  | _ => false
  end.

Definition js_String (v : jv) : option jstr := if unprintable v then None else Some (jv_to_string v).
Definition js_Number (v : jv) : option num := if unprintable v then None else Some (jv_number v).

(** [a || b] on values *)
Definition jv_or (a b : jv) : jv := if jv_truthy a then a else b.

(** [typeof v === 'string' ? v : ''] *)
Definition string_or_empty (v : jv) : jstr := match v with JStr s => s | _ => [] end.

(** [v === true] *)
Definition is_true (v : jv) : bool := match v with JBool b => b | _ => false end.
Definition is_false (v : jv) : bool := match v with JBool b => negb b | _ => false end.
Definition is_undefined (v : jv) : bool := match v with JUndef => true | _ => false end.

(** [v && typeof v === 'object' && !Array.isArray(v)] *)
Definition as_object (v : jv) : bool := match v with JObj _ => true | _ => false end.

(** [s.toUpperCase() === w] and [s.toLowerCase() === w] for words of letters that
    no letter outside ASCII is mapped into. *)
Definition upper_unit (c : N) : N := if in_range 97 122 c then (c - 32)%N else c.
Definition lower_unit (c : N) : N := if in_range 65 90 c then (c + 32)%N else c.
Definition upper_is (w s : jstr) : bool := List.map upper_unit s =s w.
Definition lower_is (w s : jstr) : bool := List.map lower_unit s =s w.

(** * Objects as tables *)

Definition Table : Type := list (jstr * jv).

Definition map_del {V} (k : jstr) (t : list (jstr * V)) : list (jstr * V) := List.filter (fun e => negb (bool_decide (e.1 = k))) t.

(** [target\[name\] = value]: the keys stay in the order of an object. *)
Definition obj_set {V} (k : jstr) (v : V) (t : list (jstr * V)) : list (jstr * V) := sort_by key_order (map_set k v t).

Lemma map_get_del {V} (k k' : jstr) (t : list (jstr * V)) : map_get k (map_del k' t) = if decide (k = k') then None else map_get k t.
Proof.
  unfold map_del. induction t as [|[x v] t IH]; [by destruct (decide _)|]. cbn [List.filter fst].
  destruct (bool_decide_reflect (x = k')) as [->|Hx]; cbn [negb map_get].
  - rewrite IH. destruct (decide (k = k')); [done|]. by rewrite bool_decide_false.
  - cbn [map_get]. rewrite IH. destruct (bool_decide_reflect (k = x)) as [->|]; [by rewrite decide_False|done].
Qed.

(** A key that keeps its place, and whose units can be written. *)
Definition ordinary (k : jstr) : Prop := units_ok k /\ array_index k = None.

Definition plain_table (t : Table) : Prop := plain (JObj t).

Lemma plain_table_spec t : plain_table t <-> NoDup t.*1 /\ Forall ordinary t.*1 /\ Forall plain t.*2.
Proof. unfold plain_table. rewrite plain_obj, plain_list_Forall. reflexivity. Qed.

Lemma plain_del k t : plain_table t -> plain_table (map_del k t).
Proof.
  rewrite !plain_table_spec. unfold map_del. intros (Hn & Ho & Hp). split; [|split].
  - change (NoDup (List.map fst (List.filter (fun e => negb (bool_decide (e.1 = k))) t))). by apply nodup_map_filter.
  - rewrite Forall_fmap in Ho |- *. by apply Forall_filter'.
  - rewrite Forall_fmap in Hp |- *. by apply Forall_filter'.
Qed.

Lemma ordinary_sorted (t : Table) : Forall (fun k => array_index k = None) t.*1 -> sort_by key_order t = t.
Proof.
  intros Hk. assert (Hz : forall a b, a ∈ t -> b ∈ t -> key_order a b = 0%Z).
  { intros a b Ha Hb. unfold key_order. rewrite Forall_forall in Hk.
    rewrite (Hk a.1), (Hk b.1); [done|apply list_elem_of_fmap; eauto..]. }
  apply sort_by_id. clear Hk. induction t as [|x l IH]; constructor.
  - apply IH. intros; apply Hz; by right.
  - destruct l as [|y l]; constructor. unfold cmp_le. rewrite Hz; [done|left|right; left].
Qed.

Lemma map_set_plain k v t : plain_table t -> ordinary k -> plain v -> plain_table (map_set k v t) /\ obj_set k v t = map_set k v t.
Proof.
  rewrite !plain_table_spec. intros (Hn & Ho & Hp) Hk Hv.
  assert (Ho' : Forall ordinary (map_set k v t).*1).
  { rewrite map_set_keys. destruct (is_some _); [done|]. apply Forall_app. split; [done|]. by apply Forall_singleton. }
  split.
  - split; [by apply map_set_nodup|]. split; [done|]. rewrite Forall_fmap in Hp |- *.
    by apply (map_set_Forall (fun _ => plain)).
  - apply ordinary_sorted. eapply Forall_impl; [exact Ho'|]. by intros ? [].
Qed.

Lemma map_get_set {K V} `{EqDecision K} (k k' : K) (v : V) (t : list (K * V)) : map_get k (map_set k' v t) = if decide (k = k') then Some v else map_get k t.
Proof. destruct (decide (k = k')) as [->|Hk]; [apply map_get_set_eq|by apply map_get_set_ne]. Qed.


(** ** Lookups in objects of any values *)

Lemma map_get_perm {V} (t u : list (jstr * V)) k : NoDup t.*1 -> t ≡ₚ u -> map_get k u = map_get k t.
Proof.
  intros Hn Hp. assert (Hn' : NoDup u.*1) by (by rewrite <-Hp).
  destruct (map_get k t) as [v|] eqn:E.
  - apply map_get_in; [done|]. rewrite <-Hp. by apply map_get_mem.
  - apply map_get_none. rewrite <-Hp. by apply map_get_none.
Qed.

Lemma obj_set_perm {V} k (v : V) t : obj_set k v t ≡ₚ map_set k v t.
Proof. apply sort_by_perm. Qed.

Lemma obj_set_nodup {V} k (v : V) t : NoDup t.*1 -> NoDup (obj_set k v t).*1.
Proof. intros H. rewrite obj_set_perm. by apply map_set_nodup. Qed.

Lemma map_del_nodup {V} k (t : list (jstr * V)) : NoDup t.*1 -> NoDup (map_del k t).*1.
Proof. intros H. unfold map_del. by apply nodup_map_filter. Qed.

Lemma map_get_obj_set {V} k k' (v : V) t : NoDup t.*1 -> map_get k (obj_set k' v t) = if decide (k = k') then Some v else map_get k t.
Proof.
  intros H. rewrite <-map_get_set. apply map_get_perm; [by apply map_set_nodup|]. by rewrite obj_set_perm.
Qed.

Lemma obj_set_Forall {V} (P : jstr -> V -> Prop) k v t : P k v -> Forall (fun e => P e.1 e.2) t -> Forall (fun e => P e.1 e.2) (obj_set k v t).
Proof. intros Hv Ht. rewrite obj_set_perm. by apply (map_set_Forall P). Qed.
