(* ===== verification/StatusCodes.v ===== *)
(** HTTP status code rules (web/src/lib/http-status-code-rules.ts) and the
    guard over status code redirects of a channel
    (web/src/features/channels/lib/status-code-risk-guard.ts).

    A rule list such as [500, 502-504] is parsed into ranges, which are sorted
    and merged; the guard inspects the JSON object of a channel's status code
    mapping. *)

From Stdlib Require Import NArith ZArith Lia ZifyBool ZifyN Sorted.
From stdpp Require Import base list gmap strings sorting.
From S2P Require Import Prelude JsString JsNum Json Regex.

Module Rules.

Record StatusCodeRange := Range { start : N; stop : N }.

Record ParsedHttpStatusCodeRules := Parsed {
  ok : bool;
  ranges : list StatusCodeRange;
  tokens : list jstr;
  normalized : jstr;
  invalidTokens : list jstr
}.

(** [/^\d+$/.test(s)] *)
Definition isNumber (s : jstr) : bool := re_test (RSeqs [RBol; RPlus RDigit; REol]) s.

Definition isValidCode (code : N) : bool := ((100 <=? code) && (code <=? 599))%N.

(** [parseInt] of a digit string is exact up to 2^53 and monotone above, so the
    range test on the exact value decides as the code's does. *)
Definition parseToken (token : jstr) : option StatusCodeRange :=
  let cleaned := List.filter (fun c => negb (is_ws c)) (trim token) in
  if negb (truthy cleaned) then None
  else if includes (js "-") cleaned then
    match split_unit 45 cleaned with
    | a :: b :: _ =>
        if (negb (isNumber a) || negb (isNumber b))%bool then None
        else
          let s := digits_value a in
          let e := digits_value b in
          if (negb (isValidCode s) || negb (isValidCode e) || (e <? s)%N)%bool then None
          else Some (Range s e)
    | _ => None
    end
  else if negb (isNumber cleaned) then None
  else
    let code := digits_value cleaned in
    if negb (isValidCode code) then None else Some (Range code code).

Definition range_cmp (a b : StatusCodeRange) : Z :=
  if (start a =? start b)%N then (Z.of_N (stop a) - Z.of_N (stop b))%Z
  else (Z.of_N (start a) - Z.of_N (start b))%Z.

(** One step of the [reduce]; [merged] is kept with its last element first. *)
Definition mergeStep (merged : list StatusCodeRange) (current : StatusCodeRange) : list StatusCodeRange :=
  match merged with
  | [] => [current]
  | l :: t =>
      if (stop l + 1 <? start current)%N then current :: merged
      else Range (start l) (N.max (stop l) (stop current)) :: t
  end.

Definition mergeRanges (rs : list StatusCodeRange) : list StatusCodeRange :=
  reverse (fold_left mergeStep (sort_by range_cmp rs) []).

Definition printRange (r : StatusCodeRange) : jstr :=
  if (start r =? stop r)%N then print_N (start r)
  else print_N (start r) ++ js "-" ++ print_N (stop r).

(** [(input ?? '').toString().trim()] *)
Definition rawOf (input : jv) : jstr :=
  trim (match input with JUndef | JNull => [] | v => jv_to_string v end).

(** The trimmed, non-empty segments between commas, full-width ones included. *)
Definition segmentsOf (raw : jstr) : list jstr :=
  let sanitized := List.map (fun c => if (c =? 65292)%N then 44%N else c) raw in
  List.filter truthy (List.map trim (split_unit 44 sanitized)).

Definition parseHttpStatusCodeRules (input : jv) : ParsedHttpStatusCodeRules :=
  let raw := rawOf input in
  if Nat.eqb (length raw) 0 then Parsed true [] [] [] []
  else
    let segments := segmentsOf raw in
    let bad := List.filter (fun s => negb (is_some (parseToken s))) segments in
    let good := omap parseToken segments in
    if negb (Nat.eqb (length bad) 0) then Parsed false [] [] raw bad
    else
      let merged := mergeRanges good in
      let toks := List.map printRange merged in
      Parsed true merged toks (join (js ",") toks) [].

(** * Properties *)

(** A code is in a range, in some range of a list. *)
Definition in_rng (c : N) (r : StatusCodeRange) : Prop := (start r <= c <= stop r)%N.
Definition covers (l : list StatusCodeRange) (c : N) : Prop := Exists (in_rng c) l.

(** Ranges of valid codes, in order, with a gap between one and the next. *)
Definition valid_range (r : StatusCodeRange) : Prop :=
  (100 <= start r /\ start r <= stop r /\ stop r <= 599)%N.
Definition gap (a b : StatusCodeRange) : Prop := (stop a + 1 < start b)%N.
Definition separated (l : list StatusCodeRange) : Prop := StronglySorted gap l.

(** The same with the last range first, as the accumulator of the merge. *)
Definition rev_gap (a b : StatusCodeRange) : Prop := gap b a.

Lemma isNumber_spec s : isNumber s = all_digits s.
Proof. apply test_class. Qed.

Lemma isValidCode_spec c : isValidCode c = true <-> (100 <= c <= 599)%N.
Proof. unfold isValidCode. lia. Qed.

Lemma parseToken_valid t r : parseToken t = Some r -> valid_range r.
Proof.
  unfold parseToken, valid_range. set (w := List.filter _ (trim t)). clearbody w.
  destruct (truthy w); simpl; [|done].
  destruct (includes _ w).
  - destruct (split_unit 45 w) as [|a [|b l]]; [done|done|].
    destruct (_ || _)%bool; [done|].
    destruct (negb (isValidCode _) || _ || _)%bool eqn:E; [done|]. intros [= <-]. simpl.
    bool_hyps. rewrite isValidCode_spec in *. lia.
  - destruct (isNumber w); simpl; [|done].
    destruct (isValidCode _) eqn:E; simpl; [|done]. intros [= <-]. simpl.
    apply isValidCode_spec in E. lia.
Qed.

Lemma range_cmp_total a b : (range_cmp a b <= 0)%Z \/ (range_cmp b a <= 0)%Z.
Proof. unfold range_cmp. destruct (N.eqb_spec (start a) (start b)), (N.eqb_spec (start b) (start a)); lia. Qed.

Definition start_le (a b : StatusCodeRange) : Prop := (start a <= start b)%N.

Lemma sorted_start l : StronglySorted start_le (sort_by range_cmp l).
Proof.
  apply Sorted_StronglySorted; [intros a b c; unfold start_le; lia|].
  eapply Sorted_weaken; [|apply sort_by_sorted, range_cmp_total].
  unfold cmp_le, range_cmp, start_le. intros a b. destruct (N.eqb_spec (start a) (start b)); lia.
Qed.

Lemma covers_cons r l c : covers (r :: l) c <-> in_rng c r \/ covers l c.
Proof. apply Exists_cons. Qed.

Lemma covers_reverse l c : covers (reverse l) c <-> covers l c.
Proof. unfold covers. by rewrite !Exists_exists; setoid_rewrite elem_of_reverse. Qed.

(** What the accumulator satisfies while ranges not before [b] are to come. *)
Record acc_ok (acc : list StatusCodeRange) : Prop := {
  acc_sep : StronglySorted rev_gap acc;
  acc_valid : Forall valid_range acc
}.

Lemma mergeStep_ok acc r :
  acc_ok acc -> valid_range r -> (forall l t, acc = l :: t -> (start l <= start r)%N) ->
  acc_ok (mergeStep acc r) /\
  (forall c, covers (mergeStep acc r) c <-> covers acc c \/ in_rng c r) /\
  (forall l t, mergeStep acc r = l :: t -> (start l <= start r)%N).
Proof.
  intros [Hs Hv] Hr Hb. unfold mergeStep, valid_range in *.
  destruct acc as [|l t].
  - split_and!; [split| |intros ? ? [= <- <-]; lia].
    + repeat (apply SSorted_cons || apply SSorted_nil || apply Forall_nil_2).
    + by apply Forall_singleton.
    + intros c. rewrite covers_cons. tauto.
  - specialize (Hb l t eq_refl). apply Forall_cons in Hv as [Hl Hv].
    apply StronglySorted_cons in Hs as [Hall Hs].
    destruct (N.ltb_spec (stop l + 1) (start r)).
    + split_and!; [split| |intros ? ? [= <- <-]; lia].
      * constructor; [by constructor|].
        constructor; [done|]. eapply Forall_impl; [exact Hall|]. unfold rev_gap, gap. simpl. lia.
      * apply Forall_cons. split; [done|]. by apply Forall_cons.
      * intros c. rewrite covers_cons. tauto.
    + split_and!; [split| |intros ? ? [= <- <-]; simpl; lia].
      * constructor; [done|].
        eapply Forall_impl; [exact Hall|]. unfold rev_gap, gap. simpl. lia.
      * constructor; [unfold valid_range; simpl; lia|done].
      * intros c. rewrite !covers_cons. unfold in_rng. simpl.
        split; [|intros [[?|?]|?]; try lia; tauto].
        intros [Hin|?]; [|tauto]. destruct (N.le_gt_cases c (stop l)); [left; left; lia|right; lia].
Qed.

Lemma fold_merge_ok l acc :
  acc_ok acc -> Forall valid_range l -> StronglySorted start_le l ->
  (forall a t r, acc = a :: t -> r ∈ l -> (start a <= start r)%N) ->
  acc_ok (fold_left mergeStep l acc) /\
  (forall c, covers (fold_left mergeStep l acc) c <-> covers acc c \/ covers l c).
Proof.
  revert acc. induction l as [|r l IH]; intros acc Hacc Hv Hs Hb; simpl.
  - split; [done|]. intros c. unfold covers at 3. rewrite Exists_nil. tauto.
  - apply Forall_cons in Hv as [Hr Hv]. apply StronglySorted_cons in Hs as [Hall Hs].
    destruct (mergeStep_ok acc r Hacc Hr) as (H1 & H2 & H3); [intros; eapply Hb; [done|left]|].
    destruct (IH (mergeStep acc r)) as (H4 & H5); [done..| |].
    { intros a t r' Ha Hr'. rewrite Forall_forall in Hall. specialize (Hall r' Hr').
      unfold start_le in Hall. specialize (H3 a t Ha). lia. }
    split; [done|]. intros c. rewrite H5, H2, covers_cons. tauto.
Qed.

Lemma mergeRanges_ok l :
  Forall valid_range l ->
  separated (mergeRanges l) /\ Forall valid_range (mergeRanges l) /\
  (forall c, covers (mergeRanges l) c <-> covers l c).
Proof.
  intros Hv. unfold mergeRanges.
  destruct (fold_merge_ok (sort_by range_cmp l) []) as ([Hs Hva] & Hc).
  - split; constructor.
  - by rewrite sort_by_perm.
  - apply sorted_start.
  - done.
  - split_and!.
    + apply StronglySorted_reverse in Hs. exact Hs.
    + by rewrite Forall_reverse.
    + intros c. rewrite covers_reverse, Hc. unfold covers at 1. rewrite Exists_nil.
      unfold covers. rewrite sort_by_perm. tauto.
Qed.

(** ** Parsing what was printed *)

Lemma fold_merge_id l acc :
  (forall a t r, acc = a :: t -> r ∈ l -> gap a r) -> separated l -> Forall valid_range l ->
  fold_left mergeStep l acc = reverse l ++ acc.
Proof.
  revert acc. induction l as [|r l IH]; intros acc Ha Hs Hv; [done|].
  apply StronglySorted_cons in Hs as [Hall Hs]. apply Forall_cons in Hv as [Hr Hv].
  assert (E : mergeStep acc r = r :: acc).
  { destruct acc as [|a t]; [done|]. simpl.
    rewrite (proj2 (N.ltb_lt _ _)); [done|]. eapply Ha; [done|left]. }
  simpl. rewrite E, IH; try done.
  - rewrite reverse_cons, <-app_assoc. done.
  - intros a t r' [= <- <-] Hr'. rewrite Forall_forall in Hall. by apply Hall.
Qed.

Lemma separated_sorted l : separated l -> Forall valid_range l -> sort_by range_cmp l = l.
Proof.
  intros Hs Hv. apply sort_by_id, StronglySorted_Sorted.
  induction Hs as [|r l Hs IH Hall]; [constructor|].
  apply Forall_cons in Hv as [Hr Hv]. constructor; [auto|].
  rewrite Forall_forall in *. intros x Hx. specialize (Hall x Hx).
  unfold gap, valid_range, cmp_le, range_cmp in *.
  destruct (N.eqb_spec (start r) (start x)); lia.
Qed.

Lemma mergeRanges_id l : separated l -> Forall valid_range l -> mergeRanges l = l.
Proof.
  intros Hs Hv. unfold mergeRanges. rewrite separated_sorted by done.
  rewrite fold_merge_id; try done. by rewrite app_nil_r, reverse_involutive.
Qed.

(** What a printed range is made of. *)
Definition rule_unit (c : N) : bool := is_digit c || (c =? 45)%N.

Lemma print_N_units n : forallb is_digit (print_N n) = true.
Proof. apply print_N_spec. Qed.

Lemma printRange_units r : forallb rule_unit (printRange r) = true.
Proof.
  assert (H : forall n, forallb rule_unit (print_N n) = true).
  { intros n. pose proof (print_N_units n) as H. rewrite forallb_forall in *.
    intros x Hx. unfold rule_unit. by rewrite (H x Hx). }
  unfold printRange. destruct (_ =? _)%N; [done|]. rewrite !forallb_app, !H. done.
Qed.

Lemma rule_unit_not_ws c : rule_unit c = true -> is_ws c = false.
Proof.
  intros H. destruct (is_ws c) eqn:E; [|done].
  unfold rule_unit, is_digit, is_ws, in_range in *. lia.
Qed.

Lemma filter_not_ws w : forallb rule_unit w = true -> List.filter (fun c => negb (is_ws c)) w = w.
Proof.
  induction w as [|c w IH]; simpl; [done|]. intros H. apply andb_true_iff in H as [Hc Hw].
  rewrite rule_unit_not_ws by done. simpl. by rewrite IH.
Qed.

Lemma units_trimmed w : forallb rule_unit w = true -> trimmed w.
Proof.
  intros H. apply trimmed_no_ws. rewrite forallb_forall in *. intros c Hc.
  by rewrite rule_unit_not_ws by auto.
Qed.

Lemma printRange_nonempty r : truthy (printRange r) = true.
Proof.
  unfold printRange. pose proof (proj1 (print_N_spec (start r))).
  destruct (_ =? _)%N; destruct (print_N (start r)); done.
Qed.

Lemma print_no_dash n : 45%N ∉ print_N n.
Proof. by apply all_digits_no; [apply print_N_units|]. Qed.

Lemma parse_printRange r : valid_range r -> parseToken (printRange r) = Some r.
Proof.
  intros Hv. unfold parseToken.
  rewrite trim_id by (apply units_trimmed, printRange_units).
  rewrite filter_not_ws by apply printRange_units.
  rewrite printRange_nonempty. simpl. unfold printRange, valid_range in *.
  destruct (N.eqb_spec (start r) (stop r)) as [E|E].
  - assert (Hi : includes (js "-") (print_N (start r)) = false).
    { apply not_true_iff_false. rewrite includes_true. intros (u & v & Hu).
      apply (print_no_dash (start r)). rewrite Hu. set_solver. }
    rewrite Hi, isNumber_spec, print_N_digits, print_N_value. simpl.
    rewrite (proj2 (isValidCode_spec _)) by lia. simpl. destruct r; simpl in *. by subst.
  - assert (Hi : includes (js "-") (print_N (start r) ++ js "-" ++ print_N (stop r)) = true).
    { apply includes_true. eauto. }
    rewrite Hi. change (js "-" ++ ?x) with (45%N :: x).
    rewrite split_unit_app by apply print_no_dash.
    rewrite split_unit_no by apply print_no_dash.
    rewrite !isNumber_spec, !print_N_digits, !print_N_value. simpl.
    rewrite !(proj2 (isValidCode_spec _)) by lia. simpl.
    rewrite (proj2 (N.ltb_ge _ _)) by lia. by destruct r.
Qed.

Lemma join_units_ok l :
  forallb (fun c => rule_unit c || (c =? 44)%N) (join (js ",") (List.map printRange l)) = true.
Proof.
  assert (H : forall r, forallb (fun c => rule_unit c || (c =? 44)%N) (printRange r) = true).
  { intros r. pose proof (printRange_units r) as H. rewrite forallb_forall in *.
    intros c Hc. by rewrite (H c Hc). }
  induction l as [|r [|r' l] IH]; [done|simpl; apply H|].
  change (join (js ",") (List.map printRange (r :: r' :: l)))
    with (printRange r ++ js "," ++ join (js ",") (List.map printRange (r' :: l))).
  by rewrite !forallb_app, H, IH.
Qed.

Lemma segments_printed l :
  segmentsOf (join (js ",") (List.map printRange l)) = List.map printRange l.
Proof.
  unfold segmentsOf.
  assert (Hsan : forall w, forallb (fun c => rule_unit c || (c =? 44)%N) w = true ->
    List.map (fun c => if (c =? 65292)%N then 44%N else c) w = w).
  { induction w as [|c w IH]; simpl; [done|]. intros H. apply andb_true_iff in H as [Hc Hw].
    rewrite IH by done. f_equal. unfold rule_unit, is_digit, in_range in Hc.
    destruct (N.eqb_spec c 65292); lia. }
  rewrite Hsan by apply join_units_ok.
  destruct l as [|r0 l0] eqn:El; [done|]. rewrite <-El in *.
  change (js ",") with [44%N]. rewrite split_unit_join.
  - clear. induction l as [|r l IH]; [done|]. simpl.
    rewrite trim_id by (apply units_trimmed, printRange_units).
    rewrite printRange_nonempty. by f_equal.
  - by rewrite El.
  - apply Forall_forall. intros w Hw Hin. apply list_elem_of_In, in_map_iff in Hw as (r & <- & _).
    pose proof (printRange_units r) as H. rewrite forallb_forall in H.
    apply list_elem_of_In, H in Hin. done.
Qed.

Lemma parse_printed l : Forall valid_range l -> omap parseToken (List.map printRange l) = l.
Proof.
  induction 1 as [|r l Hr Hl IH]; [done|]. csimpl. rewrite parse_printRange by done. by f_equal.
Qed.

Lemma printed_all_parse l :
  Forall valid_range l ->
  List.filter (fun s => negb (is_some (parseToken s))) (List.map printRange l) = [].
Proof.
  induction 1 as [|r l Hr Hl IH]; [done|]. simpl. by rewrite parse_printRange.
Qed.

Lemma raw_printed l :
  rawOf (JStr (join (js ",") (List.map printRange l))) = join (js ",") (List.map printRange l).
Proof.
  unfold rawOf. apply trim_id, trimmed_no_ws. pose proof (join_units_ok l) as H.
  rewrite forallb_forall in *. intros c Hc. apply H in Hc.
  destruct (is_ws c) eqn:E; [|done].
  unfold rule_unit, is_digit, is_ws, in_range in *. lia.
Qed.

Lemma join_empty_iff l : length (join (js ",") (List.map printRange l)) = 0 -> l = [].
Proof.
  destruct l as [|r [|r' l]]; [done| |]; simpl; pose proof (printRange_nonempty r);
    destruct (printRange r); simpl; done.
Qed.

Lemma parse_normal_form l :
  separated l -> Forall valid_range l ->
  parseHttpStatusCodeRules (JStr (join (js ",") (List.map printRange l))) =
  Parsed true l (List.map printRange l) (join (js ",") (List.map printRange l)) [].
Proof.
  intros Hs Hv. unfold parseHttpStatusCodeRules. rewrite raw_printed.
  destruct (Nat.eqb_spec (length (join (js ",") (List.map printRange l))) 0) as [E|E].
  - apply join_empty_iff in E as ->. done.
  - rewrite segments_printed, printed_all_parse, parse_printed, mergeRanges_id by done. done.
Qed.

(** The result of a parse, by its three outcomes. *)
Lemma parse_cases input :
  let segs := segmentsOf (rawOf input) in
  let bad := List.filter (fun s => negb (is_some (parseToken s))) segs in
  let merged := mergeRanges (omap parseToken segs) in
  parseHttpStatusCodeRules input =
  if bool_decide (bad = []) then
    Parsed true merged (List.map printRange merged) (join (js ",") (List.map printRange merged)) []
  else Parsed false [] [] (rawOf input) bad.
Proof.
  intros segs bad merged. unfold parseHttpStatusCodeRules.
  destruct (Nat.eqb_spec (length (rawOf input)) 0) as [E|E].
  - apply nil_length_inv in E. subst bad merged segs. by rewrite E.
  - fold segs bad merged.
    destruct bad as [|b bs]; [reflexivity|]. by rewrite bool_decide_false.
Qed.

Lemma omap_valid segs : Forall valid_range (omap parseToken segs).
Proof.
  apply Forall_forall. intros r Hr. apply list_elem_of_omap in Hr as (t & _ & Ht).
  by eapply parseToken_valid.
Qed.

(** ** Main properties *)

(** C36: accepted rules denote exactly the codes of their segments: a code is in
    a merged range if and only if some comma separated segment parses to a
    range that holds it; and the merged ranges are valid, in increasing order,
    and neither overlap nor touch. *)
Theorem parse_rules_meaning (input : jv) :
  ok (parseHttpStatusCodeRules input) = true ->
  separated (ranges (parseHttpStatusCodeRules input)) /\
  Forall valid_range (ranges (parseHttpStatusCodeRules input)) /\
  forall c, covers (ranges (parseHttpStatusCodeRules input)) c <->
    exists seg r, seg ∈ segmentsOf (rawOf input) /\ parseToken seg = Some r /\ in_rng c r.
Proof.
  rewrite parse_cases. case_bool_decide as E; [|done]. intros _. simpl.
  destruct (mergeRanges_ok _ (omap_valid (segmentsOf (rawOf input)))) as (H1 & H2 & H3).
  split_and!; [done|done|]. intros c. rewrite H3. unfold covers. rewrite Exists_exists.
  setoid_rewrite list_elem_of_omap. naive_solver.
Qed.

Lemma parse_rules_meaning_witness :
  ok (parseHttpStatusCodeRules (JStr (js "503, 500-502,429"))) = true /\
  forall c, covers (ranges (parseHttpStatusCodeRules (JStr (js "503, 500-502,429")))) c <->
    exists seg r, seg ∈ segmentsOf (rawOf (JStr (js "503, 500-502,429"))) /\
      parseToken seg = Some r /\ in_rng c r.
Proof.
  split; [vm_compute; reflexivity|].
  apply (parse_rules_meaning (JStr (js "503, 500-502,429"))). vm_compute. reflexivity.
Defined.

(** The normalized text of accepted rules parses back to the same ranges,
    tokens and text: normalization is a fixed point. *)
Theorem parse_rules_normalized_roundtrip (input : jv) :
  ok (parseHttpStatusCodeRules input) = true ->
  parseHttpStatusCodeRules (JStr (normalized (parseHttpStatusCodeRules input))) =
  parseHttpStatusCodeRules input.
Proof.
  rewrite parse_cases. case_bool_decide as E; [|done]. intros _. cbn [normalized].
  destruct (mergeRanges_ok _ (omap_valid (segmentsOf (rawOf input)))) as (H1 & H2 & _).
  by apply parse_normal_form.
Qed.

Lemma parse_rules_normalized_roundtrip_witness :
  normalized (parseHttpStatusCodeRules (JStr (js "503, 500-502,429"))) = js "429,500-503" /\
  parseHttpStatusCodeRules (JStr (normalized (parseHttpStatusCodeRules (JStr (js "503, 500-502,429"))))) =
  parseHttpStatusCodeRules (JStr (js "503, 500-502,429")).
Proof.
  split; [vm_compute; reflexivity|].
  apply parse_rules_normalized_roundtrip. vm_compute. reflexivity.
Defined.

(** Rules are rejected exactly when some segment does not parse; then every
    such segment is reported, in order, no range is returned and the normalized
    text is the trimmed input. *)
Theorem parse_rules_errors (input : jv) :
  let p := parseHttpStatusCodeRules input in
  invalidTokens p = List.filter (fun s => negb (is_some (parseToken s))) (segmentsOf (rawOf input)) /\
  ok p = bool_decide (invalidTokens p = []) /\
  (ok p = true \/ (ranges p = [] /\ tokens p = [] /\ normalized p = rawOf input)).
Proof.
  simpl. rewrite parse_cases. case_bool_decide as E; simpl.
  - rewrite E. split_and!; auto.
  - split_and!; auto. by rewrite bool_decide_false.
Qed.

End Rules.

(** * The redirect guard of a channel *)
Module RiskGuard.

(** [new Set(\[504, 524\])] *)
Definition NON_REDIRECTABLE_STATUS_CODES : list N := [504; 524]%N.

(** [/^[1-5]\d{2}$/] *)
Definition code_re : re := RSeqs [RBol; RSet (in_range 49 53); RRep RDigit 2 (Some 2); REol].

Definition parseStatusCodeKey (rawKey : jstr) : option N :=
  let normalized := trim rawKey in
  if re_test code_re normalized then Some (digits_value normalized) else None.

Definition parseStatusCodeMappingTarget (rawValue : jv) : option N :=
  match rawValue with
  | JNum x =>
      match num_to_Z x with
      | Some z => if ((100 <=? z) && (z <=? 599))%Z then Some (Z.to_N z) else None
      | None => None
      end
  | JStr s =>
      let normalized := trim s in
      if re_test code_re normalized then
        let code := digits_value normalized in
        if ((100 <=? code) && (code <=? 599))%N then Some code else None
      else None
  | _ => None
  end.

(** The guards the collectors share: a blank text, a text that is not JSON and
    a value that is not a plain object have no entries. *)
Definition mappingEntries (str : jstr) : list (jstr * jv) :=
  if negb (truthy (trim str)) then []
  else match json_parse str with
       | None => []
       | Some parsed =>
           if (negb (jv_truthy parsed) || negb (is_object parsed) || is_array parsed)%bool then []
           else jv_entries parsed
       end.

Definition collectInvalidStatusCodeEntries (str : jstr) : list jstr :=
  omap (fun '(rawKey, rawValue) =>
    let fromCode := parseStatusCodeKey rawKey in
    let toCode := parseStatusCodeMappingTarget rawValue in
    if (negb (is_some fromCode) || negb (is_some toCode))%bool
    then Some (rawKey ++ [32; 8594; 32]%N ++ jv_to_string rawValue)
    else None) (mappingEntries str).

Definition riskyEntry (e : jstr * jv) : option jstr :=
  match parseStatusCodeKey e.1, parseStatusCodeMappingTarget e.2 with
  | Some fromCode, Some toCode =>
      if negb (bool_decide (fromCode ∈ NON_REDIRECTABLE_STATUS_CODES)) then None
      else if (fromCode =? toCode)%N then None
      else Some (print_N fromCode ++ js " -> " ++ print_N toCode)
  | _, _ => None
  end.

Definition collectDisallowedStatusCodeRedirects (str : jstr) : list jstr :=
  sort_strings (uniq (omap riskyEntry (mappingEntries str))).

Definition collectNewDisallowedStatusCodeRedirects (originalStr currentStr : jstr) : list jstr :=
  let currentRisky := collectDisallowedStatusCodeRedirects currentStr in
  if Nat.eqb (length currentRisky) 0 then []
  else
    let originalRiskySet := collectDisallowedStatusCodeRedirects originalStr in
    List.filter (fun mapping => negb (bool_decide (mapping ∈ originalRiskySet))) currentRisky.

(** * Properties *)

Lemma riskyEntry_some e w :
  riskyEntry e = Some w <->
  exists f t, parseStatusCodeKey e.1 = Some f /\ parseStatusCodeMappingTarget e.2 = Some t /\
    f ∈ NON_REDIRECTABLE_STATUS_CODES /\ f <> t /\ w = print_N f ++ js " -> " ++ print_N t.
Proof.
  unfold riskyEntry. destruct (parseStatusCodeKey e.1) as [f|]; [|naive_solver].
  destruct (parseStatusCodeMappingTarget e.2) as [t|]; [|naive_solver].
  case_bool_decide; simpl; [|naive_solver]. destruct (N.eqb_spec f t); naive_solver.
Qed.

(** The three code units a code expression accepts. *)
Lemma code_re_spec s :
  re_test code_re s = true <->
  exists a b c, s = [a; b; c] /\ in_range 49 53 a = true /\ is_digit b = true /\ is_digit c = true.
Proof.
  unfold code_re. cbn [RSeqs]. rewrite test_bol. split.
  - destruct s as [|a s]; [done|]. rewrite m_seq. cbn [m rest].
    destruct (in_range 49 53 a) eqn:Ea; [|done].
    destruct s as [|b s]; [done|]. simpl. destruct (is_digit b) eqn:Eb; [|done].
    simpl. destruct s as [|c s]; [done|]. simpl. destruct (is_digit c) eqn:Ec; [|done].
    simpl. destruct s; [|done]. intros _. by exists a, b, c.
  - intros (a & b & c & -> & Ha & Hb & Hc). rewrite m_seq. cbn [m rest]. rewrite Ha.
    simpl. rewrite Hb. simpl. by rewrite Hc.
Qed.

Lemma parseStatusCodeKey_range k n : parseStatusCodeKey k = Some n -> (100 <= n <= 599)%N.
Proof.
  unfold parseStatusCodeKey. destruct (re_test code_re (trim k)) eqn:E; [|done]. intros [= <-].
  apply code_re_spec in E as (a & b & c & -> & Ha & Hb & Hc).
  unfold digits_value, digits_from, is_digit, in_range in *. cbn [fold_left]. lia.
Qed.

(** The guard reports a redirect if and only if the mapping's JSON object
    has an entry from 504 or 524 to a different valid code; reports are listed
    once each, in code unit order. *)
Theorem disallowed_redirects_spec (str : jstr) :
  NoDup (collectDisallowedStatusCodeRedirects str) /\
  Sorted (cmp_le jstr_order) (collectDisallowedStatusCodeRedirects str) /\
  forall w, w ∈ collectDisallowedStatusCodeRedirects str <->
    exists k v f t, (k, v) ∈ mappingEntries str /\
      parseStatusCodeKey k = Some f /\ parseStatusCodeMappingTarget v = Some t /\
      (f = 504 \/ f = 524)%N /\ f <> t /\ w = print_N f ++ js " -> " ++ print_N t.
Proof.
  unfold collectDisallowedStatusCodeRedirects, sort_strings. split_and!.
  - rewrite sort_by_perm. apply uniq_nodup.
  - apply sort_by_sorted, jstr_order_total.
  - intros w. rewrite sort_by_elem, uniq_elem, list_elem_of_omap.
    setoid_rewrite riskyEntry_some. split.
    + intros ([k v] & Hin & f & t & H1 & H2 & H3 & H4 & H5).
      exists k, v, f, t. unfold NON_REDIRECTABLE_STATUS_CODES in H3. set_solver.
    + intros (k & v & f & t & Hin & H1 & H2 & H3 & H4 & H5).
      exists (k, v). split; [done|]. exists f, t. unfold NON_REDIRECTABLE_STATUS_CODES.
      set_solver.
Qed.

(** Saving a channel is flagged with exactly the risky redirects the
    original mapping did not have, in the order of the current ones; in
    particular an unchanged mapping is never flagged. *)
Theorem new_disallowed_redirects_spec (original current : jstr) :
  (forall w, w ∈ collectNewDisallowedStatusCodeRedirects original current <->
     w ∈ collectDisallowedStatusCodeRedirects current /\
     w ∉ collectDisallowedStatusCodeRedirects original) /\
  collectNewDisallowedStatusCodeRedirects original current
    `sublist_of` collectDisallowedStatusCodeRedirects current /\
  collectNewDisallowedStatusCodeRedirects current current = [].
Proof.
  unfold collectNewDisallowedStatusCodeRedirects.
  set (o := collectDisallowedStatusCodeRedirects original).
  set (l := collectDisallowedStatusCodeRedirects current).
  assert (Hsub : forall (f : jstr -> bool) (l : list jstr), List.filter f l `sublist_of` l).
  { intros f l0. induction l0 as [|x t IH]; simpl; [done|]. destruct (f x); by constructor. }
  assert (Hin : forall (P : jstr -> bool) x (l : list jstr), x ∈ List.filter P l <-> x ∈ l /\ P x = true).
  { intros P x l0. rewrite !list_elem_of_In. apply filter_In. }
  split_and!.
  - intros w. destruct (Nat.eqb_spec (length l) 0) as [E|E].
    + apply nil_length_inv in E as ->. set_solver.
    + rewrite Hin, negb_true_iff, bool_decide_eq_false. done.
  - destruct (_ =? _); [apply sublist_nil_l|apply Hsub].
  - destruct (_ =? _); [done|]. destruct (List.filter _ l) as [|x t] eqn:E; [done|].
    assert (Hx : x ∈ List.filter (fun mapping => negb (bool_decide (mapping ∈ l))) l) by (rewrite E; left).
    apply Hin in Hx as [Hx Hn]. by rewrite bool_decide_true in Hn.
Qed.

Example guard_example :
  collectNewDisallowedStatusCodeRedirects (js "")
    (jq "{`504`: 200, `500`: 502, `524`: `524`}") = [js "504 -> 200"].
Proof. vm_compute. reflexivity. Qed.

Example invalid_example :
  collectInvalidStatusCodeEntries (jq "{`50x`: 200, `404`: 12, `400`: 401}") =
  [js "404" ++ [32; 8594; 32]%N ++ js "12"; js "50x" ++ [32; 8594; 32]%N ++ js "200"].
Proof. vm_compute. reflexivity. Qed.

End RiskGuard.
