(* ===== verification/Sse.v ===== *)
(** The event stream parser of the mini program (miniapp/src/api/sse.ts): a
    streaming UTF-8 decoder and the line oriented SSE parser on top of it.

    A chunk is a list of bytes; the parser object is its record of fields, the
    [onEvent] callback is the log of events it was called with. *)

From Stdlib Require Import NArith ZArith Lia ZifyBool ZifyN.
From stdpp Require Import base list gmap strings.
From S2P Require Import Prelude JsString.

(** * Decoding *)
Module Utf8.

(** [String.fromCodePoint(cp)] *)
Definition from_code_point (cp : N) : jstr :=
  if (cp <? 65536)%N then [cp]
  else [55296 + (cp - 65536) / 1024; 56320 + (cp - 65536) mod 1024]%N.

Definition replacement : N := 65533.

(** The length and the first bits a lead byte announces; [None] for a byte that
    cannot start a character. *)
Definition lead (first : N) : option (nat * N) :=
  if in_range 194 223 first then Some (2, N.land first 31)
  else if in_range 224 239 first then Some (3, N.land first 15)
  else if in_range 240 244 first then Some (4, N.land first 7)
  else if (128 <=? first)%N then None
  else Some (1, first).

(** The loop over the continuation bytes: [None] when one is not. *)
Fixpoint continuation (codePoint : N) (bytes : list N) : option N :=
  match bytes with
  | [] => Some codePoint
  | c :: t =>
      if negb (N.land c 192 =? 128)%N then None
      else continuation (N.lor (N.shiftl codePoint 6) (N.land c 63)) t
  end.

Definition overlong (length : nat) (cp : N) : bool :=
  (Nat.eqb length 2 && (cp <? 128)%N) || (Nat.eqb length 3 && (cp <? 2048)%N) ||
  (Nat.eqb length 4 && (cp <? 65536)%N).

Definition surrogate (cp : N) : bool := ((55296 <=? cp) && (cp <=? 57343))%N.

(** One round of the loop on the bytes from [index] on: the text added and the
    bytes consumed, or [None] for the [break]. *)
Definition decode_step (final : bool) (bytes : list N) (first : N) : option (jstr * nat) :=
  match lead first with
  | None => Some ([replacement], 1)
  | Some (len, cp0) =>
      if Nat.ltb (length bytes) len then
        if negb final then None else Some ([replacement], 1)
      else
        match continuation cp0 (take (len - 1) (drop 1 bytes)) with
        | None => Some ([replacement], 1)
        | Some cp =>
            if overlong len cp || (1114111 <? cp)%N || surrogate cp
            then Some ([replacement], 1)
            else Some (from_code_point cp, len)
        end
  end.

(** The loop: what it decodes and the bytes left at the [break]. *)
Fixpoint decode_loop (fuel : nat) (final : bool) (bytes : list N) : jstr * list N :=
  match fuel with
  | O => ([], bytes)
  | S f =>
      match bytes with
      | [] => ([], [])
      | first :: _ =>
          match decode_step final bytes first with
          | None => ([], bytes)
          | Some (out, n) =>
              let '(o, r) := decode_loop f final (drop n bytes) in (out ++ o, r)
          end
      end
  end.

(** [decode(chunk, final)]: the text and the new [pending]. *)
Definition decode (pending chunk : list N) (final : bool) : jstr * list N :=
  let bytes := pending ++ chunk in
  let '(o, r) := decode_loop (length bytes) final bytes in
  (o, if final then [] else r).

(** ** The encoding it inverts *)
Definition encode (cp : N) : list N :=
  if (cp <? 128)%N then [cp]
  else if (cp <? 2048)%N then [192 + cp / 64; 128 + cp mod 64]%N
  else if (cp <? 65536)%N then [224 + cp / 4096; 128 + cp / 64 mod 64; 128 + cp mod 64]%N
  else [240 + cp / 262144; 128 + cp / 4096 mod 64; 128 + cp / 64 mod 64; 128 + cp mod 64]%N.

Definition scalar (cp : N) : Prop := (cp < 1114112 /\ (cp < 55296 \/ 57343 < cp))%N.

(** ** Lemmas *)

Lemma lead_len b len cp0 : lead b = Some (len, cp0) -> 1 <= len <= 4.
Proof. unfold lead. repeat step_match; intros; simplify_eq; lia. Qed.

Lemma decode_step_bounds final bytes first o n t :
  bytes = first :: t -> decode_step final bytes first = Some (o, n) -> 1 <= n <= length bytes.
Proof.
  intros ->. unfold decode_step. destruct (lead first) as [[len cp0]|] eqn:E; [|intros; simplify_eq/=; lia].
  apply lead_len in E. destruct (Nat.ltb_spec (length (first :: t)) len).
  - destruct final; simpl; intros; simplify_eq/=; lia.
  - repeat step_match; intros; simplify_eq; simpl in *; lia.
Qed.

(** A round that does not break sees only bytes it has. *)
Lemma decode_step_app bytes more first t r :
  bytes = first :: t -> decode_step false bytes first = Some r ->
  decode_step false (bytes ++ more) first = Some r.
Proof.
  intros -> H. unfold decode_step in *. destruct (lead first) as [[len cp0]|] eqn:E; [|done].
  destruct (Nat.ltb_spec (length (first :: t)) len) as [|Hl]; [done|].
  destruct (Nat.ltb_spec (length ((first :: t) ++ more)) len) as [Hl2|]; [rewrite length_app in Hl2; lia|].
  change (drop 1 ((first :: t) ++ more)) with (t ++ more).
  change (drop 1 (first :: t)) with t in H. rewrite take_app_le; [done|]. apply lead_len in E. simpl in Hl. lia.
Qed.

Lemma decode_loop_fuel f1 f2 final bytes :
  length bytes <= f1 -> length bytes <= f2 -> decode_loop f1 final bytes = decode_loop f2 final bytes.
Proof.
  revert f2 bytes. induction f1 as [|f1 IH]; intros f2 bytes H1 H2.
  - destruct bytes; [|simpl in *; lia]. by destruct f2.
  - destruct bytes as [|b t]; [by destruct f2|]. destruct f2 as [|f2]; [simpl in *; lia|]. cbn [decode_loop].
    destruct (decode_step final (b :: t) b) as [[o n]|] eqn:E; [|done].
    pose proof (decode_step_bounds _ _ _ _ _ _ eq_refl E).
    rewrite (IH f2); [done|rewrite length_drop; simpl in *; lia..].
Qed.

Definition decode_all (final : bool) (bytes : list N) : jstr * list N :=
  decode_loop (length bytes) final bytes.

Lemma decode_all_step final b t :
  decode_all final (b :: t) =
  match decode_step final (b :: t) b with
  | None => ([], b :: t)
  | Some (out, n) => let '(o, r) := decode_all final (drop n (b :: t)) in (out ++ o, r)
  end.
Proof.
  unfold decode_all at 1. cbn [length decode_loop].
  destruct (decode_step final (b :: t) b) as [[o n]|] eqn:E; [|done].
  pose proof (decode_step_bounds _ _ _ _ _ _ eq_refl E).
  unfold decode_all. erewrite decode_loop_fuel; [done|rewrite length_drop; simpl in *; lia..].
Qed.

(** Decoding in two pieces is decoding at once. *)
Lemma decode_all_app b c :
  decode_all false (b ++ c) =
  let '(o1, p) := decode_all false b in
  let '(o2, r) := decode_all false (p ++ c) in (o1 ++ o2, r).
Proof.
  remember (length b) as n eqn:Hn. revert b Hn.
  induction (lt_wf n) as [n _ IH]. intros b ->. destruct b as [|x t].
  - change (decode_all false []) with (@nil N, @nil N). simpl.
    by destruct (decode_all false c).
  - rewrite (decode_all_step _ x t). destruct (decode_step false (x :: t) x) as [[o k]|] eqn:E.
    + pose proof (decode_step_bounds _ _ _ _ _ _ eq_refl E) as Hk.
      pose proof (decode_step_app _ c _ _ _ eq_refl E) as E'.
      rewrite <-app_comm_cons in E' |- *. rewrite decode_all_step, E'. rewrite app_comm_cons.
      rewrite drop_app_le by lia.
      rewrite (IH (length (drop k (x :: t)))); [|rewrite length_drop; simpl in *; lia|done].
      destruct (decode_all false (drop k (x :: t))) as [o1 p].
      destruct (decode_all false (p ++ c)) as [o2 r]. by rewrite app_assoc.
    + by destruct (decode_all false ((x :: t) ++ c)).
Qed.

Lemma decode_unfold pending chunk final :
  decode pending chunk final =
  ((decode_all final (pending ++ chunk)).1,
   if final then [] else (decode_all final (pending ++ chunk)).2).
Proof. unfold decode, decode_all. by destruct (decode_loop _ _ _). Qed.

(** ** Encoding and decoding *)

Lemma byte_all (P : N -> bool) :
  forallb P (List.map N.of_nat (seq 0 256)) = true -> forall x, (x < 256)%N -> P x = true.
Proof.
  intros H x Hx. rewrite forallb_forall in H. apply H.
  apply in_map_iff. exists (N.to_nat x). split; [lia|]. apply in_seq. lia.
Qed.

(** Two functions agree on the bytes outside an excluded set. *)
Lemma byte_case (excl : N -> bool) (f g : N -> option (nat * N)) :
  forallb (fun x => excl x || bool_decide (f x = g x)) (List.map N.of_nat (seq 0 256)) = true ->
  forall x, (x < 256)%N -> excl x = false -> f x = g x.
Proof.
  intros H x Hx He. pose proof (byte_all _ H x Hx) as P. simpl in P. rewrite He in P.
  by apply bool_decide_eq_true_1 in P.
Qed.

Lemma cont_byte x : (x < 64)%N -> (N.land (128 + x) 192 =? 128)%N = true /\ N.land (128 + x) 63 = x.
Proof.
  intros H.
  assert (P : (((64 <=? x) || (N.land (128 + x) 192 =? 128) && (N.land (128 + x) 63 =? x)))%N = true).
  { revert x H. intros x H. apply (byte_all (fun x => ((64 <=? x) || (N.land (128 + x) 192 =? 128) && (N.land (128 + x) 63 =? x))%N));
      [vm_compute; reflexivity|lia]. }
  destruct (N.leb_spec 64 x); [lia|]. simpl in P. bool_hyps. split; [done|]. by apply N.eqb_eq.
Qed.

Lemma lor_shift a b : (b < 64)%N -> N.lor (N.shiftl a 6) b = (a * 64 + b)%N.
Proof.
  intros Hb. assert (Hland : N.land (N.shiftl a 6) b = 0%N).
  { apply N.bits_inj. intros i. rewrite N.land_spec, N.bits_0.
    destruct (N.lt_ge_cases i 6) as [Hi|Hi].
    - by rewrite N.shiftl_spec_low.
    - apply andb_false_iff. right. destruct (N.eq_dec b 0%N) as [->|Hb0]; [apply N.bits_0|].
      apply N.bits_above_log2. assert (N.log2 b < 6)%N; [|lia]. apply N.log2_lt_pow2; simpl; lia. }
  rewrite <-N.lxor_lor by done. rewrite <-N.add_nocarry_lxor by done.
  by rewrite N.shiftl_mul_pow2.
Qed.

Lemma continuation_cons acc x t :
  (x < 64)%N -> continuation acc ((128 + x)%N :: t) = continuation (acc * 64 + x) t.
Proof.
  intros H. cbn [continuation]. destruct (cont_byte x H) as [H1 H2]. rewrite H1, H2. simpl.
  by rewrite lor_shift.
Qed.

Lemma lead_spec :
  (forall x, (2 <= x < 32)%N -> lead (192 + x) = Some (2, x)) /\
  (forall x, (x < 16)%N -> lead (224 + x) = Some (3, x)) /\
  (forall x, (x < 5)%N -> lead (240 + x) = Some (4, x)) /\
  (forall x, (x < 128)%N -> lead x = Some (1, x)).
Proof.
  split_and!; intros x Hx.
  - apply (byte_case (fun x => (x <? 2) || (32 <=? x))%N (fun x => lead (192 + x)) (fun x => Some (2, x)));
      [vm_compute; reflexivity|lia|lia].
  - apply (byte_case (fun x => 16 <=? x)%N (fun x => lead (224 + x)) (fun x => Some (3, x)));
      [vm_compute; reflexivity|lia|lia].
  - apply (byte_case (fun x => 5 <=? x)%N (fun x => lead (240 + x)) (fun x => Some (4, x)));
      [vm_compute; reflexivity|lia|lia].
  - apply (byte_case (fun x => 128 <=? x)%N lead (fun x => Some (1, x)));
      [vm_compute; reflexivity|lia|lia].
Qed.

Lemma div_mod_64 n : (n / 64 * 64 + n mod 64 = n)%N.
Proof. rewrite N.mul_comm. symmetry. apply N.Div0.div_mod. Qed.

Lemma mod_64 n : (n mod 64 < 64)%N.
Proof. by apply N.mod_lt. Qed.

Lemma div_div_64 n : (n / 4096 = n / 64 / 64)%N /\ (n / 262144 = n / 64 / 64 / 64)%N.
Proof. split; rewrite !N.Div0.div_div; done. Qed.

Lemma no_special cp len : scalar cp ->
  (len = 2 -> (128 <= cp)%N) -> (len = 3 -> (2048 <= cp)%N) -> (len = 4 -> (65536 <= cp)%N) ->
  (overlong len cp || (1114111 <? cp)%N || surrogate cp) = false.
Proof.
  unfold scalar, overlong, surrogate. intros Hs H2 H3 H4.
  destruct (Nat.eqb_spec len 2), (Nat.eqb_spec len 3), (Nat.eqb_spec len 4); simpl; lia.
Qed.

Lemma decode_step_cp final b t len cp0 cp :
  lead b = Some (len, cp0) -> len <= length (b :: t) ->
  continuation cp0 (take (len - 1) t) = Some cp ->
  (overlong len cp || (1114111 <? cp)%N || surrogate cp) = false ->
  decode_step final (b :: t) b = Some (from_code_point cp, len).
Proof.
  intros Hl Hn Hc Hs. unfold decode_step. rewrite Hl.
  rewrite (proj2 (Nat.ltb_ge _ _)) by done. change (drop 1 (b :: t)) with t. by rewrite Hc, Hs.
Qed.

(** The first round on an encoded character decodes it and nothing else. *)
Lemma decode_step_encode final cp more :
  scalar cp ->
  exists b t, encode cp = b :: t /\
    decode_step final (encode cp ++ more) b = Some (from_code_point cp, length (encode cp)).
Proof.
  intros Hs. destruct lead_spec as (L2 & L3 & L4 & L1). destruct (div_div_64 cp) as [D3 D4].
  pose proof (div_mod_64 cp) as E1. pose proof (div_mod_64 (cp / 64)) as E2.
  pose proof (div_mod_64 (cp / 64 / 64)) as E3.
  pose proof (mod_64 cp) as M1. pose proof (mod_64 (cp / 64)) as M2. pose proof (mod_64 (cp / 64 / 64)) as M3.
  unfold encode. unfold scalar in Hs.
  destruct (N.ltb_spec cp 128); [|destruct (N.ltb_spec cp 2048); [|destruct (N.ltb_spec cp 65536)]];
    eexists _, _; (split; [reflexivity|]); rewrite <-!app_comm_cons; simpl app.
  - apply (decode_step_cp _ _ _ 1 cp); [by apply L1|simpl; lia|done|by apply no_special].
  - apply (decode_step_cp _ _ _ 2 (cp / 64)%N).
    + apply L2. lia.
    + simpl; lia.
    + simpl take. rewrite continuation_cons by done. simpl. f_equal. lia.
    + apply no_special; [done|lia..].
  - apply (decode_step_cp _ _ _ 3 (cp / 4096)%N).
    + apply L3. rewrite D3. lia.
    + simpl; lia.
    + simpl take. rewrite !continuation_cons by done. simpl. rewrite D3. f_equal. lia.
    + apply no_special; [done|lia..].
  - rewrite D3. apply (decode_step_cp _ _ _ 4 (cp / 262144)%N).
    + apply L4. rewrite D4. lia.
    + simpl; lia.
    + simpl take. rewrite !continuation_cons by done. simpl. rewrite D4. f_equal. lia.
    + apply no_special; [done|lia..].
Qed.

Lemma decode_encode final cps :
  Forall scalar cps ->
  decode_all final (flat_map encode cps) = (flat_map from_code_point cps, []).
Proof.
  induction 1 as [|cp cps Hcp Hcps IH]; [done|]. cbn [flat_map].
  destruct (decode_step_encode final cp (flat_map encode cps) Hcp) as (b & t & Hb & Hstep).
  rewrite Hb in Hstep |- *. rewrite <-app_comm_cons in Hstep |- *. rewrite decode_all_step, Hstep.
  rewrite app_comm_cons, drop_app_length, IH. done.
Qed.

End Utf8.

(** * Parsing *)
Module Parser.

Record SseEvent := Event { data : jstr; event_name : jstr; event_id : jstr }.

Record state := State {
  dataLines : list jstr;
  pending : list N;
  event : jstr;
  id : jstr;
  lineBuffer : jstr;
  log : list SseEvent      (** the calls of [onEvent], oldest first *)
}.

Definition init : state := State [] [] [] [] [] [].

Definition dispatch (s : state) : state :=
  match dataLines s with
  | [] => s
  | _ => State [] (pending s) [] (id s) (lineBuffer s)
           (log s ++ [Event (join [10%N] (dataLines s)) (event s) (id s)])
  end.

Definition consumeLine (s : state) (line : jstr) : state :=
  if negb (truthy line) then dispatch s
  else if starts_with (js ":") line then s
  else
    let separator := index_of (js ":") line in
    let field := match separator with None => line | Some i => take i line end in
    let value0 := match separator with None => [] | Some i => drop (S i) line end in
    let value := if starts_with (js " ") value0 then drop 1 value0 else value0 in
    if field =s js "data" then
      State (dataLines s ++ [value]) (pending s) (event s) (id s) (lineBuffer s) (log s)
    else if field =s js "event" then
      State (dataLines s) (pending s) value (id s) (lineBuffer s) (log s)
    else if (field =s js "id") && negb (includes [0%N] value) then
      State (dataLines s) (pending s) (event s) value (lineBuffer s) (log s)
    else s.

Definition set_buffer (b : jstr) (s : state) : state :=
  State (dataLines s) (pending s) (event s) (id s) b (log s).

Definition set_pending (p : list N) (s : state) : state :=
  State (dataLines s) p (event s) (id s) (lineBuffer s) (log s).

(** The first line of a buffer: its text, its delimiter and what follows. *)
Fixpoint first_line (b : jstr) : option (jstr * N * jstr) :=
  match b with
  | [] => None
  | c :: t =>
      if ((c =? 10) || (c =? 13))%N then Some ([], c, t)
      else match first_line t with
           | Some (l, d, r) => Some (c :: l, d, r)
           | None => None
           end
  end.

(** The [while] loop of [consumeText]; every round shortens the buffer. *)
Fixpoint consume_lines (fuel : nat) (final : bool) (s : state) : state :=
  match fuel with
  | O => s
  | S f =>
      match first_line (lineBuffer s) with
      | None => s
      | Some (line, d, r) =>
          if ((d =? 13)%N && negb (truthy r) && negb final)%bool then s
          else
            let rest := match r with
                        | x :: t => if ((d =? 13) && (x =? 10))%N then t else r
                        | [] => r
                        end in
            consume_lines f final (consumeLine (set_buffer rest s) line)
      end
  end.

Definition consumeText (s : state) (text : jstr) (final : bool) : state :=
  let s1 := set_buffer (lineBuffer s ++ text) s in
  let s2 := consume_lines (length (lineBuffer s1)) final s1 in
  let s3 := if (final && truthy (lineBuffer s2))%bool
            then set_buffer [] (consumeLine s2 (lineBuffer s2)) else s2 in
  if final then dispatch s3 else s3.

Definition push (s : state) (chunk : list N) : state :=
  let '(text, p) := Utf8.decode (pending s) chunk false in
  consumeText (set_pending p s) text false.

Definition finish (s : state) : state :=
  let '(text, p) := Utf8.decode (pending s) [] true in
  consumeText (set_pending p s) text true.

(** A whole stream: its chunks, then [finish]. *)
Definition run (chunks : list (list N)) : list SseEvent :=
  log (finish (fold_left push chunks init)).

Example sse_example :
  run [js "data: a"; js "b" ++ [13%N]; [10%N] ++ js ": note" ++ [10%N]; js "event:x" ++ [10; 10]%N; js "data"] =
  [Event (js "ab") (js "x") []; Event [] [] []].
Proof. vm_compute. reflexivity. Qed.

(** ** Buffer and pending bytes are untouched by lines *)

Lemma dispatch_set_buffer b s : dispatch (set_buffer b s) = set_buffer b (dispatch s).
Proof. unfold dispatch. simpl. by destruct (dataLines s). Qed.

Lemma dispatch_set_pending p s : dispatch (set_pending p s) = set_pending p (dispatch s).
Proof. unfold dispatch. simpl. by destruct (dataLines s). Qed.

Lemma consumeLine_set_buffer b s l : consumeLine (set_buffer b s) l = set_buffer b (consumeLine s l).
Proof.
  unfold consumeLine. destruct (truthy l); simpl; [|apply dispatch_set_buffer].
  destruct (starts_with _ l); [done|]. by repeat case_match.
Qed.

Lemma consumeLine_set_pending p s l : consumeLine (set_pending p s) l = set_pending p (consumeLine s l).
Proof.
  unfold consumeLine. destruct (truthy l); simpl; [|apply dispatch_set_pending].
  destruct (starts_with _ l); [done|]. by repeat case_match.
Qed.

Lemma lineBuffer_consumeLine s l : lineBuffer (consumeLine s l) = lineBuffer s.
Proof.
  assert (E : s = set_buffer (lineBuffer s) s) by (by destruct s).
  rewrite E at 1. by rewrite consumeLine_set_buffer.
Qed.

Lemma set_buffer_set_buffer b b' s : set_buffer b (set_buffer b' s) = set_buffer b s.
Proof. done. Qed.

Lemma set_buffer_id s : set_buffer (lineBuffer s) s = s.
Proof. by destruct s. Qed.

(** ** Lines *)

Lemma first_line_app b c l d r :
  first_line b = Some (l, d, r) -> first_line (b ++ c) = Some (l, d, r ++ c).
Proof.
  revert l r. induction b as [|x t IH]; simpl; [done|]. intros l r.
  destruct ((x =? 10) || (x =? 13))%N; [by intros [= <- <- <-]|].
  destruct (first_line t) as [[[l' d'] r']|]; [|done]. intros [= <- <- <-].
  by rewrite (IH l' r').
Qed.

Lemma first_line_length b l d r : first_line b = Some (l, d, r) -> length r < length b.
Proof.
  revert l r. induction b as [|x t IH]; simpl; [done|]. intros l r.
  destruct ((x =? 10) || (x =? 13))%N; [intros [= <- <- <-]; lia|].
  destruct (first_line t) as [[[l' d'] r']|]; [|done]. intros [= <- <- <-].
  specialize (IH _ _ eq_refl). lia.
Qed.

Lemma first_line_clean l d r :
  Forall (fun c => c <> 10%N /\ c <> 13%N) l -> (d = 10 \/ d = 13)%N ->
  first_line (l ++ d :: r) = Some (l, d, r).
Proof.
  induction 1 as [|c l [H1 H2] Hl IH]; intros Hd; simpl.
  - by destruct Hd as [-> | ->].
  - rewrite (proj2 (N.eqb_neq _ _) H1), (proj2 (N.eqb_neq _ _) H2). simpl. by rewrite IH.
Qed.

(** One line taken off the buffer, [None] when the loop stops. *)
Definition line_step (final : bool) (b : jstr) : option (jstr * jstr) :=
  match first_line b with
  | None => None
  | Some (line, d, r) =>
      if ((d =? 13)%N && negb (truthy r) && negb final)%bool then None
      else Some (line, match r with
                       | x :: t => if ((d =? 13) && (x =? 10))%N then t else r
                       | [] => r
                       end)
  end.

Lemma line_step_length final b l r : line_step final b = Some (l, r) -> length r < length b.
Proof.
  unfold line_step. destruct (first_line b) as [[[l0 d] r0]|] eqn:E; [|done].
  apply first_line_length in E. destruct (_ && _)%bool; [done|]. intros [= <- <-].
  repeat case_match; simpl in *; lia.
Qed.

Lemma line_step_app b c l r :
  line_step false b = Some (l, r) -> line_step false (b ++ c) = Some (l, r ++ c).
Proof.
  unfold line_step. destruct (first_line b) as [[[l0 d] r0]|] eqn:E; [|done].
  rewrite (first_line_app _ c _ _ _ E).
  destruct (N.eqb_spec d 13) as [->|Hd]; simpl.
  - destruct r0 as [|x r0]; [done|]. simpl. intros [= <- <-].
    by destruct (x =? 10)%N.
  - intros [= <- <-]. destruct r0 as [|x r0]; simpl; [|done].
    by destruct c.
Qed.

Lemma consume_lines_step f final s :
  consume_lines (S f) final s =
  match line_step final (lineBuffer s) with
  | None => s
  | Some (l, r) => consume_lines f final (consumeLine (set_buffer r s) l)
  end.
Proof.
  simpl. unfold line_step. destruct (first_line _) as [[[l d] r]|]; [|done]. by destruct (_ && _)%bool.
Qed.

Lemma consume_lines_fuel f1 f2 final s :
  length (lineBuffer s) <= f1 -> length (lineBuffer s) <= f2 ->
  consume_lines f1 final s = consume_lines f2 final s.
Proof.
  revert f2 s. induction f1 as [|f1 IH]; intros f2 s H1 H2.
  - assert (E : lineBuffer s = []) by (destruct (lineBuffer s); simpl in *; [done|lia]).
    destruct f2; [done|]. rewrite consume_lines_step. by rewrite E.
  - destruct f2 as [|f2].
    { assert (E : lineBuffer s = []) by (destruct (lineBuffer s); simpl in *; [done|lia]).
      rewrite consume_lines_step. by rewrite E. }
    rewrite !consume_lines_step. destruct (line_step final (lineBuffer s)) as [[l r]|] eqn:E; [|done].
    apply line_step_length in E. apply IH; rewrite lineBuffer_consumeLine; simpl; lia.
Qed.

Definition lines (final : bool) (s : state) : state := consume_lines (length (lineBuffer s)) final s.

Lemma lines_step final s :
  lines final s =
  match line_step final (lineBuffer s) with
  | None => s
  | Some (l, r) => lines final (consumeLine (set_buffer r s) l)
  end.
Proof.
  unfold lines at 1. rewrite (consume_lines_fuel _ (S (length (lineBuffer s)))) by lia.
  rewrite consume_lines_step. destruct (line_step final (lineBuffer s)) as [[l r]|] eqn:E; [|done].
  apply line_step_length in E. unfold lines. rewrite !lineBuffer_consumeLine. simpl.
  apply consume_lines_fuel; rewrite lineBuffer_consumeLine; simpl; lia.
Qed.

(** Text that arrives in two pieces is consumed as if at once. *)
Lemma lines_app s c :
  lines false (set_buffer (lineBuffer s ++ c) s) =
  lines false (set_buffer (lineBuffer (lines false s) ++ c) (lines false s)).
Proof.
  remember (length (lineBuffer s)) as n eqn:Hn. revert s Hn.
  induction (lt_wf n) as [n _ IH]. intros s ->.
  rewrite (lines_step false s). destruct (line_step false (lineBuffer s)) as [[l r]|] eqn:E; [|done].
  rewrite lines_step. cbn [lineBuffer set_buffer]. rewrite (line_step_app _ c _ _ E).
  pose proof (line_step_length _ _ _ _ E) as Hl.
  rewrite <-(IH (length r)); [|done|by rewrite lineBuffer_consumeLine].
  rewrite lineBuffer_consumeLine. cbn [lineBuffer set_buffer].
  rewrite !set_buffer_set_buffer, <-consumeLine_set_buffer. done.
Qed.

Lemma lines_set_pending final p s : lines final (set_pending p s) = set_pending p (lines final s).
Proof.
  remember (length (lineBuffer s)) as n eqn:Hn. revert s Hn.
  induction (lt_wf n) as [n _ IH]. intros s ->.
  rewrite (lines_step final s), lines_step. cbn [lineBuffer set_pending].
  destruct (line_step final (lineBuffer s)) as [[l r]|] eqn:E; [|done].
  apply line_step_length in E.
  change (set_buffer r (set_pending p s)) with (set_pending p (set_buffer r s)).
  rewrite consumeLine_set_pending. apply (IH (length r)); [done|by rewrite lineBuffer_consumeLine].
Qed.

Lemma consumeText_push s text : consumeText s text false = lines false (set_buffer (lineBuffer s ++ text) s).
Proof. done. Qed.

(** ** Chunks *)

Lemma push_unfold s c :
  push s c =
  set_pending (Utf8.decode_all false (pending s ++ c)).2
    (lines false (set_buffer (lineBuffer s ++ (Utf8.decode_all false (pending s ++ c)).1) s)).
Proof.
  unfold push. rewrite Utf8.decode_unfold. cbn beta iota. rewrite consumeText_push.
  rewrite <-lines_set_pending. done.
Qed.

Lemma push_app s c1 c2 : push (push s c1) c2 = push s (c1 ++ c2).
Proof.
  rewrite (push_unfold (push s c1)), (push_unfold s (c1 ++ c2)), (push_unfold s c1).
  rewrite (app_assoc (pending s)), (Utf8.decode_all_app (pending s ++ c1) c2).
  destruct (Utf8.decode_all false (pending s ++ c1)) as [t1 p1]. cbn [fst snd pending set_pending].
  destruct (Utf8.decode_all false (p1 ++ c2)) as [t2 p2]. cbn [fst snd].
  change (lineBuffer (set_pending ?p ?x)) with (lineBuffer x).
  change (set_buffer ?b (set_pending ?p ?x)) with (set_pending p (set_buffer b x)).
  rewrite lines_set_pending.
  change (set_pending p2 (set_pending p1 ?x)) with (set_pending p2 x). f_equal.
  pose proof (lines_app (set_buffer (lineBuffer s ++ t1) s) t2) as H.
  cbn [lineBuffer set_buffer] in H. by rewrite <-H, app_assoc.
Qed.

Lemma fold_push s c cs : fold_left push cs (push s c) = push s (c ++ concat cs).
Proof.
  revert c. induction cs as [|c' cs IH]; intros c; simpl; [by rewrite app_nil_r|].
  by rewrite push_app, IH, app_assoc.
Qed.

(** C34: how a response is cut into chunks does not matter: the events a stream
    yields are those of its bytes in one chunk, even when a cut falls inside a
    UTF-8 sequence or between CR and LF. *)
Theorem run_chunks (chunks : list (list N)) : run chunks = run [concat chunks].
Proof.
  unfold run. destruct chunks as [|c cs]; [reflexivity|]. simpl. by rewrite fold_push.
Qed.

(** ** Streams of well formed text *)

(** The events of a whole text. *)
Definition parse_text (text : jstr) : list SseEvent :=
  log (consumeText (consumeText init text false) [] true).

Lemma run_text chunks cps :
  Forall Utf8.scalar cps -> concat chunks = flat_map Utf8.encode cps ->
  run chunks = parse_text (flat_map Utf8.from_code_point cps).
Proof.
  intros Hc He. rewrite run_chunks, He. unfold run, parse_text. cbn [fold_left].
  rewrite push_unfold. cbn [pending init app lineBuffer].
  rewrite Utf8.decode_encode by done. cbn [fst snd].
  rewrite <-lines_set_pending, consumeText_push. unfold finish.
  change (set_pending [] (set_buffer ?b init)) with (set_buffer b init).
  cbn [app lineBuffer init].
  assert (Hp : pending (lines false (set_buffer (flat_map Utf8.from_code_point cps) init)) = []).
  { pose proof (lines_set_pending false [] (set_buffer (flat_map Utf8.from_code_point cps) init)) as H.
    change (set_pending [] (set_buffer ?b init)) with (set_buffer b init) in H. by rewrite H. }
  fold init. rewrite Hp. cbn [app]. change (Utf8.decode [] [] true) with (@nil N, @nil N). cbn beta iota.
  f_equal. f_equal. rewrite <-lines_set_pending. done.
Qed.

(** An event as a server writes it. *)
Definition field_line (name value : jstr) : jstr := name ++ js ": " ++ value ++ [10%N].

Definition write_event (dl : list jstr) (ev i : jstr) : jstr :=
  field_line (js "event") ev ++ field_line (js "id") i ++
  flat_map (field_line (js "data")) dl ++ [10%N].

Definition clean (s : jstr) : Prop := Forall (fun c => c <> 10%N /\ c <> 13%N) s.

Lemma lines_line s l r :
  clean l -> lineBuffer s = l ++ 10%N :: r ->
  lines false s = lines false (consumeLine (set_buffer r s) l).
Proof.
  intros Hl Hb. rewrite lines_step, Hb. unfold line_step.
  rewrite first_line_clean by auto. by destruct r.
Qed.

(** What a [name: value] line does. *)
Lemma consumeLine_data s value :
  consumeLine s (js "data" ++ js ": " ++ value) =
  State (dataLines s ++ [value]) (pending s) (event s) (id s) (lineBuffer s) (log s).
Proof. reflexivity. Qed.

Lemma consumeLine_event s value :
  consumeLine s (js "event" ++ js ": " ++ value) =
  State (dataLines s) (pending s) value (id s) (lineBuffer s) (log s).
Proof. reflexivity. Qed.

Lemma consumeLine_id s value :
  includes [0%N] value = false ->
  consumeLine s (js "id" ++ js ": " ++ value) =
  State (dataLines s) (pending s) (event s) value (lineBuffer s) (log s).
Proof.
  intros H. transitivity (if negb (includes [0%N] value) then
    State (dataLines s) (pending s) (event s) value (lineBuffer s) (log s) else s); [reflexivity|].
  by rewrite H.
Qed.

Lemma field_line_clean name value :
  (name = js "data" \/ name = js "event" \/ name = js "id") -> clean value ->
  clean (name ++ js ": " ++ value).
Proof.
  intros Hn Hv. unfold clean. rewrite !Forall_app. split_and!; [| |done].
  - destruct Hn as [-> |[-> | ->]]; repeat constructor; simpl; lia.
  - repeat constructor; simpl; lia.
Qed.

Lemma lines_field s name value r :
  (name = js "data" \/ name = js "event" \/ name = js "id") -> clean value ->
  lines false (set_buffer (field_line name value ++ r) s) =
  lines false (consumeLine (set_buffer r s) (name ++ js ": " ++ value)).
Proof.
  intros Hn Hv. apply (lines_line (set_buffer (field_line name value ++ r) s) _ r).
  - by apply field_line_clean.
  - unfold field_line. cbn [lineBuffer set_buffer]. by rewrite <-!(assoc_L (++)).
Qed.

Lemma lines_data dl s r :
  Forall clean dl ->
  lines false (set_buffer (flat_map (field_line (js "data")) dl ++ r) s) =
  lines false (set_buffer r (State (dataLines s ++ dl) (pending s) (event s) (id s) (lineBuffer s) (log s))).
Proof.
  intros H. revert s. induction H as [|d dl Hd Hdl IH]; intros s.
  - simpl. rewrite app_nil_r. by destruct s.
  - cbn [flat_map]. rewrite <-app_assoc, lines_field by auto.
    rewrite consumeLine_set_buffer, IH, consumeLine_data. cbn [dataLines pending event id log].
    by rewrite <-app_assoc.
Qed.

Lemma lines_event dl ev i s r :
  Forall clean dl -> clean ev -> clean i -> includes [0%N] i = false -> dl <> [] -> dataLines s = [] ->
  lines false (set_buffer (write_event dl ev i ++ r) s) =
  lines false (set_buffer r (State [] (pending s) [] i (lineBuffer s) (log s ++ [Event (join [10%N] dl) ev i]))).
Proof.
  intros Hdl Hev Hi Hz Hne Hs. unfold write_event. rewrite <-!app_assoc.
  rewrite lines_field by auto. rewrite consumeLine_set_buffer, consumeLine_event.
  rewrite lines_field by auto. rewrite consumeLine_set_buffer, consumeLine_id by done.
  rewrite lines_data by done. rewrite Hs. cbn [dataLines pending event id log].
  rewrite (lines_line (set_buffer ([10%N] ++ r) _) [] r) by (reflexivity || apply Forall_nil_2).
  rewrite set_buffer_set_buffer.
  rewrite consumeLine_set_buffer. unfold consumeLine. simpl. unfold dispatch. simpl.
  by destruct dl.
Qed.

Lemma lines_events evs s :
  Forall (fun '(dl, ev, i) => Forall clean dl /\ clean ev /\ clean i /\ includes [0%N] i = false /\ dl <> []) evs ->
  dataLines s = [] -> event s = [] ->
  exists i, lines false (set_buffer (flat_map (fun '(dl, ev, i) => write_event dl ev i) evs) s) =
    State [] (pending s) [] i [] (log s ++ List.map (fun '(dl, ev, i) => Event (join [10%N] dl) ev i) evs).
Proof.
  intros H. revert s. induction H as [|[[dl ev] i] evs Hh Ht IH]; intros s Hs He.
  - exists (id s). destruct s; simpl in *; subst. by rewrite app_nil_r.
  - destruct Hh as (H1 & H2 & H3 & H4 & H5). cbn [flat_map].
    rewrite lines_event by done.
    destruct (IH (State [] (pending s) [] i (lineBuffer s) (log s ++ [Event (join [10%N] dl) ev i]))) as [j Hj]; [done..|].
    exists j. rewrite Hj. cbn [log pending List.map]. by rewrite <-app_assoc.
Qed.

(** C17: a stream that writes well formed events (at least one data line each,
    no line break inside a field, no NUL in an id) and is encoded as UTF-8 is
    received as exactly those events, in order, however it is chunked. *)
Theorem run_written_events (evs : list (list jstr * jstr * jstr)) (cps : list N) (chunks : list (list N)) :
  Forall (fun '(dl, ev, i) => Forall clean dl /\ clean ev /\ clean i /\ includes [0%N] i = false /\ dl <> []) evs ->
  Forall Utf8.scalar cps ->
  flat_map Utf8.from_code_point cps = flat_map (fun '(dl, ev, i) => write_event dl ev i) evs ->
  concat chunks = flat_map Utf8.encode cps ->
  run chunks = List.map (fun '(dl, ev, i) => Event (join [10%N] dl) ev i) evs.
Proof.
  intros Hevs Hcps Htext Hchunks. rewrite (run_text chunks cps) by done. rewrite Htext.
  unfold parse_text. rewrite consumeText_push. cbn [lineBuffer init app].
  destruct (lines_events evs init) as [i Hi]; [done..|]. rewrite Hi. done.
Qed.

Lemma run_written_events_witness :
  run [[101;118;101;110;116;58;32;195]; [169;10;105;100;58;32;10;100;97;116;97;58;32;49;10;10]]%N =
  [Event (js "1") [233%N] []].
Proof.
  apply (run_written_events [([js "1"], [233%N], [])]
           (js "event: " ++ [233%N] ++ [10%N] ++ js "id: " ++ [10%N] ++ js "data: 1" ++ [10; 10]%N)).
  - repeat constructor; simpl; try lia; done.
  - repeat constructor; unfold Utf8.scalar; lia.
  - vm_compute. reflexivity.
  - vm_compute. reflexivity.
Defined.

End Parser.
