(* ===== verification/AdvancedCustom.v ===== *)
(** Advanced custom channels (web/src/features/channels/lib/advanced-custom.ts):
    the route table a channel keeps as JSON, its templates, its normalization,
    the management routes kept beside the forwarding ones, and the validation
    run before saving.

    An optional field is an [option]; a string typed field, the converter
    included, is any string, since a configuration comes from user text.
    [new URL] is a platform service: the Section variable [parse_url] gives the
    host and the protocol of a text it accepts. *)

From Stdlib Require Import NArith ZArith Lia Sorted.
From stdpp Require Import base list gmap strings sorting.
From S2P Require Import Prelude JsString JsNum Json.

(** * Data *)

Record AdvancedCustomRouteAuth := Auth {
  auth_type : option jstr;
  auth_name : option jstr;
  auth_value : option jstr
}.

Record AdvancedCustomRoute := Route {
  incoming_path : option jstr;
  upstream_path : option jstr;
  converter : option jstr;
  models : option (list jstr);
  auth : option AdvancedCustomRouteAuth
}.

Record AdvancedCustomConfig := Config { advanced_routes : option (list AdvancedCustomRoute) }.

Definition CHANNEL_TYPE_ADVANCED_CUSTOM : N := 58.
Definition ADVANCED_CUSTOM_MODEL_LIST_PATH : jstr := js "/v1/models".
Definition ADVANCED_CUSTOM_MODEL_LIST_LABEL : jstr := js "OpenAI Models".
Definition ADVANCED_CUSTOM_BALANCE_PATH : jstr := js "/v1/dashboard/billing/credit_grants".
Definition ADVANCED_CUSTOM_BALANCE_LABEL : jstr := js "Balance Query".

Definition c_none : jstr := js "none".
Definition c_anthropic_chat : jstr := js "anthropic_messages_to_openai_chat_completions".
Definition c_chat_anthropic : jstr := js "openai_chat_completions_to_anthropic_messages".
Definition c_chat_responses : jstr := js "openai_chat_completions_to_openai_responses".
Definition c_responses_chat : jstr := js "openai_responses_to_openai_chat_completions".
Definition c_responses_gemini : jstr := js "openai_responses_to_gemini_generate_content".
Definition c_gemini_chat : jstr := js "gemini_generate_content_to_openai_chat_completions".
Definition c_chat_gemini : jstr := js "openai_chat_completions_to_gemini_generate_content".

Record ConverterOption := ConvOpt { co_value : jstr; co_label : jstr; co_trigger : jstr }.

Definition ADVANCED_CUSTOM_CONVERTER_OPTIONS : list ConverterOption := [
  ConvOpt c_none (js "Native forwarding") (js "Native forwarding");
  ConvOpt c_anthropic_chat (js "Anthropic Messages to OpenAI Chat") (js "To OpenAI Chat");
  ConvOpt c_chat_anthropic (js "OpenAI Chat to Anthropic Messages") (js "To Anthropic Messages");
  ConvOpt c_chat_responses (js "OpenAI Chat to OpenAI Responses") (js "To OpenAI Responses");
  ConvOpt c_responses_chat (js "OpenAI Responses to OpenAI Chat") (js "To OpenAI Chat");
  ConvOpt c_responses_gemini (js "OpenAI Responses to Gemini Generate Content") (js "To Gemini Generate Content");
  ConvOpt c_gemini_chat (js "Gemini Generate Content to OpenAI Chat") (js "To OpenAI Chat");
  ConvOpt c_chat_gemini (js "OpenAI Chat to Gemini Generate Content") (js "To Gemini Generate Content")].

(** A value with its label. *)
Record LabelOption := LabelOpt { lo_value : jstr; lo_label : jstr }.

Definition ADVANCED_CUSTOM_AUTH_MODE_OPTIONS : list LabelOption := [
  LabelOpt (js "default") (js "Default Bearer");
  LabelOpt (js "none") (js "No Auth");
  LabelOpt (js "header") (js "Header");
  LabelOpt (js "query") (js "Query")].

Definition ADVANCED_CUSTOM_INCOMING_PATH_OPTIONS : list LabelOption := [
  LabelOpt (js "/v1/chat/completions") (js "OpenAI Chat");
  LabelOpt (js "/v1/responses") (js "OpenAI Responses");
  LabelOpt (js "/v1/responses/compact") (js "OpenAI Responses Compact");
  LabelOpt (js "/v1/alpha/search") (js "Codex Alpha Search");
  LabelOpt (js "/v1/embeddings") (js "OpenAI Embeddings");
  LabelOpt (js "/v1/images/generations") (js "OpenAI Image Generations");
  LabelOpt (js "/v1/images/edits") (js "OpenAI Image Edits");
  LabelOpt (js "/v1/completions") (js "OpenAI Completions");
  LabelOpt (js "/v1/audio/speech") (js "OpenAI Audio Speech");
  LabelOpt (js "/v1/audio/transcriptions") (js "OpenAI Audio Transcriptions");
  LabelOpt (js "/v1/audio/translations") (js "OpenAI Audio Translations");
  LabelOpt (js "/v1/rerank") (js "Rerank");
  LabelOpt (js "/v1/realtime") (js "OpenAI Realtime");
  LabelOpt (js "/v1/messages") (js "Claude Messages");
  LabelOpt (js "/v1beta/models/{model}:generateContent") (js "Gemini Generate Content");
  LabelOpt (js "/v1beta/models/{model}:embedContent") (js "Gemini Embed Content");
  LabelOpt (js "/v1beta/models/{model}:batchEmbedContents") (js "Gemini Batch Embed Contents")].

Definition ADVANCED_CUSTOM_ROUTE_SUMMARY_LABELS : list (jstr * jstr) := [
  (js "/v1/chat/completions", js "OpenAI Chat");
  (ADVANCED_CUSTOM_MODEL_LIST_PATH, ADVANCED_CUSTOM_MODEL_LIST_LABEL);
  (ADVANCED_CUSTOM_BALANCE_PATH, ADVANCED_CUSTOM_BALANCE_LABEL)].

Record AdvancedCustomValidationError := VErr { message : jstr; routeIndex : option nat }.

Definition openAIChatPath : jstr := js "/v1/chat/completions".
Definition openAIResponsesPath : jstr := js "/v1/responses".
Definition claudeMessagesPath : jstr := js "/v1/messages".
Definition geminiGenerateContentPath : jstr := js "/v1beta/models/{model}:generateContent".

Definition bearerHeaderAuth : AdvancedCustomRouteAuth :=
  Auth (Some (js "header")) (Some (js "Authorization")) (Some (js "Bearer {api_key}")).
Definition apiKeyHeaderAuth : AdvancedCustomRouteAuth :=
  Auth (Some (js "header")) (Some (js "x-api-key")) (Some (js "{api_key}")).
Definition geminiQueryAuth : AdvancedCustomRouteAuth :=
  Auth (Some (js "query")) (Some (js "key")) (Some (js "{api_key}")).

(** * Templates *)

Definition nativeRoute (a : AdvancedCustomRouteAuth) (path : jstr) : AdvancedCustomRoute :=
  Route (Some path) (Some path) (Some c_none) None (Some a).

Definition createOpenAINativeRoutes : list AdvancedCustomRoute :=
  List.map (nativeRoute bearerHeaderAuth) [
    js "/v1/chat/completions"; js "/v1/completions"; js "/v1/responses";
    js "/v1/responses/compact"; js "/v1/embeddings"; js "/v1/images/generations";
    js "/v1/images/edits"; js "/v1/audio/speech"; js "/v1/audio/transcriptions";
    js "/v1/audio/translations"; js "/v1/realtime"].

Definition createClaudeNativeRoutes : list AdvancedCustomRoute :=
  [nativeRoute apiKeyHeaderAuth (js "/v1/messages")].

Definition createGeminiNativeRoutes : list AdvancedCustomRoute :=
  List.map (nativeRoute geminiQueryAuth) [
    js "/v1beta/models/{model}:generateContent";
    js "/v1beta/models/{model}:embedContent";
    js "/v1beta/models/{model}:batchEmbedContents"].

Definition createGatewayNativeRoutes : list AdvancedCustomRoute :=
  List.map (nativeRoute bearerHeaderAuth) [js "/v1/alpha/search"; js "/v1/rerank"].

Record AdvancedCustomTemplateOption := Template {
  t_value : jstr; t_label : jstr; t_config : AdvancedCustomConfig }.

Definition ADVANCED_CUSTOM_TEMPLATE_OPTIONS : list AdvancedCustomTemplateOption := [
  Template (js "all_protocols") (js "All routes")
    (Config (Some (createOpenAINativeRoutes ++ createClaudeNativeRoutes ++
                   createGeminiNativeRoutes ++ createGatewayNativeRoutes)));
  Template (js "openai_only") (js "OpenAI only") (Config (Some createOpenAINativeRoutes));
  Template (js "claude_only") (js "Claude only") (Config (Some createClaudeNativeRoutes));
  Template (js "gemini_only") (js "Gemini only") (Config (Some createGeminiNativeRoutes))].

(** [structuredClone]: configurations are immutable here. *)
Definition cloneAdvancedCustomConfig (config : AdvancedCustomConfig) : AdvancedCustomConfig := config.

Definition getAdvancedCustomTemplateConfig (templateKey : jstr) : AdvancedCustomConfig :=
  match List.find (fun o => t_value o =s templateKey) ADVANCED_CUSTOM_TEMPLATE_OPTIONS with
  | Some t => cloneAdvancedCustomConfig (t_config t)
  | None =>
      match ADVANCED_CUSTOM_TEMPLATE_OPTIONS with
      | t :: _ => cloneAdvancedCustomConfig (t_config t)
      | [] => Config None
      end
  end.

(** * Normalization *)

(** [x || ''] and [x?.trim() || ''] of an optional string. *)
Definition or_empty (o : option jstr) : jstr := o ?? [].
Definition trimmed_or_empty (o : option jstr) : jstr := trim (or_empty o).

(** [x || d] of an optional string. *)
Definition or_default (o : option jstr) (d : jstr) : jstr := or_str (or_empty o) d.

Definition getAdvancedCustomRouteUpstreamPath (route : AdvancedCustomRoute) : jstr :=
  trim (or_empty (upstream_path route)).

Definition normalizeAdvancedCustomRouteModels (ms : option (list jstr)) : list jstr :=
  match ms with
  | None => []
  | Some l => List.filter truthy (List.map trim l)
  end.

Definition normalizeAdvancedCustomRoute (route : AdvancedCustomRoute) : AdvancedCustomRoute :=
  let ms := normalizeAdvancedCustomRouteModels (models route) in
  Route (Some (or_empty (incoming_path route)))
        (Some (getAdvancedCustomRouteUpstreamPath route))
        (Some (or_default (converter route) c_none))
        (if Nat.ltb 0 (length ms) then Some ms else None)
        (match auth route with
         | Some a => Some (Auth (auth_type a) (Some (or_empty (auth_name a))) (Some (or_empty (auth_value a))))
         | None => None
         end).

Definition normalizeAdvancedCustomConfig (config : AdvancedCustomConfig) : AdvancedCustomConfig :=
  Config (Some (List.map normalizeAdvancedCustomRoute (advanced_routes config ?? []))).

(** The routes every reader of a configuration starts from. *)
Definition routesOf (config : AdvancedCustomConfig) : list AdvancedCustomRoute :=
  advanced_routes (normalizeAdvancedCustomConfig config) ?? [].

(** * Management routes *)

Definition isAdvancedCustomManagementPath (path : jstr) : bool :=
  (path =s ADVANCED_CUSTOM_MODEL_LIST_PATH) || (path =s ADVANCED_CUSTOM_BALANCE_PATH).

(** [route.incoming_path?.trim() === path] on a normalized route, whose path is
    never undefined. *)
Definition hasPath (path : jstr) (route : AdvancedCustomRoute) : bool :=
  match incoming_path route with Some p => trim p =s path | None => false end.

Definition isManagementRoute (route : AdvancedCustomRoute) : bool :=
  isAdvancedCustomManagementPath (trimmed_or_empty (incoming_path route)).

Definition getAdvancedCustomManagementRoute (config : AdvancedCustomConfig) (path : jstr) : option AdvancedCustomRoute :=
  List.find (hasPath path) (routesOf config).

(** [routes.findIndex(p)], [None] for -1. *)
Fixpoint find_index {A} (p : A -> bool) (l : list A) : option nat :=
  match l with
  | [] => None
  | x :: t => if p x then Some 0 else S <$> find_index p t
  end.

Definition replaceAdvancedCustomManagementRoute
    (config : AdvancedCustomConfig) (path : jstr) (route : option AdvancedCustomRoute) : AdvancedCustomConfig :=
  let routes := routesOf config in
  let index := find_index (hasPath path) routes in
  match route with
  | None =>
      match index with
      | Some i => Config (Some (take i routes ++ drop (S i) routes))
      | None => Config (Some routes)
      end
  | Some route =>
      let managementRoute :=
        Route (Some path) (Some (or_empty (upstream_path route))) (Some c_none) (Some []) (auth route) in
      match index with
      | Some i => Config (Some (<[i := managementRoute]> routes))
      | None => Config (Some (routes ++ [managementRoute]))
      end
  end.

Definition replaceAdvancedCustomForwardingRoutes
    (config : AdvancedCustomConfig) (forwardingRoutes : list AdvancedCustomRoute) : AdvancedCustomConfig :=
  let routes := routesOf config in
  let firstForwardingIndex := find_index (fun r => negb (isManagementRoute r)) routes in
  let managementRoutes := List.filter isManagementRoute routes in
  match firstForwardingIndex with
  | None => Config (Some (managementRoutes ++ forwardingRoutes))
  | Some i =>
      let before := List.filter isManagementRoute (take i routes) in
      let after := List.filter isManagementRoute (drop i routes) in
      Config (Some (before ++ forwardingRoutes ++ after))
  end.

Definition createAdvancedCustomRoute : AdvancedCustomRoute :=
  Route (Some openAIChatPath) (Some openAIChatPath) (Some c_none) None None.

Definition createAdvancedCustomConfig : AdvancedCustomConfig := Config (Some [createAdvancedCustomRoute]).

Definition createAdvancedCustomManagementRoute (path : jstr) : AdvancedCustomRoute :=
  Route (Some path) (Some path) (Some c_none) (Some []) None.

(** * Converters *)

Definition isConverterPathAllowed (incomingPath conv : jstr) : bool :=
  if conv =s c_none then true
  else if incomingPath =s js "/v1/alpha/search" then false
  else if conv =s c_anthropic_chat then incomingPath =s js "/v1/messages"
  else if (conv =s c_chat_anthropic) || (conv =s c_chat_responses) || (conv =s c_chat_gemini)
    then incomingPath =s js "/v1/chat/completions"
  else if conv =s c_responses_chat then incomingPath =s js "/v1/responses"
  else if conv =s c_responses_gemini then incomingPath =s js "/v1/responses"
  else includes (js ":generateContent") incomingPath || includes (js ":streamGenerateContent") incomingPath.

Definition isAdvancedCustomConverter (value : jstr) : bool :=
  existsb (fun o => co_value o =s value) ADVANCED_CUSTOM_CONVERTER_OPTIONS.

Definition getAdvancedCustomIncomingPathOptions (conv : jstr) : list LabelOption :=
  List.filter (fun o => isConverterPathAllowed (lo_value o) conv) ADVANCED_CUSTOM_INCOMING_PATH_OPTIONS.

Definition getDefaultAdvancedCustomIncomingPath (conv : jstr) : jstr :=
  or_default (lo_value <$> head (getAdvancedCustomIncomingPathOptions conv)) (js "/v1/chat/completions").

Definition isAdvancedCustomIncomingPathAllowed (incomingPath conv : jstr) : bool :=
  isConverterPathAllowed incomingPath conv.

Definition getAdvancedCustomNativeAuth (incomingPath : jstr) : AdvancedCustomRouteAuth :=
  if incomingPath =s claudeMessagesPath then apiKeyHeaderAuth
  else if includes (js ":generateContent") incomingPath ||
          includes (js ":streamGenerateContent") incomingPath ||
          includes (js ":embedContent") incomingPath ||
          includes (js ":batchEmbedContents") incomingPath then geminiQueryAuth
  else bearerHeaderAuth.

Record AdvancedCustomConverterDefaults := Defaults {
  d_upstream_path : jstr; d_auth : option AdvancedCustomRouteAuth }.

Definition getAdvancedCustomConverterDefaults (conv incomingPath : jstr) : AdvancedCustomConverterDefaults :=
  let normalizedIncomingPath := or_str (trim incomingPath) (getDefaultAdvancedCustomIncomingPath conv) in
  if conv =s c_none then
    Defaults normalizedIncomingPath (Some (getAdvancedCustomNativeAuth normalizedIncomingPath))
  else if (conv =s c_anthropic_chat) || (conv =s c_gemini_chat) || (conv =s c_responses_chat) then
    Defaults openAIChatPath (Some bearerHeaderAuth)
  else if conv =s c_chat_responses then Defaults openAIResponsesPath (Some bearerHeaderAuth)
  else if conv =s c_chat_anthropic then Defaults claudeMessagesPath (Some apiKeyHeaderAuth)
  else if (conv =s c_chat_gemini) || (conv =s c_responses_gemini) then
    Defaults geminiGenerateContentPath (Some geminiQueryAuth)
  else Defaults (or_str normalizedIncomingPath openAIChatPath)
                (Some (getAdvancedCustomNativeAuth normalizedIncomingPath)).

(** The second argument defaults to the converter's default path. *)
Definition getAdvancedCustomUpstreamPathPlaceholder (conv : jstr) (incomingPath : option jstr) : jstr :=
  d_upstream_path (getAdvancedCustomConverterDefaults conv
    (incomingPath ?? getDefaultAdvancedCustomIncomingPath conv)).

Definition getAdvancedCustomConverterOptions (incomingPath : jstr) : list ConverterOption :=
  let normalizedIncomingPath := trim incomingPath in
  List.filter (fun o => (co_value o =s c_none) || isConverterPathAllowed normalizedIncomingPath (co_value o))
    ADVANCED_CUSTOM_CONVERTER_OPTIONS.

Definition getAdvancedCustomIncomingPathLabel (value : jstr) : jstr :=
  or_default (lo_label <$> List.find (fun o => lo_value o =s value) ADVANCED_CUSTOM_INCOMING_PATH_OPTIONS) value.

(** * Model rules *)

Definition ADVANCED_CUSTOM_MODEL_REGEX_PREFIX : jstr := js "re:".

Definition parseAdvancedCustomRouteModels (value : jstr) : list jstr :=
  uniq (List.filter truthy (List.map trim (split_unit 44 value))).

Inductive AdvancedCustomModelRuleKind := Exact | RegexRule.

Definition getAdvancedCustomModelRuleKind (modelRule : jstr) : AdvancedCustomModelRuleKind :=
  if starts_with ADVANCED_CUSTOM_MODEL_REGEX_PREFIX modelRule then RegexRule else Exact.

Definition getAdvancedCustomRegexModelPattern (modelRule : jstr) : jstr :=
  drop (length ADVANCED_CUSTOM_MODEL_REGEX_PREFIX) modelRule.

Definition isEmptyRegexRule (m : jstr) : bool :=
  match getAdvancedCustomModelRuleKind m with
  | RegexRule => negb (truthy (getAdvancedCustomRegexModelPattern m))
  | Exact => false
  end.

(** * Validation *)

(** What is known of an incoming path: the catch-all route and the rule of each
    model seen. *)
Record PathState := PathSt { catchAllIndex : option nat; pathModels : list (jstr * nat) }.

Definition ModelsByPath : Type := list (jstr * PathState).

Definition verr {A} (i : nat) (s : jstr) : AdvancedCustomValidationError + A := inl (VErr s (Some i)).

(** The loop over the models of one route. *)
Fixpoint checkModels (i : nat) (seen : list jstr) (st : list (jstr * nat)) (ms : list jstr)
    : AdvancedCustomValidationError + list (jstr * nat) :=
  match ms with
  | [] => inr st
  | m :: t =>
      if isEmptyRegexRule m then verr i (js "Model regex cannot be empty")
      else if bool_decide (m ∈ seen) then verr i (js "Duplicate model in route models")
      else if is_some (map_get m st) then verr i (js "Route models must be unique for the same incoming path")
      else checkModels i (m :: seen) (map_set m i st) t
  end.

Definition validateAdvancedCustomRouteModels (i : nat) (incomingPath : jstr) (ms : list jstr) (byPath : ModelsByPath)
    : AdvancedCustomValidationError + ModelsByPath :=
  let state := map_get incomingPath byPath ?? PathSt None [] in
  match ms with
  | [] =>
      match catchAllIndex state with
      | Some _ => verr i (js "Only one catch-all route is allowed for the same incoming path")
      | None => inr (map_set incomingPath (PathSt (Some i) (pathModels state)) byPath)
      end
  | _ =>
      match catchAllIndex state with
      | Some _ => verr i (js "Catch-all route must be last for the same incoming path")
      | None =>
          match checkModels i [] (pathModels state) ms with
          | inl e => inl e
          | inr st => inr (map_set incomingPath (PathSt None st) byPath)
          end
      end
  end.

Definition validateRouteAuth (a : option AdvancedCustomRouteAuth) : option jstr :=
  match a with
  | None => None
  | Some a =>
      let isType v := match auth_type a with Some t => t =s v | None => false end in
      if isType (js "none") then None
      else if (negb (isType (js "header")) && negb (isType (js "query")))%bool then Some (js "Auth type is invalid")
      else if negb (truthy (trimmed_or_empty (auth_name a))) then Some (js "Auth name is required")
      else if negb (truthy (trimmed_or_empty (auth_value a))) then Some (js "Auth value is required")
      else None
  end.

Section Validate.
(** [new URL(value)]: host and protocol, [None] when it throws. *)
Context (parse_url : jstr -> option (jstr * jstr)).

Definition isFullHttpURLOrAbsolutePath (value : jstr) : bool :=
  if starts_with (js "/") value then negb (starts_with (js "//") value)
  else match parse_url value with
       | Some (host, protocol) =>
           truthy host && ((protocol =s js "http:") || (protocol =s js "https:"))
       | None => false
       end.

Record VState := VSt {
  byPath : ModelsByPath;
  modelListRouteIndex : option nat;
  balanceRouteIndex : option nat
}.

Definition sumBind {E A B} (x : E + A) (f : A -> E + B) : E + B :=
  match x with inl e => inl e | inr a => f a end.

(** The block on management paths: the indices after it. *)
Definition checkManagement (i : nat) (incomingPath upstreamPath conv : jstr) (ms : list jstr) (s : VState)
    : AdvancedCustomValidationError + VState :=
  if negb (isAdvancedCustomManagementPath incomingPath) then inr s
  else
    let isModelListRoute := incomingPath =s ADVANCED_CUSTOM_MODEL_LIST_PATH in
    let existingIndex := if isModelListRoute then modelListRouteIndex s else balanceRouteIndex s in
    let routeLabel := if isModelListRoute then js "OpenAI Models" else js "Balance Query" in
    match existingIndex with
    | Some _ => verr i (js "Only one " ++ routeLabel ++ js " route is allowed")
    | None =>
        let s' := if isModelListRoute then VSt (byPath s) (Some i) (balanceRouteIndex s)
                  else VSt (byPath s) (modelListRouteIndex s) (Some i) in
        if Nat.ltb 0 (length ms) then verr i (routeLabel ++ js " route does not support client model rules")
        else if negb (conv =s c_none) then verr i (routeLabel ++ js " route must use native forwarding")
        else if includes (js "{model}") upstreamPath
          then verr i (routeLabel ++ js " upstream path must not contain {model}")
        else inr s'
    end.

(** One round of the loop over the normalized routes. *)
Definition checkRoute (i : nat) (route : AdvancedCustomRoute) (s : VState) : AdvancedCustomValidationError + VState :=
  let incomingPath := trimmed_or_empty (incoming_path route) in
  let upstreamPath := getAdvancedCustomRouteUpstreamPath route in
  let conv := or_default (converter route) c_none in
  let routeModels := normalizeAdvancedCustomRouteModels (models route) in
  if negb (truthy incomingPath) then verr i (js "Incoming path is required")
  else if negb (starts_with (js "/") incomingPath) then verr i (js "Incoming path must start with /")
  else if includes (js "?") incomingPath then verr i (js "Incoming path must not include query")
  else
    sumBind (checkManagement i incomingPath upstreamPath conv routeModels s) (fun s1 =>
    sumBind (validateAdvancedCustomRouteModels i incomingPath routeModels (byPath s1)) (fun bp =>
    if negb (truthy upstreamPath) then verr i (js "Upstream path is required")
    else if negb (isFullHttpURLOrAbsolutePath upstreamPath)
      then verr i (js "Upstream path must be a full URL or a path starting with /")
    else if negb (isAdvancedCustomConverter conv) then verr i (js "Converter is not registered")
    else if negb (isConverterPathAllowed incomingPath conv) then verr i (js "Converter does not match incoming path")
    else match validateRouteAuth (auth route) with
         | Some authError => verr i authError
         | None => inr (VSt bp (modelListRouteIndex s1) (balanceRouteIndex s1))
         end)).

Fixpoint checkRoutes (i : nat) (routes : list AdvancedCustomRoute) (s : VState) : option AdvancedCustomValidationError :=
  match routes with
  | [] => None
  | r :: t =>
      match checkRoute i r s with
      | inl e => Some e
      | inr s' => checkRoutes (S i) t s'
      end
  end.

Definition validateAdvancedCustomConfig (config : option AdvancedCustomConfig) : option AdvancedCustomValidationError :=
  match config with
  | None => Some (VErr (js "Advanced custom configuration is required") None)
  | Some config =>
      let routes := routesOf config in
      if Nat.eqb (length routes) 0
      then Some (VErr (js "Advanced custom configuration requires at least one route") None)
      else checkRoutes 0 routes (VSt [] None None)
  end.

Definition hasValidAdvancedCustomModelListRoute (config : option AdvancedCustomConfig) : bool :=
  match config with
  | None => false
  | Some c =>
      if is_some (validateAdvancedCustomConfig config) then false
      else existsb (hasPath ADVANCED_CUSTOM_MODEL_LIST_PATH) (routesOf c)
  end.
End Validate.

Definition advancedCustomConfigUsesRelativeUpstreamPath (config : option AdvancedCustomConfig) : bool :=
  match config with
  | None => false
  | Some c => existsb (fun r => starts_with (js "/") (getAdvancedCustomRouteUpstreamPath r)) (routesOf c)
  end.

(** * JSON *)

(** What a field read from JSON gives a reader that takes a falsy value as
    absent: [Some None] for undefined and null, [None] for another type. *)
Definition opt_str (v : jv) : option (option jstr) :=
  match v with
  | JUndef | JNull => Some None
  | JStr s => Some (Some s)
  | _ => None
  end.

Fixpoint all_some {A} (l : list (option A)) : option (list A) :=
  match l with
  | [] => Some []
  | Some x :: t => match all_some t with Some r => Some (x :: r) | None => None end
  | None :: _ => None
  end.

Definition auth_of_jv (v : jv) : option (option AdvancedCustomRouteAuth) :=
  match v with
  | JUndef | JNull => Some None
  | JObj _ =>
      match jv_get v (js "type"), opt_str (jv_get v (js "name")), opt_str (jv_get v (js "value")) with
      | JUndef, Some n, Some x => Some (Some (Auth None n x))
      | JStr t, Some n, Some x => Some (Some (Auth (Some t) n x))
      | _, _, _ => None
      end
  | _ => None
  end.

(** A value that is not an array of models counts as absent. *)
Definition models_of_jv (v : jv) : option (option (list jstr)) :=
  match v with
  | JArr l => match all_some (List.map (fun x => match x with JStr s => Some s | _ => None end) l) with
              | Some ms => Some (Some ms)
              | None => None
              end
  | _ => Some None
  end.

Definition route_of_jv (v : jv) : option AdvancedCustomRoute :=
  match v with
  | JObj _ =>
      match opt_str (jv_get v (js "incoming_path")), opt_str (jv_get v (js "upstream_path")),
            opt_str (jv_get v (js "converter")), models_of_jv (jv_get v (js "models")),
            auth_of_jv (jv_get v (js "auth")) with
      | Some i, Some u, Some c, Some m, Some a => Some (Route i u c m a)
      | _, _, _, _, _ => None
      end
  | _ => None
  end.

(** The cast [parsed as AdvancedCustomConfig]: [None] when a field does not
    have its declared type, where the program's types say nothing. *)
Definition config_of_jv (v : jv) : option AdvancedCustomConfig :=
  match jv_get v (js "advanced_routes") with
  | JArr l => match all_some (List.map route_of_jv l) with
              | Some rs => Some (Config (Some rs))
              | None => None
              end
  | _ => Some (Config None)
  end.

Inductive ParsedConfig :=
| ParsedNull                                (** the function returns [null] *)
| ParsedConfigOk (c : AdvancedCustomConfig)
| ParsedIllTyped.                           (** a field is not of its declared type *)

Definition parseAdvancedCustomConfig (value : option jstr) : ParsedConfig :=
  match value with
  | None => ParsedNull
  | Some value =>
      if negb (truthy (trim value)) then ParsedNull
      else match json_parse value with
           | None => ParsedNull
           | Some parsed =>
               if (negb (jv_truthy parsed) || negb (is_object parsed) || is_array parsed)%bool
               then ParsedNull
               else match config_of_jv parsed with
                    | Some c => ParsedConfigOk (normalizeAdvancedCustomConfig c)
                    | None => ParsedIllTyped
                    end
           end
  end.

Definition opt_jv (o : option jstr) : jv := match o with Some s => JStr s | None => JUndef end.

(** A property that is undefined is not printed, so it is left out here. *)
Definition prop (k : string) (v : jv) : list (jstr * jv) :=
  match v with JUndef => [] | _ => [(js k, v)] end.

Definition jv_of_auth (a : AdvancedCustomRouteAuth) : jv :=
  JObj (prop "type" (opt_jv (auth_type a)) ++ prop "name" (opt_jv (auth_name a)) ++
        prop "value" (opt_jv (auth_value a))).

Definition jv_of_route (r : AdvancedCustomRoute) : jv :=
  JObj (prop "incoming_path" (opt_jv (incoming_path r)) ++ prop "upstream_path" (opt_jv (upstream_path r)) ++
        prop "converter" (opt_jv (converter r)) ++
        prop "models" (match models r with Some l => JArr (List.map JStr l) | None => JUndef end) ++
        prop "auth" (match auth r with Some a => jv_of_auth a | None => JUndef end)).

Definition jv_of_config (c : AdvancedCustomConfig) : jv :=
  JObj (prop "advanced_routes"
    (match advanced_routes c with Some l => JArr (List.map jv_of_route l) | None => JUndef end)).

Definition stringifyAdvancedCustomConfig (config : AdvancedCustomConfig) : jstr :=
  json_stringify2 (jv_of_config (normalizeAdvancedCustomConfig config)).

(** * Summaries *)

Definition getAdvancedCustomRouteSummaryLabel (route : AdvancedCustomRoute) : option jstr :=
  let incomingPath := trimmed_or_empty (incoming_path route) in
  if negb (truthy incomingPath) then None
  else Some (or_default (map_get incomingPath ADVANCED_CUSTOM_ROUTE_SUMMARY_LABELS)
               (getAdvancedCustomIncomingPathLabel incomingPath)).

Record AdvancedCustomStats := Stats { routeCount : nat; valid : bool; routeTypeLabels : list jstr }.

Definition getAdvancedCustomStats (parse_url : jstr -> option (jstr * jstr)) (value : option jstr) : option AdvancedCustomStats :=
  match parseAdvancedCustomConfig value with
  | ParsedNull => Some (Stats 0 false [])
  | ParsedConfigOk config =>
      let routes := routesOf config in
      Some (Stats (length routes)
        (negb (is_some (validateAdvancedCustomConfig parse_url (Some (normalizeAdvancedCustomConfig config)))))
        (uniq (List.filter truthy (omap getAdvancedCustomRouteSummaryLabel routes))))
  | ParsedIllTyped => None
  end.

Definition getAdvancedCustomAuthMode (route : AdvancedCustomRoute) : jstr :=
  match auth route with
  | Some a => or_default (auth_type a) (js "default")
  | None => js "default"
  end.

Definition buildAdvancedCustomAuth (mode : jstr) (previousAuth : option AdvancedCustomRouteAuth) : option AdvancedCustomRouteAuth :=
  if mode =s js "default" then None
  else if mode =s js "none" then Some (Auth (Some (js "none")) None None)
  else
    let pname := match previousAuth with Some a => auth_name a | None => None end in
    let pvalue := match previousAuth with Some a => auth_value a | None => None end in
    if mode =s js "header" then
      Some (Auth (Some (js "header")) (Some (or_default pname (js "Authorization")))
                 (Some (or_default pvalue (js "Bearer {api_key}"))))
    else
      Some (Auth (Some (js "query")) (Some (or_default pname (js "api_key")))
                 (Some (or_default pvalue (js "{api_key}")))).

(** * What validation accepts *)

Definition r_path (r : AdvancedCustomRoute) : jstr := trimmed_or_empty (incoming_path r).
Definition r_models (r : AdvancedCustomRoute) : list jstr := normalizeAdvancedCustomRouteModels (models r).
Definition r_conv (r : AdvancedCustomRoute) : jstr := or_default (converter r) c_none.

(** A route that is right by itself. *)
Record route_ok (parse_url : jstr -> option (jstr * jstr)) (r : AdvancedCustomRoute) : Prop := {
  ok_path : starts_with (js "/") (r_path r) = true;
  ok_query : includes (js "?") (r_path r) = false;
  ok_management : isAdvancedCustomManagementPath (r_path r) = true ->
    r_models r = [] /\ r_conv r = c_none /\
    includes (js "{model}") (getAdvancedCustomRouteUpstreamPath r) = false;
  ok_models : NoDup (r_models r);
  ok_regex : Forall (fun m => isEmptyRegexRule m = false) (r_models r);
  ok_upstream : isFullHttpURLOrAbsolutePath parse_url (getAdvancedCustomRouteUpstreamPath r) = true;
  ok_upstream_set : getAdvancedCustomRouteUpstreamPath r <> [];
  ok_registered : isAdvancedCustomConverter (r_conv r) = true;
  ok_converter : isConverterPathAllowed (r_path r) (r_conv r) = true;
  ok_auth : validateRouteAuth (auth r) = None
}.

(** [r2] may follow [r1]: on the same path, [r1] is no catch-all and they share
    no model rule. *)
Definition may_follow (r1 r2 : AdvancedCustomRoute) : Prop :=
  r_path r1 = r_path r2 -> r_models r1 <> [] /\ (forall x, x ∈ r_models r1 -> x ∉ r_models r2).

Definition routes_ok (parse_url : jstr -> option (jstr * jstr)) (rs : list AdvancedCustomRoute) : Prop :=
  Forall (route_ok parse_url) rs /\ ForallOrdPairs may_follow rs.

Definition path_state (bp : ModelsByPath) (p : jstr) : PathState := map_get p bp ?? PathSt None [].

(** What the map of paths knows after the routes [rs]. *)
Record tracks_paths (rs : list AdvancedCustomRoute) (bp : ModelsByPath) : Prop := {
  tr_catch p : is_some (catchAllIndex (path_state bp p)) = true <->
               exists r, r ∈ rs /\ r_path r = p /\ r_models r = [];
  tr_models p x : is_some (map_get x (pathModels (path_state bp p))) = true <->
                  exists r, r ∈ rs /\ r_path r = p /\ x ∈ r_models r
}.

(** What the loop knows after the routes [rs]. *)
Record tracks (rs : list AdvancedCustomRoute) (s : VState) : Prop := {
  tr_paths : tracks_paths rs (byPath s);
  tr_list : is_some (modelListRouteIndex s) = true <->
            exists r, r ∈ rs /\ r_path r = ADVANCED_CUSTOM_MODEL_LIST_PATH;
  tr_balance : is_some (balanceRouteIndex s) = true <->
               exists r, r ∈ rs /\ r_path r = ADVANCED_CUSTOM_BALANCE_PATH
}.

Lemma tracks_nil : tracks [] (VSt [] None None).
Proof. split; [split|..]; intros; simpl; set_solver. Qed.

Lemma exists_snoc (P : AdvancedCustomRoute -> Prop) rs r :
  (exists x, x ∈ rs ++ [r] /\ P x) <-> (exists x, x ∈ rs /\ P x) \/ P r.
Proof. set_solver. Qed.

(** The inner loop over the models of a route. *)
Lemma checkModels_spec i ms : forall seen st,
  match checkModels i seen st ms with
  | inl e => routeIndex e = Some i /\
      ~ (Forall (fun m => isEmptyRegexRule m = false) ms /\ NoDup ms /\
         (forall x, x ∈ ms -> x ∉ seen /\ map_get x st = None))
  | inr st' =>
      Forall (fun m => isEmptyRegexRule m = false) ms /\ NoDup ms /\
      (forall x, x ∈ ms -> x ∉ seen /\ map_get x st = None) /\
      (forall x, is_some (map_get x st') = true <-> is_some (map_get x st) = true \/ x ∈ ms)
  end.
Proof.
  induction ms as [|m t IH]; intros seen st; simpl.
  { do 2 (split; [constructor|]). split; [set_solver|]. intros x. set_solver. }
  destruct (isEmptyRegexRule m) eqn:Er.
  { split; [done|]. intros (Hf & _). apply Forall_cons in Hf. naive_solver congruence. }
  case_bool_decide as Hs.
  { split; [done|]. intros (_ & _ & H). destruct (H m); set_solver. }
  destruct (is_some (map_get m st)) eqn:Em.
  { split; [done|]. intros (_ & _ & H). destruct (H m) as [_ Hn]; [set_solver|].
    by rewrite Hn in Em. }
  specialize (IH (m :: seen) (map_set m i st)).
  destruct (checkModels i (m :: seen) (map_set m i st) t) as [e|st'].
  - destruct IH as [He Hbad]. split; [done|]. intros (Hf & Hnd & Hx). apply Hbad.
    apply Forall_cons in Hf as [_ Hf]. apply NoDup_cons in Hnd as [Hni Hnd].
    do 2 (split; [done|]). intros x Hin. assert (x <> m) by (intros ->; done).
    rewrite map_get_set_ne by done. destruct (Hx x); [set_solver|].
    split; [set_solver|done].
  - destruct IH as (Hf & Hnd & Hx & Hk). split; [by constructor|].
    split. { constructor; [|done]. intros Hin. destruct (Hx m Hin). set_solver. }
    split.
    + intros x [->|Hin]%elem_of_cons.
      { split; [done|]. by destruct (map_get m st). }
      destruct (Hx x Hin) as [Hns Hg]. split; [set_solver|].
      rewrite map_get_set_ne in Hg; [done|set_solver].
    + intros x. rewrite Hk, elem_of_cons. destruct (decide (x = m)) as [->|Hne].
      * rewrite map_get_set_eq. simpl. naive_solver.
      * rewrite map_get_set_ne by done. naive_solver.
Qed.

Lemma path_state_set p st bp q :
  path_state (map_set p st bp) q = if decide (q = p) then st else path_state bp q.
Proof.
  unfold path_state. case_decide as E; subst.
  - by rewrite map_get_set_eq.
  - by rewrite map_get_set_ne.
Qed.

Definition models_ok (r : AdvancedCustomRoute) : Prop :=
  NoDup (r_models r) /\ Forall (fun m => isEmptyRegexRule m = false) (r_models r).

(** Without a catch-all before it, a route follows the others when its rules are new. *)
Lemma may_follow_all rs bp r :
  tracks_paths rs bp -> catchAllIndex (path_state bp (r_path r)) = None ->
  Forall (fun x => may_follow x r) rs <->
  (forall x, x ∈ r_models r -> map_get x (pathModels (path_state bp (r_path r))) = None).
Proof.
  intros [Hc Hm] Hn. rewrite Forall_forall. split.
  - intros HF x Hx. destruct (map_get x _) eqn:E; [|done].
    destruct (proj1 (Hm (r_path r) x)) as (r1 & Hin & Hp & Hx1); [by rewrite E|].
    destruct (HF r1 Hin Hp) as [_ Hd]. by destruct (Hd x Hx1).
  - intros Hx r1 Hin Hp. split.
    + intros Hnil. assert (is_some (catchAllIndex (path_state bp (r_path r))) = true) as H.
      { apply Hc. by exists r1. }
      by rewrite Hn in H.
    + intros x Hx1 Hx2. assert (is_some (map_get x (pathModels (path_state bp (r_path r)))) = true) as H.
      { apply Hm. by exists r1. }
      by rewrite (Hx x Hx2) in H.
Qed.

Lemma tracks_paths_snoc rs bp r st :
  tracks_paths rs bp ->
  (is_some (catchAllIndex st) = true <->
     is_some (catchAllIndex (path_state bp (r_path r))) = true \/ r_models r = []) ->
  (forall x, is_some (map_get x (pathModels st)) = true <->
     is_some (map_get x (pathModels (path_state bp (r_path r)))) = true \/ x ∈ r_models r) ->
  tracks_paths (rs ++ [r]) (map_set (r_path r) st bp).
Proof.
  intros [Hc Hm] Hsc Hsm. split; intros p.
  - rewrite path_state_set, exists_snoc. case_decide as E; subst; [rewrite Hsc|]; rewrite Hc; naive_solver.
  - intros x. rewrite path_state_set, exists_snoc. case_decide as E; subst; [rewrite Hsm|]; rewrite Hm; naive_solver.
Qed.

Lemma routeModels_step i r rs bp :
  tracks_paths rs bp ->
  match validateAdvancedCustomRouteModels i (r_path r) (r_models r) bp with
  | inl e => routeIndex e = Some i /\ ~ (models_ok r /\ Forall (fun x => may_follow x r) rs)
  | inr bp' => models_ok r /\ Forall (fun x => may_follow x r) rs /\ tracks_paths (rs ++ [r]) bp'
  end.
Proof.
  intros Ht. unfold validateAdvancedCustomRouteModels. fold (path_state bp (r_path r)).
  destruct (catchAllIndex (path_state bp (r_path r))) as [j|] eqn:Ec.
  - (* a catch-all route came before *)
    destruct (proj1 (tr_catch _ _ Ht (r_path r))) as (r1 & Hin & Hp & Hnil); [by rewrite Ec|].
    assert (~ Forall (fun x => may_follow x r) rs).
    { rewrite Forall_forall. intros HF. by destruct (HF r1 Hin Hp). }
    destruct (r_models r); (split; [done|]); naive_solver.
  - pose proof (may_follow_all rs bp r Ht Ec) as Hmf.
    destruct (r_models r) as [|m0 t0] eqn:Em.
    + split; [unfold models_ok; rewrite Em; split; constructor|].
      split; [apply Hmf; set_solver|].
      apply tracks_paths_snoc; simpl; [done|naive_solver|intros x; rewrite Em; set_solver].
    + pose proof (checkModels_spec i (m0 :: t0) [] (pathModels (path_state bp (r_path r)))) as Hcm.
      destruct (checkModels i [] _ (m0 :: t0)) as [e|st'].
      * destruct Hcm as [He Hbad]. split; [done|]. intros [[Hnd Hrx] HF]. rewrite Em in *.
        apply Hbad. do 2 (split; [done|]). intros x Hx. split; [set_solver|]. by apply Hmf.
      * destruct Hcm as (Hrx & Hnd & Hx & Hk).
        split; [unfold models_ok; rewrite Em; done|].
        split; [apply Hmf; intros x Hin; by apply Hx|].
        apply tracks_paths_snoc; simpl; [done|rewrite Ec, Em; naive_solver|].
        intros x. by rewrite Hk, Em.
Qed.

Lemma management_path p : isAdvancedCustomManagementPath p = true <->
  p = ADVANCED_CUSTOM_MODEL_LIST_PATH \/ p = ADVANCED_CUSTOM_BALANCE_PATH.
Proof. unfold isAdvancedCustomManagementPath. by rewrite orb_true_iff, !jstr_eqb_true. Qed.

(** A management path that was seen before cannot be followed. *)
Lemma management_seen parse_url rs r :
  isAdvancedCustomManagementPath (r_path r) = true -> Forall (route_ok parse_url) rs ->
  (exists r1, r1 ∈ rs /\ r_path r1 = r_path r) -> ~ Forall (fun x => may_follow x r) rs.
Proof.
  rewrite !Forall_forall. intros Hmg Hok (r1 & Hin & Hp) HF.
  destruct (HF r1 Hin Hp) as [Hne _]. apply Hne.
  by apply (ok_management _ _ (Hok r1 Hin)); rewrite Hp.
Qed.

Definition management_ok (r : AdvancedCustomRoute) : Prop :=
  isAdvancedCustomManagementPath (r_path r) = true ->
  r_models r = [] /\ r_conv r = c_none /\
  includes (js "{model}") (getAdvancedCustomRouteUpstreamPath r) = false.

Lemma management_step parse_url i r rs s :
  tracks rs s -> Forall (route_ok parse_url) rs ->
  match checkManagement i (r_path r) (getAdvancedCustomRouteUpstreamPath r) (r_conv r) (r_models r) s with
  | inl e => routeIndex e = Some i /\ ~ (management_ok r /\ Forall (fun x => may_follow x r) rs)
  | inr s' => management_ok r /\ byPath s' = byPath s /\
      (is_some (modelListRouteIndex s') = true <->
         is_some (modelListRouteIndex s) = true \/ r_path r = ADVANCED_CUSTOM_MODEL_LIST_PATH) /\
      (is_some (balanceRouteIndex s') = true <->
         is_some (balanceRouteIndex s) = true \/ r_path r = ADVANCED_CUSTOM_BALANCE_PATH)
  end.
Proof.
  intros [_ Hl Hb] Hok. unfold checkManagement, management_ok.
  destruct (isAdvancedCustomManagementPath (r_path r)) eqn:Em; simpl.
  2: { assert (r_path r <> ADVANCED_CUSTOM_MODEL_LIST_PATH /\ r_path r <> ADVANCED_CUSTOM_BALANCE_PATH)
         by (split; intros E; rewrite E in Em; done). naive_solver. }
  pose proof (management_seen parse_url rs r Em Hok) as Hseen.
  assert (Hne : ADVANCED_CUSTOM_MODEL_LIST_PATH <> ADVANCED_CUSTOM_BALANCE_PATH) by done.
  pose proof (proj1 (management_path _) Em) as Hmp.
  destruct (r_path r =s ADVANCED_CUSTOM_MODEL_LIST_PATH) eqn:El;
    [apply jstr_eqb_true in El; destruct (modelListRouteIndex s) eqn:Ei
    |apply jstr_eqb_false in El; destruct (balanceRouteIndex s) eqn:Ei];
    simpl in Hl, Hb.
  1, 3: split; [done|]; intros [_ HF]; destruct Hseen; [|done]; naive_solver congruence.
  all: destruct (r_models r) as [|m t] eqn:Er; simpl; [|split; [done|]; naive_solver].
  all: destruct (r_conv r =s c_none) eqn:Ecv; simpl;
    [apply jstr_eqb_true in Ecv|apply jstr_eqb_false in Ecv; split; [done|]; naive_solver].
  all: destruct (includes _ _) eqn:Eu; [split; [done|]; naive_solver congruence|].
  all: simpl; rewrite ?Ei; simpl; naive_solver congruence.
Qed.

Lemma sumBind_inl {E A B} (x : E + A) (f : A -> E + B) e :
  x = inl e -> sumBind x f = inl e.
Proof. by intros ->. Qed.

(** One round of the loop: either the route is accepted after the earlier ones,
    or the error names its index. *)
Lemma checkRoute_step parse_url i r rs s :
  tracks rs s -> Forall (route_ok parse_url) rs ->
  match checkRoute parse_url i r s with
  | inl e => routeIndex e = Some i /\ ~ (route_ok parse_url r /\ Forall (fun x => may_follow x r) rs)
  | inr s' => route_ok parse_url r /\ Forall (fun x => may_follow x r) rs /\ tracks (rs ++ [r]) s'
  end.
Proof.
  intros Ht Hok. unfold checkRoute.
  change (trimmed_or_empty (incoming_path r)) with (r_path r).
  change (normalizeAdvancedCustomRouteModels (models r)) with (r_models r).
  change (or_default (converter r) c_none) with (r_conv r).
  destruct (truthy (r_path r)) eqn:Ep; simpl.
  2: { split; [done|]. intros [[Hp] _]. apply truthy_false in Ep. by rewrite Ep in Hp. }
  destruct (starts_with (js "/") (r_path r)) eqn:Es; simpl.
  2: { split; [done|]. intros [[Hp] _]. congruence. }
  destruct (includes (js "?") (r_path r)) eqn:Eq; simpl.
  1: { split; [done|]. intros [[] _]. congruence. }
  pose proof (management_step parse_url i r rs s Ht Hok) as Hm.
  destruct (checkManagement i _ _ _ _ s) as [e|s1]; simpl.
  { destruct Hm as [He Hm]. split; [done|]. intros [[] HF]. by apply Hm. }
  destruct Hm as (Hmok & Hbp & Hl & Hb). rewrite Hbp.
  pose proof (routeModels_step i r rs (byPath s) (tr_paths _ _ Ht)) as Hr.
  destruct (validateAdvancedCustomRouteModels _ _ _ _) as [e|bp]; simpl.
  { destruct Hr as [He Hr]. split; [done|]. intros [[] HF]. by apply Hr. }
  destruct Hr as ((Hnd & Hrx) & HF & Htp).
  destruct (truthy (getAdvancedCustomRouteUpstreamPath r)) eqn:Eu; simpl.
  2: { split; [done|]. intros [[] _]. by apply truthy_false in Eu. }
  destruct (isFullHttpURLOrAbsolutePath _ _) eqn:Ef; simpl.
  2: { split; [done|]. intros [[] _]. congruence. }
  destruct (isAdvancedCustomConverter _) eqn:Ec; simpl.
  2: { split; [done|]. intros [[] _]. congruence. }
  destruct (isConverterPathAllowed _ _) eqn:Ea; simpl.
  2: { split; [done|]. intros [[] _]. congruence. }
  destruct (validateRouteAuth _) as [err|] eqn:Eau; simpl.
  { split; [done|]. intros [[] _]. congruence. }
  split; [apply truthy_true in Eu; by split|]. split; [done|].
  split; simpl; [done|..]; rewrite ?Hl, ?Hb, exists_snoc; destruct Ht as [_ Hl0 Hb0]; rewrite ?Hl0, ?Hb0; naive_solver.
Qed.

Lemma ForallOrdPairs_app_2 {A} (R : A -> A -> Prop) (l : list A) x :
  ForallOrdPairs R (l ++ [x]) <-> ForallOrdPairs R l /\ Forall (fun y => R y x) l.
Proof.
  induction l as [|y l IH]; simpl.
  - split; [intros _; split; constructor|intros _; repeat constructor].
  - split.
    + inversion 1 as [|? ? Hy Hl]; subst. apply IH in Hl as [Hl Hx].
      apply Forall_app in Hy as [Hy1 Hy2]. inversion Hy2; subst. repeat constructor; auto.
    + intros [Hl Hx]. inversion Hl; subst. inversion Hx; subst. constructor.
      * apply Forall_app. auto.
      * apply IH. auto.
Qed.

Lemma routes_ok_snoc parse_url rs r : routes_ok parse_url (rs ++ [r]) <->
  routes_ok parse_url rs /\ route_ok parse_url r /\ Forall (fun x => may_follow x r) rs.
Proof.
  unfold routes_ok. rewrite Forall_app, ForallOrdPairs_app_2.
  rewrite Forall_singleton. tauto.
Qed.

Lemma routes_ok_prefix parse_url rs rs' : routes_ok parse_url (rs ++ rs') -> routes_ok parse_url rs.
Proof.
  induction rs' as [|r rs' IH] using rev_ind; [by rewrite app_nil_r|].
  rewrite app_assoc. intros H. apply IH. apply routes_ok_snoc in H as [H _]. exact H.
Qed.

Lemma checkRoutes_spec parse_url l : forall rs s,
  tracks rs s -> routes_ok parse_url rs ->
  match checkRoutes parse_url (length rs) l s with
  | None => routes_ok parse_url (rs ++ l)
  | Some e => exists l1 r l2, l = l1 ++ r :: l2 /\ routeIndex e = Some (length (rs ++ l1)) /\
      routes_ok parse_url (rs ++ l1) /\ ~ routes_ok parse_url (rs ++ l1 ++ [r])
  end.
Proof.
  induction l as [|r l IH]; intros rs s Ht Hok; simpl; [by rewrite app_nil_r|].
  pose proof (checkRoute_step parse_url (length rs) r rs s Ht (proj1 Hok)) as Hs.
  destruct (checkRoute parse_url (length rs) r s) as [e|s'].
  - exists [], r, l. rewrite app_nil_r. destruct Hs as [He Hbad].
    repeat split; try apply Hok; try done. simpl. by rewrite routes_ok_snoc; intros [_ ?].
  - destruct Hs as (Hr & HF & Ht'). specialize (IH (rs ++ [r]) s' Ht').
    rewrite length_app, Nat.add_1_r in IH.
    assert (Hok' : routes_ok parse_url (rs ++ [r])) by (apply routes_ok_snoc; auto).
    specialize (IH Hok'). destruct (checkRoutes _ _ _ _) as [e|].
    + destruct IH as (l1 & r' & l2 & -> & He & H1 & H2). exists (r :: l1), r', l2.
      rewrite <-!app_assoc in *. done.
    + by rewrite <-app_assoc in IH.
Qed.

Lemma validate_ok_iff parse_url c :
  validateAdvancedCustomConfig parse_url (Some c) = None <->
  routesOf c <> [] /\ routes_ok parse_url (routesOf c).
Proof.
  unfold validateAdvancedCustomConfig.
  destruct (routesOf c) as [|r rs] eqn:E; [naive_solver|]. cbn [length Nat.eqb].
  assert (H0 : routes_ok parse_url []) by (split; constructor).
  pose proof (checkRoutes_spec parse_url (r :: rs) [] _ tracks_nil H0) as H.
  cbn [length app] in H. destruct (checkRoutes _ _ _ _) as [e|].
  - destruct H as (l1 & r' & l2 & Hl & _ & _ & Hbad). split; [done|]. intros [_ Hok].
    destruct Hbad. rewrite Hl in Hok. simpl.
    change (r' :: l2) with ([r'] ++ l2) in Hok. rewrite app_assoc in Hok. by eapply routes_ok_prefix.
  - naive_solver.
Qed.

(** C10: the validation of a configuration accepts it exactly when it has a
    route, every route is right by itself (path, management rules, distinct
    non-empty model rules, upstream, converter and authentication), and on each
    incoming path no route comes after a catch-all nor repeats a model rule. *)
Theorem validate_accepts_iff parse_url c :
  validateAdvancedCustomConfig parse_url (Some c) = None <->
  routesOf c <> [] /\ routes_ok parse_url (routesOf c).
Proof. apply validate_ok_iff. Qed.

(** An error with an index names the first offending route: the routes
    before it are all right together, and they are not with it. *)
Theorem validate_error_first parse_url c e i :
  validateAdvancedCustomConfig parse_url (Some c) = Some e -> routeIndex e = Some i ->
  i < length (routesOf c) /\ routes_ok parse_url (take i (routesOf c)) /\
  ~ routes_ok parse_url (take (S i) (routesOf c)).
Proof.
  unfold validateAdvancedCustomConfig. destruct (Nat.eqb _ _); [by intros [= <-]|].
  assert (H0 : routes_ok parse_url []) by (split; constructor).
  pose proof (checkRoutes_spec parse_url (routesOf c) [] _ tracks_nil H0) as H.
  simpl length in H. intros He Hi. rewrite He in H.
  destruct H as (l1 & r & l2 & -> & Hi' & Hok & Hbad).
  rewrite Hi' in Hi. injection Hi as <-. simpl in *. rewrite length_app. simpl. split; [lia|].
  rewrite take_app_length. split; [done|].
  change (r :: l2) with ([r] ++ l2). rewrite app_assoc, take_app_length'; [done|].
  rewrite length_app. simpl. lia.
Qed.

(** Two catch-all routes of one path: the second is reported. *)
Definition twice_config : AdvancedCustomConfig :=
  Config (Some [createAdvancedCustomRoute; createAdvancedCustomRoute]).

Lemma validate_error_first_witness :
  1 < length (routesOf twice_config) /\ routes_ok (fun _ => None) (take 1 (routesOf twice_config)) /\
  ~ routes_ok (fun _ => None) (take 2 (routesOf twice_config)).
Proof.
  apply (validate_error_first (fun _ => None) twice_config
    (VErr (js "Only one catch-all route is allowed for the same incoming path") (Some 1)) 1);
    [vm_compute; reflexivity|reflexivity].
Defined.

(** Every template the page offers is accepted, whatever [new URL] does. *)
Theorem templates_valid parse_url :
  Forall (fun t => validateAdvancedCustomConfig parse_url (Some (t_config t)) = None)
    ADVANCED_CUSTOM_TEMPLATE_OPTIONS.
Proof. repeat constructor. Qed.

(** * Normalization *)

Lemma normalize_models_idem ms :
  normalizeAdvancedCustomRouteModels (Some (normalizeAdvancedCustomRouteModels ms)) =
  normalizeAdvancedCustomRouteModels ms.
Proof.
  destruct ms as [l|]; [|done]. simpl. induction l as [|x l IH]; simpl; [done|].
  destruct (truthy (trim x)) eqn:E; simpl; [|done]. by rewrite trim_idemp, E, IH.
Qed.

Lemma r_models_normalize r : r_models (normalizeAdvancedCustomRoute r) = r_models r.
Proof.
  unfold r_models, normalizeAdvancedCustomRoute. cbn [models].
  pose proof (normalize_models_idem (models r)) as H.
  by destruct (normalizeAdvancedCustomRouteModels (models r)).
Qed.

Lemma or_default_idem o d : or_default (Some (or_default o d)) d = or_default o d.
Proof. unfold or_default, or_str. simpl. destruct (truthy (or_empty o)) eqn:E; [by rewrite E|by destruct (truthy d)]. Qed.

Lemma normalize_route_idem r :
  normalizeAdvancedCustomRoute (normalizeAdvancedCustomRoute r) = normalizeAdvancedCustomRoute r.
Proof.
  pose proof (r_models_normalize r) as Hm. unfold r_models in Hm.
  destruct r as [ip up cv ms [[ty nm vl]|]]; unfold normalizeAdvancedCustomRoute at 1;
    rewrite Hm; unfold normalizeAdvancedCustomRoute; cbn -[trim]; f_equal;
    unfold getAdvancedCustomRouteUpstreamPath; cbn -[trim]; f_equal;
    try apply trim_idemp; apply or_default_idem.
Qed.

(** Normalization is idempotent, so every reader that normalizes again
    works on the same routes. *)
Theorem normalize_idempotent c :
  normalizeAdvancedCustomConfig (normalizeAdvancedCustomConfig c) = normalizeAdvancedCustomConfig c.
Proof.
  unfold normalizeAdvancedCustomConfig. simpl. do 2 f_equal. rewrite map_map.
  apply map_ext, normalize_route_idem.
Qed.

Lemma routesOf_normalized rs :
  Forall (fun r => normalizeAdvancedCustomRoute r = r) rs -> routesOf (Config (Some rs)) = rs.
Proof. induction 1 as [|r rs Hr _ IH]; [done|]. unfold routesOf in *. simpl in *. by rewrite Hr, IH. Qed.

Lemma routesOf_all_normal c : Forall (fun r => normalizeAdvancedCustomRoute r = r) (routesOf c).
Proof.
  unfold routesOf. simpl. apply Forall_forall. intros r Hr.
  apply list_elem_of_In, in_map_iff in Hr as (r0 & <- & _). apply normalize_route_idem.
Qed.

(** * Management routes *)

Lemma find_index_spec {A} (p : A -> bool) l :
  match find_index p l with
  | Some i => exists l1 x l2, l = l1 ++ x :: l2 /\ length l1 = i /\ p x = true /\
                              Forall (fun y => p y = false) l1
  | None => Forall (fun y => p y = false) l
  end.
Proof.
  induction l as [|x l IH]; simpl; [constructor|].
  destruct (p x) eqn:E; [by exists [], x, l|].
  destruct (find_index p l) as [i|]; simpl; [|by constructor].
  destruct IH as (l1 & y & l2 & -> & <- & Hy & HF). exists (x :: l1), y, l2. auto.
Qed.

Lemma find_app_none {A} (p : A -> bool) l1 l2 :
  Forall (fun y => p y = false) l1 -> List.find p (l1 ++ l2) = List.find p l2.
Proof. induction 1 as [|x l Hx _ IH]; simpl; [done|]. by rewrite Hx. Qed.

Lemma routesOf_config_app l1 l2 : routesOf (Config (Some (l1 ++ l2))) =
  routesOf (Config (Some l1)) ++ routesOf (Config (Some l2)).
Proof. unfold routesOf. simpl. apply map_app. Qed.

Lemma hasPath_normalize path r :
  hasPath path (normalizeAdvancedCustomRoute r) = (trim (or_empty (incoming_path r)) =s path).
Proof. done. Qed.

(** The routes after a replacement, normalized. *)
Definition management_route (path : jstr) (route : AdvancedCustomRoute) : AdvancedCustomRoute :=
  normalizeAdvancedCustomRoute (Route (Some path) (upstream_path route) (Some c_none) None (auth route)).

Lemma replace_management_shape c path o :
  let routes := routesOf (replaceAdvancedCustomManagementRoute c path o) in
  (exists l1 x l2, routesOf c = l1 ++ x :: l2 /\ hasPath path x = true /\
     Forall (fun y => hasPath path y = false) l1 /\
     routes = l1 ++ (match o with Some r => [management_route path r] | None => [] end) ++ l2) \/
  (Forall (fun y => hasPath path y = false) (routesOf c) /\
     routes = routesOf c ++ (match o with Some r => [management_route path r] | None => [] end)).
Proof.
  pose proof (find_index_spec (hasPath path) (routesOf c)) as Hf.
  pose proof (routesOf_all_normal c) as Hn.
  unfold replaceAdvancedCustomManagementRoute. destruct (find_index _ _) as [i|].
  - destruct Hf as (l1 & x & l2 & E & <- & Hx & HF). left. exists l1, x, l2.
    do 3 (split; [done|]). rewrite E in *. apply Forall_app in Hn as [Hn1 Hn2].
    apply Forall_cons in Hn2 as [_ Hn2]. destruct o as [r|].
    + rewrite <-(Nat.add_0_r (length l1)), insert_app_r. simpl.
      rewrite routesOf_config_app, routesOf_normalized by done. f_equal.
      unfold routesOf. simpl. f_equal. by apply routesOf_normalized.
    + rewrite take_app_length, (drop_app_ge l1) by lia.
      rewrite Nat.sub_succ_l, Nat.sub_diag by lia. simpl. rewrite drop_0.
      by rewrite routesOf_normalized by (by apply Forall_app).
  - right. split; [done|]. destruct o as [r|].
    + rewrite routesOf_config_app, routesOf_normalized by done. done.
    + by rewrite app_nil_r, routesOf_normalized.
Qed.

Lemma hasPath_management_route path r :
  trim path = path -> hasPath path (management_route path r) = true.
Proof. intros H. unfold management_route. rewrite hasPath_normalize. simpl. by rewrite H, jstr_eqb_refl. Qed.

(** Setting the management route of a path makes it the one that is read
    back, and leaves every route of another path as it was, in order. *)
Theorem set_management_route c path r :
  trim path = path ->
  let c' := replaceAdvancedCustomManagementRoute c path (Some r) in
  getAdvancedCustomManagementRoute c' path = Some (management_route path r) /\
  List.filter (fun x => negb (hasPath path x)) (routesOf c') =
  List.filter (fun x => negb (hasPath path x)) (routesOf c).
Proof.
  intros Hp. cbv zeta. unfold getAdvancedCustomManagementRoute.
  pose proof (hasPath_management_route path r Hp) as Hm.
  destruct (replace_management_shape c path (Some r)) as
    [(l1 & x & l2 & E & Hx & HF & Er)|[HF Er]]; rewrite Er.
  - rewrite E, find_app_none by done. rewrite !List.filter_app. cbn [List.find List.filter app].
    by rewrite Hm, Hx.
  - rewrite find_app_none by done. rewrite List.filter_app. cbn [List.find List.filter].
    by rewrite Hm, app_nil_r.
Qed.

Lemma set_management_route_witness :
  let c' := replaceAdvancedCustomManagementRoute twice_config ADVANCED_CUSTOM_BALANCE_PATH
              (Some createAdvancedCustomRoute) in
  getAdvancedCustomManagementRoute c' ADVANCED_CUSTOM_BALANCE_PATH =
    Some (management_route ADVANCED_CUSTOM_BALANCE_PATH createAdvancedCustomRoute) /\
  List.filter (fun x => negb (hasPath ADVANCED_CUSTOM_BALANCE_PATH x)) (routesOf c') =
  List.filter (fun x => negb (hasPath ADVANCED_CUSTOM_BALANCE_PATH x)) (routesOf twice_config).
Proof. apply set_management_route. vm_compute. reflexivity. Defined.

(** Removing the management route of a path removes exactly the first route
    of that path, if any, and no route of another path. *)
Theorem remove_management_route c path :
  let c' := replaceAdvancedCustomManagementRoute c path None in
  List.filter (hasPath path) (routesOf c') = tail (List.filter (hasPath path) (routesOf c)) /\
  List.filter (fun x => negb (hasPath path x)) (routesOf c') =
  List.filter (fun x => negb (hasPath path x)) (routesOf c).
Proof.
  cbv zeta. destruct (replace_management_shape c path None) as
    [(l1 & x & l2 & E & Hx & HF & Er)|[HF Er]]; rewrite Er.
  - rewrite E, !List.filter_app. cbn [List.filter app]. by rewrite Hx, (filter_none _ l1).
  - by rewrite !app_nil_r, (filter_none _ (routesOf c)).
Qed.

(** Replacing the forwarding routes keeps the management routes, in order,
    and the forwarding routes of the result are exactly the given ones, in
    order, normalized. *)
Theorem replace_forwarding_routes c fwd :
  Forall (fun r => isManagementRoute (normalizeAdvancedCustomRoute r) = false) fwd ->
  let routes := routesOf (replaceAdvancedCustomForwardingRoutes c fwd) in
  List.filter isManagementRoute routes = List.filter isManagementRoute (routesOf c) /\
  List.filter (fun r => negb (isManagementRoute r)) routes = List.map normalizeAdvancedCustomRoute fwd.
Proof.
  intros Hfwd. cbv zeta.
  assert (Hr : forall l1 l2, Forall (fun r => normalizeAdvancedCustomRoute r = r) (l1 ++ l2) ->
    let l := routesOf (Config (Some (List.filter isManagementRoute l1 ++ fwd ++ List.filter isManagementRoute l2))) in
    List.filter isManagementRoute l = List.filter isManagementRoute (l1 ++ l2) /\
    List.filter (fun r => negb (isManagementRoute r)) l = List.map normalizeAdvancedCustomRoute fwd).
  { intros l1 l2 [Hn1 Hn2]%Forall_app. cbv zeta. rewrite !routesOf_config_app.
    rewrite !(routesOf_normalized (List.filter _ _)) by (by apply Forall_filter').
    assert (Ef : routesOf (Config (Some fwd)) = List.map normalizeAdvancedCustomRoute fwd) by done.
    rewrite Ef, !List.filter_app, !filter_filter_same, !filter_negb_same.
    rewrite (filter_none isManagementRoute (List.map _ fwd)) by (by apply Forall_map).
    rewrite (filter_all _ (List.map _ fwd)), app_nil_r; [done|]. apply Forall_map.
    eapply Forall_impl; [exact Hfwd|]. intros r Hr. by rewrite Hr. }
  pose proof (routesOf_all_normal c) as Hn.
  unfold replaceAdvancedCustomForwardingRoutes.
  destruct (find_index _ (routesOf c)) as [i|].
  - specialize (Hr (take i (routesOf c)) (drop i (routesOf c))). rewrite take_drop in Hr. auto.
  - specialize (Hr (routesOf c) []). rewrite app_nil_r in Hr. simpl in Hr. rewrite app_nil_r in Hr. auto.
Qed.

Lemma replace_forwarding_routes_witness :
  let routes := routesOf (replaceAdvancedCustomForwardingRoutes
    (Config (Some [createAdvancedCustomManagementRoute ADVANCED_CUSTOM_BALANCE_PATH; createAdvancedCustomRoute]))
    [createAdvancedCustomRoute]) in
  List.filter isManagementRoute routes =
    List.filter isManagementRoute (routesOf
      (Config (Some [createAdvancedCustomManagementRoute ADVANCED_CUSTOM_BALANCE_PATH; createAdvancedCustomRoute]))) /\
  List.filter (fun r => negb (isManagementRoute r)) routes =
    List.map normalizeAdvancedCustomRoute [createAdvancedCustomRoute].
Proof. apply replace_forwarding_routes. repeat constructor. Defined.

(** * Storing a configuration as text *)

(** The strings of a configuration, as JavaScript has them: 16-bit units. *)
Definition opt_units (o : option jstr) : Prop := match o with Some s => units_ok s | None => True end.

Record route_units (r : AdvancedCustomRoute) : Prop := {
  u_in : opt_units (incoming_path r);
  u_up : opt_units (upstream_path r);
  u_conv : opt_units (converter r);
  u_models : match models r with Some l => Forall units_ok l | None => True end;
  u_auth : match auth r with
           | Some a => opt_units (auth_type a) /\ opt_units (auth_name a) /\ opt_units (auth_value a)
           | None => True
           end
}.

Definition config_units (c : AdvancedCustomConfig) : Prop := Forall route_units (routesOf c).

Lemma read_models l : models_of_jv (JArr (List.map JStr l)) = Some (Some l).
Proof.
  unfold models_of_jv. rewrite map_map.
  assert (H : all_some (List.map (fun x => Some x) l) = Some l) by (induction l; simpl; [done|by rewrite IHl]).
  by rewrite H.
Qed.

Lemma read_auth t n v :
  auth_of_jv (jv_of_auth (Auth t (Some n) (Some v))) = Some (Some (Auth t (Some n) (Some v))).
Proof. by destruct t. Qed.

Lemma read_route_props i u c mv av m a :
  models_of_jv mv = Some m -> auth_of_jv av = Some a ->
  route_of_jv (JObj (prop "incoming_path" (JStr i) ++ prop "upstream_path" (JStr u) ++
    prop "converter" (JStr c) ++ prop "models" mv ++ prop "auth" av)) =
  Some (Route (Some i) (Some u) (Some c) m a).
Proof.
  intros Hm Ha. unfold route_of_jv.
  set (o := JObj _).
  assert (jv_get o (js "incoming_path") = JStr i) as -> by done.
  assert (jv_get o (js "upstream_path") = JStr u) as -> by done.
  assert (jv_get o (js "converter") = JStr c) as -> by done.
  assert (jv_get o (js "models") = mv) as -> by (by destruct mv, av).
  assert (jv_get o (js "auth") = av) as -> by (by destruct mv, av).
  simpl. by rewrite Hm, Ha.
Qed.

Lemma read_normalized_route r :
  route_of_jv (jv_of_route (normalizeAdvancedCustomRoute r)) = Some (normalizeAdvancedCustomRoute r).
Proof.
  unfold jv_of_route, normalizeAdvancedCustomRoute. apply read_route_props; cbn [models auth].
  - destruct (Nat.ltb _ _); [apply read_models|done].
  - destruct (auth r) as [[t n v]|]; [apply read_auth|done].
Qed.

Lemma all_some_map {A B} (f : A -> option B) (g : B -> A) l :
  (forall x, x ∈ l -> f (g x) = Some x) -> all_some (List.map f (List.map g l)) = Some l.
Proof.
  induction l as [|x l IH]; intros H; simpl; [done|].
  rewrite H, IH by set_solver. done.
Qed.

Lemma plain_auth a : opt_units (auth_type a) -> opt_units (auth_name a) -> opt_units (auth_value a) ->
  plain (jv_of_auth a).
Proof.
  destruct a as [[t|] [n|] [v|]]; unfold jv_of_auth; cbn [auth_type auth_name auth_value]; intros;
    rewrite plain_obj; (split; [|split]); csimpl;
    first [by repeat constructor | repeat (constructor; [set_solver|]); constructor | done].
Qed.

(** An object literal whose keys are among distinct names prints plainly. *)
Lemma plain_object (fields : list (string * jv)) :
  NoDup (List.map (fun f => js f.1) fields) ->
  Forall (fun f => units_ok (js f.1) /\ array_index (js f.1) = None) fields ->
  Forall (fun f => f.2 = JUndef \/ plain f.2) fields ->
  plain (JObj (concat (List.map (fun f => prop f.1 f.2) fields))).
Proof.
  intros Hnd Hk Hv. rewrite plain_obj.
  set (l := concat _).
  assert (Hsub : sublist l.*1 (List.map (fun f => js f.1) fields)).
  { subst l. clear. induction fields as [|[k v] t IH]; simpl; [constructor|].
    rewrite fmap_app. destruct v; csimpl; by constructor. }
  split; [by eapply sublist_NoDup|]. split.
  - rewrite Forall_forall. intros k Hin. apply (elem_of_sublist _ _ _ Hin) in Hsub.
    apply list_elem_of_In, in_map_iff in Hsub as (f & <- & Hf%list_elem_of_In).
    rewrite Forall_forall in Hk. by apply Hk.
  - apply plain_list_Forall. subst l. clear Hnd Hk Hsub.
    induction Hv as [|[k v] t Hx _ IH]; simpl; [constructor|]. rewrite fmap_app, Forall_app.
    split; [|done]. simpl in Hx. unfold prop. destruct v; csimpl; try constructor; naive_solver.
Qed.

Lemma plain_opt o : opt_units o -> opt_jv o = JUndef \/ plain (opt_jv o).
Proof. destruct o; simpl; auto. Qed.

Lemma plain_route r : route_units r -> plain (jv_of_route r).
Proof.
  intros [H1 H2 H3 H4 H5].
  pose proof (plain_object [
    ("incoming_path"%string, opt_jv (incoming_path r)); ("upstream_path"%string, opt_jv (upstream_path r));
    ("converter"%string, opt_jv (converter r));
    ("models"%string, match models r with Some l => JArr (List.map JStr l) | None => JUndef end);
    ("auth"%string, match auth r with Some a => jv_of_auth a | None => JUndef end)]) as H.
  unfold jv_of_route. cbn [List.map concat fst snd] in H. rewrite app_nil_r in H. apply H; clear H.
  - apply (bool_decide_unpack _). vm_compute. done.
  - repeat constructor; vm_compute; repeat constructor.
  - repeat (constructor; [simpl|]); auto using plain_opt.
    + destruct (models r) as [l|]; [right|by left]. rewrite plain_arr, plain_list_Forall.
      apply Forall_map. by eapply Forall_impl.
    + destruct (auth r) as [a|]; [right|by left]. by apply plain_auth; apply H5.
Qed.

Lemma config_jv c :
  jv_of_config (normalizeAdvancedCustomConfig c) = JObj [(js "advanced_routes", JArr (List.map jv_of_route (routesOf c)))].
Proof. done. Qed.

Lemma plain_config c : config_units c -> plain (jv_of_config (normalizeAdvancedCustomConfig c)).
Proof.
  intros Hu. rewrite config_jv, plain_obj. split; [repeat constructor; set_solver|]. split.
  - repeat constructor; vm_compute; repeat constructor.
  - apply plain_list_Forall. constructor; [|constructor].
    cbn [snd]. rewrite plain_arr, plain_list_Forall. apply Forall_map.
    eapply Forall_impl; [exact Hu|]. apply plain_route.
Qed.

Lemma read_config c :
  config_of_jv (jv_of_config (normalizeAdvancedCustomConfig c)) = Some (normalizeAdvancedCustomConfig c).
Proof.
  unfold config_of_jv.
  assert (jv_get (jv_of_config (normalizeAdvancedCustomConfig c)) (js "advanced_routes") =
    JArr (List.map jv_of_route (routesOf c))) as -> by done.
  assert (Hr : all_some (List.map route_of_jv (List.map jv_of_route (routesOf c))) = Some (routesOf c)).
  { apply all_some_map. intros r Hr. pose proof (routesOf_all_normal c) as Hn.
    rewrite Forall_forall in Hn. rewrite <-(Hn r Hr). apply read_normalized_route. }
  by rewrite Hr.
Qed.

Lemma stored_config_reads c :
  config_units c ->
  parseAdvancedCustomConfig (Some (stringifyAdvancedCustomConfig c)) =
  ParsedConfigOk (normalizeAdvancedCustomConfig c).
Proof.
  intros Hu. unfold parseAdvancedCustomConfig, stringifyAdvancedCustomConfig.
  set (v := jv_of_config (normalizeAdvancedCustomConfig c)).
  rewrite json_parse_stringify by (by apply plain_config).
  assert (truthy (trim (json_stringify2 v)) = true) as ->.
  { unfold v. rewrite config_jv. apply trim_truthy. exists 123%N. split; [|done]. left. }
  unfold v. rewrite read_config, config_jv. simpl negb. cbv iota. by rewrite normalize_idempotent.
Qed.

Lemma config_units_normalize c : config_units c -> config_units (normalizeAdvancedCustomConfig c).
Proof.
  unfold config_units. change (normalizeAdvancedCustomConfig c) with (Config (Some (routesOf c))).
  by rewrite (routesOf_normalized (routesOf c) (routesOf_all_normal c)).
Qed.

(** A configuration that is stored as JSON text and read back is the
    configuration, normalized. *)
Theorem parse_stringify c :
  config_units c ->
  parseAdvancedCustomConfig (Some (stringifyAdvancedCustomConfig c)) =
  ParsedConfigOk (normalizeAdvancedCustomConfig c).
Proof. apply stored_config_reads. Qed.

Lemma parse_stringify_witness :
  parseAdvancedCustomConfig (Some (stringifyAdvancedCustomConfig twice_config)) =
  ParsedConfigOk (normalizeAdvancedCustomConfig twice_config).
Proof. apply parse_stringify. repeat constructor. Defined.

(** * Converters *)

Lemma or_str_id s d : s <> [] -> or_str s d = s.
Proof. unfold or_str. by destruct s. Qed.

Lemma native_auth_ok p : validateRouteAuth (Some (getAdvancedCustomNativeAuth p)) = None.
Proof. unfold getAdvancedCustomNativeAuth. by repeat case_match. Qed.

Lemma path_full parse_url p : starts_with (js "/") p = true -> starts_with (js "//") p = false ->
  isFullHttpURLOrAbsolutePath parse_url p = true.
Proof. unfold isFullHttpURLOrAbsolutePath. by intros -> ->. Qed.

(** The route the page creates for a path and a converter. *)
Definition default_route (p conv : jstr) : AdvancedCustomRoute :=
  let d := getAdvancedCustomConverterDefaults conv p in
  Route (Some p) (Some (d_upstream_path d)) (Some conv) None (d_auth d).

(** What the defaults of an offered converter are. *)
Record defaults_ok (p conv : jstr) (d : AdvancedCustomConverterDefaults) : Prop := {
  do_trim : trim (d_upstream_path d) = d_upstream_path d;
  do_slash : starts_with (js "/") (d_upstream_path d) = true;
  do_host : starts_with (js "//") (d_upstream_path d) = false;
  do_auth : validateRouteAuth (d_auth d) = None;
  do_management : isAdvancedCustomManagementPath p = true ->
    conv = c_none /\ includes (js "{model}") (d_upstream_path d) = false
}.

Lemma native_defaults_ok p : trim p = p -> starts_with (js "/") p = true -> starts_with (js "//") p = false ->
  defaults_ok p c_none (getAdvancedCustomConverterDefaults c_none p).
Proof.
  intros Ht Hs Hd. assert (Hne : p <> []) by (intros ->; done).
  unfold getAdvancedCustomConverterDefaults. rewrite Ht, or_str_id by done.
  split; cbn [d_upstream_path d_auth]; try done; [apply native_auth_ok|].
  by intros [->| ->]%management_path.
Qed.

Lemma converter_defaults_ok p o :
  trim p = p -> starts_with (js "/") p = true -> starts_with (js "//") p = false ->
  o ∈ ADVANCED_CUSTOM_CONVERTER_OPTIONS -> isConverterPathAllowed p (co_value o) = true ->
  defaults_ok p (co_value o) (getAdvancedCustomConverterDefaults (co_value o) p).
Proof.
  intros Ht Hs Hd Ho Hall. unfold ADVANCED_CUSTOM_CONVERTER_OPTIONS in Ho.
  apply elem_of_cons in Ho as [->|Ho]; [by apply native_defaults_ok|].
  apply list_elem_of_In in Ho.
  assert (Hmg : isAdvancedCustomManagementPath p = true -> co_value o = c_none).
  { intros Hm. apply management_path in Hm as [->| ->];
      repeat destruct Ho as [<-|Ho]; by vm_compute in Hall. }
  split; try (intros Hm; specialize (Hmg Hm));
    repeat destruct Ho as [<-|Ho]; try done; by vm_compute in Hmg.
Qed.

Lemma default_route_ok parse_url p o :
  trim p = p -> starts_with (js "/") p = true -> starts_with (js "//") p = false ->
  includes (js "?") p = false -> o ∈ getAdvancedCustomConverterOptions p ->
  route_ok parse_url (default_route p (co_value o)).
Proof.
  intros Ht Hs Hd Hq [Ho Hall]%list_elem_of_In%filter_In. rewrite Ht in Hall.
  apply list_elem_of_In in Ho.
  assert (Hallow : isConverterPathAllowed p (co_value o) = true).
  { apply orb_true_iff in Hall as [Hn|?]; [|done]. unfold isConverterPathAllowed. by rewrite Hn. }
  destruct (converter_defaults_ok p o Ht Hs Hd Ho Hallow) as [D1 D2 D3 D4 D5].
  assert (Hconv : r_conv (default_route p (co_value o)) = co_value o /\
                  isAdvancedCustomConverter (co_value o) = true).
  { apply list_elem_of_In in Ho. by repeat destruct Ho as [<-|Ho]. }
  destruct Hconv as [Hc Hreg].
  assert (Hpath : r_path (default_route p (co_value o)) = p) by exact Ht.
  assert (Hup : getAdvancedCustomRouteUpstreamPath (default_route p (co_value o)) =
                d_upstream_path (getAdvancedCustomConverterDefaults (co_value o) p)) by exact D1.
  split; rewrite ?Hpath, ?Hc, ?Hup; try done.
  - intros Hm. by destruct (D5 Hm).
  - constructor.
  - by apply path_full.
  - intros E. by rewrite E in D2.
Qed.

Lemma route_ok_normalize parse_url r :
  route_ok parse_url r -> route_ok parse_url (normalizeAdvancedCustomRoute r).
Proof.
  assert (Hu : getAdvancedCustomRouteUpstreamPath (normalizeAdvancedCustomRoute r) =
               getAdvancedCustomRouteUpstreamPath r) by apply trim_idemp.
  assert (Hc : r_conv (normalizeAdvancedCustomRoute r) = r_conv r) by apply or_default_idem.
  assert (Ha : validateRouteAuth (auth (normalizeAdvancedCustomRoute r)) = validateRouteAuth (auth r)).
  { by destruct r as [? ? ? ? [[? ? ?]|]]. }
  intros []. by split; rewrite ?r_models_normalize, ?Hu, ?Hc, ?Ha.
Qed.

(** Every converter the page offers for a well-formed incoming path gives,
    with its default upstream path and authentication, a configuration that
    validates, whatever [new URL] does. *)
Theorem converter_defaults_valid parse_url p o :
  trim p = p -> starts_with (js "/") p = true -> starts_with (js "//") p = false ->
  includes (js "?") p = false -> o ∈ getAdvancedCustomConverterOptions p ->
  validateAdvancedCustomConfig parse_url (Some (Config (Some [default_route p (co_value o)]))) = None.
Proof.
  intros Ht Hs Hd Hq Ho. apply validate_ok_iff. split; [done|].
  split; [|repeat constructor]. constructor; [|constructor].
  by apply route_ok_normalize, default_route_ok.
Qed.

Lemma converter_defaults_valid_witness :
  validateAdvancedCustomConfig (fun _ => None)
    (Some (Config (Some [default_route (js "/v1/messages") c_anthropic_chat]))) = None.
Proof.
  apply (converter_defaults_valid (fun _ => None) (js "/v1/messages")
    (ConvOpt c_anthropic_chat (js "Anthropic Messages to OpenAI Chat") (js "To OpenAI Chat")));
    try reflexivity.
  vm_compute. right. left.
Defined.
