(* ===== verification/ChannelForm.v ===== *)
(** The channel form (channels/lib/channel-form.ts): checking its values, filling
    it from a stored channel, and the texts and payloads it is saved as.

    A channel keeps part of its configuration in two JSON texts, [setting] and
    [settings]; the form shows them as fields. Fields read from these texts are
    JavaScript values, whatever the text holds; the schema checks their types.
    [new URL] is not part of the language: it is a parameter. *)

From Stdlib Require Import NArith ZArith Lia ZifyBool ZifyN.
From Stdlib Require Import SpecFloat.
From stdpp Require Import base list gmap strings.
From S2P Require Import Prelude JsString JsNum Json JsTable Regex AdvancedCustom.

(** Why a function of the form does not return: it throws, or it meets an
    advanced configuration whose fields are not of their declared types. *)
Inductive failure := TypeError | IllTyped.

Definition bind {A B} (r : failure + A) (f : A -> failure + B) : failure + B :=
  match r with inl e => inl e | inr x => f x end.

Notation "'get!' x <- r ; k" := (bind r (fun x => k)) (at level 200, x pattern, r at level 100, k at level 200) : js_scope.

(** * Constants (channels/constants.ts) *)

Definition CHANNEL_TYPE_NEW_API : N := 60.
Definition CHANNEL_TYPE_VOLC_NATIVE : N := 61.
Definition CHANNEL_TYPE_DOUBAO_VIDEO : N := 54.
Definition BASE64_STAGING_CHANNEL_TYPES : list N := [CHANNEL_TYPE_DOUBAO_VIDEO; CHANNEL_TYPE_VOLC_NATIVE].
Definition MODEL_FETCHABLE_TYPES : list N :=
  [1; 4; 14; 17; 20; 23; 24; 25; 26; 27; 31; 34; 35; 40; 42; 43; 47; 48; 57; 58; 59; 60]%N.
Definition FIELD_PASSTHROUGH_TYPES : list N := [1; 14; 57; 58; 59; CHANNEL_TYPE_NEW_API]%N.
Definition OPENAI_FIELD_PASSTHROUGH_TYPES : list N := [1; 57; 58; 59; CHANNEL_TYPE_NEW_API]%N.
Definition CLAUDE_FIELD_PASSTHROUGH_TYPES : list N := [14; 58; 59; CHANNEL_TYPE_NEW_API]%N.

(** [set.has(type)] and [list.includes(type)] *)
Definition has (l : list N) (t : N) : bool := existsb (N.eqb t) l.

Definition SUPPORTED_PROXY_PROTOCOLS : list jstr := [js "http:"; js "https:"; js "socks5:"; js "socks5h:"].
Definition MAX_HTTP2_CONNECTION_SHARDS : num := num_of_Z 8.

(** * Normalized values *)

Inductive MoonshotFacadeMode := Emulate | KimiPassthrough.
Inductive HttpProtocol := ProtoAuto | ProtoHttp1.

Definition moonshot_text (m : MoonshotFacadeMode) : jstr :=
  match m with Emulate => js "emulate" | KimiPassthrough => js "kimi_passthrough" end.
Definition protocol_text (p : HttpProtocol) : jstr := match p with ProtoAuto => js "auto" | ProtoHttp1 => js "http1" end.

Definition is_text (w : string) (v : jv) : bool := match v with JStr s => s =s js w | _ => false end.

Definition normalizeMoonshotFacadeMode (value : jv) : MoonshotFacadeMode :=
  if is_text "kimi_passthrough" value then KimiPassthrough else Emulate.

(** [String(value || '')] *)
Definition text_or_empty (value : jv) : failure + jstr :=
  if jv_truthy value then match js_String value with Some s => inr s | None => inl TypeError end else inr [].

Definition normalizeHttpProtocol (value : jv) : failure + HttpProtocol :=
  get! normalized <- text_or_empty value;
  inr (if lower_is (js "http1") (trim normalized) then ProtoHttp1 else ProtoAuto).

Definition compare_number (value : jv) : failure + num :=
  match js_Number value with Some x => inr x | None => inl TypeError end.

Definition JOne : jv := JNum (num_of_Z 1).

(** The value is a number, or any value when it comes from a stored text;
    [<] and [>] take its number. *)
Definition normalizeHttp2ConnectionShards (value : jv) : failure + jv :=
  match value with
  | JUndef | JNull => inr JOne
  | _ =>
      if (match value with JNum x => (negb (num_eqb x x) || num_eqb x nzero)%bool | _ => false end) then inr JOne
      else
        get! x <- compare_number value;
        if num_ltb x (num_of_Z 1) then inr JOne
        else if num_ltb MAX_HTTP2_CONNECTION_SHARDS x then inr (JNum MAX_HTTP2_CONNECTION_SHARDS)
        else inr value
  end.

(** * Checks of texts *)

(** What [new URL] gives; [None] when it throws. *)
Record URL := MkURL { protocol : jstr; host : jstr; hostname : jstr; port : jstr }.

(** [JSON.parse] of a text that may be blank: [None] when it throws, [Some None]
    ([undefined]) for a blank text. [JSON.parse] itself never gives [undefined]. *)
Definition parseOptionalJson (value : option jstr) : option (option jv) :=
  let text := or_empty value in
  if truthy (trim text) then Some <$> json_parse text else Some None.

Definition isJsonObjectValue (v : jv) : bool := as_object v.

(** The checks share their frame: [false] when the text is not JSON, [true] when
    it is blank. *)
Definition checkOptionalJson (check : jv -> bool) (value : option jstr) : bool :=
  match parseOptionalJson value with
  | None => false
  | Some None => true
  | Some (Some parsed) => check parsed
  end.

Definition isOptionalJsonObject : option jstr -> bool := checkOptionalJson isJsonObjectValue.

Definition is_string (v : jv) : bool := match v with JStr _ => true | _ => false end.

Definition isOptionalModelMapping : option jstr -> bool :=
  checkOptionalJson (fun parsed => (isJsonObjectValue parsed && forallb (fun e => is_string e.2) (jv_entries parsed))%bool).

(** [Number.isInteger(code) && code >= 100 && code <= 599]; a target that cannot
    be made a number throws, which the check takes for a refusal. *)
Definition is_code (x : num) : bool :=
  (num_is_integer x && num_leb (num_of_Z 100) x && num_leb x (num_of_Z 599))%bool.

Definition code_entry (e : jstr * jv) : bool :=
  match js_Number e.2 with Some to => (is_code (num_of_string e.1) && is_code to)%bool | None => false end.

Definition isOptionalStatusCodeMapping : option jstr -> bool :=
  checkOptionalJson (fun parsed => (isJsonObjectValue parsed && forallb code_entry (jv_entries parsed))%bool).

(** [/^(?:0(?:\.\d{1,6})?|1(?:\.0{1,6})?)$/] *)
Definition discount_re : re :=
  RSeqs [RBol;
    RAlt (RSeqs [RLit (js "0"); ROpt (RSeqs [RLit (js "."); RRep RDigit 1 (Some 6)])])
         (RSeqs [RLit (js "1"); ROpt (RSeqs [RLit (js "."); RRep (RSet (N.eqb 48)) 1 (Some 6)])]);
    REol].

Definition isCostDiscount (value : jstr) : bool := re_test discount_re (trim value).

Definition filled (v : jv) : bool := match v with JStr s => truthy (trim s) | _ => false end.

Definition isCodexCredential : option jstr -> bool :=
  checkOptionalJson (fun parsed =>
    (isJsonObjectValue parsed && filled (jv_get parsed (js "access_token")) && filled (jv_get parsed (js "account_id")))%bool).

Definition isVertexJsonKey : option jstr -> bool :=
  checkOptionalJson (fun parsed =>
    match parsed with JArr l => forallb isJsonObjectValue l | _ => isJsonObjectValue parsed end).

(** * The values of the form *)

Inductive MultiKeyMode := Single | Batch | MultiToSingle.
Inductive MultiKeyType := Random | Polling.
Inductive KeyMode := Append | Replace.
Inductive VideoMode := VideoProxy | VideoRedirect.

#[export] Instance multi_key_mode_eq_dec : EqDecision MultiKeyMode.
Proof. solve_decision. Defined.
#[export] Instance moonshot_eq_dec : EqDecision MoonshotFacadeMode.
Proof. solve_decision. Defined.
#[export] Instance video_mode_eq_dec : EqDecision VideoMode.
Proof. solve_decision. Defined.

(** [ChannelFormValues]. The types of channels are natural numbers. *)
Record ChannelFormValues := MkForm {
  fv_name : jstr; fv_type : N; fv_base_url : option jstr; fv_key : jstr; fv_openai_organization : option jstr;
  fv_models : jstr; fv_group : list jstr; fv_model_mapping : option jstr; fv_priority : option Z; fv_weight : option Z;
  fv_test_model : option jstr; fv_auto_ban : option Z; fv_status : Z; fv_status_code_mapping : option jstr;
  fv_tag : option jstr; fv_remark : option jstr; fv_cost_discount : jstr; fv_setting : option jstr;
  fv_param_override : option jstr; fv_header_override : option jstr; fv_settings : option jstr;
  fv_advanced_custom : option jstr; fv_other : option jstr;
  fv_multi_key_mode : option MultiKeyMode; fv_multi_key_type : option MultiKeyType;
  fv_batch_add_set_key_prefix_2_name : option bool; fv_key_mode : option KeyMode;
  (* stored in [setting] *)
  fv_force_format : jv; fv_thinking_to_content : jv; fv_proxy : jv; fv_http_protocol : option HttpProtocol;
  fv_http2_connection_shards : jv; fv_pass_through_body_enabled : jv; fv_moonshot_facade_mode : option MoonshotFacadeMode;
  fv_system_prompt : jv; fv_system_prompt_override : jv;
  (* stored in [settings] *)
  fv_is_enterprise_account : option bool; fv_vertex_key_type : jv; fv_aws_key_type : jv; fv_azure_responses_version : jv;
  fv_allow_service_tier : option bool; fv_disable_store : option bool; fv_allow_safety_identifier : option bool;
  fv_allow_include_obfuscation : option bool; fv_allow_inference_geo : option bool; fv_allow_speed : option bool;
  fv_claude_beta_query : option bool; fv_disable_task_polling_sleep : option bool; fv_return_task_id_compat : option bool;
  fv_base64_staging_enabled : option bool; fv_base64_staging_models : option jstr;
  fv_video_content_delivery_mode : option VideoMode;
  fv_upstream_model_update_check_enabled : option bool; fv_upstream_model_update_auto_sync_enabled : option bool;
  fv_upstream_model_update_ignored_models : option jstr }.

Definition CHANNEL_FORM_DEFAULT_VALUES : ChannelFormValues := {|
  fv_name := []; fv_type := 1; fv_base_url := Some []; fv_key := []; fv_openai_organization := Some [];
  fv_models := []; fv_group := [js "default"]; fv_model_mapping := Some []; fv_priority := Some 0%Z; fv_weight := Some 0%Z;
  fv_test_model := Some []; fv_auto_ban := Some 1%Z; fv_status := 1; fv_status_code_mapping := Some [];
  fv_tag := Some []; fv_remark := Some []; fv_cost_discount := []; fv_setting := Some [];
  fv_param_override := Some []; fv_header_override := Some []; fv_settings := Some (js "{}");
  fv_advanced_custom := Some []; fv_other := Some [];
  fv_multi_key_mode := Some Single; fv_multi_key_type := Some Random;
  fv_batch_add_set_key_prefix_2_name := Some false; fv_key_mode := Some Append;
  fv_force_format := JBool false; fv_thinking_to_content := JBool false; fv_proxy := JStr []; fv_http_protocol := Some ProtoAuto;
  fv_http2_connection_shards := JOne; fv_pass_through_body_enabled := JBool false; fv_moonshot_facade_mode := Some Emulate;
  fv_system_prompt := JStr []; fv_system_prompt_override := JBool false;
  fv_is_enterprise_account := Some false; fv_vertex_key_type := JStr (js "json"); fv_aws_key_type := JStr (js "ak_sk");
  fv_azure_responses_version := JStr [];
  fv_allow_service_tier := Some false; fv_disable_store := Some false; fv_allow_safety_identifier := Some false;
  fv_allow_include_obfuscation := Some false; fv_allow_inference_geo := Some false; fv_allow_speed := Some false;
  fv_claude_beta_query := Some false; fv_disable_task_polling_sleep := Some false; fv_return_task_id_compat := Some false;
  fv_base64_staging_enabled := Some false; fv_base64_staging_models := Some [];
  fv_video_content_delivery_mode := Some VideoRedirect;
  fv_upstream_model_update_check_enabled := Some false; fv_upstream_model_update_auto_sync_enabled := Some false;
  fv_upstream_model_update_ignored_models := Some [] |}.

(** [formData.x === true] *)
Definition on (o : option bool) : bool := nullish o false.

(** * Filling the form from a channel *)

(** [Channel], the fields the form reads. *)
Record Channel := MkChannel {
  ch_name : jstr; ch_type : N; ch_base_url : option jstr; ch_openai_organization : option jstr; ch_models : jstr;
  ch_group : jstr; ch_model_mapping : option jstr; ch_priority : option Z; ch_weight : option Z; ch_test_model : option jstr;
  ch_auto_ban : option Z; ch_status : Z; ch_status_code_mapping : option jstr; ch_tag : option jstr; ch_remark : jstr;
  ch_cost_discount : option jstr; ch_setting : option jstr; ch_param_override : option jstr; ch_header_override : option jstr;
  ch_settings : jstr; ch_other : jstr; ch_multi_key_mode : MultiKeyType }.

Definition split_names (s : jstr) : list jstr := List.filter truthy (List.map trim (split_unit 44 s)).

Definition parseModels (models : jstr) : list jstr := if truthy models then split_names models else [].
Definition parseGroups (groups : jstr) : list jstr := if truthy groups then split_names groups else [].
Definition formatModels (models : list jstr) : jstr := join (js ",") models.
Definition formatGroups (groups : list jstr) : jstr := join (js ",") groups.

(** The fields of [setting]. *)
Record ExtraSettings := MkExtra {
  ex_force_format : jv; ex_thinking_to_content : jv; ex_proxy : jv; ex_http_protocol : HttpProtocol;
  ex_http2_connection_shards : jv; ex_pass_through_body_enabled : jv; ex_moonshot_facade_mode : MoonshotFacadeMode;
  ex_system_prompt : jv; ex_system_prompt_override : jv }.

Definition no_extra : ExtraSettings :=
  MkExtra (JBool false) (JBool false) (JStr []) ProtoAuto JOne (JBool false) Emulate (JStr []) (JBool false).

(** Reading a property of what [JSON.parse] returned; [null] has none. *)
Definition prop_of (parsed : jv) (k : string) : failure + jv :=
  match parsed with JNull | JUndef => inl TypeError | _ => inr (jv_get parsed (js k)) end.

Definition read_setting (parsed : jv) : failure + ExtraSettings :=
  get! hp <- prop_of parsed "http_protocol";
  get! protocol <- normalizeHttpProtocol hp;
  get! shards <- normalizeHttp2ConnectionShards (jv_get parsed (js "http2_connection_shards"));
  let g k := jv_get parsed (js k) in
  inr {| ex_force_format := jv_or (g "force_format") (JBool false);
         ex_thinking_to_content := jv_or (g "thinking_to_content") (JBool false);
         ex_proxy := jv_or (g "proxy") (JStr []);
         ex_http_protocol := protocol;
         ex_http2_connection_shards := match protocol with ProtoHttp1 => JOne | ProtoAuto => shards end;
         ex_pass_through_body_enabled := jv_or (g "pass_through_body_enabled") (JBool false);
         ex_moonshot_facade_mode := normalizeMoonshotFacadeMode (g "moonshot_facade_mode");
         ex_system_prompt := jv_or (g "system_prompt") (JStr []);
         ex_system_prompt_override := jv_or (g "system_prompt_override") (JBool false) |}.

(** The defaults when there is no text, when it does not parse and when reading throws. *)
Definition load_setting (setting : jstr) : ExtraSettings :=
  if truthy setting then
    match json_parse setting with
    | Some parsed => match read_setting parsed with inr e => e | inl _ => no_extra end
    | None => no_extra
    end
  else no_extra.

(** The fields of [settings]. *)
Record OtherSettings := MkOther {
  os_vertexKeyType : jv; os_azureResponsesVersion : jv; os_isEnterpriseAccount : bool; os_awsKeyType : jv;
  os_allowServiceTier : bool; os_disableStore : bool; os_allowSafetyIdentifier : bool; os_allowIncludeObfuscation : bool;
  os_allowInferenceGeo : bool; os_allowSpeed : bool; os_claudeBetaQuery : bool; os_disableTaskPollingSleep : bool;
  os_returnTaskIdCompat : bool; os_base64StagingEnabled : bool; os_base64StagingModels : jstr;
  os_videoContentDeliveryMode : VideoMode; os_upstreamModelUpdateCheckEnabled : bool;
  os_upstreamModelUpdateAutoSyncEnabled : bool; os_upstreamModelUpdateIgnoredModels : jstr; os_advancedCustom : jstr }.

Definition no_other : OtherSettings :=
  MkOther (JStr (js "json")) (JStr []) false (JStr (js "ak_sk")) false false false false false false false false false
    false [] VideoProxy false false [] [].

(** [Array.isArray(v) ? v.join(',') : ''] *)
Definition join_values (v : jv) : failure + jstr :=
  match v with
  | JArr _ => match js_String v with Some s => inr s | None => inl TypeError end
  | _ => inr []
  end.

(** [(v?.k) === true] and the like on what was read *)
Definition flag (parsed : jv) (k : string) : bool := is_true (jv_get parsed (js k)).

(** The fields read from [parsed], up to the first list that throws when it is
    joined: [later] says that the lines after it were reached. *)
Definition other_of (parsed : jv) (models : jstr) (later : bool) (ignored advanced : jstr) : OtherSettings :=
  let staging := jv_get parsed (js "base64_staging") in
  {| os_vertexKeyType := jv_or (jv_get parsed (js "vertex_key_type")) (JStr (js "json"));
     os_azureResponsesVersion := jv_or (jv_get parsed (js "azure_responses_version")) (JStr []);
     os_isEnterpriseAccount := flag parsed "openrouter_enterprise";
     os_awsKeyType := jv_or (jv_get parsed (js "aws_key_type")) (JStr (js "ak_sk"));
     os_allowServiceTier := flag parsed "allow_service_tier";
     os_disableStore := flag parsed "disable_store";
     os_allowSafetyIdentifier := flag parsed "allow_safety_identifier";
     os_allowIncludeObfuscation := flag parsed "allow_include_obfuscation";
     os_allowInferenceGeo := flag parsed "allow_inference_geo";
     os_allowSpeed := flag parsed "allow_speed";
     os_claudeBetaQuery := flag parsed "claude_beta_query";
     os_disableTaskPollingSleep := flag parsed "disable_task_polling_sleep";
     os_returnTaskIdCompat := flag parsed "return_task_id_compat";
     os_base64StagingEnabled := flag staging "enabled";
     os_base64StagingModels := models;
     os_videoContentDeliveryMode :=
       if later then if is_text "proxy" (jv_get parsed (js "video_content_delivery_mode")) then VideoProxy else VideoRedirect
       else VideoProxy;
     os_upstreamModelUpdateCheckEnabled := (later && flag parsed "upstream_model_update_check_enabled")%bool;
     os_upstreamModelUpdateAutoSyncEnabled := (later && flag parsed "upstream_model_update_auto_sync_enabled")%bool;
     os_upstreamModelUpdateIgnoredModels := ignored;
     os_advancedCustom := advanced |}.

Definition read_settings (parsed : jv) : failure + OtherSettings :=
  match parsed with
  | JNull | JUndef => inr no_other
  | _ =>
      match join_values (jv_get (jv_get parsed (js "base64_staging")) (js "models")) with
      | inl _ => inr (other_of parsed [] false [] [])
      | inr models =>
          match join_values (jv_get parsed (js "upstream_model_update_ignored_models")) with
          | inl _ => inr (other_of parsed models true [] [])
          | inr ignored =>
              let stored := jv_get parsed (js "advanced_custom") in
              if jv_truthy stored then
                match config_of_jv stored with
                | Some config => inr (other_of parsed models true ignored (stringifyAdvancedCustomConfig config))
                | None => inl IllTyped
                end
              else inr (other_of parsed models true ignored [])
          end
      end
  end.

Definition load_settings (settings : jstr) : failure + OtherSettings :=
  if truthy settings then
    match json_parse settings with Some parsed => read_settings parsed | None => inr no_other end
  else inr no_other.

(** [n || 0] and [o || ''] *)
Definition or_zero (o : option Z) : Z := nullish o 0%Z.

Definition transformChannelToFormDefaults (channel : Channel) : failure + ChannelFormValues :=
  let extra := load_setting (or_empty (ch_setting channel)) in
  get! other <- load_settings (ch_settings channel);
  inr {|
    fv_name := ch_name channel; fv_type := ch_type channel; fv_base_url := Some (or_empty (ch_base_url channel)); fv_key := [];
    fv_openai_organization := Some (or_empty (ch_openai_organization channel)); fv_models := ch_models channel;
    fv_group := parseGroups (or_str (ch_group channel) (js "default"));
    fv_model_mapping := Some (or_empty (ch_model_mapping channel));
    fv_priority := Some (or_zero (ch_priority channel)); fv_weight := Some (or_zero (ch_weight channel));
    fv_test_model := Some (or_empty (ch_test_model channel)); fv_auto_ban := Some (nullish (ch_auto_ban channel) 1%Z);
    fv_status := ch_status channel; fv_status_code_mapping := Some (or_empty (ch_status_code_mapping channel));
    fv_tag := Some (or_empty (ch_tag channel)); fv_remark := Some (ch_remark channel);
    fv_cost_discount := or_empty (ch_cost_discount channel); fv_setting := Some (or_empty (ch_setting channel));
    fv_param_override := Some (or_empty (ch_param_override channel));
    fv_header_override := Some (or_empty (ch_header_override channel));
    fv_settings := Some (or_str (ch_settings channel) (js "{}")); fv_advanced_custom := Some (os_advancedCustom other);
    fv_other := Some (ch_other channel);
    fv_multi_key_mode := Some Single; fv_multi_key_type := Some (ch_multi_key_mode channel);
    fv_batch_add_set_key_prefix_2_name := Some false; fv_key_mode := Some Append;
    fv_force_format := ex_force_format extra; fv_thinking_to_content := ex_thinking_to_content extra;
    fv_proxy := ex_proxy extra; fv_http_protocol := Some (ex_http_protocol extra);
    fv_http2_connection_shards := ex_http2_connection_shards extra;
    fv_pass_through_body_enabled := ex_pass_through_body_enabled extra;
    fv_moonshot_facade_mode := Some (ex_moonshot_facade_mode extra);
    fv_system_prompt := ex_system_prompt extra; fv_system_prompt_override := ex_system_prompt_override extra;
    fv_is_enterprise_account := Some (os_isEnterpriseAccount other); fv_vertex_key_type := os_vertexKeyType other;
    fv_aws_key_type := os_awsKeyType other; fv_azure_responses_version := os_azureResponsesVersion other;
    fv_allow_service_tier := Some (os_allowServiceTier other); fv_disable_store := Some (os_disableStore other);
    fv_allow_safety_identifier := Some (os_allowSafetyIdentifier other);
    fv_allow_include_obfuscation := Some (os_allowIncludeObfuscation other);
    fv_allow_inference_geo := Some (os_allowInferenceGeo other); fv_allow_speed := Some (os_allowSpeed other);
    fv_claude_beta_query := Some (os_claudeBetaQuery other);
    fv_disable_task_polling_sleep := Some (os_disableTaskPollingSleep other);
    fv_return_task_id_compat := Some (os_returnTaskIdCompat other);
    fv_base64_staging_enabled := Some (os_base64StagingEnabled other);
    fv_base64_staging_models := Some (os_base64StagingModels other);
    fv_video_content_delivery_mode := Some (os_videoContentDeliveryMode other);
    fv_upstream_model_update_check_enabled := Some (os_upstreamModelUpdateCheckEnabled other);
    fv_upstream_model_update_auto_sync_enabled := Some (os_upstreamModelUpdateAutoSyncEnabled other);
    fv_upstream_model_update_ignored_models := Some (os_upstreamModelUpdateIgnoredModels other) |}.

(** * Building the texts *)

(** [v?.trim() || ''] *)
Definition trim_value (v : jv) : failure + jstr :=
  match v with JUndef | JNull => inr [] | JStr s => inr (trim s) | _ => inl TypeError end.

Definition protocol_value (o : option HttpProtocol) : jv :=
  match o with Some p => JStr (protocol_text p) | None => JUndef end.

Definition setting_object (f : ChannelFormValues) : failure + Table :=
  get! proxy <- trim_value (fv_proxy f);
  get! protocol <- normalizeHttpProtocol (protocol_value (fv_http_protocol f));
  get! shards <- match protocol with
                 | ProtoHttp1 => inr JOne
                 | ProtoAuto => normalizeHttp2ConnectionShards (fv_http2_connection_shards f)
                 end;
  get! n <- compare_number shards;
  inr ([(js "force_format", jv_or (fv_force_format f) (JBool false));
        (js "thinking_to_content", jv_or (fv_thinking_to_content f) (JBool false));
        (js "proxy", JStr proxy);
        (js "pass_through_body_enabled", jv_or (fv_pass_through_body_enabled f) (JBool false));
        (js "system_prompt", jv_or (fv_system_prompt f) (JStr []));
        (js "system_prompt_override", jv_or (fv_system_prompt_override f) (JBool false))] ++
       match protocol with
       | ProtoHttp1 => [(js "http_protocol", JStr (js "http1"))]
       | ProtoAuto => if num_ltb (num_of_Z 1) n then [(js "http2_connection_shards", shards)] else []
       end ++
       if bool_decide (fv_moonshot_facade_mode f = Some KimiPassthrough)
       then [(js "moonshot_facade_mode", JStr (js "kimi_passthrough"))] else []).

Definition buildSettingJSON (f : ChannelFormValues) : failure + jstr :=
  get! settingObj <- setting_object f; inr (json_stringify (JObj settingObj)).

(** [if (c) settingsObj\[k\] = v else if (k in settingsObj) delete settingsObj\[k\]] *)
Definition put_if (c : bool) (k : string) (v : jv) (t : Table) : Table :=
  if c then map_set (js k) v t else map_del (js k) t.

(** [\[...new Set(text.split(',').map(trim).filter(Boolean))\]] *)
Definition name_list (text : option jstr) : jv := JArr (List.map JStr (uniq (split_names (or_empty text)))).

Definition is_type (f : ChannelFormValues) (n : N) : bool := (fv_type f =? n)%N.

(** The type's own settings. *)
Definition put_type_settings (f : ChannelFormValues) (t : Table) : Table :=
  put_if (is_type f 33) "aws_key_type" (jv_or (fv_aws_key_type f) (JStr (js "ak_sk")))
    (put_if (is_type f 20) "openrouter_enterprise" (JBool (on (fv_is_enterprise_account f)))
      (put_if (is_type f 3 && jv_truthy (fv_azure_responses_version f)) "azure_responses_version" (fv_azure_responses_version f)
        (put_if (is_type f 41) "vertex_key_type" (jv_or (fv_vertex_key_type f) (JStr (js "json"))) t))).

(** Which request fields are passed through. *)
Definition put_passthrough (f : ChannelFormValues) (t : Table) : Table :=
  let openai := has OPENAI_FIELD_PASSTHROUGH_TYPES (fv_type f) in
  let claude := has CLAUDE_FIELD_PASSTHROUGH_TYPES (fv_type f) in
  let t := put_if (has FIELD_PASSTHROUGH_TYPES (fv_type f)) "allow_service_tier" (JBool (on (fv_allow_service_tier f))) t in
  let t := put_if openai "disable_store" (JBool (on (fv_disable_store f))) t in
  let t := put_if openai "allow_safety_identifier" (JBool (on (fv_allow_safety_identifier f))) t in
  let t := put_if openai "allow_include_obfuscation" (JBool (on (fv_allow_include_obfuscation f))) t in
  let t := put_if (openai || claude) "allow_inference_geo" (JBool (on (fv_allow_inference_geo f))) t in
  let t := put_if claude "allow_speed" (JBool (on (fv_allow_speed f))) t in
  put_if (is_type f 14) "claude_beta_query" (JBool (on (fv_claude_beta_query f))) t.

Definition staging_value (f : ChannelFormValues) : jv :=
  JObj [(js "enabled", JBool true); (js "storage_policy", JStr (js "relay_media_temp"));
        (js "models", name_list (fv_base64_staging_models f))].

Definition video_text (m : VideoMode) : jstr := match m with VideoProxy => js "proxy" | VideoRedirect => js "redirect" end.

(** Tasks and media. *)
Definition put_media (f : ChannelFormValues) (t : Table) : Table :=
  let t := map_set (js "disable_task_polling_sleep") (JBool (on (fv_disable_task_polling_sleep f))) t in
  let t := put_if (is_type f CHANNEL_TYPE_VOLC_NATIVE && on (fv_return_task_id_compat f)) "return_task_id_compat" (JBool true) t in
  let t := put_if (has BASE64_STAGING_CHANNEL_TYPES (fv_type f) && on (fv_base64_staging_enabled f)) "base64_staging" (staging_value f) t in
  put_if (is_type f CHANNEL_TYPE_DOUBAO_VIDEO) "video_content_delivery_mode"
    (JStr (video_text (if bool_decide (fv_video_content_delivery_mode f = Some VideoRedirect) then VideoRedirect else VideoProxy))) t.

Definition is_number (v : jv) : bool := match v with JNum _ => true | _ => false end.

(** Upstream model updates; the last detected models and the time of the last
    check are kept when they are of their types. *)
Definition put_upstream (f : ChannelFormValues) (t : Table) : Table :=
  if has MODEL_FETCHABLE_TYPES (fv_type f) then
    let check := on (fv_upstream_model_update_check_enabled f) in
    let t := map_set (js "upstream_model_update_check_enabled") (JBool check) t in
    let t := map_set (js "upstream_model_update_auto_sync_enabled") (JBool (check && on (fv_upstream_model_update_auto_sync_enabled f))) t in
    let t := map_set (js "upstream_model_update_ignored_models") (name_list (fv_upstream_model_update_ignored_models f)) t in
    let t := if (negb (is_array (jv_get (JObj t) (js "upstream_model_update_last_detected_models"))) || negb check)%bool
             then map_set (js "upstream_model_update_last_detected_models") (JArr []) t else t in
    if negb (is_number (jv_get (JObj t) (js "upstream_model_update_last_check_time")))
    then map_set (js "upstream_model_update_last_check_time") (JNum nzero) t else t
  else t.

Definition put_advanced (f : ChannelFormValues) (t : Table) : failure + Table :=
  if is_type f CHANNEL_TYPE_ADVANCED_CUSTOM then
    match parseAdvancedCustomConfig (fv_advanced_custom f) with
    | ParsedNull => inr t
    | ParsedConfigOk config => inr (map_set (js "advanced_custom") (jv_of_config config) t)
    | ParsedIllTyped => inl IllTyped
    end
  else inr (map_del (js "advanced_custom") t).

Definition settings_table (f : ChannelFormValues) (t : Table) : failure + Table :=
  put_advanced f (put_upstream f (put_media f (put_passthrough f (put_type_settings f t)))).

(** The stored settings the form started from. *)
Definition stored_settings (f : ChannelFormValues) : jv :=
  let text := or_empty (fv_settings f) in
  if (truthy text && negb (text =s js "{}"))%bool then nullish (json_parse text) (JObj []) else JObj [].

(** [in] and an assignment throw for a value that is not an object; properties
    given to an array are not printed. *)
Definition buildSettingsJSON (f : ChannelFormValues) : failure + jstr :=
  match stored_settings f with
  | JObj t => get! t' <- settings_table f t; inr (json_stringify (JObj t'))
  | JArr l => get! t' <- settings_table f []; inr (json_stringify (JArr l))
  | _ => inl TypeError
  end.

(** * Payloads *)

(** [String(value || '').trim().replace(/\/+$/, '')] *)
Definition normalizeBaseUrl (value : option jstr) : jstr :=
  reverse (drop_while (N.eqb 47) (reverse (trim (or_empty value)))).

Definition JText (o : option jstr) : jv := JStr (or_empty o).
Definition text_or_null (o : option jstr) : jv := if truthy (or_empty o) then JStr (or_empty o) else JNull.
Definition JInt (z : Z) : jv := JNum (num_of_Z z).
Definition int_or_null (o : option Z) : jv := if (or_zero o =? 0)%Z then JNull else JInt (or_zero o).

Definition is_empty_text (v : jv) : bool := match v with JStr [] => true | _ => false end.

(** Empty texts become null. *)
Definition clean_value (v : jv) : jv := if is_empty_text v then JNull else v.
Definition clean_entry (e : jstr * jv) : jstr * jv := (e.1, clean_value e.2).

Record CreatePayload := MkCreate {
  cp_mode : MultiKeyMode; cp_multi_key_mode : option MultiKeyType; cp_batch_add_set_key_prefix_2_name : option bool;
  cp_channel : Table }.

Definition mode_is (m mode : MultiKeyMode) : bool := bool_decide (mode = m).

Definition transformFormDataToCreatePayload (f : ChannelFormValues) : failure + CreatePayload :=
  let mode := nullish (fv_multi_key_mode f) Single in
  get! setting <- buildSettingJSON f;
  get! settings <- buildSettingsJSON f;
  let channel : Table := [
    (js "name", JStr (fv_name f)); (js "type", JInt (Z.of_N (fv_type f)));
    (js "base_url", text_or_null (Some (normalizeBaseUrl (fv_base_url f)))); (js "key", JStr (fv_key f));
    (js "openai_organization", text_or_null (fv_openai_organization f)); (js "models", JStr (fv_models f));
    (js "group", JStr (formatGroups (fv_group f))); (js "model_mapping", text_or_null (fv_model_mapping f));
    (js "priority", int_or_null (fv_priority f)); (js "weight", int_or_null (fv_weight f));
    (js "test_model", text_or_null (fv_test_model f)); (js "auto_ban", JInt (nullish (fv_auto_ban f) 1%Z));
    (js "status", JInt (fv_status f)); (js "status_code_mapping", text_or_null (fv_status_code_mapping f));
    (js "tag", text_or_null (fv_tag f)); (js "remark", JText (fv_remark f)); (js "setting", JStr setting);
    (js "param_override", text_or_null (fv_param_override f)); (js "header_override", text_or_null (fv_header_override f));
    (js "settings", JStr settings); (js "other", JText (fv_other f))] in
  let discount := trim (fv_cost_discount f) in
  let channel := if truthy discount then map_set (js "cost_discount") (JStr discount) channel else channel in
  inr {| cp_mode := mode;
         cp_multi_key_mode := if mode_is MultiToSingle mode then fv_multi_key_type f else None;
         cp_batch_add_set_key_prefix_2_name := if mode_is Batch mode then fv_batch_add_set_key_prefix_2_name f else None;
         cp_channel := List.map clean_entry channel |}.

(** The fields an update clears with an empty text. *)
Definition clearable (f : ChannelFormValues) : list (jstr * jv) := [
  (js "base_url", JStr (normalizeBaseUrl (fv_base_url f)));
  (js "openai_organization", JText (fv_openai_organization f)); (js "test_model", JText (fv_test_model f));
  (js "tag", JText (fv_tag f)); (js "remark", JText (fv_remark f)); (js "model_mapping", JText (fv_model_mapping f));
  (js "status_code_mapping", JText (fv_status_code_mapping f)); (js "param_override", JText (fv_param_override f));
  (js "header_override", JText (fv_header_override f))].

Definition transformFormDataToUpdatePayload (f : ChannelFormValues) (channelId : Z) (includeCostDiscount : bool) : failure + Table :=
  get! setting <- buildSettingJSON f;
  get! settings <- buildSettingsJSON f;
  let payload : Table := [
    (js "id", JInt channelId); (js "name", JStr (fv_name f)); (js "type", JInt (Z.of_N (fv_type f)));
    (js "base_url", text_or_null (Some (normalizeBaseUrl (fv_base_url f))));
    (js "openai_organization", text_or_null (fv_openai_organization f)); (js "models", JStr (fv_models f));
    (js "group", JStr (formatGroups (fv_group f))); (js "model_mapping", text_or_null (fv_model_mapping f));
    (js "priority", JInt (or_zero (fv_priority f))); (js "weight", JInt (or_zero (fv_weight f)));
    (js "test_model", text_or_null (fv_test_model f)); (js "auto_ban", JInt (nullish (fv_auto_ban f) 1%Z));
    (js "status_code_mapping", text_or_null (fv_status_code_mapping f)); (js "tag", text_or_null (fv_tag f));
    (js "remark", JText (fv_remark f)); (js "setting", JStr setting);
    (js "param_override", text_or_null (fv_param_override f)); (js "header_override", text_or_null (fv_header_override f));
    (js "settings", JStr settings); (js "other", JText (fv_other f))] in
  let payload := if includeCostDiscount then map_set (js "cost_discount") (JStr (trim (fv_cost_discount f))) payload else payload in
  let payload := if truthy (trim (fv_key f)) then map_set (js "key") (JStr (fv_key f)) payload else payload in
  let payload := List.map (fun e => (e.1, if e.1 =s js "cost_discount" then e.2 else clean_value e.2)) payload in
  inr (fold_left (fun p e => map_set e.1 e.2 p) (clearable f) payload).

(** * The schema *)

Section Schema.
Context (new_url : jstr -> option URL).

(** The host and the protocol, as the advanced routes look at them. *)
Definition url_host (value : jstr) : option (jstr * jstr) := (fun u => (host u, protocol u)) <$> new_url value.

Definition isOptionalProxyURL (value : option jstr) : bool :=
  let trimmedValue := trim (or_empty value) in
  if negb (truthy trimmedValue) then true
  else match index_of (js "://") trimmedValue with
       | None | Some 0 => false
       | Some schemeSeparatorIndex =>
           let authorityAndSuffix := drop (schemeSeparatorIndex + 3) trimmedValue in
           let suffix := drop_while (fun c => negb (one_of (js "/?#") c)) authorityAndSuffix in
           if (truthy suffix && negb (suffix =s js "/"))%bool then false
           else match new_url trimmedValue with
                | Some u => (existsb (jstr_eqb (protocol u)) SUPPORTED_PROXY_PROTOCOLS && truthy (hostname u)
                             && negb (port u =s js "0"))%bool
                | None => false
                end
       end.

Definition optional_string (check : option jstr -> bool) (v : jv) : bool :=
  match v with JUndef => check None | JStr s => check (Some s) | _ => false end.
Definition optional_boolean (v : jv) : bool := match v with JUndef | JBool _ => true | _ => false end.
Definition optional_int (v : jv) : bool := match v with JUndef => true | JNum x => num_is_integer x | _ => false end.
Definition optional_enum (l : list string) (v : jv) : bool :=
  match v with JUndef => true | JStr s => existsb (fun w => s =s js w) l | _ => false end.

(** The object part of [channelFormSchema]: what the types do not give already. *)
Definition object_ok (f : ChannelFormValues) : bool :=
  forallb id [
    truthy (fv_name f); truthy (fv_models f); negb (Nat.eqb (length (fv_group f)) 0);
    isOptionalModelMapping (fv_model_mapping f); isOptionalStatusCodeMapping (fv_status_code_mapping f);
    Nat.leb (length (or_empty (fv_remark f))) 255;
    (negb (truthy (trim (fv_cost_discount f))) || isCostDiscount (fv_cost_discount f))%bool;
    isOptionalJsonObject (fv_setting f); isOptionalJsonObject (fv_param_override f);
    isOptionalJsonObject (fv_header_override f); isOptionalJsonObject (fv_settings f);
    optional_boolean (fv_force_format f); optional_boolean (fv_thinking_to_content f);
    optional_string isOptionalProxyURL (fv_proxy f); optional_int (fv_http2_connection_shards f);
    optional_boolean (fv_pass_through_body_enabled f); optional_string (fun _ => true) (fv_system_prompt f);
    optional_boolean (fv_system_prompt_override f); optional_enum ["json"; "api_key"]%string (fv_vertex_key_type f);
    optional_enum ["ak_sk"; "api_key"]%string (fv_aws_key_type f); optional_string (fun _ => true) (fv_azure_responses_version f)].

Definition Issue : Type := jstr * jstr.
Definition issue (c : bool) (path message : string) : list Issue := if c then [(js path, js message)] else [].

Definition blank (o : option jstr) : bool := negb (truthy (trim (or_empty o))).

(** [mode && mode !== 'single'] *)
Definition not_single (o : option MultiKeyMode) : bool :=
  match o with Some Batch | Some MultiToSingle => true | _ => false end.

(** [shards ?? 1] *)
Definition shards_or_one (v : jv) : jv := match v with JUndef | JNull => JOne | _ => v end.

Definition advanced_issues (f : ChannelFormValues) (config : option AdvancedCustomConfig) : list Issue :=
  match validateAdvancedCustomConfig url_host config with
  | Some e => [(js "advanced_custom", message e)]
  | None => []
  end ++
  issue (advancedCustomConfigUsesRelativeUpstreamPath config && blank (fv_base_url f)) "base_url"
    "Base URL is required when an advanced route uses an upstream path" ++
  issue (on (fv_upstream_model_update_check_enabled f) && negb (hasValidAdvancedCustomModelListRoute url_host config))
    "upstream_model_update_check_enabled" "OpenAI Models route is required to enable upstream model checks".

(** The issues [superRefine] adds, in order. *)
Definition refine_issues (f : ChannelFormValues) : failure + list Issue :=
  let t := fv_type f in
  get! advanced <- (if is_type f CHANNEL_TYPE_ADVANCED_CUSTOM then
                      match parseAdvancedCustomConfig (fv_advanced_custom f) with
                      | ParsedNull => inr (advanced_issues f None)
                      | ParsedConfigOk config => inr (advanced_issues f (Some config))
                      | ParsedIllTyped => inl IllTyped
                      end
                    else inr []);
  get! protocol <- normalizeHttpProtocol (protocol_value (fv_http_protocol f));
  get! shards <- compare_number (shards_or_one (fv_http2_connection_shards f));
  let key := Some (fv_key f) in
  inr (issue (has [3; 8; 36; 45; CHANNEL_TYPE_NEW_API]%N t && blank (fv_base_url f)) "base_url"
         "Base URL is required for this channel type" ++
       advanced ++
       issue (has [3; 18; 21; 39; 41; 49]%N t && blank (fv_other f)) "other" "This channel type requires additional configuration" ++
       issue (is_type f 57 && not_single (fv_multi_key_mode f)) "multi_key_mode" "Codex channels do not support batch creation" ++
       issue (is_type f 57 && negb (blank key) && negb (isCodexCredential key)) "key"
         "Codex credential must be a JSON object with access_token and account_id" ++
       issue (is_type f 41 && is_text "json" (fv_vertex_key_type f) && negb (blank key) && negb (isVertexJsonKey key)) "key"
         "Vertex AI service account key must be valid JSON" ++
       issue (is_type f 41 && is_text "api_key" (fv_vertex_key_type f) && not_single (fv_multi_key_mode f)) "multi_key_mode"
         "Vertex AI API Key mode does not support batch creation" ++
       issue (num_ltb shards (num_of_Z 1) || num_ltb MAX_HTTP2_CONNECTION_SHARDS shards) "http2_connection_shards"
         "HTTP/2 connection shards must be between 1 and 8" ++
       issue (match protocol with ProtoHttp1 => num_ltb (num_of_Z 1) shards | ProtoAuto => false end) "http2_connection_shards"
         "HTTP/2 connection shards must be 1 when HTTP/1.1 is selected").

(** The form is handed to the submit handler. *)
Definition accepted (f : ChannelFormValues) : bool :=
  (object_ok f && match refine_issues f with inr [] => true | _ => false end)%bool.
End Schema.

(** * Helpers of the form *)

(** [validateJSON] and [validateModelMapping] *)
Definition validateJSON (value : jstr) : bool :=
  if (negb (truthy value) || (trim value =s []))%bool then true else is_some (json_parse value).

Definition validateModelMapping (value : jstr) : bool :=
  if (negb (truthy value) || (trim value =s []))%bool then true else validateJSON value.

(** * Sample *)

Definition sample_channel (settings : jstr) : Channel := {|
  ch_name := js "volc"; ch_type := 54; ch_base_url := Some (js "https://ark.example.com/"); ch_openai_organization := None;
  ch_models := js "seedance,doubao"; ch_group := js "default, vip"; ch_model_mapping := None; ch_priority := Some 3%Z;
  ch_weight := None; ch_test_model := None; ch_auto_ban := None; ch_status := 1; ch_status_code_mapping := None;
  ch_tag := Some (js "video"); ch_remark := []; ch_cost_discount := Some (js "0.85");
  ch_setting := Some (jq "{`proxy`:` socks5://h:1 `,`http2_connection_shards`:12,`force_format`:true}");
  ch_param_override := None; ch_header_override := None; ch_settings := settings; ch_other := []; ch_multi_key_mode := Polling |}.

Definition loaded (c : Channel) : ChannelFormValues :=
  match transformChannelToFormDefaults c with inr f => f | inl _ => CHANNEL_FORM_DEFAULT_VALUES end.

Definition sample_form : ChannelFormValues :=
  loaded (sample_channel (jq "{`x`:[1],`base64_staging`:{`enabled`:true,`models`:[`a`,`b`,` a`]},`allow_speed`:true}")).

Example sample_setting : buildSettingJSON sample_form =
  inr (jq "{`force_format`:true,`thinking_to_content`:false,`proxy`:`socks5://h:1`,`pass_through_body_enabled`:false,`system_prompt`:``,`system_prompt_override`:false,`http2_connection_shards`:8}").
Proof. vm_compute. reflexivity. Qed.

Example sample_settings : buildSettingsJSON sample_form =
  inr (jq "{`x`:[1],`base64_staging`:{`enabled`:true,`storage_policy`:`relay_media_temp`,`models`:[`a`,`b`]},`disable_task_polling_sleep`:false,`video_content_delivery_mode`:`redirect`}").
Proof. vm_compute. reflexivity. Qed.

Example sample_update : match transformFormDataToUpdatePayload sample_form 7 true with
  | inr p => (map_get (js "base_url") p, map_get (js "group") p, map_get (js "other") p, map_get (js "cost_discount") p)
  | inl _ => (None, None, None, None) end =
  (Some (JStr (js "https://ark.example.com")), Some (JStr (js "default,vip")), Some JNull, Some (JStr (js "0.85"))).
Proof. vm_compute. reflexivity. Qed.
