(* ===== verification/ChannelFormProps.v ===== *)
(** What the channel form keeps: the texts it writes read back as the values it
    shows, foreign settings are kept, and saving twice changes nothing. *)

From Stdlib Require Import NArith ZArith Lia ZifyBool ZifyN.
From Stdlib Require Import SpecFloat.
From stdpp Require Import base list gmap strings.
From S2P Require Import Prelude JsString JsNum Json JsTable Regex AdvancedCustom ChannelForm.

(** * Lists of names *)

Lemma units_sub (u v : jstr) : (forall c, c ∈ u -> c ∈ v) -> units_ok v -> units_ok u.
Proof. unfold units_ok. rewrite !Forall_forall. auto. Qed.

Lemma trim_units s : units_ok s -> units_ok (trim s).
Proof. apply units_sub, trim_sub. Qed.

(** A name a list of names can hold. *)
Definition list_name (s : jstr) : Prop := s <> [] /\ trimmed s /\ 44%N ∉ s.

Lemma split_names_names s : Forall list_name (split_names s).
Proof.
  unfold split_names. rewrite Forall_forall. intros x Hx. apply elem_filter in Hx as [Hx Ht].
  apply list_elem_of_In, in_map_iff in Hx as (y & <- & Hy%list_elem_of_In).
  pose proof (split_unit_pieces 44 s) as Hp. rewrite Forall_forall in Hp.
  split; [by apply truthy_true|]. split; [apply trim_trimmed|]. intros Hin%trim_sub. by apply (Hp y).
Qed.

Lemma split_names_join l : Forall list_name l -> split_names (join (js ",") l) = l.
Proof.
  intros Hl. destruct l as [|x l]; [done|]. unfold split_names.
  assert (E : split_unit 44 (join (js ",") (x :: l)) = x :: l).
  { change (js ",") with [44%N]. apply split_unit_join; [done|]. eapply Forall_impl; [exact Hl|]. intros y. by intros (_ & _ & ?). }
  rewrite E. rewrite (map_ext_in _ id), map_id.
  - apply filter_all. eapply Forall_impl; [exact Hl|]. intros y. intros (? & _). by apply truthy_true.
  - intros y Hy%list_elem_of_In. rewrite Forall_forall in Hl. destruct (Hl y Hy) as (_ & ? & _). by apply trim_id.
Qed.

Lemma uniq_names l : Forall list_name l -> Forall list_name (uniq l).
Proof. rewrite !Forall_forall. intros H x Hx. apply H. by apply uniq_elem. Qed.

Lemma split_names_units s : units_ok s -> Forall units_ok (split_names s).
Proof.
  intros Hs. unfold split_names. rewrite Forall_forall. intros x Hx. apply elem_filter in Hx as [Hx _].
  apply list_elem_of_In, in_map_iff in Hx as (y & <- & Hy%list_elem_of_In). apply trim_units.
  eapply units_sub; [|exact Hs]. intros c Hc. rewrite <-(join_split_unit 44 s).
  clear Hs. induction (split_unit 44 s) as [|z l IH]; [by apply not_elem_of_nil in Hy|].
  destruct l as [|z' l]; [apply list_elem_of_singleton in Hy as ->; done|].
  rewrite join_cons2. rewrite !elem_of_app. apply elem_of_cons in Hy as [->|Hy]; [by left|]. right. right. by apply IH.
Qed.

(** Joining texts as values. *)
Lemma join_strings l : join_values (JArr (List.map JStr l)) = inr (join (js ",") l).
Proof.
  unfold join_values, js_String. 
  assert (E : unprintable (JArr (List.map JStr l)) = false) by (simpl; induction l; [done|]; simpl; done).
  rewrite E. clear E. f_equal. cbn [jv_to_string]. f_equal. induction l; [done|]. simpl. by f_equal.
Qed.

(** * The text of [setting] *)

Definition JTextOk (v : jv) : Prop := match v with JStr s => units_ok s | _ => True end.
Definition units_opt (o : option jstr) : Prop := units_ok (or_empty o).

(** The values of a form can be written: texts are 16-bit units, and the number
    of connections reads back from its text. *)
Record writable (f : ChannelFormValues) : Prop := {
  wr_proxy : JTextOk (fv_proxy f);
  wr_prompt : JTextOk (fv_system_prompt f);
  wr_azure : JTextOk (fv_azure_responses_version f);
  wr_shards : match fv_http2_connection_shards f with JNum x => num_reads x | _ => True end;
  wr_staging : units_opt (fv_base64_staging_models f);
  wr_ignored : units_opt (fv_upstream_model_update_ignored_models f);
  wr_advanced : forall c, parseAdvancedCustomConfig (fv_advanced_custom f) = ParsedConfigOk c ->
    exists c0, c = normalizeAdvancedCustomConfig c0 /\ config_units c0 }.

Definition protocol_of (f : ChannelFormValues) : HttpProtocol := nullish (fv_http_protocol f) ProtoAuto.

Lemma protocol_read f : normalizeHttpProtocol (protocol_value (fv_http_protocol f)) = inr (protocol_of f).
Proof. unfold protocol_of. by destruct (fv_http_protocol f) as [[]|]. Qed.

(** The number of connections, when it is one the schema accepts. *)
Definition shards_ok (v : jv) : Prop :=
  v = JUndef \/ exists x, v = JNum x /\ num_ltb x (num_of_Z 1) = false /\ num_ltb MAX_HTTP2_CONNECTION_SHARDS x = false /\
    num_eqb x x = true /\ num_eqb x nzero = false.

Lemma shards_normal v : shards_ok v ->
  normalizeHttp2ConnectionShards v = inr (match v with JUndef => JOne | _ => v end).
Proof.
  intros [->|(x & -> & H1 & H2 & H3 & H4)]; [done|]. unfold normalizeHttp2ConnectionShards.
  rewrite H3, H4. cbn [negb orb compare_number js_Number unprintable jv_number bind]. by rewrite H1, H2.
Qed.

(** What the form shows of [setting], in the form it is loaded in. *)
Definition written_shards (f : ChannelFormValues) : jv :=
  match protocol_of f, fv_http2_connection_shards f with
  | ProtoAuto, JNum x => if num_ltb (num_of_Z 1) x then JNum x else JOne
  | _, _ => JOne
  end.

Definition moonshot_of (f : ChannelFormValues) : MoonshotFacadeMode := nullish (fv_moonshot_facade_mode f) Emulate.

Definition extra_of (f : ChannelFormValues) : ExtraSettings := {|
  ex_force_format := jv_or (fv_force_format f) (JBool false);
  ex_thinking_to_content := jv_or (fv_thinking_to_content f) (JBool false);
  ex_proxy := JStr (match fv_proxy f with JStr s => trim s | _ => [] end);
  ex_http_protocol := protocol_of f; ex_http2_connection_shards := written_shards f;
  ex_pass_through_body_enabled := jv_or (fv_pass_through_body_enabled f) (JBool false);
  ex_moonshot_facade_mode := moonshot_of f;
  ex_system_prompt := jv_or (fv_system_prompt f) (JStr []);
  ex_system_prompt_override := jv_or (fv_system_prompt_override f) (JBool false) |}.

(** The object of [setting], by the values it holds. *)
Definition setting_of (x : ExtraSettings) : Table :=
  [(js "force_format", ex_force_format x); (js "thinking_to_content", ex_thinking_to_content x);
   (js "proxy", ex_proxy x); (js "pass_through_body_enabled", ex_pass_through_body_enabled x);
   (js "system_prompt", ex_system_prompt x); (js "system_prompt_override", ex_system_prompt_override x)] ++
  match ex_http_protocol x with
  | ProtoHttp1 => [(js "http_protocol", JStr (js "http1"))]
  | ProtoAuto =>
      match ex_http2_connection_shards x with
      | JNum n => if num_ltb (num_of_Z 1) n then [(js "http2_connection_shards", JNum n)] else []
      | _ => []
      end
  end ++
  match ex_moonshot_facade_mode x with
  | KimiPassthrough => [(js "moonshot_facade_mode", JStr (js "kimi_passthrough"))]
  | Emulate => []
  end.

Definition typed_proxy (v : jv) : bool := match v with JUndef | JStr _ => true | _ => false end.

Lemma setting_object_eq f : typed_proxy (fv_proxy f) = true -> shards_ok (fv_http2_connection_shards f) ->
  setting_object f = inr (setting_of (extra_of f)).
Proof.
  intros Hp Hs. unfold setting_object. rewrite protocol_read.
  assert (Ep : trim_value (fv_proxy f) = inr (match fv_proxy f with JStr s => trim s | _ => [] end))
    by (by destruct (fv_proxy f)).
  rewrite Ep. unfold setting_of, extra_of, written_shards. cbn [bind].
  assert (Em : (if bool_decide (fv_moonshot_facade_mode f = Some KimiPassthrough)
     then [(js "moonshot_facade_mode", JStr (js "kimi_passthrough"))] else []) =
     match moonshot_of f with KimiPassthrough => [(js "moonshot_facade_mode", JStr (js "kimi_passthrough"))] | Emulate => [] end)
    by (unfold moonshot_of; by destruct (fv_moonshot_facade_mode f) as [[]|]).
  rewrite Em. destruct (protocol_of f) eqn:Epr; cbn [bind ex_http_protocol ex_http2_connection_shards ex_moonshot_facade_mode]; [|done].
  rewrite shards_normal by done. destruct Hs as [->|(x & -> & H1 & H2 & H3 & H4)]; [done|].
  cbn [bind compare_number js_Number unprintable jv_number]. destruct (num_ltb (num_of_Z 1) x) eqn:E; [by rewrite E|done].
Qed.

(** Values as they come out of a text. *)
Record loaded_extra (x : ExtraSettings) : Prop := {
  le_ff : jv_or (ex_force_format x) (JBool false) = ex_force_format x;
  le_tc : jv_or (ex_thinking_to_content x) (JBool false) = ex_thinking_to_content x;
  le_px : jv_or (ex_proxy x) (JStr []) = ex_proxy x;
  le_pb : jv_or (ex_pass_through_body_enabled x) (JBool false) = ex_pass_through_body_enabled x;
  le_sp : jv_or (ex_system_prompt x) (JStr []) = ex_system_prompt x;
  le_so : jv_or (ex_system_prompt_override x) (JBool false) = ex_system_prompt_override x;
  le_sh : ex_http2_connection_shards x = JOne \/
    ex_http_protocol x = ProtoAuto /\ exists n, ex_http2_connection_shards x = JNum n /\ num_ltb (num_of_Z 1) n = true /\
      normalizeHttp2ConnectionShards (JNum n) = inr (JNum n) }.

Lemma read_setting_of x : loaded_extra x -> read_setting (JObj (setting_of x)) = inr x.
Proof.
  destruct x as [a b c p s d m e g]. intros [H1 H2 H3 H4 H5 H6 H7].
  cbn [ex_force_format ex_thinking_to_content ex_proxy ex_pass_through_body_enabled ex_system_prompt ex_system_prompt_override
       ex_http2_connection_shards ex_http_protocol] in *.
  unfold setting_of. cbn [ex_force_format ex_thinking_to_content ex_proxy ex_pass_through_body_enabled ex_system_prompt
       ex_system_prompt_override ex_http2_connection_shards ex_http_protocol ex_moonshot_facade_mode].
  assert (Hg : forall tl, read_setting (JObj ([(js "force_format", a); (js "thinking_to_content", b); (js "proxy", c);
      (js "pass_through_body_enabled", d); (js "system_prompt", e); (js "system_prompt_override", g)] ++ tl)) =
    (get! protocol <- normalizeHttpProtocol (jv_get (JObj tl) (js "http_protocol"));
     get! shards <- normalizeHttp2ConnectionShards (jv_get (JObj tl) (js "http2_connection_shards"));
     inr (MkExtra (jv_or a (JBool false)) (jv_or b (JBool false)) (jv_or c (JStr [])) protocol
       (match protocol with ProtoHttp1 => JOne | ProtoAuto => shards end) (jv_or d (JBool false))
       (normalizeMoonshotFacadeMode (jv_get (JObj tl) (js "moonshot_facade_mode"))) (jv_or e (JStr [])) (jv_or g (JBool false))))).
  { intros tl. reflexivity. }
  rewrite Hg, H1, H2, H3, H4, H5, H6. destruct H7 as [->|(-> & n & -> & H1n & Hn)].
  - destruct p, m; reflexivity.
  - rewrite H1n.
    assert (Ht : forall tl, normalizeHttp2ConnectionShards (jv_get (JObj ((js "http2_connection_shards", JNum n) :: tl))
        (js "http2_connection_shards")) = inr (JNum n)) by (intros; exact Hn).
    cbn [app]. rewrite Ht. by destruct m.
Qed.

Lemma plain_bool_or v : optional_boolean v = true -> plain (jv_or v (JBool false)).
Proof. destruct v as [| |[]| | | |]; done. Qed.

Lemma plain_text_or v d : JTextOk v -> optional_string (fun _ => true) v = true -> units_ok d -> plain (jv_or v (JStr d)).
Proof. destruct v as [| | | |[]| |]; done. Qed.

Lemma keys_ordinary (l : list string) :
  forallb (fun k => forallb (fun c => (c <? 65536)%N) (js k) && negb (is_some (array_index (js k))))%bool l = true ->
  Forall ordinary (List.map js l).
Proof.
  rewrite forallb_forall. intros H. apply Forall_map, Forall_forall. intros k Hk%list_elem_of_In.
  apply H, andb_true_iff in Hk as [Hu Ha]. split; [by apply units_check|]. by destruct (array_index (js k)).
Qed.

(** Values of a table, one by one. *)
Ltac plain_values :=
  repeat (constructor; [first [done | apply units_check; vm_compute; done]|]); constructor.

Lemma setting_plain x : plain (ex_force_format x) -> plain (ex_thinking_to_content x) -> plain (ex_proxy x) ->
  plain (ex_pass_through_body_enabled x) -> plain (ex_system_prompt x) -> plain (ex_system_prompt_override x) ->
  match ex_http2_connection_shards x with JNum n => num_reads n | _ => True end -> plain_table (setting_of x).
Proof.
  destruct x as [a b c p s d m e g]. unfold setting_of.
  cbn [ex_force_format ex_thinking_to_content ex_proxy ex_pass_through_body_enabled ex_system_prompt
       ex_system_prompt_override ex_http2_connection_shards ex_http_protocol ex_moonshot_facade_mode].
  intros H1 H2 H3 H4 H5 H6 H7. apply plain_table_spec.
  set (tl := _ ++ match m with Emulate => [] | _ => _ end).
  assert (Ht : tl.*1 ∈ [[]; [js "http_protocol"]; [js "http2_connection_shards"]; [js "moonshot_facade_mode"];
      [js "http_protocol"; js "moonshot_facade_mode"]; [js "http2_connection_shards"; js "moonshot_facade_mode"]] /\ Forall plain tl.*2).
  { subst tl. destruct p, m, s; try destruct (num_ltb _ _);
      (split; [apply (bool_decide_unpack _); vm_compute; done|plain_values]). }
  destruct Ht as [Ht Hv]. clearbody tl. rewrite fmap_app, (fmap_app snd).
  repeat (apply elem_of_cons in Ht as [->|Ht]); [..|by apply not_elem_of_nil in Ht].
  all: split; [apply (bool_decide_unpack _); vm_compute; done|].
  all: split; [|apply Forall_app; split; [plain_values|done]].
  all: csimpl; repeat (constructor; [split; [apply units_check|]; vm_compute; done|]); constructor.
Qed.

(** The schema's part of what the two texts are made from. *)
Record typed_form (f : ChannelFormValues) : Prop := {
  ty_ff : optional_boolean (fv_force_format f) = true;
  ty_tc : optional_boolean (fv_thinking_to_content f) = true;
  ty_px : typed_proxy (fv_proxy f) = true;
  ty_pb : optional_boolean (fv_pass_through_body_enabled f) = true;
  ty_sp : optional_string (fun _ => true) (fv_system_prompt f) = true;
  ty_so : optional_boolean (fv_system_prompt_override f) = true;
  ty_vk : optional_enum ["json"; "api_key"]%string (fv_vertex_key_type f) = true;
  ty_ak : optional_enum ["ak_sk"; "api_key"]%string (fv_aws_key_type f) = true;
  ty_az : optional_string (fun _ => true) (fv_azure_responses_version f) = true;
  ty_sh : shards_ok (fv_http2_connection_shards f);
  ty_st : isOptionalJsonObject (fv_settings f) = true;
  ty_ad : is_type f CHANNEL_TYPE_ADVANCED_CUSTOM = true ->
    exists c, parseAdvancedCustomConfig (fv_advanced_custom f) = ParsedConfigOk c }.

Lemma num_of_Z_1_0 x : num_ltb x (num_of_Z 1) = false -> num_eqb x nzero = false.
Proof.
  destruct x as [[]|[]| |[] m e]; try done.
Qed.

Lemma num_eqb_integer x : num_is_integer x = true -> num_eqb x x = true.
Proof.
  destruct x as [[]|[]| |[] m e]; try done; intros _; unfold num_eqb, SFeqb; simpl; by rewrite Z.compare_refl, Pos.compare_cont_refl.
Qed.

Lemma issue_none c p m : issue c p m = [] -> c = false.
Proof. by destruct c. Qed.

Lemma accepted_shards v x : optional_int v = true ->
  compare_number (shards_or_one v) = inr x ->
  num_ltb x (num_of_Z 1) = false -> num_ltb MAX_HTTP2_CONNECTION_SHARDS x = false -> shards_ok v.
Proof.
  destruct v as [| | |y| | |]; try done; intros Hi Hx H1 H2; [by left|]. right. injection Hx as ->. exists x.
  auto 10 using num_eqb_integer, num_of_Z_1_0.
Qed.

Lemma accepted_typed new_url f : accepted new_url f = true -> typed_form f.
Proof.
  unfold accepted. rewrite andb_true_iff. intros [Ho Hr].
  unfold object_ok in Ho. cbn [forallb id] in Ho. bool_hyps.
  assert (Hpx : typed_proxy (fv_proxy f) = true) by (by destruct (fv_proxy f)).
  unfold refine_issues in Hr. rewrite protocol_read in Hr.
  assert (Had : is_type f CHANNEL_TYPE_ADVANCED_CUSTOM = true -> exists c, parseAdvancedCustomConfig (fv_advanced_custom f) = ParsedConfigOk c).
  { intros Ht. rewrite Ht in Hr. destruct (parseAdvancedCustomConfig _) as [|c|]; [|by exists c|done].
    cbn [bind] in Hr. destruct (compare_number _); [done|]. cbn [bind] in Hr. by destruct (issue _ _ _). }
  match type of Hr with context [bind ?a] => destruct a as [|adv]; [done|] end.
  cbn [bind] in Hr. destruct (compare_number _) as [|x] eqn:Ex; [done|]. cbn [bind] in Hr.
  match type of Hr with match ?l with [] => _ | _ => _ end = _ => destruct l eqn:El; [|done] end.
  repeat (apply app_eq_nil in El as [?H El]).
  repeat match goal with H : issue _ _ _ = [] |- _ => apply issue_none in H end. bool_hyps.
  split; try done. eapply accepted_shards; eassumption.
Qed.

Lemma jv_or_twice v d : jv_or (jv_or v d) d = jv_or v d.
Proof. unfold jv_or. destruct (jv_truthy v) eqn:E; [by rewrite E|]. by destruct (jv_truthy d). Qed.

Lemma jv_or_text s : jv_or (JStr s) (JStr []) = JStr s.
Proof. by destruct s. Qed.

Lemma extra_loaded f : shards_ok (fv_http2_connection_shards f) -> loaded_extra (extra_of f).
Proof.
  intros Hs. split; cbn [extra_of ex_force_format ex_thinking_to_content ex_proxy ex_pass_through_body_enabled ex_system_prompt
    ex_system_prompt_override ex_http2_connection_shards ex_http_protocol]; try apply jv_or_twice.
  - apply jv_or_text.
  - unfold written_shards. destruct (protocol_of f); [|by left].
    destruct Hs as [->|(x & -> & H)]; [by left|]. destruct (num_ltb (num_of_Z 1) x) eqn:E; [|by left].
    right. split; [done|]. exists x. split; [done|]. split; [done|]. apply (shards_normal (JNum x)). right. by exists x.
Qed.

Lemma num_reads_one : num_reads (num_of_Z 1).
Proof. by apply num_reads_digits; vm_compute. Qed.

Lemma extra_plain f : typed_form f -> writable f -> plain_table (setting_of (extra_of f)).
Proof.
  intros [] []. apply setting_plain; cbn [extra_of ex_force_format ex_thinking_to_content ex_proxy ex_pass_through_body_enabled
    ex_system_prompt ex_system_prompt_override ex_http2_connection_shards]; auto using plain_bool_or.
  - destruct (fv_proxy f); try done; first [by apply trim_units | by constructor].
  - apply plain_text_or; [done..|constructor].
  - pose proof num_reads_one. unfold written_shards.
    destruct (protocol_of f), (fv_http2_connection_shards f); try done. by destruct (num_ltb _ _).
Qed.

Lemma stringified_truthy t : truthy (json_stringify (JObj t)) = true.
Proof.
  unfold json_stringify. cbn [stringify_gap]. cbv zeta.
  match goal with |- context [match ?p with [] => _ | _ => _ end] => destruct p end; done.
Qed.

Lemma build_setting f : typed_form f -> buildSettingJSON f = inr (json_stringify (JObj (setting_of (extra_of f)))).
Proof. intros []. unfold buildSettingJSON. by rewrite setting_object_eq. Qed.

Lemma load_written x : loaded_extra x -> plain_table (setting_of x) -> load_setting (json_stringify (JObj (setting_of x))) = x.
Proof.
  intros Hl Hp. unfold load_setting. rewrite stringified_truthy, json_parse_compact by done. by rewrite read_setting_of.
Qed.

(** What an accepted form shows of a channel's [setting] is what the form
    shows when the text it is saved as is loaded again: the proxy trimmed, one
    connection with HTTP/1.1, nothing else changed. *)
Theorem setting_roundtrip new_url f :
  accepted new_url f = true -> writable f ->
  exists s, buildSettingJSON f = inr s /\ load_setting s = extra_of f.
Proof.
  intros Ha%accepted_typed Hw. exists (json_stringify (JObj (setting_of (extra_of f)))). split; [by apply build_setting|].
  apply load_written; [apply extra_loaded, Ha|by apply extra_plain].
Qed.

(** * The text of [settings] *)

Lemma map_get_put_if c k k' v t :
  map_get k (put_if c k' v t) = if decide (k = js k') then if c then Some v else None else map_get k t.
Proof. unfold put_if. destruct c; [apply map_get_set|apply map_get_del]. Qed.

Definition key_in (k : jstr) (l : list string) : bool := existsb (fun s => k =s js s) l.

Lemma key_in_false k s l : key_in k (s :: l) = false -> k <> js s /\ key_in k l = false.
Proof. unfold key_in. simpl. rewrite orb_false_iff, jstr_eqb_false. done. Qed.

(** The keys each part of the function writes or deletes. *)
Definition TYPE_KEYS := ["vertex_key_type"; "azure_responses_version"; "openrouter_enterprise"; "aws_key_type"]%string.
Definition PASS_KEYS := ["allow_service_tier"; "disable_store"; "allow_safety_identifier"; "allow_include_obfuscation";
  "allow_inference_geo"; "allow_speed"; "claude_beta_query"]%string.
Definition MEDIA_KEYS := ["disable_task_polling_sleep"; "return_task_id_compat"; "base64_staging"; "video_content_delivery_mode"]%string.
Definition UPSTREAM_KEYS := ["upstream_model_update_check_enabled"; "upstream_model_update_auto_sync_enabled";
  "upstream_model_update_ignored_models"; "upstream_model_update_last_detected_models"; "upstream_model_update_last_check_time"]%string.
Definition MANAGED_KEYS := TYPE_KEYS ++ PASS_KEYS ++ MEDIA_KEYS ++ UPSTREAM_KEYS ++ ["advanced_custom"%string].

Ltac foreign_key :=
  repeat match goal with H : key_in _ (_ :: _) = false |- _ => apply key_in_false in H as [? H] end;
  rewrite ?map_get_put_if, ?map_get_set, ?map_get_del; repeat (rewrite decide_False by assumption).

Lemma foreign_type f k t : key_in k TYPE_KEYS = false -> map_get k (put_type_settings f t) = map_get k t.
Proof. intros H. unfold put_type_settings, TYPE_KEYS in *. by foreign_key. Qed.

Lemma foreign_pass f k t : key_in k PASS_KEYS = false -> map_get k (put_passthrough f t) = map_get k t.
Proof. intros H. unfold put_passthrough, PASS_KEYS in *. by foreign_key. Qed.

Lemma foreign_media f k t : key_in k MEDIA_KEYS = false -> map_get k (put_media f t) = map_get k t.
Proof. intros H. unfold put_media, MEDIA_KEYS in *. by foreign_key. Qed.

Lemma foreign_upstream f k t : key_in k UPSTREAM_KEYS = false -> map_get k (put_upstream f t) = map_get k t.
Proof.
  intros H. unfold put_upstream, UPSTREAM_KEYS in *. destruct (has _ _); [|done].
  repeat match goal with |- context [if ?c then map_set _ _ _ else _] => destruct c end; by foreign_key.
Qed.

Lemma foreign_advanced f k t t' : k <> js "advanced_custom" -> put_advanced f t = inr t' -> map_get k t' = map_get k t.
Proof.
  intros H. unfold put_advanced. destruct (is_type _ _); [destruct (parseAdvancedCustomConfig _); try done|];
    intros [= <-]; rewrite ?map_get_set, ?map_get_del; by rewrite ?decide_False.
Qed.

(** Lookups of the settings' own keys, part by part. *)
Ltac own_key :=
  rewrite ?map_get_put_if, ?map_get_set, ?map_get_del;
  repeat (rewrite decide_False by (by vm_compute)); rewrite ?decide_True by done.

Lemma type_entries f t :
  let t' := put_type_settings f t in
  map_get (js "vertex_key_type") t' = (if is_type f 41 then Some (jv_or (fv_vertex_key_type f) (JStr (js "json"))) else None) /\
  map_get (js "azure_responses_version") t' =
    (if is_type f 3 && jv_truthy (fv_azure_responses_version f) then Some (fv_azure_responses_version f) else None) /\
  map_get (js "openrouter_enterprise") t' = (if is_type f 20 then Some (JBool (on (fv_is_enterprise_account f))) else None) /\
  map_get (js "aws_key_type") t' = (if is_type f 33 then Some (jv_or (fv_aws_key_type f) (JStr (js "ak_sk"))) else None).
Proof. unfold put_type_settings. cbv zeta. split_and!; own_key; done. Qed.

Lemma pass_entries f t :
  let t' := put_passthrough f t in
  let openai := has OPENAI_FIELD_PASSTHROUGH_TYPES (fv_type f) in
  let claude := has CLAUDE_FIELD_PASSTHROUGH_TYPES (fv_type f) in
  let bit c b := if c : bool then Some (JBool b) else None in
  map_get (js "allow_service_tier") t' = bit (has FIELD_PASSTHROUGH_TYPES (fv_type f)) (on (fv_allow_service_tier f)) /\
  map_get (js "disable_store") t' = bit openai (on (fv_disable_store f)) /\
  map_get (js "allow_safety_identifier") t' = bit openai (on (fv_allow_safety_identifier f)) /\
  map_get (js "allow_include_obfuscation") t' = bit openai (on (fv_allow_include_obfuscation f)) /\
  map_get (js "allow_inference_geo") t' = bit (openai || claude)%bool (on (fv_allow_inference_geo f)) /\
  map_get (js "allow_speed") t' = bit claude (on (fv_allow_speed f)) /\
  map_get (js "claude_beta_query") t' = bit (is_type f 14) (on (fv_claude_beta_query f)).
Proof. unfold put_passthrough. cbv zeta. split_and!; own_key; done. Qed.

Definition redirects (f : ChannelFormValues) : VideoMode :=
  if bool_decide (fv_video_content_delivery_mode f = Some VideoRedirect) then VideoRedirect else VideoProxy.

Definition stages (f : ChannelFormValues) : bool :=
  (has BASE64_STAGING_CHANNEL_TYPES (fv_type f) && on (fv_base64_staging_enabled f))%bool.

Lemma media_entries f t :
  let t' := put_media f t in
  map_get (js "disable_task_polling_sleep") t' = Some (JBool (on (fv_disable_task_polling_sleep f))) /\
  map_get (js "return_task_id_compat") t' =
    (if is_type f CHANNEL_TYPE_VOLC_NATIVE && on (fv_return_task_id_compat f) then Some (JBool true) else None) /\
  map_get (js "base64_staging") t' = (if stages f then Some (staging_value f) else None) /\
  map_get (js "video_content_delivery_mode") t' =
    (if is_type f CHANNEL_TYPE_DOUBAO_VIDEO then Some (JStr (video_text (redirects f))) else None).
Proof. unfold put_media, stages, redirects. cbv zeta. split_and!; own_key; done. Qed.

Definition fetches (f : ChannelFormValues) : bool := has MODEL_FETCHABLE_TYPES (fv_type f).

Lemma upstream_entries f t :
  let t' := put_upstream f t in
  let check := on (fv_upstream_model_update_check_enabled f) in
  let own k v := if fetches f then Some v else map_get (js k) t in
  map_get (js "upstream_model_update_check_enabled") t' = own "upstream_model_update_check_enabled"%string (JBool check) /\
  map_get (js "upstream_model_update_auto_sync_enabled") t' =
    own "upstream_model_update_auto_sync_enabled"%string (JBool (check && on (fv_upstream_model_update_auto_sync_enabled f))) /\
  map_get (js "upstream_model_update_ignored_models") t' =
    own "upstream_model_update_ignored_models"%string (name_list (fv_upstream_model_update_ignored_models f)).
Proof.
  unfold put_upstream, fetches. cbv zeta. destruct (has _ _); [|done].
  repeat match goal with |- context [if ?c then map_set ?k _ _ else _] =>
    let b := fresh "b" in set (b := c); clearbody b; destruct b end;
  split_and!; own_key; done.
Qed.

Lemma put_if_plain c k v t : plain_table t -> ordinary (js k) -> (c = true -> plain v) -> plain_table (put_if c k v t).
Proof. intros Ht Hk Hv. unfold put_if. destruct c; [apply map_set_plain; auto|by apply plain_del]. Qed.

Lemma set_plain k v t : plain_table t -> ordinary (js k) -> plain v -> plain_table (map_set (js k) v t).
Proof. intros. by apply map_set_plain. Qed.

Ltac ordinary_key := split; [apply units_check; vm_compute; done|vm_compute; done].

Lemma name_list_plain o : units_opt o -> plain (name_list o).
Proof.
  intros H%split_names_units. unfold name_list. rewrite plain_arr, plain_list_Forall. apply Forall_map.
  rewrite Forall_forall in *. intros x Hx. apply H. by apply uniq_elem.
Qed.

Lemma plain_lits (s : string) : forallb (fun c => (c <? 65536)%N) (js s) = true -> plain (JStr (js s)).
Proof. apply units_check. Qed.

Lemma staging_plain f : units_opt (fv_base64_staging_models f) -> plain (staging_value f).
Proof.
  intros H%name_list_plain. unfold staging_value. change (plain_table [(js "enabled", JBool true);
    (js "storage_policy", JStr (js "relay_media_temp")); (js "models", name_list (fv_base64_staging_models f))]).
  apply plain_table_spec. split; [apply (bool_decide_unpack _); vm_compute; done|].
  split; [csimpl; repeat (constructor; [ordinary_key|]); constructor|plain_values].
Qed.

Lemma enum_plain v a b : optional_enum [a; b] v = true -> plain (JStr (js a)) -> plain (JStr (js b)) -> plain (jv_or v (JStr (js a))).
Proof.
  unfold jv_or. destruct v as [| | | |s| |]; try done. cbn [optional_enum existsb]. intros H Ha Hb.
  destruct (jv_truthy (JStr s)); [|done]. rewrite orb_false_r in H.
  apply orb_true_iff in H as [E|E]; apply jstr_eqb_true in E as ->; done.
Qed.

Lemma text_plain v : optional_string (fun _ => true) v = true -> JTextOk v -> jv_truthy v = true -> plain v.
Proof. by destruct v as [| |[]| | | |]. Qed.

Lemma type_plain f t : typed_form f -> writable f -> plain_table t -> plain_table (put_type_settings f t).
Proof.
  intros [] [] Ht. unfold put_type_settings.
  repeat (apply put_if_plain; [|ordinary_key|]); try done; intros Hc.
  - by apply (enum_plain _ _ "api_key"); [|apply plain_lits..].
  - apply andb_true_iff in Hc as [_ Hc]. by apply text_plain.
  - by apply (enum_plain _ _ "api_key"); [|apply plain_lits..].
Qed.

Lemma pass_plain f t : plain_table t -> plain_table (put_passthrough f t).
Proof. intros Ht. unfold put_passthrough. cbv zeta. repeat (apply put_if_plain; [|ordinary_key|done]). done. Qed.

Lemma media_plain f t : writable f -> plain_table t -> plain_table (put_media f t).
Proof.
  intros [] Ht. unfold put_media. cbv zeta.
  apply put_if_plain; [|ordinary_key|intros _; case_bool_decide; by apply plain_lits].
  apply put_if_plain; [|ordinary_key|intros _; by apply staging_plain].
  apply put_if_plain; [|ordinary_key|done]. by apply set_plain; [|ordinary_key|].
Qed.

Lemma num_reads_zero : num_reads nzero.
Proof. by apply num_reads_digits; vm_compute. Qed.

Lemma upstream_plain f t : writable f -> plain_table t -> plain_table (put_upstream f t).
Proof.
  intros [] Ht. unfold put_upstream. destruct (has _ _); [|done]. cbv zeta.
  set (u := map_set (js "upstream_model_update_ignored_models") _ _).
  assert (Hu : plain_table u) by (subst u; repeat (apply set_plain; [|ordinary_key|]); try done; by apply name_list_plain).
  clearbody u. set (b := (_ || _)%bool). clearbody b.
  set (u' := if b then _ else _). assert (Hu' : plain_table u') by (subst u'; destruct b; [by apply set_plain; [|ordinary_key|]|done]).
  clearbody u'. destruct (negb _); [|done]. apply set_plain; [done|ordinary_key|exact num_reads_zero].
Qed.

Lemma advanced_plain f t t' : writable f -> plain_table t -> put_advanced f t = inr t' -> plain_table t'.
Proof.
  intros [] Ht. unfold put_advanced. destruct (is_type _ _); [|intros [= <-]; by apply plain_del].
  destruct (parseAdvancedCustomConfig _) as [|c|]; [by intros [= <-]| |done]. intros [= <-].
  destruct (wr_advanced0 c eq_refl) as (c0 & -> & Hc). by apply set_plain; [|ordinary_key|apply plain_config].
Qed.

(** * Loading the text again *)

Lemma join_names o : join_values (name_list o) = inr (join (js ",") (uniq (split_names (or_empty o)))).
Proof. apply join_strings. Qed.

(** The list a stored value shows as. *)
Definition shown_list (o : option jv) : jstr := match join_values (nullish o JUndef) with inr s => s | inl _ => [] end.

Definition names_text (o : option jstr) : jstr := join (js ",") (uniq (split_names (or_empty o))).

(** What the form shows of [settings] when it is loaded: what it was saved with,
    for the settings of the channel's type; the defaults for those of other
    types; and, for a type whose models cannot be fetched, what was stored. *)
Definition other_for (f : ChannelFormValues) (t : Table) : OtherSettings :=
  let openai := has OPENAI_FIELD_PASSTHROUGH_TYPES (fv_type f) in
  let claude := has CLAUDE_FIELD_PASSTHROUGH_TYPES (fv_type f) in
  let check := on (fv_upstream_model_update_check_enabled f) in
  {| os_vertexKeyType := if is_type f 41 then jv_or (fv_vertex_key_type f) (JStr (js "json")) else JStr (js "json");
     os_azureResponsesVersion := if is_type f 3 then jv_or (fv_azure_responses_version f) (JStr []) else JStr [];
     os_isEnterpriseAccount := is_type f 20 && on (fv_is_enterprise_account f);
     os_awsKeyType := if is_type f 33 then jv_or (fv_aws_key_type f) (JStr (js "ak_sk")) else JStr (js "ak_sk");
     os_allowServiceTier := has FIELD_PASSTHROUGH_TYPES (fv_type f) && on (fv_allow_service_tier f);
     os_disableStore := openai && on (fv_disable_store f);
     os_allowSafetyIdentifier := openai && on (fv_allow_safety_identifier f);
     os_allowIncludeObfuscation := openai && on (fv_allow_include_obfuscation f);
     os_allowInferenceGeo := (openai || claude) && on (fv_allow_inference_geo f);
     os_allowSpeed := claude && on (fv_allow_speed f);
     os_claudeBetaQuery := is_type f 14 && on (fv_claude_beta_query f);
     os_disableTaskPollingSleep := on (fv_disable_task_polling_sleep f);
     os_returnTaskIdCompat := is_type f CHANNEL_TYPE_VOLC_NATIVE && on (fv_return_task_id_compat f);
     os_base64StagingEnabled := stages f;
     os_base64StagingModels := if stages f then names_text (fv_base64_staging_models f) else [];
     os_videoContentDeliveryMode := if is_type f CHANNEL_TYPE_DOUBAO_VIDEO then redirects f else VideoRedirect;
     os_upstreamModelUpdateCheckEnabled := if fetches f then check else flag (JObj t) "upstream_model_update_check_enabled";
     os_upstreamModelUpdateAutoSyncEnabled :=
       if fetches f then check && on (fv_upstream_model_update_auto_sync_enabled f)
       else flag (JObj t) "upstream_model_update_auto_sync_enabled";
     os_upstreamModelUpdateIgnoredModels :=
       if fetches f then names_text (fv_upstream_model_update_ignored_models f)
       else shown_list (map_get (js "upstream_model_update_ignored_models") t);
     os_advancedCustom :=
       if is_type f CHANNEL_TYPE_ADVANCED_CUSTOM then
         match parseAdvancedCustomConfig (fv_advanced_custom f) with
         | ParsedConfigOk c => stringifyAdvancedCustomConfig c
         | _ => []
         end
       else [] |}%bool.

Lemma flag_bit t k c b : map_get (js k) t = (if c : bool then Some (JBool b) else None) -> flag (JObj t) k = (c && b)%bool.
Proof. unfold flag. cbn [jv_get]. intros ->. by destruct c. Qed.

Lemma flag_same t t' k : map_get (js k) t' = map_get (js k) t -> flag (JObj t') k = flag (JObj t) k.
Proof. unfold flag. cbn [jv_get]. by intros ->. Qed.

Section Table.
Context (f : ChannelFormValues) (t t' : Table) (E : settings_table f t = inr t').

Lemma table_advanced k : (k =s js "advanced_custom") = false ->
  map_get k t' = map_get k (put_upstream f (put_media f (put_passthrough f (put_type_settings f t)))).
Proof using E. rewrite jstr_eqb_false. intros Hk. by apply (foreign_advanced f). Qed.

Lemma table_foreign k : key_in k MANAGED_KEYS = false -> map_get k t' = map_get k t.
Proof using E.
  unfold MANAGED_KEYS, key_in. rewrite !existsb_app, !orb_false_iff. intros (H1 & H2 & H3 & H4 & H5).
  cbn [existsb] in H5. rewrite orb_false_r in H5.
  by rewrite table_advanced, foreign_upstream, foreign_media, foreign_pass, foreign_type.
Qed.

Lemma table_type k : key_in k TYPE_KEYS = true -> map_get k t' = map_get k (put_type_settings f t).
Proof using E.
  unfold key_in, TYPE_KEYS. intros H. apply existsb_exists in H as (s & Hs%list_elem_of_In & ->%jstr_eqb_true).
  repeat (apply elem_of_cons in Hs as [->|Hs]; [by rewrite table_advanced, foreign_upstream, foreign_media, foreign_pass|]).
  by apply not_elem_of_nil in Hs.
Qed.

Lemma table_pass k : key_in k PASS_KEYS = true -> map_get k t' = map_get k (put_passthrough f (put_type_settings f t)).
Proof using E.
  unfold key_in, PASS_KEYS. intros H. apply existsb_exists in H as (s & Hs%list_elem_of_In & ->%jstr_eqb_true).
  repeat (apply elem_of_cons in Hs as [->|Hs]; [by rewrite table_advanced, foreign_upstream, foreign_media|]).
  by apply not_elem_of_nil in Hs.
Qed.

Lemma table_media k : key_in k MEDIA_KEYS = true ->
  map_get k t' = map_get k (put_media f (put_passthrough f (put_type_settings f t))).
Proof using E.
  unfold key_in, MEDIA_KEYS. intros H. apply existsb_exists in H as (s & Hs%list_elem_of_In & ->%jstr_eqb_true).
  repeat (apply elem_of_cons in Hs as [->|Hs]; [by rewrite table_advanced, foreign_upstream|]).
  by apply not_elem_of_nil in Hs.
Qed.

Lemma table_before_upstream k : key_in k UPSTREAM_KEYS = true ->
  map_get k (put_media f (put_passthrough f (put_type_settings f t))) = map_get k t.
Proof using Type.
  unfold key_in, UPSTREAM_KEYS. intros H. apply existsb_exists in H as (s & Hs%list_elem_of_In & ->%jstr_eqb_true).
  repeat (apply elem_of_cons in Hs as [->|Hs]; [by rewrite foreign_media, foreign_pass, foreign_type|]).
  by apply not_elem_of_nil in Hs.
Qed.

(** The advanced configuration, as it is stored. *)
Lemma table_stored_config (Hty : typed_form f) :
  map_get (js "advanced_custom") t' =
    (if is_type f CHANNEL_TYPE_ADVANCED_CUSTOM then
       match parseAdvancedCustomConfig (fv_advanced_custom f) with ParsedConfigOk c => Some (jv_of_config c) | _ => None end
     else None).
Proof using E.
  unfold settings_table, put_advanced in E. destruct (is_type f _) eqn:Et.
  - destruct (ty_ad f Hty Et) as [c Hc]. rewrite Hc in E |- *. injection E as <-. apply map_get_set_eq.
  - injection E as <-. rewrite map_get_del. by rewrite decide_True.
Qed.

(** The lists join, unless one of a type without fetching does not. *)
Lemma table_staging : join_values (jv_get (jv_get (JObj t') (js "base64_staging")) (js "models")) =
  inr (if stages f then names_text (fv_base64_staging_models f) else []).
Proof using E.
  cbn [jv_get]. rewrite table_media by done. rewrite (proj1 (proj2 (proj2 (media_entries f _)))).
  destruct (stages f); [|done]. cbn [nullish jv_get staging_value]. apply join_names.
Qed.

Lemma table_ignored : map_get (js "upstream_model_update_ignored_models") t' =
  if fetches f then Some (name_list (fv_upstream_model_update_ignored_models f))
  else map_get (js "upstream_model_update_ignored_models") t.
Proof using E.
  rewrite table_advanced by done. rewrite (proj2 (proj2 (upstream_entries f _))). cbv zeta.
  by rewrite table_before_upstream.
Qed.

Lemma table_check : flag (JObj t') "upstream_model_update_check_enabled" =
  if fetches f then on (fv_upstream_model_update_check_enabled f) else flag (JObj t) "upstream_model_update_check_enabled".
Proof using E.
  unfold flag. cbn [jv_get]. rewrite table_advanced by done. rewrite (proj1 (upstream_entries f _)). cbv zeta.
  rewrite table_before_upstream by done. by destruct (fetches f).
Qed.

Lemma table_auto : flag (JObj t') "upstream_model_update_auto_sync_enabled" =
  if fetches f then (on (fv_upstream_model_update_check_enabled f) && on (fv_upstream_model_update_auto_sync_enabled f))%bool
  else flag (JObj t) "upstream_model_update_auto_sync_enabled".
Proof using E.
  unfold flag. cbn [jv_get]. rewrite table_advanced by done. rewrite (proj1 (proj2 (upstream_entries f _))). cbv zeta.
  rewrite table_before_upstream by done. by destruct (fetches f).
Qed.

Lemma table_other ignored advanced :
  ignored = (if fetches f then names_text (fv_upstream_model_update_ignored_models f)
             else shown_list (map_get (js "upstream_model_update_ignored_models") t)) ->
  advanced = os_advancedCustom (other_for f t) ->
  other_of (JObj t') (if stages f then names_text (fv_base64_staging_models f) else []) true ignored advanced = other_for f t.
Proof using E.
  intros Hi Ha.
  destruct (type_entries f t) as (T1 & T2 & T3 & T4).
  destruct (pass_entries f (put_type_settings f t)) as (P1 & P2 & P3 & P4 & P5 & P6 & P7).
  destruct (media_entries f (put_passthrough f (put_type_settings f t))) as (M1 & M2 & M3 & M4).
  rewrite <-table_type in T1, T2, T3, T4 by done. rewrite <-table_pass in P1, P2, P3, P4, P5, P6, P7 by done.
  rewrite <-table_media in M1, M2, M3, M4 by done.
  unfold other_of. rewrite (flag_bit _ _ _ _ T3), (flag_bit _ _ _ _ P1), (flag_bit _ _ _ _ P2), (flag_bit _ _ _ _ P3),
    (flag_bit _ _ _ _ P4), (flag_bit _ _ _ _ P5), (flag_bit _ _ _ _ P6), (flag_bit _ _ _ _ P7), table_check, table_auto.
  rewrite (flag_bit t' "disable_task_polling_sleep" true _ M1).
  assert (Hr : flag (JObj t') "return_task_id_compat" = (is_type f CHANNEL_TYPE_VOLC_NATIVE && on (fv_return_task_id_compat f))%bool)
    by (rewrite (flag_bit t' _ _ true M2); by rewrite andb_true_r).
  rewrite Hr. unfold flag. cbn [jv_get]. rewrite T1, T2, T4, M3, M4, Ha, Hi. unfold other_for.
  f_equal.
  - destruct (is_type f 41); [apply jv_or_twice|done].
  - destruct (is_type f 3); [|done]. cbn [andb]. unfold jv_or. by destruct (jv_truthy _) eqn:Ev; cbn [nullish]; rewrite ?Ev.
  - destruct (is_type f 33); [apply jv_or_twice|done].
  - by destruct (stages f).
  - destruct (is_type f CHANNEL_TYPE_DOUBAO_VIDEO); [|done]. by destruct (redirects f).
Qed.

Lemma advanced_fetches : is_type f CHANNEL_TYPE_ADVANCED_CUSTOM = true -> fetches f = true.
Proof using Type. unfold is_type, fetches. intros ->%N.eqb_eq. done. Qed.

Lemma read_settings_table : typed_form f -> writable f -> read_settings (JObj t') = inr (other_for f t).
Proof using E.
  intros Hty Hwr. unfold read_settings. rewrite table_staging. cbn [jv_get]. rewrite table_ignored, table_stored_config by done.
  assert (Hadv : forall c, is_type f CHANNEL_TYPE_ADVANCED_CUSTOM = true ->
    parseAdvancedCustomConfig (fv_advanced_custom f) = ParsedConfigOk c -> config_of_jv (jv_of_config c) = Some c).
  { intros c Ht Hc. destruct (wr_advanced f Hwr c Hc) as (c0 & -> & _). apply read_config. }
  destruct (is_type f CHANNEL_TYPE_ADVANCED_CUSTOM) eqn:Et.
  - destruct (ty_ad f Hty Et) as [c Hc]. rewrite Hc, (advanced_fetches Et). cbn [nullish]. rewrite join_names, (Hadv c) by done.
    f_equal. apply table_other; [by rewrite advanced_fetches|]. unfold other_for. cbn [os_advancedCustom]. by rewrite Et, Hc.
  - cbn [nullish jv_truthy]. destruct (fetches f) eqn:Ef.
    + cbn [nullish]. rewrite join_names. f_equal. apply table_other; [by rewrite Ef|]. unfold other_for. cbn [os_advancedCustom]. by rewrite Et.
    + destruct (join_values _) as [e|s] eqn:Ej; f_equal; (apply table_other; [rewrite Ef; unfold shown_list; by rewrite Ej|]);
        unfold other_for; cbn [os_advancedCustom]; by rewrite Et.
Qed.

Lemma table_plain : writable f -> typed_form f -> plain_table t -> plain_table t'.
Proof using E.
  intros Hw Hty Ht. eapply advanced_plain; [done| |exact E]. apply upstream_plain; [done|]. apply media_plain; [done|].
  apply pass_plain. by apply type_plain.
Qed.
End Table.

Lemma settings_table_some f t : typed_form f -> exists t', settings_table f t = inr t'.
Proof.
  intros Hty. unfold settings_table, put_advanced. destruct (is_type f _) eqn:Et; [|eauto].
  destruct (ty_ad f Hty Et) as [c ->]. eauto.
Qed.

(** The stored settings of an accepted form are an object. *)
Lemma stored_object f : isOptionalJsonObject (fv_settings f) = true -> exists t, stored_settings f = JObj t.
Proof.
  unfold isOptionalJsonObject, checkOptionalJson, parseOptionalJson, stored_settings.
  set (s := or_empty (fv_settings f)). destruct (truthy (trim s)) eqn:Et.
  - destruct (json_parse s) as [v|] eqn:Ej; [|done]. cbn [fmap option_fmap option_map]. intros Hv.
    destruct (_ && _)%bool; [|by exists []]. cbn [nullish]. destruct v; try done. eauto.
  - intros _. destruct (truthy s && _)%bool; [|by exists []]. rewrite json_parse_blank by done. by exists [].
Qed.

Lemma build_settings f t t' : stored_settings f = JObj t -> settings_table f t = inr t' ->
  buildSettingsJSON f = inr (json_stringify (JObj t')).
Proof. intros Hs Et. unfold buildSettingsJSON. by rewrite Hs, Et. Qed.

(** C20: the settings an accepted form of a channel is saved with, loaded again,
    show as the form did for the channel's own type and as the defaults for
    what other types have; every setting the form does not know is kept. *)
Theorem settings_roundtrip new_url f t :
  accepted new_url f = true -> writable f -> stored_settings f = JObj t -> plain_table t ->
  exists s t', buildSettingsJSON f = inr s /\ load_settings s = inr (other_for f t) /\
    json_parse s = Some (JObj t') /\ forall k, key_in k MANAGED_KEYS = false -> map_get k t' = map_get k t.
Proof.
  intros Ha%accepted_typed Hw Hs Ht. destruct (settings_table_some f t Ha) as [t' Et].
  assert (Hp : plain_table t') by (by eapply table_plain).
  exists (json_stringify (JObj t')), t'. split; [by eapply build_settings|].
  assert (Hj : json_parse (json_stringify (JObj t')) = Some (JObj t')) by (by apply json_parse_compact).
  split; [|split; [done|intros k; by eapply table_foreign]].
  unfold load_settings. rewrite stringified_truthy, Hj. by eapply read_settings_table.
Qed.

(** * Saving twice *)

Lemma map_set_same k v (t : Table) : map_get k t = Some v -> map_set k v t = t.
Proof.
  induction t as [|[k' v'] t IH]; [done|]. cbn [map_get map_set].
  destruct (bool_decide_reflect (k = k')) as [->|]; [by intros [= ->]|]. intros H. by rewrite IH.
Qed.

Lemma map_del_same k (t : Table) : map_get k t = None -> map_del k t = t.
Proof.
  rewrite map_get_none. intros H. unfold map_del. apply filter_all. rewrite Forall_forall. intros [k' v] Hin.
  rewrite bool_decide_false; [done|]. simpl. intros ->. apply H. apply list_elem_of_fmap. by exists (k, v).
Qed.

Lemma put_if_same c k v t : map_get (js k) t = (if c : bool then Some v else None) -> put_if c k v t = t.
Proof. unfold put_if. destruct c; [apply map_set_same|apply map_del_same]. Qed.

(** The form after the two texts are loaded. *)
Record reloaded (f f' : ChannelFormValues) (x : ExtraSettings) (o : OtherSettings) : Prop := {
  re_type : fv_type f' = fv_type f;
  re_ff : fv_force_format f' = ex_force_format x; re_tc : fv_thinking_to_content f' = ex_thinking_to_content x;
  re_px : fv_proxy f' = ex_proxy x; re_hp : fv_http_protocol f' = Some (ex_http_protocol x);
  re_sh : fv_http2_connection_shards f' = ex_http2_connection_shards x;
  re_pb : fv_pass_through_body_enabled f' = ex_pass_through_body_enabled x;
  re_mf : fv_moonshot_facade_mode f' = Some (ex_moonshot_facade_mode x);
  re_sp : fv_system_prompt f' = ex_system_prompt x; re_so : fv_system_prompt_override f' = ex_system_prompt_override x;
  re_vk : fv_vertex_key_type f' = os_vertexKeyType o; re_az : fv_azure_responses_version f' = os_azureResponsesVersion o;
  re_en : fv_is_enterprise_account f' = Some (os_isEnterpriseAccount o); re_ak : fv_aws_key_type f' = os_awsKeyType o;
  re_st : fv_allow_service_tier f' = Some (os_allowServiceTier o); re_ds : fv_disable_store f' = Some (os_disableStore o);
  re_si : fv_allow_safety_identifier f' = Some (os_allowSafetyIdentifier o);
  re_io : fv_allow_include_obfuscation f' = Some (os_allowIncludeObfuscation o);
  re_ig : fv_allow_inference_geo f' = Some (os_allowInferenceGeo o); re_as : fv_allow_speed f' = Some (os_allowSpeed o);
  re_cb : fv_claude_beta_query f' = Some (os_claudeBetaQuery o);
  re_dt : fv_disable_task_polling_sleep f' = Some (os_disableTaskPollingSleep o);
  re_rt : fv_return_task_id_compat f' = Some (os_returnTaskIdCompat o);
  re_be : fv_base64_staging_enabled f' = Some (os_base64StagingEnabled o);
  re_bm : fv_base64_staging_models f' = Some (os_base64StagingModels o);
  re_vd : fv_video_content_delivery_mode f' = Some (os_videoContentDeliveryMode o);
  re_uc : fv_upstream_model_update_check_enabled f' = Some (os_upstreamModelUpdateCheckEnabled o);
  re_ua : fv_upstream_model_update_auto_sync_enabled f' = Some (os_upstreamModelUpdateAutoSyncEnabled o);
  re_ui : fv_upstream_model_update_ignored_models f' = Some (os_upstreamModelUpdateIgnoredModels o);
  re_ac : fv_advanced_custom f' = Some (os_advancedCustom o) }.

Lemma written_shards_ok f : shards_ok (fv_http2_connection_shards f) -> shards_ok (written_shards f).
Proof.
  assert (H1 : shards_ok JOne) by (right; eexists; split; [done|]; vm_compute; done).
  unfold written_shards. intros H. destruct (protocol_of f); [|done].
  destruct (fv_http2_connection_shards f); try done. by destruct (num_ltb _ _).
Qed.

Lemma extra_again f f' o : typed_form f -> reloaded f f' (extra_of f) o ->
  typed_proxy (fv_proxy f') = true /\ shards_ok (fv_http2_connection_shards f') /\ extra_of f' = extra_of f.
Proof.
  intros Hty [].
  assert (Hp : protocol_of f' = protocol_of f) by (unfold protocol_of at 1; by rewrite re_hp0).
  assert (Hm : moonshot_of f' = moonshot_of f) by (unfold moonshot_of at 1; by rewrite re_mf0).
  assert (Hs : written_shards f' = written_shards f).
  { unfold written_shards at 1. rewrite Hp, re_sh0. cbn [extra_of ex_http2_connection_shards]. unfold written_shards.
    destruct (protocol_of f); [|done]. destruct (fv_http2_connection_shards f) as [| | |y| | |]; try done.
    destruct (num_ltb (num_of_Z 1) y) eqn:Ey; [by rewrite Ey|done]. }
  split; [by rewrite re_px0|]. split; [rewrite re_sh0; apply written_shards_ok, Hty|].
  unfold extra_of at 1. rewrite Hp, Hm, Hs, re_ff0, re_tc0, re_px0, re_pb0, re_sp0, re_so0.
  unfold extra_of. cbn [ex_force_format ex_thinking_to_content ex_proxy ex_pass_through_body_enabled ex_system_prompt
    ex_system_prompt_override]. rewrite !jv_or_twice. f_equal. f_equal. destruct (fv_proxy f); try done. apply trim_idemp.
Qed.

Lemma setting_again f f' o : typed_form f -> reloaded f f' (extra_of f) o -> buildSettingJSON f' = buildSettingJSON f.
Proof.
  intros Hty Hr. destruct (extra_again f f' o Hty Hr) as (H1 & H2 & H3). rewrite (build_setting f) by done.
  unfold buildSettingJSON. rewrite setting_object_eq by done. by rewrite H3.
Qed.

Lemma name_list_again o : name_list (Some (names_text o)) = name_list o.
Proof.
  unfold name_list, names_text. cbn [or_empty nullish]. do 2 f_equal.
  rewrite split_names_join; [apply uniq_id, uniq_nodup|apply uniq_names, split_names_names].
Qed.

Section Again.
Context (f f' : ChannelFormValues) (t t' : Table) (E : settings_table f t = inr t') (Hty : typed_form f) (Hwr : writable f)
  (x : ExtraSettings) (R : reloaded f f' x (other_for f t)).

Lemma again_type n : is_type f' n = is_type f n.
Proof using R. unfold is_type. by rewrite (re_type _ _ _ _ R). Qed.

Lemma again_bit c b o : o = Some (c && b)%bool -> (if c then Some (JBool (on o)) else None) = (if c then Some (JBool b) else None).
Proof using Type. intros ->. by destruct c. Qed.

Lemma type_again : put_type_settings f' t' = t'.
Proof using E R.
  destruct (type_entries f t) as (T1 & T2 & T3 & T4). rewrite <-(table_type f t t' E) in T1, T2, T3, T4 by done.
  unfold put_type_settings. rewrite !again_type.
  rewrite (re_vk _ _ _ _ R), (re_az _ _ _ _ R), (re_en _ _ _ _ R), (re_ak _ _ _ _ R). unfold other_for.
  cbn [os_vertexKeyType os_azureResponsesVersion os_isEnterpriseAccount os_awsKeyType].
  rewrite (put_if_same _ "vertex_key_type"), (put_if_same _ "azure_responses_version"), (put_if_same _ "openrouter_enterprise"),
    (put_if_same _ "aws_key_type"); [done|..].
  - rewrite T4. destruct (is_type f 33); [by rewrite jv_or_twice|done].
  - rewrite T3. symmetry. by apply again_bit.
  - rewrite T2. destruct (is_type f 3); [|done]. cbn [andb]. unfold jv_or. by destruct (jv_truthy (fv_azure_responses_version f)) eqn:Ev; rewrite ?Ev.
  - rewrite T1. destruct (is_type f 41); [by rewrite jv_or_twice|done].
Qed.

Lemma pass_again : put_passthrough f' t' = t'.
Proof using E R.
  destruct (pass_entries f (put_type_settings f t)) as (P1 & P2 & P3 & P4 & P5 & P6 & P7).
  rewrite <-(table_pass f t t' E) in P1, P2, P3, P4, P5, P6, P7 by done.
  unfold put_passthrough. rewrite again_type, (re_type _ _ _ _ R). cbv zeta.
  rewrite (re_st _ _ _ _ R), (re_ds _ _ _ _ R), (re_si _ _ _ _ R), (re_io _ _ _ _ R), (re_ig _ _ _ _ R), (re_as _ _ _ _ R), (re_cb _ _ _ _ R).
  unfold other_for. cbn [os_allowServiceTier os_disableStore os_allowSafetyIdentifier os_allowIncludeObfuscation
    os_allowInferenceGeo os_allowSpeed os_claudeBetaQuery].
  rewrite (put_if_same _ "allow_service_tier"), (put_if_same _ "disable_store"), (put_if_same _ "allow_safety_identifier"),
    (put_if_same _ "allow_include_obfuscation"), (put_if_same _ "allow_inference_geo"), (put_if_same _ "allow_speed"),
    (put_if_same _ "claude_beta_query"); [done|..].
  all: etransitivity; [eassumption|symmetry; by apply again_bit].
Qed.

Lemma stages_again : stages f' = stages f.
Proof using R.
  unfold stages. rewrite (re_type _ _ _ _ R), (re_be _ _ _ _ R). unfold other_for, stages. cbn [os_base64StagingEnabled on nullish].
  by destruct (has _ _).
Qed.

Lemma redirects_again : is_type f CHANNEL_TYPE_DOUBAO_VIDEO = true -> redirects f' = redirects f.
Proof using R.
  intros Ht. unfold redirects at 1. rewrite (re_vd _ _ _ _ R). unfold other_for. cbn [os_videoContentDeliveryMode]. rewrite Ht.
  by destruct (redirects f).
Qed.

Lemma media_again : put_media f' t' = t'.
Proof using E R.
  destruct (media_entries f (put_passthrough f (put_type_settings f t))) as (M1 & M2 & M3 & M4).
  rewrite <-(table_media f t t' E) in M1, M2, M3, M4 by done.
  unfold put_media. fold (stages f') (redirects f'). cbv zeta. rewrite stages_again, !again_type.
  rewrite (re_dt _ _ _ _ R), (re_rt _ _ _ _ R). unfold other_for. cbn [os_disableTaskPollingSleep os_returnTaskIdCompat on nullish].
  rewrite (map_set_same (js "disable_task_polling_sleep")) by done.
  rewrite (put_if_same _ "return_task_id_compat") by (rewrite M2; by destruct (is_type f CHANNEL_TYPE_VOLC_NATIVE)).
  rewrite (put_if_same _ "base64_staging").
  - apply put_if_same. rewrite M4. destruct (is_type f CHANNEL_TYPE_DOUBAO_VIDEO) eqn:Et; [|done]. by rewrite redirects_again.
  - rewrite M3. destruct (stages f) eqn:Es; [|done]. unfold staging_value.
    rewrite (re_bm _ _ _ _ R). unfold other_for. cbn [os_base64StagingModels]. by rewrite Es, name_list_again.
Qed.

(** The rest of the upstream entries: kept, or what a check that is off leaves. *)
Lemma upstream_rest (g : ChannelFormValues) (u : Table) : fetches g = true ->
  let u' := put_upstream g u in
  (exists l, map_get (js "upstream_model_update_last_detected_models") u' = Some (JArr l) /\
    (on (fv_upstream_model_update_check_enabled g) = false -> l = [])) /\
  exists n, map_get (js "upstream_model_update_last_check_time") u' = Some (JNum n).
Proof using Type.
  unfold fetches, put_upstream. intros ->. cbv zeta.
  set (v := map_set (js "upstream_model_update_ignored_models") _ _). clearbody v.
  set (chk := on _). cbn [jv_get].
  set (d := map_get (js "upstream_model_update_last_detected_models") v).
  set (v1 := if (_ || _)%bool then _ else v).
  assert (Hd : exists l, map_get (js "upstream_model_update_last_detected_models") v1 = Some (JArr l) /\ (chk = false -> l = [])).
  { subst v1 d. destruct (map_get _ v) as [w|] eqn:Ew; cbn [nullish is_array negb orb]; [|exists []; by rewrite map_get_set_eq].
    destruct w; cbn [is_array negb orb]; try (exists []; by rewrite map_get_set_eq).
    destruct chk; cbn [negb]; [eexists; split; [exact Ew|done]|exists []; by rewrite map_get_set_eq]. }
  clearbody v1. destruct (map_get (js "upstream_model_update_last_check_time") v1) as [w|] eqn:Ew; cbn [nullish].
  - destruct w; cbn [is_number negb]; rewrite ?map_get_set; repeat (rewrite decide_False by (by vm_compute));
      (split; [exact Hd|]); rewrite ?decide_True by done; eauto.
  - cbn [is_number negb]. rewrite !map_get_set. rewrite decide_False by (by vm_compute). rewrite decide_True by done. eauto.
Qed.

Lemma upstream_again : put_upstream f' t' = t'.
Proof using E R.
  unfold put_upstream. rewrite (re_type _ _ _ _ R). fold (fetches f). destruct (fetches f) eqn:Ef; [|done].
  destruct (upstream_entries f (put_media f (put_passthrough f (put_type_settings f t)))) as (U1 & U2 & U3).
  destruct (upstream_rest f (put_media f (put_passthrough f (put_type_settings f t))) Ef) as [(l & U4 & Ul) (n & U5)].
  rewrite <-(table_advanced f t t' E) in U1, U2, U3, U4, U5 by done. rewrite Ef in U1, U2, U3.
  cbv zeta. rewrite (re_uc _ _ _ _ R), (re_ua _ _ _ _ R), (re_ui _ _ _ _ R). unfold other_for.
  cbn [os_upstreamModelUpdateCheckEnabled os_upstreamModelUpdateAutoSyncEnabled os_upstreamModelUpdateIgnoredModels on nullish].
  rewrite Ef, name_list_again. set (chk := on _) in *.
  assert (Hc : (chk && (chk && on (fv_upstream_model_update_auto_sync_enabled f)) = chk && on (fv_upstream_model_update_auto_sync_enabled f))%bool)
    by (by destruct chk).
  rewrite Hc, (map_set_same _ _ _ U1), (map_set_same _ _ _ U2), (map_set_same _ _ _ U3). cbn [jv_get]. rewrite U4. cbn [nullish is_array negb orb].
  assert (Hl : (if negb chk then map_set (js "upstream_model_update_last_detected_models") (JArr []) t' else t') = t').
  { destruct chk eqn:Ec; [done|]. apply map_set_same. by rewrite U4, Ul. }
  rewrite Hl, U5. done.
Qed.

Lemma advanced_again : put_advanced f' t' = inr t'.
Proof using E R Hty Hwr.
  pose proof (table_stored_config f t t' E Hty) as Hc.
  unfold put_advanced. rewrite again_type, (re_ac _ _ _ _ R). unfold other_for. cbn [os_advancedCustom].
  destruct (is_type f CHANNEL_TYPE_ADVANCED_CUSTOM) eqn:Et; [|by rewrite map_del_same].
  destruct (ty_ad f Hty Et) as [c Ec]. rewrite Ec in Hc |- *. destruct (wr_advanced f Hwr c Ec) as (c0 & -> & Hu).
  rewrite stored_config_reads by (by apply config_units_normalize). rewrite normalize_idempotent. by rewrite map_set_same.
Qed.

Lemma settings_again : plain_table t -> fv_settings f' = Some (json_stringify (JObj t')) ->
  buildSettingsJSON f' = inr (json_stringify (JObj t')).
Proof using E R Hty Hwr.
  intros Ht Hf. apply (build_settings f' t').
  - unfold stored_settings. rewrite Hf. cbn [or_empty nullish]. rewrite stringified_truthy.
    rewrite json_parse_compact by (by apply (table_plain f t t' E)).
    destruct (_ =s _) eqn:Es; [|done]. exfalso. apply jstr_eqb_true in Es.
    assert (Hj : json_parse (json_stringify (JObj t')) = Some (JObj [])) by (by rewrite Es).
    rewrite json_parse_compact in Hj by (by apply (table_plain f t t' E)). injection Hj as ->.
    pose proof (table_media f t [] E (js "disable_task_polling_sleep") eq_refl) as Hm.
    rewrite (proj1 (media_entries f _)) in Hm. done.
  - unfold settings_table. rewrite type_again, pass_again, media_again, upstream_again. apply advanced_again.
Qed.
End Again.

(** A payload is made from what the form's fields come to. *)
Record same_fields (inc : bool) (f f' : ChannelFormValues) : Prop := {
  sf_setting : buildSettingJSON f' = buildSettingJSON f; sf_settings : buildSettingsJSON f' = buildSettingsJSON f;
  sf_name : fv_name f' = fv_name f; sf_type : fv_type f' = fv_type f;
  sf_url : normalizeBaseUrl (fv_base_url f') = normalizeBaseUrl (fv_base_url f);
  sf_org : or_empty (fv_openai_organization f') = or_empty (fv_openai_organization f);
  sf_models : fv_models f' = fv_models f; sf_group : fv_group f' = fv_group f;
  sf_mapping : or_empty (fv_model_mapping f') = or_empty (fv_model_mapping f);
  sf_priority : or_zero (fv_priority f') = or_zero (fv_priority f); sf_weight : or_zero (fv_weight f') = or_zero (fv_weight f);
  sf_test : or_empty (fv_test_model f') = or_empty (fv_test_model f);
  sf_ban : nullish (fv_auto_ban f') 1%Z = nullish (fv_auto_ban f) 1%Z;
  sf_codes : or_empty (fv_status_code_mapping f') = or_empty (fv_status_code_mapping f);
  sf_tag : or_empty (fv_tag f') = or_empty (fv_tag f); sf_remark : or_empty (fv_remark f') = or_empty (fv_remark f);
  sf_param : or_empty (fv_param_override f') = or_empty (fv_param_override f);
  sf_header : or_empty (fv_header_override f') = or_empty (fv_header_override f);
  sf_other : or_empty (fv_other f') = or_empty (fv_other f);
  sf_cost : inc = true -> trim (fv_cost_discount f') = trim (fv_cost_discount f);
  sf_key : truthy (trim (fv_key f')) = false; sf_key' : truthy (trim (fv_key f)) = false }.

Lemma payload_ext inc id f f' : same_fields inc f f' ->
  transformFormDataToUpdatePayload f' id inc = transformFormDataToUpdatePayload f id inc.
Proof.
  intros []. unfold transformFormDataToUpdatePayload, clearable, text_or_null, JText.
  rewrite sf_setting0, sf_settings0. destruct (buildSettingJSON f) as [|s1]; [done|]. cbn [bind].
  destruct (buildSettingsJSON f) as [|s2]; [done|]. cbn [bind].
  rewrite sf_name0, sf_type0, sf_url0, sf_org0, sf_models0, sf_group0, sf_mapping0, sf_priority0, sf_weight0, sf_test0, sf_ban0,
    sf_codes0, sf_tag0, sf_remark0, sf_param0, sf_header0, sf_other0, sf_key0, sf_key'0.
  destruct inc; [by rewrite sf_cost0|done].
Qed.

(** A field of a channel that holds what a payload sends; null is kept as the empty text. *)
Definition kept (p : Table) (k : string) (s : jstr) : Prop :=
  map_get (js k) p = Some (JStr s) \/ map_get (js k) p = Some JNull /\ s = [].

(** The channel holds what the payload [p] of the form [f] sends. *)
Record holds (inc : bool) (f : ChannelFormValues) (p : Table) (c : Channel) : Prop := {
  ho_name : kept p "name" (ch_name c); ho_url : kept p "base_url" (or_empty (ch_base_url c));
  ho_org : kept p "openai_organization" (or_empty (ch_openai_organization c)); ho_models : kept p "models" (ch_models c);
  ho_group : kept p "group" (ch_group c); ho_mapping : kept p "model_mapping" (or_empty (ch_model_mapping c));
  ho_test : kept p "test_model" (or_empty (ch_test_model c)); ho_codes : kept p "status_code_mapping" (or_empty (ch_status_code_mapping c));
  ho_tag : kept p "tag" (or_empty (ch_tag c)); ho_remark : kept p "remark" (ch_remark c);
  ho_setting : kept p "setting" (or_empty (ch_setting c)); ho_param : kept p "param_override" (or_empty (ch_param_override c));
  ho_header : kept p "header_override" (or_empty (ch_header_override c)); ho_settings : kept p "settings" (ch_settings c);
  ho_other : kept p "other" (ch_other c); ho_cost : inc = true -> kept p "cost_discount" (or_empty (ch_cost_discount c));
  ho_type : ch_type c = fv_type f; ho_priority : or_zero (ch_priority c) = or_zero (fv_priority f);
  ho_weight : or_zero (ch_weight c) = or_zero (fv_weight f);
  ho_ban : nullish (ch_auto_ban c) 1%Z = nullish (fv_auto_ban f) 1%Z }.

Lemma kept_clean p k s a : kept p k s -> map_get (js k) p = Some (clean_value (JStr a)) -> s = a.
Proof. intros [-> | [-> ->]]; by destruct a; intros [=]. Qed.

Lemma kept_text p k s a : kept p k s -> map_get (js k) p = Some (JStr a) -> s = a.
Proof. intros [-> | [-> ->]]; by intros [=]. Qed.

(** What an update sends. *)
Lemma update_entries f id inc s1 s2 p :
  buildSettingJSON f = inr s1 -> buildSettingsJSON f = inr s2 -> transformFormDataToUpdatePayload f id inc = inr p ->
  map_get (js "name") p = Some (clean_value (JStr (fv_name f))) /\
  map_get (js "base_url") p = Some (JStr (normalizeBaseUrl (fv_base_url f))) /\
  map_get (js "openai_organization") p = Some (JText (fv_openai_organization f)) /\
  map_get (js "models") p = Some (clean_value (JStr (fv_models f))) /\
  map_get (js "group") p = Some (clean_value (JStr (formatGroups (fv_group f)))) /\
  map_get (js "model_mapping") p = Some (JText (fv_model_mapping f)) /\
  map_get (js "test_model") p = Some (JText (fv_test_model f)) /\
  map_get (js "status_code_mapping") p = Some (JText (fv_status_code_mapping f)) /\
  map_get (js "tag") p = Some (JText (fv_tag f)) /\ map_get (js "remark") p = Some (JText (fv_remark f)) /\
  map_get (js "setting") p = Some (clean_value (JStr s1)) /\
  map_get (js "param_override") p = Some (JText (fv_param_override f)) /\
  map_get (js "header_override") p = Some (JText (fv_header_override f)) /\
  map_get (js "settings") p = Some (clean_value (JStr s2)) /\ map_get (js "other") p = Some (clean_value (JText (fv_other f))) /\
  map_get (js "cost_discount") p = (if inc then Some (JStr (trim (fv_cost_discount f))) else None) /\
  map_get (js "key") p = (if truthy (trim (fv_key f)) then Some (clean_value (JStr (fv_key f))) else None).
Proof.
  intros H1 H2. unfold transformFormDataToUpdatePayload. rewrite H1, H2. cbn [bind]. cbv zeta.
  destruct inc, (truthy (trim (fv_key f))); intros [= <-]; split_and!; reflexivity.
Qed.

Lemma url_again s : trimmed (normalizeBaseUrl (Some s)) -> normalizeBaseUrl (Some (normalizeBaseUrl (Some s))) = normalizeBaseUrl (Some s).
Proof.
  intros Ht. unfold normalizeBaseUrl at 1. cbn [or_empty nullish]. rewrite trim_id by done.
  unfold normalizeBaseUrl. cbn [or_empty nullish]. by rewrite reverse_involutive, drop_while_idemp.
Qed.

Lemma groups_again g : Forall list_name g -> g <> [] -> parseGroups (or_str (formatGroups g) (js "default")) = g.
Proof.
  intros Hg Hne. unfold parseGroups, formatGroups.
  assert (Ht : truthy (join (js ",") g) = true).
  { destruct g as [|x g]; [done|]. apply Forall_cons in Hg as [(Hx & _) _]. apply truthy_true.
    destruct g; [done|]. rewrite join_cons2. by destruct x. }
  unfold or_str. rewrite Ht, Ht. by apply split_names_join.
Qed.

Lemma accepted_group new_url f : accepted new_url f = true -> fv_group f <> [].
Proof.
  unfold accepted, object_ok. rewrite andb_true_iff. intros [Ho _]. cbn [forallb id] in Ho. bool_hyps. by intros E; rewrite E in *.
Qed.

Lemma stringified_clean t : clean_value (JStr (json_stringify (JObj t))) = JStr (json_stringify (JObj t)).
Proof. pose proof (stringified_truthy t) as H. unfold clean_value, is_empty_text. by destruct (json_stringify (JObj t)). Qed.

(** The texts of a channel that holds a payload. *)
Record holds_texts (f : ChannelFormValues) (s1 s2 : jstr) (inc : bool) (c : Channel) : Prop := {
  ht_name : ch_name c = fv_name f; ht_url : or_empty (ch_base_url c) = normalizeBaseUrl (fv_base_url f);
  ht_org : or_empty (ch_openai_organization c) = or_empty (fv_openai_organization f); ht_models : ch_models c = fv_models f;
  ht_group : ch_group c = formatGroups (fv_group f); ht_mapping : or_empty (ch_model_mapping c) = or_empty (fv_model_mapping f);
  ht_test : or_empty (ch_test_model c) = or_empty (fv_test_model f);
  ht_codes : or_empty (ch_status_code_mapping c) = or_empty (fv_status_code_mapping f);
  ht_tag : or_empty (ch_tag c) = or_empty (fv_tag f); ht_remark : ch_remark c = or_empty (fv_remark f);
  ht_setting : or_empty (ch_setting c) = s1; ht_param : or_empty (ch_param_override c) = or_empty (fv_param_override f);
  ht_header : or_empty (ch_header_override c) = or_empty (fv_header_override f); ht_settings : ch_settings c = s2;
  ht_other : ch_other c = or_empty (fv_other f);
  ht_cost : inc = true -> or_empty (ch_cost_discount c) = trim (fv_cost_discount f) }.

Lemma holds_payload f id inc s1 s2 p c :
  buildSettingJSON f = inr s1 -> buildSettingsJSON f = inr s2 -> transformFormDataToUpdatePayload f id inc = inr p ->
  holds inc f p c -> holds_texts f s1 s2 inc c.
Proof.
  intros H1 H2 Hp [].
  destruct (update_entries f id inc s1 s2 p H1 H2 Hp) as
    (E1 & E2 & E3 & E4 & E5 & E6 & E7 & E8 & E9 & E10 & E11 & E12 & E13 & E14 & E15 & E16 & _).
  split; try (by eapply kept_clean); try (by eapply kept_text).
  intros ->. eapply kept_text; [by apply ho_cost0|done].
Qed.

Lemma reload_channel (f : ChannelFormValues) x o c :
  load_setting (or_empty (ch_setting c)) = x -> load_settings (ch_settings c) = inr o -> ch_type c = fv_type f ->
  exists f', transformChannelToFormDefaults c = inr f' /\ reloaded f f' x o.
Proof.
  intros H1 H2 H3. unfold transformChannelToFormDefaults. rewrite H1, H2. cbn [bind]. eexists. split; [reflexivity|].
  split; try reflexivity. exact H3.
Qed.

(** The fields of a loaded form that come from the channel's own. *)
Lemma loaded_fields c f' : transformChannelToFormDefaults c = inr f' ->
  fv_name f' = ch_name c /\ fv_base_url f' = Some (or_empty (ch_base_url c)) /\
  fv_openai_organization f' = Some (or_empty (ch_openai_organization c)) /\ fv_models f' = ch_models c /\
  fv_group f' = parseGroups (or_str (ch_group c) (js "default")) /\ fv_model_mapping f' = Some (or_empty (ch_model_mapping c)) /\
  fv_priority f' = Some (or_zero (ch_priority c)) /\ fv_weight f' = Some (or_zero (ch_weight c)) /\
  fv_test_model f' = Some (or_empty (ch_test_model c)) /\ fv_auto_ban f' = Some (nullish (ch_auto_ban c) 1%Z) /\
  fv_status_code_mapping f' = Some (or_empty (ch_status_code_mapping c)) /\ fv_tag f' = Some (or_empty (ch_tag c)) /\
  fv_remark f' = Some (ch_remark c) /\ fv_param_override f' = Some (or_empty (ch_param_override c)) /\
  fv_header_override f' = Some (or_empty (ch_header_override c)) /\ fv_other f' = Some (ch_other c) /\
  fv_cost_discount f' = or_empty (ch_cost_discount c) /\ fv_key f' = [] /\ fv_settings f' = Some (or_str (ch_settings c) (js "{}")).
Proof.
  unfold transformChannelToFormDefaults. destruct (load_settings _) as [|o]; [done|]. intros [= <-]. split_and!; reflexivity.
Qed.

Lemma saved_fields f f' t t' s inc c :
  settings_table f t = inr t' -> typed_form f -> writable f -> stored_settings f = JObj t -> plain_table t ->
  Forall list_name (fv_group f) -> fv_group f <> [] -> trimmed (normalizeBaseUrl (fv_base_url f)) -> truthy (trim (fv_key f)) = false ->
  holds_texts f s (json_stringify (JObj t')) inc c ->
  or_zero (ch_priority c) = or_zero (fv_priority f) -> or_zero (ch_weight c) = or_zero (fv_weight f) ->
  nullish (ch_auto_ban c) 1%Z = nullish (fv_auto_ban f) 1%Z ->
  transformChannelToFormDefaults c = inr f' -> reloaded f f' (extra_of f) (other_for f t) -> same_fields inc f f'.
Proof.
  intros Et Hty Hw Hs Ht Hg Hne Hu Hk [] Hpr Hwt Hab Hf' HR.
  destruct (loaded_fields c f' Hf') as (F1 & F2 & F3 & F4 & F5 & F6 & F7 & F8 & F9 & F10 & F11 & F12 & F13 & F14 & F15 & F16 & F17 & F18 & F19).
  split; rewrite ?F1, ?F2, ?F3, ?F4, ?F5, ?F6, ?F7, ?F8, ?F9, ?F10, ?F11, ?F12, ?F13, ?F14, ?F15, ?F16, ?F17, ?F18; try done.
  - by apply (setting_again f f' _ Hty HR).
  - rewrite (build_settings f t t' Hs Et). apply (settings_again f f' t t' Et Hty Hw _ HR Ht).
    rewrite F19, ht_settings0. unfold or_str. by rewrite stringified_truthy.
  - apply HR.
  - rewrite ht_url0. destruct (fv_base_url f); by apply url_again.
  - rewrite ht_group0. by apply groups_again.
  - intros Hi. rewrite ht_cost0 by done. apply trim_idemp.
Qed.


(** * The cost discount *)

(** [i] or [i.ds]: the texts a discount can have. *)
Definition discount_text (i : N) (ds : jstr) : jstr := print_N i ++ match ds with [] => [] | _ => 46%N :: ds end.

Definition fraction (p : N -> bool) (s : jstr) : bool :=
  match s with
  | [] => true
  | c :: t => ((c =? 46)%N && forallb p t && (1 <=? length t)%nat && (length t <=? 6)%nat)%bool
  end.

Lemma opt_fraction p s :
  is_some (m (ROpt (RSeqs [RLit (js "."); RRep (RSet p) 1 (Some 6)])) (m REol Some) s) = fraction p (rest s).
Proof.
  rewrite m_opt. change (js ".") with [46]%N. cbn [RSeqs groups app clear_caps]. rewrite m_seq.
  destruct (rest s) as [|c t] eqn:Er.
  - cbn [m rest clear_caps strip_prefix]. rewrite Er. by simpl.
  - assert (Hk : m REol Some s = None) by (simpl; by rewrite Er). rewrite Hk.
    cbn [fraction]. destruct (N.eqb_spec c 46) as [->|Hc].
    2: { rewrite m_lit_fail; [done|]. rewrite Er. cbn [strip_prefix]. by rewrite (proj2 (N.eqb_neq 46 c)) by done. }
    rewrite (m_lit _ _ s t) by (by rewrite Er).
    assert (Hp : m (RRep (RSet p) 1 (Some 6)) (progress (m REol Some) s) (adv s [46]%N t) =
                 m (RRep (RSet p) 1 (Some 6)) (m REol Some) (adv s [46]%N t)).
    { apply m_shrinking. intros s' Hl. cbn [adv rest] in Hl. unfold progress. rewrite Er. cbn [length].
      by rewrite (proj2 (Nat.eqb_neq _ _)) by lia. }
    rewrite Hp.
    pose proof (m_bounded_eol p 1 6 (adv s [46]%N t) ltac:(lia)) as H. cbn [adv rest] in H.
    cbn [andb]. rewrite <-H. match goal with |- is_some (match ?a with _ => _ end) = _ => by destruct a end.
Qed.

Lemma discount_re_spec s :
  re_test discount_re s = match s with
                          | c :: t => ((c =? 48)%N && fraction is_digit t) || ((c =? 49)%N && fraction (N.eqb 48) t)
                          | [] => false
                          end%bool.
Proof.
  unfold discount_re. set (A := RSeqs [RLit (js "0"); _]). set (B := RSeqs [RLit (js "1"); _]).
  cbn [RSeqs]. rewrite test_bol, m_seq.
  assert (Hside : forall d p, is_some (m (RSeqs [RLit [d]; ROpt (RSeqs [RLit (js "."); RRep (RSet p) 1 (Some 6)])]) (m REol Some) (St None s [])) =
     match s with c :: t => (c =? d)%N && fraction p t | [] => false end%bool).
  { intros d p. match goal with |- context [RSeqs [RLit [d]; ?b]] => change (RSeqs [RLit [d]; b]) with (RSeq (RLit [d]) b) end.
    rewrite m_seq. destruct s as [|c t]; [done|].
    destruct (N.eqb_spec c d) as [->|Hc].
    - rewrite (m_lit _ _ _ t) by done. by rewrite opt_fraction.
    - rewrite m_lit_fail; [done|]. cbn [rest strip_prefix]. by rewrite (proj2 (N.eqb_neq d c)) by done. }
  pose proof (Hside 48%N is_digit) as HA. pose proof (Hside 49%N (N.eqb 48)) as HB. clear Hside.
  change (is_some (m A (m REol Some) (St None s [])) = match s with c :: t => (c =? 48)%N && fraction is_digit t | [] => false end%bool) in HA.
  change (is_some (m B (m REol Some) (St None s [])) = match s with c :: t => (c =? 49)%N && fraction (N.eqb 48) t | [] => false end%bool) in HB.
  destruct (m A (m REol Some) (St None s [])) as [x|] eqn:EA.
  - assert (E : m (RAlt A B) (m REol Some) (St None s []) = Some x) by (change (match m A (m REol Some) (St None s []) with Some y => Some y | None => m B (m REol Some) (St None s []) end = Some x); by rewrite EA).
    rewrite E. destruct s; [done|]. by rewrite <-HA.
  - rewrite m_alt_miss, HB by done. destruct s; [done|]. by rewrite <-HA.
Qed.

Lemma zeros_value ds : forallb (N.eqb 48) ds = true -> digits_value ds = 0%N /\ forallb is_digit ds = true.
Proof.
  unfold digits_value. induction ds as [|d ds IH]; [done|]. cbn [forallb]. rewrite andb_true_iff, N.eqb_eq. intros [<- H].
  destruct (IH H) as [E ->]. split; [exact E|done].
Qed.

Lemma digits_zero ds : forallb is_digit ds = true -> digits_value ds = 0%N -> forallb (N.eqb 48) ds = true.
Proof.
  intros Hd. induction ds as [|d ds IH] using rev_ind; [done|].
  unfold digits_value in *. rewrite digits_from_app, !forallb_app in *. apply andb_true_iff in Hd as [Hd Hx].
  unfold digits_from at 1. cbn [fold_left]. cbn [forallb] in *. unfold is_digit, in_range in Hx. intros E.
  rewrite IH by (done || lia). lia.
Qed.

Lemma digits_bound ds : forallb is_digit ds = true -> (digits_value ds < 10 ^ N.of_nat (length ds))%N.
Proof.
  induction ds as [|d ds IH] using rev_ind; [done|]. rewrite forallb_app, andb_true_iff. cbn [forallb]. intros [Hd Hx].
  rewrite andb_true_r in Hx. specialize (IH Hd). unfold digits_value in *. rewrite digits_from_app, length_app, Nat.add_1_r.
  rewrite Nat2N.inj_succ, N.pow_succ_r'. unfold digits_from at 1. cbn [fold_left]. unfold is_digit, in_range in Hx. lia.
Qed.

(** The cost discounts the form accepts are the texts [0], [1], [0.d...]
    and [1.0...] with at most six decimals: the decimal numbers from 0 to 1. *)
Theorem cost_discount_range (value : jstr) :
  isCostDiscount value = true <->
  exists i ds, trim value = discount_text i ds /\ forallb is_digit ds = true /\ (length ds <= 6)%nat /\
    (i * 10 ^ N.of_nat (length ds) + digits_value ds <= 10 ^ N.of_nat (length ds))%N.
Proof.
  unfold isCostDiscount. rewrite discount_re_spec.
  split.
  - destruct (trim value) as [|c t]; [done|]. rewrite orb_true_iff, !andb_true_iff, !N.eqb_eq.
    intros [[-> H]|[-> H]].
    + exists 0%N, (List.tl t). unfold fraction in H. destruct t as [|c t]; [split_and!; [done|done|simpl; lia|vm_compute; done]|]. bool_hyps.
      repeat match goal with E : (_ =? _)%N = true |- _ => apply N.eqb_eq in E as -> end. cbn [List.tl].
      split; [unfold discount_text; by destruct t|]. split; [done|]. split; [lia|].
      pose proof (digits_bound t ltac:(done)). lia.
    + exists 1%N, (List.tl t). unfold fraction in H. destruct t as [|c t]; [split_and!; [done|done|simpl; lia|vm_compute; done]|]. bool_hyps.
      repeat match goal with E : (_ =? _)%N = true |- _ => apply N.eqb_eq in E as -> end. cbn [List.tl].
      destruct (zeros_value t ltac:(done)) as [Hv Hd]. split; [unfold discount_text; by destruct t|]. split; [done|].
      split; [lia|]. rewrite Hv. lia.
  - intros (i & ds & -> & Hd & Hl & Hv).
    assert (Hp : (0 < 10 ^ N.of_nat (length ds))%N) by (apply N.neq_0_lt_0, N.pow_nonzero; lia).
    assert (Hi : i = 0%N \/ i = 1%N /\ digits_value ds = 0%N) by nia.
    unfold discount_text. destruct Hi as [-> | [-> Hz]]; cbn [print_N app]; simpl; destruct ds as [|d ds]; try done.
    + rewrite orb_false_r. cbn [fraction]. rewrite Hd. simpl in Hl |- *. by rewrite (proj2 (Nat.leb_le _ _)) by lia.
    + cbn [fraction]. rewrite (digits_zero (d :: ds)) by done. simpl in Hl |- *. by rewrite (proj2 (Nat.leb_le _ _)) by lia.
Qed.

(** * Witnesses *)

Definition sample_url (s : jstr) : option URL :=
  if s =s js "socks5://h:1" then Some (MkURL (js "socks5:") (js "h:1") (js "h") (js "1")) else None.

Definition sample_stored : Table :=
  [(js "x", JArr [JOne]);
   (js "base64_staging", JObj [(js "enabled", JBool true); (js "models", JArr [JStr (js "a"); JStr (js "b"); JStr (js " a")])]);
   (js "allow_speed", JBool true)].

Lemma sample_accepted : accepted sample_url sample_form = true.
Proof. vm_compute. reflexivity. Qed.

Lemma sample_stored_read : stored_settings sample_form = JObj sample_stored.
Proof. vm_compute. reflexivity. Qed.

Lemma sample_form_writable : writable sample_form.
Proof.
  split; try (apply units_check; vm_compute; reflexivity).
  - change (num_reads (num_of_Z 8)). by apply num_reads_digits; vm_compute.
  - assert (E : parseAdvancedCustomConfig (fv_advanced_custom sample_form) = ParsedNull) by (vm_compute; reflexivity).
    rewrite E. done.
Qed.

Ltac plain_items := apply plain_list_Forall; cbn [fmap list_fmap snd];
  repeat match goal with |- Forall plain (_ :: _) => apply Forall_cons_2 | |- Forall plain [] => apply Forall_nil_2 end.

Ltac plain_tables :=
  repeat match goal with
  | |- plain (JObj _) => rewrite plain_obj; split; [apply (bool_decide_unpack _); vm_compute; done|split;
      [csimpl; repeat (constructor; [ordinary_key|]); constructor|plain_items]]
  | |- plain (JArr _) => rewrite plain_arr; plain_items
  | |- plain (JStr _) => apply units_check; vm_compute; done
  | |- plain JOne => exact num_reads_one
  | |- plain (JBool _) => exact I
  end.

Lemma sample_stored_plain : plain_table sample_stored.
Proof. unfold plain_table, sample_stored. plain_tables. Qed.

Lemma setting_roundtrip_witness :
  exists s, buildSettingJSON sample_form = inr s /\ load_setting s = extra_of sample_form.
Proof. apply (setting_roundtrip sample_url); [exact sample_accepted|exact sample_form_writable]. Defined.

Lemma settings_roundtrip_witness :
  exists s t', buildSettingsJSON sample_form = inr s /\ load_settings s = inr (other_for sample_form sample_stored) /\
    json_parse s = Some (JObj t') /\ forall k, key_in k MANAGED_KEYS = false -> map_get k t' = map_get k sample_stored.
Proof.
  apply (settings_roundtrip sample_url); [exact sample_accepted|exact sample_form_writable|exact sample_stored_read|exact sample_stored_plain].
Defined.

(** The channel that keeps every field of a payload. *)
Definition text_in (p : Table) (k : string) : jstr := match map_get (js k) p with Some (JStr s) => s | _ => [] end.

Definition saved_channel (f : ChannelFormValues) (p : Table) : Channel := {|
  ch_name := text_in p "name"; ch_type := fv_type f; ch_base_url := Some (text_in p "base_url");
  ch_openai_organization := Some (text_in p "openai_organization"); ch_models := text_in p "models"; ch_group := text_in p "group";
  ch_model_mapping := Some (text_in p "model_mapping"); ch_priority := Some (or_zero (fv_priority f));
  ch_weight := Some (or_zero (fv_weight f)); ch_test_model := Some (text_in p "test_model"); ch_auto_ban := Some (nullish (fv_auto_ban f) 1%Z);
  ch_status := fv_status f; ch_status_code_mapping := Some (text_in p "status_code_mapping"); ch_tag := Some (text_in p "tag");
  ch_remark := text_in p "remark"; ch_cost_discount := Some (text_in p "cost_discount"); ch_setting := Some (text_in p "setting");
  ch_param_override := Some (text_in p "param_override"); ch_header_override := Some (text_in p "header_override");
  ch_settings := text_in p "settings"; ch_other := text_in p "other"; ch_multi_key_mode := Random |}.

Definition sample_payload : Table :=
  match transformFormDataToUpdatePayload sample_form 7 true with inr p => p | inl _ => [] end.

Lemma sample_holds : holds true sample_form sample_payload (saved_channel sample_form sample_payload).
Proof.
  split; try reflexivity; first [left; vm_compute; reflexivity | right; vm_compute; split; reflexivity | intros _; left; vm_compute; reflexivity].
Qed.

