(* ===== verification/ChannelSubmit.v ===== *)
(** Saving a channel (channels/lib/model-mapping-validation.ts,
    components/drawers/channel-mutate-drawer.tsx, hooks/use-channel-mutate-form.ts):
    the checks of the mapping of models, the submit handler of the drawer with the
    questions it asks, and the request the mutation sends.

    The answers of the two dialogs are arguments of the handler. [dirty] is the
    set of field names the form library reports as changed. *)

From Stdlib Require Import NArith ZArith Lia ZifyBool ZifyN.
From stdpp Require Import base list gmap strings.
From S2P Require Import Prelude JsString JsNum Json JsTable AdvancedCustom StatusCodes ChannelForm ChannelFormProps.

(** * The mapping of models *)

Definition parseModelsString (modelsStr : jstr) : list jstr := if truthy modelsStr then split_names modelsStr else [].
Definition formatModelsArray (models : list jstr) : jstr := join (js ",") (uniq models).
Definition normalizeModelName (model : jstr) : jstr := trim model.

(** The entries of the JSON object in a text; none for another value. *)
Definition mapping_object (text : jstr) : list (jstr * jv) :=
  match json_parse text with
  | Some parsed => if (jv_truthy parsed && is_object parsed && negb (is_array parsed))%bool then jv_entries parsed else []
  | None => []
  end.

Definition extractMappingSourceModels (modelMapping : jstr) : list jstr :=
  let trimmed := trim modelMapping in
  if negb (truthy trimmed) then [] else uniq (List.filter truthy (List.map (fun e => trim e.1) (mapping_object trimmed))).

Definition extractRedirectModels (modelMapping : jstr) : list jstr :=
  let trimmed := trim modelMapping in
  if negb (truthy trimmed) then []
  else uniq (List.filter truthy (List.map (fun e => trim (string_or_empty e.2)) (mapping_object trimmed))).

Definition hasModelConfigChanged (currentModels : list jstr) (currentModelMapping : jstr) (initialModels : list jstr)
    (initialModelMapping : jstr) : bool :=
  if (Nat.eqb (length initialModels) 0 && negb (truthy initialModelMapping))%bool then true
  else if negb (Nat.eqb (length currentModels) (length initialModels)) then true
  else if existsb (fun p => negb (p.1 =s p.2)) (combine currentModels initialModels) then true
  else negb (trim currentModelMapping =s trim initialModelMapping).

Definition findMissingModelsInMapping (modelMapping : jstr) (currentModels : list jstr) : list jstr :=
  if (negb (truthy modelMapping) || (trim modelMapping =s []))%bool then []
  else
    let modelSet := List.map normalizeModelName currentModels in
    uniq (List.filter (fun key => truthy key && negb (bool_decide (key ∈ modelSet)))%bool
            (List.map (fun e => normalizeModelName e.1) (mapping_object modelMapping))).

Inductive MappingCheck := MappingValid | MappingNotObject | MappingNotStrings | MappingNotJson.

#[export] Instance mapping_check_eq_dec : EqDecision MappingCheck.
Proof. solve_decision. Defined.

Definition validateModelMappingJson (modelMapping : jstr) : MappingCheck :=
  if (negb (truthy modelMapping) || (trim modelMapping =s []))%bool then MappingValid
  else match json_parse modelMapping with
       | None => MappingNotJson
       | Some parsed =>
           if (negb (jv_truthy parsed) || negb (is_object parsed) || is_array parsed)%bool then MappingNotObject
           else if existsb (fun e => negb (is_string e.2)) (jv_entries parsed) then MappingNotStrings
           else MappingValid
       end.

Definition findExposedTargetModels (modelMapping : jstr) (currentModels : list jstr) : list jstr :=
  let redirectModels := extractRedirectModels modelMapping in
  if Nat.eqb (length redirectModels) 0 then []
  else
    let modelSet := List.map normalizeModelName currentModels in
    List.filter (fun model => bool_decide (normalizeModelName model ∈ modelSet)) redirectModels.

Record ModelSets := MkSets {
  normalizedCurrentModels : list jstr; normalizedRedirectModels : list jstr; classificationSet : list jstr; redirectOnlySet : list jstr }.

Definition categorizeModelsWithRedirect (currentModels redirectModels : list jstr) : ModelSets :=
  let current := uniq (List.filter truthy (List.map normalizeModelName currentModels)) in
  let redirect := uniq (List.filter truthy (List.map normalizeModelName redirectModels)) in
  {| normalizedCurrentModels := current; normalizedRedirectModels := redirect;
     classificationSet := uniq (current ++ redirect);
     redirectOnlySet := List.filter (fun m => negb (bool_decide (m ∈ current))) redirect |}.

(** * What the drawer shows about the mapping *)

Record ModelMappingGuardrail := MkGuardrail {
  invalidJson : bool; gr_entries : list (jstr * jstr); missingSourceModels : list jstr; exposedTargetModels : list jstr }.

Definition createEmptyModelMappingGuardrail : ModelMappingGuardrail := MkGuardrail false [] [] [].
Definition invalidGuardrail : ModelMappingGuardrail := MkGuardrail true [] [] [].

(** [String(rawTarget ?? '').trim()]; a value that cannot be printed throws,
    which the caller takes for text that is not JSON. *)
Definition target_text (v : jv) : option jstr :=
  match v with JUndef | JNull => Some [] | _ => trim <$> js_String v end.

Fixpoint guardrail_entries (l : list (jstr * jv)) : option (list (jstr * jstr)) :=
  match l with
  | [] => Some []
  | (rawSource, rawTarget) :: l =>
      match target_text rawTarget, guardrail_entries l with
      | Some target, Some rest =>
          let source := trim rawSource in
          Some (if (negb (truthy source) || negb (truthy target))%bool then rest else (source, target) :: rest)
      | _, _ => None
      end
  end.

Definition modelMappingGuardrail (currentModelMapping : jstr) (currentModelsArray : list jstr) : ModelMappingGuardrail :=
  if negb (truthy (trim currentModelMapping)) then createEmptyModelMappingGuardrail
  else match json_parse currentModelMapping with
       | None => invalidGuardrail
       | Some parsed =>
           if (negb (jv_truthy parsed) || negb (is_object parsed) || is_array parsed)%bool then invalidGuardrail
           else match guardrail_entries (jv_entries parsed) with
                | None => invalidGuardrail
                | Some entries =>
                    {| invalidJson := false; gr_entries := entries;
                       missingSourceModels := uniq (List.map fst (List.filter (fun e => negb (bool_decide (e.1 ∈ currentModelsArray))) entries));
                       exposedTargetModels := uniq (List.map snd (List.filter (fun e => bool_decide (e.2 ∈ currentModelsArray)) entries)) |}
                end
       end.

(** * The models field *)

(** [updateModels(newModels, merge)]: the new text of the field. *)
Definition updateModels (currentModelsArray newModels : list jstr) (merge : bool) : jstr :=
  if merge then formatModelsArray (currentModelsArray ++ newModels) else formatModelsArray newModels.

(** The items of a prefill group: a list, or its JSON text. *)
Definition group_items (items : jv) : option (list jv) :=
  match items with
  | JArr l => Some l
  | JStr s => match json_parse s with Some (JArr l) => Some l | _ => None end
  | _ => None
  end.

(** * The request *)

Definition SENSITIVE_FORM_FIELDS : list string := [
  "type"; "base_url"; "key"; "openai_organization"; "other"; "key_mode"; "param_override"; "header_override"; "settings"; "setting";
  "advanced_custom"; "is_enterprise_account"; "vertex_key_type"; "aws_key_type"; "azure_responses_version"; "force_format";
  "thinking_to_content"; "proxy"; "http_protocol"; "http2_connection_shards"; "pass_through_body_enabled"; "moonshot_facade_mode";
  "system_prompt"; "system_prompt_override"; "allow_service_tier"; "disable_store"; "allow_safety_identifier";
  "allow_include_obfuscation"; "allow_inference_geo"; "allow_speed"; "claude_beta_query"; "disable_task_polling_sleep";
  "return_task_id_compat"; "base64_staging_enabled"; "base64_staging_models"; "upstream_model_update_check_enabled";
  "upstream_model_update_auto_sync_enabled"; "upstream_model_update_ignored_models"]%string.

Definition SENSITIVE_UPDATE_FIELDS : list string :=
  ["type"; "key"; "base_url"; "openai_organization"; "param_override"; "header_override"; "setting"; "settings"; "other"]%string.

(** What the user may do, and what the drawer is open for. *)
Record Context_ := MkContext {
  isEditing : bool; channelId : Z; canEditSensitive : bool; canViewCost : bool; isMultiKeyChannel : bool }.

Definition canEditCostDiscount (cx : Context_) : bool := (canEditSensitive cx && canViewCost cx)%bool.
Definition sensitiveLocked (cx : Context_) : bool := (isEditing cx && negb (canEditSensitive cx))%bool.

Inductive Request := Create (p : CreatePayload) | Update (id : Z) (p : Table).

Definition key_mode_text (m : KeyMode) : jstr := match m with Append => js "append" | Replace => js "replace" end.

(** [mutationFn]: the request it sends. *)
Definition mutation_request (cx : Context_) (data : ChannelFormValues) : failure + Request :=
  if isEditing cx then
    get! payload <- transformFormDataToUpdatePayload data (channelId cx) (canEditCostDiscount cx);
    let payload := if negb (truthy (trim (fv_key data))) then map_del (js "key") payload else payload in
    let payload := if negb (canEditSensitive cx) then fold_left (fun p k => map_del (js k) p) SENSITIVE_UPDATE_FIELDS payload else payload in
    let payloadWithKeyMode :=
      match fv_key_mode data with
      | Some km => if (canEditSensitive cx && isMultiKeyChannel cx && truthy (trim (fv_key data)))%bool
                   then map_set (js "key_mode") (JStr (key_mode_text km)) payload else payload
      | None => payload
      end in
    inr (Update (channelId cx) payloadWithKeyMode)
  else
    get! payload <- transformFormDataToCreatePayload data; inr (Create payload).

(** * The submit handler *)

(** What the form started from. *)
Record Initial := MkInitial { initialModels : list jstr; initialModelMapping : jstr; initialStatusCodeMapping : jstr }.

Definition initial_of (c : Channel) : Initial :=
  MkInitial (parseModelsString (ch_models c)) (or_empty (ch_model_mapping c)) (or_empty (ch_status_code_mapping c)).
Definition initial_new : Initial := MkInitial [] [] [].

Inductive MissingModelsAction := MissingCancel | MissingSubmit | MissingAdd.

(** The answers of the dialogs. *)
Record Answers := MkAnswers { confirmStatusCodeRisk : list jstr -> bool; confirmMissingModelMappings : list jstr -> MissingModelsAction }.

Inductive Outcome :=
| KeyRequired
| NoPermission
| InvalidCodes (entries : list jstr)
| RiskDeclined (mappings : list jstr)
| InvalidMapping (why : MappingCheck)
| MissingCancelled (models : list jstr)
| Submitted (data : ChannelFormValues).

Definition with_models (data : ChannelFormValues) (models : jstr) : ChannelFormValues := {|
  fv_name := fv_name data; fv_type := fv_type data; fv_base_url := fv_base_url data; fv_key := fv_key data;
  fv_openai_organization := fv_openai_organization data; fv_models := models; fv_group := fv_group data;
  fv_model_mapping := fv_model_mapping data; fv_priority := fv_priority data; fv_weight := fv_weight data;
  fv_test_model := fv_test_model data; fv_auto_ban := fv_auto_ban data; fv_status := fv_status data;
  fv_status_code_mapping := fv_status_code_mapping data; fv_tag := fv_tag data; fv_remark := fv_remark data;
  fv_cost_discount := fv_cost_discount data; fv_setting := fv_setting data; fv_param_override := fv_param_override data;
  fv_header_override := fv_header_override data; fv_settings := fv_settings data; fv_advanced_custom := fv_advanced_custom data;
  fv_other := fv_other data; fv_multi_key_mode := fv_multi_key_mode data; fv_multi_key_type := fv_multi_key_type data;
  fv_batch_add_set_key_prefix_2_name := fv_batch_add_set_key_prefix_2_name data; fv_key_mode := fv_key_mode data;
  fv_force_format := fv_force_format data; fv_thinking_to_content := fv_thinking_to_content data; fv_proxy := fv_proxy data;
  fv_http_protocol := fv_http_protocol data; fv_http2_connection_shards := fv_http2_connection_shards data;
  fv_pass_through_body_enabled := fv_pass_through_body_enabled data; fv_moonshot_facade_mode := fv_moonshot_facade_mode data;
  fv_system_prompt := fv_system_prompt data; fv_system_prompt_override := fv_system_prompt_override data;
  fv_is_enterprise_account := fv_is_enterprise_account data; fv_vertex_key_type := fv_vertex_key_type data;
  fv_aws_key_type := fv_aws_key_type data; fv_azure_responses_version := fv_azure_responses_version data;
  fv_allow_service_tier := fv_allow_service_tier data; fv_disable_store := fv_disable_store data;
  fv_allow_safety_identifier := fv_allow_safety_identifier data; fv_allow_include_obfuscation := fv_allow_include_obfuscation data;
  fv_allow_inference_geo := fv_allow_inference_geo data; fv_allow_speed := fv_allow_speed data;
  fv_claude_beta_query := fv_claude_beta_query data; fv_disable_task_polling_sleep := fv_disable_task_polling_sleep data;
  fv_return_task_id_compat := fv_return_task_id_compat data; fv_base64_staging_enabled := fv_base64_staging_enabled data;
  fv_base64_staging_models := fv_base64_staging_models data; fv_video_content_delivery_mode := fv_video_content_delivery_mode data;
  fv_upstream_model_update_check_enabled := fv_upstream_model_update_check_enabled data;
  fv_upstream_model_update_auto_sync_enabled := fv_upstream_model_update_auto_sync_enabled data;
  fv_upstream_model_update_ignored_models := fv_upstream_model_update_ignored_models data |}.

(** The status code step: an outcome that ends the handler, or none. *)
Definition check_codes (init : Initial) (ans : Answers) (data : ChannelFormValues) : option Outcome :=
  let codes := or_empty (fv_status_code_mapping data) in
  if negb (truthy (trim codes)) then None
  else
    let invalidEntries := RiskGuard.collectInvalidStatusCodeEntries codes in
    if negb (Nat.eqb (length invalidEntries) 0) then Some (InvalidCodes invalidEntries)
    else
      let riskyRedirects := RiskGuard.collectNewDisallowedStatusCodeRedirects (initialStatusCodeMapping init) codes in
      if (negb (Nat.eqb (length riskyRedirects) 0) && negb (confirmStatusCodeRisk ans riskyRedirects))%bool
      then Some (RiskDeclined riskyRedirects) else None.

(** The mapping step: the models the handler goes on with. *)
Definition check_mapping (init : Initial) (ans : Answers) (data : ChannelFormValues) : Outcome :=
  let mapping := or_empty (fv_model_mapping data) in
  if negb (truthy (trim mapping)) then Submitted data
  else
    match validateModelMappingJson mapping with
    | MappingValid =>
        let normalizedModels := parseModelsString (fv_models data) in
        let missingModels := findMissingModelsInMapping mapping normalizedModels in
        if (negb (Nat.eqb (length missingModels) 0) &&
            hasModelConfigChanged normalizedModels mapping (initialModels init) (initialModelMapping init))%bool
        then match confirmMissingModelMappings ans missingModels with
             | MissingCancel => MissingCancelled missingModels
             | MissingAdd => Submitted (with_models data (formatModelsArray (uniq (normalizedModels ++ missingModels))))
             | MissingSubmit => Submitted data
             end
        else Submitted data
    | why => InvalidMapping why
    end.

(** [onSubmit(data)], for a form the schema accepted. *)
Definition onSubmit (cx : Context_) (dirty : list jstr) (init : Initial) (ans : Answers) (data : ChannelFormValues) : Outcome :=
  if (negb (isEditing cx) && negb (truthy (trim (fv_key data))))%bool then KeyRequired
  else if (sensitiveLocked cx && existsb (fun field => bool_decide (js field ∈ dirty)) SENSITIVE_FORM_FIELDS)%bool then NoPermission
  else match check_codes init ans data with
       | Some o => o
       | None => check_mapping init ans data
       end.

(** [form.handleSubmit(onSubmit, onInvalid)]: nothing is sent for a form the
    schema refuses. *)
Inductive Submission := Invalid | Ended (o : Outcome) | Sending (r : failure + Request).

Definition submit (new_url : jstr -> option URL) (cx : Context_) (dirty : list jstr) (init : Initial) (ans : Answers)
    (data : ChannelFormValues) : Submission :=
  if negb (accepted new_url data) then Invalid
  else match onSubmit cx dirty init ans data with
       | Submitted data' => Sending (mutation_request cx data')
       | o => Ended o
       end.

(** * The request of an accepted form *)

Lemma typed_payloads f : typed_form f ->
  exists s1 s2, buildSettingJSON f = inr s1 /\ buildSettingsJSON f = inr s2.
Proof.
  intros Hty. destruct (stored_object f (ty_st f Hty)) as [t Ht]. destruct (settings_table_some f t Hty) as [t' Et].
  eexists _, _. split; [by apply build_setting|by eapply build_settings].
Qed.

Lemma typed_request cx f : typed_form f -> exists r, mutation_request cx f = inr r.
Proof.
  intros Hty. destruct (typed_payloads f Hty) as (s1 & s2 & H1 & H2). unfold mutation_request.
  destruct (isEditing cx); [unfold transformFormDataToUpdatePayload|unfold transformFormDataToCreatePayload];
    rewrite H1, H2; cbn [bind]; eauto.
Qed.

Lemma typed_with_models f m : typed_form f -> typed_form (with_models f m).
Proof. by intros []. Qed.

(** Without the permission, only these fields of the form are sent. *)
Definition open_payload (cx : Context_) (f : ChannelFormValues) : Table := [
  (js "id", JInt (channelId cx)); (js "name", clean_value (JStr (fv_name f))); (js "models", clean_value (JStr (fv_models f)));
  (js "group", clean_value (JStr (formatGroups (fv_group f)))); (js "model_mapping", JText (fv_model_mapping f));
  (js "priority", JInt (or_zero (fv_priority f))); (js "weight", JInt (or_zero (fv_weight f)));
  (js "test_model", JText (fv_test_model f)); (js "auto_ban", JInt (nullish (fv_auto_ban f) 1%Z));
  (js "status_code_mapping", JText (fv_status_code_mapping f)); (js "tag", JText (fv_tag f)); (js "remark", JText (fv_remark f))].

Lemma locked_payload cx f : sensitiveLocked cx = true -> typed_form f ->
  mutation_request cx f = inr (Update (channelId cx) (open_payload cx f)).
Proof.
  unfold sensitiveLocked. rewrite andb_true_iff, negb_true_iff. intros [He Hc] Hty.
  destruct (typed_payloads f Hty) as (s1 & s2 & H1 & H2).
  unfold mutation_request, transformFormDataToUpdatePayload, canEditCostDiscount. rewrite He, Hc, H1, H2. cbn [bind andb negb].
  cbv zeta. destruct (fv_key_mode f), (truthy (trim (fv_key f))); reflexivity.
Qed.

(** The open fields of two forms are equal. *)
Record same_open (f g : ChannelFormValues) : Prop := {
  so_name : fv_name f = fv_name g; so_models : fv_models f = fv_models g; so_group : fv_group f = fv_group g;
  so_mapping : fv_model_mapping f = fv_model_mapping g; so_priority : fv_priority f = fv_priority g;
  so_weight : fv_weight f = fv_weight g; so_test : fv_test_model f = fv_test_model g; so_ban : fv_auto_ban f = fv_auto_ban g;
  so_codes : fv_status_code_mapping f = fv_status_code_mapping g; so_tag : fv_tag f = fv_tag g; so_remark : fv_remark f = fv_remark g }.

(** C9: without the permission for sensitive settings, what an update sends
    depends on the open fields only: no change of another field can reach the
    server, and none of the sensitive fields is sent. *)
Theorem locked_update_open_fields cx f g :
  sensitiveLocked cx = true -> typed_form f -> typed_form g -> same_open f g ->
  mutation_request cx f = mutation_request cx g /\
  exists p, mutation_request cx f = inr (Update (channelId cx) p) /\
    Forall (fun k => map_get (js k) p = None) ("cost_discount"%string :: SENSITIVE_UPDATE_FIELDS).
Proof.
  intros Hl Hf Hg []. rewrite !locked_payload by done. split.
  - unfold open_payload. by rewrite so_name0, so_models0, so_group0, so_mapping0, so_priority0, so_weight0, so_test0, so_ban0, so_codes0,
      so_tag0, so_remark0.
  - eexists. split; [done|]. repeat (constructor; [reflexivity|]). constructor.
Qed.

(** * What the handler guarantees *)

Definition codes_checked (init : Initial) (ans : Answers) (data : ChannelFormValues) : Prop :=
  let codes := or_empty (fv_status_code_mapping data) in
  truthy (trim codes) = true ->
  RiskGuard.collectInvalidStatusCodeEntries codes = [] /\
  let risky := RiskGuard.collectNewDisallowedStatusCodeRedirects (initialStatusCodeMapping init) codes in
  (risky = [] \/ confirmStatusCodeRisk ans risky = true).

Lemma check_codes_none init ans data : check_codes init ans data = None <-> codes_checked init ans data.
Proof.
  unfold check_codes, codes_checked. cbv zeta. destruct (truthy _); cbn [negb]; [|done].
  destruct (RiskGuard.collectInvalidStatusCodeEntries _) as [|e l]; cbn [length Nat.eqb negb].
  - destruct (RiskGuard.collectNewDisallowedStatusCodeRedirects _ _) as [|r l]; cbn [length Nat.eqb negb andb].
    + split; [intros _ _; auto|done].
    + destruct (confirmStatusCodeRisk ans (r :: l)) eqn:E; cbn [negb]; split; try done.
      * intros _ _. auto.
      * intros H. destruct (H eq_refl) as [_ [?|?]]; congruence.
  - split; [done|]. intros H. by destruct (H eq_refl).
Qed.

Lemma check_codes_ends init ans data o : check_codes init ans data = Some o ->
  (exists l, o = InvalidCodes l) \/ exists l, o = RiskDeclined l.
Proof. unfold check_codes. cbv zeta. repeat case_match; try done; intros [= <-]; eauto. Qed.

Definition mapping_text (data : ChannelFormValues) : jstr := or_empty (fv_model_mapping data).
Definition form_models (data : ChannelFormValues) : list jstr := parseModelsString (fv_models data).

(** The mapping is fine, and models it names that the channel does not list were
    there before, were accepted, or were added. *)
Definition mapping_checked (init : Initial) (ans : Answers) (data data' : ChannelFormValues) : Prop :=
  let missing := findMissingModelsInMapping (mapping_text data) (form_models data) in
  (truthy (trim (mapping_text data)) = true -> validateModelMappingJson (mapping_text data) = MappingValid) /\
  (data' = data /\
     (truthy (trim (mapping_text data)) = false \/ missing = [] \/
      hasModelConfigChanged (form_models data) (mapping_text data) (initialModels init) (initialModelMapping init) = false \/
      confirmMissingModelMappings ans missing = MissingSubmit) \/
   data' = with_models data (formatModelsArray (uniq (form_models data ++ missing))) /\
     confirmMissingModelMappings ans missing = MissingAdd).

Lemma check_mapping_submitted init ans data data' :
  check_mapping init ans data = Submitted data' -> mapping_checked init ans data data'.
Proof.
  unfold check_mapping, mapping_checked. fold (mapping_text data) (form_models data). cbv zeta.
  destruct (truthy (trim (mapping_text data))) eqn:Et; cbn [negb]; [|intros [= <-]; split; [done|]; auto].
  destruct (validateModelMappingJson (mapping_text data)) eqn:Ev; try done.
  destruct (findMissingModelsInMapping _ _) as [|m ms]; cbn [length Nat.eqb negb andb]; [intros [= <-]; naive_solver|].
  destruct (hasModelConfigChanged _ _ _ _) eqn:Eh; [|intros [= <-]; naive_solver].
  destruct (confirmMissingModelMappings ans (m :: ms)) eqn:Ea; [done| |]; intros [= <-]; naive_solver.
Qed.

(** C14: a channel is only saved from a form the schema accepts, with a key if
    it is new, without a change to a sensitive field if those are locked, with
    valid status codes whose new risky redirects were confirmed and a valid
    mapping whose missing models were dealt with; and then a request is sent:
    building it never throws. *)
Theorem submit_checked new_url cx dirty init ans data r :
  submit new_url cx dirty init ans data = Sending r ->
  accepted new_url data = true /\
  (isEditing cx = false -> truthy (trim (fv_key data)) = true) /\
  (sensitiveLocked cx = true -> Forall (fun field => js field ∉ dirty) SENSITIVE_FORM_FIELDS) /\
  codes_checked init ans data /\
  exists data' request, mapping_checked init ans data data' /\ r = mutation_request cx data' /\ r = inr request.
Proof.
  unfold submit. destruct (accepted new_url data) eqn:Ha; cbn [negb]; [|done].
  unfold onSubmit. destruct (_ && _)%bool eqn:Hk; [done|]. destruct (sensitiveLocked cx && _)%bool eqn:Hs; [done|].
  destruct (check_codes init ans data) eqn:Hc; [by destruct (check_codes_ends _ _ _ _ Hc) as [[l ->]|[l ->]]|].
  apply check_codes_none in Hc.
  destruct (check_mapping init ans data) as [| | | | | |data'] eqn:Hm; try done. intros [= <-].
  apply check_mapping_submitted in Hm. pose proof (accepted_typed _ _ Ha) as Hty.
  split; [done|]. split; [by destruct (isEditing cx), (truthy (trim (fv_key data)))|]. split.
  - intros Hl. rewrite Hl in Hs. apply Forall_forall. intros k Hin%list_elem_of_In.
    intros Hd. cbn [andb] in Hs. apply not_true_iff_false in Hs. apply Hs, existsb_exists. exists k.
    by rewrite bool_decide_true.
  - split; [done|].
    assert (Hty' : typed_form data') by (destruct Hm as (_ & [(-> & _)|(-> & _)]); [done|by apply typed_with_models]).
    destruct (typed_request cx data' Hty') as [request Er]. exists data', request. by rewrite Er.
Qed.

(** * Models the mapping names *)

Definition mapping_names (modelMapping : jstr) : list jstr :=
  List.filter truthy (List.map (fun e => normalizeModelName e.1) (mapping_object modelMapping)).

Definition blank_text (s : jstr) : bool := (negb (truthy s) || (trim s =s []))%bool.

Lemma filter_both {A} (p q : A -> bool) l : List.filter (fun x => p x && q x)%bool l = List.filter q (List.filter p l).
Proof. induction l as [|x l IH]; [done|]. simpl. destruct (p x); simpl; [destruct (q x); by rewrite IH|done]. Qed.

Lemma find_missing_eq mapping models : blank_text mapping = false ->
  findMissingModelsInMapping mapping models =
  uniq (List.filter (fun key => negb (bool_decide (key ∈ List.map normalizeModelName models))) (mapping_names mapping)).
Proof. unfold findMissingModelsInMapping, blank_text. intros ->. by rewrite filter_both. Qed.

Lemma find_missing_elem mapping models m : blank_text mapping = false ->
  m ∈ findMissingModelsInMapping mapping models <-> m ∈ mapping_names mapping /\ m ∉ List.map normalizeModelName models.
Proof. intros H. rewrite find_missing_eq, uniq_elem, elem_filter by done. by rewrite negb_true_iff, bool_decide_eq_false. Qed.

Lemma map_trim_names l : Forall list_name l -> List.map normalizeModelName l = l.
Proof.
  intros H. rewrite (map_ext_in _ id), map_id; [done|]. intros x Hx%list_elem_of_In. rewrite Forall_forall in H.
  destruct (H x Hx) as (_ & Ht & _). by apply trim_id.
Qed.

Lemma parse_models_names s : Forall list_name (parseModelsString s).
Proof. unfold parseModelsString. destruct (truthy s); [apply split_names_names|constructor]. Qed.

Lemma parse_format_models l : Forall list_name l -> parseModelsString (formatModelsArray l) = uniq l.
Proof.
  intros Hl. unfold parseModelsString, formatModelsArray. pose proof (uniq_names l Hl) as Hu.
  destruct (truthy (join _ _)) eqn:Et; [by apply split_names_join|].
  pose proof (split_names_join (uniq l) Hu) as E. apply truthy_false in Et. rewrite Et in E. by rewrite <-E.
Qed.

Lemma mapping_names_trimmed mapping m : m ∈ mapping_names mapping -> m <> [] /\ trimmed m.
Proof.
  unfold mapping_names. rewrite elem_filter. intros [Hin Ht]. split; [by apply truthy_true|].
  apply list_elem_of_In, in_map_iff in Hin as (e & <- & _). apply trim_trimmed.
Qed.

(** The form after the missing models were added. *)
Definition added (data : ChannelFormValues) : ChannelFormValues :=
  with_models data (formatModelsArray (uniq (form_models data ++ findMissingModelsInMapping (mapping_text data) (form_models data)))).

Lemma missing_blank mapping models : blank_text mapping = true -> findMissingModelsInMapping mapping models = [].
Proof. unfold findMissingModelsInMapping, blank_text. by intros ->. Qed.

Lemma missing_names mapping models : Forall (fun m => 44%N ∉ m) (findMissingModelsInMapping mapping models) ->
  Forall list_name (findMissingModelsInMapping mapping models).
Proof.
  intros H. destruct (blank_text mapping) eqn:Eb; [by rewrite missing_blank|].
  rewrite Forall_forall in *. intros m Hm. pose proof (H m Hm) as Hc. rewrite find_missing_elem in Hm by done.
  destruct (mapping_names_trimmed mapping m (proj1 Hm)). by split.
Qed.

Lemma added_models data :
  Forall (fun m => 44%N ∉ m) (findMissingModelsInMapping (mapping_text data) (form_models data)) ->
  form_models (added data) = uniq (form_models data ++ findMissingModelsInMapping (mapping_text data) (form_models data)).
Proof.
  intros H. unfold added, form_models at 1. cbn [with_models fv_models].
  rewrite parse_format_models; [apply uniq_id, uniq_nodup|]. apply uniq_names, Forall_app.
  split; [apply parse_models_names|by apply missing_names].
Qed.

(** Adding the missing models makes the channel list every model its mapping
    names, and keeps the models it had; unless a name has a comma in it: such
    a model is still missing, for the list is stored with commas between its
    models. *)
Theorem add_covers_mapping data :
  let missing := findMissingModelsInMapping (mapping_text data) (form_models data) in
  (findMissingModelsInMapping (mapping_text data) (form_models (added data)) = [] <-> Forall (fun m => 44%N ∉ m) missing) /\
  (Forall (fun m => 44%N ∉ m) missing -> form_models (added data) = uniq (form_models data ++ missing)).
Proof.
  cbv zeta. split; [|apply added_models].
  destruct (blank_text (mapping_text data)) eqn:Eb; [by rewrite !missing_blank|]. split.
  - intros Hnone. apply Forall_forall. intros m Hm Hc. apply find_missing_elem in Hm as [Hm _]; [|done].
    apply (not_elem_of_nil m). rewrite <-Hnone. apply find_missing_elem; [done|]. split; [done|].
    unfold form_models. rewrite map_trim_names by apply parse_models_names. intros Hin.
    pose proof (parse_models_names (fv_models (added data))) as Hl. rewrite Forall_forall in Hl.
    by destruct (Hl m Hin) as (_ & _ & ?).
  - intros Hc. apply elem_of_nil_inv. intros m Hm. apply find_missing_elem in Hm as [Hm Hn]; [|done].
    unfold form_models in Hn at 1. rewrite map_trim_names in Hn by apply parse_models_names. fold (form_models (added data)) in Hn.
    rewrite added_models, uniq_elem, elem_of_app in Hn by done. apply Hn.
    destruct (decide (m ∈ form_models data)) as [|Hnot]; [by left|]. right. apply find_missing_elem; [done|]. split; [done|].
    unfold form_models. by rewrite map_trim_names by apply parse_models_names.
Qed.

(** The models and the mapping count as unchanged exactly when the models are
    the same in the same order and the mapping is the same text, up to blanks
    around it, and the channel had either. *)
Theorem config_changed_iff cm cmap im imap :
  hasModelConfigChanged cm cmap im imap = false <->
  cm = im /\ trim cmap = trim imap /\ (im <> [] \/ imap <> []).
Proof.
  unfold hasModelConfigChanged.
  assert (Hc : length cm = length im -> (existsb (fun p => negb (p.1 =s p.2)) (combine cm im) = false <-> cm = im)).
  { revert im. induction cm as [|a cm IH]; intros [|b im]; try done. intros [= Hl]. cbn [combine existsb fst snd].
    rewrite orb_false_iff, negb_false_iff, jstr_eqb_true, IH by done. naive_solver. }
  destruct (Nat.eqb (length im) 0 && negb (truthy imap))%bool eqn:E0.
  - apply andb_true_iff in E0 as [H1 H2]. apply Nat.eqb_eq in H1. apply negb_true_iff, truthy_false in H2.
    destruct im; [|done]. naive_solver.
  - assert (Hne : im <> [] \/ imap <> []).
    { destruct im; [|by left]. destruct imap; [done|by right]. }
    destruct (Nat.eqb_spec (length cm) (length im)) as [Hl|Hl]; cbn [negb]; [|split; [done|naive_solver]].
    destruct (existsb _ _) eqn:Ee.
    + split; [done|]. intros (-> & _). by pose proof (proj2 (Hc eq_refl) eq_refl).
    + rewrite negb_false_iff, jstr_eqb_true. pose proof (proj1 (Hc Hl) eq_refl). naive_solver.
Qed.

(** * The drawer's own state *)

(** Loading a channel, or opening the drawer for a new one. *)
Definition open_form (channel : option Channel) : failure + (ChannelFormValues * Initial) :=
  match channel with
  | Some c => get! defaults <- transformChannelToFormDefaults c; inr (defaults, initial_of c)
  | None => inr (CHANNEL_FORM_DEFAULT_VALUES, initial_new)
  end.

Definition ARK_URL : jstr := js "https://ark.cn-beijing.volces.com".

(** The defaults a new channel gets when its type changes: base URL and [other]. *)
Definition type_default_url (editing : bool) (type : N) (base_url : option jstr) : option jstr :=
  if (negb editing && (has [45; CHANNEL_TYPE_VOLC_NATIVE]%N type) && negb (truthy (or_empty base_url)))%bool then Some ARK_URL else base_url.

Definition type_default_other (editing : bool) (type : N) (other : option jstr) : option jstr :=
  if (negb editing && (type =? 18)%N && negb (truthy (or_empty other)))%bool then Some (js "v2.1") else other.

(** The name of a plan is replaced by the address it stands for. *)
Definition plan_url (type : N) (base_url : option jstr) : option jstr :=
  if ((type =? 45)%N && (or_empty base_url =s js "doubao-coding-plan"))%bool then Some ARK_URL else base_url.

Definition supportsMultiKeyAddMode (type : N) (vertexKeyType : jv) : bool :=
  (negb (type =? 57)%N && negb ((type =? 41)%N && is_text "api_key" vertexKeyType))%bool.

(** The adding mode falls back to a single key where several are not supported. *)
Definition add_mode (editing : bool) (type : N) (vertexKeyType : jv) (mode : option MultiKeyMode) : option MultiKeyMode :=
  if (negb editing && negb (supportsMultiKeyAddMode type vertexKeyType) && not_single mode)%bool then Some Single else mode.

(** The marks of the form's sections. *)
Definition providerRequiresBaseUrl (type : N) : bool := has [3; 8; 36; 45]%N type.
Definition providerRequiresOther (type : N) : bool := has [3; 18; 21; 39; 41; 49]%N type.

Definition credentialsComplete (editing : bool) (f : ChannelFormValues) : bool :=
  ((editing || truthy (trim (fv_key f))) &&
   (negb (providerRequiresBaseUrl (fv_type f)) || negb (blank (fv_base_url f))) &&
   (negb (providerRequiresOther (fv_type f)) || negb (blank (fv_other f))))%bool.

(** The mark of the credentials section can say complete for a form that is
    refused for its base URL: the mark does not know that the New API type
    needs one. *)
Theorem complete_but_refused new_url editing (f : ChannelFormValues) :
  fv_type f = CHANNEL_TYPE_NEW_API -> (editing || truthy (trim (fv_key f)))%bool = true -> blank (fv_base_url f) = true ->
  credentialsComplete editing f = true /\ accepted new_url f = false.
Proof.
  intros Ht Hk Hb. split.
  - unfold credentialsComplete. by rewrite Ht, Hk.
  - unfold accepted. apply andb_false_iff. right. unfold refine_issues. rewrite Ht, Hb.
    destruct (if is_type f _ then _ else _) as [|adv]; [done|]. cbn [bind]. destruct (normalizeHttpProtocol _); [done|]. cbn [bind].
    by destruct (compare_number _).
Qed.

(** [hasConfiguredOverrideValue(value)] *)
Definition hasConfiguredOverrideValue (value : option jstr) : bool :=
  let trimmed := trim (or_empty value) in
  if (negb (truthy trimmed) || (trimmed =s js "null"))%bool then false
  else match json_parse trimmed with
       | Some JNull => false
       | Some (JArr l) => negb (Nat.eqb (length l) 0)
       | Some (JObj l) => negb (Nat.eqb (length l) 0)
       | Some _ | None => true
       end.

(** [parseSettingsRecord(settings)] and what the drawer shows of the models found upstream. *)
Definition parseSettingsRecord (settings : option jstr) : Table :=
  if blank settings then []
  else match json_parse (or_empty settings) with Some (JObj t) => t | _ => [] end.

(** [String(model || '').trim()] of every model, without blanks and repetitions;
    [None] when one cannot be printed. *)
Definition clean_models (l : list jv) : option (list jstr) :=
  (fun names => uniq (List.filter truthy (List.map trim names))) <$>
    all_some (List.map (fun v => if jv_truthy v then js_String v else Some []) l).

Definition detectedModels (settings : option jstr) : option (list jstr) :=
  match map_get (js "upstream_model_update_last_detected_models") (parseSettingsRecord settings) with
  | Some (JArr l) => clean_models l
  | _ => Some []
  end.

(** * Witnesses *)

Definition locked_context : Context_ := MkContext true 7 false true false.
Definition proxied_form : ChannelFormValues := loaded (sample_channel (jq "{`video_content_delivery_mode`:`proxy`}")).

Lemma proxied_accepted : accepted sample_url proxied_form = true.
Proof. vm_compute. reflexivity. Qed.

Lemma locked_update_open_fields_witness :
  fv_video_content_delivery_mode sample_form <> fv_video_content_delivery_mode proxied_form /\
  mutation_request locked_context sample_form = mutation_request locked_context proxied_form /\
  exists p, mutation_request locked_context sample_form = inr (Update 7 p) /\
    Forall (fun k => map_get (js k) p = None) ("cost_discount"%string :: SENSITIVE_UPDATE_FIELDS).
Proof.
  split; [by vm_compute|]. apply (locked_update_open_fields locked_context sample_form proxied_form).
  - reflexivity.
  - exact (accepted_typed _ _ sample_accepted).
  - exact (accepted_typed _ _ proxied_accepted).
  - split; vm_compute; reflexivity.
Defined.

(** The delivery mode of videos is stored with the sensitive settings but is
    not one of the fields that are locked: without the permission the form
    takes a change of it, saves, and nothing is sent. *)
Theorem video_change_dropped :
  exists init ans,
    fv_video_content_delivery_mode sample_form <> fv_video_content_delivery_mode proxied_form /\
    submit sample_url locked_context [js "video_content_delivery_mode"] init ans proxied_form =
      Sending (mutation_request locked_context sample_form).
Proof.
  exists (initial_of (sample_channel [])), (MkAnswers (fun _ => true) (fun _ => MissingSubmit)).
  split; [by vm_compute|]. vm_compute. reflexivity.
Qed.

Definition plain_answers : Answers := MkAnswers (fun _ => true) (fun _ => MissingAdd).

Lemma submit_checked_witness :
  exists r, submit sample_url locked_context [] (initial_of (sample_channel [])) plain_answers sample_form = Sending r /\
    accepted sample_url sample_form = true /\
    (isEditing locked_context = false -> truthy (trim (fv_key sample_form)) = true) /\
    (sensitiveLocked locked_context = true -> Forall (fun field => js field ∉ []) SENSITIVE_FORM_FIELDS) /\
    codes_checked (initial_of (sample_channel [])) plain_answers sample_form /\
    exists data' request, mapping_checked (initial_of (sample_channel [])) plain_answers sample_form data' /\
      r = mutation_request locked_context data' /\ r = inr request.
Proof.
  eexists. split; [vm_compute; reflexivity|]. apply (submit_checked sample_url locked_context []). vm_compute. reflexivity.
Defined.

Definition with_type (t : N) : ChannelFormValues :=
  loaded {| ch_name := js "new"; ch_type := t; ch_base_url := None; ch_openai_organization := None; ch_models := js "m";
    ch_group := js "default"; ch_model_mapping := None; ch_priority := None; ch_weight := None; ch_test_model := None;
    ch_auto_ban := None; ch_status := 1; ch_status_code_mapping := None; ch_tag := None; ch_remark := []; ch_cost_discount := None;
    ch_setting := None; ch_param_override := None; ch_header_override := None; ch_settings := []; ch_other := [];
    ch_multi_key_mode := Random |}.

Lemma complete_but_refused_witness :
  exists f, credentialsComplete true f = true /\ accepted sample_url f = false.
Proof.
  exists (with_type CHANNEL_TYPE_NEW_API). apply (complete_but_refused sample_url true); reflexivity.
Defined.
