(* ===== verification/ChannelUtils.v ===== *)
(** Helpers of the channel list (channels/lib/channel-utils.ts,
    channel-field-update.ts, upstream-update-utils.ts, hooks/use-channel-upstream-updates.ts,
    lib/channel-connection-info.ts): sorting, keys, tag rows, the delayed update of a
    cell, upstream models, and the connection text. *)

From Stdlib Require Import NArith ZArith Lia ZifyBool ZifyN.
From Stdlib Require Import SpecFloat.
From stdpp Require Import base list gmap strings.
From S2P Require Import Prelude JsString JsNum Json JsTable AdvancedCustom ChannelForm.

(** * Sorting *)

Definition CHANNEL_SORTABLE_COLUMNS : list jstr :=
  List.map js ["id"; "name"; "priority"; "balance"; "response_time"; "test_time"]%string.

(** [sort_by] and [sort_order], when there are any. *)
Definition getChannelSortParams (activeSort : option (jstr * bool)) (idSort : bool) : option (jstr * jstr) :=
  match activeSort with
  | Some (id, desc) =>
      if bool_decide (id ∈ CHANNEL_SORTABLE_COLUMNS) then Some (id, if desc then js "desc" else js "asc")
      else if idSort then Some (js "id", js "asc") else None
  | None => if idSort then Some (js "id", js "asc") else None
  end.

(** * Keys *)

Definition key_lines (key : jstr) : list jstr := List.filter (fun k => truthy (trim k)) (split_unit 10 key).
Definition countKeys (key : jstr) : nat := if truthy key then length (key_lines key) else 0.

(** [s.slice(-n)] *)
Definition last_units (n : nat) (s : jstr) : jstr := drop (length s - n) s.

Definition formatChannelKey (key : jstr) (isMultiKey : bool) : jstr :=
  if negb (truthy key) then []
  else if isMultiKey then print_N (N.of_nat (length (key_lines key))) ++ js " keys"
  else if (length key <=? 16)%nat then take 4 key ++ js "..." ++ last_units 4 key
  else take 8 key ++ js "..." ++ last_units 8 key.

Definition formatKeyPreview (key : jstr) (maxLength : nat) : jstr :=
  if negb (truthy key) then [] else if (length key <=? maxLength)%nat then key else take maxLength key ++ js "...".

Record Dedup := MkDedup { deduplicatedText : jstr; beforeCount : nat; afterCount : nat }.

(** [beforeCount - afterCount] *)
Definition removedCount (d : Dedup) : nat := beforeCount d - afterCount d.

(** [keyLines.forEach]: the keys seen are the keys kept. *)
Definition keep_line (keys : list jstr) (line : jstr) : list jstr :=
  let trimmedLine := trim line in
  if (truthy trimmedLine && negb (bool_decide (trimmedLine ∈ keys)))%bool then keys ++ [trimmedLine] else keys.

Definition deduplicateKeys (keysText : jstr) : Dedup :=
  if (negb (truthy keysText) || (trim keysText =s []))%bool then MkDedup [] 0 0
  else
    let keyLines := split_unit 10 keysText in
    let deduplicatedKeys := fold_left keep_line keyLines [] in
    MkDedup (join [10%N] deduplicatedKeys) (length keyLines) (length deduplicatedKeys).

(** * Groups *)

(** [list.sort((a, b) => ...)] with the order of [localeCompare], a parameter. *)
Definition group_order (localeCompare : jstr -> jstr -> Z) (a b : jstr) : Z :=
  if a =s js "default" then -1 else if b =s js "default" then 1 else localeCompare a b.

Definition parseGroupsList (localeCompare : jstr -> jstr -> Z) (groups : jstr) : list jstr :=
  if truthy groups then sort_by (group_order localeCompare) (split_names groups) else [].

(** * Tag rows *)

(** The fields of a channel the tag rows look at. *)
Record TagChannel := MkTagChannel {
  tc_id : N; tc_tag : option jstr; tc_status : Z; tc_group : jstr; tc_used_quota : num; tc_response_time : num;
  tc_priority : option Z; tc_weight : option Z }.

(** A tag row; its other fields are those of its first channel or constants.
    [None] for the status is [undefined]. *)
Record TagRow := MkTagRow {
  tr_tag : jstr; tr_status : option Z; tr_group : jstr; tr_used_quota : num; tr_response_time : num;
  tr_priority : option Z; tr_weight : option Z; tr_children : list TagChannel }.

Definition new_row (tag : jstr) : TagRow := MkTagRow tag None [] nzero nzero (Some (-1)%Z) (Some (-1)%Z) [].

(** "same value or null if different", with -1 for a row without a value yet. *)
Definition common (row value : option Z) : option Z :=
  if bool_decide (row = Some (-1)%Z) then value else if bool_decide (row = value) then row else None.

Definition groups_in (s : jstr) : list jstr := List.filter truthy (split_unit 44 s).

Definition add_groups (group channel_group : jstr) : jstr :=
  if group =s [] then channel_group
  else
    let existingGroups := groups_in group in
    fold_left (fun acc g => if bool_decide (g ∈ existingGroups) then acc else acc ++ js "," ++ g) (groups_in channel_group) group.

Definition add_channel (row : TagRow) (c : TagChannel) : TagRow :=
  let children := tr_children row ++ [c] in
  let childCount := num_of_Z (Z.of_nat (length children)) in
  {| tr_tag := tr_tag row;
     tr_status := if (tc_status c =? 1)%Z then Some 1%Z else match tr_status row with Some s => Some s | None => Some (tc_status c) end;
     tr_group := add_groups (tr_group row) (tc_group c);
     tr_used_quota := num_add (tr_used_quota row) (tc_used_quota c);
     tr_response_time := num_div (num_add (num_mul (tr_response_time row) (num_sub childCount (num_of_Z 1))) (tc_response_time c)) childCount;
     tr_priority := common (tr_priority row) (tc_priority c);
     tr_weight := common (tr_weight row) (tc_weight c);
     tr_children := children |}.

Definition tag_of (c : TagChannel) : jstr := nullish (tc_tag c) [].

(** The rows are mutated in place: the list holds the rows of the map. *)
Definition aggregateChannelsByTag (channels : list TagChannel) : list TagRow :=
  (acc tag_of (fun c => new_row (tag_of c)) (fun c row => add_channel row c) channels).*2.

(** * The delayed update of a cell *)

(** The scheduler with the timers it has set: [armed] holds those that can
    still fire; [updates] what [onUpdate] was called with, last first. *)
Record Scheduler := MkScheduler {
  timeoutId : option nat; pendingValue : option Z; next_timer : nat; armed : list nat; updates : list Z }.

Definition createChannelFieldUpdateScheduler : Scheduler := MkScheduler None None 0 [] [].

Definition clearPendingTimer (s : Scheduler) : Scheduler :=
  match timeoutId s with
  | None => s
  | Some i => MkScheduler None (pendingValue s) (next_timer s) (List.filter (fun j => negb (Nat.eqb j i)) (armed s)) (updates s)
  end.

Definition commitPendingValue (s : Scheduler) : Scheduler :=
  let s := clearPendingTimer s in
  match pendingValue s with
  | None => s
  | Some value => MkScheduler (timeoutId s) None (next_timer s) (armed s) (value :: updates s)
  end.

Definition schedule (value : Z) (s : Scheduler) : Scheduler :=
  let s := clearPendingTimer s in
  MkScheduler (Some (next_timer s)) (Some value) (S (next_timer s)) (armed s ++ [next_timer s]) (updates s).

(** A timer that fires is no longer armed when it calls back. *)
Definition fire (i : nat) (s : Scheduler) : Scheduler :=
  commitPendingValue (MkScheduler (timeoutId s) (pendingValue s) (next_timer s) (List.filter (fun j => negb (Nat.eqb j i)) (armed s)) (updates s)).

Inductive CellEvent := Typed (value : Z) | Flushed | Fired (i : nat).

Inductive cell_step : Scheduler -> CellEvent -> Scheduler -> Prop :=
| step_typed s v : cell_step s (Typed v) (schedule v s)
| step_flush s : cell_step s Flushed (commitPendingValue s)
| step_fire s i : i ∈ armed s -> cell_step s (Fired i) (fire i s).

Inductive cell_run : list CellEvent -> Scheduler -> Prop :=
| run_nil : cell_run [] createChannelFieldUpdateScheduler
| run_snoc es e s s' : cell_run es s -> cell_step s e s' -> cell_run (es ++ [e]) s'.

(** * Upstream models *)

(** [normalizeModelList(models)]; [.map] throws on what is not an array. *)
Definition normalizeModelList (models : jv) : failure + list jstr :=
  match jv_or models (JArr []) with
  | JArr l =>
      match all_some (List.map (fun m => if jv_truthy m then js_String m else Some []) l) with
      | Some names => inr (uniq (List.filter truthy (List.map trim names)))
      | None => inl TypeError
      end
  | _ => inl TypeError
  end.

Record UpstreamMeta := MkMeta { um_enabled : bool; pendingAddModels : list jstr; pendingRemoveModels : list jstr }.

Definition no_meta : UpstreamMeta := MkMeta false [] [].

(** The settings come as an object or as their text. *)
Definition settings_value (settings : jv) : jv :=
  match settings with
  | JObj _ => settings
  | JStr s => nullish (json_parse s) JNull
  | _ => JNull
  end.

Definition parseUpstreamUpdateMeta (settings : jv) : failure + UpstreamMeta :=
  let parsed := settings_value settings in
  if (negb (jv_truthy parsed) || negb (is_object parsed))%bool then inr no_meta
  else
    get! add <- normalizeModelList (jv_or (jv_get parsed (js "upstream_model_update_last_detected_models")) (JArr []));
    get! remove <- normalizeModelList (jv_or (jv_get parsed (js "upstream_model_update_last_removed_models")) (JArr []));
    inr (MkMeta (is_true (jv_get parsed (js "upstream_model_update_check_enabled"))) add remove).

(** The dialog of the upstream updates. *)
Record UpdateModal := MkModal { showModal : bool; md_channel : option N; addModels : list jstr; removeModels : list jstr }.

Definition closed_modal : UpdateModal := MkModal false None [] [].

Definition clean_names (l : list jstr) : list jstr := uniq (List.filter truthy (List.map trim l)).

(** [openModal(record, pendingAdd, pendingRemove)]: an id of 0 counts as none. *)
Definition openModal (record : option N) (pendingAdd pendingRemove : list jstr) (m : UpdateModal) : UpdateModal :=
  let normAdd := clean_names pendingAdd in
  let normRemove := clean_names pendingRemove in
  let id := nullish record 0%N in
  if ((id =? 0)%N || (Nat.eqb (length normAdd) 0 && Nat.eqb (length normRemove) 0))%bool then m
  else MkModal true (Some id) normAdd normRemove.

Record ApplyRequest := MkApply { ap_id : N; add_models : list jstr; ignore_models : list jstr; remove_models : list jstr }.

(** The request of [applyUpdates]: what is not selected is ignored. *)
Definition apply_request (m : UpdateModal) (selectedAdd selectedRemove : list jstr) : option ApplyRequest :=
  match md_channel m with
  | Some id =>
      if (id =? 0)%N then None
      else
        let normSelectedAdd := clean_names selectedAdd in
        Some {| ap_id := id; add_models := normSelectedAdd;
                ignore_models := List.filter (fun x => negb (bool_decide (x ∈ normSelectedAdd))) (addModels m);
                remove_models := clean_names selectedRemove |}
  | None => None
  end.

(** * The connection text (lib/channel-connection-info.ts) *)

Definition CHANNEL_CONNECTION_INFO_TYPE : jstr := js "newapi_channel_conn".

Record ChannelConnectionInfo := MkConnection { cn_key : jstr; cn_url : jstr }.

Definition encodeChannelConnectionInfo (key url : jstr) : jstr :=
  json_stringify (JObj [(js "_type", JStr CHANNEL_CONNECTION_INFO_TYPE); (js "key", JStr key); (js "url", JStr url)]).

Definition parseChannelConnectionInfo (text : option jstr) : option ChannelConnectionInfo :=
  let text := or_empty text in
  if negb (truthy text) then None
  else match json_parse (trim text) with
       | Some parsed =>
           match jv_get parsed (js "_type"), jv_get parsed (js "key"), jv_get parsed (js "url") with
           | JStr t, JStr key, JStr url => if t =s CHANNEL_CONNECTION_INFO_TYPE then Some (MkConnection key url) else None
           | _, _, _ => None
           end
       | None => None
       end.

(** * Tag rows *)

Definition row_of (tag : jstr) (cs : list TagChannel) : TagRow := fold_left add_channel cs (new_row tag).

(** "Enabled if any child is enabled", the first status otherwise. *)
Definition children_status (cs : list TagChannel) : option Z :=
  if existsb (fun c => tc_status c =? 1)%Z cs then Some 1%Z else tc_status <$> head cs.

(** The value all children have, null if they differ. *)
Definition common_value (vs : list (option Z)) : option Z :=
  match vs with
  | v :: _ => if forallb (fun w => bool_decide (w = v)) vs then v else None
  | [] => None
  end.

Lemma row_children tag cs : tr_children (row_of tag cs) = cs /\ tr_tag (row_of tag cs) = tag.
Proof.
  unfold row_of. induction cs as [|c cs [IH1 IH2]] using rev_ind; [done|]. rewrite fold_left_app. cbn [fold_left add_channel tr_children tr_tag].
  by rewrite IH1, IH2.
Qed.

Lemma row_status tag cs : cs <> [] -> tr_status (row_of tag cs) = children_status cs.
Proof.
  assert (H : tr_status (row_of tag cs) = if bool_decide (cs = []) then None else children_status cs); [|by intros; rewrite H, bool_decide_false].
  unfold row_of. induction cs as [|c cs IH] using rev_ind; [done|]. rewrite fold_left_app. cbn [fold_left add_channel tr_status].
  rewrite IH, (bool_decide_false (cs ++ [c] = [])) by (by destruct cs). unfold children_status. rewrite existsb_app. cbn [existsb].
  rewrite orb_false_r. destruct (tc_status c =? 1)%Z eqn:Ec; [by rewrite orb_true_r|]. rewrite orb_false_r.
  destruct cs as [|c0 cs]; [done|]. rewrite bool_decide_false by done. by destruct (existsb _ _).
Qed.

Lemma common_value_fold vs : vs <> [] -> Some (-1)%Z ∉ vs -> fold_left common vs (Some (-1)%Z) = common_value vs.
Proof.
  induction vs as [|v vs IH] using rev_ind; [done|]. intros _ Hn. rewrite fold_left_app. cbn [fold_left].
  rewrite elem_of_app, list_elem_of_singleton in Hn.
  destruct vs as [|v0 vs]; [cbn; by rewrite bool_decide_true by done|]. rewrite IH by (done || tauto).
  cbn [common_value app]. change (v0 :: vs ++ [v]) with ((v0 :: vs) ++ [v]). rewrite forallb_app. cbn [forallb].
  rewrite (bool_decide_true (v0 = v0)) by done. cbn [andb]. rewrite andb_true_r.
  assert (H0 : v0 <> Some (-1)%Z) by (intros ->; apply Hn; left; left).
  unfold common. destruct (forallb _ vs); cbn [andb].
  - rewrite bool_decide_false by done. rewrite (bool_decide_ext (v = v0) (v0 = v)) by naive_solver. done.
  - rewrite bool_decide_false by done. by case_bool_decide.
Qed.

Lemma row_values tag cs :
  tr_priority (row_of tag cs) = fold_left common (List.map tc_priority cs) (Some (-1)%Z) /\
  tr_weight (row_of tag cs) = fold_left common (List.map tc_weight cs) (Some (-1)%Z) /\
  tr_used_quota (row_of tag cs) = fold_left num_add (List.map tc_used_quota cs) nzero.
Proof.
  unfold row_of. induction cs as [|c cs (H1 & H2 & H3)] using rev_ind; [done|]. rewrite !map_app, !fold_left_app.
  cbn [fold_left List.map add_channel tr_priority tr_weight tr_used_quota]. by rewrite H1, H2, H3.
Qed.

Lemma aggregate_rows channels : 
  aggregateChannelsByTag channels =
  List.map (fun tag => row_of tag (same_key tag_of tag channels)) (uniq (List.map tag_of channels)).
Proof.
  unfold aggregateChannelsByTag. set (m := acc _ _ _ channels).
  pose proof (acc_keys tag_of (fun c => new_row (tag_of c)) (fun c row => add_channel row c) channels) as Hk. fold m in Hk.
  rewrite <-Hk. change (m.*2) with (List.map snd m). change (m.*1) with (List.map fst m). rewrite map_map.
  apply map_ext_in. intros [k row] Hin%list_elem_of_In. cbn [fst snd].
  assert (Hg : map_get k m = Some row) by (apply map_get_in; [rewrite Hk; apply uniq_nodup|done]).
  unfold m in Hg. rewrite acc_get in Hg. unfold folded in Hg. unfold row_of.
  destruct (same_key tag_of k channels) as [|c cs] eqn:E; [done|]. injection Hg as <-.
  assert (Hc : c ∈ same_key tag_of k channels) by (rewrite E; left).
  apply elem_filter in Hc as [_ Hc]. apply bool_decide_eq_true_1 in Hc as ->. done.
Qed.

(** The table grouped by tag has one row per tag, in the order the tags
    first occur; a row's children are the channels of the tag, in order, so
    that no channel is lost; the row is enabled if and only if a child is;
    and its priority and weight are those all children have, null if they
    differ, unless a child has -1, which marks a row without a value. *)
Theorem tag_rows (channels : list TagChannel) :
  List.map tr_tag (aggregateChannelsByTag channels) = uniq (List.map tag_of channels) /\
  (forall c, c ∈ channels -> exists row, row ∈ aggregateChannelsByTag channels /\ tr_tag row = tag_of c /\ c ∈ tr_children row) /\
  Forall (fun row =>
    tr_children row = same_key tag_of (tr_tag row) channels /\
    (tr_status row = Some 1%Z <-> Exists (fun c => tc_status c = 1%Z) (tr_children row)) /\
    (Some (-1)%Z ∉ List.map tc_priority (tr_children row) -> tr_priority row = common_value (List.map tc_priority (tr_children row))) /\
    (Some (-1)%Z ∉ List.map tc_weight (tr_children row) -> tr_weight row = common_value (List.map tc_weight (tr_children row))) /\
    tr_used_quota row = fold_left num_add (List.map tc_used_quota (tr_children row)) nzero) (aggregateChannelsByTag channels).
Proof.
  rewrite aggregate_rows. split; [|split].
  - rewrite map_map. rewrite (map_ext _ id), map_id; [done|]. intros tag. apply row_children.
  - intros c Hc. exists (row_of (tag_of c) (same_key tag_of (tag_of c) channels)).
    destruct (row_children (tag_of c) (same_key tag_of (tag_of c) channels)) as [H1 H2]. rewrite H1, H2. split; [|split; [done|]].
    + apply list_elem_of_In, in_map_iff. exists (tag_of c). split; [done|]. apply list_elem_of_In, uniq_elem.
      apply list_elem_of_In, in_map. by apply list_elem_of_In.
    + apply elem_filter. by rewrite bool_decide_true.
  - apply Forall_map, Forall_forall. intros tag Htag. set (cs := same_key tag_of tag channels).
    assert (Hne : cs <> []).
    { apply uniq_elem, list_elem_of_In, in_map_iff in Htag as (c & Et & Hc%list_elem_of_In). intros E.
      apply (not_elem_of_nil c). rewrite <-E. apply elem_filter. by rewrite bool_decide_true. }
    destruct (row_children tag cs) as [H1 H2]. destruct (row_values tag cs) as (H3 & H4 & H5). rewrite H1, H2, H3, H4, H5, row_status by done.
    assert (Hm : forall g : TagChannel -> option Z, List.map g cs <> []) by (intros g; by destruct cs).
    split; [done|]. split; [|split; [intros; by apply common_value_fold|split; [intros; by apply common_value_fold|done]]].
    unfold children_status. rewrite Exists_exists. split.
    + destruct (existsb _ _) eqn:E.
      * intros _. apply existsb_exists in E as (c & Hc%list_elem_of_In & Ec%Z.eqb_eq). eauto.
      * destruct cs as [|c cs']; [done|]. intros [= Hs]. exists c. split; [left|done].
    + intros (c & Hc & Es). assert (E : existsb (fun c => tc_status c =? 1)%Z cs = true); [|by rewrite E].
      apply existsb_exists. exists c. split; [by apply list_elem_of_In|by apply Z.eqb_eq].
Qed.

Definition tagged (priority : option Z) : TagChannel := MkTagChannel 1 (Some (js "t")) 1 (js "default") nzero nzero priority None.

(** Two children of different priorities, the first -1: the row shows the other. *)
Example sentinel_priority :
  List.map tr_priority (aggregateChannelsByTag [tagged (Some (-1)%Z); tagged (Some 5%Z)]) = [Some 5%Z] /\
  List.map tr_priority (aggregateChannelsByTag [tagged (Some 5%Z); tagged (Some (-1)%Z)]) = [None].
Proof. split; vm_compute; reflexivity. Qed.

(** * Keys *)

Lemma keep_lines ls : fold_left keep_line ls [] = uniq (List.filter truthy (List.map trim ls)).
Proof.
  induction ls as [|l ls IH] using rev_ind; [done|]. rewrite fold_left_app, map_app, List.filter_app. cbn [fold_left List.map List.filter].
  rewrite IH. unfold keep_line. destruct (truthy (trim l)); cbn [andb]; [|by rewrite app_nil_r].
  rewrite uniq_snoc, (bool_decide_ext _ _ (uniq_elem (trim l) _)). by case_bool_decide.
Qed.

(** A key as a line of the text. *)
Definition line_key (s : jstr) : Prop := s <> [] /\ trimmed s /\ 10%N ∉ s.

Lemma line_keys text : Forall line_key (List.filter truthy (List.map trim (split_unit 10 text))).
Proof.
  rewrite Forall_forall. intros x Hx. apply elem_filter in Hx as [Hx Ht].
  apply list_elem_of_In, in_map_iff in Hx as (y & <- & Hy%list_elem_of_In).
  pose proof (split_unit_pieces 10 text) as Hp. rewrite Forall_forall in Hp.
  split; [by apply truthy_true|]. split; [apply trim_trimmed|]. intros Hin%trim_sub. by apply (Hp y).
Qed.

Lemma line_keys_again ks : Forall line_key ks -> ks <> [] ->
  trim (join [10%N] ks) <> [] /\ List.filter truthy (List.map trim (split_unit 10 (join [10%N] ks))) = ks.
Proof.
  intros Hk Hne. split.
  - destruct ks as [|k ks]; [done|]. apply Forall_cons in Hk as [(Hn & Ht & _) _]. destruct k as [|c k]; [done|].
    destruct Ht as [Hc _]. apply truthy_true, trim_truthy. exists c. split; [|by apply Hc].
    destruct ks as [|k' ks]; [left|]. rewrite join_cons2. left.
  - rewrite split_unit_join; [|done|eapply Forall_impl; [exact Hk|by intros ? (_ & _ & ?)]].
    rewrite (map_ext_in _ id), map_id.
    + apply filter_all. eapply Forall_impl; [exact Hk|]. intros x (? & _). by apply truthy_true.
    + intros x Hx%list_elem_of_In. rewrite Forall_forall in Hk. destruct (Hk x Hx) as (_ & ? & _). by apply trim_id.
Qed.

Definition distinct_keys (text : jstr) : list jstr := uniq (List.filter truthy (List.map trim (split_unit 10 text))).

Lemma elem_join d l y c : y ∈ l -> c ∈ y -> c ∈ join [d] l.
Proof.
  induction l as [|z l IH]; intros Hy Hc; [by apply not_elem_of_nil in Hy|].
  destruct l as [|z' l]; [by apply list_elem_of_singleton in Hy as <-|].
  rewrite join_cons2, !elem_of_app. apply elem_of_cons in Hy as [->|Hy]; [by left|]. right. right. by apply IH.
Qed.

Lemma dedup_text text : deduplicatedText (deduplicateKeys text) = join [10%N] (distinct_keys text) /\
  afterCount (deduplicateKeys text) = length (distinct_keys text).
Proof.
  unfold deduplicateKeys, distinct_keys. destruct (_ || _)%bool eqn:Eb; [|cbn; by rewrite keep_lines].
  assert (E : List.filter truthy (List.map trim (split_unit 10 text)) = []).
  { apply filter_none, Forall_map. pose proof (split_unit_pieces 10 text) as _. rewrite Forall_forall. intros y Hy.
    assert (Ht : trim text = []) by (apply orb_true_iff in Eb as [E|E]; [by apply negb_true_iff, truthy_false in E as ->|by apply jstr_eqb_true]).
    apply not_true_iff_false. intros Hy'. apply truthy_true in Hy'. destruct (trim y) as [|c u] eqn:Ey; [done|].
    pose proof (trim_trimmed y) as [Hc _]. rewrite Ey in Hc. specialize (Hc c eq_refl).
    assert (Hin : c ∈ text).
    { rewrite <-(join_split_unit 10 text). apply (elem_join 10 _ y); [done|]. apply trim_sub. rewrite Ey. left. }
    assert (Htr : truthy (trim text) = true) by (apply trim_truthy; eauto). by rewrite Ht in Htr. }
  by rewrite E.
Qed.

(** Cleaning a list of keys keeps every key once, trimmed, in the order of
    the first occurrences, one per line; a second cleaning finds nothing to
    remove. *)
Theorem deduplicate_spec (text : jstr) :
  deduplicatedText (deduplicateKeys text) = join [10%N] (distinct_keys text) /\
  distinct_keys (deduplicatedText (deduplicateKeys text)) = distinct_keys text /\
  deduplicatedText (deduplicateKeys (deduplicatedText (deduplicateKeys text))) = deduplicatedText (deduplicateKeys text) /\
  removedCount (deduplicateKeys (deduplicatedText (deduplicateKeys text))) = 0.
Proof.
  assert (Hk : Forall line_key (distinct_keys text)).
  { unfold distinct_keys. rewrite Forall_forall. intros x Hx. rewrite uniq_elem in Hx. pose proof (line_keys text) as H. rewrite Forall_forall in H. by apply H. }
  rewrite (proj1 (dedup_text text)). set (ks := distinct_keys text) in *.
  assert (Hd : distinct_keys (join [10%N] ks) = ks).
  { destruct (decide (ks = [])) as [->|Hne]; [done|]. unfold distinct_keys. rewrite (proj2 (line_keys_again ks Hk Hne)).
    unfold ks, distinct_keys. apply uniq_id, uniq_nodup. }
  split; [done|]. split; [done|]. rewrite (proj1 (dedup_text (join [10%N] ks))), Hd. split; [done|].
  unfold removedCount. destruct (decide (ks = [])) as [->|Hne]; [done|].
  rewrite (proj2 (dedup_text (join [10%N] ks))), Hd. unfold deduplicateKeys.
  destruct (line_keys_again ks Hk Hne) as [Ht _].
  rewrite (proj2 (jstr_eqb_false _ _) Ht), orb_false_r. destruct (truthy (join [10%N] ks)) eqn:E; cbn [negb beforeCount].
  - rewrite split_unit_join; [lia|done|]. eapply Forall_impl; [exact Hk|by intros ? (_ & _ & ?)].
  - apply truthy_false in E. by rewrite E in Ht.
Qed.

(** A blank line counts as a removed duplicate. *)
Example blank_line_removed : removedCount (deduplicateKeys (js "sk-1" ++ [10%N])) = 1.
Proof. vm_compute. reflexivity. Qed.

(** * The delayed update of a cell *)

(** What a cell promises, without timers: the last value typed waits until a
    flush or a timer sends it. *)
Definition cell_spec (es : list CellEvent) : option Z * list Z :=
  fold_left (fun '(waiting, sent) e =>
    match e with
    | Typed v => (Some v, sent)
    | Flushed | Fired _ => (None, match waiting with Some v => v :: sent | None => sent end)
    end) es (None, []).

(** The invariant: a timer is armed exactly while a value waits, and it is the
    one the scheduler remembers. *)
Record cell_ok (s : Scheduler) : Prop := {
  ok_armed : armed s = match timeoutId s with Some i => [i] | None => [] end;
  ok_pending : is_some (pendingValue s) = is_some (timeoutId s);
  ok_fresh : forall i, timeoutId s = Some i -> i < next_timer s }.

Lemma clear_ok s : cell_ok s -> armed (clearPendingTimer s) = [] /\ timeoutId (clearPendingTimer s) = None /\
  pendingValue (clearPendingTimer s) = pendingValue s /\ updates (clearPendingTimer s) = updates s.
Proof.
  intros [Ha _ _]. unfold clearPendingTimer. destruct (timeoutId s) as [i|] eqn:E; [|by rewrite E].
  cbn. rewrite Ha. cbn. by rewrite Nat.eqb_refl.
Qed.

Lemma schedule_ok v s : cell_ok s -> cell_ok (schedule v s) /\ pendingValue (schedule v s) = Some v /\ updates (schedule v s) = updates s.
Proof.
  intros H. destruct (clear_ok s H) as (Ha & _ & _ & Hu). unfold schedule. cbn. split; [|done].
  split; cbn; [by rewrite Ha|done|intros i [= <-]; lia].
Qed.

Lemma commit_ok s : cell_ok s -> cell_ok (commitPendingValue s) /\ pendingValue (commitPendingValue s) = None /\
  updates (commitPendingValue s) = match pendingValue s with Some v => v :: updates s | None => updates s end.
Proof.
  intros H. destruct (clear_ok s H) as (Ha & Ht & Hp & Hu). unfold commitPendingValue. rewrite Hp.
  destruct (pendingValue s) as [v|] eqn:E; cbn; rewrite ?Hp, ?Hu; (split; [|done]); split; cbn; rewrite ?Ha, ?Ht, ?Hp; try done.
Qed.

Lemma fire_commits i s : cell_ok s -> i ∈ armed s -> exists v, timeoutId s = Some i /\ pendingValue s = Some v /\
  cell_ok (fire i s) /\ pendingValue (fire i s) = None /\ updates (fire i s) = v :: updates s.
Proof.
  intros [Ha Hp Hf] Hi. destruct (timeoutId s) as [j|] eqn:Et; [|rewrite Ha in Hi; by apply not_elem_of_nil in Hi].
  rewrite Ha in Hi. apply list_elem_of_singleton in Hi as ->. destruct (pendingValue s) as [v|] eqn:Ev; [|done].
  exists v. do 2 (split; [done|]). unfold fire, commitPendingValue, clearPendingTimer. cbn. rewrite Et, Ha, Ev. cbn.
  rewrite Nat.eqb_refl. cbn. split; [|done]. by split.
Qed.

(** C12: typing in a cell sends each burst once: whatever is typed, flushed and
    fired, a value waits exactly while a timer for it is armed, only that timer
    can fire, and the values sent are the last ones typed before each flush or
    timer; none twice, none that was typed over. *)
Theorem cell_refines_spec (es : list CellEvent) (s : Scheduler) :
  cell_run es s -> cell_ok s /\ (pendingValue s, updates s) = cell_spec es.
Proof.
  induction 1 as [|es e s s' _ [Hok Hs] Hstep]; [done|].
  unfold cell_spec in *. rewrite fold_left_app. cbn [fold_left]. rewrite <-Hs. destruct Hstep as [s v|s|s i Hi].
  - destruct (schedule_ok v s Hok) as (H1 & H2 & H3). by rewrite H2, H3.
  - destruct (commit_ok s Hok) as (H1 & H2 & H3). by rewrite H2, H3.
  - destruct (fire_commits i s Hok Hi) as (v & _ & Hv & H1 & H2 & H3). by rewrite H2, H3, Hv.
Qed.

(** A value that waits is always sent: the timer armed for it can fire, and
    a flush, as when the cell goes away, sends it at once. *)
Theorem cell_sends (es : list CellEvent) (s : Scheduler) (v : Z) :
  cell_run es s -> pendingValue s = Some v ->
  (exists i, cell_run (es ++ [Fired i]) (fire i s) /\ updates (fire i s) = v :: updates s) /\
  updates (commitPendingValue s) = v :: updates s.
Proof.
  intros Hr Hv.
  assert (Hok : cell_ok s).
  { clear Hv. induction Hr as [|es e s s' _ IH Hstep]; [by split|]. destruct Hstep as [s v'|s|s i Hi]; [by apply schedule_ok|by apply commit_ok|].
    by destruct (fire_commits i s IH Hi) as (? & _ & _ & ? & _). }
  split.
  - destruct Hok as [Ha Hp Hf]. rewrite Hv in Hp. destruct (timeoutId s) as [i|] eqn:Et; [|done].
    assert (Hi : i ∈ armed s) by (rewrite Ha; left). exists i. split; [by eapply run_snoc; [exact Hr|constructor]|].
    destruct (fire_commits i s) as (w & _ & Hw & _ & _ & Hu); [split; by rewrite ?Et, ?Hv|done|]. congruence.
  - destruct (commit_ok s Hok) as (_ & _ & Hu). by rewrite Hu, Hv.
Qed.

Definition typed_run : list CellEvent := [Typed 5; Typed 7].

Lemma typed_run_runs : exists s, cell_run typed_run s /\ pendingValue s = Some 7%Z.
Proof.
  exists (schedule 7 (schedule 5 createChannelFieldUpdateScheduler)). split; [|reflexivity]. change typed_run with (([] ++ [Typed 5]) ++ [Typed 7]).
  eapply run_snoc; [eapply run_snoc; [constructor|constructor]|constructor].
Defined.

Lemma cell_refines_spec_witness : exists s, cell_ok s /\ (pendingValue s, updates s) = (Some 7%Z, []).
Proof. destruct typed_run_runs as (s & Hr & _). exists s. apply (cell_refines_spec typed_run s Hr). Defined.

Lemma cell_sends_witness : exists s, updates (commitPendingValue s) = 7%Z :: updates s.
Proof. destruct typed_run_runs as (s & Hr & Hv). exists s. apply (cell_sends typed_run s 7 Hr Hv). Defined.

(** * Upstream models *)

(** Of the models the dialog offered to add, the request adds or ignores
    each, and none both; nothing is sent twice. *)
Theorem apply_partitions (record : option N) (pendingAdd pendingRemove selectedAdd selectedRemove : list jstr) (m : UpdateModal) (r : ApplyRequest) :
  openModal record pendingAdd pendingRemove closed_modal = m -> apply_request m selectedAdd selectedRemove = Some r ->
  NoDup (add_models r) /\ NoDup (ignore_models r) /\ NoDup (remove_models r) /\
  (forall x, x ∈ addModels m -> (x ∈ add_models r \/ x ∈ ignore_models r) /\ ~ (x ∈ add_models r /\ x ∈ ignore_models r)).
Proof.
  intros <- Hr. unfold apply_request in Hr. destruct (md_channel _) as [id|]; [|done]. destruct (id =? 0)%N; [done|]. injection Hr as <-.
  cbn [add_models ignore_models remove_models].
  assert (Hnd : NoDup (addModels (openModal record pendingAdd pendingRemove closed_modal))).
  { unfold openModal. destruct (_ || _)%bool; [constructor|apply uniq_nodup]. }
  split; [apply uniq_nodup|]. split; [|split; [apply uniq_nodup|]].
  - clear -Hnd. induction Hnd as [|x l Hx _ IH]; [constructor|]. cbn [List.filter]. destruct (negb _); [|done].
    constructor; [|done]. intros Hin. apply elem_filter in Hin as [Hin _]. done.
  - intros x Hx. destruct (decide (x ∈ clean_names selectedAdd)) as [Hs|Hs].
    + split; [by left|]. intros [_ Hi]. apply elem_filter in Hi as [_ Hi]. apply negb_true_iff, bool_decide_eq_false_1 in Hi. done.
    + split; [right; apply elem_filter; split; [done|by rewrite bool_decide_false]|]. tauto.
Qed.

Lemma apply_partitions_witness :
  let m := openModal (Some 3%N) (List.map js ["a"; " b "; "a"]%string) [] closed_modal in
  exists r, apply_request m [js "b"] [] = Some r /\ NoDup (ignore_models r) /\ ignore_models r = [js "a"].
Proof.
  intros m. eexists. split; [reflexivity|]. split; [|reflexivity].
  eapply (apply_partitions (Some 3%N) (List.map js ["a"; " b "; "a"]%string) [] [js "b"] []); reflexivity.
Defined.

(** * The connection text *)

Definition connection_object (key url : jstr) : list (jstr * jv) :=
  [(js "_type", JStr CHANNEL_CONNECTION_INFO_TYPE); (js "key", JStr key); (js "url", JStr url)].

Lemma connection_plain key url : units_ok key -> units_ok url -> plain (JObj (connection_object key url)).
Proof.
  intros Hk Hu. rewrite plain_obj. split; [apply (bool_decide_unpack _); vm_compute; done|].
  split; [|split; [apply (units_check CHANNEL_CONNECTION_INFO_TYPE); done|by repeat split]].
  repeat constructor; try lia; by apply Forall_forall.
Qed.

Lemma connection_trimmed key url : trimmed (encodeChannelConnectionInfo key url) /\ encodeChannelConnectionInfo key url <> [].
Proof.
  unfold encodeChannelConnectionInfo. change (json_stringify _) with
    (js "{" ++ join (js ",") (List.map (fun e => json_quote e.1 ++ js ":" ++ json_stringify e.2) (connection_object key url)) ++ js "}").
  split; [|done]. split; [by intros c [= <-]|]. intros c. rewrite app_assoc. change (js "}") with [125%N].
  rewrite last_snoc. by intros [= <-].
Qed.

(** The connection text made for a key and an address is recognised and
    gives them back, also with blanks around it. *)
Theorem connection_roundtrip (key url before after : jstr) :
  units_ok key -> units_ok url -> forallb is_ws before = true -> forallb is_ws after = true ->
  parseChannelConnectionInfo (Some (before ++ encodeChannelConnectionInfo key url ++ after)) = Some (MkConnection key url).
Proof.
  intros Hk Hu Hb Ha. unfold parseChannelConnectionInfo, or_empty. cbn [nullish].
  destruct (connection_trimmed key url) as [Ht Hne]. rewrite trim_around by done.
  unfold encodeChannelConnectionInfo at 2. change [(js "_type", _); _; _] with (connection_object key url).
  rewrite json_parse_compact by by apply connection_plain.
  destruct (truthy _) eqn:E; [done|]. apply truthy_false in E.
  apply app_eq_nil in E as [_ E]. by apply app_eq_nil in E as [E _].
Qed.

Lemma connection_roundtrip_witness :
  parseChannelConnectionInfo (Some (js " " ++ encodeChannelConnectionInfo (jq "sk-`1") (js "https://x") ++ [10%N])) =
  Some (MkConnection (jq "sk-`1") (js "https://x")).
Proof. apply connection_roundtrip; [units_done|units_done|vm_compute; reflexivity|vm_compute; reflexivity]. Defined.
