(* ===== verification/AuthSession.v ===== *)
(** The web session (web/src/stores/auth-store.ts, web/src/lib/auth-session.ts,
    web/src/lib/auth-session-sync.ts, the session listener of
    web/src/routes/__root.tsx and the 401 handling of web/src/lib/http-client.ts).

    The store is a record; every action is a function on it. The refresh is a
    machine that suspends at each [await], so what other code does to the store
    in between is a step of its own. Time, the HTTP answers and the lock service
    of the browser are inputs of the steps. *)

From Stdlib Require Import NArith ZArith Lia SpecFloat.
From stdpp Require Import base list gmap strings.
From S2P Require Import Prelude JsString JsNum Json.

(** * Data

    A user, a session, a bundle and a rotation are values of the server: what
    the code checks of them is in the type guards below, and two of the forms
    hand a bundle to [applyAuthBundle] without any check. They are kept as the
    JSON they are, and a missing field reads as [undefined]. *)

Inductive AuthBootstrapState := Idle | Checking | Complete.

(** ** The store *)

Record AuthState := Auth {
  user : jv;
  accessToken : jv;
  accessExpiresAt : jv;
  session : jv;
  pending2FAFlowToken : jv;
  pending2FASMSAvailable : bool;
  bootstrapState : AuthBootstrapState
}.

Definition useAuthStore : AuthState := Auth JNull JNull JNull JNull JNull false Idle.

(** For a bundle that is not null: reading a field of null throws. *)
Definition setBundle (b : jv) (a : AuthState) : AuthState :=
  Auth (jv_get b (js "user")) (jv_get b (js "access_token")) (jv_get b (js "access_expires_at"))
       (jv_get b (js "session")) JNull false Complete.

Definition setUser (u : jv) (a : AuthState) : AuthState :=
  Auth u (accessToken a) (accessExpiresAt a) (session a) (pending2FAFlowToken a)
       (pending2FASMSAvailable a) (bootstrapState a).

Definition setPending2FAFlowToken (t smsAvailable : jv) (a : AuthState) : AuthState :=
  Auth (user a) (accessToken a) (accessExpiresAt a) (session a) t
       (jv_truthy t && jv_truthy smsAvailable) (bootstrapState a).

Definition setBootstrapState (b : AuthBootstrapState) (a : AuthState) : AuthState :=
  Auth (user a) (accessToken a) (accessExpiresAt a) (session a) (pending2FAFlowToken a)
       (pending2FASMSAvailable a) b.

Definition reset (b : AuthBootstrapState) (a : AuthState) : AuthState :=
  Auth JNull JNull JNull JNull JNull false b.

(** * Reading a response *)

Definition isRecord (v : jv) : bool := jv_truthy v && is_object v.

Definition has_string (v : jv) (k : jstr) : bool := match jv_get v k with JStr _ => true | _ => false end.
Definition has_text (v : jv) (k : jstr) : bool := match jv_get v k with JStr s => truthy s | _ => false end.
Definition has_number (v : jv) (k : jstr) : bool := match jv_get v k with JNum _ => true | _ => false end.
Definition has_boolean (v : jv) (k : jstr) : bool := match jv_get v k with JBool _ => true | _ => false end.

Definition isAuthUser (v : jv) : bool :=
  isRecord v &&
  match jv_get v (js "id") with JNum i => num_is_integer i && num_ltb nzero i | _ => false end &&
  has_string v (js "username") && has_number v (js "role").

Definition isLoginSession (v : jv) : bool :=
  isRecord v && has_text v (js "sid") && has_boolean v (js "current") && has_string v (js "login_method") &&
  has_string v (js "ip") && has_string v (js "user_agent") && has_number v (js "created_at") &&
  has_number v (js "last_active_at") && has_number v (js "expires_at").

Definition hasValidTokenFields (v : jv) : bool :=
  has_text v (js "access_token") && has_text v (js "token_type") &&
  match jv_get v (js "access_expires_at") with JNum e => num_is_finite e && num_ltb nzero e | _ => false end.

Definition isAuthBundle (v : jv) : bool :=
  isRecord v &&
  (hasValidTokenFields v && isAuthUser (jv_get v (js "user")) && isLoginSession (jv_get v (js "session"))).

(** [v === s] for a string [s]. *)
Definition is_string (v : jv) (s : jstr) : bool := match v with JStr s' => s' =s s | _ => false end.

Definition isAuthTokenRotation (v : jv) : bool :=
  isRecord v && hasValidTokenFields v && is_string (jv_get v (js "token_type")) (js "Bearer") &&
  isLoginSession (jv_get v (js "session")) && jv_truthy (jv_get (jv_get v (js "session")) (js "current")).

(** * The session of a tab *)

Inductive SyncKind := Authenticated | SignedOut.

(** The store, the counter [authEpoch] and the events published, latest first. *)
Record World := Wd {
  store : AuthState;
  authEpoch : N;
  published : list (SyncKind * jv)
}.

Definition on_store (f : AuthState -> AuthState) (w : World) : World :=
  Wd (f (store w)) (authEpoch w) (published w).

(** [auth.session?.sid] *)
Definition currentSID (w : World) : jv := jv_get (session (store w)) (js "sid").

Definition publishAuthSessionEvent (kind : SyncKind) (s : jv) (w : World) : World :=
  if jv_truthy s then Wd (store w) (authEpoch w) ((kind, s) :: published w) else w.

Definition is_nullish (v : jv) : bool := match v with JUndef | JNull => true | _ => false end.

(** [a === b], where an object is equal to no other: each is parsed from an
    answer of its own. *)
Definition same_primitive (a b : jv) : bool :=
  match a, b with
  | JUndef, JUndef | JNull, JNull => true
  | JBool x, JBool y => Bool.eqb x y
  | JNum x, JNum y => num_eqb x y
  | JStr x, JStr y => x =s y
  | _, _ => false
  end.

(** How a call ends. *)
Inductive Completion := Returns | ThrowsTypeError.

(** The state is changed as far as the call gets: [bundle.user] throws on null,
    and so does [bundle.session.sid] when the bundle has no session, after the
    store was set. *)
Definition applyAuthBundle (bundle : jv) (synchronizeTabs : bool) (w : World) : World * Completion :=
  let previousSID := currentSID w in
  let w := Wd (store w) (authEpoch w + 1) (published w) in
  if is_nullish bundle then (w, ThrowsTypeError)
  else
    let w := on_store (setBundle bundle) w in
    let s := jv_get bundle (js "session") in
    if negb synchronizeTabs then (w, Returns)
    else if is_nullish s then (w, ThrowsTypeError)
    else if same_primitive previousSID (jv_get s (js "sid")) then (w, Returns)
    else (publishAuthSessionEvent Authenticated (jv_get s (js "sid")) w, Returns).

(** The errors [applyAuthRotation] throws. *)
Definition applyAuthRotation (value : jv) (w : World) : jstr + World :=
  if negb (isAuthTokenRotation value) then inl (js "Invalid authentication rotation response")
  else
    let auth := store w in
    if negb (jv_truthy (user auth)) || negb (jv_truthy (session auth))
    then inl (js "Authentication rotation has no active session")
    else if negb (same_primitive (jv_get (jv_get value (js "session")) (js "sid")) (jv_get (session auth) (js "sid")))
    then inl (js "Authentication rotation session mismatch")
    else inr (applyAuthBundle
           (JObj [(js "access_token", jv_get value (js "access_token"));
                  (js "token_type", jv_get value (js "token_type"));
                  (js "access_expires_at", jv_get value (js "access_expires_at"));
                  (js "session", jv_get value (js "session"));
                  (js "user", user auth)]) false w).1.

Definition clearAuthentication (synchronizeTabs : bool) (b : AuthBootstrapState) (w : World) : World :=
  let s := currentSID w in
  let w := Wd (reset b (store w)) (authEpoch w + 1) (published w) in
  if synchronizeTabs && jv_truthy s then publishAuthSessionEvent SignedOut s w else w.

(** [queryClient.clear()] is a call to the cache of queries: it does not touch
    the session. *)
Definition clearAuthenticatedClientState (synchronizeTabs : bool) (w : World) : World :=
  clearAuthentication synchronizeTabs Complete w.

(** * The refresh *)

Inductive refreshError := Superseded | HttpError (error : jv) | LockError.

Inductive RefreshOutcome :=
| RAuthenticated (bundle : jv)
| RAnonymous
| RTransient (error : refreshError)
| ROutOfSync (code : option jstr).

(** [error] is what was thrown; [JUndef] when the answer has none. *)
Record AuthRefreshHTTPResponse := Response { status : Z; data : jv; error : jv }.

(** The runtime of [createRefreshRunner] over a state [W]; [request] and [wait]
    are the points where the runner suspends. *)
Record AuthRefreshRuntime (W : Type) := Runtime {
  getExpectedSID : W -> jv;
  parseBundle : jv -> option jv;
  acceptBundle : jv -> W -> W;
  clear : bool -> option AuthBootstrapState -> W -> W;
  markTransient : W -> W;
  isCurrent : option (W -> bool)
}.
Arguments getExpectedSID {W}. Arguments parseBundle {W}. Arguments acceptBundle {W}.
Arguments clear {W}. Arguments markTransient {W}. Arguments isCurrent {W}.

Definition refreshRaceDelays : list Z := [80; 200; 500]%Z.

(** What a suspended runner waits for: the answer of [request(expectedSID)] or
    the end of [wait(delay)], within [run(raceAttempt, allowMismatchRetry)]. *)
Inductive Await :=
| AwaitResponse (expectedSID : jv) (raceAttempt : nat) (allowMismatchRetry : bool)
| AwaitTimer (delay : Z) (raceAttempt : nat) (allowMismatchRetry : bool).

Section Runner.
Context {W : Type} (runtime : AuthRefreshRuntime W).

Definition stillCurrent (w : W) : bool :=
  match isCurrent runtime with Some f => f w | None => true end.

(** [run] up to its first [await]. *)
Definition run (raceAttempt : nat) (allowMismatchRetry : bool) (w : W) : W * (Await + RefreshOutcome) :=
  if negb (stillCurrent w) then (w, inr (RTransient Superseded))
  else (w, inl (AwaitResponse (getExpectedSID runtime w) raceAttempt allowMismatchRetry)).

Definition str_of (v : jv) : option jstr := match v with JStr s => Some s | _ => None end.

(** [run] after the answer of the request. *)
Definition onResponse (raceAttempt : nat) (allowMismatchRetry : bool) (response : AuthRefreshHTTPResponse) (w : W)
    : W * (Await + RefreshOutcome) :=
  if negb (stillCurrent w) then (w, inr (RTransient Superseded))
  else
    let code := str_of (jv_get (data response) (js "code")) in
    let bundle := parseBundle runtime (jv_get (data response) (js "data")) in
    let success := match jv_get (data response) (js "success") with JBool b => b | _ => false end in
    let is_code c := match code with Some c' => c' =s c | None => false end in
    let rest :=
      if (status response =? 409)%Z && is_code (js "AUTH_REFRESH_RACE") then
        match refreshRaceDelays !! raceAttempt with
        | Some delay => (w, inl (AwaitTimer delay raceAttempt allowMismatchRetry))
        | None => (clear runtime false None w, inr (ROutOfSync code))
        end
      else if (status response =? 409)%Z && is_code (js "AUTH_SESSION_MISMATCH") then
        if allowMismatchRetry then run 0 false (clear runtime false (Some Idle) w)
        else (clear runtime false None w, inr (ROutOfSync code))
      else if (status response =? 401)%Z then (clear runtime true None w, inr RAnonymous)
      else if ((status response =? 0) || (500 <=? status response) || (status response =? 429))%Z then
        (markTransient runtime w,
         inr (RTransient (HttpError (match error response with
                                     | JUndef | JNull => data response
                                     | e => e end))))
      else (clear runtime false None w,
            inr (ROutOfSync (Some (code ?? js "AUTH_INVALID_REFRESH_RESPONSE")))) in
    match success, bundle with
    | true, Some b => (acceptBundle runtime b w, inr (RAuthenticated b))
    | _, _ => rest
    end.

(** [run(raceAttempt + 1, allowMismatchRetry)] after the delay. *)
Definition onTimer (raceAttempt : nat) (allowMismatchRetry : bool) (w : W) : W * (Await + RefreshOutcome) :=
  run (S raceAttempt) allowMismatchRetry w.

(** The runner against given answers, with other code changing the state by
    [env n] during the [n]-th wait: the final state, the outcome and the number
    of requests. *)
Fixpoint drive (fuel n : nat) (env : nat -> W -> W) (answer : nat -> AuthRefreshHTTPResponse)
    (a : Await) (w : W) : option (W * RefreshOutcome * nat) :=
  match fuel with
  | O => None
  | S f =>
      let w := env n w in
      match a with
      | AwaitResponse _ r al =>
          match onResponse r al (answer n) w with
          | (w', inr o) => Some (w', o, 1)
          | (w', inl a') =>
              match drive f (S n) env answer a' w' with
              | Some (w'', o, k) => Some (w'', o, S k)
              | None => None
              end
          end
      | AwaitTimer _ r al =>
          match onTimer r al w with
          | (w', inr o) => Some (w', o, 0)
          | (w', inl a') => drive f (S n) env answer a' w'
          end
      end
  end.

Definition createRefreshRunner (env : nat -> W -> W) (answer : nat -> AuthRefreshHTTPResponse) (fuel : nat) (w : W)
    : option (W * RefreshOutcome * nat) :=
  match run 0 true w with
  | (w', inr o) => Some (w', o, 0)
  | (w', inl a) => drive fuel 0 env answer a w'
  end.
End Runner.

(** ** The runner of this tab *)

(** The runtime [runRefresh] gives the runner: current as long as the epoch is
    the one the refresh began with. *)
Definition refreshRuntime (refreshEpoch : N) : AuthRefreshRuntime World :=
  Runtime World
    currentSID
    (fun value => if isAuthBundle value then Some value else None)
    (fun b w => (applyAuthBundle b false w).1)
    (fun synchronizeTabs b w =>
       match synchronizeTabs, b with
       | false, Some Idle => on_store (reset Idle) w
       | _, _ => clearAuthentication synchronizeTabs (b ?? Complete) w
       end)
    (on_store (setBootstrapState Idle))
    (Some (fun w => (authEpoch w =? refreshEpoch)%N)).

(** What [navigator.locks] is: absent, present, or throwing at the call. *)
Inductive Locks := NoLocks | HasLocks | LocksThrow.

(** The refresh in flight: the epoch it began with, and its runner, which waits
    for the lock at first. *)
Inductive Phase := WaitLock | Running (a : Await).
Record Flight := Fl { refreshEpoch : N; phase : Phase }.

(** A tab: its session, [refreshPromise], and the results of the refreshes that
    ended, latest first; a rejection of the promise is [None]. *)
Record Tab := Tb {
  world : World;
  refreshPromise : option Flight;
  settled : list (option RefreshOutcome)
}.

(** The end of a piece of the runner: the promise goes on or is settled. *)
Definition after (e : N) (s : list (option RefreshOutcome)) (r : World * (Await + RefreshOutcome)) : Tab :=
  match r with
  | (w, inl a) => Tb w (Some (Fl e (Running a))) s
  | (w, inr o) => Tb w None (Some o :: s)
  end.

(** [refreshAuthentication()]; the caller awaits [refreshPromise]. *)
Definition refreshAuthentication (locks : Locks) (t : Tab) : Tab :=
  match refreshPromise t with
  | Some _ => t
  | None =>
      let e := authEpoch (world t) in
      match locks with
      | NoLocks => after e (settled t) (run (refreshRuntime e) 0 true (world t))
      | HasLocks => Tb (world t) (Some (Fl e WaitLock)) (settled t)
      | LocksThrow =>
          Tb (on_store (setBootstrapState Idle) (world t)) None
             (Some (RTransient LockError) :: settled t)
      end
  end.

Definition lockGranted (t : Tab) : Tab :=
  match refreshPromise t with
  | Some (Fl e WaitLock) => after e (settled t) (run (refreshRuntime e) 0 true (world t))
  | _ => t
  end.

(** The lock request is rejected: the promise, which the [try] returns without
    awaiting it, is rejected too. *)
Definition lockRejected (t : Tab) : Tab :=
  match refreshPromise t with
  | Some (Fl e WaitLock) => Tb (world t) None (None :: settled t)
  | _ => t
  end.

Definition responseArrives (r : AuthRefreshHTTPResponse) (t : Tab) : Tab :=
  match refreshPromise t with
  | Some (Fl e (Running (AwaitResponse _ n al))) =>
      after e (settled t) (onResponse (refreshRuntime e) n al r (world t))
  | _ => t
  end.

Definition timerFires (t : Tab) : Tab :=
  match refreshPromise t with
  | Some (Fl e (Running (AwaitTimer _ n al))) =>
      after e (settled t) (onTimer (refreshRuntime e) n al (world t))
  | _ => t
  end.

(** ** Other tabs *)

(** The listener of the root route; reloading and navigation are left out. *)
Definition onSessionEvent (kind : SyncKind) (s : jstr) (w : World) : World :=
  let currentSID := currentSID w in
  match kind with
  | Authenticated =>
      if is_string currentSID s then w
      else if jv_truthy currentSID then clearAuthentication false Complete w else w
  | SignedOut =>
      if jv_truthy currentSID && is_string currentSID s then clearAuthenticatedClientState false w else w
  end.

(** ** Starting the page and sending requests *)

(** [currentValidAuthBundle()], at [now] milliseconds. *)
Definition currentValidAuthBundle (now : Z) (a : AuthState) : option jv :=
  if negb (jv_truthy (user a)) || negb (jv_truthy (accessToken a)) || negb (jv_truthy (accessExpiresAt a)) ||
     negb (jv_truthy (session a)) || num_leb (jv_number (accessExpiresAt a)) (num_of_Z (now / 1000)%Z)
  then None
  else Some (JObj [(js "access_token", accessToken a); (js "token_type", JStr (js "Bearer"));
                   (js "access_expires_at", accessExpiresAt a); (js "user", user a); (js "session", session a)]).

(** [bootstrapAuthentication()]: an outcome at once, or the refresh is awaited. *)
Definition bootstrapAuthentication (now : Z) (locks : Locks) (t : Tab) : Tab * option RefreshOutcome :=
  let a := store (world t) in
  let with_store f := Tb (on_store f (world t)) (refreshPromise t) (settled t) in
  match currentValidAuthBundle now a with
  | Some b => (with_store (setBootstrapState Complete), Some (RAuthenticated b))
  | None =>
      let hasStaleSession := jv_truthy (user a) && jv_truthy (session a) in
      let complete := match bootstrapState a with Complete => true | _ => false end in
      if (complete && negb hasStaleSession)%bool then (t, Some RAnonymous)
      else (refreshAuthentication locks (with_store (setBootstrapState Checking)), None)
  end.

Definition getCommonHeaders (a : AuthState) : list (jstr * jstr) :=
  (js "Content-Type", js "application/json") ::
  (if jv_truthy (accessToken a) then [(js "Authorization", js "Bearer " ++ jv_to_string (accessToken a))] else []).

(** The token of the store is good beyond [limit] seconds. *)
Definition tokenValidUntil (limit : Z) (a : AuthState) : bool :=
  jv_truthy (accessToken a) && jv_truthy (accessExpiresAt a) &&
  num_ltb (num_of_Z limit) (jv_number (accessExpiresAt a)).

(** [getFreshAuthHeaders()] before its [await]: headers, or a refresh. *)
Definition getFreshAuthHeaders (now : Z) (locks : Locks) (t : Tab) : Tab * option (list (jstr * jstr)) :=
  let a := store (world t) in
  if tokenValidUntil (now / 1000 + 60) a then (t, Some (getCommonHeaders a))
  else (refreshAuthentication locks t, None).

(** ... and after it: headers, or the message of the error thrown. *)
Definition freshAuthHeadersAfter (now : Z) (outcome : RefreshOutcome) (a : AuthState) : jstr + list (jstr * jstr) :=
  match outcome with
  | RAuthenticated _ => inr (getCommonHeaders a)
  | _ =>
      if tokenValidUntil (now / 1000) a then inr (getCommonHeaders a)
      else match outcome with
           | RTransient _ => inl (js "Request failed")
           | _ => inl (js "Session expired!")
           end
  end.

(** ** The tab as a machine *)

Inductive Event :=
| ERefresh (locks : Locks)
| ELockGranted | ELockRejected
| EResponse (r : AuthRefreshHTTPResponse)
| ETimer
| ESetUser (u : jv)
| EPending2FA (token smsAvailable : jv)
| EReset (b : AuthBootstrapState)
| EBundle (b : jv) (synchronizeTabs : bool)
| ERotation (value : jv)
| EClear (synchronizeTabs : bool) (b : AuthBootstrapState)
| ESync (kind : SyncKind) (s : jstr)
| EBootstrap (now : Z) (locks : Locks)
| EHeaders (now : Z) (locks : Locks).

Definition on_world (f : World -> World) (t : Tab) : Tab := Tb (f (world t)) (refreshPromise t) (settled t).

Definition tab_step (t : Tab) (e : Event) : Tab :=
  match e with
  | ERefresh l => refreshAuthentication l t
  | ELockGranted => lockGranted t
  | ELockRejected => lockRejected t
  | EResponse r => responseArrives r t
  | ETimer => timerFires t
  | ESetUser u => on_world (on_store (setUser u)) t
  | EPending2FA tok sms => on_world (on_store (setPending2FAFlowToken tok sms)) t
  | EReset b => on_world (on_store (reset b)) t
  | EBundle b s => on_world (fun w => (applyAuthBundle b s w).1) t
  | ERotation v => on_world (fun w => match applyAuthRotation v w with inr w' => w' | inl _ => w end) t
  | EClear s b => on_world (clearAuthentication s b) t
  | ESync k s => on_world (onSessionEvent k s) t
  | EBootstrap now l => fst (bootstrapAuthentication now l t)
  | EHeaders now l => fst (getFreshAuthHeaders now l t)
  end.

Definition tab_run (t : Tab) (es : list Event) : Tab := fold_left tab_step es t.

Definition tab_init : Tab := Tb (Wd useAuthStore 0 []) None [].

(** * Events between tabs *)

Module Sync.

Record AuthSessionSyncEvent := SyncEvent {
  kind : SyncKind; ev_sid : jstr; source : jstr; nonce : jstr; timestamp : num }.

Definition kind_str (k : SyncKind) : jstr :=
  match k with Authenticated => js "authenticated" | SignedOut => js "signed_out" end.

(** The event as it is posted. *)
Definition event_value (e : AuthSessionSyncEvent) : jv :=
  JObj [(js "kind", JStr (kind_str (kind e))); (js "sid", JStr (ev_sid e)); (js "source", JStr (source e));
        (js "nonce", JStr (nonce e)); (js "timestamp", JNum (timestamp e))].

Definition isAuthSessionSyncEvent (v : jv) : option AuthSessionSyncEvent :=
  if negb (jv_truthy v && is_object v) then None
  else
  match jv_get v (js "kind"), jv_get v (js "sid"), jv_get v (js "source"), jv_get v (js "nonce"),
        jv_get v (js "timestamp") with
  | JStr k, JStr s, JStr src, JStr n, JNum t =>
      if negb (truthy s) then None
      else if k =s js "authenticated" then Some (SyncEvent Authenticated s src n t)
      else if k =s js "signed_out" then Some (SyncEvent SignedOut s src n t)
      else None
  | _, _, _, _, _ => None
  end.

(** [Math.abs(now - timestamp) < 60_000] *)
Definition recent (now : Z) (timestamp : num) : bool :=
  num_ltb (SFabs (num_sub (num_of_Z now) timestamp)) (num_of_Z 60000).

(** [deliver] in a tab whose source is [authSyncSource], at [now]. *)
Definition deliver (authSyncSource : jstr) (now : Z) (v : jv) : option AuthSessionSyncEvent :=
  match isAuthSessionSyncEvent v with
  | Some e => if negb (source e =s authSyncSource) && recent now (timestamp e) then Some e else None
  | None => None
  end.

(** [handleStorage]: the fallback through the storage event. *)
Definition AUTH_SYNC_STORAGE_KEY : jstr := js "new-api:auth-session:event".

Definition handleStorage (authSyncSource : jstr) (now : Z) (key newValue : option jstr)
    : option AuthSessionSyncEvent :=
  match key, newValue with
  | Some k, Some v =>
      if negb (k =s AUTH_SYNC_STORAGE_KEY) || negb (truthy v) then None
      else match json_parse v with
           | Some x => deliver authSyncSource now x
           | None => None
           end
  | _, _ => None
  end.
End Sync.

(** * Requests of the API client *)

Module Http.

(** The flags of a request configuration the 401 handler reads. *)
Record ApiRequestConfig := Config {
  skipAuthRefresh : bool; authRetry : bool; skipErrorHandler : bool; authorization : option jstr }.

(** What the user sees. *)
Inductive Notice := SessionExpired | OtherError | Redirect.

(** The 401 branch of the response handler up to its [await]. *)
Inductive Handling := AskRefresh (c : ApiRequestConfig) | ThrowError (cleared : bool) (ns : list Notice).

Definition toast (c : ApiRequestConfig) (n : Notice) : list Notice :=
  if skipErrorHandler c then [] else [n].

Definition handleError (status : Z) (c : ApiRequestConfig) : Handling :=
  if (status =? 401)%Z then
    if (negb (skipAuthRefresh c) && negb (authRetry c))%bool
    then AskRefresh (Config (skipAuthRefresh c) true (skipErrorHandler c) (authorization c))
    else if authRetry c then ThrowError true (toast c SessionExpired ++ [Redirect])
    else ThrowError false (toast c SessionExpired)
  else ThrowError false (toast c OtherError).

(** After the refresh: the request again, with the token of the store, or the
    error. *)
Definition afterRefresh (o : RefreshOutcome) (a : AuthState) (c : ApiRequestConfig)
    : ApiRequestConfig + list Notice :=
  match o with
  | RAuthenticated _ =>
      inl (if jv_truthy (accessToken a)
           then Config (skipAuthRefresh c) (authRetry c) (skipErrorHandler c)
                  (Some (js "Bearer " ++ jv_to_string (accessToken a)))
           else c)
  | RAnonymous | ROutOfSync _ => inr (toast c SessionExpired ++ [Redirect])
  | RTransient _ => inr []
  end.

Inductive Result := Answer | Failed (cleared : bool) (ns : list Notice).

(** A request and its retries: [status n] is the status of the [n]-th answer
    (200 for a success), [refresh] the outcome of the refresh and the store it
    leaves. The result with the number of times the request was sent. *)
Fixpoint request (fuel n : nat) (status : nat -> Z) (refresh : RefreshOutcome * AuthState) (c : ApiRequestConfig)
    : option (Result * nat) :=
  match fuel with
  | O => None
  | S f =>
      if ((200 <=? status n) && (status n <? 300))%Z then Some (Answer, S n)
      else match handleError (status n) c with
           | ThrowError cl ns => Some (Failed cl ns, S n)
           | AskRefresh c' =>
               match afterRefresh (fst refresh) (snd refresh) c' with
               | inr ns => Some (Failed false ns, S n)
               | inl c'' => request f (S n) status refresh c''
               end
           end
  end.
End Http.

(** * The runner ends *)

(** How many more times a suspended runner may suspend, and send. *)
Definition waits_left (a : Await) : nat :=
  match a with
  | AwaitResponse _ r al => 2 * (3 - r) + 1 + (if al then 7 else 0)
  | AwaitTimer _ r al => 2 * (3 - r) + (if al then 7 else 0)
  end.

Definition sends_left (a : Await) : nat :=
  match a with
  | AwaitResponse _ r al => 4 - r + (if al then 4 else 0)
  | AwaitTimer _ r al => 3 - r + (if al then 4 else 0)
  end.

(** A suspended runner is before the last attempt when it waits for a delay. *)
Definition await_ok (a : Await) : Prop :=
  match a with AwaitResponse _ r _ => r <= 3 | AwaitTimer _ r _ => r <= 2 end.

Section RunnerProofs.
Context {W : Type} (runtime : AuthRefreshRuntime W).

Lemma run_inl r al w w' a : run runtime r al w = (w', inl a) ->
  w' = w /\ a = AwaitResponse (getExpectedSID runtime w) r al.
Proof. unfold run. destruct (stillCurrent runtime w); simpl; naive_solver. Qed.

Lemma race_delay r d : refreshRaceDelays !! r = Some d -> r <= 2.
Proof. intros H%lookup_lt_Some. simpl in H. lia. Qed.

Lemma onResponse_inl r al resp w w' a :
  r <= 3 -> onResponse runtime r al resp w = (w', inl a) ->
  await_ok a /\ waits_left a < waits_left (AwaitResponse JUndef r al) /\
  sends_left a < sends_left (AwaitResponse JUndef r al).
Proof.
  intros Hr H. unfold onResponse in H. repeat case_match; simplify_eq/=.
  all: try (apply run_inl in H as [_ ->]; simpl; lia).
  all: match goal with H : refreshRaceDelays !! _ = Some _ |- _ => apply race_delay in H end; lia.
Qed.

Lemma onTimer_inl r al w w' a d :
  r <= 2 -> onTimer runtime r al w = (w', inl a) ->
  await_ok a /\ waits_left a < waits_left (AwaitTimer d r al) /\
  sends_left a <= sends_left (AwaitTimer d r al).
Proof. intros Hr [_ ->]%run_inl. simpl. lia. Qed.

Lemma drive_ends env answer fuel : forall n a w,
  await_ok a -> waits_left a <= fuel ->
  exists w' o k, drive runtime fuel n env answer a w = Some (w', o, k) /\ k <= sends_left a.
Proof.
  induction fuel as [|f IH]; intros n a w Hok Hf.
  { destruct a; simpl in *; destruct allowMismatchRetry; lia. }
  destruct a as [s r al|d r al]; simpl in Hok |- *.
  - destruct (onResponse runtime r al (answer n) (env n w)) as [w' [a'|o]] eqn:E.
    + apply onResponse_inl in E as (Hok' & Hw & Hs); [|done].
      destruct (IH (S n) a' w') as (w'' & o & k & Hd & Hk); [done|simpl in *; lia|].
      rewrite Hd. exists w'', o, (S k). split; [done|]. simpl in Hs. lia.
    + exists w', o, 1. split; [done|]. destruct al; lia.
  - destruct (onTimer runtime r al (env n w)) as [w' [a'|o]] eqn:E.
    + apply (onTimer_inl _ _ _ _ _ d) in E as (Hok' & Hw & Hs); [|done].
      destruct (IH (S n) a' w') as (w'' & o & k & Hd & Hk); [done|simpl in *; lia|].
      rewrite Hd. exists w'', o, k. split; [done|]. simpl in Hs. lia.
    + exists w', o, 0. split; [done|lia].
Qed.
End RunnerProofs.

(** C28: a refresh ends whatever the server answers and whatever other code does
    to the session at each wait: after at most 14 waits and 8 requests. *)
Theorem refresh_terminates {W} (runtime : AuthRefreshRuntime W) env answer w :
  exists w' o k, createRefreshRunner runtime env answer 14 w = Some (w', o, k) /\ k <= 8.
Proof.
  unfold createRefreshRunner.
  destruct (run runtime 0 true w) as [w' [a|o]] eqn:E; [|exists w', o, 0; split; [done|lia]].
  apply run_inl in E as [-> ->].
  destruct (drive_ends runtime env answer 14 0 (AwaitResponse (getExpectedSID runtime w) 0 true) w)
    as (w' & o & k & Hd & Hk); simpl; [lia..|]. exists w', o, k. split; [done|simpl in Hk; lia].
Qed.

(** The bound is reached: races, then a mismatch, then races. *)
Example refresh_eight :
  let race := Response 409 (JObj [(js "code", JStr (js "AUTH_REFRESH_RACE"))]) JUndef in
  let mismatch := Response 409 (JObj [(js "code", JStr (js "AUTH_SESSION_MISMATCH"))]) JUndef in
  option_map snd (createRefreshRunner (refreshRuntime 0) (fun _ w => w)
    (fun n => if Nat.eqb n 6 then mismatch else race) 14 (Wd useAuthStore 0 [])) = Some 8.
Proof. vm_compute. reflexivity. Qed.

(** * What a refresh leaves *)

(** The relation between the session before the last answer and after it, for
    each outcome. *)
Definition outcome_leaves (w w' : World) (o : RefreshOutcome) : Prop :=
  match o with
  | RAuthenticated b =>
      store w' = setBundle b (store w) /\ authEpoch w' = (authEpoch w + 1)%N /\ published w' = published w
  | RAnonymous =>
      store w' = reset Complete (store w) /\ authEpoch w' = (authEpoch w + 1)%N /\
      published w' = (if jv_truthy (currentSID w) then [(SignedOut, currentSID w)] else []) ++ published w
  | RTransient (HttpError _) =>
      store w' = setBootstrapState Idle (store w) /\ authEpoch w' = authEpoch w /\ published w' = published w
  | RTransient _ => False
  | ROutOfSync _ =>
      store w' = reset Complete (store w) /\ authEpoch w' = (authEpoch w + 1)%N /\ published w' = published w
  end.

Lemma clear_true w : outcome_leaves w (clear (refreshRuntime (authEpoch w)) true None w) RAnonymous.
Proof.
  simpl. unfold clearAuthentication, publishAuthSessionEvent. simpl.
  destruct (jv_truthy (currentSID w)) eqn:E; rewrite ?E; done.
Qed.

Lemma clear_false w c : outcome_leaves w (clear (refreshRuntime (authEpoch w)) false None w) (ROutOfSync c).
Proof. done. Qed.

(** Applying a checked bundle returns, whatever the tabs are told. *)
Lemma isAuthBundle_record v : isAuthBundle v = true -> is_nullish v = false.
Proof. unfold isAuthBundle, isRecord. destruct v; done. Qed.

Lemma isLoginSession_record v : isLoginSession v = true -> is_nullish v = false.
Proof. unfold isLoginSession, isRecord. destruct v; done. Qed.

Lemma apply_checked v w : isAuthBundle v = true ->
  (applyAuthBundle v false w).1 = Wd (setBundle v (store w)) (authEpoch w + 1) (published w).
Proof. intros H%isAuthBundle_record. unfold applyAuthBundle. by rewrite H. Qed.

(** What the answer that ends a current refresh does to the session, by
    outcome: authenticated installs the bundle and tells no tab; a 401 signs out
    and tells the other tabs; out of sync signs out here only; a transient error
    keeps the session. A current refresh is never reported superseded. *)
Theorem refresh_outcome e r al resp w w' o :
  authEpoch w = e -> onResponse (refreshRuntime e) r al resp w = (w', inr o) -> outcome_leaves w w' o.
Proof.
  intros <- H. unfold onResponse in H.
  assert (Hc : forall x, authEpoch x = authEpoch w -> stillCurrent (refreshRuntime (authEpoch w)) x = true).
  { intros x Hx. by apply N.eqb_eq. }
  rewrite Hc in H by done. simpl negb in H. cbv iota in H.
  repeat case_match; simplify_eq; try apply clear_true; try apply clear_false; try done.
  all: simpl in *; try case_match; simplify_eq; try (rewrite apply_checked by done; done).
  all: unfold run in *; rewrite Hc in * by done; simplify_eq/=.
Qed.

Lemma refresh_outcome_witness :
  let w := Wd useAuthStore 0 [] in
  outcome_leaves w (clearAuthentication true Complete w) RAnonymous.
Proof. apply (refresh_outcome 0 0 true (Response 401 JNull JUndef)); reflexivity. Defined.

(** * The machine of a tab *)

(** The steps of the refresh itself. *)
Definition flight_event (e : Event) : bool :=
  match e with ELockGranted | ELockRejected | EResponse _ | ETimer => true | _ => false end.

(** The refresh in flight began at an epoch that has passed. *)
Definition stale (t : Tab) : Prop :=
  match refreshPromise t with Some f => refreshEpoch f <> authEpoch (world t) | None => True end.

Lemma run_stale e r al w : authEpoch w <> e ->
  run (refreshRuntime e) r al w = (w, inr (RTransient Superseded)).
Proof.
  intros H. unfold run. assert (stillCurrent (refreshRuntime e) w = false) as -> by (by apply N.eqb_neq).
  done.
Qed.

Lemma onResponse_stale e r al resp w : authEpoch w <> e ->
  onResponse (refreshRuntime e) r al resp w = (w, inr (RTransient Superseded)).
Proof.
  intros H. unfold onResponse.
  assert (stillCurrent (refreshRuntime e) w = false) as -> by (by apply N.eqb_neq). done.
Qed.

Lemma stale_step t ev : stale t -> flight_event ev = true ->
  world (tab_step t ev) = world t /\ stale (tab_step t ev).
Proof.
  unfold stale. destruct t as [w [[e ph]|] s]; simpl; [|by destruct ev].
  intros Hs Hev. assert (Hne : authEpoch w <> e) by done.
  destruct ev; try done; simpl.
  - destruct ph; [|done]. unfold lockGranted. simpl. by rewrite run_stale.
  - by destruct ph.
  - destruct ph as [|[? ? ?|? ? ?]]; try done. unfold responseArrives. simpl. by rewrite onResponse_stale.
  - destruct ph as [|[? ? ?|? ? ?]]; try done. unfold timerFires, onTimer. simpl. by rewrite run_stale.
Qed.

Lemma stale_run es : forall t, stale t -> forallb flight_event es = true ->
  world (tab_run t es) = world t.
Proof.
  induction es as [|e es IH]; intros t Hs He; simpl in *; [done|]. bool_hyps.
  destruct (stale_step t e Hs) as [Hw Hs']; [done|]. unfold tab_run in *. simpl. by rewrite IH.
Qed.

(** ** Invariants *)

(** Credentials as the type guards let them through. *)
Definition credentials_valid (a : AuthState) : Prop :=
  (exists t, accessToken a = JStr t /\ truthy t = true) /\
  (exists e, accessExpiresAt a = JNum e /\ num_is_finite e = true /\ num_ltb nzero e = true) /\
  isLoginSession (session a) = true.

Definition signed_out (a : AuthState) : Prop :=
  accessToken a = JNull /\ accessExpiresAt a = JNull /\ session a = JNull.

(** The credentials are the fields of [v]. *)
Definition credentials_of (v : jv) (a : AuthState) : Prop :=
  accessToken a = jv_get v (js "access_token") /\ accessExpiresAt a = jv_get v (js "access_expires_at") /\
  session a = jv_get v (js "session").

(** The store, when the answers [unchecked] are the only ones a form handed
    over that are no bundle. *)
Definition store_wf (unchecked : jv -> Prop) (a : AuthState) : Prop :=
  (signed_out a \/ credentials_valid a \/ exists v, unchecked v /\ credentials_of v a) /\
  (pending2FASMSAvailable a = true -> jv_truthy (pending2FAFlowToken a) = true).

Definition world_wf (unchecked : jv -> Prop) (w : World) : Prop :=
  store_wf unchecked (store w) /\ Forall (fun p => jv_truthy p.2 = true) (published w).

Record tab_wf (unchecked : jv -> Prop) (t : Tab) : Prop := {
  wf_world : world_wf unchecked (world t);
  wf_epoch : match refreshPromise t with Some f => (refreshEpoch f <= authEpoch (world t))%N | None => True end
}.

Lemma token_fields_valid v : hasValidTokenFields v = true -> isLoginSession (jv_get v (js "session")) = true ->
  forall a, credentials_of v a -> credentials_valid a.
Proof.
  unfold hasValidTokenFields, has_text. intros H Hs a (Ht & He & Hse). unfold credentials_valid.
  rewrite Hse, Ht, He. bool_hyps. repeat case_match; try done. bool_hyps. eauto 10.
Qed.

Lemma isAuthBundle_valid v a : isAuthBundle v = true -> credentials_of v a -> credentials_valid a.
Proof. unfold isAuthBundle. intros H. bool_hyps. by apply token_fields_valid. Qed.

Lemma credentials_set v a : credentials_of v (setBundle v a).
Proof. done. Qed.

Lemma publish_epoch k s w : authEpoch (publishAuthSessionEvent k s w) = authEpoch w.
Proof. unfold publishAuthSessionEvent. by destruct (jv_truthy s). Qed.

Lemma apply_epoch v sync w : authEpoch (applyAuthBundle v sync w).1 = (authEpoch w + 1)%N.
Proof. unfold applyAuthBundle. repeat case_match; simpl; by rewrite ?publish_epoch. Qed.

Lemma clear_epoch sync b w : authEpoch (clearAuthentication sync b w) = (authEpoch w + 1)%N.
Proof. unfold clearAuthentication. case_match; by rewrite ?publish_epoch. Qed.

Section Invariant.
Context (unchecked : jv -> Prop).
Notation world_wf := (world_wf unchecked).
Notation tab_wf := (tab_wf unchecked).
Notation store_wf := (store_wf unchecked).

(** What a step does to the world: it keeps the invariant and never takes the
    epoch back. *)
Definition good (w w' : World) : Prop :=
  world_wf w -> world_wf w' /\ (authEpoch w <= authEpoch w')%N.

Lemma good_refl w : good w w.
Proof. by split. Qed.

Lemma good_trans w1 w2 w3 : good w1 w2 -> good w2 w3 -> good w1 w3.
Proof. intros H1 H2 Hw. destruct (H1 Hw) as [Hw2 ?]. destruct (H2 Hw2). split; [done|lia]. Qed.

Lemma publish_wf k s w : world_wf w -> world_wf (publishAuthSessionEvent k s w).
Proof.
  unfold publishAuthSessionEvent, AuthSession.world_wf. destruct (jv_truthy s) eqn:E; simpl; [|done].
  intros [? ?]. split; [done|by constructor].
Qed.

(** A bundle is checked, or its fields are those of a value allowed here. *)
Lemma good_bundle v sync w :
  (forall a, credentials_of v a -> credentials_valid a) \/ unchecked v ->
  good w (applyAuthBundle v sync w).1.
Proof.
  intros Hv [Hs Hp]. rewrite apply_epoch. split; [|lia].
  assert (world_wf (Wd (setBundle v (store w)) (authEpoch w + 1) (published w))).
  { split; [|done]. split; [|done]. right. destruct Hv as [Hv|Hv]; [left; by apply Hv|right; by exists v]. }
  unfold applyAuthBundle. repeat case_match; simpl; try done. by apply publish_wf.
Qed.

Lemma good_checked v sync w : isAuthBundle v = true -> good w (applyAuthBundle v sync w).1.
Proof. intros Hv. apply good_bundle. left. intros a. by apply isAuthBundle_valid. Qed.

Lemma reset_wf b a : store_wf (reset b a).
Proof. split; [by left|done]. Qed.

Lemma good_clear sync b w : good w (clearAuthentication sync b w).
Proof.
  intros [Hs Hp]. rewrite clear_epoch. split; [|lia]. unfold clearAuthentication.
  assert (world_wf (Wd (reset b (store w)) (authEpoch w + 1) (published w))) by (split; [apply reset_wf|done]).
  case_match; [by apply publish_wf|done].
Qed.

Lemma good_store f w : (store_wf (store w) -> store_wf (f (store w))) -> good w (on_store f w).
Proof. intros Hf [Hs Hp]. split; [split; [by apply Hf|done]|simpl; lia]. Qed.

#[local] Hint Resolve good_refl good_clear good_checked reset_wf : auth.
#[local] Hint Extern 3 (good _ (on_store (setBootstrapState _) _)) => apply good_store; done : auth.
#[local] Hint Extern 3 (good _ (on_store (reset _) _)) => apply good_store; intros; apply reset_wf : auth.

Lemma good_runtime_clear e sync b w : good w (clear (refreshRuntime e) sync b w).
Proof. simpl. repeat case_match; auto with auth. Qed.
#[local] Hint Resolve good_runtime_clear : auth.

Lemma good_run e r al w : good w (run (refreshRuntime e) r al w).1.
Proof. unfold run. case_match; auto with auth. Qed.
#[local] Hint Resolve good_run : auth.

Lemma good_onResponse e r al resp w : good w (onResponse (refreshRuntime e) r al resp w).1.
Proof.
  unfold onResponse. repeat case_match; cbn [fst]; auto with auth.
  all: try (eapply good_trans; [apply good_runtime_clear|apply good_run]).
  all: try (simpl; auto with auth; fail).
  all: simpl in *; case_match; simplify_eq; by apply good_checked.
Qed.

Lemma good_rotation v w : good w (match applyAuthRotation v w with inr w' => w' | inl _ => w end).
Proof.
  unfold applyAuthRotation. destruct (isAuthTokenRotation v) eqn:E; cbn [negb]; [|auto with auth].
  destruct (negb (jv_truthy _) || _); [auto with auth|].
  destruct (negb (same_primitive _ _)); [auto with auth|].
  apply good_bundle. left. intros a Ha. unfold isAuthTokenRotation in E. bool_hyps.
  by apply (token_fields_valid v).
Qed.

Lemma good_sync k s w : good w (onSessionEvent k s w).
Proof. unfold onSessionEvent, clearAuthenticatedClientState. repeat case_match; auto with auth. Qed.

(** A tab that steps: it stays well formed and its epoch does not fall. *)
Definition good_tab (t t' : Tab) : Prop :=
  tab_wf t -> tab_wf t' /\ (authEpoch (world t) <= authEpoch (world t'))%N.

Lemma good_tab_refl t : good_tab t t.
Proof. by split. Qed.

(** A piece of the runner that ran in a good way leaves a good tab. *)
Lemma good_after e s r t : (e <= authEpoch (world t))%N -> good (world t) r.1 -> good_tab t (after e s r).
Proof.
  intros He Hg [Hw _]. destruct (Hg Hw) as [Hw' He'].
  destruct r as [w' [a|o]]; (split; [split|]); simpl in *; try done; lia.
Qed.

Lemma good_on_world f t : good (world t) (f (world t)) -> good_tab t (on_world f t).
Proof.
  intros Hg [Hw He]. destruct (Hg Hw) as [Hw' Hle]. (split; [split|]); simpl; [done| |done].
  destruct (refreshPromise t); [lia|done].
Qed.

Lemma good_refresh l t : good_tab t (refreshAuthentication l t).
Proof.
  unfold refreshAuthentication. destruct (refreshPromise t) eqn:E; [apply good_tab_refl|].
  destruct l.
  - apply good_after; [lia|apply good_run].
  - intros [Hw _]. (split; [split|]); simpl; done || lia.
  - intros [Hw _]. destruct (good_store (setBootstrapState Idle) (world t)) as [? ?]; [done..|].
    by split; [split|].
Qed.

Lemma good_tab_trans t1 t2 t3 : good_tab t1 t2 -> good_tab t2 t3 -> good_tab t1 t3.
Proof. intros H1 H2 Hw. destruct (H1 Hw) as [Hw2 ?]. destruct (H2 Hw2). split; [done|lia]. Qed.

(** A bundle of a login passed the check of its form, or is allowed here. *)
Definition login_from (e : Event) : Prop :=
  match e with EBundle v _ => isAuthBundle v = true \/ unchecked v | _ => True end.

Lemma good_step t e : login_from e -> good_tab t (tab_step t e).
Proof.
  intros Hev Ht0. pose proof Ht0 as [Hw He]. revert Ht0. change (good_tab t (tab_step t e)).
  destruct e; simpl; try (apply good_on_world; auto with auth; fail).
  - apply good_refresh.
  - unfold lockGranted. destruct (refreshPromise t) as [[e [|]]|]; try apply good_tab_refl.
    apply good_after; [done|apply good_run].
  - unfold lockRejected. destruct (refreshPromise t) as [[e [|]]|]; try apply good_tab_refl. by split.
  - unfold responseArrives. destruct (refreshPromise t) as [[e [|[]]]|]; try apply good_tab_refl.
    apply good_after; [done|apply good_onResponse].
  - unfold timerFires. destruct (refreshPromise t) as [[e [|[]]]|]; try apply good_tab_refl.
    apply good_after; [done|apply good_run].
  - apply good_on_world. by apply good_store.
  - apply good_on_world. apply good_store. intros [H _]. split; [exact H|]. simpl.
    intros Hb%andb_true_iff. tauto.
  - apply good_on_world. destruct Hev as [Hv|Hv]; [by apply good_checked|apply good_bundle; by right].
  - apply good_on_world, good_rotation.
  - apply good_on_world, good_sync.
  - assert (Hb : forall b, good_tab t (on_world (on_store (setBootstrapState b)) t)).
    { intros b. apply good_on_world. by apply good_store. }
    unfold bootstrapAuthentication. destruct (currentValidAuthBundle _ _); [apply (Hb Complete)|].
    cbv zeta. destruct (_ && negb _)%bool; [apply good_tab_refl|].
    eapply good_tab_trans; [apply (Hb Checking)|apply good_refresh].
  - unfold getFreshAuthHeaders. cbv zeta. destruct (tokenValidUntil _ _); [apply good_tab_refl|apply good_refresh].
Qed.

Lemma good_tab_run es : forall t, Forall login_from es -> good_tab t (tab_run t es).
Proof.
  induction es as [|e es IH]; intros t Hes; [apply good_tab_refl|]. inversion Hes; subst.
  eapply good_tab_trans; [by apply good_step|by apply (IH (tab_step t e))].
Qed.

Lemma tab_init_wf : tab_wf tab_init.
Proof. split; [|done]. split; [|constructor]. split; [by left|done]. Qed.
End Invariant.

(** The answers of the logins of a run that are no bundle: those of the forms
    that do not look. *)
Definition unchecked_login (es : list Event) (v : jv) : Prop :=
  (exists sync, EBundle v sync ∈ es) /\ isAuthBundle v = false.

Lemma logins_from es fs : fs ⊆ es -> Forall (login_from (unchecked_login es)) fs.
Proof.
  intros H. apply Forall_forall. intros e He. destruct e; try done. simpl.
  destruct (isAuthBundle b) eqn:E; [by left|right]. split; [|done]. eexists. by apply H.
Qed.

(** C38: in every run of a tab, whatever the server answers and the other tabs
    send: the credentials are absent, or a valid token, expiry and session, or
    the fields, as they are, of the answer to a login of this run that is no
    valid bundle; a text message is offered for the second factor only while its
    flow token is there; every event published names a session; a refresh in
    flight began at this epoch or an earlier one; and the epoch never falls. *)
Theorem tab_invariant es fs :
  let t := tab_run tab_init es in
  tab_wf (unchecked_login es) t /\ (authEpoch (world t) <= authEpoch (world (tab_run t fs)))%N.
Proof.
  destruct (good_tab_run (unchecked_login es) es tab_init) as [Ht _]; [by apply logins_from|apply tab_init_wf|].
  split; [done|]. destruct (good_tab_run (unchecked_login (es ++ fs)) fs (tab_run tab_init es)) as [_ He]; [| |done].
  - apply logins_from. set_solver.
  - apply (good_tab_run _ es tab_init); [apply logins_from; set_solver|apply tab_init_wf].
Qed.

Definition sample_session : jv :=
  JObj [(js "sid", JStr (js "s1")); (js "current", JBool true); (js "login_method", JStr (js "password"));
        (js "ip", JStr (js "::1")); (js "user_agent", JStr (js "agent")); (js "created_at", JNum (num_of_Z 1));
        (js "last_active_at", JNum (num_of_Z 2)); (js "expires_at", JNum (num_of_Z 3))].
Definition sample_user : jv :=
  JObj [(js "id", JNum (num_of_Z 7)); (js "username", JStr (js "ann")); (js "role", JNum (num_of_Z 1))].
Definition sample_bundle : jv :=
  JObj [(js "access_token", JStr (js "tok")); (js "token_type", JStr (js "Bearer"));
        (js "access_expires_at", JNum (num_of_Z 4000000000)); (js "user", sample_user); (js "session", sample_session)].

Example sample_bundle_ok : isAuthBundle sample_bundle = true.
Proof. vm_compute. reflexivity. Qed.

(** An answer without a session, applied by the one-time password or the text
    message form: the call throws, but the user is already signed in and the
    token is in use; no session is there to sign out of. *)
Theorem unchecked_login_half_signed_in :
  let v := JObj [(js "access_token", JStr (js "tok")); (js "user", sample_user)] in
  let r := applyAuthBundle v true (world tab_init) in
  isAuthBundle v = false /\ r.2 = ThrowsTypeError /\ user (store r.1) = sample_user /\
  getCommonHeaders (store r.1) =
    [(js "Content-Type", js "application/json"); (js "Authorization", js "Bearer tok")] /\
  session (store r.1) = JUndef /\ published (clearAuthentication true Complete r.1) = [].
Proof. vm_compute. repeat split. Qed.

(** Requests carry an Authorization header exactly when the tab has a
    session, in every run of a tab whose logins all answered with a bundle. *)
Theorem headers_iff_session es :
  Forall (login_from (fun _ => False)) es ->
  let a := store (world (tab_run tab_init es)) in
  is_some (map_get (js "Authorization") (getCommonHeaders a)) = jv_truthy (session a).
Proof.
  intros H. destruct (good_tab_run (fun _ => False) es tab_init) as [[[[Hs _] _] _] _]; [done|apply tab_init_wf|].
  simpl. unfold getCommonHeaders. destruct Hs as [(-> & _ & ->)|[((tok & -> & Ht) & _ & Hse)|(v & [] & _)]]; [done|].
  simpl. rewrite Ht. unfold isLoginSession, isRecord in Hse. bool_hyps. symmetry. done.
Qed.

Lemma headers_iff_session_witness :
  let a := store (world (tab_run tab_init [EBundle sample_bundle true])) in
  is_some (map_get (js "Authorization") (getCommonHeaders a)) = jv_truthy (session a).
Proof. apply headers_iff_session. constructor; [left; vm_compute; reflexivity|constructor]. Defined.

(** C8: a login (or a sign-out) during a refresh wins: whatever the refresh in
    flight receives afterwards, the session stays the one the login left. *)
Theorem login_supersedes_refresh es e fs :
  match e with EBundle _ _ | EClear _ _ => True | _ => False end ->
  forallb flight_event fs = true ->
  world (tab_run tab_init (es ++ e :: fs)) = world (tab_run tab_init (es ++ [e])).
Proof.
  intros Hk Hfs.
  destruct (good_tab_run (unchecked_login es) es tab_init) as [[_ Hep] _];
    [by apply logins_from|apply tab_init_wf|].
  unfold tab_run in *. rewrite !fold_left_app. simpl.
  set (t := fold_left tab_step es tab_init) in *.
  apply (stale_run fs (tab_step t e)); [|done].
  unfold stale. destruct e; try done; simpl; unfold on_world; simpl; destruct (refreshPromise t) as [f|]; try done.
  - rewrite apply_epoch. lia.
  - rewrite clear_epoch. lia.
Qed.

Lemma login_supersedes_refresh_witness :
  world (tab_run tab_init ([ERefresh NoLocks] ++ EBundle sample_bundle true :: [EResponse (Response 401 JNull JUndef)])) =
  world (tab_run tab_init ([ERefresh NoLocks] ++ [EBundle sample_bundle true])).
Proof. apply login_supersedes_refresh; repeat constructor. Defined.

(** * Rotation *)

(** A rotation succeeds exactly for a valid bearer rotation of the session
    the tab is in; it then replaces the token, the expiry and the session, keeps
    the user and publishes nothing; otherwise it throws and changes nothing. *)
Theorem rotation_spec v w :
  let rotates := isAuthTokenRotation v && jv_truthy (user (store w)) && jv_truthy (session (store w)) &&
                 same_primitive (jv_get (jv_get v (js "session")) (js "sid")) (currentSID w) in
  match applyAuthRotation v w with
  | inr w' => rotates = true /\
      store w' = Auth (user (store w)) (jv_get v (js "access_token")) (jv_get v (js "access_expires_at"))
                   (jv_get v (js "session")) JNull false Complete /\
      authEpoch w' = (authEpoch w + 1)%N /\ published w' = published w
  | inl _ => rotates = false
  end.
Proof.
  unfold applyAuthRotation, currentSID. cbv zeta. destruct (isAuthTokenRotation v); [|done].
  destruct (jv_truthy (user _)), (jv_truthy (session _)); try done.
  destruct (same_primitive _ _); done.
Qed.

(** * Between tabs *)

(** An event posted by a tab is delivered to the others, with its kind and
    session, within a minute, and never to the tab itself; and what a tab does
    on receiving it publishes nothing, so events are never echoed. *)
Theorem sync_delivery (e : Sync.AuthSessionSyncEvent) (src : jstr) (now : Z) (w : World) :
  (Sync.deliver src now (Sync.event_value e) = Some e <->
     truthy (Sync.ev_sid e) = true /\ Sync.source e <> src /\ Sync.recent now (Sync.timestamp e) = true) /\
  published (onSessionEvent (Sync.kind e) (Sync.ev_sid e) w) = published w.
Proof.
  split.
  - destruct e as [k s so n t]. unfold Sync.deliver.
    assert (Sync.isAuthSessionSyncEvent (Sync.event_value (Sync.SyncEvent k s so n t)) =
            if truthy s then Some (Sync.SyncEvent k s so n t) else None) as ->.
    { unfold Sync.event_value. destruct k, s; reflexivity. }
    simpl. destruct (truthy s); [|naive_solver]. simpl.
    rewrite <-jstr_eqb_false. destruct (so =s src), (Sync.recent now t); simpl; naive_solver.
  - unfold onSessionEvent, clearAuthenticatedClientState, clearAuthentication.
    repeat case_match; done.
Qed.

(** Signing out in one tab signs out every tab that is in the same session,
    and leaves the tabs of another session as they are. *)
Theorem sign_out_reaches_tabs w1 w2 s :
  currentSID w1 = JStr s -> truthy s = true ->
  let w1' := clearAuthentication true Complete w1 in
  published w1' = (SignedOut, JStr s) :: published w1 /\
  (currentSID w2 = JStr s -> store (onSessionEvent SignedOut s w2) = reset Complete (store w2)) /\
  (currentSID w2 <> JStr s -> onSessionEvent SignedOut s w2 = w2).
Proof.
  intros H1 Hs. cbv zeta. unfold clearAuthentication, publishAuthSessionEvent. rewrite H1. simpl. rewrite Hs.
  split; [done|]. unfold onSessionEvent. split.
  - intros ->. simpl. by rewrite Hs, jstr_eqb_refl.
  - intros Hne. assert (is_string (currentSID w2) s = false) as ->; [|by rewrite andb_false_r].
    destruct (currentSID w2) as [| | | |c| |]; try done. simpl. apply jstr_eqb_false. congruence.
Qed.

Definition sample_world : World := Wd (setBundle sample_bundle useAuthStore) 0 [].

Lemma sign_out_reaches_tabs_witness :
  let w1' := clearAuthentication true Complete sample_world in
  published w1' = (SignedOut, JStr (js "s1")) :: published sample_world /\
  (currentSID sample_world = JStr (js "s1") ->
     store (onSessionEvent SignedOut (js "s1") sample_world) = reset Complete (store sample_world)) /\
  (currentSID sample_world <> JStr (js "s1") -> onSessionEvent SignedOut (js "s1") sample_world = sample_world).
Proof. apply sign_out_reaches_tabs; reflexivity. Defined.

(** * Requests *)

(** A retry ends with its answer. *)
Lemma request_retry n status refresh c :
  Http.authRetry c = true -> exists r, Http.request 1 n status refresh c = Some (r, S n).
Proof.
  intros Hc. simpl. unfold Http.handleError. rewrite Hc, andb_false_r.
  repeat case_match; simplify_eq; by eexists.
Qed.

Lemma afterRefresh_inl o a c c' : Http.afterRefresh o a c = inl c' ->
  Http.authRetry c' = Http.authRetry c /\ exists b, o = RAuthenticated b.
Proof. destruct o; simpl; intros H; try done. repeat case_match; naive_solver. Qed.

(** A request is sent at most twice whatever the server answers; it is sent
    again only after a 401, if it allows a refresh, was not a retry itself, and
    the refresh authenticated. *)
Theorem request_at_most_twice status refresh c :
  exists r k, Http.request 2 0 status refresh c = Some (r, k) /\
    (k = 1 \/ k = 2 /\ status 0 = 401%Z /\ Http.skipAuthRefresh c = false /\ Http.authRetry c = false /\
              exists b, fst refresh = RAuthenticated b).
Proof.
  cbn [Http.request]. destruct (_ && _)%bool; [by do 2 eexists; split; [|left]|].
  unfold Http.handleError. destruct (Z.eqb_spec (status 0) 401) as [E|]; [|by do 2 eexists; split; [|left]].
  destruct (negb _ && negb _)%bool eqn:Ef; [|destruct (Http.authRetry c); by do 2 eexists; split; [|left]].
  bool_hyps. destruct (Http.afterRefresh _ _ _) as [c'|ns] eqn:Ea; [|by do 2 eexists; split; [|left]].
  apply afterRefresh_inl in Ea as [Hr Hb].
  destruct (request_retry 1 status refresh c') as [r Hres]; [by rewrite Hr|].
  exists r, 2. split; [exact Hres|]. right. done.
Qed.
