(* ===== verification/MiniChat.v ===== *)
(** The conversations of the mini app (miniapp/src/playground/storage.ts) and
    the device storage they are kept in.

    The storage is the one of Taro: a class of operations with their documented
    laws, so that the theorems hold for any runtime; the association list
    instance is used on concrete inputs. *)

From Stdlib Require Import NArith ZArith Lia ZifyBool ZifyN.
From stdpp Require Import base list gmap strings.
From S2P Require Import Prelude JsString JsNum Json Regex.

(** * Device storage *)

(** [Taro.*StorageSync]; [None] is an exception, which leaves the device as it
    was. A key that is not stored reads as the empty string. *)
Class Taro (D : Type) := {
  getStorageSync : jstr -> D -> option jv;
  setStorageSync : jstr -> jv -> D -> option D;
  removeStorageSync : jstr -> D -> option D;
  removeSavedFile : jstr -> D -> D
}.

Class TaroLaws (D : Type) `{Taro D} := {
  get_set k v d d' : setStorageSync k v d = Some d' -> getStorageSync k d' = Some v;
  get_set_other k k' v d d' : k <> k' -> setStorageSync k v d = Some d' -> getStorageSync k' d' = getStorageSync k' d;
  get_remove k d d' : removeStorageSync k d = Some d' -> getStorageSync k d' = Some (JStr []);
  get_remove_other k k' d d' :
    k <> k' -> removeStorageSync k d = Some d' -> getStorageSync k' d' = getStorageSync k' d;
  get_remove_file k f d : getStorageSync k (removeSavedFile f d) = getStorageSync k d
}.

(** A device with working storage, and the files that were removed. *)
Record Device := Dev { kv : list (jstr * jv); removed : list jstr }.

#[export] Instance device_taro : Taro Device := {
  getStorageSync k d := Some (map_get k (kv d) ?? JStr []);
  setStorageSync k v d := Some (Dev (map_set k v (kv d)) (removed d));
  removeStorageSync k d := Some (Dev (List.filter (fun e => negb (bool_decide (e.1 = k))) (kv d)) (removed d));
  removeSavedFile f d := Dev (kv d) (f :: removed d)
}.

Lemma map_get_filter_key {V} (k k' : jstr) (l : list (jstr * V)) :
  map_get k' (List.filter (fun e => negb (bool_decide (e.1 = k))) l) = if decide (k = k') then None else map_get k' l.
Proof.
  induction l as [|[k0 v] l IH]; simpl; [by destruct (decide _)|].
  case_bool_decide as E; simpl; subst; rewrite IH; destruct (decide (k = k')) as [->|]; try done.
  - by rewrite bool_decide_eq_false_2.
  - by rewrite (bool_decide_eq_false_2 (k' = k0)).
Qed.

#[export] Instance device_laws : TaroLaws Device.
Proof.
  split; simpl; intros; simplify_eq; simpl; try done.
  - by rewrite map_get_set_eq.
  - by rewrite map_get_set_ne.
  - rewrite map_get_filter_key. by destruct (decide _).
  - rewrite map_get_filter_key. by destruct (decide _).
Qed.

(** * Conversations *)

Inductive ChatRole := Assistant | UserRole.

Record ChatMessage := Message {
  content : jstr; createdAt : num; m_id : jstr; imagePath : option jstr; m_role : ChatRole }.

Record ConversationDraft := Draft { d_group : jstr; d_messages : list ChatMessage; d_model : jstr }.

Record ChatConversation := Conversation {
  c_id : jstr; c_group : jstr; messages : list ChatMessage; c_model : jstr; updatedAt : num }.

Record ConversationStore := Store { activeId : jstr; conversations : list ChatConversation }.

Definition LEGACY_KEY : jstr := js "miniapp:playground:v1".
Definition STORAGE_KEY : jstr := js "miniapp:playground:v2".
Definition MAX_MESSAGES : nat := 40.
Definition MAX_CHARACTERS : N := 60000.

(** ** Compaction *)

Definition jlength (s : jstr) : N := N.of_nat (length s).

(** [s.slice(-n)] for [0 < n]. *)
Definition slice_last (n : N) (s : jstr) : jstr := drop (length s - N.to_nat (N.min n (jlength s))) s.

(** The loop over the messages, latest first: [count] are kept already, with
    [characters] in all; the kept ones in the order they are pushed. *)
Fixpoint keep (count : nat) (characters : N) (ms : list ChatMessage) : list ChatMessage :=
  match ms with
  | [] => []
  | m :: t =>
      if Nat.leb MAX_MESSAGES count then []
      else
        let remaining := (MAX_CHARACTERS - characters)%N in
        if (remaining <=? 0)%N then []
        else
          let c := slice_last remaining (content m) in
          Message c (createdAt m) (m_id m) (imagePath m) (m_role m) :: keep (S count) (characters + jlength c) t
  end.

Definition compactConversation (draft : ConversationDraft) : ConversationDraft :=
  Draft (d_group draft) (reverse (keep 0 0 (reverse (d_messages draft)))) (d_model draft).

(** [Date.now()] and the random part of the identifier are given. *)
Definition createConversation (freshId : jstr) (now : num) (g mo : jstr) : ChatConversation :=
  Conversation freshId g [] mo now.

Definition is_user (m : ChatMessage) : bool := match m_role m with UserRole => true | Assistant => false end.

Definition conversationTitle (c : ChatConversation) : jstr :=
  match List.find is_user (messages c) with
  | Some m => take 42 (trim (replace_all (RPlus RWs) [32%N] (content m)))
  | None => []
  end.

(** [right.updatedAt - left.updatedAt], by its sign. *)
Definition history_cmp (l r : ChatConversation) : Z :=
  let d := num_sub (updatedAt r) (updatedAt l) in
  if num_ltb nzero d then 1 else if num_ltb d nzero then -1 else 0.

Definition conversationHistory (cs : list ChatConversation) : list ChatConversation :=
  sort_by history_cmp (List.filter (fun c => Nat.ltb 0 (length (messages c))) cs).

Definition compactOne (c : ChatConversation) : ChatConversation :=
  let d := compactConversation (Draft (c_group c) (messages c) (c_model c)) in
  Conversation (c_id c) (d_group d) (d_messages d) (d_model d) (updatedAt c).

Definition compactConversationStore (s : ConversationStore) : ConversationStore :=
  Store (activeId s) (List.map compactOne (conversations s)).

(** ** Reading stored values *)

(** [isMessage], with the message it lets through. *)
Definition isMessage (v : jv) : option ChatMessage :=
  match jv_get v (js "role"), jv_get v (js "id"), jv_get v (js "content"), jv_get v (js "imagePath"),
        jv_get v (js "createdAt") with
  | JStr r, JStr i, JStr c, img, JNum t =>
      let path := match img with JUndef => Some None | JStr p => Some (Some p) | _ => None end in
      match path with
      | Some p =>
          if num_is_finite t then
            if r =s js "user" then Some (Message c t i p UserRole)
            else if r =s js "assistant" then Some (Message c t i p Assistant) else None
          else None
      | None => None
      end
  | _, _, _, _, _ => None
  end.

(** [items.every(isMessage)] of an array. *)
Fixpoint all_messages (l : list jv) : option (list ChatMessage) :=
  match l with
  | [] => Some []
  | v :: t =>
      match isMessage v, all_messages t with
      | Some m, Some ms => Some (m :: ms)
      | _, _ => None
      end
  end.

(** The filter of the stored conversations. *)
Definition isConversation (v : jv) : option ChatConversation :=
  match jv_get v (js "id"), jv_get v (js "group"), jv_get v (js "model"), jv_get v (js "updatedAt"),
        jv_get v (js "messages") with
  | JStr i, JStr g, JStr mo, JNum t, JArr l =>
      if num_is_finite t then
        match all_messages l with Some ms => Some (Conversation i g ms mo t) | None => None end
      else None
  | _, _, _, _, _ => None
  end.

Section Storage.
Context {D : Type} `{Taro D}.

(** What [loadConversationStore] finds: a store of this version, a legacy
    draft, or nothing; an exception is nothing. *)
Definition loadCurrent (v : jv) : option ConversationStore :=
  match jv_get v (js "version"), jv_get v (js "conversations") with
  | JNum ver, JArr l =>
      if num_eqb ver (num_of_Z 2) then
        match omap isConversation l with
        | [] => None
        | c :: cs =>
            let a := match jv_get v (js "activeId") with
                     | JStr a => if existsb (fun x => c_id x =s a) (c :: cs) then a else c_id c
                     | _ => c_id c
                     end in
            Some (compactConversationStore (Store a (c :: cs)))
        end
      else None
  | _, _ => None
  end.

Definition loadLegacy (now : num) (v : jv) : option ConversationStore :=
  let version_ok := match jv_get v (js "version") with
                    | JUndef => true
                    | JNum ver => num_eqb ver (num_of_Z 1)
                    | _ => false
                    end in
  if (jv_truthy v && version_ok)%bool then
    match jv_get v (js "group"), jv_get v (js "model"), jv_get v (js "messages") with
    | JStr g, JStr mo, JArr l =>
        match all_messages l with
        | Some ms =>
            let d := compactConversation (Draft g ms mo) in
            let c := Conversation (js "chat-legacy-v1") (d_group d) (d_messages d) (d_model d)
                       (match last (d_messages d) with Some m => createdAt m | None => now end) in
            Some (Store (c_id c) [c])
        | None => None
        end
    | _, _, _ => None
    end
  else None.

Definition loadConversationStore (freshId : jstr) (now : num) (d : D) : ConversationStore :=
  let found :=
    match getStorageSync STORAGE_KEY d with
    | None => None
    | Some v =>
        match loadCurrent v with
        | Some s => Some s
        | None => match getStorageSync LEGACY_KEY d with Some l => loadLegacy now l | None => None end
        end
    end in
  match found with
  | Some s => s
  | None => let c := createConversation freshId now [] [] in Store (c_id c) [c]
  end.

(** ** Writing *)

Definition role_str (r : ChatRole) : jstr := match r with UserRole => js "user" | Assistant => js "assistant" end.

(** An undefined path is not stored. *)
Definition jv_of_message (m : ChatMessage) : jv :=
  JObj ([(js "content", JStr (content m)); (js "createdAt", JNum (createdAt m)); (js "id", JStr (m_id m))] ++
        (match imagePath m with Some p => [(js "imagePath", JStr p)] | None => [] end) ++
        [(js "role", JStr (role_str (m_role m)))]).

Definition jv_of_conversation (c : ChatConversation) : jv :=
  JObj [(js "id", JStr (c_id c)); (js "group", JStr (c_group c));
        (js "messages", JArr (List.map jv_of_message (messages c)));
        (js "model", JStr (c_model c)); (js "updatedAt", JNum (updatedAt c))].

Definition jv_of_store (s : ConversationStore) : jv :=
  JObj [(js "activeId", JStr (activeId s));
        (js "conversations", JArr (List.map jv_of_conversation (conversations s)));
        (js "version", JNum (num_of_Z 2))].

(** An operation that may throw, with the exception swallowed. *)
Definition attempt (f : D -> option D) (d : D) : D := match f d with Some d' => d' | None => d end.

Definition saveConversationStore (s : ConversationStore) (d : D) : bool * D :=
  match setStorageSync STORAGE_KEY (jv_of_store (compactConversationStore s)) d with
  | None => (false, d)
  | Some d' => (true, attempt (removeStorageSync LEGACY_KEY) d')
  end.

(** The removals fail silently, one by one. *)
Definition removeImages (paths : list jstr) (d : D) : D :=
  fold_left (fun d p => removeSavedFile p d) (uniq (List.filter truthy paths)) d.

Definition removeConversationImages (ms : list ChatMessage) (d : D) : D := removeImages (omap imagePath ms) d.

(** The paths [clearConversation] reads from the unchecked stored value, up to
    the first element that makes it throw: an array of messages with a null
    element. *)
Fixpoint storedPaths (l : list jv) : option (list jstr) :=
  match l with
  | [] => Some []
  | (JUndef | JNull) :: _ => None
  | v :: t =>
      match storedPaths t with
      | Some ps => Some (match jv_get v (js "imagePath") with JStr p => p :: ps | _ => ps end)
      | None => None
      end
  end.

Fixpoint clearImages (l : list jv) (d : D) : D :=
  match l with
  | [] => d
  | v :: t =>
      match jv_get v (js "messages") with
      | JArr ms =>
          match storedPaths ms with
          | Some ps => clearImages t (removeImages ps d)
          | None => d
          end
      | _ => clearImages t d
      end
  end.

Definition clearConversation (d : D) : D :=
  let d := match getStorageSync STORAGE_KEY d with
           | Some v => match jv_get v (js "conversations") with JArr l => clearImages l d | _ => d end
           | None => d
           end in
  attempt (removeStorageSync LEGACY_KEY) (attempt (removeStorageSync STORAGE_KEY) d).
End Storage.

(** * Compaction *)

Definition with_content (c : jstr) (m : ChatMessage) : ChatMessage :=
  Message c (createdAt m) (m_id m) (imagePath m) (m_role m).

Definition total (ms : list ChatMessage) : N := foldr (fun m n => jlength (content m) + n)%N 0%N ms.

Lemma slice_last_id n s : (jlength s <= n)%N -> slice_last n s = s.
Proof.
  intros H. unfold slice_last, jlength in *. rewrite N.min_r, Nat2N.id, Nat.sub_diag by lia. apply drop_0.
Qed.

Lemma slice_last_length n s : jlength (slice_last n s) = N.min n (jlength s).
Proof. unfold slice_last, jlength. rewrite length_drop. lia. Qed.

Lemma slice_last_suffix n s : exists u, s = u ++ slice_last n s.
Proof. unfold slice_last. eexists. symmetry. apply take_drop. Qed.

Lemma with_content_id m : with_content (content m) m = m.
Proof. by destruct m. Qed.

Lemma total_app l1 l2 : total (l1 ++ l2) = (total l1 + total l2)%N.
Proof. induction l1 as [|m l1 IH]; simpl; lia. Qed.

Lemma keep_cons n ch m t : keep n ch (m :: t) =
  if (Nat.leb MAX_MESSAGES n || (MAX_CHARACTERS <=? ch)%N)%bool then []
  else let c := slice_last (MAX_CHARACTERS - ch) (content m) in
       with_content c m :: keep (S n) (ch + jlength c) t.
Proof.
  cbn [keep]. destruct (Nat.leb MAX_MESSAGES n); [done|]. cbn [orb].
  destruct (N.leb_spec MAX_CHARACTERS ch); destruct (N.leb_spec (MAX_CHARACTERS - ch) 0); try lia; done.
Qed.

Lemma keep_bounds ms : forall n ch, n <= MAX_MESSAGES -> (ch <= MAX_CHARACTERS)%N ->
  n + length (keep n ch ms) <= MAX_MESSAGES /\ (ch + total (keep n ch ms) <= MAX_CHARACTERS)%N.
Proof.
  induction ms as [|m t IH]; intros n ch Hn Hc; [simpl; lia|]. rewrite keep_cons.
  destruct (Nat.leb_spec MAX_MESSAGES n), (N.leb_spec MAX_CHARACTERS ch); cbn [orb]; try (simpl; lia).
  cbv zeta. cbn [length total foldr content with_content]. fold (total (keep (S n) (ch + jlength (slice_last (MAX_CHARACTERS - ch) (content m))) t)).
  pose proof (slice_last_length (MAX_CHARACTERS - ch) (content m)).
  destruct (IH (S n) (ch + jlength (slice_last (MAX_CHARACTERS - ch) (content m)))%N); lia.
Qed.

(** The kept messages are the first of the list, the last of them possibly cut. *)
Lemma keep_prefix ms : forall n ch,
  exists l rest, ms = l ++ rest /\
    (keep n ch ms = l \/
     exists l' m u c, l = l' ++ [m] /\ content m = u ++ c /\ keep n ch ms = l' ++ [with_content c m]).
Proof.
  induction ms as [|m t IH]; intros n ch; [by exists [], []; split; [|left]|].
  rewrite keep_cons. destruct (_ || _)%bool; [by exists [], (m :: t); split; [|left]|]. cbv zeta.
  set (c := slice_last (MAX_CHARACTERS - ch) (content m)).
  destruct (N.leb_spec (jlength (content m)) (MAX_CHARACTERS - ch)) as [Hle|Hgt].
  - subst c. rewrite slice_last_id, with_content_id by done.
    destruct (IH (S n) (ch + jlength (content m))%N) as (l & rest & -> & H).
    exists (m :: l), rest. split; [done|]. destruct H as [->|(l' & x & u & c & -> & Hx & ->)]; [by left|].
    right. by exists (m :: l'), x, u, c.
  - exists [m], t. split; [done|]. right.
    destruct (slice_last_suffix (MAX_CHARACTERS - ch) (content m)) as [u Hu].
    exists [], m, u, c. split; [done|]. split; [done|].
    assert (Hc : jlength c = (MAX_CHARACTERS - ch)%N) by (subst c; rewrite slice_last_length; lia).
    rewrite Hc. f_equal. destruct t as [|m' t]; [done|]. rewrite keep_cons.
    destruct (N.leb_spec MAX_CHARACTERS (ch + (MAX_CHARACTERS - ch))); [|lia]. by rewrite orb_true_r.
Qed.

Lemma keep_idem ms : forall n ch, keep n ch (keep n ch ms) = keep n ch ms.
Proof.
  induction ms as [|m t IH]; intros n ch; [done|]. rewrite keep_cons.
  destruct (_ || _)%bool eqn:E; [done|]. cbv zeta. rewrite keep_cons, E. cbv zeta.
  cbn [content with_content].
  rewrite (slice_last_id _ (slice_last _ _)) by (rewrite slice_last_length; lia).
  f_equal. apply IH.
Qed.

(** A compacted conversation has at most 40 messages and 60000 characters;
    they are the latest ones, in order, whole but for the oldest kept, of which
    the end is kept; and compacting again changes nothing. *)
Theorem compact_conversation (d : ConversationDraft) :
  let d' := compactConversation d in
  length (d_messages d') <= 40 /\ (total (d_messages d') <= 60000)%N /\
  d_group d' = d_group d /\ d_model d' = d_model d /\
  (exists older l, d_messages d = older ++ l /\
     (d_messages d' = l \/
      exists m l' u c, l = m :: l' /\ content m = u ++ c /\ d_messages d' = with_content c m :: l')) /\
  compactConversation d' = d'.
Proof.
  cbv zeta. unfold compactConversation. cbn [d_group d_messages d_model].
  destruct (keep_bounds (reverse (d_messages d)) 0 0) as [Hl Ht]; [unfold MAX_MESSAGES; lia|unfold MAX_CHARACTERS; lia|].
  rewrite length_reverse, reverse_involutive, keep_idem.
  assert (Hr : forall l, total (reverse l) = total l).
  { induction l as [|m l IH]; [done|]. rewrite reverse_cons, total_app. simpl. lia. }
  rewrite Hr. unfold MAX_MESSAGES, MAX_CHARACTERS in *. do 4 (split; [lia || done|]). split; [|done].
  destruct (keep_prefix (reverse (d_messages d)) 0 0) as (l & rest & El & H).
  exists (reverse rest), (reverse l). split; [by rewrite <-reverse_app, <-El, reverse_involutive|].
  destruct H as [->|(l' & m & u & c & -> & Hc & ->)]; [by left|right].
  exists m, (reverse l'), u, c. by rewrite !reverse_app.
Qed.

(** * Saving and loading *)

Definition message_ok (m : ChatMessage) : Prop := num_is_finite (createdAt m) = true.
Definition conversation_ok (c : ChatConversation) : Prop :=
  num_is_finite (updatedAt c) = true /\ Forall message_ok (messages c).

Lemma read_message m : message_ok m -> isMessage (jv_of_message m) = Some m.
Proof.
  intros H. destruct m as [c t i p r]. unfold message_ok in H. cbn [createdAt] in H.
  unfold isMessage. set (o := jv_of_message _).
  assert (jv_get o (js "role") = JStr (role_str r)) as -> by (by destruct p).
  assert (jv_get o (js "id") = JStr i) as -> by (by destruct p).
  assert (jv_get o (js "content") = JStr c) as -> by (by destruct p).
  assert (jv_get o (js "createdAt") = JNum t) as -> by (by destruct p).
  assert (jv_get o (js "imagePath") = match p with Some p => JStr p | None => JUndef end) as -> by (by destruct p).
  rewrite H. by destruct p, r.
Qed.

Lemma read_messages ms : Forall message_ok ms -> all_messages (List.map jv_of_message ms) = Some ms.
Proof. induction 1 as [|m ms Hm _ IH]; simpl; [done|]. by rewrite read_message, IH. Qed.

Lemma read_conversation c : conversation_ok c -> isConversation (jv_of_conversation c) = Some c.
Proof.
  intros [Ht Hms]. destruct c as [i g ms mo t]. cbn in Ht, Hms. unfold isConversation.
  set (o := jv_of_conversation _).
  assert (jv_get o (js "messages") = JArr (List.map jv_of_message ms)) as -> by done.
  simpl. by rewrite Ht, read_messages.
Qed.

Lemma read_conversations cs : Forall conversation_ok cs -> omap isConversation (List.map jv_of_conversation cs) = cs.
Proof. induction 1 as [|c cs Hc _ IH]; csimpl; [done|]. by rewrite read_conversation, IH. Qed.

Lemma keep_ok ms : forall n ch, Forall message_ok ms -> Forall message_ok (keep n ch ms).
Proof.
  induction ms as [|m t IH]; intros n ch H; [constructor|]. inversion H; subst. rewrite keep_cons.
  destruct (_ || _)%bool; constructor; [done|auto].
Qed.

Lemma compactOne_ok c : conversation_ok c -> conversation_ok (compactOne c).
Proof. intros [Ht Hm]. split; [done|]. apply Forall_reverse, keep_ok, Forall_reverse, Hm. Qed.

Lemma compactOne_idem c : compactOne (compactOne c) = compactOne c.
Proof. unfold compactOne, compactConversation. simpl. by rewrite reverse_involutive, keep_idem. Qed.

(** The store as it is read back: an active conversation that is not there is
    replaced by the first one. *)
Definition reloaded (s : ConversationStore) : ConversationStore :=
  match conversations s with
  | [] => s
  | c :: _ =>
      Store (if existsb (fun x => c_id x =s activeId s) (conversations s) then activeId s else c_id c)
            (List.map compactOne (conversations s))
  end.

Lemma existsb_map_id a cs : existsb (fun x => c_id x =s a) (List.map compactOne cs) =
  existsb (fun x => c_id x =s a) cs.
Proof. induction cs as [|c cs IH]; simpl; [done|]. by rewrite IH. Qed.

Lemma load_stored s : conversations s <> [] -> Forall conversation_ok (conversations s) ->
  loadCurrent (jv_of_store (compactConversationStore s)) = Some (reloaded s).
Proof.
  intros Hne Hok. destruct s as [a cs]. cbn [conversations] in *.
  unfold loadCurrent. set (o := jv_of_store _).
  assert (jv_get o (js "version") = JNum (num_of_Z 2)) as -> by done.
  assert (jv_get o (js "conversations") = JArr (List.map jv_of_conversation (List.map compactOne cs))) as -> by done.
  assert (jv_get o (js "activeId") = JStr a) as -> by done.
  rewrite read_conversations.
  2: { apply Forall_map. eapply Forall_impl; [exact Hok|]. apply compactOne_ok. }
  assert (num_eqb (num_of_Z 2) (num_of_Z 2) = true) as -> by reflexivity.
  destruct cs as [|c cs]; [done|]. cbn [List.map].
  change (compactOne c :: List.map compactOne cs) with (List.map compactOne (c :: cs)).
  rewrite existsb_map_id. unfold reloaded, compactConversationStore. cbn [conversations activeId].
  rewrite map_map. do 2 f_equal. apply map_ext, compactOne_idem.
Qed.

Section StorageProofs.
Context {D : Type} `{TaroLaws D}.

Lemma get_attempt_remove k k' d : k <> k' ->
  getStorageSync k' (attempt (removeStorageSync k) d) = getStorageSync k' d.
Proof.
  intros Hne. unfold attempt. destruct (removeStorageSync k d) as [d'|] eqn:E; [|done].
  by eapply get_remove_other.
Qed.

Lemma storage_keys : LEGACY_KEY <> STORAGE_KEY.
Proof. done. Qed.

(** On any device storage, conversations that were saved are loaded back,
    compacted, with their active conversation. *)
Theorem save_load (s : ConversationStore) (d d' : D) (freshId : jstr) (now : num) :
  conversations s <> [] -> Forall conversation_ok (conversations s) ->
  saveConversationStore s d = (true, d') ->
  loadConversationStore freshId now d' = reloaded s.
Proof.
  intros Hne Hok Hs. unfold saveConversationStore in Hs.
  destruct (setStorageSync _ _ d) as [d1|] eqn:E; [|done]. injection Hs as <-.
  unfold loadConversationStore. rewrite get_attempt_remove by apply storage_keys.
  erewrite get_set by exact E. by rewrite load_stored.
Qed.

Lemma removeImages_get paths k d : getStorageSync k (removeImages paths d) = getStorageSync k d.
Proof.
  unfold removeImages. generalize (uniq (List.filter truthy paths)). intros l. revert d.
  induction l as [|p l IH]; intros d; simpl; [done|]. by rewrite IH, get_remove_file.
Qed.

(** Once the conversations are cleared, as a sign-out does, nothing of them
    is loaded any more: the page starts with an empty conversation. *)
Theorem clear_forgets (d : D) (freshId : jstr) (now : num) :
  (forall k d, removeStorageSync k d <> None) ->
  loadConversationStore freshId now (clearConversation d) =
  Store freshId [Conversation freshId [] [] [] now].
Proof.
  intros Hw. unfold clearConversation. cbv zeta.
  assert (Hr : forall k x, getStorageSync k (attempt (removeStorageSync k) x) = Some (JStr [])).
  { intros k x. unfold attempt. destruct (removeStorageSync k x) as [x'|] eqn:E; [|by destruct (Hw k x)].
    by eapply get_remove. }
  unfold loadConversationStore. rewrite get_attempt_remove, Hr by apply storage_keys.
  cbn [loadCurrent jv_get]. by rewrite Hr.
Qed.
End StorageProofs.

Definition sample_store : ConversationStore :=
  Store (js "gone") [Conversation (js "c1") (js "g") [Message (js "hi") (num_of_Z 5) (js "m1") None UserRole]
                       (js "gpt") (num_of_Z 9)].

Lemma save_load_witness :
  loadConversationStore (js "x") nzero (saveConversationStore sample_store (Dev [] [])).2 = reloaded sample_store.
Proof. apply (save_load sample_store (Dev [] [])); [done|repeat constructor|reflexivity]. Defined.

Lemma clear_forgets_witness :
  loadConversationStore (js "x") nzero (clearConversation (saveConversationStore sample_store (Dev [] [])).2) =
  Store (js "x") [Conversation (js "x") [] [] [] nzero].
Proof. apply (clear_forgets (D := Device)). intros k d. discriminate. Defined.
