(* ===== verification/MiniAuth.v ===== *)
(** The session of the mini app (miniapp/src/auth/session.ts), its requests and
    token rotation (miniapp/src/api/request.ts, miniapp/src/api/url.ts) and its
    login and logout (miniapp/src/auth/client.ts).

    The module state is a record; every function up to an [await], and every
    continuation after one, is a function on it, so that runs interleave them
    freely. Responses of the server are inputs. *)

From Stdlib Require Import NArith ZArith Lia.
From stdpp Require Import base list gmap strings.
From S2P Require Import Prelude JsString JsNum Json Regex MiniChat.

(** * Session *)

(** Fields keep the values they were given: the declared types are checked only
    when a stored session is read. *)
Record MiniAuthSession := Session {
  accessExpiresAt : jv; accessToken : jv; refreshToken : jv; sid : jv; user : jv }.

Definition AUTH_STORAGE_KEY : jstr := js "miniapp:auth:v1".

Definition nonempty_string (v : jv) : bool := match v with JStr s => truthy s | _ => false end.
Definition is_number (v : jv) : bool := match v with JNum _ => true | _ => false end.
Definition is_string (v : jv) : bool := match v with JStr _ => true | _ => false end.

(** [isMiniAuthSession], with the session it lets through. *)
Definition isMiniAuthSession (v : jv) : option MiniAuthSession :=
  let c := Session (jv_get v (js "accessExpiresAt")) (jv_get v (js "accessToken")) (jv_get v (js "refreshToken"))
             (jv_get v (js "sid")) (jv_get v (js "user")) in
  if (nonempty_string (accessToken c) && nonempty_string (refreshToken c) && nonempty_string (sid c) &&
      is_number (accessExpiresAt c) && jv_truthy (user c) && is_number (jv_get (user c) (js "id")) &&
      is_string (jv_get (user c) (js "username")))%bool
  then Some c else None.

Definition jv_of_session (s : MiniAuthSession) : jv :=
  JObj [(js "accessToken", accessToken s); (js "accessExpiresAt", accessExpiresAt s);
        (js "refreshToken", refreshToken s); (js "sid", sid s); (js "user", user s)].

(** The session cache: not read yet ([undefined]), or known. *)
Record State (D : Type) := St {
  cachedSession : option (option MiniAuthSession);
  refreshInFlight : option MiniAuthSession;   (** the session being rotated *)
  device : D
}.
Arguments St {D}. Arguments cachedSession {D}. Arguments refreshInFlight {D}. Arguments device {D}.

Section Ops.
Context {D : Type} `{Taro D}.

Definition getMiniAuthSession (s : State D) : State D * option MiniAuthSession :=
  match cachedSession s with
  | Some c => (s, c)
  | None =>
      let c := match getStorageSync AUTH_STORAGE_KEY (device s) with
               | Some v => isMiniAuthSession v
               | None => None
               end in
      (St (Some c) (refreshInFlight s) (device s), c)
  end.

Definition saveMiniAuthSession (x : MiniAuthSession) (s : State D) : State D :=
  St (Some (Some x)) (refreshInFlight s) (attempt (setStorageSync AUTH_STORAGE_KEY (jv_of_session x)) (device s)).

Definition clearMiniAuthSession (s : State D) : State D :=
  St (Some None) (refreshInFlight s) (attempt (removeStorageSync AUTH_STORAGE_KEY) (device s)).

(** [clearConversation()] of the playground. *)
Definition clearTalk (s : State D) : State D :=
  St (cachedSession s) (refreshInFlight s) (clearConversation (device s)).

(** * Requests *)

Record ApiRequestError := ApiError {
  message : jstr; statusCode : option Z; code : jv; details : jv }.

(** What a promise is rejected with: an [ApiRequestError], or what the network
    threw. *)
Inductive Rejection := Api (e : ApiRequestError) | Thrown.

Record RequestOptions := Options { o_auth : option bool; retryAuth : option bool }.

(** The answer of [Taro.request], or its failure. *)
Inductive Answer := Answered (status : Z) (data : jv) | NetworkFailure.

(** The Authorization header [requestOnce] adds. *)
Definition authHeader (o : RequestOptions) (session : option MiniAuthSession) : option jstr :=
  match o_auth o, session with
  | Some false, _ => None
  | _, Some x => if jv_truthy (accessToken x) then Some (js "Bearer " ++ jv_to_string (accessToken x)) else None
  | _, None => None
  end.

(** [new Error(v || d)] *)
Definition message_or (v : jv) (d : jstr) : jstr := if jv_truthy v then jv_to_string v else d.

(** [requestOnce] after its [await]. *)
Definition readAnswer (a : Answer) : Rejection + jv :=
  match a with
  | NetworkFailure => inl Thrown
  | Answered st v =>
      let err d := inl (Api (ApiError (message_or (jv_get v (js "message")) d) (Some st)
                           (jv_get v (js "code")) (jv_get v (js "data")))) in
      if ((st <? 200) || (300 <=? st))%Z then err (js "Request failed with status " ++ print_Z st)
      else if negb (jv_truthy (jv_get v (js "success"))) then err (js "Request failed")
      else inr (jv_get v (js "data"))
  end.

(** The session of a refresh or login answer; [None] when reading it throws. *)
Definition bundleSession (data : jv) : option MiniAuthSession :=
  match data, jv_get data (js "session") with
  | JUndef, _ | JNull, _ | _, JUndef | _, JNull => None
  | _, ses =>
      Some (Session (jv_get data (js "access_expires_at")) (jv_get data (js "access_token"))
              (jv_get data (js "refresh_token")) (jv_get ses (js "sid")) (jv_get data (js "user")))
  end.

(** [rotateMiniAuthSession] up to its [await]: the caller waits for the rotation
    in flight, of its session or of an earlier one. *)
Definition rotateMiniAuthSession (x : MiniAuthSession) (s : State D) : State D :=
  match refreshInFlight s with
  | Some _ => s
  | None => St (cachedSession s) (Some x) (device s)
  end.

(** The [then], [catch] and [finally] of the rotation: the new session is saved;
    any failure signs out and clears the conversations. *)
Definition rotationSettles (a : Answer) (s : State D) : State D * (Rejection + MiniAuthSession) :=
  let done s := St (cachedSession s) None (device s) in
  let fail r := (done (clearTalk (clearMiniAuthSession s)), inl r) in
  match readAnswer a with
  | inl r => fail r
  | inr data =>
      match bundleSession data with
      | Some x => (done (saveMiniAuthSession x s), inr x)
      | None => fail Thrown
      end
  end.

(** [getAuthorizedMiniSession()]: an error, the session at once, or the rotation
    to wait for. *)
Inductive Authorized := NotSignedIn | Ready (x : MiniAuthSession) | MustRotate (x : MiniAuthSession).

Definition getAuthorizedMiniSession (now : Z) (s : State D) : State D * Authorized :=
  let (s, o) := getMiniAuthSession s in
  match o with
  | Some x =>
      if negb (jv_truthy (refreshToken x)) then (s, NotSignedIn)
      else if num_ltb (num_of_Z (now / 1000 + 30)) (jv_number (accessExpiresAt x)) then (s, Ready x)
      else (rotateMiniAuthSession x s, MustRotate x)
  | None => (s, NotSignedIn)
  end.

(** [apiRequest] as a whole: the session it starts with, and the answers of its
    first request, of the rotation it may wait for and of the second request.
    The headers it sends, one per request, and its result. *)
Definition mayRetry (o : RequestOptions) (session : option MiniAuthSession) (r : Rejection) : bool :=
  match r, session with
  | Api e, Some x =>
      bool_decide (statusCode e = Some 401%Z) && negb (bool_decide (o_auth o = Some false)) &&
      negb (bool_decide (retryAuth o = Some false)) && jv_truthy (refreshToken x)
  | _, _ => false
  end.

Definition apiRequest (o : RequestOptions) (stored : option MiniAuthSession) (first : Answer)
    (rotation : Rejection + MiniAuthSession) (second : Answer) : list (option jstr) * (Rejection + jv) :=
  let session := match o_auth o with Some false => None | _ => stored end in
  let h := authHeader o session in
  match readAnswer first with
  | inr v => ([h], inr v)
  | inl r =>
      if negb (mayRetry o session r) then ([h], inl r)
      else match rotation with
           | inl r' => ([h], inl r')
           | inr next => ([h; authHeader (Options (o_auth o) (Some false)) (Some next)], readAnswer second)
           end
  end.

(** * Login and logout *)

Definition persistAuthBundle (data : jv) (s : State D) : State D * (Rejection + MiniAuthSession) :=
  match bundleSession data with
  | Some x => (saveMiniAuthSession x s, inr x)
  | None => (s, inl Thrown)
  end.

Inductive MiniLoginResult := LoggedIn (session : MiniAuthSession) | BindingRequired (binding : jv).

Definition loginError (m : jstr) (st : Z) (c : jstr) : ApiRequestError := ApiError m (Some st) (JStr c) JUndef.

(** [loginWithWeChatPhone] before its request: the body, or the error. [appId]
    and [loginCode] are what the WeChat runtime gives, if anything. *)
Definition phoneLoginBody (phoneCode : jstr) (appId loginCode : option jstr) : ApiRequestError + list (jstr * jstr) :=
  let authorizationCode := trim phoneCode in
  let app := trim (appId ?? []) in
  let lc := trim (loginCode ?? []) in
  if negb (truthy authorizationCode)
  then inl (loginError (js "Phone authorization code is required") 400 (js "MINI_AUTH_CODE_REQUIRED"))
  else if negb (truthy app)
  then inl (loginError (js "WeChat app identity is unavailable") 400 (js "MINI_AUTH_NOT_CONFIGURED"))
  else if negb (truthy lc)
  then inl (loginError (js "WeChat login code is required") 400 (js "MINI_AUTH_CODE_REQUIRED"))
  else inr [(js "app_id", app); (js "code", lc); (js "phone_code", authorizationCode)].

(** ... and after it. *)
Definition phoneLoginAnswer (data : jv) (s : State D) : State D * (Rejection + MiniLoginResult) :=
  match data with
  | JUndef | JNull => (s, inl Thrown)
  | _ =>
      if jv_truthy (jv_get data (js "binding_required")) then
        if negb (jv_truthy (jv_get (jv_get data (js "matched_account")) (js "username")))
        then (s, inl (Api (loginError (js "No verified platform account matches this phone") 404
                             (js "MINI_AUTH_PHONE_ACCOUNT_NOT_FOUND"))))
        else (s, inr (BindingRequired data))
      else match persistAuthBundle data s with
           | (s', inr x) => (s', inr (LoggedIn x))
           | (s', inl r) => (s', inl r)
           end
  end.

(** The [finally] of [logoutMiniApp], whatever the server answered; without a
    session nothing is done. *)
Definition logoutMiniApp (s : State D) : State D :=
  let (s, o) := getMiniAuthSession s in
  match o with
  | None => s
  | Some _ => clearTalk (clearMiniAuthSession s)
  end.

(** * Runs *)

Inductive Event :=
| ERead                        (** any reader of the session *)
| ELogin (data : jv)
| ERotate                      (** a request that got a 401, or an expiring token *)
| ERotated (a : Answer)
| ELogout.

Definition step (s : State D) (e : Event) : State D :=
  match e with
  | ERead => (getMiniAuthSession s).1
  | ELogin data => (phoneLoginAnswer data s).1
  | ERotate => let (s, o) := getMiniAuthSession s in
               match o with
               | Some x => if jv_truthy (refreshToken x) then rotateMiniAuthSession x s else s
               | None => s
               end
  | ERotated a => match refreshInFlight s with Some _ => (rotationSettles a s).1 | None => s end
  | ELogout => logoutMiniApp s
  end.

Definition steps (s : State D) (es : list Event) : State D := fold_left step es s.

(** A fresh start of the mini app on a device. *)
Definition start (d : D) : State D := St None None d.

Definition current (s : State D) : option MiniAuthSession := (getMiniAuthSession s).2.
End Ops.

(** * URLs *)

(** [value.trim().replace(/\/+$/, '')] *)
Fixpoint drop_slashes (s : jstr) : jstr :=
  match s with
  | [] => []
  | c :: t => if (c =? 47)%N then drop_slashes t else s
  end.

Definition strip_trailing (s : jstr) : jstr := reverse (drop_slashes (reverse s)).

Definition lower_unit (c : N) : N := if in_range 65 90 c then (c + 32)%N else c.

(** [/^https?:\/\//i.test(s)] *)
Definition has_scheme (s : jstr) : bool :=
  let l := List.map lower_unit s in starts_with (js "http://") l || starts_with (js "https://") l.

Inductive UrlError := NotHttp | NotConfigured.

Definition normalizeApiBaseUrl (value : jstr) : UrlError + jstr :=
  let normalized := strip_trailing (trim value) in
  if negb (truthy normalized) then inr []
  else if negb (has_scheme normalized) then inl NotHttp
  else inr normalized.

Definition buildApiUrl (baseUrl path : jstr) : UrlError + jstr :=
  match normalizeApiBaseUrl baseUrl with
  | inl e => inl e
  | inr b => if negb (truthy b) then inl NotConfigured else inr (b ++ js "/" ++ drop_slashes path)
  end.

(** * Requests: what is sent *)

(** An API request is sent once or twice. It is sent again only after a 401
    answer to a request that allows authentication and retry, with a session
    that can be rotated; the second request carries the token of the rotated
    session, and a failed rotation is the result. *)
Theorem api_request_retry o stored first rotation second :
  let session := match o_auth o with Some false => None | _ => stored end in
  let r := apiRequest o stored first rotation second in
  (r.1 = [authHeader o session] /\
     (r.2 = readAnswer first \/ exists e, rotation = inl e /\ r.2 = inl e)) \/
  (exists x next e, stored = Some x /\ o_auth o <> Some false /\ retryAuth o <> Some false /\
     jv_truthy (refreshToken x) = true /\ readAnswer first = inl (Api e) /\ statusCode e = Some 401%Z /\
     rotation = inr next /\ r.1 = [authHeader o session; authHeader o (Some next)] /\
     r.2 = readAnswer second).
Proof.
  cbv zeta. unfold apiRequest. destruct (readAnswer first) as [r|v]; [|by left; split; [|left]].
  destruct (mayRetry _ _ _) eqn:Em; [|by left; split; [|left]]. cbn [negb].
  destruct rotation as [r'|next]; [left; split; [done|]; right; by exists r'|]. right.
  unfold mayRetry in Em. destruct r as [e|]; [|done].
  destruct (match o_auth o with Some false => None | _ => stored end) as [x|] eqn:Es; [|done].
  bool_hyps. exists x, next, e.
  assert (o_auth o <> Some false /\ stored = Some x) as [Ha Hx] by (destruct (o_auth o) as [[]|]; done).
  rewrite Hx in Es |- *. do 7 (split; [done|]). split; [|done]. do 2 f_equal.
Qed.

(** * The session and the device *)

Definition user_ok (v : jv) : bool :=
  (jv_truthy v && is_number (jv_get v (js "id")) && is_string (jv_get v (js "username")))%bool.

(** A session a reader accepts. *)
Definition session_ok (x : MiniAuthSession) : bool :=
  (nonempty_string (accessToken x) && nonempty_string (refreshToken x) && nonempty_string (sid x) &&
   is_number (accessExpiresAt x) && user_ok (user x))%bool.

Lemma read_session x : isMiniAuthSession (jv_of_session x) = if session_ok x then Some x else None.
Proof.
  destruct x as [e a r s u]. unfold isMiniAuthSession, session_ok, user_ok.
  set (o := jv_of_session _). cbn [accessExpiresAt accessToken refreshToken sid user].
  assert (jv_get o (js "accessExpiresAt") = e) as -> by done.
  assert (jv_get o (js "accessToken") = a) as -> by done.
  assert (jv_get o (js "refreshToken") = r) as -> by done.
  assert (jv_get o (js "sid") = s) as -> by done.
  assert (jv_get o (js "user") = u) as -> by done.
  by rewrite !andb_assoc.
Qed.

Section Proofs.
Context {D : Type} `{TaroLaws D}.

(** The session the device holds. *)
Definition storedSession (d : D) : option MiniAuthSession :=
  match getStorageSync AUTH_STORAGE_KEY d with Some v => isMiniAuthSession v | None => None end.

(** Memory and device agree. *)
Definition coherent (s : State D) : Prop :=
  match cachedSession s with Some c => storedSession (device s) = c | None => True end.

Lemma current_start d : current (start d) = storedSession d.
Proof. done. Qed.

Lemma coherent_current s : coherent s -> current s = storedSession (device s).
Proof.
  unfold coherent, current, getMiniAuthSession. destruct (cachedSession s); simpl; [by intros ->|done].
Qed.

Lemma get_spec s : let r := getMiniAuthSession s in
  device r.1 = device s /\ refreshInFlight r.1 = refreshInFlight s /\ cachedSession r.1 = Some r.2 /\
  r.2 = current s.
Proof. cbv zeta. unfold current, getMiniAuthSession. by destruct (cachedSession s) eqn:E. Qed.

Lemma coherent_get s : coherent s -> coherent (getMiniAuthSession s).1.
Proof.
  intros Hc. destruct (get_spec s) as (Hd & _ & Hca & Hcu). unfold coherent.
  by rewrite Hca, Hd, Hcu, coherent_current.
Qed.

(** A device that never throws. *)
Context (Hset : forall k v d, setStorageSync k v d <> None).
Context (Hremove : forall k d, removeStorageSync k d <> None).

Lemma stored_save x d :
  storedSession (attempt (setStorageSync AUTH_STORAGE_KEY (jv_of_session x)) d) =
  if session_ok x then Some x else None.
Proof.
  unfold storedSession, attempt. destruct (setStorageSync _ _ d) as [d'|] eqn:E; [|by destruct (Hset _ _ _ E)].
  erewrite get_set by exact E. apply read_session.
Qed.

Lemma stored_clear d : storedSession (attempt (removeStorageSync AUTH_STORAGE_KEY) d) = None.
Proof.
  unfold storedSession, attempt. destruct (removeStorageSync _ d) as [d'|] eqn:E; [|by destruct (Hremove _ _ E)].
  erewrite get_remove by exact E. reflexivity.
Qed.

Lemma clearImages_get l k d : getStorageSync k (clearImages l d) = getStorageSync k d.
Proof.
  revert d. induction l as [|v l IH]; intros d; simpl; [done|].
  destruct (jv_get v (js "messages")); rewrite ?IH; try done.
  destruct (storedPaths _); [|done]. by rewrite IH, removeImages_get.
Qed.

Lemma stored_talk d : storedSession (clearConversation d) = storedSession d.
Proof.
  unfold storedSession, clearConversation. rewrite !get_attempt_remove by done.
  match goal with |- context [getStorageSync AUTH_STORAGE_KEY ?x] =>
    assert (getStorageSync AUTH_STORAGE_KEY x = getStorageSync AUTH_STORAGE_KEY d) as ->; [|done] end.
  destruct (getStorageSync STORAGE_KEY d) as [v|]; [|done].
  by destruct (jv_get v _); rewrite ?clearImages_get.
Qed.

Lemma coherent_save x s : session_ok x = true -> coherent (saveMiniAuthSession x s).
Proof. intros Hx. unfold coherent. simpl. by rewrite stored_save, Hx. Qed.

Lemma coherent_signed_out s : coherent (clearTalk (clearMiniAuthSession s)).
Proof. unfold coherent. simpl. by rewrite stored_talk, stored_clear. Qed.

(** The answers of the server carry sessions of their declared type. *)
Definition data_ok (data : jv) : Prop :=
  match bundleSession data with Some x => session_ok x = true | None => True end.

Definition event_ok (e : Event) : Prop :=
  match e with
  | ELogin data => data_ok data
  | ERotated a => match readAnswer a with inr data => data_ok data | inl _ => True end
  | _ => True
  end.

Lemma coherent_step s e : event_ok e -> coherent s -> coherent (step s e).
Proof.
  intros He Hc. destruct e as [|data| |a|]; simpl.
  - by apply coherent_get.
  - simpl in He. unfold data_ok in He. unfold phoneLoginAnswer, persistAuthBundle.
    destruct (bundleSession data) as [x|]; [|by repeat (case_match; try done)].
    destruct data; try done; repeat (case_match; try done); simplify_eq/=; by apply coherent_save.
  - pose proof (coherent_get s Hc) as Hg. destruct (getMiniAuthSession s) as [s' [x|]]; [|done]. simpl in Hg.
    destruct (jv_truthy _); [|done]. unfold rotateMiniAuthSession. by destruct (refreshInFlight s').
  - destruct (refreshInFlight s); [|done]. unfold rotationSettles. simpl in He.
    destruct (readAnswer a) as [r|data]; [apply (coherent_signed_out s)|].
    unfold data_ok in He. destruct (bundleSession data) as [x|]; [|apply (coherent_signed_out s)].
    apply (coherent_save x s He).
  - unfold logoutMiniApp. pose proof (coherent_get s Hc) as Hg.
    destruct (getMiniAuthSession s) as [s' [x|]]; [apply coherent_signed_out|done].
Qed.

Lemma coherent_steps es : forall s, Forall event_ok es -> coherent s -> coherent (steps s es).
Proof.
  induction es as [|e es IH]; intros s Hes Hc; [done|]. inversion Hes; subst.
  apply (IH (step s e)); [done|]. by apply coherent_step.
Qed.

(** C39: on a device whose storage works, restarting the mini app after any run
    finds exactly the session the run ended with. *)
Theorem restart_keeps_session d es :
  Forall event_ok es -> let s := steps (start d) es in current (start (device s)) = current s.
Proof.
  intros Hes. cbv zeta. rewrite current_start. symmetry. apply coherent_current.
  by apply coherent_steps.
Qed.

(** After a logout with no rotation in flight the user is signed out, also
    after a restart, and only a login signs in again. *)
Theorem logout_signs_out d es es' :
  Forall event_ok es -> refreshInFlight (steps (start d) es) = None ->
  Forall (fun e => match e with ELogin _ => False | _ => True end) es' ->
  let s := steps (start d) (es ++ ELogout :: es') in
  current s = None /\ storedSession (device s) = None.
Proof.
  intros Hes Hr Hes'. cbv zeta. unfold steps. rewrite fold_left_app. cbn [fold_left].
  pose proof (coherent_steps es (start d) Hes I) as Hc. unfold steps in Hr, Hc.
  set (s0 := fold_left step es (start d)) in *.
  assert (Hout : cachedSession (step s0 ELogout) = Some None /\ refreshInFlight (step s0 ELogout) = None /\
                 storedSession (device (step s0 ELogout)) = None).
  { simpl. unfold logoutMiniApp. pose proof (coherent_get s0 Hc) as Hg.
    destruct (get_spec s0) as (Hd & Hri & Hca & _).
    destruct (getMiniAuthSession s0) as [s1 [x|]]; simpl in *.
    - rewrite stored_talk, stored_clear. by rewrite Hri.
    - unfold coherent in Hg. rewrite Hca in Hg. by rewrite Hri. }
  revert Hout. generalize (step s0 ELogout). induction Hes' as [|e es' He _ IH]; intros s (H1 & H2 & H3).
  { split; [|done]. cbn [fold_left]. unfold current, getMiniAuthSession. by rewrite H1. }
  apply (IH (step s e)). destruct e as [|data| |a|]; try done; simpl;
    unfold logoutMiniApp, getMiniAuthSession; rewrite ?H1, ?H2; done.
Qed.
End Proofs.

Definition sample_data : jv :=
  JObj [(js "access_token", JStr (js "a")); (js "access_expires_at", JNum (num_of_Z 9));
        (js "refresh_token", JStr (js "r")); (js "session", JObj [(js "sid", JStr (js "s"))]);
        (js "user", JObj [(js "id", JNum (num_of_Z 1)); (js "username", JStr (js "ann"))])].

Lemma restart_keeps_session_witness :
  let s := steps (start (Dev [] [])) [ELogin sample_data; ERotate] in current (start (device s)) = current s.
Proof.
  apply (restart_keeps_session (D := Device)); [intros k v d; discriminate|intros k d; discriminate|].
  repeat constructor.
Defined.

Lemma logout_signs_out_witness :
  let s := steps (start (Dev [] [])) ([ELogin sample_data] ++ ELogout :: [ERotate]) in
  current s = None /\ storedSession (device s) = None.
Proof.
  apply (logout_signs_out (D := Device)); try (repeat constructor; fail); intros; discriminate.
Defined.

Definition rotated_answer : Answer :=
  Answered 200 (JObj [(js "success", JBool true); (js "data", sample_data)]).

(** A logout during a rotation does not last: when the rotation succeeds
    afterwards, its session is saved, and the user is signed in again, also
    after a restart. *)
Theorem logout_during_rotation :
  let s := steps (start (Dev [] [])) [ELogin sample_data; ERotate; ELogout] in
  let s' := step s (ERotated rotated_answer) in
  current s = None /\ is_some (current s') = true /\ is_some (current (start (device s'))) = true.
Proof. vm_compute. done. Qed.

(** * URLs *)

Lemma drop_slashes_suffix s : exists u, s = u ++ drop_slashes s /\ Forall (fun c => c = 47%N) u.
Proof.
  induction s as [|c t [u [Hu Hf]]]; simpl; [by exists []|].
  destruct (N.eqb_spec c 47) as [->|]; [|by exists []].
  exists (47%N :: u). split; [by rewrite Hu at 1|by constructor].
Qed.

Lemma drop_slashes_head s : head (drop_slashes s) <> Some 47%N.
Proof.
  induction s as [|c t IH]; simpl; [done|]. destruct (N.eqb_spec c 47); [done|]. simpl. congruence.
Qed.

(** A URL that is built is the base, which has an http scheme, and the path,
    joined by exactly one slash. *)
Theorem build_url_shape baseUrl path u :
  buildApiUrl baseUrl path = inr u ->
  exists b p, u = b ++ js "/" ++ p /\ has_scheme b = true /\ last b <> Some 47%N /\ head p <> Some 47%N /\
    (exists sl, path = sl ++ p /\ Forall (fun c => c = 47%N) sl) /\
    (exists sl, trim baseUrl = b ++ sl /\ Forall (fun c => c = 47%N) sl).
Proof.
  unfold buildApiUrl, normalizeApiBaseUrl. intros H.
  set (b := strip_trailing (trim baseUrl)) in *. destruct (truthy b) eqn:Et; [|done]. cbn [negb] in H.
  destruct (has_scheme b) eqn:Es; [|done]. cbn [negb] in H. rewrite Et in H. injection H as <-.
  exists b, (drop_slashes path). do 2 (split; [done|]). split.
  { subst b. unfold strip_trailing. rewrite last_reverse. apply drop_slashes_head. }
  split; [apply drop_slashes_head|]. split; [apply drop_slashes_suffix|].
  destruct (drop_slashes_suffix (reverse (trim baseUrl))) as (sl & Hsl & Hf).
  exists (reverse sl). split; [|by apply Forall_reverse].
  subst b. unfold strip_trailing. by rewrite <-reverse_app, <-Hsl, reverse_involutive.
Qed.

Lemma build_url_shape_witness :
  exists b p, js "https://api.example.com/v1/models" = b ++ js "/" ++ p /\ has_scheme b = true /\
    last b <> Some 47%N /\ head p <> Some 47%N /\
    (exists sl, js "//v1/models" = sl ++ p /\ Forall (fun c => c = 47%N) sl) /\
    (exists sl, trim (js " https://api.example.com// ") = b ++ sl /\ Forall (fun c => c = 47%N) sl).
Proof. apply build_url_shape. vm_compute. reflexivity. Defined.
