(* ===== verification/Flow.v ===== *)
(** The flow chart of the dashboard (web/src/features/dashboard/lib/flow.ts,
    flow-selection.ts and the flow types of web/src/features/dashboard/types.ts):
    usage rows become paths over the visible stages, paths are limited to the
    top nodes, and their metrics are added up on nodes and links.

    Metrics and identifiers are numbers, read from whatever the rows hold, and are
    added as numbers; the theorems about sums are for rows whose metrics are
    integers of the safe range ([safe_rows]), where adding is exact. The order of [localeCompare], the chart palette of the
    library and number formatting are Section variables. Styles of the chart
    specification are not modelled. *)

From Stdlib Require Import NArith ZArith Lia SpecFloat.
From stdpp Require Import base list gmap strings.
From S2P Require Import Prelude JsString JsNum JsExact Json.

(** * Data *)

Record FlowQuotaDataItem := Row {
  user_id : jv; username : option jstr; node_name : option jstr; use_group : option jstr;
  token_id : jv; token_name : option jstr; channel_id : jv; channel_name : option jstr;
  model_name : option jstr; token_used : jv; count : jv; quota : jv }.

Inductive FlowMetric := MQuota | MTokens | MRequests.
Inductive FlowOverflowMode := Aggregate | Hide.
Inductive FlowRole := RoleUser | RoleAdmin | RoleRoot.
Inductive FlowNodeKind := KUser | KNode | KToken | KGroup | KModel | KChannel.

#[export] Instance kind_eq_dec : EqDecision FlowNodeKind.
Proof. solve_decision. Defined.

Record FlowNodeFilter := NodeFilter { fk_kind : FlowNodeKind; fk_id : jstr }.
Record FlowLinkSelection := LinkSel { ls_source : jstr; ls_target : jstr }.

Record FlowMetrics := Metrics { m_quota : num; m_tokens : num; m_requests : num }.
Record FlowPathNode := PNode { p_id : jstr; p_label : jstr; p_kind : FlowNodeKind }.
Record PreparedFlowPath := Prepared { pp_path : list FlowPathNode; pp_metrics : FlowMetrics }.
Record FlowNodeRank := Rank { rk_node : FlowPathNode; rk_value : num }.

Record DashboardFlowNode := FNode {
  n_id : jstr; n_label : jstr; n_kind : FlowNodeKind; n_value : num; n_requests : num; n_quota : num; n_tokens : num;
  n_color : jstr; n_colorKey : jstr; n_highlighted : option bool; n_dimmed : option bool }.

Record DashboardFlowLink := FLink {
  l_source : jstr; l_target : jstr; l_value : num; l_requests : num; l_quota : num; l_tokens : num;
  l_sourceLabel : jstr; l_targetLabel : jstr; l_color : jstr; l_linkColor : jstr; l_linkAlpha : num;
  l_hoverColor : jstr; l_colorKey : jstr; l_share : num;
  l_highlighted : option bool; l_dimmed : option bool }.

Record DashboardFlowGraph := Graph { g_nodes : list DashboardFlowNode; g_links : list DashboardFlowLink }.

Record FlowSummary := Summary { s_quota : num; s_tokens : num; s_requests : num }.

Record FlowBuildOptions := BuildOptions {
  o_role : option FlowRole; o_selectedUsers : option (list jstr); o_selectedNodes : option (list FlowNodeFilter);
  o_activeNode : option FlowNodeFilter; o_activeLink : option FlowLinkSelection;
  o_colorPalette : option (list jstr); o_visibleStages : option (list FlowNodeKind);
  o_topNodeLimit : option num; o_overflowMode : option FlowOverflowMode; o_maskSensitive : bool;
  o_deletedTokenLabel : option (num -> jstr); o_otherNodeLabel : option (FlowNodeKind -> jstr) }.

Record FlowUserFilterOption := UserOption {
  uo_value : jstr; uo_label : jstr; uo_valueLabel : jstr; uo_valueRaw : num; uo_color : jstr }.
Record FlowNodeFilterOption := NodeOption {
  no_kind : FlowNodeKind; no_value : jstr; no_label : jstr; no_valueLabel : jstr; no_valueRaw : num; no_color : jstr }.
Record FlowFilterOptions := FilterOptions { users : list FlowUserFilterOption; nodes : list FlowNodeFilterOption }.

Record ProcessedFlowData := Processed {
  summary : FlowSummary; flow : DashboardFlowGraph; filterOptions : FlowFilterOptions }.

Record FlowHighlightSets := HighlightSets { h_nodes : list jstr; h_links : list jstr }.

Definition DEFAULT_FLOW_ROLE : FlowRole := RoleUser.
Definition DEFAULT_FLOW_OVERFLOW_MODE : FlowOverflowMode := Aggregate.
Definition DEFAULT_FLOW_CHART_COLOR : jstr := js "#1664FF".

Definition FLOW_NODE_KINDS : list FlowNodeKind := [KUser; KNode; KToken; KGroup; KModel; KChannel].

Definition kind_str (k : FlowNodeKind) : jstr :=
  match k with
  | KUser => js "user" | KNode => js "node" | KToken => js "token"
  | KGroup => js "group" | KModel => js "model" | KChannel => js "channel"
  end.

Definition OTHER_FLOW_NODE_IDS (k : FlowNodeKind) : jstr :=
  match k with
  | KUser => js "user:__other__" | KNode => js "node:__other__" | KToken => js "token:__other__"
  | KGroup => js "group:__other__" | KModel => js "model:__other__" | KChannel => js "channel:__other__"
  end.

Definition DEFAULT_OTHER_FLOW_NODE_LABELS (k : FlowNodeKind) : jstr :=
  match k with
  | KUser => js "Other users" | KNode => js "Other nodes" | KToken => js "Other tokens"
  | KGroup => js "Other groups" | KModel => js "Other models" | KChannel => js "Other channels"
  end.

Definition SENSITIVE_FLOW_KINDS : list FlowNodeKind := [KUser; KNode; KToken; KGroup; KChannel].
Definition OTHER_FLOW_NODE_ID_SET : list jstr := List.map OTHER_FLOW_NODE_IDS FLOW_NODE_KINDS.

(** * Rows and paths *)

Definition numberValue (value : jv) : num :=
  let n := jv_number value in if num_is_finite n then n else nzero.

(** [isFlowNodeKind], with the kind it lets through. *)
Definition isFlowNodeKind (v : jv) : option FlowNodeKind :=
  match v with
  | JStr s => List.find (fun k => kind_str k =s s) FLOW_NODE_KINDS
  | _ => None
  end.

Definition rowMetrics (row : FlowQuotaDataItem) : FlowMetrics :=
  Metrics (numberValue (quota row)) (numberValue (token_used row)) (numberValue (count row)).

Definition metricValue (m : FlowMetrics) (metric : FlowMetric) : num :=
  match metric with MRequests => m_requests m | MTokens => m_tokens m | MQuota => m_quota m end.

(** [s || d] of an optional string. *)
Definition or_text (o : option jstr) (d : jstr) : jstr := or_str (o ?? []) d.

Definition userNode (row : FlowQuotaDataItem) : FlowPathNode :=
  let userID := numberValue (user_id row) in
  PNode (if num_ltb nzero userID then js "user:" ++ num_to_string userID else js "user:" ++ or_text (username row) (js "unknown"))
        (or_text (username row) (if num_ltb nzero userID then js "user-" ++ num_to_string userID else js "Unknown User"))
        KUser.

Definition nodeNameNode (row : FlowQuotaDataItem) : FlowPathNode :=
  let nodeName := or_text (node_name row) (js "default-node") in
  PNode (js "node:" ++ nodeName) nodeName KNode.

Definition deletedTokenLabel (tokenID : num) (ctx : option (num -> jstr)) : jstr :=
  if num_leb tokenID nzero then js "Unknown Token"
  else match ctx with Some f => f tokenID | None => js "token-" ++ num_to_string tokenID end.

Definition tokenNode (row : FlowQuotaDataItem) (ctx : option (num -> jstr)) : FlowPathNode :=
  let tokenID := numberValue (token_id row) in
  PNode (if num_ltb nzero tokenID then js "token:" ++ num_to_string tokenID
         else js "token:" ++ or_text (token_name row) (js "unknown"))
        (or_text (token_name row) (deletedTokenLabel tokenID ctx)) KToken.

Definition groupNode (row : FlowQuotaDataItem) : FlowPathNode :=
  let useGroup := or_text (use_group row) (js "unknown") in
  PNode (js "group:" ++ useGroup) useGroup KGroup.

Definition modelNode (row : FlowQuotaDataItem) : FlowPathNode :=
  PNode (js "model:" ++ or_text (model_name row) (js "unknown")) (or_text (model_name row) (js "Unknown Model")) KModel.

Definition channelNode (row : FlowQuotaDataItem) : FlowPathNode :=
  let channelID := numberValue (channel_id row) in
  PNode (if num_ltb nzero channelID then js "channel:" ++ num_to_string channelID
         else js "channel:" ++ or_text (channel_name row) (js "unknown"))
        (or_text (channel_name row) (if num_ltb nzero channelID then js "channel-" ++ num_to_string channelID else js "Unknown"))
        KChannel.

Definition NODE_BUILDERS (k : FlowNodeKind) (row : FlowQuotaDataItem) (ctx : option (num -> jstr)) : FlowPathNode :=
  match k with
  | KUser => userNode row | KNode => nodeNameNode row | KToken => tokenNode row ctx
  | KGroup => groupNode row | KModel => modelNode row | KChannel => channelNode row
  end.

Definition ROLE_FLOW_STAGES (r : FlowRole) : list FlowNodeKind :=
  match r with
  | RoleRoot => [KUser; KNode; KToken; KGroup; KModel; KChannel]
  | RoleAdmin => [KUser; KGroup; KModel; KChannel]
  | RoleUser => [KToken; KGroup; KModel]
  end.

Definition MIN_FLOW_STAGES : nat := 2.

Definition getFlowStages (role : FlowRole) : list FlowNodeKind := ROLE_FLOW_STAGES role.

Definition resolveVisibleStages (role : FlowRole) (visibleStages : option (list FlowNodeKind)) : list FlowNodeKind :=
  let stages := getFlowStages role in
  match visibleStages with
  | None => stages
  | Some visible =>
      let filtered := List.filter (fun stage => bool_decide (stage ∈ visible)) stages in
      if Nat.leb MIN_FLOW_STAGES (length filtered) then filtered else stages
  end.

Definition flowPathForStages (row : FlowQuotaDataItem) (stages : list FlowNodeKind) (ctx : option (num -> jstr))
    : list FlowPathNode :=
  List.map (fun stage => NODE_BUILDERS stage row ctx) stages.

(** ** Filters *)

Definition filterRows (rows : list FlowQuotaDataItem) (selectedUsers : option (list jstr)) : list FlowQuotaDataItem :=
  match selectedUsers ?? [] with
  | [] => rows
  | sel => List.filter (fun row => bool_decide (p_id (userNode row) ∈ sel)) rows
  end.

Definition nodeFilterKey (f : FlowNodeFilter) : jstr := kind_str (fk_kind f) ++ [0%N] ++ fk_id f.

(** A map from kinds to sets of identifiers. *)
Definition normalizeSelectedNodeFilters (selectedNodes : option (list FlowNodeFilter)) (stages : list FlowNodeKind)
    : list (FlowNodeKind * list jstr) :=
  fold_left (fun filters f =>
      if negb (bool_decide (fk_kind f ∈ stages)) then filters
      else map_set (fk_kind f) (uniq ((map_get (fk_kind f) filters ?? []) ++ [fk_id f])) filters)
    (selectedNodes ?? []) [].

Definition pathIds (path : list FlowPathNode) (k : FlowNodeKind) : list jstr :=
  List.map p_id (List.filter (fun n => bool_decide (p_kind n = k)) path).

Definition pathMatchesNodeFilters (path : list FlowPathNode) (filters : list (FlowNodeKind * list jstr)) : bool :=
  forallb (fun f => existsb (fun i => bool_decide (i ∈ pathIds path f.1)) f.2) filters.

Definition filterRowsByNodes (rows : list FlowQuotaDataItem) (selectedNodes : option (list FlowNodeFilter))
    (stages : list FlowNodeKind) (ctx : option (num -> jstr)) : list FlowQuotaDataItem :=
  match normalizeSelectedNodeFilters selectedNodes stages with
  | [] => rows
  | filters => List.filter (fun row => pathMatchesNodeFilters (flowPathForStages row stages ctx) filters) rows
  end.

Definition selectedNodeFiltersExceptKind (selectedNodes : option (list FlowNodeFilter)) (k : FlowNodeKind)
    : option (list FlowNodeFilter) :=
  match List.filter (fun f => negb (bool_decide (fk_kind f = k))) (selectedNodes ?? []) with
  | [] => None
  | l => Some l
  end.

(** * The graph *)

(** [a - b] as a comparison, by its sign: what is not a number counts as equal. *)
Definition diff_cmp (a b : num) : Z :=
  match num_sub a b with
  | S754_zero _ | S754_nan => 0
  | S754_infinity s | S754_finite s _ _ => if s then -1 else 1
  end.

(** [a || b] of two comparisons. *)
Definition or_cmp (a b : Z) : Z := if (a =? 0)%Z then b else a.

(** ** Nodes and links by key *)

Definition addNode (metric : FlowMetric) (m : list (jstr * DashboardFlowNode))
    (a : FlowPathNode * FlowMetrics * jstr * jstr) : list (jstr * DashboardFlowNode) :=
  let '(node, metrics, color, colorKey) := a in
  let previous := map_get (p_id node) m ??
    FNode (p_id node) (p_label node) (p_kind node) nzero nzero nzero nzero color colorKey None None in
  map_set (p_id node)
    (FNode (n_id previous) (n_label previous) (n_kind previous) (num_add (n_value previous) (metricValue metrics metric))
       (num_add (n_requests previous) (m_requests metrics)) (num_add (n_quota previous) (m_quota metrics))
       (num_add (n_tokens previous) (m_tokens metrics)) (n_color previous) (n_colorKey previous)
       (n_highlighted previous) (n_dimmed previous)) m.

Definition pathLinkKey (source target : FlowPathNode) : jstr := p_id source ++ [0%N] ++ p_id target.
Definition linkStableKey (l : DashboardFlowLink) : jstr := l_source l ++ [0%N] ++ l_target l.

Definition addLink (metric : FlowMetric) (m : list (jstr * DashboardFlowLink))
    (a : FlowPathNode * FlowPathNode * FlowMetrics * jstr * jstr) : list (jstr * DashboardFlowLink) :=
  let '(source, target, metrics, color, colorKey) := a in
  let key := pathLinkKey source target in
  let previous := map_get key m ??
    FLink (p_id source) (p_id target) nzero nzero nzero nzero (p_label source) (p_label target) color color (num_of_Z 1) color
      colorKey nzero None None in
  map_set key
    (FLink (l_source previous) (l_target previous) (num_add (l_value previous) (metricValue metrics metric))
       (num_add (l_requests previous) (m_requests metrics)) (num_add (l_quota previous) (m_quota metrics))
       (num_add (l_tokens previous) (m_tokens metrics)) (l_sourceLabel previous) (l_targetLabel previous)
       (l_color previous) (l_linkColor previous) (l_linkAlpha previous) (l_hoverColor previous)
       (l_colorKey previous) (l_share previous) (l_highlighted previous) (l_dimmed previous)) m.

Definition buildSummary (rows : list FlowQuotaDataItem) : FlowSummary :=
  fold_left (fun s row =>
      let m := rowMetrics row in
      Summary (num_add (s_quota s) (m_quota m)) (num_add (s_tokens s) (m_tokens m)) (num_add (s_requests s) (m_requests m)))
    rows (Summary nzero nzero nzero).

Definition normalizeTopNodeLimit (limit : option num) : option nat :=
  match limit with
  | None => None
  | Some x => match num_floor x with
              | Some z => if (0 <? z)%Z then Some (Z.to_nat z) else None
              | None => None
              end
  end.

Definition otherFlowNode (k : FlowNodeKind) (labeler : option (FlowNodeKind -> jstr)) : FlowPathNode :=
  PNode (OTHER_FLOW_NODE_IDS k)
    (match labeler with Some f => f k | None => DEFAULT_OTHER_FLOW_NODE_LABELS k end) k.

(** Top nodes, a set of identifiers for each stage. *)
Definition TopSets : Type := list (FlowNodeKind * list jstr).

Definition isTopFlowNode (node : FlowPathNode) (topNodeSets : option TopSets) : bool :=
  match topNodeSets with
  | None => true
  | Some sets => match map_get (p_kind node) sets with
                 | None => true
                 | Some ids => bool_decide (p_id node ∈ ids)
                 end
  end.

Definition applyTopNodeLimit (path : list FlowPathNode) (topNodeSets : option TopSets) (mode : FlowOverflowMode)
    (labeler : option (FlowNodeKind -> jstr)) : option (list FlowPathNode) :=
  match topNodeSets with
  | None => Some path
  | Some _ =>
      if negb (existsb (fun n => negb (isTopFlowNode n topNodeSets)) path) then Some path
      else match mode with
           | Hide => None
           | Aggregate =>
               Some (List.map (fun n => if isTopFlowNode n topNodeSets then n else otherFlowNode (p_kind n) labeler) path)
           end
  end.

(** ** Highlighting *)

Definition pathContainsFlowNode (path : list FlowPathNode) (f : FlowNodeFilter) : bool :=
  existsb (fun n => bool_decide (p_kind n = fk_kind f) && (p_id n =s fk_id f)) path.

(** The consecutive pairs of a path. *)
Fixpoint pairs (path : list FlowPathNode) : list (FlowPathNode * FlowPathNode) :=
  match path with
  | a :: ((b :: _) as t) => (a, b) :: pairs t
  | _ => []
  end.

Definition pathContainsFlowLink (path : list FlowPathNode) (l : FlowLinkSelection) : bool :=
  existsb (fun e => (p_id e.1 =s ls_source l) && (p_id e.2 =s ls_target l)) (pairs path).

Definition matchesPath (activeNode : option FlowNodeFilter) (activeLink : option FlowLinkSelection)
    (path : list FlowPathNode) : bool :=
  match activeLink with
  | Some l => pathContainsFlowLink path l
  | None => match activeNode with Some n => pathContainsFlowNode path n | None => false end
  end.

Definition buildFlowHighlightSets (preparedPaths : list PreparedFlowPath) (activeNode : option FlowNodeFilter)
    (activeLink : option FlowLinkSelection) (stages : list FlowNodeKind) : option FlowHighlightSets :=
  let nodeActive := match activeNode with Some n => bool_decide (fk_kind n ∈ stages) | None => false end in
  if (negb nodeActive && negb (is_some activeLink))%bool then None
  else
    let matching := List.filter (fun p => matchesPath activeNode activeLink (pp_path p)) preparedPaths in
    match List.concat (List.map (fun p => List.map p_id (pp_path p)) matching) with
    | [] => None
    | ids => Some (HighlightSets (uniq ids)
               (uniq (List.concat (List.map (fun p => List.map (fun e => pathLinkKey e.1 e.2) (pairs (pp_path p))) matching))))
    end.

(** ** Masking *)

Definition FLOW_MASK_TEXT : jstr := [8226; 8226; 8226; 8226]%N.

Definition maskFlowLabel (label : jstr) : jstr := match label with [] => label | _ => FLOW_MASK_TEXT end.

Definition isMasked (n : DashboardFlowNode) : bool :=
  (bool_decide (n_kind n ∈ SENSITIVE_FLOW_KINDS) && negb (bool_decide (n_id n ∈ OTHER_FLOW_NODE_ID_SET)))%bool.

Definition relabel (n : DashboardFlowNode) (l : jstr) : DashboardFlowNode :=
  FNode (n_id n) l (n_kind n) (n_value n) (n_requests n) (n_quota n) (n_tokens n) (n_color n) (n_colorKey n)
    (n_highlighted n) (n_dimmed n).

Definition relabel_link (l : DashboardFlowLink) (s t : jstr) : DashboardFlowLink :=
  FLink (l_source l) (l_target l) (l_value l) (l_requests l) (l_quota l) (l_tokens l) s t (l_color l)
    (l_linkColor l) (l_linkAlpha l) (l_hoverColor l) (l_colorKey l) (l_share l) (l_highlighted l) (l_dimmed l).

Definition maskFlowGraphLabels (ns : list DashboardFlowNode) (ls : list DashboardFlowLink)
    : list DashboardFlowNode * list DashboardFlowLink :=
  let maskedById := List.map (fun n => (n_id n, maskFlowLabel (n_label n))) (List.filter isMasked ns) in
  (List.map (fun n => if isMasked n then relabel n (maskFlowLabel (n_label n)) else n) ns,
   List.map (fun l => relabel_link l (map_get (l_source l) maskedById ?? l_sourceLabel l)
                        (map_get (l_target l) maskedById ?? l_targetLabel l)) ls).

Definition applyFlowHighlights (ns : list DashboardFlowNode) (ls : list DashboardFlowLink)
    (sets : option FlowHighlightSets) : list DashboardFlowNode * list DashboardFlowLink :=
  match sets with
  | None => (ns, ls)
  | Some h =>
      (List.map (fun n =>
         let b := bool_decide (n_id n ∈ h_nodes h) in
         FNode (n_id n) (n_label n) (n_kind n) (n_value n) (n_requests n) (n_quota n) (n_tokens n) (n_color n)
           (n_colorKey n) (Some b) (Some (negb b))) ns,
       List.map (fun l =>
         let b := bool_decide (linkStableKey l ∈ h_links h) in
         FLink (l_source l) (l_target l) (l_value l) (l_requests l) (l_quota l) (l_tokens l) (l_sourceLabel l)
           (l_targetLabel l) (l_color l) (l_linkColor l) (l_linkAlpha l) (l_hoverColor l) (l_colorKey l) (l_share l)
           (Some b) (Some (negb b))) ls)
  end.

Section Graph.
(** [a.localeCompare(b)] by its sign, [getDashboardChartColors(n)] and
    [formatNumber(v)]. *)
Context (localeCompare : jstr -> jstr -> Z) (getDashboardChartColors : nat -> list jstr) (formatNumber : num -> jstr).

(** ** Colors *)

Definition paletteOr (n : nat) (palette : option (list jstr)) : list jstr :=
  match palette with
  | Some (c :: cs) => c :: cs
  | _ => getDashboardChartColors n
  end.

Definition colorAt (index : nat) (palette : option (list jstr)) : jstr :=
  let colors := paletteOr (index + 1) palette in
  match colors with
  | [] => DEFAULT_FLOW_CHART_COLOR
  | _ => colors !! (index mod length colors) ?? DEFAULT_FLOW_CHART_COLOR
  end.

Definition colorPalette (colorCount : nat) (palette : option (list jstr)) : list jstr :=
  match paletteOr colorCount palette with
  | [] => [DEFAULT_FLOW_CHART_COLOR]
  | cs => cs
  end.

Definition is_hex_color (s : jstr) : bool := Nat.eqb (length s) 6 && forallb (fun c => is_some (hex_val c)) s.
Definition hex_number (s : jstr) : Z := fold_left (fun a c => a * 16 + Z.of_N (hex_val c ?? 0%N))%Z s 0%Z.

(** The color and the alpha left to apply; [toFixed2] is [alpha.toFixed(2)]. *)
Definition alphaColor (toFixed2 : num -> jstr) (color : jstr) (alpha : num) : jstr * num :=
  let normalized := trim color in
  let hex := match strip_prefix (js "#") normalized with Some h => h | None => normalized end in
  if negb (is_hex_color hex) then (normalized, alpha)
  else
    let value := hex_number hex in
    let red := Z.land (Z.shiftr value 16) 255 in
    let green := Z.land (Z.shiftr value 8) 255 in
    let blue := Z.land value 255 in
    (js "rgba(" ++ print_Z red ++ js ", " ++ print_Z green ++ js ", " ++ print_Z blue ++ js ", " ++
       toFixed2 alpha ++ js ")", num_of_Z 1).

Definition stableColorMap (keys : list jstr) (palette : option (list jstr)) : list (jstr * jstr) :=
  let uniqueKeys := uniq keys in
  let colors := colorPalette (length uniqueKeys) palette in
  imap (fun index key => (key, colorAt index (Some colors))) uniqueKeys.

(** ** Top nodes *)

Definition rank_cmp (a b : FlowNodeRank) : Z :=
  or_cmp (diff_cmp (rk_value b) (rk_value a)) (or_cmp (localeCompare (p_label (rk_node a)) (p_label (rk_node b)))
    (localeCompare (p_id (rk_node a)) (p_id (rk_node b)))).

Definition addRank (metric : FlowMetric) (totals : list (jstr * FlowNodeRank)) (a : FlowPathNode * FlowMetrics)
    : list (jstr * FlowNodeRank) :=
  let c := map_get (p_id a.1) totals ?? Rank a.1 nzero in
  map_set (p_id a.1) (Rank (rk_node c) (num_add (rk_value c) (metricValue a.2 metric))) totals.

(** The totals of one stage: the nodes of its kind on every path. *)
Definition stageTotals (rows : list FlowQuotaDataItem) (metric : FlowMetric) (stages : list FlowNodeKind)
    (ctx : option (num -> jstr)) (stage : FlowNodeKind) : list (jstr * FlowNodeRank) :=
  fold_left (addRank metric)
    (List.concat (List.map (fun row =>
       List.map (fun n => (n, rowMetrics row))
         (List.filter (fun n => bool_decide (p_kind n = stage)) (flowPathForStages row stages ctx))) rows)) [].

Definition buildTopNodeSets (rows : list FlowQuotaDataItem) (metric : FlowMetric) (stages : list FlowNodeKind)
    (limit : option nat) (ctx : option (num -> jstr)) : option TopSets :=
  match limit with
  | None => None
  | Some n =>
      Some (List.map (fun stage =>
        (stage, uniq (List.map (fun r => p_id (rk_node r))
                  (take n (sort_by rank_cmp (stageTotals rows metric stages ctx stage).*2))))) stages)
  end.

(** ** Display colors and order *)

Definition link_cmp (a b : DashboardFlowLink) : Z :=
  or_cmp (diff_cmp (l_value b) (l_value a)) (localeCompare (linkStableKey a) (linkStableKey b)).

Fixpoint index_in (k : jstr) (ls : list DashboardFlowLink) : nat :=
  match ls with
  | [] => 0
  | l :: t => if linkStableKey l =s k then 0 else S (index_in k t)
  end.

(** The alpha of a link from its rank among the links of its source; links are
    told apart by their key, of which there is one link. *)
Definition linkAlphaOf (ls : list DashboardFlowLink) (l : DashboardFlowLink) : num :=
  let sortedLinks := sort_by link_cmp (List.filter (fun x => l_source x =s l_source l) ls) in
  let denominator := Nat.max (length sortedLinks - 1) 1 in
  if Nat.eqb (length sortedLinks) 1 then num_of_dec false 34 (-2)
  else num_add (num_of_dec false 24 (-2))
         (num_mul (num_div (num_of_Z (Z.of_nat (index_in (linkStableKey l) sortedLinks)))
                     (num_of_Z (Z.of_nat denominator))) (num_of_dec false 2 (-1))).

Definition recolor (toFixed2 : num -> jstr) (ls : list DashboardFlowLink) (l : DashboardFlowLink) : DashboardFlowLink :=
  let d := alphaColor toFixed2 (l_color l) (linkAlphaOf ls l) in
  FLink (l_source l) (l_target l) (l_value l) (l_requests l) (l_quota l) (l_tokens l) (l_sourceLabel l)
    (l_targetLabel l) (l_color l) d.1 d.2 (l_color l) (l_colorKey l) (l_share l) (l_highlighted l) (l_dimmed l).

Definition assignLinkDisplayColors (toFixed2 : num -> jstr) (ls : list DashboardFlowLink) : list DashboardFlowLink :=
  List.map (recolor toFixed2 ls) ls.

Definition byValueThenLabel (a b : DashboardFlowNode) : Z :=
  or_cmp (diff_cmp (n_value b) (n_value a)) (localeCompare (n_label a) (n_label b)).

Definition by_endpoints (a b : DashboardFlowLink) : Z :=
  or_cmp (localeCompare (l_source a) (l_source b)) (localeCompare (l_target a) (l_target b)).

(** [Number(a) - Number(b)] of optional flags: not a number, so falsy, when one
    is undefined. *)
Definition flag_cmp (a b : option bool) : Z :=
  match a, b with Some a, Some b => Z.b2z a - Z.b2z b | _, _ => 0 end.

Definition byLinkDrawPriority (a b : DashboardFlowLink) : Z :=
  or_cmp (flag_cmp (l_dimmed a) (l_dimmed b)) (or_cmp (flag_cmp (l_highlighted b) (l_highlighted a)) (link_cmp a b)).

(** ** The graph of the rows *)

Record FlowGraphOptions := GraphOptions {
  go_topNodeLimit : option num; go_overflowMode : option FlowOverflowMode;
  go_otherNodeLabel : option (FlowNodeKind -> jstr); go_activeNode : option FlowNodeFilter;
  go_activeLink : option FlowLinkSelection; go_maskSensitive : bool }.

Definition preparePaths (rows : list FlowQuotaDataItem) (stages : list FlowNodeKind) (ctx : option (num -> jstr))
    (topNodeSets : option TopSets) (mode : FlowOverflowMode) (labeler : option (FlowNodeKind -> jstr))
    : list PreparedFlowPath :=
  omap (fun row =>
    match applyTopNodeLimit (flowPathForStages row stages ctx) topNodeSets mode labeler with
    | Some path => Some (Prepared path (rowMetrics row))
    | None => None
    end) rows.

Definition rootIds (ps : list PreparedFlowPath) : list jstr :=
  List.filter truthy (omap (fun p => p_id <$> head (pp_path p)) ps).

Definition rootColor (colors : list (jstr * jstr)) (palette : option (list jstr)) (root : FlowPathNode) : jstr :=
  map_get (p_id root) colors ?? colorAt 0 palette.

(** What the loop over the paths adds to the maps, in order. *)
Definition nodeAdds (colors : list (jstr * jstr)) (palette : option (list jstr)) (p : PreparedFlowPath)
    : list (FlowPathNode * FlowMetrics * jstr * jstr) :=
  match head (pp_path p) with
  | None => []
  | Some root => List.map (fun n => (n, pp_metrics p, rootColor colors palette root, p_id root)) (pp_path p)
  end.

Definition linkAdds (colors : list (jstr * jstr)) (palette : option (list jstr)) (p : PreparedFlowPath)
    : list (FlowPathNode * FlowPathNode * FlowMetrics * jstr * jstr) :=
  match head (pp_path p) with
  | None => []
  | Some root => List.map (fun e => (e.1, e.2, pp_metrics p, rootColor colors palette root, p_id root)) (pairs (pp_path p))
  end.

Definition set_share (total : num) (l : DashboardFlowLink) : DashboardFlowLink :=
  FLink (l_source l) (l_target l) (l_value l) (l_requests l) (l_quota l) (l_tokens l) (l_sourceLabel l)
    (l_targetLabel l) (l_color l) (l_linkColor l) (l_linkAlpha l) (l_hoverColor l) (l_colorKey l)
    (if num_ltb nzero total then num_div (l_value l) total else nzero)
    (l_highlighted l) (l_dimmed l).

Definition sum_values (ls : list DashboardFlowLink) : num := fold_left (fun sum link => num_add sum (l_value link)) ls nzero.

Definition buildFlowGraph (toFixed2 : num -> jstr) (rows : list FlowQuotaDataItem) (metric : FlowMetric)
    (role : FlowRole) (palette : option (list jstr)) (visibleStages : option (list FlowNodeKind))
    (ctx : option (num -> jstr)) (options : FlowGraphOptions) : DashboardFlowGraph :=
  let stages := resolveVisibleStages role visibleStages in
  let topNodeSets := buildTopNodeSets rows metric stages (normalizeTopNodeLimit (go_topNodeLimit options)) ctx in
  let overflowMode := go_overflowMode options ?? DEFAULT_FLOW_OVERFLOW_MODE in
  let preparedPaths := preparePaths rows stages ctx topNodeSets overflowMode (go_otherNodeLabel options) in
  let colors := stableColorMap (sort_by localeCompare (rootIds preparedPaths)) palette in
  let nodes := fold_left (addNode metric) (List.concat (List.map (nodeAdds colors palette) preparedPaths)) [] in
  let links := fold_left (addLink metric) (List.concat (List.map (linkAdds colors palette) preparedPaths)) [] in
  let masked := if go_maskSensitive options then maskFlowGraphLabels nodes.*2 links.*2 else (nodes.*2, links.*2) in
  let shown := applyFlowHighlights masked.1 masked.2
    (buildFlowHighlightSets preparedPaths (go_activeNode options) (go_activeLink options) stages) in
  let flowLinks := sort_by by_endpoints shown.2 in
  let firstStepSources := rootIds preparedPaths in
  let total := sum_values (List.filter (fun l => bool_decide (l_source l ∈ firstStepSources)) flowLinks) in
  let flowLinks := List.map (set_share total) flowLinks in
  Graph (sort_by byValueThenLabel shown.1) (assignLinkDisplayColors toFixed2 flowLinks).

(** ** Filter options *)

Record UserTotal := UserTot { ut_label : jstr; ut_value : num; ut_color : jstr }.

(** [!row.user_id && !row.username] *)
Definition anonymous (row : FlowQuotaDataItem) : bool :=
  negb (jv_truthy (user_id row)) && negb (truthy (username row ?? [])).

Definition addUser (metric : FlowMetric) (colors : list (jstr * jstr)) (palette : option (list jstr))
    (m : list (jstr * UserTotal)) (row : FlowQuotaDataItem) : list (jstr * UserTotal) :=
  let user := userNode row in
  if anonymous row then m
  else
    let c := map_get (p_id user) m ??
               UserTot (p_label user) nzero (map_get (p_id user) colors ?? colorAt 0 palette) in
    map_set (p_id user) (UserTot (ut_label c) (num_add (ut_value c) (metricValue (rowMetrics row) metric)) (ut_color c)) m.

Definition user_option_cmp (a b : FlowUserFilterOption) : Z :=
  or_cmp (diff_cmp (uo_valueRaw b) (uo_valueRaw a)) (localeCompare (uo_label a) (uo_label b)).

Definition buildUserFilterOptions (rows : list FlowQuotaDataItem) (metric : FlowMetric) (palette : option (list jstr))
    : list FlowUserFilterOption :=
  let colors := stableColorMap (sort_by localeCompare (List.map (fun row => p_id (userNode row)) rows)) palette in
  sort_by user_option_cmp
    (List.map (fun e => UserOption e.1 (ut_label e.2) (formatNumber (ut_value e.2)) (ut_value e.2) (ut_color e.2))
      (fold_left (addUser metric colors palette) rows [])).

Fixpoint stage_index (k : FlowNodeKind) (stages : list FlowNodeKind) : Z :=
  match stages with
  | [] => 0
  | s :: t => if bool_decide (s = k) then 0 else 1 + stage_index k t
  end.

Definition node_option_cmp (stages : list FlowNodeKind) (a b : FlowNodeFilterOption) : Z :=
  or_cmp (stage_index (no_kind a) stages - stage_index (no_kind b) stages)
    (or_cmp (diff_cmp (no_valueRaw b) (no_valueRaw a))
      (or_cmp (localeCompare (no_label a) (no_label b)) (localeCompare (no_value a) (no_value b)))).

Definition addOption (metric : FlowMetric) (totals : list (jstr * FlowNodeRank)) (a : FlowPathNode * FlowMetrics)
    : list (jstr * FlowNodeRank) :=
  let key := nodeFilterKey (NodeFilter (p_kind a.1) (p_id a.1)) in
  let c := map_get key totals ?? Rank a.1 nzero in
  map_set key (Rank (rk_node c) (num_add (rk_value c) (metricValue a.2 metric))) totals.

Definition stageOptions (rows : list FlowQuotaDataItem) (metric : FlowMetric) (stages : list FlowNodeKind)
    (palette : option (list jstr)) (ctx : option (num -> jstr)) (selectedNodes : option (list FlowNodeFilter))
    (colors : list (jstr * jstr)) (stage : FlowNodeKind) : list FlowNodeFilterOption :=
  let candidateRows := filterRowsByNodes rows (selectedNodeFiltersExceptKind selectedNodes stage) stages ctx in
  let totals := fold_left (addOption metric)
    (List.map (fun row => (NODE_BUILDERS stage row ctx, rowMetrics row)) candidateRows) [] in
  List.map (fun e => let r := e.2 in
    NodeOption (p_kind (rk_node r)) (p_id (rk_node r)) (p_label (rk_node r)) (formatNumber (rk_value r)) (rk_value r)
      (map_get (p_id (rk_node r)) colors ?? colorAt 0 palette)) totals.

Definition buildNodeFilterOptions (rows : list FlowQuotaDataItem) (metric : FlowMetric) (role : FlowRole)
    (visibleStages : option (list FlowNodeKind)) (palette : option (list jstr)) (ctx : option (num -> jstr))
    (selectedNodes : option (list FlowNodeFilter)) : list FlowNodeFilterOption :=
  let stages := resolveVisibleStages role visibleStages in
  let colorIds := uniq (List.concat (List.map (fun row => List.map p_id (flowPathForStages row stages ctx)) rows)) in
  let colors := stableColorMap (sort_by localeCompare colorIds) palette in
  sort_by (node_option_cmp stages)
    (List.concat (List.map (stageOptions rows metric stages palette ctx selectedNodes colors) stages)).

Definition buildFlowFilterOptions (rows : list FlowQuotaDataItem) (metric : FlowMetric) (palette : option (list jstr))
    (role : FlowRole) (visibleStages : option (list FlowNodeKind)) (selectedNodes : option (list FlowNodeFilter))
    : FlowFilterOptions :=
  FilterOptions (buildUserFilterOptions rows metric palette)
    (buildNodeFilterOptions rows metric role visibleStages palette None selectedNodes).

Definition buildDashboardFlowData (toFixed2 : num -> jstr) (rows : list FlowQuotaDataItem) (metric : FlowMetric)
    (options : FlowBuildOptions) : ProcessedFlowData :=
  let role := o_role options ?? DEFAULT_FLOW_ROLE in
  let palette := o_colorPalette options in
  let ctx := o_deletedTokenLabel options in
  let stages := resolveVisibleStages role (o_visibleStages options) in
  let userFilteredRows := filterRows rows (o_selectedUsers options) in
  let filteredRows := filterRowsByNodes userFilteredRows (o_selectedNodes options) stages ctx in
  Processed (buildSummary filteredRows)
    (buildFlowGraph toFixed2 filteredRows metric role palette (o_visibleStages options) ctx
       (GraphOptions (o_topNodeLimit options) (o_overflowMode options) (o_otherNodeLabel options)
          (o_activeNode options) (o_activeLink options) (o_maskSensitive options)))
    (FilterOptions (buildUserFilterOptions rows metric palette)
       (buildNodeFilterOptions userFilteredRows metric role (o_visibleStages options) palette ctx
          (o_selectedNodes options))).

(** ** The data of the chart *)

Record SankeyLink := SLink { sl_link : DashboardFlowLink; sl_key : jstr; sl_zIndex : Z }.

(** The links drawn, in order, with their depth. *)
Definition sankeyLinks (g : DashboardFlowGraph) : list SankeyLink :=
  imap (fun index link =>
    SLink link (linkStableKey link)
      (match l_highlighted link, l_dimmed link with
       | Some true, _ => 1000000 + Z.of_nat index
       | _, Some true => Z.of_nat index
       | _, _ => 100000 + Z.of_nat index
       end)%Z)
    (sort_by byLinkDrawPriority (List.filter (fun l => num_ltb nzero (l_value l)) (g_links g))).
End Graph.

(** * Selections from the chart and on the page *)

Definition recordValue (v : jv) : option jv := if jv_truthy v && is_object v then Some v else None.

(** [Number(depth)] as an index, of a datum whose depth is a number. *)
Definition depth_index (v : jv) : nat :=
  match v with JNum x => match num_to_Z x with Some z => Z.to_nat z | None => 0 end | _ => 0 end.

Definition sankeyDatumSource (datum : jv) : jv :=
  match jv_get datum (js "datum") with
  | JArr nested =>
      match recordValue (nested !! depth_index (jv_get datum (js "depth")) ?? JUndef) with
      | Some v => v
      | None => recordValue (head nested ?? JUndef) ?? datum
      end
  | v => recordValue v ?? datum
  end.

Definition sankeyDatumValue (datum : jv) (key : jstr) : jv :=
  match jv_get datum key with
  | JUndef => jv_get (sankeyDatumSource datum) key
  | v => v
  end.

Definition sankeyDatumFlag (datum : jv) (key : jstr) : bool :=
  match sankeyDatumValue datum key with JBool true => true | _ => false end.

Definition flowSankeyDatumValue (datum : jv) (key : jstr) : jv :=
  match recordValue datum with Some r => sankeyDatumValue r key | None => JUndef end.

Definition is_undefined (v : jv) : bool := match v with JUndef => true | _ => false end.

Definition isSankeyLinkDatum (datum : jv) : bool :=
  negb (is_undefined (sankeyDatumValue datum (js "source"))) && negb (is_undefined (sankeyDatumValue datum (js "target"))).

Definition flowNodeFilterFromSankeyDatum (datum : jv) : option FlowNodeFilter :=
  match recordValue datum with
  | None => None
  | Some r =>
      if isSankeyLinkDatum r then None
      else match flowSankeyDatumValue r (js "key"), isFlowNodeKind (flowSankeyDatumValue r (js "kind")) with
           | JStr i, Some k => Some (NodeFilter k i)
           | JNum x, Some k => Some (NodeFilter k (num_to_string x))
           | _, _ => None
           end
  end.

Inductive FlowDisplayState := Loading | Failed | Empty | Chart.

(** The rows of a successful answer, or the message thrown. *)
Definition requireSuccessfulFlowRows (success : bool) (data : option (list FlowQuotaDataItem)) (message : option jstr)
    (fallbackMessage : jstr) : jstr + list FlowQuotaDataItem :=
  if negb success then inl (or_text message fallbackMessage) else inr (data ?? []).

Definition flowDisplayState (isLoading isError : bool) (linkCount : nat) (themeReady : bool) : FlowDisplayState :=
  if isLoading then Loading
  else if isError then Failed
  else if Nat.eqb linkCount 0 then Empty
  else if negb themeReady then Loading
  else Chart.

Definition compactFlowSelectionLabel (count : Z) : jstr := if (0 <? count)%Z then print_Z count else js "*".

Definition visibleFlowUsers (users : list FlowUserFilterOption) (selectedUsers : list jstr) : list FlowUserFilterOption :=
  match selectedUsers with
  | [] => users
  | _ => List.filter (fun u => bool_decide (uo_value u ∈ selectedUsers)) users
  end.

(** * Identifiers and kinds *)

(** The kind an identifier belongs to, by its prefix. *)
Definition kindOf (i : jstr) : option FlowNodeKind :=
  List.find (fun k => starts_with (kind_str k ++ js ":") i) FLOW_NODE_KINDS.

Definition node_ok (n : FlowPathNode) : Prop := kindOf (p_id n) = Some (p_kind n).

Lemma kindOf_prefix k s : kindOf (kind_str k ++ js ":" ++ s) = Some k.
Proof. by destruct k. Qed.

Lemma builder_id k row ctx : exists s, p_id (NODE_BUILDERS k row ctx) = kind_str k ++ js ":" ++ s.
Proof.
  destruct k; unfold NODE_BUILDERS, userNode, tokenNode, channelNode; cbv zeta;
    cbn [p_id nodeNameNode groupNode modelNode]; try (destruct (num_ltb _ _)); eexists; reflexivity.
Qed.

Lemma builder_kind k row ctx : p_kind (NODE_BUILDERS k row ctx) = k.
Proof. by destruct k. Qed.

Lemma builder_ok k row ctx : node_ok (NODE_BUILDERS k row ctx).
Proof.
  unfold node_ok. destruct (builder_id k row ctx) as [s ->]. by rewrite builder_kind, kindOf_prefix.
Qed.

Lemma other_ok k lab : node_ok (otherFlowNode k lab).
Proof. by destruct k. Qed.

Lemma builder_id_ctx k row ctx ctx' : p_id (NODE_BUILDERS k row ctx) = p_id (NODE_BUILDERS k row ctx').
Proof. by destruct k. Qed.

(** ** Prepared paths *)

(** A path over the stages, each node of its stage and with an identifier of its
    kind. *)
Definition path_ok (stages : list FlowNodeKind) (p : list FlowPathNode) : Prop :=
  List.map p_kind p = stages /\ Forall node_ok p.

Lemma flowPath_ok row stages ctx : path_ok stages (flowPathForStages row stages ctx).
Proof.
  split; unfold flowPathForStages.
  - rewrite map_map. rewrite <-(map_id stages) at 2. apply map_ext. intros k. apply builder_kind.
  - apply Forall_map, Forall_true. intros k. apply builder_ok.
Qed.

Lemma applyTop_ok stages path sets mode lab p :
  path_ok stages path -> applyTopNodeLimit path sets mode lab = Some p -> path_ok stages p.
Proof.
  intros [Hk Hok] H. unfold applyTopNodeLimit in H.
  destruct sets as [s|]; [|by simplify_eq]. destruct (negb _); [by simplify_eq|].
  destruct mode; [|done]. injection H as <-. split.
  - rewrite map_map, <-Hk. apply map_ext. intros n. cbv beta. match goal with |- context [if ?b then n else _] => by destruct b end.
  - apply Forall_map. eapply Forall_impl; [exact Hok|]. intros n Hn. simpl.
    match goal with |- context [if ?b then n else _] => destruct b end; [done|apply other_ok].
Qed.

Lemma prepare_ok rows stages ctx sets mode lab :
  Forall (fun p => path_ok stages (pp_path p)) (preparePaths rows stages ctx sets mode lab).
Proof.
  unfold preparePaths. induction rows as [|row rows IH]; csimpl; [constructor|].
  destruct (applyTopNodeLimit _ _ _ _) as [p|] eqn:E; [|done]. constructor; [|done].
  eapply applyTop_ok; [apply flowPath_ok|exact E].
Qed.

(** * Sums over the graph *)

(** The fields of nodes and links that carry the flow. *)
Definition node_shape (n : DashboardFlowNode) : jstr * FlowNodeKind * num := (n_id n, n_kind n, n_value n).
Definition link_shape (l : DashboardFlowLink) : jstr * jstr * num := (l_source l, l_target l, l_value l).

Definition nodeAdd : Type := FlowPathNode * FlowMetrics * jstr * jstr.
Definition na_node (a : nodeAdd) : FlowPathNode := a.1.1.1.
Definition na_metrics (a : nodeAdd) : FlowMetrics := a.1.1.2.

Definition node_init (a : nodeAdd) : DashboardFlowNode :=
  FNode (p_id (na_node a)) (p_label (na_node a)) (p_kind (na_node a)) nzero nzero nzero nzero a.1.2 a.2 None None.
Definition node_upd (metric : FlowMetric) (a : nodeAdd) (v : DashboardFlowNode) : DashboardFlowNode :=
  FNode (n_id v) (n_label v) (n_kind v) (num_add (n_value v) (metricValue (na_metrics a) metric))
    (num_add (n_requests v) (m_requests (na_metrics a))) (num_add (n_quota v) (m_quota (na_metrics a)))
    (num_add (n_tokens v) (m_tokens (na_metrics a))) (n_color v) (n_colorKey v) (n_highlighted v) (n_dimmed v).

Lemma nodes_acc metric l :
  fold_left (addNode metric) l [] = acc (fun a => p_id (na_node a)) node_init (node_upd metric) l.
Proof.
  unfold acc. generalize (@nil (jstr * DashboardFlowNode)). induction l as [|[[[n me] c] ck] l IH]; intros m; [done|].
  cbn [fold_left]. by rewrite IH.
Qed.

Definition linkAdd : Type := FlowPathNode * FlowPathNode * FlowMetrics * jstr * jstr.
Definition la_source (a : linkAdd) : FlowPathNode := a.1.1.1.1.
Definition la_target (a : linkAdd) : FlowPathNode := a.1.1.1.2.
Definition la_metrics (a : linkAdd) : FlowMetrics := a.1.1.2.

Definition link_init (a : linkAdd) : DashboardFlowLink :=
  FLink (p_id (la_source a)) (p_id (la_target a)) nzero nzero nzero nzero (p_label (la_source a)) (p_label (la_target a))
    a.1.2 a.1.2 (num_of_Z 1) a.1.2 a.2 nzero None None.
Definition link_upd (metric : FlowMetric) (a : linkAdd) (v : DashboardFlowLink) : DashboardFlowLink :=
  FLink (l_source v) (l_target v) (num_add (l_value v) (metricValue (la_metrics a) metric))
    (num_add (l_requests v) (m_requests (la_metrics a))) (num_add (l_quota v) (m_quota (la_metrics a)))
    (num_add (l_tokens v) (m_tokens (la_metrics a))) (l_sourceLabel v) (l_targetLabel v) (l_color v) (l_linkColor v)
    (l_linkAlpha v) (l_hoverColor v) (l_colorKey v) (l_share v) (l_highlighted v) (l_dimmed v).

Lemma links_acc metric l :
  fold_left (addLink metric) l [] = acc (fun a => pathLinkKey (la_source a) (la_target a)) link_init (link_upd metric) l.
Proof.
  unfold acc. generalize (@nil (jstr * DashboardFlowLink)).
  induction l as [|[[[[n1 n2] me] c] ck] l IH]; intros m; [done|].
  cbn [fold_left]. by rewrite IH.
Qed.

(** The entries of the node map: the key is the identifier, the kind is the one
    of the identifier. *)
Definition node_entry (k : jstr) (v : DashboardFlowNode) : Prop := n_id v = k /\ kindOf k = Some (n_kind v).
Definition link_entry (k : jstr) (v : DashboardFlowLink) : Prop := l_source v ++ [0%N] ++ l_target v = k.

Definition adds_ok (l : list nodeAdd) : Prop := Forall (fun a => node_ok (na_node a)) l.

Lemma node_entries metric l : adds_ok l ->
  let m := fold_left (addNode metric) l [] in
  Forall (fun e => node_entry e.1 e.2) m /\ NoDup m.*1 /\
  (forall i, i ∈ m.*1 <-> i ∈ List.map (fun a => p_id (na_node a)) l).
Proof.
  intros Hl. cbv zeta. rewrite nodes_acc. unfold adds_ok in Hl. rewrite Forall_forall in Hl. apply acc_inv.
  - intros a Ha. split; [done|]. by apply Hl.
  - intros a v _ [H1 H2]. by split.
Qed.

Lemma link_entries metric l :
  let m := fold_left (addLink metric) l [] in
  Forall (fun e => link_entry e.1 e.2) m /\ NoDup m.*1 /\
  (forall i, i ∈ m.*1 <-> i ∈ List.map (fun a => pathLinkKey (la_source a) (la_target a)) l).
Proof. cbv zeta. rewrite links_acc. apply acc_inv; done. Qed.

(** The integers of a metric. *)
Definition zmetric (metric : FlowMetric) (m : FlowMetrics) : Z := zval (metricValue m metric).

Definition exact_metric (metric : FlowMetric) (m : FlowMetrics) : Prop := safe_integer (metricValue m metric).

(** Adding integers that together stay in the safe range: every value of the
    nodes is an integer, they stay in the range, and a weight of them that depends
    on the identifier alone adds up. *)
Lemma nodes_sum metric l (p : jstr -> bool) : adds_ok l ->
  Forall (fun a => exact_metric metric (na_metrics a)) l ->
  (sumZ (fun a => Z.abs (zmetric metric (na_metrics a))) l < 2 ^ 53)%Z ->
  let ns := (fold_left (addNode metric) l []).*2 in
  Forall (fun n => safe_integer (n_value n)) ns /\
  (sumZ (fun n => Z.abs (zval (n_value n))) ns <= sumZ (fun a => Z.abs (zmetric metric (na_metrics a))) l)%Z /\
  sumZ (fun n => if p (n_id n) then zval (n_value n) else 0)%Z ns =
  sumZ (fun a => if p (p_id (na_node a)) then zmetric metric (na_metrics a) else 0)%Z l.
Proof.
  intros Hl Hex Hb. cbv zeta. rewrite nodes_acc. rewrite Forall_forall in Hex.
  destruct (acc_sum_bounded (fun a => p_id (na_node a)) node_init (node_upd metric)
    (fun k v => n_id v = k /\ safe_integer (n_value v)) (fun n => Z.abs (zval (n_value n)))
    (fun n => if p (n_id n) then zval (n_value n) else 0)%Z (fun a => Z.abs (zmetric metric (na_metrics a)))
    (fun a => if p (p_id (na_node a)) then zmetric metric (na_metrics a) else 0)%Z (2 ^ 53 - 1) l) as (H1 & H2 & H3).
  - intros. lia.
  - intros. lia.
  - intros a _. cbn [node_init n_value n_id]. change (zval nzero) with 0%Z.
    split; [split; [done|apply exact_zero]|]. split; [done|]. by destruct (p _).
  - intros a v Ha [Hk Hv] Hsz. destruct (exact_add (n_value v) (metricValue (na_metrics a) metric)) as [He Ez];
      [done|by apply Hex|unfold zmetric in Hsz; lia|].
    cbn [node_upd n_value n_id]. rewrite Ez, Hk. fold (zmetric metric (na_metrics a)).
    split; [done|]. split; [lia|]. destruct (p _); lia.
  - lia.
  - split; [|split].
    + apply Forall_map. eapply Forall_impl; [exact H1|]. by intros e [_ He].
    + change (@fmap list _ _ _ ?f ?m) with (List.map f m). rewrite sumZ_map. exact H2.
    + change (@fmap list _ _ _ ?f ?m) with (List.map f m). rewrite sumZ_map. exact H3.
Qed.

(** ** Links *)

(** An identifier without the separator of the link keys. *)
Definition clean (i : jstr) : Prop := 0%N ∉ i.

Lemma key_split s1 t1 s2 t2 : clean s1 -> clean s2 -> s1 ++ [0%N] ++ t1 = s2 ++ [0%N] ++ t2 -> s1 = s2 /\ t1 = t2.
Proof.
  unfold clean. revert s2. induction s1 as [|c s1 IH]; intros [|d s2] H1 H2 E; simpl in E; simplify_eq; try set_solver.
  apply not_elem_of_cons in H1 as [_ H1]. apply not_elem_of_cons in H2 as [_ H2].
  destruct (IH s2 H1 H2) as [-> ->]; [done|done].
Qed.

Definition link_at (p : jstr -> jstr -> bool) (l : DashboardFlowLink) : Z :=
  if p (l_source l) (l_target l) then zval (l_value l) else 0%Z.

Lemma links_sum metric l (p : jstr -> jstr -> bool) :
  Forall (fun a => clean (p_id (la_source a))) l ->
  Forall (fun a => exact_metric metric (la_metrics a)) l ->
  (sumZ (fun a => Z.abs (zmetric metric (la_metrics a))) l < 2 ^ 53)%Z ->
  let ls := (fold_left (addLink metric) l []).*2 in
  Forall (fun x => safe_integer (l_value x)) ls /\
  (sumZ (fun x => Z.abs (zval (l_value x))) ls <= sumZ (fun a => Z.abs (zmetric metric (la_metrics a))) l)%Z /\
  sumZ (link_at p) ls =
  sumZ (fun a => if p (p_id (la_source a)) (p_id (la_target a)) then zmetric metric (la_metrics a) else 0)%Z l.
Proof.
  intros Hl Hex Hb. cbv zeta. rewrite links_acc. rewrite Forall_forall in Hex, Hl.
  destruct (acc_sum_bounded (fun a => pathLinkKey (la_source a) (la_target a)) link_init (link_upd metric)
    (fun k v => (clean (l_source v) /\ l_source v ++ [0%N] ++ l_target v = k) /\ safe_integer (l_value v))
    (fun x => Z.abs (zval (l_value x))) (link_at p) (fun a => Z.abs (zmetric metric (la_metrics a)))
    (fun a => if p (p_id (la_source a)) (p_id (la_target a)) then zmetric metric (la_metrics a) else 0)%Z
    (2 ^ 53 - 1) l) as (H1 & H2 & H3).
  - intros. lia.
  - intros. lia.
  - intros a Ha. unfold link_at. cbn [link_init l_value l_source l_target]. change (zval nzero) with 0%Z.
    split; [split; [split; [by apply Hl|done]|apply exact_zero]|]. split; [done|]. by destruct (p _ _).
  - intros a v Ha [[Hc Hk] Hv] Hsz. destruct (exact_add (l_value v) (metricValue (la_metrics a) metric)) as [He Ez];
      [done|by apply Hex|unfold zmetric in Hsz; lia|].
    unfold link_at. cbn [link_upd l_value l_source l_target]. rewrite Ez. fold (zmetric metric (la_metrics a)).
    split; [done|]. split; [lia|]. apply key_split in Hk as [-> ->]; [|done|by apply Hl]. destruct (p _ _); lia.
  - lia.
  - split; [|split].
    + apply Forall_map. eapply Forall_impl; [exact H1|]. by intros e [_ He].
    + change (@fmap list _ _ _ ?f ?m) with (List.map f m). rewrite sumZ_map. exact H2.
    + change (@fmap list _ _ _ ?f ?m) with (List.map f m). rewrite sumZ_map. exact H3.
Qed.

Lemma pairs_targets (path : list FlowPathNode) (w : FlowPathNode -> Z) :
  sumZ (fun e => w e.2) (pairs path) = sumZ w (tail path).
Proof.
  induction path as [|a [|b t] IH]; [done..|]. change (pairs (a :: b :: t)) with ((a, b) :: pairs (b :: t)).
  rewrite sumZ_cons, IH. done.
Qed.

Lemma pairs_sources (path : list FlowPathNode) (w : FlowPathNode -> Z) :
  sumZ (fun e => w e.1) (pairs path) = (sumZ w path - match last path with Some n => w n | None => 0 end)%Z.
Proof.
  induction path as [|a [|b t] IH]; [done|simpl; lia|].
  change (pairs (a :: b :: t)) with ((a, b) :: pairs (b :: t)).
  rewrite sumZ_cons, IH, last_cons_cons, !sumZ_cons. cbn [fst]. lia.
Qed.

Lemma pairs_in path e : e ∈ pairs path -> e.1 ∈ path /\ e.2 ∈ path.
Proof.
  induction path as [|a [|b t] IH]; [intros H; by apply elem_of_nil in H..|].
  change (pairs (a :: b :: t)) with ((a, b) :: pairs (b :: t)).
  rewrite elem_of_cons. intros [->|H]; [set_solver|]. destruct (IH H). set_solver.
Qed.

Section GraphProofs.
Context (colors : list (jstr * jstr)) (palette : option (list jstr)) (chartColors : nat -> list jstr).

Notation nodeAdds' := (nodeAdds chartColors colors palette).
Notation linkAdds' := (linkAdds chartColors colors palette).

(** What a path adds to the nodes and links, by identifiers. *)
Lemma nodeAdds_sum (g : FlowMetrics -> Z) p (w : jstr -> bool) :
  sumZ (fun a => if w (p_id (na_node a)) then g (na_metrics a) else 0)%Z (nodeAdds' p) =
  sumZ (fun n => if w (p_id n) then g (pp_metrics p) else 0)%Z (pp_path p).
Proof. unfold nodeAdds. destruct (pp_path p) as [|n t] eqn:E; [done|]. cbn [head]. by rewrite sumZ_map. Qed.

Lemma linkAdds_sum (g : FlowMetrics -> Z) p (w : jstr -> jstr -> bool) :
  sumZ (fun a => if w (p_id (la_source a)) (p_id (la_target a)) then g (la_metrics a) else 0)%Z (linkAdds' p) =
  sumZ (fun e => if w (p_id e.1) (p_id e.2) then g (pp_metrics p) else 0)%Z (pairs (pp_path p)).
Proof. unfold linkAdds. destruct (pp_path p) as [|n t] eqn:E; [done|]. cbn [head]. by rewrite sumZ_map. Qed.

Context (metric : FlowMetric) (stages : list FlowNodeKind) (ps : list PreparedFlowPath).
Context (Hps : Forall (fun p => path_ok stages (pp_path p)) ps).

Definition the_nodes : list DashboardFlowNode :=
  (fold_left (addNode metric) (List.concat (List.map nodeAdds' ps)) []).*2.
Definition the_links : list DashboardFlowLink :=
  (fold_left (addLink metric) (List.concat (List.map linkAdds' ps)) []).*2.

Lemma all_adds_ok : adds_ok (List.concat (List.map nodeAdds' ps)).
Proof.
  unfold adds_ok. rewrite Forall_concat, Forall_map. eapply Forall_impl; [exact Hps|].
  intros p [_ Hok]. unfold nodeAdds. destruct (pp_path p) as [|n t] eqn:E; [constructor|]. cbn [head].
  apply Forall_map. eapply Forall_impl; [exact Hok|]. done.
Qed.

Lemma the_nodes_ids : List.map n_id the_nodes = (fold_left (addNode metric) (List.concat (List.map nodeAdds' ps)) []).*1.
Proof.
  unfold the_nodes. destruct (node_entries metric _ all_adds_ok) as (HF & _ & _).
  induction HF as [|[k v] m [Hk _] _ IH]; csimpl; [done|]. simpl in Hk. by rewrite Hk, IH.
Qed.

Lemma the_nodes_nodup : NoDup (List.map n_id the_nodes).
Proof. rewrite the_nodes_ids. by destruct (node_entries metric _ all_adds_ok) as (_ & H & _). Qed.

Lemma the_nodes_kind n : n ∈ the_nodes -> kindOf (n_id n) = Some (n_kind n).
Proof.
  intros Hn. destruct (node_entries metric _ all_adds_ok) as (HF & _ & _).
  apply list_elem_of_fmap in Hn as ([k v] & -> & Hin). rewrite Forall_forall in HF.
  destruct (HF _ Hin) as [H1 H2]. simpl in *. by rewrite H1.
Qed.

(** The identifiers of the nodes are those of the paths. *)
Lemma the_nodes_in_paths i : i ∈ List.map n_id the_nodes <->
  exists p x, p ∈ ps /\ x ∈ pp_path p /\ p_id x = i.
Proof.
  rewrite the_nodes_ids. destruct (node_entries metric _ all_adds_ok) as (_ & _ & ->).
  rewrite list_elem_of_In, in_map_iff. split.
  - intros (a & <- & Ha). apply in_concat in Ha as (l & Hl & Ha). apply in_map_iff in Hl as (p & <- & Hp).
    unfold nodeAdds in Ha. destruct (pp_path p) as [|n t] eqn:E; [done|]. cbn [head] in Ha.
    apply in_map_iff in Ha as (x & <- & Hx). exists p, x. rewrite E, !list_elem_of_In. done.
  - intros (p & x & Hp & Hx & <-). destruct (pp_path p) as [|n t] eqn:E; [set_solver|].
    exists (x, pp_metrics p, rootColor chartColors colors palette n, p_id n). split; [done|].
    apply in_concat. exists (nodeAdds' p). split; [apply in_map, list_elem_of_In, Hp|].
    unfold nodeAdds. rewrite E. cbn [head]. apply in_map_iff. exists x. split; [done|]. by apply list_elem_of_In.
Qed.

(** ** The safe range

    The metrics of the paths are integers; every path adds its metric to at most
    six nodes and five links. *)

Context (Hst : length stages <= 6).
Context (Hex : Forall (fun p => exact_metric metric (pp_metrics p)) ps).
Context (Hb : (sumZ (fun p => Z.abs (zmetric metric (pp_metrics p))) ps <= 2 ^ 50)%Z).

Lemma sumZ_const_le {A} (l : list A) (v : Z) : (0 <= v)%Z -> length l <= 6 -> (sumZ (fun _ => v) l <= 6 * v)%Z.
Proof.
  intros Hv Hl. assert (E : sumZ (fun _ => v) l = (Z.of_nat (length l) * v)%Z); [|rewrite E; nia].
  clear Hl. induction l as [|a l IH]; simpl; lia.
Qed.

Lemma pairs_length (path : list FlowPathNode) : length (pairs path) <= length path.
Proof. induction path as [|a [|b t] IH]; simpl in *; lia. Qed.

Lemma flow_path_length p : p ∈ ps -> length (pp_path p) <= 6.
Proof.
  intros Hp. destruct (proj1 (Forall_forall _ _) Hps p Hp) as [Hk _].
  rewrite <-(length_map p_kind), Hk. done.
Qed.

Lemma node_adds_bound :
  (sumZ (fun a => Z.abs (zmetric metric (na_metrics a))) (List.concat (List.map nodeAdds' ps)) < 2 ^ 53)%Z.
Proof.
  rewrite sumZ_concat, sumZ_map.
  assert (H : (sumZ (fun p => sumZ (fun a => Z.abs (zmetric metric (na_metrics a))) (nodeAdds' p)) ps <=
               sumZ (fun p => 6 * Z.abs (zmetric metric (pp_metrics p))) ps)%Z).
  { apply sumZ_le. intros p Hp. pose proof (nodeAdds_sum (fun m => Z.abs (zmetric metric m)) p (fun _ => true)) as E.
    cbv beta iota in E. rewrite E. apply sumZ_const_le; [lia|by apply flow_path_length]. }
  rewrite sumZ_scale in H. lia.
Qed.

Lemma link_adds_bound :
  (sumZ (fun a => Z.abs (zmetric metric (la_metrics a))) (List.concat (List.map linkAdds' ps)) < 2 ^ 53)%Z.
Proof.
  rewrite sumZ_concat, sumZ_map.
  assert (H : (sumZ (fun p => sumZ (fun a => Z.abs (zmetric metric (la_metrics a))) (linkAdds' p)) ps <=
               sumZ (fun p => 6 * Z.abs (zmetric metric (pp_metrics p))) ps)%Z).
  { apply sumZ_le. intros p Hp. pose proof (linkAdds_sum (fun m => Z.abs (zmetric metric m)) p (fun _ _ => true)) as E.
    cbv beta iota in E. rewrite E. apply sumZ_const_le; [lia|]. pose proof (pairs_length (pp_path p)).
    pose proof (flow_path_length p Hp). lia. }
  rewrite sumZ_scale in H. lia.
Qed.

Lemma node_adds_exact : Forall (fun a => exact_metric metric (na_metrics a)) (List.concat (List.map nodeAdds' ps)).
Proof.
  rewrite Forall_concat, Forall_map. eapply Forall_impl; [exact Hex|]. intros p Hp.
  unfold nodeAdds. destruct (head _); [|constructor]. by apply Forall_map, Forall_true.
Qed.

Lemma link_adds_exact : Forall (fun a => exact_metric metric (la_metrics a)) (List.concat (List.map linkAdds' ps)).
Proof.
  rewrite Forall_concat, Forall_map. eapply Forall_impl; [exact Hex|]. intros p Hp.
  unfold linkAdds. destruct (head _); [|constructor]. by apply Forall_map, Forall_true.
Qed.

(** The values of the nodes are integers of the safe range, and so are their
    sums. *)
Lemma nodes_exact :
  Forall (fun n => safe_integer (n_value n)) the_nodes /\ (sumZ (fun n => Z.abs (zval (n_value n))) the_nodes < 2 ^ 53)%Z.
Proof.
  pose proof node_adds_bound as Hlt.
  destruct (nodes_sum metric _ (fun _ => true) all_adds_ok node_adds_exact Hlt) as (H1 & H2 & _).
  split; [exact H1|]. eapply Z.le_lt_trans; [exact H2|exact Hlt].
Qed.

(** The metrics of all paths, once for each node of a path a predicate takes. *)
Lemma nodes_total (w : jstr -> bool) :
  sumZ (fun n => if w (n_id n) then zval (n_value n) else 0)%Z the_nodes =
  sumZ (fun p => sumZ (fun x => if w (p_id x) then zmetric metric (pp_metrics p) else 0)%Z (pp_path p)) ps.
Proof.
  destruct (nodes_sum metric _ w all_adds_ok node_adds_exact node_adds_bound) as (_ & _ & H).
  unfold the_nodes. rewrite H, sumZ_concat, sumZ_map. apply sumZ_ext. intros p _. apply nodeAdds_sum.
Qed.

(** ** The total of a column *)

Lemma column_of_path stage p v : NoDup stages -> stage ∈ stages -> path_ok stages p ->
  sumZ (fun x => if bool_decide (kindOf (p_id x) = Some stage) then v else 0)%Z p = v.
Proof.
  intros Hnd Hin [Hk Hok].
  rewrite (sumZ_ext _ (fun x => if bool_decide (p_kind x = stage) then v else 0)%Z).
  2: { intros x Hx. rewrite Forall_forall in Hok. rewrite (Hok x Hx).
       case_bool_decide as E; case_bool_decide as E'; try done; congruence. }
  rewrite <-Hk in Hin, Hnd. apply list_elem_of_In, in_map_iff in Hin as (x & <- & Hx).
  apply (sumZ_at p_kind (fun _ => v)); [done|]. by apply list_elem_of_In.
Qed.

Lemma column_total stage : NoDup stages -> stage ∈ stages ->
  sumZ (fun n => if bool_decide (n_kind n = stage) then zval (n_value n) else 0)%Z the_nodes =
  sumZ (fun p => zmetric metric (pp_metrics p)) ps.
Proof.
  intros Hnd Hin. rewrite (sumZ_ext _ (fun n => if bool_decide (kindOf (n_id n) = Some stage) then zval (n_value n) else 0)%Z).
  2: { intros n Hn. rewrite (the_nodes_kind n Hn).
       case_bool_decide as E; case_bool_decide as E'; try done; congruence. }
  pose proof (nodes_total (fun i : jstr => bool_decide (kindOf i = Some stage))) as Ht. cbv beta in Ht.
  rewrite Ht. apply sumZ_ext. intros p Hp.
  rewrite Forall_forall in Hps. by apply column_of_path, Hps.
Qed.

(** ** The balance of a node *)

Context (Hclean : Forall (fun p => Forall (fun x => clean (p_id x)) (pp_path p)) ps).

Lemma link_adds_clean : Forall (fun a => clean (p_id (la_source a))) (List.concat (List.map linkAdds' ps)).
Proof.
  rewrite Forall_concat, Forall_map. eapply Forall_impl; [exact Hclean|]. intros p Hp.
  unfold linkAdds. destruct (pp_path p) as [|n t] eqn:E; [constructor|]. cbn [head].
  apply Forall_map, Forall_forall. intros e He. apply pairs_in in He as [H _].
  rewrite Forall_forall in Hp. rewrite <-E in H. exact (Hp e.1 H).
Qed.

Lemma links_exact :
  Forall (fun x => safe_integer (l_value x)) the_links /\ (sumZ (fun x => Z.abs (zval (l_value x))) the_links < 2 ^ 53)%Z.
Proof.
  pose proof link_adds_bound as Hlt.
  destruct (links_sum metric _ (fun _ _ => true) link_adds_clean link_adds_exact Hlt) as (H1 & H2 & _).
  split; [exact H1|]. eapply Z.le_lt_trans; [exact H2|exact Hlt].
Qed.

Lemma links_total (w : jstr -> jstr -> bool) :
  sumZ (link_at w) the_links =
  sumZ (fun p => sumZ (fun e => if w (p_id e.1) (p_id e.2) then zmetric metric (pp_metrics p) else 0)%Z
                   (pairs (pp_path p))) ps.
Proof.
  destruct (links_sum metric _ w link_adds_clean link_adds_exact link_adds_bound) as (_ & _ & H).
  unfold the_links. rewrite H, sumZ_concat, sumZ_map. apply sumZ_ext. intros p _. apply linkAdds_sum.
Qed.

Lemma node_value n : n ∈ the_nodes ->
  zval (n_value n) = sumZ (fun p => sumZ (fun x => if bool_decide (p_id x = n_id n) then zmetric metric (pp_metrics p) else 0)%Z
                              (pp_path p)) ps.
Proof.
  intros Hn. pose proof (nodes_total (fun i : jstr => bool_decide (i = n_id n))) as Ht. cbv beta in Ht.
  rewrite <-Ht. symmetry. apply (sumZ_at n_id (fun n => zval (n_value n))); [apply the_nodes_nodup|done].
Qed.

Lemma balance_in n : n ∈ the_nodes -> head stages <> Some (n_kind n) ->
  sumZ (link_at (fun _ t => bool_decide (t = n_id n))) the_links = zval (n_value n).
Proof.
  intros Hn Hf. rewrite (node_value n Hn).
  pose proof (links_total (fun _ t : jstr => bool_decide (t = n_id n))) as Ht. cbv beta in Ht.
  rewrite Ht. apply sumZ_ext. intros p Hp.
  pose proof (pairs_targets (pp_path p) (fun x : FlowPathNode =>
    if bool_decide (p_id x = n_id n) then zmetric metric (pp_metrics p) else 0%Z)) as Hq.
  cbv beta in Hq. rewrite Hq.
  destruct (proj1 (Forall_forall _ _) Hps p Hp) as [Hk Hok].
  destruct (pp_path p) as [|x t]; [done|]. simpl. rewrite bool_decide_eq_false_2; [lia|].
  intros E. apply Forall_cons in Hok as [Hx _]. unfold node_ok in Hx.
  rewrite E, (the_nodes_kind n Hn) in Hx. injection Hx as Hx. apply Hf. rewrite <-Hk. simpl. by rewrite Hx.
Qed.

Lemma balance_out n : n ∈ the_nodes -> last stages <> Some (n_kind n) ->
  sumZ (link_at (fun s _ => bool_decide (s = n_id n))) the_links = zval (n_value n).
Proof.
  intros Hn Hf. rewrite (node_value n Hn).
  pose proof (links_total (fun s _ : jstr => bool_decide (s = n_id n))) as Ht. cbv beta in Ht.
  rewrite Ht. apply sumZ_ext. intros p Hp.
  pose proof (pairs_sources (pp_path p) (fun x : FlowPathNode =>
    if bool_decide (p_id x = n_id n) then zmetric metric (pp_metrics p) else 0%Z)) as Hq.
  cbv beta in Hq. rewrite Hq.
  destruct (proj1 (Forall_forall _ _) Hps p Hp) as [Hk Hok].
  destruct (last (pp_path p)) as [x|] eqn:El; [|lia]. rewrite bool_decide_eq_false_2; [lia|].
  intros E. pose proof (last_Some_elem_of _ _ El) as Hx.
  rewrite Forall_forall in Hok. specialize (Hok x Hx). unfold node_ok in Hok.
  rewrite E, (the_nodes_kind n Hn) in Hok. injection Hok as Hok. apply Hf.
  rewrite <-Hk. change (List.map p_kind (pp_path p)) with (p_kind <$> pp_path p).
  rewrite fmap_last, El. simpl. by rewrite Hok.
Qed.
End GraphProofs.

(** * From the maps to the graph *)

Lemma map_shape {A B} (f : A -> A) (g : A -> B) l : (forall a, g (f a) = g a) -> List.map g (List.map f l) = List.map g l.
Proof. intros H. rewrite map_map. apply map_ext, H. Qed.

Lemma mask_shapes ns ls :
  List.map node_shape (maskFlowGraphLabels ns ls).1 = List.map node_shape ns /\
  List.map link_shape (maskFlowGraphLabels ns ls).2 = List.map link_shape ls.
Proof. split; simpl; apply map_shape; [|done]. intros n. by destruct (isMasked n). Qed.

Lemma highlight_shapes ns ls sets :
  List.map node_shape (applyFlowHighlights ns ls sets).1 = List.map node_shape ns /\
  List.map link_shape (applyFlowHighlights ns ls sets).2 = List.map link_shape ls.
Proof. destruct sets; [|done]. split; simpl; by apply map_shape. Qed.

Lemma stages_nodup role visible : NoDup (resolveVisibleStages role visible).
Proof.
  assert (H : NoDup (getFlowStages role)) by (apply (bool_decide_unpack _); by destruct role).
  unfold resolveVisibleStages. destruct visible as [v|]; [|done]. destruct (Nat.leb _ _); [|done].
  by apply List.NoDup_filter, NoDup_ListNoDup in H || (apply NoDup_ListNoDup, List.NoDup_filter, NoDup_ListNoDup, H).
Qed.

(** The path metrics are those of the rows, unless rows are hidden. *)
Lemma prepare_metrics rows stages ctx sets mode lab :
  mode = Aggregate \/ sets = None ->
  List.map pp_metrics (preparePaths rows stages ctx sets mode lab) = List.map rowMetrics rows.
Proof.
  intros H. unfold preparePaths. induction rows as [|row rows IH]; csimpl; [done|].
  assert (exists p, applyTopNodeLimit (flowPathForStages row stages ctx) sets mode lab = Some p) as [p ->].
  { unfold applyTopNodeLimit. destruct sets; [|eauto]. destruct (negb _); [eauto|].
    destruct mode; [eauto|naive_solver]. }
  csimpl. by rewrite IH.
Qed.

Definition summary_metric (s : FlowSummary) (metric : FlowMetric) : num :=
  match metric with MRequests => s_requests s | MTokens => s_tokens s | MQuota => s_quota s end.

Lemma summary_sum rows metric :
  summary_metric (buildSummary rows) metric = num_sum (List.map (fun r => metricValue (rowMetrics r) metric) rows).
Proof.
  unfold buildSummary, num_sum. set (f := fun s row => _).
  assert (H : forall s, summary_metric (fold_left f rows s) metric =
    fold_left num_add (List.map (fun r => metricValue (rowMetrics r) metric) rows) (summary_metric s metric)).
  { induction rows as [|r rows IH]; intros s; simpl; [done|]. rewrite IH. by destruct metric. }
  rewrite H. by destruct metric.
Qed.

(** Rows whose metric is an integer, with absolute values that add up to at most
    2^50: with six stages no sum of the chart leaves the safe range. *)
Definition safe_rows (metric : FlowMetric) (rows : list FlowQuotaDataItem) : Prop :=
  Forall (fun r => exact_metric metric (rowMetrics r)) rows /\
  (sumZ (fun r => Z.abs (zmetric metric (rowMetrics r))) rows <= 2 ^ 50)%Z.

Lemma safe_filter metric (p : FlowQuotaDataItem -> bool) rows : safe_rows metric rows -> safe_rows metric (List.filter p rows).
Proof.
  intros [He Hb]. split; [by apply Forall_filter'|]. rewrite sumZ_filter.
  eapply Z.le_trans; [|exact Hb]. apply sumZ_le. intros r _. destruct (p r); lia.
Qed.

Lemma safe_filterRows metric rows sel : safe_rows metric rows -> safe_rows metric (filterRows rows sel).
Proof. intros H. unfold filterRows. destruct (sel ?? []); [done|]. by apply safe_filter. Qed.

Lemma safe_filterRowsByNodes metric rows sel stages ctx :
  safe_rows metric rows -> safe_rows metric (filterRowsByNodes rows sel stages ctx).
Proof. intros H. unfold filterRowsByNodes. destruct (normalizeSelectedNodeFilters _ _); [done|]. by apply safe_filter. Qed.

(** The paths of safe rows. *)
Lemma prepare_safe metric rows stages ctx sets mode lab : safe_rows metric rows ->
  let ps := preparePaths rows stages ctx sets mode lab in
  Forall (fun p => exact_metric metric (pp_metrics p)) ps /\
  (sumZ (fun p => Z.abs (zmetric metric (pp_metrics p))) ps <= 2 ^ 50)%Z.
Proof.
  intros [He Hb]. cbv zeta. unfold preparePaths. split.
  - induction He as [|r rows Hr _ IH]; csimpl; [constructor|]. simpl in Hb.
    assert (0 <= Z.abs (zmetric metric (rowMetrics r)))%Z by lia. specialize (IH ltac:(lia)).
    destruct (applyTopNodeLimit _ _ _ _); [by constructor|done].
  - eapply Z.le_trans; [|exact Hb]. clear He Hb. induction rows as [|r rows IH]; csimpl; [done|].
    destruct (applyTopNodeLimit _ _ _ _); simpl; lia.
Qed.

Lemma stages_length role visible : length (resolveVisibleStages role visible) <= 6.
Proof.
  assert (H : length (getFlowStages role) <= 6) by (destruct role; simpl; lia).
  unfold resolveVisibleStages. destruct visible as [v|]; [|done]. destruct (Nat.leb _ _); [|done].
  pose proof (List.filter_length_le (fun stage => bool_decide (stage ∈ v)) (getFlowStages role)). lia.
Qed.

(** Rows whose identifiers do not contain the separator of the link keys. *)
Definition row_clean (row : FlowQuotaDataItem) : Prop := forall k, clean (p_id (NODE_BUILDERS k row None)).

Lemma prepare_clean rows stages ctx sets mode lab : Forall row_clean rows ->
  Forall (fun p => Forall (fun x => clean (p_id x)) (pp_path p)) (preparePaths rows stages ctx sets mode lab).
Proof.
  unfold preparePaths. induction 1 as [|row rows Hr _ IH]; csimpl; [constructor|].
  assert (Hp : Forall (fun x => clean (p_id x)) (flowPathForStages row stages ctx)).
  { apply Forall_map, Forall_true. intros k. rewrite (builder_id_ctx k row ctx None). apply Hr. }
  destruct (applyTopNodeLimit _ _ _ _) as [p|] eqn:E; [|done]. constructor; [|done]. simpl.
  unfold applyTopNodeLimit in E. destruct sets as [s|]; [|by simplify_eq].
  destruct (negb _); [by simplify_eq|]. destruct mode; [|done]. injection E as <-.
  apply Forall_map. eapply Forall_impl; [exact Hp|]. intros x Hx. cbv beta.
  match goal with |- context [if ?b then x else _] => destruct b end; [done|].
  unfold clean. destruct (p_kind x); vm_compute; set_solver.
Qed.

Lemma filter_sub {A} (p : A -> bool) (P : A -> Prop) l : Forall P l -> Forall P (List.filter p l).
Proof. apply Forall_filter'. Qed.

Lemma filterRows_Forall P rows sel : Forall P rows -> Forall P (filterRows rows sel).
Proof. intros H. unfold filterRows. destruct (sel ?? []); [done|]. by apply filter_sub. Qed.

Lemma filterRowsByNodes_Forall P rows sel stages ctx : Forall P rows -> Forall P (filterRowsByNodes rows sel stages ctx).
Proof. intros H. unfold filterRowsByNodes. destruct (normalizeSelectedNodeFilters _ _); [done|]. by apply filter_sub. Qed.

Section Main.
Context (localeCompare : jstr -> jstr -> Z) (chartColors : nat -> list jstr) (formatNumber : num -> jstr).
Context (toFixed2 : num -> jstr).

Notation build := (buildFlowGraph localeCompare chartColors toFixed2).

(** The paths of a graph and the colors of their roots. *)
Definition graph_paths rows metric stages ctx (o : FlowGraphOptions) : list PreparedFlowPath :=
  preparePaths rows stages ctx
    (buildTopNodeSets localeCompare rows metric stages (normalizeTopNodeLimit (go_topNodeLimit o)) ctx)
    (go_overflowMode o ?? DEFAULT_FLOW_OVERFLOW_MODE) (go_otherNodeLabel o).

Definition graph_colors (ps : list PreparedFlowPath) (palette : option (list jstr)) : list (jstr * jstr) :=
  stableColorMap chartColors (sort_by localeCompare (rootIds ps)) palette.

Lemma graph_shapes rows metric role palette visible ctx o :
  let ps := graph_paths rows metric (resolveVisibleStages role visible) ctx o in
  let cs := graph_colors ps palette in
  let g := build rows metric role palette visible ctx o in
  List.map node_shape (g_nodes g) ≡ₚ List.map node_shape (the_nodes cs palette chartColors metric ps) /\
  List.map link_shape (g_links g) ≡ₚ List.map link_shape (the_links cs palette chartColors metric ps).
Proof.
  cbv zeta. unfold buildFlowGraph. fold (graph_paths rows metric (resolveVisibleStages role visible) ctx o).
  set (ps := graph_paths _ _ _ _ _). fold (graph_colors ps palette). set (cs := graph_colors ps palette).
  change (fold_left (addNode metric) _ []).*2 with (the_nodes cs palette chartColors metric ps).
  change (fold_left (addLink metric) _ []).*2 with (the_links cs palette chartColors metric ps).
  set (ns := the_nodes _ _ _ _ _). set (ls := the_links _ _ _ _ _). cbv zeta. cbn [g_nodes g_links].
  set (masked := if go_maskSensitive o then _ else _).
  assert (Hm : List.map node_shape masked.1 = List.map node_shape ns /\ List.map link_shape masked.2 = List.map link_shape ls).
  { subst masked. destruct (go_maskSensitive o); [apply mask_shapes|done]. }
  set (shown := applyFlowHighlights masked.1 masked.2 _).
  assert (Hs : List.map node_shape shown.1 = List.map node_shape ns /\ List.map link_shape shown.2 = List.map link_shape ls).
  { destruct (highlight_shapes masked.1 masked.2
      (buildFlowHighlightSets ps (go_activeNode o) (go_activeLink o) (resolveVisibleStages role visible))) as [H1 H2].
    destruct Hm as [<- <-]. split; [exact H1|exact H2]. }
  destruct Hs as [<- <-]. split.
  - apply Permutation_map, sort_by_perm.
  - unfold assignLinkDisplayColors. rewrite map_shape by done. rewrite map_shape by done.
    apply Permutation_map, sort_by_perm.
Qed.

(** Sums over the shapes. *)
Lemma shape_sum {A B} (sh : A -> B) (w : B -> Z) (l l' : list A) :
  List.map sh l ≡ₚ List.map sh l' -> sumZ (fun a => w (sh a)) l = sumZ (fun a => w (sh a)) l'.
Proof. intros H. rewrite <-(sumZ_map w sh l), <-(sumZ_map w sh l'). by rewrite H. Qed.

Lemma shape_elem {A B} (sh : A -> B) (l l' : list A) a :
  List.map sh l ≡ₚ List.map sh l' -> a ∈ l -> exists a', a' ∈ l' /\ sh a' = sh a.
Proof.
  intros H Ha. assert (Hs : sh a ∈ List.map sh l') by (rewrite <-H; by apply list_elem_of_fmap_2).
  apply list_elem_of_fmap in Hs as (a' & E & Ha'). by exists a'.
Qed.

(** The total of the nodes of a kind, and what enters and leaves an identifier,
    added as numbers. *)
Definition column (g : DashboardFlowGraph) (k : FlowNodeKind) : num :=
  num_sum (List.map n_value (List.filter (fun n => bool_decide (n_kind n = k)) (g_nodes g))).
Definition inflow (g : DashboardFlowGraph) (i : jstr) : num :=
  num_sum (List.map l_value (List.filter (fun l => bool_decide (l_target l = i)) (g_links g))).
Definition outflow (g : DashboardFlowGraph) (i : jstr) : num :=
  num_sum (List.map l_value (List.filter (fun l => bool_decide (l_source l = i)) (g_links g))).

(** A part of a list that has the shapes of a list of integers, added up. *)
Lemma shape_total {A B} (sh : A -> B) (v : A -> num) (vb : B -> num) (p : A -> bool) (pb : B -> bool) (l l' : list A) :
  (forall a, v a = vb (sh a)) -> (forall a, p a = pb (sh a)) -> List.map sh l ≡ₚ List.map sh l' ->
  Forall (fun a => safe_integer (v a)) l' -> (sumZ (fun a => Z.abs (zval (v a))) l' < 2 ^ 53)%Z ->
  num_sum (List.map v (List.filter p l)) = num_of_Z (sumZ (fun a => if p a then zval (v a) else 0)%Z l').
Proof.
  intros Hv Hp H He Hb.
  assert (Hsum : forall f : num -> Z, sumZ (fun a => if p a then f (v a) else 0)%Z l = sumZ (fun a => if p a then f (v a) else 0)%Z l').
  { intros f. pose proof (shape_sum sh (fun b => if pb b then f (vb b) else 0)%Z l l' H) as E.
    rewrite (sumZ_ext _ (fun a => if pb (sh a) then f (vb (sh a)) else 0)%Z l), E by (intros a _; by rewrite Hv, Hp).
    apply sumZ_ext. intros a _. by rewrite Hv, Hp. }
  rewrite num_sum_exact.
  - by rewrite sumZ_filter, (Hsum zval).
  - apply Forall_filter', Forall_forall. intros a Ha. destruct (shape_elem sh l l' a H Ha) as (a' & Ha' & E).
    rewrite Hv, <-E, <-Hv. rewrite Forall_forall in He. by apply He.
  - rewrite sumZ_filter, (Hsum (fun x => Z.abs (zval x))). eapply Z.le_lt_trans; [|exact Hb].
    apply sumZ_le. intros a _. destruct (p a); lia.
Qed.

Lemma prepared_from rows stages ctx sets mode lab p :
  p ∈ preparePaths rows stages ctx sets mode lab ->
  exists row, row ∈ rows /\ applyTopNodeLimit (flowPathForStages row stages ctx) sets mode lab = Some (pp_path p).
Proof.
  unfold preparePaths. intros Hp. apply list_elem_of_omap in Hp as (row & Hrow & E). exists row.
  split; [done|]. destruct (applyTopNodeLimit _ _ _ _) as [q|]; [|done]. injection E as <-. done.
Qed.

Lemma filter_length_shape k l :
  length (List.filter (fun n => bool_decide (n_kind n = k)) l) =
  length (List.filter (fun s : jstr * FlowNodeKind * num => bool_decide (s.1.2 = k)) (List.map node_shape l)).
Proof. induction l as [|n l IH]; simpl; [done|]. case_bool_decide; simpl; by rewrite IH. Qed.

Notation data := (buildDashboardFlowData localeCompare chartColors formatNumber toFixed2).

Definition data_stages (o : FlowBuildOptions) : list FlowNodeKind :=
  resolveVisibleStages (o_role o ?? DEFAULT_FLOW_ROLE) (o_visibleStages o).

(** The rows a chart is built from, and its paths. *)
Definition data_rows (rows : list FlowQuotaDataItem) (o : FlowBuildOptions) : list FlowQuotaDataItem :=
  filterRowsByNodes (filterRows rows (o_selectedUsers o)) (o_selectedNodes o) (data_stages o) (o_deletedTokenLabel o).

Definition data_options (o : FlowBuildOptions) : FlowGraphOptions :=
  GraphOptions (o_topNodeLimit o) (o_overflowMode o) (o_otherNodeLabel o) (o_activeNode o) (o_activeLink o) (o_maskSensitive o).

Definition data_paths (rows : list FlowQuotaDataItem) (metric : FlowMetric) (o : FlowBuildOptions) : list PreparedFlowPath :=
  graph_paths (data_rows rows o) metric (data_stages o) (o_deletedTokenLabel o) (data_options o).

Lemma data_rows_safe metric rows o : safe_rows metric rows -> safe_rows metric (data_rows rows o).
Proof. intros H. by apply safe_filterRowsByNodes, safe_filterRows. Qed.

Lemma data_paths_ok rows metric o : Forall (fun p => path_ok (data_stages o) (pp_path p)) (data_paths rows metric o).
Proof. apply prepare_ok. Qed.

(** A stage of the chart carries the metrics of its paths. *)
Lemma column_paths rows metric o stage : safe_rows metric rows -> stage ∈ data_stages o ->
  column (flow (data rows metric o)) stage =
  num_of_Z (sumZ (fun p => zmetric metric (pp_metrics p)) (data_paths rows metric o)).
Proof.
  intros Hs Hst. set (cs := graph_colors (data_paths rows metric o) (o_colorPalette o)).
  destruct (graph_shapes (data_rows rows o) metric (o_role o ?? DEFAULT_FLOW_ROLE) (o_colorPalette o) (o_visibleStages o)
    (o_deletedTokenLabel o) (data_options o)) as [Hn _].
  destruct (prepare_safe metric (data_rows rows o) (data_stages o) (o_deletedTokenLabel o)
    (buildTopNodeSets localeCompare (data_rows rows o) metric (data_stages o) (normalizeTopNodeLimit (o_topNodeLimit o)) (o_deletedTokenLabel o))
    (o_overflowMode o ?? DEFAULT_FLOW_OVERFLOW_MODE) (o_otherNodeLabel o)) as [Hex Hb]; [by apply data_rows_safe|].
  destruct (nodes_exact cs (o_colorPalette o) chartColors metric (data_stages o) (data_paths rows metric o)
    (data_paths_ok _ _ _) (stages_length _ _) Hex Hb) as [He Hlt].
  unfold column. erewrite (shape_total node_shape n_value (fun s : jstr * FlowNodeKind * num => s.2) _
    (fun s : jstr * FlowNodeKind * num => bool_decide (s.1.2 = stage)));
    [|done|done|exact Hn|exact He|exact Hlt].
  f_equal.
  exact (column_total _ _ _ metric (data_stages o) _ (data_paths_ok _ _ _) (stages_length _ _) Hex Hb stage (stages_nodup _ _) Hst).
Qed.

(** C29: the stages of the chart add up, for rows whose metric is an integer of the
    safe range: any two visible stages carry the same total, and unless rows with
    overflowing nodes are hidden it is the summary of the filtered rows. *)
Theorem columns_add_up rows metric o stage stage' :
  safe_rows metric rows -> stage ∈ data_stages o -> stage' ∈ data_stages o ->
  let d := data rows metric o in
  column (flow d) stage = column (flow d) stage' /\
  (o_overflowMode o <> Some Hide -> column (flow d) stage = summary_metric (summary d) metric).
Proof.
  intros Hs H1 H2. cbv zeta. rewrite !column_paths by done. split; [done|]. intros Hm.
  change (summary (data rows metric o)) with (buildSummary (data_rows rows o)). rewrite summary_sum.
  destruct (data_rows_safe metric rows o Hs) as [He Hb]. rewrite num_sum_exact; [|exact He|unfold zmetric in Hb; lia].
  f_equal. rewrite <-(sumZ_map (zmetric metric) pp_metrics). unfold data_paths, graph_paths. rewrite prepare_metrics, sumZ_map; [done|].
  left. simpl. destruct (o_overflowMode o) as [[]|]; done.
Qed.

(** C11: flow is conserved at every node, for rows whose metric is an integer of
    the safe range: what enters a node that is not of the first stage is its
    value, and so is what leaves one that is not of the last stage, whatever rows
    are aggregated, hidden or filtered out. *)
Theorem flow_balanced rows metric o n :
  safe_rows metric rows -> Forall row_clean rows ->
  let g := flow (data rows metric o) in
  n ∈ g_nodes g ->
  (head (data_stages o) = Some (n_kind n) \/ inflow g (n_id n) = n_value n) /\
  (last (data_stages o) = Some (n_kind n) \/ outflow g (n_id n) = n_value n).
Proof.
  intros Hs Hc g Hn. set (cs := graph_colors (data_paths rows metric o) (o_colorPalette o)).
  assert (Hc' : Forall row_clean (data_rows rows o)) by (by apply filterRowsByNodes_Forall, filterRows_Forall).
  destruct (graph_shapes (data_rows rows o) metric (o_role o ?? DEFAULT_FLOW_ROLE) (o_colorPalette o) (o_visibleStages o)
    (o_deletedTokenLabel o) (data_options o)) as [Hns Hls].
  destruct (shape_elem node_shape _ _ n Hns Hn) as (n' & Hn' & E). injection E as Ei Ek Ev.
  set (sets := buildTopNodeSets localeCompare (data_rows rows o) metric (data_stages o)
    (normalizeTopNodeLimit (o_topNodeLimit o)) (o_deletedTokenLabel o)).
  destruct (prepare_safe metric (data_rows rows o) (data_stages o) (o_deletedTokenLabel o) sets
    (o_overflowMode o ?? DEFAULT_FLOW_OVERFLOW_MODE) (o_otherNodeLabel o)) as [Hex Hb]; [by apply data_rows_safe|].
  pose proof (prepare_clean (data_rows rows o) (data_stages o) (o_deletedTokenLabel o) sets
    (o_overflowMode o ?? DEFAULT_FLOW_OVERFLOW_MODE) (o_otherNodeLabel o) Hc') as Hcl.
  pose proof (data_paths_ok rows metric o) as Hps. pose proof (stages_length (o_role o ?? DEFAULT_FLOW_ROLE) (o_visibleStages o)) as Hlen.
  destruct (nodes_exact cs (o_colorPalette o) chartColors metric (data_stages o) (data_paths rows metric o)
    Hps Hlen Hex Hb) as [Hne _].
  destruct (links_exact cs (o_colorPalette o) chartColors metric (data_stages o) (data_paths rows metric o)
    Hps Hlen Hex Hb Hcl) as [He Hlt].
  assert (Hval : n_value n' = num_of_Z (zval (n_value n'))) by (rewrite Forall_forall in Hne; by apply Hne).
  unfold inflow, outflow. rewrite <-Ei, <-Ek, <-Ev, Hval. split.
  - destruct (decide (head (data_stages o) = Some (n_kind n'))) as [|Hd]; [by left|right].
    erewrite (shape_total link_shape l_value (fun s : jstr * jstr * num => s.2) _
      (fun s : jstr * jstr * num => bool_decide (s.1.2 = n_id n')));
      [|done|done|exact Hls|exact He|exact Hlt].
    f_equal. exact (balance_in _ _ _ metric (data_stages o) _ Hps Hlen Hex Hb Hcl n' Hn' Hd).
  - destruct (decide (last (data_stages o) = Some (n_kind n'))) as [|Hd]; [by left|right].
    erewrite (shape_total link_shape l_value (fun s : jstr * jstr * num => s.2) _
      (fun s : jstr * jstr * num => bool_decide (s.1.1 = n_id n')));
      [|done|done|exact Hls|exact He|exact Hlt].
    f_equal. exact (balance_out _ _ _ metric (data_stages o) _ Hps Hlen Hex Hb Hcl n' Hn' Hd).
Qed.

(** ** Top nodes *)

Lemma top_or_other path sets mode lab p x :
  applyTopNodeLimit path (Some sets) mode lab = Some p -> x ∈ p ->
  isTopFlowNode x (Some sets) = true \/ (mode = Aggregate /\ x = otherFlowNode (p_kind x) lab).
Proof.
  unfold applyTopNodeLimit. destruct (existsb _ path) eqn:E; simpl negb; cbv iota.
  - destruct mode; [|done]. intros [= <-] Hx. apply list_elem_of_In, in_map_iff in Hx as (y & <- & Hy).
    match goal with |- context [if ?b then y else _] => destruct b eqn:Et end; [by left|right]. by destruct (p_kind y).
  - intros [= <-] Hx. left. destruct (isTopFlowNode x (Some sets)) eqn:Et; [done|].
    assert (H : existsb (fun n => negb (isTopFlowNode n (Some sets))) path = true); [|congruence]. apply existsb_exists. exists x. split; [by apply list_elem_of_In|]. by rewrite Et.
Qed.

Definition kind_ids (g : list DashboardFlowNode) (k : FlowNodeKind) : list jstr :=
  List.map n_id (List.filter (fun n => bool_decide (n_kind n = k)) g).

Lemma map_get_tabulate {V} (f : FlowNodeKind -> V) k v l : map_get k (List.map (fun s => (s, f s)) l) = Some v -> v = f k.
Proof. induction l as [|s l IH]; simpl; [done|]. case_bool_decide; [naive_solver|done]. Qed.

Lemma top_set_small rows metric stages n ctx stage sets ids :
  buildTopNodeSets localeCompare rows metric stages (Some n) ctx = Some sets ->
  map_get stage sets = Some ids -> length ids <= n.
Proof.
  simpl. intros [= <-] H. apply map_get_tabulate in H as ->.
  etransitivity; [apply uniq_length|]. rewrite length_map, length_take. lia.
Qed.

Lemma top_set_there rows metric stages n ctx stage sets :
  buildTopNodeSets localeCompare rows metric stages (Some n) ctx = Some sets ->
  stage ∈ stages -> is_some (map_get stage sets) = true.
Proof.
  simpl. intros [= <-] H. apply map_get_elem. apply list_elem_of_fmap.
  eexists (stage, _). split; [done|]. apply list_elem_of_In, in_map_iff. eexists. split; [done|].
  by apply list_elem_of_In.
Qed.

(** With a limit on the top nodes, a stage shows at most that many nodes,
    and at most one more that stands for the others when they are aggregated. *)
Theorem top_nodes_bounded rows metric o n stage :
  normalizeTopNodeLimit (o_topNodeLimit o) = Some n -> stage ∈ data_stages o ->
  length (kind_ids (g_nodes (flow (data rows metric o))) stage) <=
    n + match o_overflowMode o with Some Hide => 0 | _ => 1 end.
Proof.
  intros Hlim Hst. unfold buildDashboardFlowData. cbv zeta. cbn [flow].
  set (rows' := filterRowsByNodes _ _ _ _). set (go := GraphOptions _ _ _ _ _ _).
  destruct (graph_shapes rows' metric (o_role o ?? DEFAULT_FLOW_ROLE) (o_colorPalette o) (o_visibleStages o)
    (o_deletedTokenLabel o) go) as [Hns _].
  set (ps := graph_paths _ _ _ _ _) in *. set (cs := graph_colors _ _) in *.
  assert (Hps : Forall (fun p => path_ok (data_stages o) (pp_path p)) ps) by apply prepare_ok.
  assert (Hlen : length (kind_ids (g_nodes (build rows' metric (o_role o ?? DEFAULT_FLOW_ROLE) (o_colorPalette o)
      (o_visibleStages o) (o_deletedTokenLabel o) go)) stage) =
    length (kind_ids (the_nodes cs (o_colorPalette o) chartColors metric ps) stage)).
  { unfold kind_ids. rewrite !length_map, !filter_length_shape. by rewrite Hns. }
  rewrite Hlen. clear Hlen Hns.
  destruct (buildTopNodeSets localeCompare rows' metric (data_stages o) (Some n) (o_deletedTokenLabel o))
    as [sets|] eqn:Esets; [|done].
  pose proof (top_set_there _ _ _ _ _ stage _ Esets Hst) as Hsome.
  destruct (map_get stage sets) as [ids|] eqn:Eids; [|done].
  pose proof (top_set_small _ _ _ _ _ _ _ _ Esets Eids) as Hn.
  set (others := match o_overflowMode o with Some Hide => [] | _ => [OTHER_FLOW_NODE_IDS stage] end).
  transitivity (length (ids ++ others)).
  2: { rewrite length_app. subst others. destruct (o_overflowMode o) as [[]|]; simpl; lia. }
  apply NoDup_incl_length'.
  { apply nodup_map_filter, (the_nodes_nodup cs (o_colorPalette o) chartColors metric (data_stages o) ps Hps). }
  intros i Hi. apply list_elem_of_In, in_map_iff in Hi as (x & <- & Hx).
  apply filter_In in Hx as [Hx Hk]. apply bool_decide_eq_true in Hk. apply list_elem_of_In in Hx.
  pose proof (the_nodes_kind cs (o_colorPalette o) chartColors metric (data_stages o) ps Hps x Hx) as Hkx.
  assert (Hids : n_id x ∈ List.map n_id (the_nodes cs (o_colorPalette o) chartColors metric ps))
    by (by apply list_elem_of_fmap_2).
  apply (the_nodes_in_paths cs (o_colorPalette o) chartColors metric (data_stages o) ps Hps) in Hids
    as (p & y & Hp & Hy & Hyx).
  assert (Hyk : p_kind y = stage).
  { rewrite Forall_forall in Hps. destruct (Hps p Hp) as [_ Hok]. rewrite Forall_forall in Hok.
    pose proof (Hok y Hy) as Ho. unfold node_ok in Ho. rewrite Hyx, Hkx in Ho. congruence. }
  apply prepared_from in Hp as (row & Hrow & Ep). unfold go in Ep. cbn [go_topNodeLimit] in Ep.
  rewrite Hlim in Ep. fold (data_stages o) in Ep. rewrite Esets in Ep.
  destruct (top_or_other _ _ _ _ _ y Ep Hy) as [Htop|[Hmode Hother]]; apply elem_of_app.
  - left. unfold isTopFlowNode in Htop. rewrite Hyk, Eids in Htop. rewrite <-Hyx. by apply bool_decide_eq_true in Htop.
  - right. rewrite <-Hyx, Hother, Hyk. subst others. simpl in Hmode.
    destruct (o_overflowMode o) as [[]|]; simpl in *; try done; left.
Qed.

(** ** Masking *)

Lemma the_links_ends cs palette metric stages ps l :
  Forall (fun p => path_ok stages (pp_path p)) ps -> l ∈ the_links cs palette chartColors metric ps ->
  l_source l ∈ List.map n_id (the_nodes cs palette chartColors metric ps) /\
  l_target l ∈ List.map n_id (the_nodes cs palette chartColors metric ps).
Proof.
  intros Hps Hl. set (S := List.map n_id _).
  unfold the_links in Hl. rewrite links_acc in Hl.
  destruct (acc_inv (fun a => pathLinkKey (la_source a) (la_target a)) link_init (link_upd metric)
    (fun _ v => l_source v ∈ S /\ l_target v ∈ S) (List.concat (List.map (linkAdds chartColors cs palette) ps)))
    as (HF & _ & _); [|done|].
  - intros a Ha. apply list_elem_of_In, in_concat in Ha as (ls & Hls & Ha).
    apply in_map_iff in Hls as (p & <- & Hp). unfold linkAdds in Ha.
    destruct (pp_path p) as [|n t] eqn:E; [done|]. cbn [head] in Ha. rewrite <-E in Ha.
    apply in_map_iff in Ha as (e & <- & He). apply list_elem_of_In, pairs_in in He as [H1 H2].
    apply list_elem_of_In in Hp. subst S.
    split; apply (the_nodes_in_paths cs palette chartColors metric stages ps Hps); exists p; eexists; eauto.
  - apply list_elem_of_fmap in Hl as (e & -> & He). rewrite Forall_forall in HF. by apply HF.
Qed.

Definition node_label (n : DashboardFlowNode) : jstr * FlowNodeKind * jstr := (n_id n, n_kind n, n_label n).
Definition link_labels (l : DashboardFlowLink) : jstr * jstr * jstr * jstr :=
  (l_source l, l_target l, l_sourceLabel l, l_targetLabel l).

Lemma graph_labels rows metric role palette visible ctx o :
  go_maskSensitive o = true ->
  let ps := graph_paths rows metric (resolveVisibleStages role visible) ctx o in
  let cs := graph_colors ps palette in
  let g := build rows metric role palette visible ctx o in
  let m := maskFlowGraphLabels (the_nodes cs palette chartColors metric ps) (the_links cs palette chartColors metric ps) in
  List.map node_label (g_nodes g) ≡ₚ List.map node_label m.1 /\
  List.map link_labels (g_links g) ≡ₚ List.map link_labels m.2.
Proof.
  intros Hmask. cbv zeta. unfold buildFlowGraph. rewrite Hmask.
  fold (graph_paths rows metric (resolveVisibleStages role visible) ctx o).
  set (ps := graph_paths _ _ _ _ _). fold (graph_colors ps palette). set (cs := graph_colors ps palette).
  change (fold_left (addNode metric) _ []).*2 with (the_nodes cs palette chartColors metric ps).
  change (fold_left (addLink metric) _ []).*2 with (the_links cs palette chartColors metric ps).
  cbv zeta. cbn [g_nodes g_links]. set (m := maskFlowGraphLabels _ _).
  assert (Hh : forall sets, List.map node_label (applyFlowHighlights m.1 m.2 sets).1 = List.map node_label m.1 /\
                            List.map link_labels (applyFlowHighlights m.1 m.2 sets).2 = List.map link_labels m.2).
  { intros [h|]; [|done]. split; cbn [applyFlowHighlights fst snd]; by apply map_shape. }
  destruct (Hh (buildFlowHighlightSets ps (go_activeNode o) (go_activeLink o) (resolveVisibleStages role visible))) as [<- <-].
  split.
  - apply Permutation_map, sort_by_perm.
  - unfold assignLinkDisplayColors. rewrite map_shape by done. rewrite map_shape by done.
    apply Permutation_map, sort_by_perm.
Qed.

(** Identifiers whose labels are hidden, and what a hidden label may be. *)
Definition sensitive_id (i : jstr) : Prop :=
  (exists k, kindOf i = Some k /\ k ∈ SENSITIVE_FLOW_KINDS) /\ i ∉ OTHER_FLOW_NODE_ID_SET.
Definition hidden (s : jstr) : Prop := s = [] \/ s = FLOW_MASK_TEXT.

Lemma mask_hidden s : hidden (maskFlowLabel s).
Proof. destruct s; [by left|by right]. Qed.

Lemma sensitive_masked cs palette metric stages ps n :
  Forall (fun p => path_ok stages (pp_path p)) ps -> n ∈ the_nodes cs palette chartColors metric ps ->
  sensitive_id (n_id n) -> isMasked n = true.
Proof.
  intros Hps Hn ((k & Hk & Hs) & Ho). pose proof (the_nodes_kind cs palette chartColors metric stages ps Hps n Hn) as Hkn.
  unfold isMasked. rewrite Hkn in Hk. injection Hk as <-.
  by rewrite (bool_decide_eq_true_2 _ Hs), (bool_decide_eq_false_2 _ Ho).
Qed.

(** With masking on, no label of a user, node, token, group or channel is
    left in the graph, neither on a node nor on an end of a link; labels of
    models and of the aggregated nodes stay. *)
Theorem mask_hides_labels rows metric o :
  o_maskSensitive o = true ->
  let g := flow (data rows metric o) in
  Forall (fun n => sensitive_id (n_id n) -> hidden (n_label n)) (g_nodes g) /\
  Forall (fun l => (sensitive_id (l_source l) -> hidden (l_sourceLabel l)) /\
                   (sensitive_id (l_target l) -> hidden (l_targetLabel l))) (g_links g).
Proof.
  intros Hm. cbv zeta. unfold buildDashboardFlowData. cbv zeta. cbn [flow].
  set (rows' := filterRowsByNodes _ _ _ _). set (go := GraphOptions _ _ _ _ _ _).
  destruct (graph_labels rows' metric (o_role o ?? DEFAULT_FLOW_ROLE) (o_colorPalette o) (o_visibleStages o)
    (o_deletedTokenLabel o) go Hm) as [Hns Hls].
  set (ps := graph_paths _ _ _ _ _) in *. set (cs := graph_colors _ _) in *.
  assert (Hps : Forall (fun p => path_ok (data_stages o) (pp_path p)) ps) by apply prepare_ok.
  set (ns := the_nodes _ _ _ _ _) in *. set (ls := the_links _ _ _ _ _) in *.
  pose proof (the_nodes_nodup cs (o_colorPalette o) chartColors metric (data_stages o) ps Hps) as Hnd. fold ns in Hnd.
  split; apply Forall_forall.
  - intros n Hn Hs. destruct (shape_elem node_label _ _ n Hns Hn) as (n' & Hn' & E). injection E as Ei Ek El.
    apply list_elem_of_In, in_map_iff in Hn' as (n0 & <- & Hn0). apply list_elem_of_In in Hn0.
    assert (Hid : n_id n0 = n_id n) by (rewrite <-Ei; by destruct (isMasked n0)).
    rewrite <-Hid in Hs. pose proof (sensitive_masked _ _ _ _ _ n0 Hps Hn0 Hs) as Hmk.
    rewrite <-El, Hmk. apply mask_hidden.
  - intros l Hl. destruct (shape_elem link_labels _ _ l Hls Hl) as (l' & Hl' & E). injection E as E1 E2 E3 E4.
    apply list_elem_of_In, in_map_iff in Hl' as (l0 & <- & Hl0). apply list_elem_of_In in Hl0.
    cbn [relabel_link l_source l_target l_sourceLabel l_targetLabel] in E1, E2, E3, E4.
    destruct (the_links_ends _ _ _ _ _ l0 Hps Hl0) as [Hsrc Htgt]. fold ns in Hsrc, Htgt.
    assert (Hend : forall i d, i ∈ List.map n_id ns -> sensitive_id i ->
      hidden (map_get i (List.map (fun n => (n_id n, maskFlowLabel (n_label n))) (List.filter isMasked ns)) ?? d)).
    { intros i d Hi Hs. apply list_elem_of_In, in_map_iff in Hi as (n0 & <- & Hn0). apply list_elem_of_In in Hn0.
      pose proof (sensitive_masked _ _ _ _ _ n0 Hps Hn0 Hs) as Hmk.
      rewrite (map_get_in _ (maskFlowLabel (n_label n0))); [apply mask_hidden| |].
      - change (@fmap list _ _ _ ?f ?l) with (List.map f l). rewrite map_map. by apply nodup_map_filter.
      - apply list_elem_of_In, in_map_iff. exists n0. split; [done|]. apply filter_In. split; [|done].
        by apply list_elem_of_In. }
    split; intros Hs.
    + rewrite <-E3. apply Hend; [done|]. by rewrite E1.
    + rewrite <-E4. apply Hend; [done|]. by rewrite E2.
Qed.

Definition unmasked (o : FlowBuildOptions) : FlowBuildOptions :=
  BuildOptions (o_role o) (o_selectedUsers o) (o_selectedNodes o) (o_activeNode o) (o_activeLink o) (o_colorPalette o)
    (o_visibleStages o) (o_topNodeLimit o) (o_overflowMode o) false (o_deletedTokenLabel o) (o_otherNodeLabel o).

(** Masking changes neither which nodes and links the graph has nor their
    values. *)
Theorem mask_keeps_flow rows metric o :
  let g := flow (data rows metric o) in
  let g' := flow (data rows metric (unmasked o)) in
  List.map node_shape (g_nodes g) ≡ₚ List.map node_shape (g_nodes g') /\
  List.map link_shape (g_links g) ≡ₚ List.map link_shape (g_links g').
Proof.
  cbv zeta. unfold buildDashboardFlowData. cbv zeta. cbn [flow].
  set (rows' := filterRowsByNodes _ _ _ _). set (go := GraphOptions _ _ _ _ _ _). set (go' := GraphOptions _ _ _ _ _ _).
  destruct (graph_shapes rows' metric (o_role o ?? DEFAULT_FLOW_ROLE) (o_colorPalette o) (o_visibleStages o)
    (o_deletedTokenLabel o) go) as [H1 H2].
  destruct (graph_shapes rows' metric (o_role o ?? DEFAULT_FLOW_ROLE) (o_colorPalette o) (o_visibleStages o)
    (o_deletedTokenLabel o) go') as [H3 H4].
  split; [etransitivity; [exact H1|symmetry; exact H3]|etransitivity; [exact H2|symmetry; exact H4]].
Qed.
End Main.

(** * Filters *)

Lemma normalized_filters sel stages :
  let fs := normalizeSelectedNodeFilters sel stages in
  NoDup fs.*1 /\
  (forall k, k ∈ fs.*1 <-> k ∈ stages /\ exists f, f ∈ sel ?? [] /\ fk_kind f = k) /\
  (forall k i, i ∈ (map_get k fs ?? []) <-> k ∈ stages /\ exists f, f ∈ sel ?? [] /\ fk_kind f = k /\ fk_id f = i).
Proof.
  cbv zeta. unfold normalizeSelectedNodeFilters. generalize (sel ?? []) as l. intros l.
  induction l as [|f l IH] using rev_ind.
  { split; [constructor|]. split; simpl; [intros k|intros k i]; (split; [intros H; by apply elem_of_nil in H|]);
      intros (_ & f & H & _); by apply elem_of_nil in H. }
  rewrite fold_left_app. cbn [fold_left].
  set (m := fold_left _ l []) in *. destruct IH as (Hnd & Hk & Hi).
  assert (Hsnoc : forall P : FlowNodeFilter -> Prop,
    (exists g, g ∈ l ++ [f] /\ P g) <-> (exists g, g ∈ l /\ P g) \/ P f).
  { intros P. setoid_rewrite elem_of_app. setoid_rewrite list_elem_of_singleton. naive_solver. }
  destruct (bool_decide_reflect (fk_kind f ∈ stages)) as [Hin|Hin]; cbn [negb].
  2: { split; [done|]. split; intros; rewrite Hsnoc, ?Hk, ?Hi; naive_solver. }
  split; [by apply map_set_nodup|]. split.
  - intros k. rewrite Hsnoc, map_set_keys. destruct (is_some (map_get (fk_kind f) m)) eqn:E.
    + apply map_get_elem in E. rewrite Hk in E |- *. naive_solver.
    + rewrite elem_of_app, Hk, list_elem_of_singleton. naive_solver.
  - intros k i. rewrite Hsnoc. destruct (decide (k = fk_kind f)) as [->|Hne].
    + rewrite map_get_set_eq. unfold nullish at 1. rewrite uniq_elem, elem_of_app, Hi, list_elem_of_singleton.
      naive_solver.
    + rewrite map_get_set_ne, Hi by done. naive_solver.
Qed.

Lemma path_ids row stages ctx k : k ∈ stages -> NoDup stages ->
  pathIds (flowPathForStages row stages ctx) k = [p_id (NODE_BUILDERS k row ctx)].
Proof.
  unfold pathIds, flowPathForStages. induction stages as [|s t IH]; [set_solver|]. intros Hin [Hni Hnd]%NoDup_cons.
  cbn [List.map List.filter]. rewrite builder_kind.
  destruct (bool_decide_reflect (s = k)) as [->|Hne]; cbn [List.map].
  - f_equal. rewrite filter_none; [done|]. apply Forall_map, Forall_forall. intros s Hs. rewrite builder_kind.
    apply bool_decide_eq_false. by intros ->.
  - apply IH; [set_solver|done].
Qed.

(** The rows kept by the node filters are those that pass through a selected
    node of every visible stage with a selection. *)
Theorem node_filters_spec rows sel stages ctx row :
  NoDup stages ->
  row ∈ filterRowsByNodes rows sel stages ctx <->
  row ∈ rows /\
  Forall (fun k => Exists (fun f => fk_kind f = k) (sel ?? []) ->
                   Exists (fun f => fk_kind f = k /\ fk_id f = p_id (NODE_BUILDERS k row ctx)) (sel ?? [])) stages.
Proof.
  intros Hst. destruct (normalized_filters sel stages) as (Hnd & Hk & Hi).
  assert (Hf : row ∈ filterRowsByNodes rows sel stages ctx <->
    row ∈ rows /\ pathMatchesNodeFilters (flowPathForStages row stages ctx) (normalizeSelectedNodeFilters sel stages) = true).
  { unfold filterRowsByNodes. destruct (normalizeSelectedNodeFilters sel stages) as [|f fs]; [simpl; tauto|].
    by rewrite list_elem_of_In, filter_In, <-list_elem_of_In. }
  rewrite Hf. unfold pathMatchesNodeFilters. rewrite forallb_forall. setoid_rewrite Forall_forall.
  setoid_rewrite Exists_exists. split; intros [Hr H]; (split; [done|]).
  - intros k Hkin (f & Hfin & Hfk).
    assert (k ∈ (normalizeSelectedNodeFilters sel stages).*1) as Hin by (apply Hk; eauto).
    apply list_elem_of_fmap in Hin as ([k' ids] & -> & Hin). cbn [fst] in *.
    specialize (H (k', ids) (proj1 (list_elem_of_In _ _) Hin)). cbn [fst snd] in H.
    apply existsb_exists in H as (i & Hin' & Hb). rewrite path_ids in Hb by done.
    apply bool_decide_eq_true, list_elem_of_singleton in Hb as ->.
    apply list_elem_of_In in Hin'. assert (map_get k' (normalizeSelectedNodeFilters sel stages) = Some ids) as Hg
      by (by apply map_get_in).
    specialize (Hi k' (p_id (NODE_BUILDERS k' row ctx))). rewrite Hg in Hi. apply Hi in Hin' as (_ & g & ? & ? & ?). eauto.
  - intros [k ids] Hin%list_elem_of_In. cbn [fst snd].
    assert (map_get k (normalizeSelectedNodeFilters sel stages) = Some ids) as Hg by (by apply map_get_in).
    assert (k ∈ (normalizeSelectedNodeFilters sel stages).*1) as Hkin
      by (apply list_elem_of_fmap; by exists (k, ids)).
    apply Hk in Hkin as [Hks Hex]. destruct (H k Hks Hex) as (g & Hg1 & Hg2 & Hg3).
    apply existsb_exists. exists (p_id (NODE_BUILDERS k row ctx)). split.
    + apply list_elem_of_In. specialize (Hi k (p_id (NODE_BUILDERS k row ctx))). rewrite Hg in Hi. apply Hi. eauto.
    + apply bool_decide_eq_true. rewrite path_ids by done. by left.
Qed.

(** * Examples *)

Definition ex_row (u : string) (q : Z) : FlowQuotaDataItem :=
  Row JUndef (Some (js u)) None (Some (js "default")) (JNum (num_of_Z 3)) (Some (js "key")) (JNum (num_of_Z 4)) None
    (Some (js "gpt")) (JNum (num_of_Z 10)) (JNum (num_of_Z 1)) (JNum (num_of_Z q)).
Definition ex_rows : list FlowQuotaDataItem := [ex_row "bob" 5; ex_row "alice" 5; ex_row "carol" 2].
Definition ex_options (mask : bool) : FlowBuildOptions :=
  BuildOptions (Some RoleAdmin) None None None None None None (Some (num_of_Z 2)) None mask None None.
Definition ex_data (mask : bool) : ProcessedFlowData :=
  buildDashboardFlowData jstr_order (fun _ => []) num_to_string num_to_string ex_rows MQuota (ex_options mask).

Lemma ex_safe : safe_rows MQuota ex_rows.
Proof.
  split; [|vm_compute; discriminate]. repeat (apply Forall_cons; split; [split; vm_compute; reflexivity|]). constructor.
Qed.

Lemma columns_add_up_witness :
  column (flow (ex_data false)) KUser = column (flow (ex_data false)) KModel /\
  column (flow (ex_data false)) KUser = num_of_Z 12.
Proof.
  destruct (columns_add_up jstr_order (fun _ => []) num_to_string num_to_string ex_rows MQuota (ex_options false) KUser KModel)
    as [H1 H2].
  - exact ex_safe.
  - apply (bool_decide_unpack _). vm_compute. exact I.
  - apply (bool_decide_unpack _). vm_compute. exact I.
  - split; [exact H1|]. etransitivity; [apply H2; discriminate|]. vm_compute. reflexivity.
Defined.

Definition ex_group : DashboardFlowNode :=
  FNode (js "group:default") (js "default") KGroup (num_of_Z 12) (num_of_Z 3) (num_of_Z 12) (num_of_Z 30) (js "#1664FF")
    (js "user:bob") None None.

Lemma flow_balanced_witness :
  (head (data_stages (ex_options false)) = Some KGroup \/
   inflow (flow (ex_data false)) (js "group:default") = num_of_Z 12) /\
  (last (data_stages (ex_options false)) = Some KGroup \/
   outflow (flow (ex_data false)) (js "group:default") = num_of_Z 12).
Proof.
  apply (flow_balanced jstr_order (fun _ => []) num_to_string num_to_string ex_rows MQuota (ex_options false) ex_group).
  - exact ex_safe.
  - repeat constructor; intros []; apply (bool_decide_unpack _); vm_compute; exact I.
  - vm_compute. repeat first [apply list_elem_of_here|apply list_elem_of_further].
Defined.

Lemma top_nodes_bounded_witness : length (kind_ids (g_nodes (flow (ex_data false))) KUser) <= 2 + 1.
Proof. apply (top_nodes_bounded jstr_order (fun _ => []) num_to_string num_to_string ex_rows MQuota (ex_options false)); [reflexivity|left]. Defined.

Lemma mask_hides_labels_witness :
  Forall (fun n => sensitive_id (n_id n) -> hidden (n_label n)) (g_nodes (flow (ex_data true))) /\
  Forall (fun l => (sensitive_id (l_source l) -> hidden (l_sourceLabel l)) /\
                   (sensitive_id (l_target l) -> hidden (l_targetLabel l))) (g_links (flow (ex_data true))).
Proof. apply mask_hides_labels. reflexivity. Defined.

Lemma node_filters_spec_witness :
  ex_row "bob" 5 ∈ filterRowsByNodes ex_rows (Some [NodeFilter KUser (js "user:bob")]) [KUser; KModel] None <->
  ex_row "bob" 5 ∈ ex_rows /\
  Forall (fun k => Exists (fun f => fk_kind f = k) (Some [NodeFilter KUser (js "user:bob")] ?? []) ->
                   Exists (fun f => fk_kind f = k /\ fk_id f = p_id (NODE_BUILDERS k (ex_row "bob" 5) None))
                     (Some [NodeFilter KUser (js "user:bob")] ?? [])) [KUser; KModel].
Proof. apply node_filters_spec. apply (bool_decide_unpack _). vm_compute. exact I. Defined.

(** Masking can change the order of nodes of equal value, since ties are ordered
    by the label, which is masked by then. *)
Theorem mask_changes_order :
  List.map n_id (List.filter (fun n => bool_decide (n_kind n = KUser)) (g_nodes (flow (ex_data false)))) =
    [js "user:alice"; js "user:bob"; js "user:__other__"] /\
  List.map n_id (List.filter (fun n => bool_decide (n_kind n = KUser)) (g_nodes (flow (ex_data true)))) =
    [js "user:bob"; js "user:alice"; js "user:__other__"].
Proof. vm_compute. done. Qed.
