(* ===== verification/BillingExpr.v ===== *)
(** Dynamic billing expressions (web/src/features/pricing/lib/billing-expr.ts):
    the price tiers and the request rules read out of a stored expression, and
    the rule editor's writer.

    The regular expressions of the source are values of [Regex.re]. A thrown
    [SyntaxError] of [JSON.parse] is the left side of a sum; [null] is [None].
    [normalizeTierLabel] (Unicode case mapping) is not modelled. *)

From Stdlib Require Import NArith ZArith Lia ZifyBool ZifyN.
From stdpp Require Import base list gmap strings.
From S2P Require Import Prelude JsString JsNum Json Regex.

(** * Variables *)

Inductive Side := Input | Output | ConditionSide.

Record BillingVar := BVar {
  key : jstr; field : option jstr; tierField : option jstr; label : jstr; shortLabel : jstr;
  side : Side; isBase : bool; isConditionOnly : bool; v_group : option jstr }.

Definition BILLING_VARS : list BillingVar :=
  [BVar (js "p") (Some (js "inputPrice")) (Some (js "input_unit_cost")) (js "Input price") (js "Input") Input true false None;
   BVar (js "c") (Some (js "outputPrice")) (Some (js "output_unit_cost")) (js "Completion price") (js "Output") Output true false None;
   BVar (js "len") None None (js "Input length") (js "Length") ConditionSide false true None;
   BVar (js "cr") (Some (js "cacheReadPrice")) (Some (js "cache_read_unit_cost")) (js "Cache read price") (js "Cache Read")
     Input false false (Some (js "cache"));
   BVar (js "cc") (Some (js "cacheCreatePrice")) (Some (js "cache_create_unit_cost")) (js "Cache create price")
     (js "Cache Write") Input false false (Some (js "cache"));
   BVar (js "cc1h") (Some (js "cacheCreate1hPrice")) (Some (js "cache_create_1h_unit_cost")) (js "Cache create (1h) price")
     (js "Cache Write (1h)") Input false false (Some (js "cache"));
   BVar (js "img") (Some (js "imagePrice")) (Some (js "image_unit_cost")) (js "Image input price") (js "Image In")
     Input false false (Some (js "media"));
   BVar (js "img_o") (Some (js "imageOutputPrice")) (Some (js "image_output_unit_cost")) (js "Image output price")
     (js "Image Out") Output false false (Some (js "media"));
   BVar (js "ai") (Some (js "audioInputPrice")) (Some (js "audio_input_unit_cost")) (js "Audio input price") (js "Audio In")
     Input false false (Some (js "media"));
   BVar (js "ao") (Some (js "audioOutputPrice")) (Some (js "audio_output_unit_cost")) (js "Audio output price") (js "Audio Out")
     Output false false (Some (js "media"))].

Definition BILLING_PRICING_VARS : list BillingVar := List.filter (fun v => negb (isConditionOnly v)) BILLING_VARS.

Definition BILLING_CONDITION_VARS : list jstr :=
  List.map key (List.filter (fun v => isBase v || isConditionOnly v)%bool BILLING_VARS).

Definition BILLING_VAR_KEY_TO_FIELD : list (jstr * jstr) :=
  List.map (fun v => (key v, field v ?? [])) BILLING_PRICING_VARS.

Definition BILLING_EXTRA_VARS : list BillingVar :=
  List.filter (fun v => negb (isBase v) && negb (isConditionOnly v))%bool BILLING_VARS.

(** [field] and [exprVar] of an entry. *)
Definition BILLING_CACHE_VAR_MAP : list (jstr * jstr) :=
  List.map (fun v => (tierField v ?? [], key v)) BILLING_EXTRA_VARS.

(** [\[\d.eE+-\]] and [\[\d.eE+\]] *)
Definition num_unit (c : N) : bool := (is_digit c || one_of (js ".eE+-") c)%bool.
Definition bound_unit (c : N) : bool := (is_digit c || one_of (js ".eE+") c)%bool.
(** [\[^x\]] *)
Definition not_unit (x c : N) : bool := negb (N.eqb c x).
Definition RWss : re := RStar RWs.

Definition BILLING_VAR_REGEX : re :=
  RSeqs [RWordB; RGroup 1 (RAlts (List.map (fun v => RLit (key v)) BILLING_PRICING_VARS));
         RWss; RLit (js "*"); RWss; RGroup 2 (RPlus (RSet num_unit))].

(** * Rules *)

Definition SOURCE_PARAM : jstr := js "param".
Definition SOURCE_HEADER : jstr := js "header".
Definition SOURCE_TIME : jstr := js "time".
Definition MATCH_EQ : jstr := js "eq".
Definition MATCH_CONTAINS : jstr := js "contains".
Definition MATCH_GT : jstr := js "gt".
Definition MATCH_GTE : jstr := js "gte".
Definition MATCH_LT : jstr := js "lt".
Definition MATCH_LTE : jstr := js "lte".
Definition MATCH_EXISTS : jstr := js "exists".
Definition MATCH_RANGE : jstr := js "range".

Inductive TimeFunc := Hour | Minute | Weekday | Month | Day.
Definition TIME_FUNCS : list TimeFunc := [Hour; Minute; Weekday; Month; Day].
Definition tf_str (f : TimeFunc) : jstr :=
  match f with
  | Hour => js "hour" | Minute => js "minute" | Weekday => js "weekday" | Month => js "month" | Day => js "day"
  end.

(** [isTimeFunc], with the function it names. *)
Definition isTimeFunc (s : jstr) : option TimeFunc := List.find (fun f => tf_str f =s s) TIME_FUNCS.

(** An optional sign, digits with an optional fraction, an optional exponent. *)
Definition NUMERIC_LITERAL_REGEX : re :=
  RSeqs [RBol; ROpt (RLit (js "-"));
         RAlts [RSeqs [RPlus RDigit; ROpt (RLit (js ".")); RStar RDigit]; RSeqs [RLit (js "."); RPlus RDigit]];
         ROpt (RSeqs [RSet (one_of (js "eE")); ROpt (RSet (one_of (js "+-"))); RPlus RDigit]); REol].

Definition numeric (s : jstr) : bool := re_test NUMERIC_LITERAL_REGEX s.

Inductive PHSource := Param | Header.
Definition ph_str (s : PHSource) : jstr := match s with Param => SOURCE_PARAM | Header => SOURCE_HEADER end.

Inductive RequestCondition :=
| TimeCondition (timeFunc : TimeFunc) (timezone mode value rangeStart rangeEnd : jstr)
| ParamHeaderCondition (source : PHSource) (path mode value : jstr).

Record RequestRuleGroup := Group {
  conditions : list RequestCondition; multiplier : jstr;
  conditionText : option jstr; matched : option bool }.

Record RequestRuleTrace := Trace { t_cond : jstr; t_multiplier : num; t_matched : bool }.

Inductive CmpOp := OpLt | OpLe | OpGt | OpGe.
Definition op_str (o : CmpOp) : jstr :=
  match o with OpLt => js "<" | OpLe => js "<=" | OpGt => js ">" | OpGe => js ">=" end.
Definition op_of (s : jstr) : option CmpOp := List.find (fun o => op_str o =s s) [OpLt; OpLe; OpGt; OpGe].

Record TierCondition := TCond { c_var : jstr; c_op : CmpOp; c_value : num }.

(** [fields] are the prices, by the name of their field. *)
Record ParsedTier := Tier { t_label : jstr; t_conditions : list TierCondition; fields : list (jstr * num) }.

(** * Tiers *)

(** The expression of the version prefix: [v], digits, a colon, the body. *)
Definition stripExprVersion (exprStr : jstr) : num * jstr :=
  if negb (truthy exprStr) then (num_of_Z 1, [])
  else match re_match (RSeqs [RBol; RLit (js "v"); RGroup 1 (RPlus RDigit); RLit (js ":");
                              RGroup 2 (RStar RAny); REol]) exprStr with
       | Some f => (num_of_string (group_or_empty f 1), group_or_empty f 2)
       | None => (num_of_Z 1, exprStr)
       end.

Definition parseTierBody (bodyStr : jstr) : list (jstr * num) :=
  let coeffs := fold_left (fun co f =>
      let k := group_or_empty f 1 in
      if is_some (map_get k co) then co else map_set k (num_of_string (group_or_empty f 2)) co)
    (exec_all BILLING_VAR_REGEX bodyStr) [] in
  List.map (fun e => (e.2, match map_get e.1 coeffs with Some x => num_or_zero x | None => nzero end))
    BILLING_VAR_KEY_TO_FIELD.

(** A comparison of [p], [c] or [len] with a number, and a chain of them. *)
Definition RVar : re := RAlts [RLit (js "p"); RLit (js "c"); RLit (js "len")].
Definition ROp : re := RAlts [RLit (js "<"); RLit (js "<="); RLit (js ">"); RLit (js ">=")].
Definition RCond : re := RSeqs [RVar; RWss; ROp; RWss; RPlus (RSet bound_unit)].
Definition RAnd : re := RSeqs [RWss; RLit (js "&&"); RWss].
Definition RCondGroup : re := RGroup 1 (RSeq RCond (RStar (RSeq RAnd RCond))).

Definition tierRe : re :=
  RSeqs [ROpt (RSeqs [RCondGroup; RWss; RLit (js "?"); RWss]);
         RLit (jq "tier(`"); RGroup 2 (RStar (RSet (not_unit 34))); RLit (jq "`,"); RWss;
         RGroup 3 (RPlus (RSet (not_unit 41))); RLit (js ")")].

(** The condition of one part of a condition string. *)
Definition parseTierCondition (cp : jstr) : option TierCondition :=
  match re_match (RSeqs [RBol; RGroup 1 RVar; RWss; RGroup 2 ROp; RWss; RGroup 3 (RPlus (RSet bound_unit)); REol])
          (trim cp) with
  | Some f =>
      match op_of (group_or_empty f 2) with
      | Some o => Some (TCond (group_or_empty f 1) o (num_of_string (group_or_empty f 3)))
      | None => None
      end
  | None => None
  end.

Definition parseTierConditions (condStr : jstr) : list TierCondition :=
  if truthy condStr then omap parseTierCondition (split_re RAnd condStr) else [].

Definition parseTiersFromExpr (exprStr : jstr) : list ParsedTier :=
  if negb (truthy exprStr) then []
  else List.map (fun f => Tier (group_or_empty f 2) (parseTierConditions (group_or_empty f 1))
                            (parseTierBody (group_or_empty f 3)))
         (exec_all tierRe (stripExprVersion exprStr).2).

(** * Reading rules *)

Inductive exn := SyntaxError.
Definition bind {A B} (r : exn + A) (f : A -> exn + B) : exn + B :=
  match r with inl e => inl e | inr a => f a end.

Definition depth_step (depth : Z) (c : N) : Z :=
  if (c =? 40)%N then (depth + 1)%Z else if (c =? 41)%N then (depth - 1)%Z else depth.

(** The loop of [splitTopLevelMultiply] and [splitTopLevelAnd] at an index: the
    part [cur] from [start] on, the depth, and the units [skip]ped after a
    separator. *)
Fixpoint split_top (sep : jstr) (skip : nat) (depth : Z) (cur s : jstr) : list jstr :=
  match s with
  | [] => [trim cur]
  | c :: t =>
      match skip with
      | S k => split_top sep k depth cur t
      | O =>
          let d := depth_step depth c in
          if ((d =? 0)%Z && starts_with sep s)%bool then trim cur :: split_top sep (pred (length sep)) d [] t
          else split_top sep 0 d (cur ++ [c]) t
      end
  end.

Definition splitTopLevelMultiply (expr : jstr) : list jstr := List.filter truthy (split_top (js " * ") 0 0 [] expr).
Definition splitTopLevelAnd (expr : jstr) : list jstr := List.filter truthy (split_top (js " && ") 0 0 [] expr).

(** [null] is [None]: a JSON [null] is one too. *)
Definition parseExprLiteral (raw : jstr) : option jv :=
  let text := trim raw in
  if ((text =s js "true") || (text =s js "false"))%bool then Some (JStr text)
  else if numeric text then Some (JStr text)
  else match json_parse text with
       | Some JNull | None => None
       | Some v => Some v
       end.

Definition RTimeFunc : re := RAlts (List.map (fun f => RLit (tf_str f)) TIME_FUNCS).
Definition RNum (i : nat) : re := RGroup i (RPlus (RSet num_unit)).
Definition RPath (i : nat) : re := RGroup i (RPlus (RSet (not_unit 34))).

(** A time at or after [n], or before another one, of the same function and zone. *)
Definition time_range : list re :=
  [RGroup 1 RTimeFunc; RLit (jq "(`"); RPath 2; RLit (jq "`) >= "); RNum 3; RLit (js " || ");
   RBack 1; RLit (jq "(`"); RBack 2; RLit (jq "`) < "); RNum 4].
Definition time_range_re : re := RSeqs ([RBol] ++ time_range ++ [REol]).
Definition time_range_paren_re : re := RSeqs ([RBol; RLit (js "(")] ++ time_range ++ [RLit (js ")"); REol]).
Definition time_cmp_re : re :=
  RSeqs [RBol; RGroup 1 RTimeFunc; RLit (jq "(`"); RPath 2; RLit (jq "`) ");
         RGroup 3 (RAlts [RLit (js "=="); RLit (js ">="); RLit (js "<")]); RLit (js " "); RNum 4; REol].

Definition time_func_of (f : found) : TimeFunc := isTimeFunc (group_or_empty f 1) ?? Hour.

Definition tryParseTimeCondition (expr : jstr) : option RequestCondition :=
  let range f := TimeCondition (time_func_of f) (group_or_empty f 2) MATCH_RANGE [] (group_or_empty f 3)
                   (group_or_empty f 4) in
  match re_match time_range_re expr with
  | Some f => Some (range f)
  | None =>
  match re_match time_range_paren_re expr with
  | Some f => Some (range f)
  | None =>
  match re_match time_cmp_re expr with
  | Some f =>
      let op := group_or_empty f 3 in
      Some (TimeCondition (time_func_of f) (group_or_empty f 2)
              (if op =s js ">=" then MATCH_GTE else if op =s js "<" then MATCH_LT else MATCH_EQ)
              (group_or_empty f 4) [] [])
  | None => None
  end end end.

(** A JSON string: anything but quotes and backslashes, or an escaped unit. *)
Definition RQuoted (i : nat) : re :=
  RGroup i (RSeqs [RLit [34%N];
    RStar (RAlt (RSet (fun c => negb (one_of [34; 92]%N c))) (RSeq (RLit [92%N]) RDot)); RLit [34%N]]).

Definition header_exists_re : re := RSeqs [RBol; RLit (jq "header(`"); RPath 1; RLit (jq "`) != ``"); REol].
Definition param_exists_re : re := RSeqs [RBol; RLit (jq "param(`"); RPath 1; RLit (jq "`) != nil"); REol].
Definition header_contains_re : re :=
  RSeqs [RBol; RLit (jq "has(header(`"); RPath 1; RLit (jq "`), "); RQuoted 2; RLit (js ")"); REol].
Definition param_contains_re : re :=
  RSeqs [RBol; RLit (jq "param(`"); RPath 1; RLit (jq "`) != nil && has(param(`"); RPath 2; RLit (jq "`), ");
         RQuoted 3; RLit (js ")"); REol].
Definition param_cmp_re : re :=
  RSeqs [RBol; RLit (jq "param(`"); RPath 1; RLit (jq "`) != nil && param(`"); RPath 2; RLit (jq "`) ");
         RGroup 3 (RAlts [RLit (js ">"); RLit (js ">="); RLit (js "<"); RLit (js "<=")]); RLit (js " ");
         RNum 4; REol].
Definition eq_re : re :=
  RSeqs [RBol; RGroup 1 (RAlts [RLit SOURCE_PARAM; RLit SOURCE_HEADER]); RLit (jq "(`"); RPath 2;
         RLit (jq "`) == "); RGroup 3 (RPlus RDot); REol].

(** [JSON.parse(m\[i\]) as string], not in a [try]. *)
Definition parsed_value (s : jstr) : exn + jstr :=
  match json_parse s with Some v => inr (jv_to_string v) | None => inl SyntaxError end.

Definition same_paths (f : found) : bool := group_or_empty f 1 =s group_or_empty f 2.

Definition tryParseRequestCondition (expr : jstr) : exn + option RequestCondition :=
  match tryParseTimeCondition expr with
  | Some tc => inr (Some tc)
  | None =>
  match re_match header_exists_re expr with
  | Some f => inr (Some (ParamHeaderCondition Header (group_or_empty f 1) MATCH_EXISTS []))
  | None =>
  match re_match param_exists_re expr with
  | Some f => inr (Some (ParamHeaderCondition Param (group_or_empty f 1) MATCH_EXISTS []))
  | None =>
  match re_match header_contains_re expr with
  | Some f => bind (parsed_value (group_or_empty f 2)) (fun v =>
                inr (Some (ParamHeaderCondition Header (group_or_empty f 1) MATCH_CONTAINS v)))
  | None =>
  let eq :=
    match re_match eq_re expr with
    | Some f =>
        match parseExprLiteral (group_or_empty f 3) with
        | Some v => Some (ParamHeaderCondition (if group_or_empty f 1 =s SOURCE_HEADER then Header else Param)
                            (group_or_empty f 2) MATCH_EQ (jv_to_string v))
        | None => None
        end
    | None => None
    end in
  let cmp :=
    match List.filter same_paths (option_list (re_match param_cmp_re expr)) with
    | f :: _ =>
        let op := group_or_empty f 3 in
        Some (ParamHeaderCondition Param (group_or_empty f 1)
                (if op =s js ">" then MATCH_GT else if op =s js ">=" then MATCH_GTE
                 else if op =s js "<" then MATCH_LT else MATCH_LTE) (group_or_empty f 4))
    | [] => eq
    end in
  match List.filter same_paths (option_list (re_match param_contains_re expr)) with
  | f :: _ => bind (parsed_value (group_or_empty f 3)) (fun v =>
                inr (Some (ParamHeaderCondition Param (group_or_empty f 1) MATCH_CONTAINS v)))
  | [] => inr cmp
  end end end end end.

(** The loop over the parts, up to the first that does not parse. *)
Fixpoint parse_parts {A} (parse : jstr -> exn + option A) (parts : list jstr) : exn + option (list A) :=
  match parts with
  | [] => inr (Some [])
  | p :: t =>
      bind (parse p) (fun r =>
        match r with
        | None => inr None
        | Some c => bind (parse_parts parse t) (fun r' => inr ((fun cs => c :: cs) <$> r'))
        end)
  end.

Definition tryParseRequestConditions (conditionStr : jstr) : exn + option (list RequestCondition) :=
  bind (parse_parts (fun part => tryParseRequestCondition (trim part)) (splitTopLevelAnd conditionStr)) (fun r =>
    inr (match r with Some [] => None | _ => r end)).

(** A parenthesized conditional with a number and 1 in its branches. *)
Definition factor_re : re :=
  RSeqs [RBol; RLit (js "("); RGroup 1 (RPlus RAny); RLit (js " ? "); RNum 2; RLit (js " : 1)"); REol].

Definition tryParseRuleGroupFactor (part : jstr) : exn + option RequestRuleGroup :=
  match re_match factor_re part with
  | None => inr None
  | Some f =>
      bind (tryParseRequestConditions (group_or_empty f 1)) (fun r =>
        inr (match r with
             | Some cs => Some (Group cs (group_or_empty f 2) None None)
             | None => None
             end))
  end.

Fixpoint requestRuleGroupsFromTrace (requestRules : list RequestRuleTrace) : exn + list RequestRuleGroup :=
  match requestRules with
  | [] => inr []
  | rule :: t =>
      let text := trim (t_cond rule) in
      bind (tryParseRequestConditions text) (fun cs =>
        bind (requestRuleGroupsFromTrace t) (fun gs =>
          inr (Group (cs ?? []) (num_to_string (t_multiplier rule)) (Some text) (Some (t_matched rule)) :: gs)))
  end.

Definition tryParseRequestRuleExpr (expr : jstr) : exn + option (list RequestRuleGroup) :=
  let trimmed := trim expr in
  if negb (truthy trimmed) then inr (Some [])
  else parse_parts tryParseRuleGroupFactor (splitTopLevelMultiply trimmed).

(** * Combining *)

(** The loop of [hasFullOuterParens] over the units from the index on. *)
Fixpoint outer_loop (depth : Z) (s : jstr) : bool :=
  match s with
  | [] => (depth =? 0)%Z
  | c :: t =>
      let d := depth_step depth c in
      match t with
      | [] => (d =? 0)%Z
      | _ => if (d =? 0)%Z then false else outer_loop d t
      end
  end.

Definition hasFullOuterParens (expr : jstr) : bool :=
  (starts_with (js "(") expr && ends_with (js ")") expr && outer_loop 0 expr)%bool.

(** [slice(1, -1)] *)
Definition inner (s : jstr) : jstr := slice 1 (pred (length s)) s.

Fixpoint unwrap_loop (fuel : nat) (current : jstr) : jstr :=
  match fuel with
  | O => current
  | S f => if hasFullOuterParens current then unwrap_loop f (trim (inner current)) else current
  end.

(** Every round removes a pair of parentheses. *)
Definition unwrapOuterParens (expr : jstr) : jstr := unwrap_loop (length expr) (trim expr).

Definition is_rule_part (part : jstr) : exn + bool :=
  bind (tryParseRequestRuleExpr part) (fun r => inr (match r with Some (_ :: _) => true | _ => false end)).

(** The [forEach]: the rule parts and the others. *)
Fixpoint partition_parts (parts : list jstr) : exn + (list jstr * list jstr) :=
  match parts with
  | [] => inr ([], [])
  | p :: t =>
      bind (is_rule_part p) (fun b =>
        bind (partition_parts t) (fun '(rs, bs) => inr (if b then (p :: rs, bs) else (rs, p :: bs))))
  end.

(** [billingExpr] and [requestRuleExpr] *)
Definition splitBillingExprAndRequestRules (expr : jstr) : exn + (jstr * jstr) :=
  let trimmed := trim expr in
  if negb (truthy trimmed) then inr ([], [])
  else
    let parts := splitTopLevelMultiply trimmed in
    if Nat.leb (length parts) 1 then inr (trimmed, [])
    else bind (partition_parts parts) (fun '(ruleParts, baseParts) =>
      inr (match ruleParts, baseParts with
           | _ :: _, [b] => (unwrapOuterParens b, join (js " * ") ruleParts)
           | _, _ => (trimmed, [])
           end)).

Definition combineBillingExpr (baseExpr requestRuleExpr : jstr) : jstr :=
  let base := trim baseExpr in
  let rules := trim requestRuleExpr in
  if negb (truthy base) then []
  else if negb (truthy rules) then base
  else js "(" ++ base ++ js ") * " ++ rules.

(** * Editing rules *)

Definition createEmptyCondition : RequestCondition := ParamHeaderCondition Param [] MATCH_EQ [].
Definition createEmptyTimeCondition : RequestCondition :=
  TimeCondition Hour (js "Asia/Shanghai") MATCH_GTE [] [] [].
Definition createEmptyRuleGroup : RequestRuleGroup := Group [createEmptyCondition] [] None None.
Definition createEmptyTimeRuleGroup : RequestRuleGroup := Group [createEmptyTimeCondition] [] None None.

(** [value] and [labelKey] of an option. *)
Definition getRequestRuleMatchOptions (source : jstr) : list (jstr * jstr) :=
  if source =s SOURCE_TIME then
    [(MATCH_EQ, js "Equals"); (MATCH_GTE, js "Greater than or equal"); (MATCH_LT, js "Less than");
     (MATCH_RANGE, js "Overnight range")]
  else
    let base := [(MATCH_EQ, js "Equals"); (MATCH_CONTAINS, js "Contains"); (MATCH_EXISTS, js "Exists")] in
    if source =s SOURCE_HEADER then base
    else base ++ [(MATCH_GT, js "Greater than"); (MATCH_GTE, js "Greater than or equal"); (MATCH_LT, js "Less than");
                  (MATCH_LTE, js "Less than or equal")].

(** A condition some fields of which may be missing. *)
Record PartialCondition := Partial {
  p_source : option jstr; p_timeFunc : option jstr; p_timezone : option jstr; p_path : option jstr;
  p_mode : option jstr; p_value : option jstr; p_rangeStart : option jstr; p_rangeEnd : option jstr }.

Definition whole (c : RequestCondition) : PartialCondition :=
  match c with
  | TimeCondition f tz m v s e =>
      Partial (Some SOURCE_TIME) (Some (tf_str f)) (Some tz) None (Some m) (Some v) (Some s) (Some e)
  | ParamHeaderCondition s p m v => Partial (Some (ph_str s)) None None (Some p) (Some m) (Some v) None None
  end.

Definition mode_or (source : jstr) (mode : option jstr) (d : jstr) : jstr :=
  match mode with
  | Some m => if existsb (fun o => o.1 =s m) (getRequestRuleMatchOptions source) then m else d
  | None => d
  end.

Definition is_source (s : jstr) (cond : option PartialCondition) : bool :=
  match cond with Some c => match p_source c with Some s' => s' =s s | None => false end | None => false end.

Definition normalizeCondition (cond : option PartialCondition) : RequestCondition :=
  let get (f : PartialCondition -> option jstr) := match cond with Some c => f c | None => None end in
  if is_source SOURCE_TIME cond then
    TimeCondition (match get p_timeFunc with Some s => isTimeFunc s ?? Hour | None => Hour end)
      (or_str (get p_timezone ?? []) (js "Asia/Shanghai")) (mode_or SOURCE_TIME (get p_mode) MATCH_GTE)
      (get p_value ?? []) (get p_rangeStart ?? []) (get p_rangeEnd ?? [])
  else
    let source := if is_source SOURCE_HEADER cond then Header else Param in
    ParamHeaderCondition source (get p_path ?? []) (mode_or (ph_str source) (get p_mode) MATCH_EQ) (get p_value ?? []).

Definition buildExprLiteral (mode value : jstr) : jstr :=
  let text := trim value in
  if mode =s MATCH_CONTAINS then json_quote text
  else if ((text =s js "true") || (text =s js "false"))%bool then text
  else if numeric text then text
  else json_quote text.

Definition buildTimeConditionExpr (cond : RequestCondition) : jstr :=
  match normalizeCondition (Some (whole cond)) with
  | ParamHeaderCondition _ _ _ _ => []
  | TimeCondition timeFunc timezone mode value rangeStart rangeEnd =>
      let fn := tf_str timeFunc ++ js "(" ++ json_quote timezone ++ js ")" in
      if mode =s MATCH_RANGE then
        let s := trim rangeStart in
        let e := trim rangeEnd in
        if (negb (numeric s) || negb (numeric e))%bool then []
        else fn ++ js " >= " ++ s ++ js " || " ++ fn ++ js " < " ++ e
      else
        let v := trim value in
        if negb (numeric v) then []
        else fn ++ js " " ++ (if mode =s MATCH_GTE then js ">=" else if mode =s MATCH_LT then js "<" else js "==")
               ++ js " " ++ v
  end.

Definition buildRequestConditionExpr (cond : RequestCondition) : jstr :=
  match cond with
  | TimeCondition _ _ _ _ _ _ => buildTimeConditionExpr cond
  | ParamHeaderCondition _ _ _ _ =>
      match normalizeCondition (Some (whole cond)) with
      | TimeCondition _ _ _ _ _ _ => []
      | ParamHeaderCondition source path0 mode value =>
          let path := trim path0 in
          if negb (truthy path) then []
          else
            let sourceExpr := ph_str source ++ js "(" ++ json_quote path ++ js ")" in
            let cmp op :=
              let numText := trim value in
              if negb (numeric numText) then []
              else sourceExpr ++ js " != nil && " ++ sourceExpr ++ js " " ++ op ++ js " " ++ numText in
            if mode =s MATCH_EXISTS then
              match source with
              | Header => sourceExpr ++ jq " != ``"
              | Param => sourceExpr ++ js " != nil"
              end
            else if mode =s MATCH_CONTAINS then
              let has := js "has(" ++ sourceExpr ++ js ", " ++ buildExprLiteral mode value ++ js ")" in
              match source with
              | Header => has
              | Param => sourceExpr ++ js " != nil && " ++ has
              end
            else if mode =s MATCH_GT then cmp (js ">")
            else if mode =s MATCH_GTE then cmp (js ">=")
            else if mode =s MATCH_LT then cmp (js "<")
            else if mode =s MATCH_LTE then cmp (js "<=")
            else sourceExpr ++ js " == " ++ buildExprLiteral mode value
      end
  end.

Definition combine_conditions (condExprs : list jstr) : jstr :=
  match condExprs with
  | [e] => e
  | _ => join (js " && ") (List.map (fun e => if includes (js " || ") e then js "(" ++ e ++ js ")" else e) condExprs)
  end.

Definition buildRuleGroupFactor (group : RequestRuleGroup) : jstr :=
  let mult := trim (multiplier group) in
  if negb (numeric mult) then []
  else
    match List.filter truthy (List.map buildRequestConditionExpr (conditions group)) with
    | [] => []
    | condExprs => js "(" ++ combine_conditions condExprs ++ js " ? " ++ mult ++ js " : 1)"
    end.

Definition buildRequestRuleExpr (groups : list RequestRuleGroup) : jstr :=
  join (js " * ") (List.filter truthy (List.map buildRuleGroupFactor groups)).

(** * Numbers in expressions *)

Lemma numeric_units t : numeric t = true -> forallb num_unit t = true.
Proof.
  unfold numeric, NUMERIC_LITERAL_REGEX.
  change (RSeqs [RBol; ?a; ?b; ?c; REol]) with (RSeqs (RBol :: [a; b; c] ++ [REol])).
  apply test_within. cbn.
  assert (Hd : forall c, is_digit c = true -> num_unit c = true) by (intros c H; unfold num_unit; by rewrite H).
  repeat split; try done.
  all: intros c; unfold one_of; simpl; rewrite orb_false_r; intros [->%N.eqb_eq | ->%N.eqb_eq]%orb_prop; done.
Qed.

Lemma numeric_nonempty t : numeric t = true -> t <> [].
Proof. by intros H ->. Qed.

(** ** Texts that need no escape *)

Definition path_unit (c : N) : bool :=
  ((32 <=? c) && (c <? 55296) && negb (one_of [34; 92; 38; 124; 40; 41] c))%N.

(** What may stand in a compared text: no parenthesis, [&], [|], or line separator. *)
Definition value_unit (c : N) : bool :=
  ((c <? 65536) && negb (one_of [40; 41; 38; 124; 8232; 8233] c))%N.

Lemma path_unit_plain c : path_unit c = true -> (32 <= c < 55296)%N /\ c <> 34%N /\ c <> 92%N /\ c <> 38%N /\ c <> 124%N /\ c <> 40%N /\ c <> 41%N.
Proof.
  unfold path_unit, one_of. simpl. intros H.
  repeat split; try lia; intros ->; by cbn in H.
Qed.

Lemma quote_body_path p : forallb path_unit p = true -> quote_body p = p.
Proof.
  induction p as [|c t IH]; intros H; [done|]. apply andb_true_iff in H as [Hc Ht].
  apply path_unit_plain in Hc as (? & ? & ? & _). cbn [quote_body].
  assert (is_high c = false) as -> by (unfold is_high, in_range; lia).
  assert (is_low c = false) as -> by (unfold is_low, in_range; lia).
  unfold quote_unit.
  repeat match goal with |- context [(c =? ?k)%N] => rewrite (proj2 (N.eqb_neq c k)) by lia end.
  rewrite (proj2 (N.ltb_ge c 32)) by lia. simpl. by rewrite IH.
Qed.

Lemma json_quote_path p : forallb path_unit p = true -> json_quote p = 34%N :: p ++ [34%N].
Proof. intros H. unfold json_quote. by rewrite quote_body_path. Qed.

Lemma num_unit_plain c :
  num_unit c = true -> (48 <= c <= 57)%N \/ c = 46%N \/ c = 101%N \/ c = 69%N \/ c = 43%N \/ c = 45%N.
Proof.
  unfold num_unit, is_digit, in_range, one_of. simpl. rewrite orb_false_r. lia.
Qed.

(** * Nesting of parentheses *)

Definition depth_of (d : Z) (s : jstr) : Z := fold_left depth_step s d.

(** No prefix closes more than was opened. *)
Fixpoint well (d : Z) (s : jstr) : bool :=
  match s with
  | [] => true
  | c :: t => ((0 <=? depth_step d c)%Z && well (depth_step d c) t)%bool
  end.

Definition nested (s : jstr) : Prop := well 0 s = true /\ depth_of 0 s = 0%Z.

(** The unit [c1] stands inside parentheses only, and they all close. *)
Definition quiet (c1 : N) (d : Z) (s : jstr) : Prop :=
  depth_of d s = 0%Z /\ forall u v, s = u ++ c1 :: v -> depth_of d u <> 0%Z.

Definition no_paren (s : jstr) : bool := forallb (fun c => negb (one_of [40; 41]%N c)) s.

Lemma depth_step_shift d c : depth_step d c = (d + depth_step 0 c)%Z.
Proof. unfold depth_step. repeat case_match; lia. Qed.

Lemma depth_of_app d u v : depth_of d (u ++ v) = depth_of (depth_of d u) v.
Proof. apply fold_left_app. Qed.

Lemma depth_of_shift d s : depth_of d s = (d + depth_of 0 s)%Z.
Proof.
  revert d. induction s as [|c t IH]; intros d; unfold depth_of; simpl; [lia|].
  fold (depth_of (depth_step d c) t) (depth_of (depth_step 0 c) t).
  rewrite (IH (depth_step d c)), (IH (depth_step 0 c)), (depth_step_shift d c). lia.
Qed.

Lemma well_app d u v : well d (u ++ v) = (well d u && well (depth_of d u) v)%bool.
Proof. revert d. induction u as [|c t IH]; intros d; simpl; [done|]. by rewrite IH, andb_assoc. Qed.

Lemma well_mono d d' s : (d <= d')%Z -> well d s = true -> well d' s = true.
Proof.
  revert d d'. induction s as [|c t IH]; intros d d' Hd; simpl; [done|].
  rewrite (depth_step_shift d), (depth_step_shift d'). intros [Hc Ht]%andb_true_iff.
  apply andb_true_iff. split; [lia|]. by apply (IH (d + depth_step 0 c)%Z); [lia|].
Qed.

Lemma well_depth d u v : (0 <= d)%Z -> well d (u ++ v) = true -> (0 <= depth_of d u)%Z.
Proof.
  revert d. induction u as [|c t IH]; intros d Hd; [done|]. simpl. intros [Hc Ht]%andb_true_iff.
  apply (IH (depth_step d c)); [lia|done].
Qed.

Lemma nested_nil : nested [].
Proof. done. Qed.

Lemma nested_app u v : nested u -> nested v -> nested (u ++ v).
Proof. intros [Hu Eu] [Hv Ev]. split; [by rewrite well_app, Hu, Eu|by rewrite depth_of_app, Eu]. Qed.

Lemma nested_paren s : nested s -> nested (40%N :: s ++ [41%N]).
Proof.
  intros [Hs Es]. split.
  - change (well 1 (s ++ [41%N]) = true). rewrite well_app, (well_mono 0 1 s), (depth_of_shift 1), Es; done.
  - change (depth_of 1 (s ++ [41%N]) = 0%Z). by rewrite depth_of_app, (depth_of_shift 1), Es.
Qed.

Lemma no_paren_step d c : negb (one_of [40; 41]%N c) = true -> depth_step d c = d.
Proof. unfold one_of, depth_step. simpl. intros H. by repeat (case_match; try lia). Qed.

Lemma no_paren_depth d s : no_paren s = true -> depth_of d s = d.
Proof.
  revert d. induction s as [|c t IH]; intros d; [done|]. intros [Hc Ht]%andb_true_iff.
  change (depth_of (depth_step d c) t = d). rewrite no_paren_step by done. by apply IH.
Qed.

Lemma nested_plain s : no_paren s = true -> nested s.
Proof.
  intros Hs. split; [|by apply no_paren_depth].
  induction s as [|c t IH]; [done|]. apply andb_true_iff in Hs as [Hc Ht]. simpl.
  rewrite no_paren_step by done. by rewrite IH.
Qed.

Lemma quiet_absent c1 s : nested s -> c1 ∉ s -> quiet c1 0 s.
Proof. intros [_ E] Hn. split; [done|]. intros u v ->. exfalso. apply Hn. set_solver. Qed.

Lemma quiet_paren c1 s : nested s -> c1 <> 40%N -> c1 <> 41%N -> quiet c1 0 (40%N :: s ++ [41%N]).
Proof.
  intros Hs H1 H2. split; [apply (nested_paren s Hs)|].
  intros [|c u] v E; injection E as <- E; [done|]. change (depth_of 1 u <> 0)%Z. rewrite depth_of_shift.
  destruct v as [|x v' _] using rev_ind.
  - apply app_inj_tail in E as [_ ?]. done.
  - change (u ++ c1 :: v' ++ [x]) with (u ++ (c1 :: v') ++ [x]) in E. rewrite app_assoc in E.
    apply app_inj_tail in E as [-> _]. pose proof (well_depth 0 u (c1 :: v') ltac:(lia) (proj1 Hs)). lia.
Qed.

(** ** Splitting at the top level *)

(** A part the scan crosses without splitting. *)
Lemma split_top_part c1 sep' d cur p rest :
  c1 <> 40%N -> c1 <> 41%N -> quiet c1 d p -> last p <> Some 32%N ->
  split_top (32%N :: c1 :: sep') 0 d cur (p ++ rest) = split_top (32%N :: c1 :: sep') 0 0 (cur ++ p) rest.
Proof.
  intros H1 H2. revert d cur. induction p as [|c t IH]; intros d cur [E Hq] Hl.
  - simpl. rewrite app_nil_r. by rewrite <-E.
  - assert (Hq' : quiet c1 (depth_step d c) t).
    { split; [done|]. intros u v ->. apply (Hq (c :: u) v). done. }
    assert (Hno : ((depth_step d c =? 0)%Z && starts_with (32%N :: c1 :: sep') (c :: t ++ rest))%bool = false).
    { destruct (Z.eqb_spec (depth_step d c) 0) as [Hz|]; [|done]. simpl.
      unfold starts_with. cbn [strip_prefix]. destruct (N.eqb_spec 32 c) as [<-|]; [|done].
      destruct t as [|c2 t]; [done|]. cbn [app]. destruct (N.eqb_spec c1 c2) as [<-|]; [|done].
      exfalso. apply (Hq [32%N] t); [done|]. exact Hz. }
    cbn [app split_top]. rewrite Hno, IH; [by rewrite <-app_assoc|done|].
    destruct t; [done|]. exact Hl.
Qed.

Lemma split_top_skip sep n d cur u rest :
  length u = n -> split_top sep n d cur (u ++ rest) = split_top sep 0 d cur rest.
Proof. revert u. induction n as [|n IH]; intros [|c u] Hu; try done. simpl. apply IH. by simplify_eq/=. Qed.

Lemma split_top_sep c1 sep' cur rest :
  split_top (32%N :: c1 :: sep') 0 0 cur ((32%N :: c1 :: sep') ++ rest) =
  trim cur :: split_top (32%N :: c1 :: sep') 0 0 [] rest.
Proof.
  pose proof (split_top_skip (32%N :: c1 :: sep') _ 0 [] (c1 :: sep') rest eq_refl) as Hs.
  rewrite <-Hs. clear Hs. pose proof (starts_with_app (32%N :: c1 :: sep') rest) as H.
  cbn [app] in H |- *. cbn [split_top]. rewrite H. done.
Qed.

(** Parts joined by the separator are found again. *)
Lemma split_top_join c1 sep' parts :
  c1 <> 40%N -> c1 <> 41%N ->
  Forall (fun p => quiet c1 0 p /\ trimmed p /\ p <> []) parts -> parts <> [] ->
  List.filter truthy (split_top (32%N :: c1 :: sep') 0 0 [] (join (32%N :: c1 :: sep') parts)) = parts.
Proof.
  intros H1 H2. induction parts as [|p [|q parts] IH]; intros Hp Hn; [done| |];
    apply Forall_cons in Hp as [(Hq & Ht & Hne) Hp];
    assert (Hl : last p <> Some 32%N) by (intros Hl; by pose proof (proj2 Ht _ Hl)).
  - simpl. rewrite <-(app_nil_r p) at 1. rewrite split_top_part by done.
    simpl. rewrite trim_id by done. by rewrite (proj2 (truthy_true p)).
  - rewrite join_cons2, split_top_part, split_top_sep by done.
    cbn [List.filter app]. rewrite trim_id, (proj2 (truthy_true p)) by done. f_equal. by apply IH.
Qed.

(** * Quoted texts *)

(** A sequence of plain units and of escaped ones. *)
Inductive escaped : jstr -> Prop :=
| escaped_nil : escaped []
| escaped_unit c t : c <> 34%N -> c <> 92%N -> escaped t -> escaped (c :: t)
| escaped_pair d t : is_line_end d = false -> escaped t -> escaped (92%N :: d :: t).

Lemma escaped_app u v : escaped u -> escaped v -> escaped (u ++ v).
Proof. induction 1; simpl; [done| |]; by constructor; auto. Qed.

Lemma hex_digit_plain n : (n < 16)%N -> hex_digit n <> 34%N /\ hex_digit n <> 92%N /\ one_of [40; 41; 38; 124; 8232; 8233]%N (hex_digit n) = false.
Proof.
  intros Hn. unfold hex_digit, one_of. cbn [existsb]. destruct (N.ltb_spec n 10); repeat split; lia.
Qed.

Lemma escaped_unicode c : (c < 65536)%N -> escaped (unicode_escape c).
Proof.
  intros Hc. unfold unicode_escape. apply escaped_pair; [done|].
  assert (c / 4096 < 16)%N by (apply N.Div0.div_lt_upper_bound; lia).
  repeat (apply escaped_unit; [apply hex_digit_plain; first [lia | by apply N.mod_lt]..|]); constructor.
Qed.

Lemma escaped_quote_unit c : (c < 65536)%N -> escaped (quote_unit c).
Proof.
  intros Hc. unfold quote_unit.
  repeat match goal with |- context [(c =? ?k)%N] => destruct (N.eqb_spec c k) as [->|?]; [by repeat constructor|] end.
  destruct (N.ltb_spec c 32); [by apply escaped_unicode|]. by repeat constructor.
Qed.

(** A property of the units of a quoted text, by the cases of the quoting. *)
Lemma quote_body_ind (P : jstr -> Prop) (Q : N -> Prop) s :
  P [] -> (forall u v, P u -> P v -> P (u ++ v)) ->
  (forall c, Q c -> P (unicode_escape c)) -> (forall c, Q c -> P (quote_unit c)) ->
  (forall c, Q c -> is_high c = true \/ is_low c = true -> P [c]) ->
  Forall Q s -> P (quote_body s).
Proof.
  intros Hnil Happ Hu Hq Hp. remember (length s) as n eqn:Hn. revert s Hn.
  induction (lt_wf n) as [n _ IH]. intros [|c s] ->; [done|]. intros [Hc Hs]%Forall_cons. cbn [quote_body].
  assert (Hone : P (quote_body s)) by (apply (IH (length s)); [simpl; lia|done|done]).
  destruct (is_high c) eqn:Eh.
  - destruct s as [|d s]; [by apply Hu|]. destruct (is_low d) eqn:El.
    + apply Forall_cons in Hs as [Hd Hs].
      change (P ([c] ++ [d] ++ quote_body s)). repeat apply Happ; [auto..|].
      apply (IH (length s)); [simpl; lia|done|done].
    + apply Happ; auto.
  - destruct (is_low c); apply Happ; auto.
Qed.

Lemma quote_body_escaped s : units_ok s -> escaped (quote_body s).
Proof.
  apply quote_body_ind; [constructor|apply escaped_app|apply escaped_unicode|apply escaped_quote_unit|].
  intros c _ Hc. apply escaped_unit; [| |constructor]; intros ->; by destruct Hc.
Qed.

(** ** Matching a quoted text *)

Lemma escaped_loop k n s b t x :
  rest s = b ++ 34%N :: t -> escaped b -> length b < n -> k (adv s b (34%N :: t)) = Some x ->
  rep_loop (m (RAlt (RSet (fun c => negb (one_of [34; 92]%N c))) (RSeq (RLit [92%N]) RDot))) [] k n 0 None s = Some x.
Proof.
  intros Hr Hb. revert n s Hr. induction Hb as [|c b H1 H2 Hb IH|d b Hd Hb IH]; intros n s Hr Hn Hk; cbn [length app] in *.
  - destruct n as [|n]; [lia|]. rewrite <-Hr, adv_nil in Hk. cbn [rep_loop clear_caps].
    rewrite m_alt_miss, m_seq, m_lit_fail; [done|by rewrite Hr|]. cbn [m]. by rewrite Hr.
  - destruct n as [|n]; [lia|]. cbn [rep_loop clear_caps].
    set (body := m (RAlt _ _)) in *. unfold body at 1. cbn [m]. rewrite Hr. unfold one_of. cbn [existsb].
    rewrite (proj2 (N.eqb_neq c 34)), (proj2 (N.eqb_neq c 92)) by done. cbn [orb negb].
    cbn [Nat.eqb andb pred fmap option_fmap option_map length adv rest].
    assert (Hlen : Nat.eqb (length (b ++ 34%N :: t)) (S (length (b ++ 34%N :: t))) = false) by (apply Nat.eqb_neq; lia).
    rewrite Hlen, (IH n (adv s [c] (b ++ 34%N :: t))); [done|done|lia|].
    by rewrite (adv_adv s [c] b (34%N :: t)).
  - destruct n as [|n]; [lia|]. cbn [rep_loop clear_caps].
    set (body := m (RAlt _ _)) in *. unfold body at 1. rewrite m_alt_miss by (cbn [m]; by rewrite Hr).
    rewrite m_seq, (m_lit _ _ _ (d :: b ++ 34%N :: t)) by done. cbn [m RDot adv rest]. rewrite Hd. cbn [negb].
    rewrite Hr. cbn [Nat.eqb andb pred fmap option_fmap option_map length adv rest].
    assert (Hlen : Nat.eqb (length (b ++ 34%N :: t)) (S (S (length (b ++ 34%N :: t)))) = false) by (apply Nat.eqb_neq; lia).
    rewrite Hlen. erewrite (IH n); [reflexivity|done|lia|].
    pose proof (adv_adv s [92%N] [d] (b ++ 34%N :: t)) as E. cbn [app] in E.
    by rewrite E, (adv_adv s [92%N; d] b).
Qed.

Lemma m_quoted i k s v t x :
  rest s = json_quote v ++ t -> units_ok v ->
  k (set_cap i (json_quote v) (adv s (json_quote v) t)) = Some x -> m (RQuoted i) k s = Some x.
Proof.
  intros Hr Hv Hk. unfold RQuoted. cbn [RSeqs]. rewrite m_group, m_seq.
  unfold json_quote in Hr. rewrite <-app_comm_cons, <-app_assoc in Hr.
  rewrite (m_lit _ _ _ (quote_body v ++ 34%N :: t)) by done. rewrite m_seq. cbn [m RStar].
  eapply escaped_loop; [done|by apply quote_body_escaped|simpl; rewrite length_app; lia|].
  cbn [m strip_prefix adv rest N.eqb Pos.eqb].
  rewrite (adv_adv s [34%N] (quote_body v) (34%N :: t)). cbn [app].
  pose proof (adv_adv s (34%N :: quote_body v) [34%N] t) as E. cbn [app] in E. cbn [app]. rewrite E. clear E.
  change ((34%N :: quote_body v) ++ [34%N]) with (json_quote v).
  rewrite consumed_adv; [done|]. rewrite Hr. unfold json_quote. simpl. by rewrite <-app_assoc.
Qed.

(** * Reading a condition back *)

Ltac re_unfold :=
  cbv delta [time_range_re time_range_paren_re time_cmp_re time_range header_exists_re param_exists_re header_contains_re
    param_contains_re param_cmp_re eq_re RPath RNum RPlus RTimeFunc RDot] beta;
  cbn [RSeqs RAlts app List.map TIME_FUNCS tf_str].
Ltac re_miss := re_unfold; apply match_miss; norm_lits; repeat re_step; reflexivity.
Ltac re_hit := re_unfold; eapply match_hit; [norm_lits; repeat re_step; reflexivity|reflexivity].
Ltac miss r :=
  match goal with |- context [re_match r ?t] =>
    let H := fresh in assert (re_match r t = None) as H by re_miss; rewrite H; clear H
  end.
Ltac hit r cs :=
  match goal with |- context [re_match r ?t] =>
    let H := fresh in let f := fresh "f" in let Hc := fresh "Hc" in
    assert (exists f, re_match r t = Some f /\ f_caps f = cs) as H by re_hit;
    destruct H as (f & H & Hc); rewrite H; clear H
  end.
Ltac use_caps := unfold time_func_of, same_paths, group_or_empty, group;
  repeat match goal with H : f_caps ?f = _ |- _ => rewrite !H; clear H end; cbn [cap_get Nat.eqb nullish].

Lemma json_parse_quote v : units_ok v -> json_parse (json_quote v) = Some (JStr v).
Proof. intros H. by apply (json_parse_stringify (JStr v)). Qed.

Section Texts.
Context (p : jstr) (Hp : forallb (not_unit 34) p = true) (Hl : 1 <= length p).

Lemma read_header_exists :
  tryParseRequestCondition (jq "header(`" ++ p ++ jq "`) != ``") = inr (Some (ParamHeaderCondition Header p MATCH_EXISTS [])).
Proof.
  unfold tryParseRequestCondition, tryParseTimeCondition.
  miss time_range_re. miss time_range_paren_re. miss time_cmp_re. hit header_exists_re [(1, p)]. by use_caps.
Qed.

Lemma read_param_exists :
  tryParseRequestCondition (jq "param(`" ++ p ++ jq "`) != nil") = inr (Some (ParamHeaderCondition Param p MATCH_EXISTS [])).
Proof.
  unfold tryParseRequestCondition, tryParseTimeCondition.
  miss time_range_re. miss time_range_paren_re. miss time_cmp_re. miss header_exists_re.
  hit param_exists_re [(1, p)]. by use_caps.
Qed.

Lemma read_eq s lit v :
  forallb (fun c => negb (is_line_end c)) lit = true -> 1 <= length lit -> parseExprLiteral lit = Some v ->
  tryParseRequestCondition (ph_str s ++ jq "(`" ++ p ++ jq "`) == " ++ lit) =
  inr (Some (ParamHeaderCondition s p MATCH_EQ (jv_to_string v))).
Proof.
  intros H1 H2 Hv. unfold tryParseRequestCondition, tryParseTimeCondition. destruct s; cbn [ph_str].
  all: unfold SOURCE_PARAM, SOURCE_HEADER.
  all: miss time_range_re; miss time_range_paren_re; miss time_cmp_re; miss header_exists_re; miss param_exists_re;
    miss header_contains_re; miss param_contains_re; miss param_cmp_re.
  - hit eq_re [(3, lit); (2, p); (1, js "param")]. cbn [option_list List.filter]. use_caps. by rewrite Hv.
  - hit eq_re [(3, lit); (2, p); (1, js "header")]. cbn [option_list List.filter]. use_caps. by rewrite Hv.
Qed.

Lemma read_header_contains v :
  units_ok v ->
  tryParseRequestCondition (jq "has(header(`" ++ p ++ jq "`), " ++ json_quote v ++ js ")") =
  inr (Some (ParamHeaderCondition Header p MATCH_CONTAINS v)).
Proof.
  intros Hv. unfold tryParseRequestCondition, tryParseTimeCondition.
  miss time_range_re. miss time_range_paren_re. miss time_cmp_re. miss header_exists_re. miss param_exists_re.
  match goal with |- context [re_match ?r ?t] => assert (exists f, re_match r t = Some f /\ f_caps f = [(2, json_quote v); (1, p)]) as (f & -> & Hc) end.
  { re_unfold. eapply match_hit; [norm_lits; do 5 re_step|].
    - eapply m_quoted; [reflexivity|done|]. repeat re_step. reflexivity.
    - reflexivity. }
  use_caps. unfold parsed_value. by rewrite json_parse_quote.
Qed.

(** The two halves of a comparison of a parameter do not parse. *)
Lemma read_param_cmp_half op n :
  op ∈ [js ">"; js ">="; js "<"; js "<="] -> forallb num_unit n = true -> 1 <= length n ->
  tryParseRequestCondition (jq "param(`" ++ p ++ jq "`) " ++ op ++ js " " ++ n) = inr None.
Proof.
  intros Hop Hn Hln. unfold tryParseRequestCondition, tryParseTimeCondition.
  repeat (apply elem_of_cons in Hop as [->|Hop]); [..|by apply elem_of_nil in Hop].
  all: miss time_range_re; miss time_range_paren_re; miss time_cmp_re; miss header_exists_re; miss param_exists_re;
    miss header_contains_re; miss param_contains_re; miss param_cmp_re; miss eq_re; reflexivity.
Qed.

Lemma read_param_has_half v :
  tryParseRequestCondition (jq "has(param(`" ++ p ++ jq "`), " ++ json_quote v ++ js ")") = inr None.
Proof.
  unfold tryParseRequestCondition, tryParseTimeCondition.
  miss time_range_re; miss time_range_paren_re; miss time_cmp_re; miss header_exists_re; miss param_exists_re;
    miss header_contains_re; miss param_contains_re; miss param_cmp_re; miss eq_re; reflexivity.
Qed.

Section Times.
Context (f : TimeFunc) (a b : jstr) (Ha : forallb num_unit a = true) (Hla : 1 <= length a).
Context (Hb : forallb num_unit b = true) (Hlb : 1 <= length b).

Definition range_text : jstr :=
  tf_str f ++ jq "(`" ++ p ++ jq "`) >= " ++ a ++ js " || " ++ tf_str f ++ jq "(`" ++ p ++ jq "`) < " ++ b.

Lemma isTimeFunc_str : isTimeFunc (tf_str f) = Some f.
Proof. by destruct f. Qed.

Lemma range_hit : exists g, re_match time_range_re range_text = Some g /\ f_caps g = [(4, b); (3, a); (2, p); (1, tf_str f)].
Proof. unfold range_text. destruct f; cbn [tf_str]; re_hit. Qed.

Lemma range_paren_miss : re_match time_range_re (js "(" ++ range_text ++ js ")") = None.
Proof. unfold range_text. destruct f; cbn [tf_str]; re_miss. Qed.

Lemma range_paren_hit : exists g, re_match time_range_paren_re (js "(" ++ range_text ++ js ")") = Some g /\
  f_caps g = [(4, b); (3, a); (2, p); (1, tf_str f)].
Proof. unfold range_text. destruct f; cbn [tf_str]; re_hit. Qed.

Lemma read_range : tryParseRequestCondition range_text = inr (Some (TimeCondition f p MATCH_RANGE [] a b)).
Proof.
  unfold tryParseRequestCondition, tryParseTimeCondition. destruct range_hit as (g & -> & Hc).
  use_caps. by rewrite isTimeFunc_str.
Qed.

Lemma read_range_paren :
  tryParseRequestCondition (js "(" ++ range_text ++ js ")") = inr (Some (TimeCondition f p MATCH_RANGE [] a b)).
Proof.
  unfold tryParseRequestCondition, tryParseTimeCondition. rewrite range_paren_miss.
  destruct range_paren_hit as (g & -> & Hc). use_caps. by rewrite isTimeFunc_str.
Qed.

Definition time_op (mode : jstr) : jstr :=
  if mode =s MATCH_GTE then js ">=" else if mode =s MATCH_LT then js "<" else js "==".

Lemma read_time_cmp mode :
  mode ∈ [MATCH_EQ; MATCH_GTE; MATCH_LT] ->
  tryParseRequestCondition (tf_str f ++ jq "(`" ++ p ++ jq "`) " ++ time_op mode ++ js " " ++ a) =
  inr (Some (TimeCondition f p mode a [] [])).
Proof.
  intros Hm. unfold tryParseRequestCondition, tryParseTimeCondition, time_op.
  repeat (apply elem_of_cons in Hm as [->|Hm]); [..|by apply elem_of_nil in Hm].
  all: cbv [MATCH_EQ MATCH_GTE MATCH_LT]; 
    repeat match goal with |- context [js ?u =s js ?w] =>
      let v := eval vm_compute in (js u =s js w) in change (js u =s js w) with v end; cbn iota.
  all: destruct f; cbn [tf_str]; miss time_range_re; miss time_range_paren_re.
  all: match goal with |- context [re_match _ (js ?t ++ jq "(`" ++ p ++ jq "`) " ++ js ?o ++ _)] =>
         hit time_cmp_re [(4, a); (3, js o); (2, p); (1, js t)] end; use_caps; reflexivity.
Qed.
End Times.
End Texts.

(** * What the rule editor writes is what it reads *)

(** The condition an edited one stands for, or none when it cannot be written. *)
Definition canonicalCondition (c : RequestCondition) : option RequestCondition :=
  match c with
  | TimeCondition f tz mode v s e =>
      let tz := or_str tz (js "Asia/Shanghai") in
      if mode =s MATCH_RANGE then
        if (numeric (trim s) && numeric (trim e))%bool then Some (TimeCondition f tz MATCH_RANGE [] (trim s) (trim e))
        else None
      else if numeric (trim v) then
        Some (TimeCondition f tz (if bool_decide (mode ∈ [MATCH_EQ; MATCH_LT]) then mode else MATCH_GTE) (trim v) [] [])
      else None
  | ParamHeaderCondition s p mode v =>
      if negb (truthy (trim p)) then None
      else Some (ParamHeaderCondition s (trim p)
                   (if bool_decide (mode ∈ [MATCH_EXISTS; MATCH_CONTAINS]) then mode else MATCH_EQ)
                   (if mode =s MATCH_EXISTS then [] else trim v))
  end.

Definition canonicalGroup (g : RequestRuleGroup) : option RequestRuleGroup :=
  match numeric (trim (multiplier g)), omap canonicalCondition (conditions g) with
  | true, c :: cs => Some (Group (c :: cs) (trim (multiplier g)) None None)
  | _, _ => None
  end.

(** The conditions whose written form is read back: no comparison or [contains]
    of a parameter, and texts without the units the readers look for. *)
Definition readable (c : RequestCondition) : bool :=
  match c with
  | TimeCondition _ tz _ _ _ _ => forallb path_unit tz
  | ParamHeaderCondition s p mode v =>
      (forallb path_unit (trim p) && forallb value_unit (trim v) &&
       match s with
       | Param => negb (bool_decide (mode ∈ [MATCH_CONTAINS; MATCH_GT; MATCH_GTE; MATCH_LT; MATCH_LTE]))
       | Header => true
       end)%bool
  end.

(** ** Written texts *)

Definition flat (c : N) : bool := negb (one_of [40; 41; 38; 124]%N c).

Lemma flat_plain c : flat c = true <-> c <> 40%N /\ c <> 41%N /\ c <> 38%N /\ c <> 124%N.
Proof. unfold flat, one_of. cbn [existsb]. lia. Qed.

Lemma forallb_impl (P Q : N -> bool) s :
  (forall c, P c = true -> Q c = true) -> forallb P s = true -> forallb Q s = true.
Proof. intros H. rewrite !forallb_forall. auto. Qed.

Lemma path_flat s : forallb path_unit s = true -> forallb flat s = true.
Proof. apply forallb_impl. intros c H%path_unit_plain. apply flat_plain. tauto. Qed.

Lemma path_no_quote s : forallb path_unit s = true -> forallb (not_unit 34) s = true.
Proof. apply forallb_impl. intros c H%path_unit_plain. unfold not_unit. lia. Qed.

Lemma num_flat s : forallb num_unit s = true -> forallb flat s = true.
Proof. apply forallb_impl. intros c H%num_unit_plain. apply flat_plain. lia. Qed.

Lemma flat_no_paren s : forallb flat s = true -> no_paren s = true.
Proof. apply forallb_impl. intros c H%flat_plain. unfold one_of. cbn [existsb]. lia. Qed.

Lemma flat_not_in c s : flat c = false -> forallb flat s = true -> c ∉ s.
Proof. intros Hc Hs Hin%list_elem_of_In. rewrite forallb_forall in Hs. by rewrite Hs in Hc. Qed.

(** The units of a quoted value: neither line ends nor structural ones. *)
Definition calm (c : N) : bool := (negb (is_line_end c) && flat c)%bool.

Lemma unicode_calm c : (c < 65536)%N -> forallb calm (unicode_escape c) = true.
Proof.
  intros Hc. unfold unicode_escape.
  assert (Hd : forall n, (n < 16)%N -> calm (hex_digit n) = true).
  { intros n Hn. unfold hex_digit, calm, is_line_end, flat, one_of. cbn [existsb]. destruct (N.ltb_spec n 10); lia. }
  assert (c / 4096 < 16)%N by (apply N.Div0.div_lt_upper_bound; lia).
  cbn [forallb]. by rewrite !Hd by first [lia | by apply N.mod_lt].
Qed.

Lemma value_unit_plain c : value_unit c = true -> (c < 65536)%N /\ flat c = true /\ c <> 8232%N /\ c <> 8233%N.
Proof. unfold value_unit, flat, one_of. cbn [existsb]. lia. Qed.

Lemma quote_unit_calm c : value_unit c = true -> forallb calm (quote_unit c) = true.
Proof.
  intros Hv. destruct (value_unit_plain c Hv) as (Hc & Hf & H1 & H2). unfold quote_unit.
  repeat match goal with |- context [(c =? ?k)%N] => destruct (N.eqb_spec c k) as [->|?]; [reflexivity|] end.
  destruct (N.ltb_spec c 32); [by apply unicode_calm|].
  cbn [forallb]. unfold calm. rewrite Hf. unfold is_line_end. lia.
Qed.

Lemma quote_calm s : forallb value_unit s = true -> forallb calm (json_quote s) = true.
Proof.
  intros Hs. unfold json_quote. cbn [forallb]. rewrite forallb_app.
  assert (forallb calm (quote_body s) = true) as ->; [|done].
  apply (quote_body_ind (fun u => forallb calm u = true) (fun c => value_unit c = true)).
  - done.
  - intros u v Hu Hv. by rewrite forallb_app, Hu, Hv.
  - intros c [Hc _]%value_unit_plain. by apply unicode_calm.
  - apply quote_unit_calm.
  - intros c Hv Hc. destruct (value_unit_plain c Hv) as (_ & Hf & H1 & H2). cbn [forallb]. unfold calm. rewrite Hf.
    unfold is_high, is_low, in_range, is_line_end in *. lia.
  - apply Forall_forall. intros x Hx%list_elem_of_In. rewrite forallb_forall in Hs. auto.
Qed.

Lemma value_units_ok s : forallb value_unit s = true -> units_ok s.
Proof.
  intros Hs. apply Forall_forall. intros x Hx%list_elem_of_In. rewrite forallb_forall in Hs.
  by apply value_unit_plain, Hs.
Qed.

(** ** The literal of a value *)

Lemma num_unit_calm s : forallb num_unit s = true -> forallb calm s = true.
Proof. apply forallb_impl. intros c H%num_unit_plain. unfold calm, is_line_end, flat, one_of. cbn [existsb]. lia. Qed.

Lemma num_trimmed s : forallb num_unit s = true -> trimmed s.
Proof.
  intros H. apply trimmed_no_ws. revert H. apply forallb_impl. intros c H%num_unit_plain.
  apply negb_true_iff. destruct H as [H|[->|[->|[->|[->| ->]]]]]; [|done..].
  apply digit_not_ws. unfold is_digit, in_range. lia.
Qed.

Lemma last_app_end u (v : jstr) : v <> [] -> last (u ++ v) = last v.
Proof. destruct v as [|c v _] using rev_ind; [done|]. intros _. by rewrite app_assoc, !last_snoc. Qed.

Lemma quote_trimmed s : trimmed (json_quote s).
Proof.
  split; intros c; [by intros [= <-]|].
  unfold json_quote. rewrite app_comm_cons, last_snoc. by intros [= <-].
Qed.

Lemma literal_eq v (lit := buildExprLiteral MATCH_EQ v) :
  forallb value_unit (trim v) = true ->
  forallb calm lit = true /\ 1 <= length lit /\ trimmed lit /\
  exists w, parseExprLiteral lit = Some w /\ jv_to_string w = trim v.
Proof.
  unfold lit, buildExprLiteral. intros Hv. change (MATCH_EQ =s MATCH_CONTAINS) with false. cbn iota.
  destruct ((trim v =s js "true") || (trim v =s js "false"))%bool eqn:Eb.
  { apply orb_prop in Eb as [->%jstr_eqb_true | ->%jstr_eqb_true].
    all: split; [done|]; split; [simpl; lia|]; split; [by apply trimmed_no_ws|]; by eexists. }
  destruct (numeric (trim v)) eqn:En.
  { pose proof (numeric_units _ En) as Hu. split; [by apply num_unit_calm|].
    split; [pose proof (numeric_nonempty _ En); destruct (trim v); [done|simpl; lia]|].
    split; [apply trim_trimmed|]. unfold parseExprLiteral. rewrite trim_idemp, Eb, En. by eexists. }
  split; [by apply quote_calm|]. split; [simpl; lia|]. split; [apply quote_trimmed|].
  unfold parseExprLiteral. rewrite trim_id by apply quote_trimmed.
  assert (numeric (json_quote (trim v)) = false) as ->.
  { destruct (numeric (json_quote _)) eqn:E; [|done]. by apply numeric_units in E. }
  rewrite json_parse_quote by by apply value_units_ok. by eexists.
Qed.

(** ** The shape of a written condition *)

Definition ok (e : jstr) : Prop := nested e /\ forallb (fun c => negb (one_of [38; 124]%N c)) e = true.

Lemma ok_flat e : forallb flat e = true -> ok e.
Proof.
  intros H. split; [by apply nested_plain, flat_no_paren|]. revert H. apply forallb_impl.
  intros c H%flat_plain. unfold one_of. cbn [existsb]. lia.
Qed.

Lemma ok_app u v : ok u -> ok v -> ok (u ++ v).
Proof. intros [Hu Cu] [Hv Cv]. split; [by apply nested_app|by rewrite forallb_app, Cu, Cv]. Qed.

Lemma ok_call q : ok q -> ok (js "(" ++ q ++ js ")").
Proof. intros [Hq Cq]. split; [by apply nested_paren|]. norm_lits. cbn [forallb]. by rewrite forallb_app, Cq. Qed.

Lemma ok_no c e : c = 38%N \/ c = 124%N -> ok e -> c ∉ e.
Proof. intros Hc [_ He] Hin%list_elem_of_In. rewrite forallb_forall in He. specialize (He c Hin). by destruct Hc as [-> | ->]. Qed.

Lemma calm_flat s : forallb calm s = true -> forallb flat s = true.
Proof. apply forallb_impl. unfold calm. by intros c [_ H]%andb_true_iff. Qed.

Lemma quote_path_flat p : forallb path_unit p = true -> forallb flat (json_quote p) = true.
Proof. intros H. rewrite json_quote_path by done. cbn [forallb]. by rewrite forallb_app, path_flat. Qed.

Lemma trimmed_text c e d : is_ws c = false -> is_ws d = false -> last (c :: e) = Some d -> trimmed (c :: e).
Proof. intros Hc Hd Hl. split; intros x; [by intros [= <-]|]. rewrite Hl. by intros [= <-]. Qed.

Record reads (e : jstr) (c : RequestCondition) : Prop := {
  r_parse : tryParseRequestCondition e = inr (Some c);
  r_ne : e <> [];
  r_trim : trimmed e;
  r_nest : nested e;
  r_and : 38%N ∉ e;
  r_or : includes (js " || ") e = true -> tryParseRequestCondition (js "(" ++ e ++ js ")") = inr (Some c) }.

Lemma reads_ok e c : tryParseRequestCondition e = inr (Some c) -> e <> [] -> trimmed e -> ok e -> reads e c.
Proof.
  intros Hp Hn Ht Ho. split; [done|done|done|apply Ho|by apply ok_no; [left|]|].
  intros (u & v & ->)%includes_true. exfalso. apply (ok_no 124 _ (or_intror eq_refl) Ho). set_solver.
Qed.

Lemma trimmed_app_end w u v : trimmed w -> w <> [] -> trimmed v -> v <> [] -> trimmed (w ++ u ++ v).
Proof.
  intros Hw Hwn Hv Hvn. split; intros c Hc.
  - destruct w as [|x w]; [done|]. exact (proj1 Hw c Hc).
  - rewrite app_assoc, last_app_end in Hc by done. exact (proj2 Hv c Hc).
Qed.

(** ** Written conditions are read back *)

Section Written.
Context (p : jstr) (Hp : forallb path_unit p = true) (Hn : p <> []).

Lemma path_length : 1 <= length p.
Proof. destruct p; [done|simpl; lia]. Qed.

Lemma call_text w : w ++ js "(" ++ json_quote p ++ js ")" = w ++ jq "(`" ++ p ++ jq "`)".
Proof. rewrite json_quote_path by done. norm_lits. done. Qed.

Lemma ok_source w tail : forallb flat w = true -> ok tail -> ok (w ++ jq "(`" ++ p ++ jq "`)" ++ tail).
Proof.
  intros Hw Ht. replace (jq "(`" ++ p ++ jq "`)" ++ tail) with ((js "(" ++ json_quote p ++ js ")") ++ tail).
  - apply ok_app; [by apply ok_flat|]. apply ok_app; [|done]. apply ok_call, ok_flat, quote_path_flat, Hp.
  - rewrite json_quote_path by done. norm_lits. done.
Qed.

Lemma ph_flat s : forallb flat (ph_str s) = true /\ trimmed (ph_str s) /\ ph_str s <> [].
Proof. destruct s; (split; [done|]; split; [by apply trimmed_no_ws|done]). Qed.

Lemma tf_flat f : forallb flat (tf_str f) = true /\ trimmed (tf_str f) /\ tf_str f <> [].
Proof. destruct f; (split; [done|]; split; [by apply trimmed_no_ws|done]). Qed.

Lemma written_eq s v :
  forallb value_unit (trim v) = true ->
  reads (ph_str s ++ jq "(`" ++ p ++ jq "`) == " ++ buildExprLiteral MATCH_EQ v) (ParamHeaderCondition s p MATCH_EQ (trim v)).
Proof.
  intros Hv. destruct (literal_eq v Hv) as (Hc & Hl & Ht & w & Hw & <-).
  destruct (ph_flat s) as (Hf & Hpt & Hpn).
  assert (Hne : buildExprLiteral MATCH_EQ v <> []) by (intros E; rewrite E in Hl; simpl in Hl; lia).
  apply reads_ok.
  - apply read_eq; [by apply path_no_quote|apply path_length| |done|done].
    revert Hc. apply forallb_impl. unfold calm. by intros c [H _]%andb_true_iff.
  - by destruct s.
  - rewrite !app_assoc, <-(app_assoc (ph_str s)), <-(app_assoc (ph_str s)), <-(app_assoc (ph_str s)).
    by apply trimmed_app_end.
  - replace (jq "`) == " ++ buildExprLiteral MATCH_EQ v) with (jq "`)" ++ js " == " ++ buildExprLiteral MATCH_EQ v) by by norm_lits.
    apply ok_source; [done|]. apply ok_app; [by apply ok_flat|by apply ok_flat, calm_flat].
Qed.

Lemma written_exists s tail :
  tail = match s with Header => jq " != ``" | Param => js " != nil" end ->
  reads (ph_str s ++ jq "(`" ++ p ++ jq "`)" ++ tail) (ParamHeaderCondition s p MATCH_EXISTS []).
Proof.
  intros ->. destruct (ph_flat s) as (Hf & Hpt & Hpn). apply reads_ok.
  - destruct s.
    + apply (read_param_exists p); [by apply path_no_quote|apply path_length].
    + apply (read_header_exists p); [by apply path_no_quote|apply path_length].
  - by destruct s.
  - rewrite (app_assoc (jq "(`")). apply trimmed_app_end; [done|done| |by destruct s].
    destruct s; by split; intros c [= <-].
  - apply ok_source; [done|]. apply ok_flat. by destruct s.
Qed.

Lemma written_contains v :
  forallb value_unit (trim v) = true ->
  reads (js "has(" ++ (ph_str Header ++ js "(" ++ json_quote p ++ js ")") ++ js ", " ++ json_quote (trim v) ++ js ")")
    (ParamHeaderCondition Header p MATCH_CONTAINS (trim v)).
Proof.
  intros Hv.
  assert (E : js "has(" ++ (ph_str Header ++ js "(" ++ json_quote p ++ js ")") ++ js ", " ++ json_quote (trim v) ++ js ")" =
    jq "has(header(`" ++ p ++ jq "`), " ++ json_quote (trim v) ++ js ")").
  { rewrite call_text. cbn [ph_str]. unfold SOURCE_HEADER. by norm_lits. }
  apply reads_ok.
  - rewrite E. apply read_header_contains; [by apply path_no_quote|apply path_length|by apply value_units_ok].
  - done.
  - split; intros c; [by intros [= <-]|]. change (js ")") with [41%N].
    rewrite !app_assoc, last_snoc. by intros [= <-].
  - change (js "has(") with (js "has" ++ js "("). rewrite <-app_assoc. apply ok_app; [by apply ok_flat|].
    rewrite (app_assoc _ (js ", ")), (app_assoc _ _ (js ")")). apply ok_call. rewrite <-app_assoc.
    rewrite call_text, <-!app_assoc. apply ok_source; [done|].
    apply ok_app; [by apply ok_flat|]. by apply ok_flat, calm_flat, quote_calm.
Qed.

Lemma written_cmp f mode v :
  numeric v = true -> mode ∈ [MATCH_EQ; MATCH_GTE; MATCH_LT] ->
  reads (tf_str f ++ jq "(`" ++ p ++ jq "`) " ++ time_op mode ++ js " " ++ v) (TimeCondition f p mode v [] []).
Proof.
  intros Hv Hm. pose proof (numeric_units _ Hv) as Hu. pose proof (numeric_nonempty _ Hv) as Hne.
  destruct (tf_flat f) as (Hf & Hft & Hfn). apply reads_ok.
  - apply read_time_cmp; try done; [by apply path_no_quote|apply path_length|destruct v; [done|simpl; lia]].
  - by destruct f.
  - rewrite !app_assoc, <-!(app_assoc (tf_str f)). apply trimmed_app_end; [done|done|by apply num_trimmed|done].
  - change (jq "`) ") with (jq "`)" ++ js " "). rewrite <-(app_assoc (jq "`)")). apply ok_source; [done|].
    repeat apply ok_app; try by apply ok_flat. { unfold time_op. apply ok_flat. by repeat case_match. }
    by apply ok_flat, num_flat.
Qed.

Lemma written_range f a b :
  numeric a = true -> numeric b = true ->
  reads (range_text p f a b) (TimeCondition f p MATCH_RANGE [] a b).
Proof.
  intros Ha Hb. pose proof (numeric_units _ Ha) as Hua. pose proof (numeric_units _ Hb) as Hub.
  pose proof (numeric_nonempty _ Ha) as Hna. pose proof (numeric_nonempty _ Hb) as Hnb.
  assert (Hla : 1 <= length a) by (destruct a; [done|simpl; lia]).
  assert (Hlb : 1 <= length b) by (destruct b; [done|simpl; lia]).
  pose proof (path_no_quote _ Hp) as Hq. pose proof path_length as Hl.
  destruct (tf_flat f) as (Hf & Hft & Hfn).
  assert (Hpar : nested (range_text p f a b) /\ 38%N ∉ range_text p f a b).
  { assert (E : range_text p f a b = (tf_str f ++ jq "(`" ++ p ++ jq "`)" ++ js " >= " ++ a) ++ js " || " ++
                                     (tf_str f ++ jq "(`" ++ p ++ jq "`)" ++ js " < " ++ b)).
    { unfold range_text. norm_lits. done. }
    assert (H1 : ok (tf_str f ++ jq "(`" ++ p ++ jq "`)" ++ js " >= " ++ a)).
    { apply ok_source; [done|]. apply ok_app; [by apply ok_flat|by apply ok_flat, num_flat]. }
    assert (H2 : ok (tf_str f ++ jq "(`" ++ p ++ jq "`)" ++ js " < " ++ b)).
    { apply ok_source; [done|]. apply ok_app; [by apply ok_flat|by apply ok_flat, num_flat]. }
    rewrite E. split.
    - apply nested_app; [apply H1|]. apply nested_app; [by apply nested_plain|apply H2].
    - apply not_elem_of_app. split; [by apply ok_no; [left|]|].
      apply not_elem_of_app. split; [by apply (bool_decide_unpack _)|by apply ok_no; [left|]]. }
  split.
  - by apply read_range.
  - unfold range_text. by destruct f.
  - unfold range_text. rewrite !app_assoc, <-!(app_assoc (tf_str f)).
    apply trimmed_app_end; [done|done|by apply num_trimmed|done].
  - apply Hpar.
  - apply Hpar.
  - intros _. by apply read_range_paren.
Qed.
End Written.

(** ** Every condition *)

Lemma normalize_time f tz mode v s e :
  normalizeCondition (Some (whole (TimeCondition f tz mode v s e))) =
  TimeCondition f (or_str tz (js "Asia/Shanghai")) (mode_or SOURCE_TIME (Some mode) MATCH_GTE) v s e.
Proof. by destruct f. Qed.

Lemma normalize_param_header s p mode v :
  normalizeCondition (Some (whole (ParamHeaderCondition s p mode v))) =
  ParamHeaderCondition s p (mode_or (ph_str s) (Some mode) MATCH_EQ) v.
Proof. by destruct s. Qed.

Lemma written_time f tz mode v s e :
  forallb path_unit tz = true ->
  match canonicalCondition (TimeCondition f tz mode v s e) with
  | None => buildRequestConditionExpr (TimeCondition f tz mode v s e) = []
  | Some c => reads (buildRequestConditionExpr (TimeCondition f tz mode v s e)) c
  end.
Proof.
  intros Htz. assert (Hz : forallb path_unit (or_str tz (js "Asia/Shanghai")) = true /\ or_str tz (js "Asia/Shanghai") <> []).
  { unfold or_str. destruct (truthy tz) eqn:Et; [by apply truthy_true in Et|done]. }
  destruct Hz as [Hz Hzn]. unfold buildRequestConditionExpr, buildTimeConditionExpr, canonicalCondition.
  rewrite normalize_time. cbv zeta.
  set (z := or_str tz _) in *.
  assert (Hm : mode_or SOURCE_TIME (Some mode) MATCH_GTE =
               if bool_decide (mode ∈ [MATCH_RANGE; MATCH_EQ; MATCH_LT]) then mode else MATCH_GTE).
  { unfold mode_or, getRequestRuleMatchOptions.
    change (SOURCE_TIME =s SOURCE_TIME) with true. cbn iota. cbn [existsb fst].
    destruct (MATCH_EQ =s mode) eqn:E1; [apply jstr_eqb_true in E1 as <-; done|].
    destruct (MATCH_GTE =s mode) eqn:E2; [apply jstr_eqb_true in E2 as <-; done|].
    destruct (MATCH_LT =s mode) eqn:E3; [apply jstr_eqb_true in E3 as <-; done|].
    destruct (MATCH_RANGE =s mode) eqn:E4; [apply jstr_eqb_true in E4 as <-; done|].
    cbn [orb]. rewrite bool_decide_false; [done|]. apply jstr_eqb_false in E1, E3, E4. set_solver. }
  rewrite Hm. destruct (mode =s MATCH_RANGE) eqn:Er.
  - apply jstr_eqb_true in Er as ->. change (bool_decide _) with true. cbn iota. change (MATCH_RANGE =s MATCH_RANGE) with true.
    cbn iota. destruct (numeric (trim s)) eqn:Es, (numeric (trim e)) eqn:Ee; cbn [negb orb andb]; try done.
    pose proof (written_range z Hz Hzn f (trim s) (trim e) Es Ee) as H. unfold range_text in H.
    rewrite (call_text z Hz). revert H. norm_lits. done.
  - set (md := if bool_decide (mode ∈ [MATCH_EQ; MATCH_LT]) then mode else MATCH_GTE).
    assert (E : (if bool_decide (mode ∈ [MATCH_RANGE; MATCH_EQ; MATCH_LT]) then mode else MATCH_GTE) = md).
    { unfold md. apply jstr_eqb_false in Er.
      destruct (decide (mode ∈ [MATCH_EQ; MATCH_LT])); [rewrite !bool_decide_true; set_solver|rewrite !bool_decide_false; set_solver]. }
    rewrite E. assert (Hin : md ∈ [MATCH_EQ; MATCH_GTE; MATCH_LT]).
    { unfold md. case_bool_decide; set_solver. }
    assert ((md =s MATCH_RANGE) = false) as ->.
    { apply jstr_eqb_false. intros Ed. rewrite Ed in Hin. apply (bool_decide_pack _) in Hin. by vm_compute in Hin. }
    destruct (numeric (trim v)) eqn:En; cbn [negb]; [|done].
    pose proof (written_cmp z Hz Hzn f md (trim v) En Hin) as H. unfold time_op in H.
    rewrite (call_text z Hz). revert H. norm_lits. done.
Qed.

(** The mode a parameter or header condition is written with. *)
Lemma param_header_mode s p mode v :
  readable (ParamHeaderCondition s p mode v) = true ->
  let md := mode_or (ph_str s) (Some mode) MATCH_EQ in
  (mode = MATCH_EXISTS /\ md = MATCH_EXISTS) \/
  (mode = MATCH_CONTAINS /\ md = MATCH_CONTAINS /\ s = Header) \/
  (mode ∉ [MATCH_EXISTS; MATCH_CONTAINS] /\ md = MATCH_EQ).
Proof.
  intros Hr md. destruct (decide (mode = MATCH_EXISTS)) as [->|Hex]; [left; split; [done|by destruct s]|right].
  destruct (decide (mode = MATCH_CONTAINS)) as [->|Hco].
  { left. split; [done|]. destruct s; [|done]. exfalso. cbn [readable] in Hr.
    apply andb_true_iff in Hr as [_ Hr]. by vm_compute in Hr. }
  right. split; [set_solver|]. unfold md, mode_or, getRequestRuleMatchOptions.
  destruct s; cbn [ph_str].
  - change (SOURCE_PARAM =s SOURCE_TIME) with false. change (SOURCE_PARAM =s SOURCE_HEADER) with false. cbn iota.
    cbn [readable] in Hr. apply andb_true_iff in Hr as [_ Hr%negb_true_iff].
    apply bool_decide_eq_false_1 in Hr. cbn [existsb app fst].
    destruct (MATCH_EQ =s mode) eqn:E; [by apply jstr_eqb_true in E|].
    rewrite !(proj2 (jstr_eqb_false _ mode)) by (intros <-; first [done | apply Hr; set_solver]). done.
  - change (SOURCE_HEADER =s SOURCE_TIME) with false. change (SOURCE_HEADER =s SOURCE_HEADER) with true. cbn iota.
    cbn [existsb fst]. destruct (MATCH_EQ =s mode) eqn:E; [by apply jstr_eqb_true in E|].
    by rewrite !(proj2 (jstr_eqb_false _ mode)) by (intros <-; done).
Qed.

Lemma written_param_header s p mode v :
  readable (ParamHeaderCondition s p mode v) = true ->
  match canonicalCondition (ParamHeaderCondition s p mode v) with
  | None => buildRequestConditionExpr (ParamHeaderCondition s p mode v) = []
  | Some c => reads (buildRequestConditionExpr (ParamHeaderCondition s p mode v)) c
  end.
Proof.
  intros Hr. pose proof (param_header_mode _ _ _ _ Hr) as Hm. cbv zeta in Hm.
  assert (Hpv : forallb path_unit (trim p) = true /\ forallb value_unit (trim v) = true).
  { cbn [readable] in Hr. by apply andb_true_iff in Hr as [[? ?]%andb_true_iff _]. }
  destruct Hpv as [Hp Hv]. unfold buildRequestConditionExpr, canonicalCondition. rewrite normalize_param_header. cbv zeta.
  destruct (truthy (trim p)) eqn:Et; cbn [negb]; [|done]. apply truthy_true in Et.
  rewrite (call_text (trim p) Hp).
  destruct Hm as [[-> ->]|[(-> & -> & ->)|[Hn ->]]].
  - change (MATCH_EXISTS =s MATCH_EXISTS) with true. change (bool_decide _) with true. cbn iota.
    pose proof (written_exists (trim p) Hp Et s _ eq_refl) as H. destruct s; revert H; norm_lits; done.
  - change (MATCH_CONTAINS =s MATCH_EXISTS) with false. change (MATCH_CONTAINS =s MATCH_CONTAINS) with true.
    change (bool_decide _) with true. cbn iota. rewrite <-(call_text (trim p) Hp). by apply written_contains.
  - change (MATCH_EQ =s MATCH_EXISTS) with false. change (MATCH_EQ =s MATCH_CONTAINS) with false.
    change (MATCH_EQ =s MATCH_GT) with false. change (MATCH_EQ =s MATCH_GTE) with false.
    change (MATCH_EQ =s MATCH_LT) with false. change (MATCH_EQ =s MATCH_LTE) with false. cbn iota.
    rewrite bool_decide_false by done. rewrite (proj2 (jstr_eqb_false mode MATCH_EXISTS)) by (intros ->; set_solver).
    pose proof (written_eq (trim p) Hp Et s v Hv) as H. revert H. norm_lits. done.
Qed.

(** What the editor writes for a condition reads back as it, and the editor
    writes nothing for a condition that stands for none. *)
Lemma written_condition c :
  readable c = true ->
  match canonicalCondition c with
  | None => buildRequestConditionExpr c = []
  | Some c' => reads (buildRequestConditionExpr c) c'
  end.
Proof. destruct c; [by apply written_time|apply written_param_header]. Qed.

(** ** Groups *)

Lemma written_conditions cs :
  Forall (fun c => readable c = true) cs ->
  Forall2 reads (List.filter truthy (List.map buildRequestConditionExpr cs)) (omap canonicalCondition cs).
Proof.
  induction 1 as [|c cs Hc _ IH]; [constructor|]. csimpl. cbn [List.filter].
  pose proof (written_condition c Hc) as H. destruct (canonicalCondition c) as [c'|].
  - rewrite (proj2 (truthy_true _)) by apply H. by constructor.
  - by rewrite H.
Qed.

Lemma parse_parts_all {A B} (parse : jstr -> exn + option A) (f : B -> jstr) (g : B -> A) l :
  (forall b, b ∈ l -> parse (f b) = inr (Some (g b))) ->
  parse_parts parse (List.map f l) = inr (Some (List.map g l)).
Proof.
  induction l as [|b l IH]; intros H; [done|]. cbn [List.map parse_parts].
  rewrite H by left. cbn [bind]. by rewrite IH by (intros; apply H; by right).
Qed.

Lemma parse_parts_reads parse es cs :
  Forall2 (fun e c => parse e = inr (Some c)) es cs -> @parse_parts RequestCondition parse es = inr (Some cs).
Proof. induction 1 as [|e c es cs H _ IH]; [done|]. cbn [parse_parts]. by rewrite H, IH. Qed.

Lemma includes_false_or e : includes (js " || ") e = false \/ includes (js " || ") e = true.
Proof. destruct (includes _ _); auto. Qed.

(** The text of a part of a conjunction. *)
Definition and_part (e : jstr) : jstr := if includes (js " || ") e then js "(" ++ e ++ js ")" else e.

Lemma and_part_ok e c : reads e c ->
  tryParseRequestCondition (and_part e) = inr (Some c) /\ quiet 38 0 (and_part e) /\ trimmed (and_part e) /\
  and_part e <> [] /\ nested (and_part e).
Proof.
  intros [Hp Hn Ht Hne Ha Ho]. unfold and_part. destruct (includes _ e) eqn:E; [|by split_and!; try apply quiet_absent].
  split; [auto|]. split; [by apply quiet_paren|]. split; [|split; [done|by apply nested_paren]].
  split; intros x; [by intros [= <-]|]. change (js ")") with [41%N]. rewrite app_assoc, last_snoc. by intros [= <-].
Qed.

Lemma nested_join sep l : nested sep -> Forall nested l -> nested (join sep l).
Proof.
  intros Hs. induction 1 as [|x [|y l] Hx Hl IH]; [done|done|]. rewrite join_cons2. apply nested_app; [done|]. by apply nested_app.
Qed.

Lemma combined_reads es cs :
  Forall2 reads es cs -> es <> [] ->
  tryParseRequestConditions (combine_conditions es) = inr (Some cs) /\ nested (combine_conditions es).
Proof.
  intros H Hn. unfold tryParseRequestConditions.
  assert (Hgo : forall parts, Forall2 (fun p c => tryParseRequestCondition p = inr (Some c) /\ quiet 38 0 p /\ trimmed p /\ p <> []) parts cs ->
    splitTopLevelAnd (join (js " && ") parts) = parts /\
    parse_parts (fun part => tryParseRequestCondition (trim part)) parts = inr (Some cs)).
  { intros parts Hp. split.
    - apply split_top_join; [done|done| |].
      + apply Forall_forall. intros p (i & Hi)%list_elem_of_lookup. destruct (Forall2_lookup_l _ _ _ _ _ Hp Hi) as (c & _ & ? & ? & ? & ?). done.
      + intros ->. inversion Hp; subst. by inversion H.
    - apply parse_parts_reads. eapply Forall2_impl; [exact Hp|]. intros p c (Hc & _ & Ht & _). by rewrite trim_id. }
  assert (Hcs : cs <> []) by (intros ->; by inversion H; subst).
  destruct es as [|e [|e' es]]; [done| |].
  - cbn [combine_conditions]. destruct (Hgo [e]) as [E1 E2].
    + apply Forall2_cons_inv_l in H as (c & cs' & [] & Hnil & ->). apply Forall2_nil_inv_l in Hnil as ->.
      constructor; [|constructor]. split_and!; try done. by apply quiet_absent.
    + change (join (js " && ") [e]) with e in E1. rewrite E1, E2. cbn [bind]. split; [by destruct cs|].
      inversion H as [|? ? ? ? []]; subst. done.
  - change (combine_conditions (e :: e' :: es)) with (join (js " && ") (List.map and_part (e :: e' :: es))).
    destruct (Hgo (List.map and_part (e :: e' :: es))) as [E1 E2].
    + change (List.map and_part ?l) with (and_part <$> l). apply Forall2_fmap_l. eapply Forall2_impl; [exact H|].
      intros x c Hx. destruct (and_part_ok x c Hx) as (? & ? & ? & ? & ?). done.
    + rewrite E1, E2. cbn [bind]. split; [by destruct cs|]. apply nested_join; [done|].
      change (List.map and_part ?l) with (and_part <$> l). apply Forall_fmap, Forall_forall.
      intros x (i & Hi)%list_elem_of_lookup. destruct (Forall2_lookup_l _ _ _ _ _ H Hi) as (c & _ & Hx).
      by apply (and_part_ok x c).
Qed.

(** ** Factors *)

(** The conditional is found at its last question mark. *)
Lemma factor_hit c m0 :
  c <> [] -> forallb num_unit m0 = true -> m0 <> [] ->
  exists f, re_match factor_re (js "(" ++ c ++ js " ? " ++ m0 ++ js " : 1)") = Some f /\ f_caps f = [(2, m0); (1, c)].
Proof.
  intros Hc Hm Hmn. unfold factor_re, RNum, RPlus, RAny. cbn [RSeqs].
  assert (Hl : 1 <= length m0) by (destruct m0; [done|simpl; lia]).
  assert (Hlc : 1 <= length c) by (destruct c; [done|simpl; lia]).
  set (tail := 32%N :: 63%N :: 32%N :: m0 ++ [32; 58; 32; 49; 41]%N).
  eapply match_hit with (s' := adv (set_cap 2 m0 (adv (adv (set_cap 1 c (adv (adv (St None ([40%N] ++ c ++ tail) []) [40%N] (c ++ tail)) c tail))
      [32;63;32]%N (m0 ++ [32; 58; 32; 49; 41]%N)) m0 [32; 58; 32; 49; 41]%N)) [32; 58; 32; 49; 41]%N []); [|done].
  norm_lits. fold tail. rewrite m_seq, (m_lit _ _ _ (c ++ tail)) by done. rewrite m_seq, m_group.
  apply (m_run_back _ _ _ _ c tail []).
  - by rewrite app_nil_r.
  - apply forallb_forall. by intros.
  - done.
  - done.
  - rewrite app_nil_r. rewrite consumed_adv by done. rewrite m_seq.
    rewrite (m_lit _ _ _ (m0 ++ [32; 58; 32; 49; 41]%N)) by done. repeat re_step. done.
  - intros w1 w2 Hw Hne. rewrite app_nil_r. rewrite m_seq. apply m_lit_fail. cbn [rest set_cap adv].
    destruct (strip_prefix _ w2) as [t|] eqn:E; [|done]. apply strip_prefix_some in E as ->. exfalso.
    assert (Hnot : 63%N ∉ 32%N :: m0 ++ [32; 58; 32; 49; 41]%N).
    { intros [Hx|[Hx|Hx]%elem_of_app]%elem_of_cons; [done| |by apply (bool_decide_pack _) in Hx].
      apply list_elem_of_In in Hx. rewrite forallb_forall in Hm. by apply Hm in Hx. }
    unfold tail in Hw. destruct w1 as [|x [|y w1]]; [done|by injection Hw|]. injection Hw as <- <- Hw.
    apply Hnot. rewrite Hw. set_solver.
Qed.

Definition factor_text (c m0 : jstr) : jstr := js "(" ++ c ++ js " ? " ++ m0 ++ js " : 1)".

Lemma factor_ok g g' :
  Forall (fun c => readable c = true) (conditions g) -> canonicalGroup g = Some g' ->
  buildRuleGroupFactor g <> [] /\ quiet 42 0 (buildRuleGroupFactor g) /\ trimmed (buildRuleGroupFactor g) /\
  tryParseRuleGroupFactor (buildRuleGroupFactor g) = inr (Some g').
Proof.
  intros Hr Hg. pose proof (written_conditions _ Hr) as Hw. unfold canonicalGroup in Hg. unfold buildRuleGroupFactor. cbv zeta.
  destruct (numeric (trim (multiplier g))) eqn:En; [|done]. cbn [negb].
  set (es := List.filter truthy _) in *. destruct (omap canonicalCondition (conditions g)) as [|c cs] eqn:Ec; [done|].
  injection Hg as <-. assert (Hes : es <> []) by (intros E; rewrite E in Hw; inversion Hw).
  destruct (combined_reads _ _ Hw Hes) as [Hp Hn].
  assert (E : match es with [] => [] | x :: l => js "(" ++ combine_conditions (x :: l) ++ js " ? " ++ trim (multiplier g) ++ js " : 1)" end =
              factor_text (combine_conditions es) (trim (multiplier g))) by (by destruct es).
  rewrite E. pose proof (numeric_units _ En) as Hu. pose proof (numeric_nonempty _ En) as Hmn.
  assert (Hcn : combine_conditions es <> []).
  { intros Eq. rewrite Eq in Hp. by vm_compute in Hp. }
  assert (Et : factor_text (combine_conditions es) (trim (multiplier g)) =
    40%N :: (combine_conditions es ++ js " ? " ++ trim (multiplier g) ++ js " : 1") ++ [41%N]).
  { unfold factor_text. norm_lits. done. }
  split; [done|]. split; [|split].
  - rewrite Et. apply quiet_paren; [|done..]. apply nested_app; [done|]. apply nested_app; [by apply nested_plain|].
    apply nested_app; [by apply nested_plain, flat_no_paren, num_flat|by apply nested_plain].
  - rewrite Et. split; intros x; [by intros [= <-]|]. rewrite app_comm_cons, last_snoc. by intros [= <-].
  - unfold tryParseRuleGroupFactor. destruct (factor_hit _ _ Hcn Hu Hmn) as (f & Hf & Hc). unfold factor_text. rewrite Hf.
    unfold group_or_empty, group. rewrite !Hc. cbn [cap_get Nat.eqb nullish]. by rewrite Hp.
Qed.

Lemma factor_dropped g :
  Forall (fun c => readable c = true) (conditions g) -> canonicalGroup g = None -> buildRuleGroupFactor g = [].
Proof.
  intros Hr Hg. pose proof (written_conditions _ Hr) as Hw. unfold canonicalGroup in Hg. unfold buildRuleGroupFactor. cbv zeta.
  destruct (numeric (trim (multiplier g))); [|done]. cbn [negb].
  destruct (omap canonicalCondition (conditions g)); [|done]. by inversion Hw.
Qed.

Definition editable (g : RequestRuleGroup) : Prop := Forall (fun c => readable c = true) (conditions g).

Lemma written_factors gs :
  Forall editable gs ->
  Forall2 (fun t g => t <> [] /\ quiet 42 0 t /\ trimmed t /\ tryParseRuleGroupFactor t = inr (Some g))
    (List.filter truthy (List.map buildRuleGroupFactor gs)) (omap canonicalGroup gs).
Proof.
  induction 1 as [|g gs Hg _ IH]; [constructor|]. csimpl. cbn [List.filter].
  destruct (canonicalGroup g) as [g'|] eqn:E.
  - pose proof (factor_ok g g' Hg E) as H. rewrite (proj2 (truthy_true _)) by apply H. by constructor.
  - by rewrite (factor_dropped g Hg E).
Qed.

Lemma join_nonempty sep p l : p <> [] -> join sep (p :: l) <> [].
Proof. destruct l; [done|]. rewrite join_cons2. by destruct p. Qed.

Lemma trimmed_join sep l : Forall (fun p => trimmed p /\ p <> []) l -> trimmed (join sep l).
Proof.
  induction 1 as [|p [|q l] [Ht Hn] Hl IH]; [by split|done|]. rewrite join_cons2.
  apply trimmed_app_end; [done|done|done|]. apply join_nonempty. by inversion Hl as [|? ? []].
Qed.

(** What the rule editor writes reads back as the rules it stands for. *)
Lemma rules_read_back gs :
  Forall editable gs -> tryParseRequestRuleExpr (buildRequestRuleExpr gs) = inr (Some (omap canonicalGroup gs)).
Proof.
  intros Hg. pose proof (written_factors _ Hg) as Hw. unfold buildRequestRuleExpr. set (ts := List.filter truthy _) in *.
  assert (Ha : Forall (fun t => t <> [] /\ quiet 42 0 t /\ trimmed t) ts).
  { apply Forall_forall. intros t (i & Hi)%list_elem_of_lookup. destruct (Forall2_lookup_l _ _ _ _ _ Hw Hi) as (? & _ & ? & ? & ? & _). done. }
  unfold tryParseRequestRuleExpr. cbv zeta. rewrite trim_id.
  2:{ apply trimmed_join. eapply Forall_impl; [exact Ha|]. by intros t (? & ? & ?). }
  destruct ts as [|t ts'] eqn:Et; [by inversion Hw|]. rewrite <-Et in *.
  rewrite (proj2 (truthy_true _)).
  2:{ rewrite Et. apply join_nonempty. rewrite Et in Ha. by inversion Ha as [|? ? []]. }
  assert (E : splitTopLevelMultiply (join (js " * ") ts) = ts).
  { apply (split_top_join 42 [32%N]); [done|done| |by rewrite Et].
    eapply Forall_impl; [exact Ha|]. by intros x (? & ? & ?). }
  cbn [negb]. rewrite E.
  clear -Hw. induction Hw as [|x g xs gs' (_ & _ & _ & Hp) _ IH]; [done|]. cbn [parse_parts]. by rewrite Hp, IH.
Qed.

(** ** Writing again what was read *)

Lemma time_mode_kept mode : 
  mode ∈ [MATCH_EQ; MATCH_GTE; MATCH_LT; MATCH_RANGE] -> mode_or SOURCE_TIME (Some mode) MATCH_GTE = mode.
Proof. intros H. repeat (apply elem_of_cons in H as [->|H]; [done|]). by apply elem_of_nil in H. Qed.

Lemma or_str_idemp s d : d <> [] -> or_str (or_str s d) d = or_str s d.
Proof. intros Hd. unfold or_str. destruct (truthy s) eqn:E; [by rewrite E|]. by rewrite (proj2 (truthy_true d)). Qed.

Lemma literal_trim mode v : buildExprLiteral mode (trim v) = buildExprLiteral mode v.
Proof. unfold buildExprLiteral. by rewrite trim_idemp. Qed.

Lemma mode_or_other source m : 
  existsb (fun o => o.1 =s m) (getRequestRuleMatchOptions source) = false -> forall d, mode_or source (Some m) d = d.
Proof. intros H d. unfold mode_or. by rewrite H. Qed.

Lemma time_mode_other mode :
  mode ∉ [MATCH_EQ; MATCH_LT; MATCH_RANGE] -> mode_or SOURCE_TIME (Some mode) MATCH_GTE = MATCH_GTE.
Proof.
  intros H. destruct (decide (mode = MATCH_GTE)) as [->|Hn]; [done|]. apply mode_or_other.
  unfold getRequestRuleMatchOptions. change (SOURCE_TIME =s SOURCE_TIME) with true. cbn [existsb fst].
  by rewrite !(proj2 (jstr_eqb_false _ mode)) by (intros <-; first [done | apply H; set_solver]).
Qed.

Lemma rewrite_condition c c' :
  readable c = true -> canonicalCondition c = Some c' -> buildRequestConditionExpr c' = buildRequestConditionExpr c.
Proof.
  intros Hr Hc. destruct c as [f tz mode v s e|s p mode v]; cbn [canonicalCondition] in Hc; cbv zeta in Hc.
  - destruct (mode =s MATCH_RANGE) eqn:Er.
    + apply jstr_eqb_true in Er as ->. destruct (numeric (trim s)) eqn:Es, (numeric (trim e)) eqn:Ee; simplify_eq/=.
      unfold buildTimeConditionExpr. rewrite !normalize_time. cbv zeta. rewrite or_str_idemp by done.
      rewrite !time_mode_kept by (by apply (bool_decide_unpack _)). by rewrite !trim_idemp.
    + apply jstr_eqb_false in Er. destruct (numeric (trim v)) eqn:En; [|done]. injection Hc as <-.
      cbn [buildRequestConditionExpr]. unfold buildTimeConditionExpr. rewrite !normalize_time. cbv zeta.
      rewrite or_str_idemp by done.
      assert (Hm : mode_or SOURCE_TIME (Some (if bool_decide (mode ∈ [MATCH_EQ; MATCH_LT]) then mode else MATCH_GTE)) MATCH_GTE =
                   mode_or SOURCE_TIME (Some mode) MATCH_GTE).
      { case_bool_decide as Hd; [done|]. rewrite (time_mode_other mode); [done|set_solver]. }
      rewrite Hm. set (md := mode_or _ _ _).
      assert (md <> MATCH_RANGE) as Hr'.
      { unfold md. destruct (decide (mode ∈ [MATCH_EQ; MATCH_LT])) as [Hd|Hd].
        - rewrite time_mode_kept; [done|set_solver].
        - rewrite time_mode_other; [done|set_solver]. }
      rewrite (proj2 (jstr_eqb_false md MATCH_RANGE)) by done. by rewrite trim_idemp.
  - destruct (truthy (trim p)) eqn:Et; [|done]. injection Hc as <-. cbn [buildRequestConditionExpr].
    rewrite !normalize_param_header. cbv zeta. rewrite trim_idemp, Et. cbn [negb].
    destruct (param_header_mode _ _ _ _ Hr) as [[-> Hmd]|[(-> & Hmd & ->)|[Hn Hmd]]]; rewrite Hmd.
    + change (bool_decide _) with true. cbn iota. rewrite Hmd. done.
    + change (bool_decide _) with true. cbn iota. rewrite Hmd. change (MATCH_CONTAINS =s MATCH_EXISTS) with false. cbn iota.
      by rewrite literal_trim.
    + rewrite bool_decide_false by done. rewrite (proj2 (jstr_eqb_false mode MATCH_EXISTS)) by (intros ->; set_solver).
      assert (mode_or (ph_str s) (Some MATCH_EQ) MATCH_EQ = MATCH_EQ) as -> by (by destruct s).
      by rewrite literal_trim, trim_idemp.
Qed.

Lemma rewrite_conditions cs :
  Forall (fun c => readable c = true) cs ->
  List.filter truthy (List.map buildRequestConditionExpr (omap canonicalCondition cs)) =
  List.filter truthy (List.map buildRequestConditionExpr cs).
Proof.
  induction 1 as [|c cs Hc _ IH]; [done|]. csimpl. cbn [List.filter]. pose proof (written_condition c Hc) as H.
  destruct (canonicalCondition c) as [c'|] eqn:E.
  - cbn [List.map List.filter]. by rewrite (rewrite_condition c c'), IH.
  - by rewrite H, IH.
Qed.

Lemma rewrite_group g g' : editable g -> canonicalGroup g = Some g' -> buildRuleGroupFactor g' = buildRuleGroupFactor g.
Proof.
  intros Hr Hg. pose proof (rewrite_conditions _ Hr) as Hc. unfold canonicalGroup in Hg.
  destruct (numeric (trim (multiplier g))) eqn:En; [|done].
  destruct (omap canonicalCondition (conditions g)) as [|c cs] eqn:E; [done|]. injection Hg as <-.
  unfold buildRuleGroupFactor. cbn [multiplier conditions]. cbv zeta. by rewrite trim_idemp, En, Hc.
Qed.

Lemma rewrite_groups gs :
  Forall editable gs -> buildRequestRuleExpr (omap canonicalGroup gs) = buildRequestRuleExpr gs.
Proof.
  intros H. unfold buildRequestRuleExpr. f_equal. induction H as [|g gs Hg _ IH]; [done|]. csimpl. cbn [List.filter].
  destruct (canonicalGroup g) as [g'|] eqn:E.
  - cbn [List.map List.filter]. by rewrite (rewrite_group g g'), IH.
  - by rewrite (factor_dropped g Hg E), IH.
Qed.

(** * Wrapped expressions *)

Lemma outer_inside d s : (0 <= d)%Z -> well d s = true -> outer_loop (1 + d) (s ++ [41%N]) = (depth_of d s =? 0)%Z.
Proof.
  revert d. induction s as [|c s IH]; intros d Hd Hs.
  - change (depth_of d []) with d. cbn [app outer_loop]. change (depth_step (1 + d) 41) with (1 + d - 1)%Z. lia.
  - cbn [well] in Hs. apply andb_true_iff in Hs as [Hc Hs]. cbn [app outer_loop].
    assert (E : depth_step (1 + d) c = (1 + depth_step d c)%Z) by (rewrite (depth_step_shift (1 + d) c), (depth_step_shift d c); lia).
    rewrite E. change (depth_of d (c :: s)) with (depth_of (depth_step d c) s).
    destruct (s ++ [41%N]) as [|x r] eqn:Er; [by destruct s|].
    rewrite (proj2 (Z.eqb_neq (1 + depth_step d c) 0)) by lia. apply IH; [lia|done].
Qed.

Lemma full_outer_parens s : nested s -> hasFullOuterParens (40%N :: s ++ [41%N]) = true.
Proof.
  intros [Hw Hd]. unfold hasFullOuterParens, ends_with. rewrite app_comm_cons, reverse_app.
  cbn [reverse]. change (starts_with (js "(") ((40%N :: s) ++ [41%N])) with true.
  change (starts_with (reverse (js ")")) (reverse [41%N] ++ reverse (40%N :: s))) with true. cbn [andb app outer_loop].
  change (depth_step 0 40) with 1%Z. destruct (s ++ [41%N]) as [|x r] eqn:Er; [by destruct s|].
  cbn [Z.eqb]. rewrite <-Er. change 1%Z with (1 + 0)%Z. rewrite outer_inside by done. by rewrite Hd.
Qed.

Lemma inner_parens s : inner (40%N :: s ++ [41%N]) = s.
Proof.
  unfold inner, slice. cbn [length drop]. rewrite length_app. cbn [length].
  replace (pred (S (length s + 1)) - 1) with (length s) by lia. apply take_app_length.
Qed.

Lemma unwrap_parens s :
  nested s -> trimmed s -> hasFullOuterParens s = false -> unwrapOuterParens (40%N :: s ++ [41%N]) = s.
Proof.
  intros Hn Ht Hf. unfold unwrapOuterParens. rewrite trim_id.
  2:{ split; intros x; [by intros [= <-]|]. rewrite app_comm_cons, last_snoc. by intros [= <-]. }
  cbn [length]. rewrite length_app. cbn [length]. replace (length s + 1) with (S (length s)) by lia.
  cbn [unwrap_loop]. rewrite full_outer_parens, inner_parens, trim_id, Hf by done. done.
Qed.

Lemma rule_part t g :
  t <> [] -> quiet 42 0 t -> trimmed t -> tryParseRuleGroupFactor t = inr (Some g) -> is_rule_part t = inr true.
Proof.
  intros Hn Hq Ht Hp. unfold is_rule_part, tryParseRequestRuleExpr. cbv zeta. rewrite trim_id by done.
  rewrite (proj2 (truthy_true t)) by done. cbn [negb].
  assert (E : splitTopLevelMultiply t = [t]).
  { apply (split_top_join 42 [32%N] [t]); [done|done|by constructor|done]. }
  rewrite E. cbn [parse_parts]. by rewrite Hp.
Qed.

Lemma partition_rules ts gs :
  Forall2 (fun t g => t <> [] /\ quiet 42 0 t /\ trimmed t /\ tryParseRuleGroupFactor t = inr (Some g)) ts gs ->
  partition_parts ts = inr (ts, []).
Proof.
  induction 1 as [|t g ts gs (Hn & Hq & Ht & Hp) _ IH]; [done|]. cbn [partition_parts].
  by rewrite (rule_part t g), IH.
Qed.

(** C18: What the rule editor writes for its groups reads back as the groups, with
    their texts trimmed and the conditions and groups that cannot be written left
    out; and writing what was read gives the same expression again. This holds for
    groups whose parameter conditions compare for equality or existence (the other
    comparisons do not read back, [parameter_comparison_unreadable]) and whose
    texts hold no parenthesis, [&] or [|] and whose names and zones no quote,
    backslash, control character or character above U+D7FF either. *)
Theorem rules_roundtrip (gs : list RequestRuleGroup) :
  Forall editable gs ->
  tryParseRequestRuleExpr (buildRequestRuleExpr gs) = inr (Some (omap canonicalGroup gs)) /\
  buildRequestRuleExpr (omap canonicalGroup gs) = buildRequestRuleExpr gs.
Proof. intros H. split; [by apply rules_read_back|by apply rewrite_groups]. Qed.

Definition sample_groups : list RequestRuleGroup :=
  [Group [ParamHeaderCondition Header (js " X-Mode ") MATCH_EQ (js " fast ");
          TimeCondition Hour (js "UTC") MATCH_RANGE [] (js "22") (js " 6");
          ParamHeaderCondition Header (js "a") MATCH_CONTAINS (jq "x`y * z")] (js " 1.5 ") None None;
   Group [ParamHeaderCondition Param (js "") MATCH_EQ (js "1")] (js "3") None None;
   Group [ParamHeaderCondition Param (js "tier") MATCH_EQ (js "true")] (js "2") None None].

Lemma sample_editable : Forall editable sample_groups.
Proof. repeat constructor. Qed.

Lemma rules_roundtrip_witness :
  Forall editable sample_groups /\
  tryParseRequestRuleExpr (buildRequestRuleExpr sample_groups) = inr (Some (omap canonicalGroup sample_groups)) /\
  length (omap canonicalGroup sample_groups) = 2.
Proof. split; [apply sample_editable|]. split; [apply (rules_roundtrip sample_groups sample_editable)|reflexivity]. Defined.

(** ** Conditions that are not read back *)

Record unreadable (half : jstr) : Prop := {
  u_ok : ok half;
  u_trim : trimmed half;
  u_ne : half <> [];
  u_parse : tryParseRequestCondition half = inr None }.

Section Halves.
Context (p : jstr) (Hp : forallb path_unit p = true) (Hn : p <> []).

Definition has_half (v : jstr) : jstr := jq "has(param(`" ++ p ++ jq "`), " ++ json_quote v ++ js ")".
Definition cmp_half (op n : jstr) : jstr := jq "param(`" ++ p ++ jq "`) " ++ op ++ js " " ++ n.
Definition exists_text : jstr := jq "param(`" ++ p ++ jq "`) != nil".

Lemma has_half_unreadable v : forallb value_unit v = true -> unreadable (has_half v).
Proof.
  intros Hv. unfold has_half. split; [| |done|].
  - replace (jq "has(param(`" ++ p ++ jq "`), " ++ json_quote v ++ js ")") with
      (js "has" ++ js "(" ++ (js "param" ++ jq "(`" ++ p ++ jq "`)" ++ js ", " ++ json_quote v) ++ js ")")
      by (norm_lits; done).
    apply ok_app; [by apply ok_flat|]. apply ok_call, ok_source; [done..|].
    apply ok_app; [by apply ok_flat|by apply ok_flat, calm_flat, quote_calm].
  - split; intros c; [by intros [= <-]|]. change (js ")") with [41%N].
    rewrite !app_assoc, last_snoc. by intros [= <-].
  - apply read_param_has_half.
Qed.

Lemma cmp_half_unreadable op n :
  op ∈ [js ">"; js ">="; js "<"; js "<="] -> numeric n = true -> unreadable (cmp_half op n).
Proof.
  intros Hop Hv. pose proof (numeric_units _ Hv) as Hu. pose proof (numeric_nonempty _ Hv) as Hvn.
  unfold cmp_half. split; [| |done|].
  - replace (jq "param(`" ++ p ++ jq "`) " ++ op ++ js " " ++ n) with
      (js "param" ++ jq "(`" ++ p ++ jq "`)" ++ js " " ++ op ++ js " " ++ n) by (norm_lits; done).
    apply ok_source; [done..|]. repeat apply ok_app; try by apply ok_flat.
    + apply ok_flat. repeat (apply elem_of_cons in Hop as [->|Hop]; [done|]). by apply elem_of_nil in Hop.
    + by apply ok_flat, num_flat.
  - replace (jq "param(`" ++ p ++ jq "`) " ++ op ++ js " " ++ n) with
      (js "param(" ++ (jq "`" ++ p ++ jq "`) " ++ op ++ js " ") ++ n) by (norm_lits; done).
    apply trimmed_app_end; [by apply trimmed_no_ws|done|by apply num_trimmed|done].
  - apply read_param_cmp_half; [by apply path_no_quote|by apply path_length|done|done|].
    destruct n; [done|simpl; lia].
Qed.

(** A rule whose first condition is such a conjunction. *)
Lemma conjunction_unreadable half m0 :
  unreadable half -> numeric m0 = true ->
  tryParseRequestRuleExpr (factor_text (exists_text ++ js " && " ++ half) m0) = inr None.
Proof.
  intros [Ho Ht Hne Hh] Hm. pose proof (numeric_units _ Hm) as Hu. pose proof (numeric_nonempty _ Hm) as Hmn.
  destruct (written_exists p Hp Hn Param _ eq_refl) as [Ep En Et Ens Ea _].
  assert (Ex : ph_str Param ++ jq "(`" ++ p ++ jq "`)" ++ js " != nil" = exists_text).
  { unfold exists_text. cbn [ph_str]. unfold SOURCE_PARAM. norm_lits. done. }
  rewrite Ex in *.
  set (both := exists_text ++ js " && " ++ half).
  assert (Hs : splitTopLevelAnd both = [exists_text; half]).
  { apply (split_top_join 38 [38; 32]%N [exists_text; half]); [done|done| |done].
    repeat constructor; try done; try apply Et; try apply Ht; try apply Ens; try apply Ho.
    - by apply quiet_absent.
    - apply (quiet_absent 38 half); [apply Ho|by apply ok_no; [left|]]. }
  assert (Hb : tryParseRequestConditions both = inr None).
  { unfold tryParseRequestConditions. rewrite Hs. cbn [parse_parts]. rewrite !trim_id by done. by rewrite Ep, Hh. }
  assert (Hnest : nested both).
  { apply nested_app; [done|]. apply nested_app; [by apply nested_plain|apply Ho]. }
  assert (Eq : factor_text both m0 = 40%N :: (both ++ js " ? " ++ m0 ++ js " : 1") ++ [41%N]).
  { unfold factor_text. norm_lits. done. }
  assert (Hq : quiet 42 0 (factor_text both m0)).
  { rewrite Eq. apply quiet_paren; [|done..]. apply nested_app; [done|]. apply nested_app; [by apply nested_plain|].
    apply nested_app; [by apply nested_plain, flat_no_paren, num_flat|by apply nested_plain]. }
  assert (Htr : trimmed (factor_text both m0)).
  { rewrite Eq. split; intros x; [by intros [= <-]|]. rewrite app_comm_cons, last_snoc. by intros [= <-]. }
  unfold tryParseRequestRuleExpr. cbv zeta. rewrite trim_id by done.
  change (truthy (factor_text both m0)) with true. cbn [negb].
  assert (Hm1 : splitTopLevelMultiply (factor_text both m0) = [factor_text both m0]).
  { apply (split_top_join 42 [32%N] [factor_text both m0]); [done|done|by constructor|done]. }
  rewrite Hm1. cbn [parse_parts]. unfold tryParseRuleGroupFactor.
  destruct (factor_hit both m0) as (f & Hf & Hc); [unfold both; by destruct exists_text|done|done|].
  unfold factor_text. rewrite Hf. unfold group_or_empty, group. rewrite !Hc. cbn [cap_get Nat.eqb nullish]. by rewrite Hb.
Qed.
End Halves.

(** What is written for a parameter condition that is not an equality. *)
Lemma written_conjunction p mode v :
  forallb path_unit (trim p) = true -> trim p <> [] ->
  (mode = MATCH_CONTAINS /\ forallb value_unit (trim v) = true) \/
  (mode ∈ [MATCH_GT; MATCH_GTE; MATCH_LT; MATCH_LTE] /\ numeric (trim v) = true) ->
  exists half, unreadable half /\
    buildRequestConditionExpr (ParamHeaderCondition Param p mode v) = exists_text (trim p) ++ js " && " ++ half.
Proof.
  intros Hp Hn Hv. cbn [buildRequestConditionExpr]. rewrite normalize_param_header. cbv zeta.
  rewrite (proj2 (truthy_true _) Hn). cbn [negb]. rewrite (call_text (trim p) Hp). cbn [ph_str]. unfold exists_text, SOURCE_PARAM.
  destruct Hv as [[-> Hv]|[Hmode Hv]].
  - exists (has_half (trim p) (trim v)). split; [by apply has_half_unreadable|].
    change (mode_or _ _ _) with MATCH_CONTAINS. unfold buildExprLiteral, has_half.
    change (MATCH_CONTAINS =s MATCH_EXISTS) with false. change (MATCH_CONTAINS =s MATCH_CONTAINS) with true. cbn iota.
    norm_lits. done.
  - rewrite Hv. cbn [negb].
    repeat (apply elem_of_cons in Hmode as [->|Hmode]); [..|by apply elem_of_nil in Hmode].
    + exists (cmp_half (trim p) (js ">") (trim v)). split; [by apply cmp_half_unreadable; [..|set_solver|]|].
      change (mode_or _ _ _) with MATCH_GT. cbv [MATCH_GT MATCH_EXISTS MATCH_CONTAINS cmp_half]. norm_lits. done.
    + exists (cmp_half (trim p) (js ">=") (trim v)). split; [by apply cmp_half_unreadable; [..|set_solver|]|].
      change (mode_or _ _ _) with MATCH_GTE. cbv [MATCH_GT MATCH_GTE MATCH_EXISTS MATCH_CONTAINS cmp_half]. norm_lits. done.
    + exists (cmp_half (trim p) (js "<") (trim v)). split; [by apply cmp_half_unreadable; [..|set_solver|]|].
      change (mode_or _ _ _) with MATCH_LT. cbv [MATCH_GT MATCH_GTE MATCH_LT MATCH_EXISTS MATCH_CONTAINS cmp_half]. norm_lits. done.
    + exists (cmp_half (trim p) (js "<=") (trim v)). split; [by apply cmp_half_unreadable; [..|set_solver|]|].
      change (mode_or _ _ _) with MATCH_LTE. cbv [MATCH_GT MATCH_GTE MATCH_LT MATCH_LTE MATCH_EXISTS MATCH_CONTAINS cmp_half].
      norm_lits. done.
Qed.

(** A parameter condition that contains a text or compares with a number is
    written as a conjunction that the reader splits: the rule does not read back. *)
Theorem parameter_comparison_unreadable (p mode v mult : jstr) :
  forallb path_unit (trim p) = true -> trim p <> [] -> numeric (trim mult) = true ->
  (mode = MATCH_CONTAINS /\ forallb value_unit (trim v) = true) \/
  (mode ∈ [MATCH_GT; MATCH_GTE; MATCH_LT; MATCH_LTE] /\ numeric (trim v) = true) ->
  tryParseRequestRuleExpr (buildRequestRuleExpr [Group [ParamHeaderCondition Param p mode v] mult None None]) = inr None.
Proof.
  intros Hp Hn Hm Hv. destruct (written_conjunction p mode v Hp Hn Hv) as (half & Hh & E).
  assert (Ef : buildRequestRuleExpr [Group [ParamHeaderCondition Param p mode v] mult None None] =
               factor_text (exists_text (trim p) ++ js " && " ++ half) (trim mult)).
  { unfold buildRequestRuleExpr, buildRuleGroupFactor. cbn [List.map multiplier conditions]. cbv zeta. rewrite Hm, E. done. }
  rewrite Ef. by apply conjunction_unreadable.
Qed.

Lemma parameter_comparison_unreadable_witness :
  tryParseRequestRuleExpr (buildRequestRuleExpr
    [Group [ParamHeaderCondition Param (js "max_tokens") MATCH_GT (js "4096")] (js "2") None None]) = inr None.
Proof. apply parameter_comparison_unreadable; [reflexivity|done|reflexivity|right; split; [set_solver|reflexivity]]. Defined.

(** A base expression and the rules it was combined with. *)
Lemma split_combined (base : jstr) (gs : list RequestRuleGroup) :
  Forall editable gs -> omap canonicalGroup gs <> [] ->
  nested (trim base) -> trim base <> [] -> hasFullOuterParens (trim base) = false ->
  is_rule_part (js "(" ++ trim base ++ js ")") = inr false ->
  splitBillingExprAndRequestRules (combineBillingExpr base (buildRequestRuleExpr gs)) =
  inr (trim base, buildRequestRuleExpr gs).
Proof.
  intros Hg Hne Hb Hbn Hf Hr. pose proof (written_factors _ Hg) as Hw. unfold buildRequestRuleExpr.
  set (ts := List.filter truthy _) in *.
  assert (Ha : Forall (fun t => quiet 42 0 t /\ trimmed t /\ t <> []) ts).
  { apply Forall_forall. intros t (i & Hi)%list_elem_of_lookup. destruct (Forall2_lookup_l _ _ _ _ _ Hw Hi) as (? & _ & ? & ? & ? & _). done. }
  assert (Htn : ts <> []) by (intros E; rewrite E in Hw; by apply Forall2_nil_inv_l in Hw).
  assert (Htj : trimmed (join (js " * ") ts)) by (apply trimmed_join; eapply Forall_impl; [exact Ha|by intros ? (? & ? & ?)]).
  assert (Hjn : join (js " * ") ts <> []).
  { destruct ts as [|t ts']; [done|]. apply join_nonempty. by inversion Ha as [|? ? (? & ? & ?)]. }
  set (w := 40%N :: trim base ++ [41%N]).
  assert (Hwrap : quiet 42 0 w /\ trimmed w /\ w <> []).
  { split; [by apply quiet_paren|]. split; [|done]. split; intros x; [by intros [= <-]|].
    unfold w. rewrite app_comm_cons, last_snoc. by intros [= <-]. }
  assert (E : combineBillingExpr base (join (js " * ") ts) = join (js " * ") (w :: ts)).
  { unfold combineBillingExpr. cbv zeta. rewrite (trim_id (join _ ts)), (proj2 (truthy_true _) Hbn), (proj2 (truthy_true _) Hjn) by done.
    cbn [negb]. destruct ts as [|t ts']; [done|]. rewrite join_cons2. unfold w. norm_lits. done. }
  rewrite E. unfold splitBillingExprAndRequestRules. cbv zeta.
  rewrite trim_id by (apply trimmed_join; constructor; [split; apply Hwrap|eapply Forall_impl; [exact Ha|by intros ? (? & ? & ?)]]).
  rewrite (proj2 (truthy_true _)) by (apply join_nonempty, Hwrap). cbn [negb].
  assert (Es : splitTopLevelMultiply (join (js " * ") (w :: ts)) = w :: ts).
  { apply (split_top_join 42 [32%N] (w :: ts)); [done|done|by constructor|done]. }
  rewrite Es. destruct (Nat.leb_spec (length (w :: ts)) 1) as [Hl|_]; [destruct ts; [done|simpl in Hl; lia]|].
  cbn [partition_parts]. change w with (js "(" ++ trim base ++ js ")") at 1. rewrite Hr. cbn [bind].
  rewrite (partition_rules ts _ Hw). cbn [bind]. unfold w. rewrite unwrap_parens by first [done | apply trim_trimmed].
  by destruct ts.
Qed.

(** A base expression combined with written rules is split into the same base
    expression and the same rules, for a base expression that closes its
    parentheses, is not itself parenthesized, and does not read as a rule. *)
Theorem combine_split (base : jstr) (gs : list RequestRuleGroup) :
  Forall editable gs -> omap canonicalGroup gs <> [] ->
  nested (trim base) -> trim base <> [] -> hasFullOuterParens (trim base) = false ->
  is_rule_part (js "(" ++ trim base ++ js ")") = inr false ->
  splitBillingExprAndRequestRules (combineBillingExpr base (buildRequestRuleExpr gs)) =
  inr (trim base, buildRequestRuleExpr gs).
Proof. exact (split_combined base gs). Qed.

Definition sample_base : jstr := jq "len <= 200000 ? tier(`standard`, p * 3 + c * 15) : tier(`long`, p * 6 + c * 22.5) ".

Lemma combine_split_witness :
  nested (trim sample_base) /\
  splitBillingExprAndRequestRules (combineBillingExpr sample_base (buildRequestRuleExpr sample_groups)) =
  inr (trim sample_base, buildRequestRuleExpr sample_groups).
Proof.
  assert (Hn : nested (trim sample_base)) by (split; vm_compute; reflexivity). split; [exact Hn|].
  apply (combine_split sample_base sample_groups); [apply sample_editable|vm_compute; congruence|exact Hn|
    vm_compute; congruence|vm_compute; reflexivity|vm_compute; reflexivity].
Defined.
