(* ===== verification/TierExpr.v ===== *)
(** The visual editor of price tiers (web/src/features/pricing/lib/tier-expr.ts):
    tiers are written as an expression, read back from it, and priced locally.

    The interpreter that [new Function] gives is a parameter: it gets the numbers
    bound to names and the text, and gives the value of the expression, as a
    number, with the tiers it called in order, or the message of the exception. *)

From Stdlib Require Import NArith ZArith Lia ZifyBool ZifyN.
From Stdlib Require Import SpecFloat.
From stdpp Require Import base list gmap strings.
From S2P Require Import Prelude JsString JsNum Json Regex BillingExpr.

(** * Data *)

Inductive CacheMode := CACHE_MODE_TIMED | CACHE_MODE_GENERIC.

Inductive TierValue := TVNum (x : num) | TVStr (s : jstr) | TVNull.

Record TierConditionInput := TCI { tc_var : jstr; tc_op : jstr; tc_value : TierValue }.

(** [unit_costs] are the optional prices that are there, by the name of their
    field. *)
Record VisualTier := VTier {
  label : jstr; conditions : list TierConditionInput; input_unit_cost : num; output_unit_cost : num;
  cache_mode : CacheMode; unit_costs : list (jstr * num) }.

(** [Partial<VisualTier>]. *)
Record PartialTier := PTier {
  pt_label : option jstr; pt_conditions : option (list TierConditionInput);
  pt_input_unit_cost : option num; pt_output_unit_cost : option num;
  pt_cache_mode : option CacheMode; pt_unit_costs : list (jstr * num) }.

Definition partial_tier (t : VisualTier) : PartialTier :=
  PTier (Some (label t)) (Some (conditions t)) (Some (input_unit_cost t)) (Some (output_unit_cost t))
    (Some (cache_mode t)) (unit_costs t).

Record VisualConfig := VConfig { tiers : list VisualTier }.

(** [Number(tier\[field\])] *)
Definition unit_cost (field : jstr) (costs : list (jstr * num)) : num := map_get field costs ?? S754_nan.

(** [Number(tier\[field\]) || 0] *)
Definition unit_cost_or_zero (field : jstr) (costs : list (jstr * num)) : num := num_or_zero (unit_cost field costs).

(** * Normalization *)

Definition getTierCacheMode (mode : option CacheMode) (costs : list (jstr * num)) : CacheMode :=
  match mode with
  | Some mode => mode
  | None =>
      if num_ltb nzero (unit_cost (js "cache_create_1h_unit_cost") costs) then CACHE_MODE_TIMED else CACHE_MODE_GENERIC
  end.

Definition EXTRA_FIELDS : list jstr :=
  [js "cache_read_unit_cost"; js "cache_create_unit_cost"; js "cache_create_1h_unit_cost"; js "image_unit_cost";
   js "image_output_unit_cost"; js "audio_input_unit_cost"; js "audio_output_unit_cost"].

(** The spread of [tier] comes after the coerced input and output prices, and
    before the other ones. *)
Definition normalizeVisualTier (tier : PartialTier) : VisualTier :=
  VTier (pt_label tier ?? []) (pt_conditions tier ?? []) (pt_input_unit_cost tier ?? nzero)
    (pt_output_unit_cost tier ?? nzero) (getTierCacheMode (pt_cache_mode tier) (pt_unit_costs tier))
    (List.map (fun f => (f, unit_cost_or_zero f (pt_unit_costs tier))) EXTRA_FIELDS).

Definition createDefaultVisualConfig : VisualConfig :=
  VConfig [normalizeVisualTier
             (PTier (Some (js "base")) (Some []) (Some nzero) (Some nzero) (Some CACHE_MODE_GENERIC) [])].

Definition normalizeVisualConfig (config : option VisualConfig) : VisualConfig :=
  match config with
  | None | Some (VConfig []) => createDefaultVisualConfig
  | Some (VConfig ts) => VConfig (List.map (fun t => normalizeVisualTier (partial_tier t)) ts)
  end.

(** * Writing *)

Definition value_text (v : TierValue) : jstr :=
  match v with TVNum x => num_to_string x | TVStr s => s | TVNull => js "null" end.

Definition has_value (v : TierValue) : bool :=
  match v with TVNull => false | TVStr s => truthy s | TVNum _ => true end.

Definition is_complete (c : TierConditionInput) : bool :=
  (truthy (tc_var c) && truthy (tc_op c) && has_value (tc_value c))%bool.

Definition condition_text (c : TierConditionInput) : jstr :=
  tc_var c ++ js " " ++ tc_op c ++ js " " ++ value_text (tc_value c).

Definition buildConditionStr (cs : list TierConditionInput) : jstr :=
  join (js " && ") (List.map condition_text (List.filter is_complete cs)).

Definition cost_part (exprVar : jstr) (v : num) : jstr := exprVar ++ js " * " ++ num_to_string v.

(** The part of an entry of the map of variables, when its price is not zero. *)
Definition extra_part (costs : list (jstr * num)) (cv : jstr * jstr) : option jstr :=
  let v := unit_cost_or_zero cv.1 costs in
  if num_eqb v nzero then None else Some (cost_part cv.2 v).

Definition buildTierBodyExpr (tier : VisualTier) : jstr :=
  join (js " + ")
    (cost_part (js "p") (num_or_zero (input_unit_cost tier)) :: cost_part (js "c") (num_or_zero (output_unit_cost tier)) ::
     omap (extra_part (unit_costs tier)) BILLING_CACHE_VAR_MAP).

Definition no_charge : jstr := js "p * 0 + c * 0".

Definition tier_call (name : jstr) (tier : VisualTier) : jstr :=
  jq "tier(`" ++ name ++ jq "`, " ++ buildTierBodyExpr tier ++ js ")".

(** The [i]-th of [n] tiers, when there are several. *)
Definition tier_part (n i : nat) (tier : VisualTier) : jstr :=
  let name := or_str (label tier) (js "tier_" ++ print_N (N.of_nat (i + 1))) in
  let body := tier_call name tier in
  let cond := buildConditionStr (conditions tier) in
  if (Nat.ltb i (n - 1) && truthy cond)%bool then cond ++ js " ? " ++ body else body.

Definition generateExprFromVisualConfig (config : option VisualConfig) : jstr :=
  match config with
  | None | Some (VConfig []) => no_charge
  | Some (VConfig [tier]) =>
      let body := tier_call (or_str (label tier) (js "default")) tier in
      let cond := buildConditionStr (conditions tier) in
      if truthy cond then cond ++ js " ? " ++ body ++ js " : " ++ no_charge else body
  | Some (VConfig ts) => join (js " : ") (imap (tier_part (length ts)) ts)
  end.

(** * Reading *)

Definition RNumber (i : nat) : re := RGroup i (RPlus (RSet num_unit)).

(** A variable, an asterisk and a number, which is group [i]. *)
Definition RCost (exprVar : jstr) (i : nat) : list re :=
  [RLit exprVar; RWss; RLit (js "*"); RWss; RNumber i].

Definition RExtra (i : nat) (exprVar : jstr) : re := ROpt (RSeqs ([RWss; RLit (js "+"); RWss] ++ RCost exprVar i)).

(** [bodyPat], whose first group is group [i]. *)
Definition bodyPat (i : nat) : list re :=
  RCost (js "p") i ++ [RWss; RLit (js "+"); RWss] ++ RCost (js "c") (i + 1) ++
  imap (fun j cv => RExtra (i + 2 + j) cv.2) BILLING_CACHE_VAR_MAP.

(** The call of [tier], whose first group is group [i]. *)
Definition tierPat (i : nat) : list re :=
  [RLit (jq "tier(`"); RGroup i (RStar (RSet (not_unit 34))); RLit (jq "`,"); RWss] ++ bodyPat (i + 1) ++ [RLit (js ")")].

Definition singleRe : re := RSeqs ([RBol] ++ tierPat 1 ++ [REol]).
Definition visualTierRe : re := RSeqs ([ROpt (RSeqs [RCondGroup; RWss; RLit (js "?"); RWss])] ++ tierPat 2).

Definition conditionRe : re :=
  RSeqs [RBol; RGroup 1 RVar; RWss; RGroup 2 ROp; RWss; RGroup 3 (RPlus (RSet bound_unit)); REol].

Definition readCondition (cp : jstr) : option TierConditionInput :=
  match re_match conditionRe (trim cp) with
  | Some f =>
      Some (TCI (group_or_empty f 1) (group_or_empty f 2) (TVNum (num_of_string (group_or_empty f 3))))
  | None => None
  end.

Definition readConditions (condStr : jstr) : list TierConditionInput :=
  if truthy condStr then omap readCondition (split_re RAnd condStr) else [].

(** The tier of a match whose groups from [i] on are the label, the prices of
    [p] and [c], and the others. *)
Definition read_tier (i : nat) (cs : list TierConditionInput) (f : found) : VisualTier :=
  normalizeVisualTier
    (PTier (Some (group_or_empty f i)) (Some cs) (Some (num_of_string (group_or_empty f (i + 1))))
       (Some (num_of_string (group_or_empty f (i + 2)))) None
       (omap id (imap (fun j cv => (fun v => (cv.1, num_of_string v)) <$> group f (i + 3 + j)) BILLING_CACHE_VAR_MAP))).

Definition version_re : re :=
  RSeqs [RBol; RLit (js "v"); RPlus RDigit; RLit (js ":"); RGroup 1 (RStar RAny); REol].

Definition strip_version (exprStr : jstr) : jstr :=
  match re_match version_re exprStr with Some f => group_or_empty f 1 | None => exprStr end.

(** [s.replace(/\s+/g, '')] *)
Definition without_ws (s : jstr) : jstr := replace_all (RPlus RWs) [] s.

Definition tryParseVisualConfig (exprStr : option jstr) : option VisualConfig :=
  match exprStr with
  | None | Some [] => None
  | Some exprStr =>
      let body := strip_version exprStr in
      match re_match singleRe body with
      | Some f => Some (normalizeVisualConfig (Some (VConfig [read_tier 1 [] f])))
      | None =>
          match List.map (fun f => read_tier 2 (readConditions (group_or_empty f 1)) f) (exec_all visualTierRe body) with
          | [] => None
          | ts =>
              let cfg := normalizeVisualConfig (Some (VConfig ts)) in
              let regenerated := generateExprFromVisualConfig (Some cfg) in
              if negb (without_ws regenerated =s without_ws body) then None else Some cfg
          end
      end
  end.

(** * The local estimate *)

(** [var] and [stateKey]. *)
Definition ESTIMATOR_VARS : list (jstr * jstr) :=
  [(js "cr", js "cacheReadTokens"); (js "cc", js "cacheCreateTokens"); (js "cc1h", js "cacheCreate1hTokens");
   (js "img", js "imageTokens"); (js "img_o", js "imageOutputTokens"); (js "ai", js "audioInputTokens");
   (js "ao", js "audioOutputTokens")].

Record EvalResult := Eval { cost : num; matchedTier : jstr; eval_error : option jstr }.

Section Estimate.
Context (interpret : list (jstr * num) -> jstr -> jstr + num * list jstr).

(** The numbers bound to names; [tier], [max], [min], [abs], [ceil] and [floor]
    belong to the interpreter. *)
Definition estimate_env (promptTokens completionTokens : num) (extra : jstr -> num) : list (jstr * num) :=
  let len := num_add (num_add (num_add promptTokens (num_or_zero (extra (js "cacheReadTokens"))))
                        (num_or_zero (extra (js "cacheCreateTokens"))))
               (num_or_zero (extra (js "cacheCreate1hTokens"))) in
  [(js "p", promptTokens); (js "c", completionTokens); (js "len", len)] ++
  List.map (fun f => (f.1, num_or_zero (extra f.2))) ESTIMATOR_VARS.

Definition evalExprLocally (exprStr : jstr) (promptTokens completionTokens : num) (extra : jstr -> num) : EvalResult :=
  if (negb (truthy exprStr) || negb (truthy (trim exprStr)))%bool then Eval nzero [] None
  else
    match interpret (estimate_env promptTokens completionTokens extra) exprStr with
    | inr (value, called) => Eval (num_or_zero value) (last called ?? []) None
    | inl message => Eval nzero [] (Some message)
    end.
End Estimate.

Definition exprUsesExtraVars (exprStr : jstr) : bool :=
  if negb (truthy exprStr) then false
  else re_test (RSeqs [RWordB; RGroup 1 (RAlts (List.map (fun f => RLit f.1) ESTIMATOR_VARS)); RWordB]) exprStr.

(** * Examples *)

Definition sample_config : VisualConfig :=
  VConfig [VTier (js "standard") [TCI (js "len") (js "<=") (TVNum (num_of_Z 200000)); TCI (js "p") (js "<") (TVStr (js "1e5"))]
             (num_of_Z 3) (num_of_Z 15) CACHE_MODE_GENERIC [(js "cache_read_unit_cost", num_of_string (js "0.3"))];
           VTier [] [] (num_of_Z 6) (num_of_string (js "22.5")) CACHE_MODE_TIMED []].

Example generate_sample :
  generateExprFromVisualConfig (Some sample_config) =
  jq "len <= 200000 && p < 1e5 ? tier(`standard`, p * 3 + c * 15 + cr * 0.3) : tier(`tier_2`, p * 6 + c * 22.5)".
Proof. vm_compute. reflexivity. Qed.

(** The price of a bound that is written in another way is not read. *)
Example parse_sample :
  tryParseVisualConfig (Some (generateExprFromVisualConfig (Some sample_config))) = None.
Proof. vm_compute. reflexivity. Qed.

(** * Reading the prices of a tier *)

Definition num_text (t : jstr) : Prop := forallb num_unit t = true /\ t <> [].

Lemma nonempty_length {A} (t : list A) : t <> [] -> 1 <= length t.
Proof. destruct t; [done|simpl; lia]. Qed.

Lemma takes_space v : stops is_ws v -> takes [RWss] (js " ") v id.
Proof. intros Hv. apply takes_run; [done|lia|done]. Qed.

Lemma takes_number i t v : num_text t -> stops num_unit v -> takes [RNumber i] t v (cset i t).
Proof.
  intros [Ht Hne] Hv. eapply takes_conv; [apply takes_group, takes_run|done|done]; try done. by apply nonempty_length.
Qed.

Lemma num_head_no_ws t v : num_text t -> stops is_ws (t ++ v).
Proof.
  intros [Ht Hne]. destruct t as [|c t]; [done|]. simpl in *. apply andb_true_iff in Ht as [Hc _].
  apply num_unit_plain in Hc. unfold is_ws, in_range. lia.
Qed.

(** The literal, a space, an asterisk, a space and a number. *)
Lemma takes_cost x i t v :
  num_text t -> stops num_unit v -> takes (RCost x i) (x ++ js " * " ++ t) v (cset i t).
Proof.
  intros Ht Hv. unfold RCost.
  change (js " * " ++ t) with (js " " ++ js "*" ++ js " " ++ t).
  eapply takes_conv; [|reflexivity|].
  - eapply takes_cons; [apply takes_lit|]. eapply takes_cons; [by apply takes_space|].
    eapply takes_cons; [apply takes_lit|]. eapply takes_cons; [apply takes_space; by apply num_head_no_ws|].
    by apply takes_number.
  - done.
Qed.

Definition plus_part : list re := [RWss; RLit (js "+"); RWss].

Lemma takes_plus v : stops is_ws v -> takes plus_part (js " + ") v id.
Proof.
  intros Hv. unfold plus_part. change (js " + ") with (js " " ++ js "+" ++ js " ").
  eapply takes_conv; [|reflexivity|].
  - eapply takes_cons; [by apply takes_space|]. eapply takes_cons; [apply takes_lit|by apply takes_space].
  - done.
Qed.

Definition extra_vars : list jstr := BILLING_CACHE_VAR_MAP.*2.

Lemma extra_var_cases x :
  x ∈ extra_vars ->
  x = js "cr" \/ x = js "cc" \/ x = js "cc1h" \/ x = js "img" \/ x = js "img_o" \/ x = js "ai" \/ x = js "ao".
Proof.
  change extra_vars with [js "cr"; js "cc"; js "cc1h"; js "img"; js "img_o"; js "ai"; js "ao"].
  rewrite !elem_of_cons, elem_of_nil. tauto.
Qed.

Lemma extra_vars_distinct : NoDup extra_vars.
Proof. apply (bool_decide_eq_true_1 (NoDup extra_vars)). vm_compute. reflexivity. Qed.

Lemma extra_var_head x v : x ∈ extra_vars -> stops is_ws (x ++ v).
Proof.
  intros H%extra_var_cases. by destruct_or! H; subst x.
Qed.

Lemma takes_extra x i t v :
  x ∈ extra_vars -> num_text t -> stops num_unit v ->
  takes [RExtra i x] (js " + " ++ x ++ js " * " ++ t) v (fun cs => cset i t (cclear [i] cs)).
Proof.
  intros Hx Ht Hv. unfold RExtra. fold plus_part. eapply takes_conv; [|reflexivity|].
  - apply takes_opt; [done|]. apply takes_seqs. eapply takes_app; [|by apply takes_cost].
    apply takes_plus. rewrite <-app_assoc. by apply extra_var_head.
  - done.
Qed.

(** One variable is not taken for another one, nor the end of the call for one. *)
Lemma fails_other x y i r :
  x ∈ extra_vars -> y ∈ extra_vars -> x <> y -> fails (RSeqs (plus_part ++ RCost x i)) (js " + " ++ y ++ js " * " ++ r).
Proof.
  intros Hx Hy Hne. unfold plus_part. cbn [app].
  apply (fails_after_run is_ws 43%N [] _ (js " ") (js "+ " ++ y ++ js " * " ++ r)); [done|done|done|].
  apply (fails_after_lit (js "+") _ (js " " ++ y ++ js " * " ++ r)). unfold RCost.
  assert (H : fails (RSeqs (RLit x :: [RWss; RLit (js "*"); RWss; RNumber i])) (y ++ js " * " ++ r)).
  { apply extra_var_cases in Hx, Hy. destruct_or! Hx; destruct_or! Hy; subst x y; try (by destruct Hne);
      try (by apply fails_head, fails_lit).
    all: match goal with |- fails (RSeqs (RLit ?x :: _)) (?y ++ ?r) =>
      let z := eval vm_compute in (drop (length x) y) in change (y ++ r) with (x ++ z ++ r) end;
      apply fails_after_lit, fails_after_none; [done|by apply fails_head, fails_lit]. }
  destruct x as [|d x]; [by apply extra_var_cases in Hx; destruct_or! Hx|].
  apply (fails_after_run is_ws d x _ (js " ") (y ++ js " * " ++ r)); [done|by apply extra_var_head| |done].
  pose proof (extra_var_head (d :: x) [] Hx) as Hd. done.
Qed.

Lemma fails_end x i r : fails (RSeqs (plus_part ++ RCost x i)) (41%N :: r).
Proof. unfold plus_part. cbn [app]. apply fails_after_none; [done|]. by apply fails_head, fails_lit. Qed.

(** The texts of the prices [f] gives, and the captures they leave from group
    [i] on. *)
Definition extras_text (f : jstr * jstr -> option jstr) (L : list (jstr * jstr)) : jstr :=
  concat (omap (fun cv => (fun t => js " + " ++ cv.2 ++ js " * " ++ t) <$> f cv) L).

Fixpoint extras_caps (i : nat) (f : jstr * jstr -> option jstr) (L : list (jstr * jstr)) (cs : list (nat * jstr)) :=
  match L with
  | [] => cs
  | cv :: L => extras_caps (S i) f L (match f cv with Some t => cset i t (cclear [i] cs) | None => cs end)
  end.

Lemma extras_text_cons f cv L :
  extras_text f (cv :: L) =
  match f cv with Some t => js " + " ++ cv.2 ++ js " * " ++ t | None => [] end ++ extras_text f L.
Proof. unfold extras_text. cbn [omap list_omap]. by destruct (f cv). Qed.

Lemma extras_text_shape f L :
  (extras_text f L = [] \/ exists y r, y ∈ L.*2 /\ extras_text f L = js " + " ++ y ++ js " * " ++ r)%type.
Proof.
  induction L as [|cv L IH]; [by left|]. rewrite extras_text_cons. destruct (f cv) as [t|].
  - right. exists cv.2, (t ++ extras_text f L). rewrite <-!app_assoc. split; [apply list_elem_of_here|done].
  - destruct IH as [IH|(y & r & Hy & IH)]; [by left|]. right. exists y, r. split; [by right|done].
Qed.

Lemma fails_before_extras f L x i v :
  x ∈ extra_vars -> incl L.*2 extra_vars -> x ∉ L.*2 ->
  fails (RSeqs (plus_part ++ RCost x i)) (extras_text f L ++ 41%N :: v).
Proof.
  intros Hx HL Hn. destruct (extras_text_shape f L) as [->|(y & r & Hy & ->)]; [apply fails_end|].
  rewrite <-!app_assoc. apply fails_other; [done|by apply list_elem_of_In, HL, list_elem_of_In|congruence].
Qed.

Lemma extras_stop f L v : stops num_unit (extras_text f L ++ 41%N :: v).
Proof. by destruct (extras_text_shape f L) as [->|(y & r & Hy & ->)]. Qed.

Lemma takes_extras f v L : forall i,
  incl L.*2 extra_vars -> NoDup L.*2 -> (forall cv t, cv ∈ L -> f cv = Some t -> num_text t) ->
  takes (imap (fun j cv => RExtra (i + j) cv.2) L) (extras_text f L) (41%N :: v) (extras_caps i f L).
Proof.
  induction L as [|cv L IH]; intros i HL Hnd Hf; [by apply takes_nil|].
  apply NoDup_cons in Hnd as [Hn Hnd]. rewrite extras_text_cons. cbn [imap].
  assert (Hx : cv.2 ∈ extra_vars) by (apply list_elem_of_In, HL; by left).
  assert (HL' : incl L.*2 extra_vars) by (intros y Hy; apply HL; by right).
  replace (imap _ L) with (imap (fun j cv => RExtra (S i + j) cv.2) L)
    by (apply imap_ext; intros; unfold compose; simpl; by rewrite Nat.add_succ_r).
  rewrite Nat.add_0_r. cbn [extras_caps].
  eapply takes_conv; [eapply takes_cons; [|apply IH; [done|done|intros; eapply Hf; [by right|done]]]|done|].
  - instantiate (1 := fun cs => match f cv with Some t => cset i t (cclear [i] cs) | None => cs end).
    destruct (f cv) as [t|] eqn:E.
    + apply takes_extra; [done|by eapply Hf; [left|]|apply extras_stop].
    + unfold RExtra. fold plus_part. apply takes_opt_none. by apply fails_before_extras.
  - done.
Qed.

Lemma extras_caps_before i f L cs j : j < i -> cap_get j (extras_caps i f L cs) = cap_get j cs.
Proof.
  revert i cs. induction L as [|cv L IH]; intros i cs Hj; [done|]. cbn [extras_caps]. rewrite IH by lia.
  destruct (f cv) as [t|]; [|done]. rewrite cap_get_cset, cap_get_cclear. cbn [existsb].
  by rewrite (proj2 (Nat.eqb_neq j i)) by lia.
Qed.

(** The capture of the [j]-th price. *)
Lemma extras_caps_at i f L cs j cv :
  (forall g, i <= g -> cap_get g cs = None) -> L !! j = Some cv -> cap_get (i + j) (extras_caps i f L cs) = f cv.
Proof.
  revert i cs j. induction L as [|cv' L IH]; intros i cs j Hcs Hj; [done|]. cbn [extras_caps].
  destruct j as [|j]; cbn in Hj.
  - injection Hj as ->. rewrite Nat.add_0_r, extras_caps_before by lia. destruct (f cv) as [t|]; [|by apply Hcs].
    by rewrite cap_get_cset, Nat.eqb_refl.
  - rewrite Nat.add_succ_r, <-Nat.add_succ_l. apply IH; [|done]. intros g Hg. destruct (f cv') as [t|]; [|apply Hcs; lia].
    rewrite cap_get_cset, cap_get_cclear. cbn [existsb]. rewrite (proj2 (Nat.eqb_neq g i)) by lia. apply Hcs. lia.
Qed.

(** The text of a tier: its name, the prices of [p] and [c], the others. *)
Definition tier_text (name ic oc : jstr) (f : jstr * jstr -> option jstr) : jstr :=
  jq "tier(`" ++ name ++ jq "`, " ++ (js "p * " ++ ic) ++ js " + " ++ (js "c * " ++ oc) ++
  extras_text f BILLING_CACHE_VAR_MAP ++ js ")".

Definition tier_caps (i : nat) (name ic oc : jstr) (f : jstr * jstr -> option jstr) (cs : list (nat * jstr)) :=
  extras_caps (i + 3) f BILLING_CACHE_VAR_MAP (cset (i + 2) oc (cset (i + 1) ic (cset i name cs))).

Definition plain_name (name : jstr) : bool := forallb (not_unit 34) name.

Lemma takes_tier i name ic oc f v :
  plain_name name = true -> num_text ic -> num_text oc ->
  (forall cv t, cv ∈ BILLING_CACHE_VAR_MAP -> f cv = Some t -> num_text t) ->
  takes (tierPat i) (tier_text name ic oc f) v (tier_caps i name ic oc f).
Proof.
  intros Hn Hic Hoc Hf. unfold tierPat, tier_text, bodyPat.
  change (jq "`, ") with (jq "`," ++ js " "). rewrite <-(app_assoc (jq "`,")).
  eapply takes_conv; [|reflexivity|].
  - cbn [app].
    eapply takes_cons; [apply takes_lit|].
    eapply takes_cons; [apply takes_group, takes_run; [exact Hn|lia|done]|].
    eapply takes_cons; [apply takes_lit|]. eapply takes_cons; [by apply takes_space|].
    eapply (takes_app (RCost (js "p") (i + 1))); [by apply (takes_cost (js "p"))|].
    eapply (takes_app plus_part); [by apply takes_plus|].
    eapply (takes_app (RCost (js "c") (i + 1 + 1))); [apply (takes_cost (js "c")); [done|]|].
    { rewrite <-app_assoc. apply (extras_stop f BILLING_CACHE_VAR_MAP v). }
    eapply takes_app; [|apply takes_lit]. apply (takes_extras f v BILLING_CACHE_VAR_MAP (i + 1 + 2)); [apply incl_refl|apply extra_vars_distinct|done].
  - intros cs. unfold tier_caps, id. cbn [app]. f_equal; [lia|]. f_equal; lia.
Qed.

(** * Reading conditions *)

Definition bound_text (t : jstr) : Prop := forallb bound_unit t = true /\ t <> [].

Definition tier_vars : list jstr := [js "p"; js "c"; js "len"].
Definition tier_ops : list jstr := [js "<"; js "<="; js ">"; js ">="].

Lemma bound_unit_plain c : bound_unit c = true -> (48 <= c <= 57)%N \/ c = 46%N \/ c = 101%N \/ c = 69%N \/ c = 43%N.
Proof. unfold bound_unit, is_digit, in_range, one_of. simpl. rewrite orb_false_r. lia. Qed.

Lemma bound_no_ws t : bound_text t -> forallb (fun c => negb (is_ws c)) t = true.
Proof.
  intros [Ht _]. apply forallb_forall. intros c Hc. rewrite forallb_forall in Ht. apply Ht, bound_unit_plain in Hc.
  apply negb_true_iff. unfold is_ws, in_range. lia.
Qed.

Lemma bound_head_no_ws t v : bound_text t -> stops is_ws (t ++ v).
Proof.
  intros Hb. pose proof (bound_no_ws t Hb) as H. destruct t as [|c t]; [by destruct Hb|].
  simpl in *. by apply andb_true_iff in H as [->%negb_true_iff _].
Qed.

Lemma takes_var x v : x ∈ tier_vars -> takes [RVar] x v id.
Proof.
  unfold tier_vars, RVar. cbn [RAlts]. rewrite !elem_of_cons, elem_of_nil.
  intros [->|[->|[->|[]]]].
  - apply takes_alt_first, takes_lit.
  - apply takes_alt_r; [by apply fails_lit|]. apply takes_alt_first, takes_lit.
  - apply takes_alt_r; [by apply fails_lit|]. apply takes_alt_r; [by apply fails_lit|]. apply takes_lit.
Qed.

Lemma op_head_no_ws o v : o ∈ tier_ops -> stops is_ws (o ++ v).
Proof. unfold tier_ops. rewrite !elem_of_cons, elem_of_nil. by intros [->|[->|[->|[->|[]]]]]. Qed.

(** An operator that begins another one is left for it when no [=] can follow;
    the choice may be in a group. *)
Section Op.
Context (wrap : re -> re) (mark : jstr -> list (nat * jstr) -> list (nat * jstr)).
Context (Halt : forall a b k s, m (wrap (RAlt a b)) k s = m (RAlt (wrap a) (wrap b)) k s).
Context (Hlit : forall x v, takes [wrap (RLit x)] x v (mark x)).
Context (Hfail : forall x l w, fails (RSeqs (RLit x :: l)) w -> fails (RSeqs (wrap (RLit x) :: l)) w).

Lemma takes_op l o u v c :
  o ∈ tier_ops -> (forall w, fails (RSeqs l) (61%N :: w)) -> takes l u v c ->
  takes (wrap ROp :: l) (o ++ u) v (fun cs => c (mark o cs)).
Proof.
  intros Ho Hl Hu. unfold tier_ops, ROp in *. cbn [RAlts]. rewrite !elem_of_cons, elem_of_nil in Ho.
  assert (Ht : forall x, takes (wrap (RLit x) :: l) (x ++ u) v (fun cs => c (mark x cs))).
  { intros x. eapply takes_cons; [apply Hlit|done]. }
  assert (Hskip : forall x w, strip_prefix x w = None -> fails (RSeqs (wrap (RLit x) :: l)) w).
  { intros x w H. by apply Hfail, fails_head, fails_lit. }
  assert (Hbegin : forall x w, fails (RSeqs (wrap (RLit x) :: l)) (x ++ 61%N :: w)).
  { intros x w. by apply Hfail, fails_after_lit. }
  assert (Hsplit : forall a b w d, takes (RAlt (wrap a) (wrap b) :: l) w v d -> takes (wrap (RAlt a b) :: l) w v d).
  { intros a b w d H s Hs. destruct (H s Hs) as (s' & H1 & H2 & H3). exists s'. split_and!; [done|done|].
    intros k x Hk. cbn [foldr]. rewrite Halt. by apply H3. }
  destruct Ho as [->|[->|[->|[->|[]]]]]; apply Hsplit.
  - by apply takes_alt_first.
  - apply takes_alt_seq; [apply (Hbegin (js "<"))|]. by apply Hsplit, takes_alt_first.
  - apply takes_alt_seq; [by apply Hskip|]. apply Hsplit, takes_alt_seq; [by apply Hskip|]. by apply Hsplit, takes_alt_first.
  - apply takes_alt_seq; [by apply Hskip|]. apply Hsplit, takes_alt_seq; [by apply Hskip|]. apply Hsplit.
    apply takes_alt_seq; [apply (Hbegin (js ">"))|]. apply Ht.
Qed.
End Op.

Record readable (c : TierConditionInput) : Prop := {
  rd_var : tc_var c ∈ tier_vars;
  rd_op : tc_op c ∈ tier_ops;
  rd_value : bound_text (value_text (tc_value c));
  rd_same : num_to_string (num_of_string (value_text (tc_value c))) = value_text (tc_value c) }.

(** What follows the operator does not begin with an equals sign. *)
Lemma fails_value r w : fails (RSeqs r) (61%N :: w) -> fails (RSeqs (RWss :: r)) (61%N :: w).
Proof. by apply fails_after_none. Qed.

Lemma takes_cond c v : readable c -> stops bound_unit v -> takes [RCond] (condition_text c) v id.
Proof.
  intros [Hx Ho Ht _] Hv. unfold RCond, condition_text. apply takes_seqs.
  eapply takes_conv; [|reflexivity|].
  - eapply takes_cons; [by apply takes_var|]. eapply takes_cons; [apply takes_space|].
    { rewrite <-app_assoc. by apply op_head_no_ws. }
    apply (takes_op id (fun _ => id)); [done|apply takes_lit|done|done|..].
    + intros w. by apply fails_value, fails_plus.
    + eapply takes_cons; [apply takes_space; by apply bound_head_no_ws|].
      apply takes_run; [apply Ht|by apply nonempty_length, Ht|done].
  - done.
Qed.

Definition conds_text (cs : list TierConditionInput) : jstr := join (js " && ") (List.map condition_text cs).

Lemma takes_and_parts v : stops is_ws v -> takes [RWss; RLit (js "&&"); RWss] (js " && ") v id.
Proof.
  intros Hv. change (js " && ") with (js " " ++ js "&&" ++ js " ").
  eapply takes_conv; [|reflexivity|].
  - eapply takes_cons; [by apply takes_space|]. eapply takes_cons; [apply takes_lit|by apply takes_space].
  - done.
Qed.

Lemma takes_and v : stops is_ws v -> takes [RAnd] (js " && ") v id.
Proof. intros Hv. by apply takes_seqs, takes_and_parts. Qed.

Lemma condition_head c v : readable c -> stops is_ws (condition_text c ++ v).
Proof.
  intros [Hx _ _ _]. unfold condition_text, tier_vars in *. rewrite !elem_of_cons, elem_of_nil in Hx.
  by destruct Hx as [->|[->|[->|[]]]].
Qed.

(** A separator, or the end of the condition of a tier. *)
Lemma takes_more cs v :
  Forall readable cs ->
  takes [RStar (RSeq RAnd RCond)] (concat (List.map (fun c => js " && " ++ condition_text c) cs)) (js " ? " ++ v) id.
Proof.
  intros H. induction H as [|c cs Hc Hcs IH].
  - apply takes_star_nil. apply (fails_head RAnd [RCond]).
    apply (fails_after_run is_ws 38%N [38%N] [RWss] (js " ") (js "? " ++ v)); [done|done|done|].
    by apply fails_head, fails_lit.
  - cbn [List.map concat]. apply takes_star_cons; [done|by destruct (condition_text c)| |done].
    apply (takes_seqs [RAnd; RCond]). eapply takes_conv; [|reflexivity|].
    + eapply takes_cons; [apply takes_and; rewrite <-?app_assoc; by apply condition_head|].
      apply takes_cond; [done|]. by destruct cs.
    + done.
Qed.

Lemma join_concat sep x l : join sep (x :: l) = x ++ concat (List.map (fun y => sep ++ y) l).
Proof.
  revert x. induction l as [|y l IH]; intros x; [cbn; by rewrite app_nil_r|].
  change (join sep (x :: y :: l)) with (x ++ sep ++ join sep (y :: l)). rewrite IH. cbn [List.map concat].
  by rewrite <-app_assoc.
Qed.

Lemma takes_conds c cs v :
  Forall readable (c :: cs) -> takes [RCondGroup] (conds_text (c :: cs)) (js " ? " ++ v) (cset 1 (conds_text (c :: cs))).
Proof.
  intros [Hc Hcs]%Forall_cons. unfold RCondGroup, conds_text. cbn [List.map]. rewrite join_concat, List.map_map.
  eapply takes_conv; [apply takes_group; apply (takes_seqs [RCond; RStar (RSeq RAnd RCond)])|reflexivity|].
  - eapply takes_cons; [apply takes_cond; [done|by destruct cs]|by apply takes_more].
  - done.
Qed.

Definition question : list re := [RWss; RLit (js "?"); RWss].

Lemma takes_question v : stops is_ws v -> takes question (js " ? ") v id.
Proof.
  intros Hv. unfold question. change (js " ? ") with (js " " ++ js "?" ++ js " ").
  eapply takes_conv; [|reflexivity|].
  - eapply takes_cons; [by apply takes_space|]. eapply takes_cons; [apply takes_lit|by apply takes_space].
  - done.
Qed.

(** ** The parts of a condition *)

Record cond_part (u : jstr) : Prop := {
  cp_ne : u <> []; cp_amp : 38%N ∉ u; cp_trim : trimmed u }.

Lemma and_needs_amp k s x : m RAnd k s = Some x -> 38%N ∈ rest s.
Proof.
  unfold RAnd, RWss. rewrite m_seqs. cbn [foldr]. intros (u & v & -> & _ & _ & H)%m_run_inv.
  cbn [m adv rest] in H. destruct (strip_prefix (js "&&") v) as [t|] eqn:E; [|done].
  apply strip_prefix_some in E as ->. apply elem_of_app. right. left.
Qed.

Lemma scan_no_and i p s : 38%N ∉ s -> scan RAnd i p s = None.
Proof.
  revert i p. induction s as [|c s IH]; intros i p Hs; cbn [scan].
  all: match goal with |- context [m RAnd Some ?st] => destruct (m RAnd Some st) eqn:E end; [by apply and_needs_amp in E|].
  - done.
  - apply IH. intros Hin. apply Hs. by right.
Qed.

Lemma and_fails_inside c u v :
  38%N ∉ c :: u -> trimmed (drop_while is_ws (c :: u)) -> drop_while is_ws (c :: u) <> [] -> fails RAnd ((c :: u) ++ v).
Proof.
  intros Hn Ht Hne. destruct (drop_while_suffix is_ws (c :: u)) as (a & Ha & Hws).
  remember (drop_while is_ws (c :: u)) as b eqn:Eb. rewrite Ha in Hn |- *. rewrite <-app_assoc.
  destruct b as [|d b]; [done|]. assert (Hd : d <> 38%N) by (intros ->; apply Hn, elem_of_app; right; left).
  apply (fails_after_run is_ws 38%N [38%N] [RWss] a ((d :: b) ++ v)); [done| |done|].
  - destruct Ht as [Hh _]. by apply (Hh d).
  - apply fails_head, fails_lit. cbn [strip_prefix app]. by rewrite (proj2 (N.eqb_neq _ _)).
Qed.

Lemma drop_while_last u d : last u = Some d -> is_ws d = false -> drop_while is_ws u <> [] /\ trimmed (drop_while is_ws u).
Proof.
  intros Hl Hd. destruct (drop_while_suffix is_ws u) as (a & Ha & Hws).
  assert (Hne : drop_while is_ws u <> []).
  { intros E. rewrite E, app_nil_r in Ha. subst a. apply last_Some_elem_of in Hl.
    rewrite forallb_forall in Hws. apply list_elem_of_In, Hws in Hl. congruence. }
  split; [done|]. split.
  - intros c Hc. destruct (drop_while is_ws u) as [|c' w] eqn:E; [done|]. injection Hc as <-. by eapply drop_while_head.
  - intros c Hc. rewrite Ha, last_app_end in Hl by done. congruence.
Qed.

Lemma scan_and u v : forall i p,
  38%N ∉ u -> (forall d, last u = Some d -> is_ws d = false) -> stops is_ws v ->
  exists q, scan RAnd i p (u ++ js " && " ++ v) = Some (Found (i + length u) (js " && ") q v []).
Proof.
  induction u as [|c u IH]; intros i p Hn Hl Hv.
  - cbn [length app]. rewrite Nat.add_0_r. apply (scan_takes _ (js " && ") v id).
    by apply takes_and_parts.
  - cbn [app length]. rewrite scan_skip.
    + replace (i + S (length u)) with (S i + length u) by lia. apply IH; [|intros d Hd|done].
      * intros Hin. apply Hn. by right.
      * apply Hl. destruct u; [done|exact Hd].
    + destruct (last (c :: u)) as [d|] eqn:Ed; [|by apply last_None in Ed].
      destruct (drop_while_last (c :: u) d Ed (Hl d eq_refl)) as [Hne Ht].
      by apply (and_fails_inside c u (js " && " ++ v) Hn Ht Hne).
Qed.

Lemma split_conds parts : forall u fuel i p,
  Forall cond_part (u :: parts) -> length (join (js " && ") (u :: parts)) < fuel ->
  split_from i (join (js " && ") (u :: parts)) (exec_all_from fuel RAnd i p (join (js " && ") (u :: parts))) = u :: parts.
Proof.
  induction parts as [|w parts IH]; intros u fuel i p Hp Hf; (destruct fuel as [|fuel]; [lia|]);
    apply Forall_cons in Hp as [[Hne Hn [_ Hl]] Hp].
  - cbn [join exec_all_from]. by rewrite scan_no_and.
  - change (join (js " && ") (u :: w :: parts)) with (u ++ js " && " ++ join (js " && ") (w :: parts)) in *.
    cbn [exec_all_from]. destruct (scan_and u (join (js " && ") (w :: parts)) i p Hn Hl) as (q & E).
    { apply Forall_cons in Hp as [[Hw _ [Hh _]] _]. destruct w as [|c w]; [done|]. specialize (Hh c eq_refl). by destruct parts. }
    rewrite E. cbn [split_from f_before f_text f_prev f_rest].
    replace (i + length u - i) with (length u) by lia. rewrite take_app_length. f_equal.
    apply IH; [done|]. rewrite !length_app in Hf. change (length (js " && ")) with 4 in Hf. lia.
Qed.

Lemma amp_free x : x ∈ tier_vars \/ x ∈ tier_ops -> 38%N ∉ x.
Proof.
  unfold tier_vars, tier_ops. rewrite !elem_of_cons, !elem_of_nil. intros H.
  assert (E : forallb (fun c => negb (c =? 38)%N) x = true) by (by destruct_or! H; subst x).
  intros Hin. rewrite forallb_forall in E. by apply list_elem_of_In, E in Hin.
Qed.

Lemma bound_no_amp t : bound_text t -> 38%N ∉ t.
Proof.
  intros [Ht _] Hin. rewrite forallb_forall in Ht. by apply list_elem_of_In, Ht in Hin.
Qed.

Lemma condition_part c : readable c -> cond_part (condition_text c).
Proof.
  intros Hc. pose proof (condition_head c [] Hc) as Hh. rewrite app_nil_r in Hh. destruct Hc as [Hx Ho Hv _].
  split.
  - unfold condition_text. by destruct (tc_var c).
  - unfold condition_text. rewrite !elem_of_app.
    assert (Hsp : 38%N ∉ js " ") by (intros H%elem_of_cons; destruct H as [H|H]; [done|by apply elem_of_nil in H]).
    pose proof (amp_free _ (or_introl Hx)). pose proof (amp_free _ (or_intror Ho)). pose proof (bound_no_amp _ Hv). tauto.
  - split.
    + intros d Hd. destruct (condition_text c); [done|]. injection Hd as ->. exact Hh.
    + intros d Hd. unfold condition_text in Hd. rewrite !app_assoc, last_app_end in Hd by apply Hv.
      apply last_Some_elem_of in Hd. pose proof (bound_no_ws _ Hv) as Hw. rewrite forallb_forall in Hw.
      apply list_elem_of_In, Hw in Hd. by apply negb_true_iff.
Qed.

Definition canonicalCondition (c : TierConditionInput) : TierConditionInput :=
  TCI (tc_var c) (tc_op c) (TVNum (num_of_string (value_text (tc_value c)))).

Lemma condition_found c :
  readable c -> exists q, re_match conditionRe (condition_text c) =
    Some (Found 0 (condition_text c) q [] (cset 3 (value_text (tc_value c)) (cset 2 (tc_op c) (cset 1 (tc_var c) [])))).
Proof.
  intros [Hx Ho Hv _]. set (t := value_text (tc_value c)) in *.
  assert (H : takes [RGroup 1 RVar; RWss; RGroup 2 ROp; RWss; RGroup 3 (RPlus (RSet bound_unit)); REol]
                (condition_text c) [] (fun cs => cset 3 t (cset 2 (tc_op c) (cset 1 (tc_var c) cs)))).
  { unfold condition_text. fold t. rewrite <-(app_nil_r t). eapply takes_conv; [|reflexivity|].
    - eapply takes_cons; [apply takes_group; by apply takes_var|]. eapply takes_cons; [apply takes_space|].
      { rewrite <-!app_assoc. by apply op_head_no_ws. }
      apply (takes_op (RGroup 2) (cset 2)); [done| | |done|..].
      + intros x v. by apply takes_group, takes_lit.
      + apply fails_group_lit.
      + intros w. apply fails_value, fails_head, fails_group. by apply (fails_plus bound_unit []).
      + eapply takes_cons; [apply takes_space; rewrite <-app_assoc; by apply bound_head_no_ws|].
        eapply takes_cons; [|apply takes_eol]. apply takes_group, takes_run; [apply Hv|by apply nonempty_length, Hv|done].
    - intros cs. by rewrite ?app_nil_r. }
  exact (match_takes _ _ _ _ H).
Qed.

Lemma read_condition c : readable c -> readCondition (condition_text c) = Some (canonicalCondition c).
Proof.
  intros Hc. unfold readCondition. rewrite trim_id by apply (condition_part c Hc).
  by destruct (condition_found c Hc) as (q & ->).
Qed.

Lemma split_texts cs :
  cs <> [] -> Forall readable cs -> split_re RAnd (conds_text cs) = List.map condition_text cs.
Proof.
  intros Hne H. destruct cs as [|c cs]; [done|]. unfold split_re, exec_all, conds_text. cbn [List.map].
  apply split_conds; [|lia]. by apply (Forall_map _ _ (c :: cs)), (Forall_impl _ _ _ H), condition_part.
Qed.

Lemma read_conditions cs : Forall readable cs -> readConditions (conds_text cs) = List.map canonicalCondition cs.
Proof.
  intros H. unfold readConditions. destruct cs as [|c cs]; [done|].
  assert (Ht : truthy (conds_text (c :: cs)) = true).
  { apply truthy_true. apply join_nonempty. apply Forall_cons in H as [Hc _]. apply (condition_part c Hc). }
  rewrite Ht, split_texts by done.
  change (canonicalCondition c :: List.map canonicalCondition cs) with (List.map canonicalCondition (c :: cs)).
  clear Ht. induction H as [|d ds Hd _ IH]; [done|]. cbn [List.map omap list_omap]. rewrite read_condition by done.
  by rewrite <-IH.
Qed.

(** * Reading tiers back *)

(** The text of the price of an entry, when it is written. *)
Definition extra_cost (costs : list (jstr * num)) (cv : jstr * jstr) : option jstr :=
  let v := unit_cost_or_zero cv.1 costs in if num_eqb v nzero then None else Some (num_to_string v).

Lemma tier_call_text name tier :
  tier_call name tier =
  tier_text name (num_to_string (num_or_zero (input_unit_cost tier))) (num_to_string (num_or_zero (output_unit_cost tier)))
    (extra_cost (unit_costs tier)).
Proof.
  unfold tier_call, tier_text, buildTierBodyExpr. rewrite join_concat. cbn [List.map concat].
  assert (E : concat (List.map (fun y => js " + " ++ y) (omap (extra_part (unit_costs tier)) BILLING_CACHE_VAR_MAP)) =
    extras_text (extra_cost (unit_costs tier)) BILLING_CACHE_VAR_MAP).
  { induction BILLING_CACHE_VAR_MAP as [|cv L IH]; [done|]. rewrite extras_text_cons, <-IH. cbn [omap list_omap].
    unfold extra_part, extra_cost. by destruct (num_eqb _ _). }
  rewrite E. unfold cost_part. by rewrite <-!app_assoc.
Qed.

(** A number that is written in the units the reader knows, and read back. *)
Record writable (x : num) : Prop := {
  wr_text : num_text (num_to_string x);
  wr_reads : num_of_string (num_to_string x) = x }.

Record writable_tier (t : VisualTier) : Prop := {
  wt_name : plain_name (label t) = true;
  wt_input : writable (num_or_zero (input_unit_cost t));
  wt_output : writable (num_or_zero (output_unit_cost t));
  wt_extra : forall f, f ∈ EXTRA_FIELDS -> writable (unit_cost_or_zero f (unit_costs t));
  wt_conditions : Forall readable (List.filter is_complete (conditions t)) }.

Lemma extra_fields : BILLING_CACHE_VAR_MAP.*1 = EXTRA_FIELDS.
Proof. reflexivity. Qed.

Lemma extra_fields_distinct : NoDup BILLING_CACHE_VAR_MAP.*1.
Proof. apply (bool_decide_eq_true_1 (NoDup BILLING_CACHE_VAR_MAP.*1)). vm_compute. reflexivity. Qed.

Lemma extra_cost_text t cv s :
  writable_tier t -> cv ∈ BILLING_CACHE_VAR_MAP -> extra_cost (unit_costs t) cv = Some s -> num_text s.
Proof.
  intros Ht Hcv. unfold extra_cost. destruct (num_eqb _ _); [done|]. intros [= <-].
  apply (wt_extra t Ht). rewrite <-extra_fields. by apply list_elem_of_fmap_2.
Qed.

(** The tier that is read back: its name, its conditions, its prices. *)
Definition canonical_costs (t : VisualTier) : list (jstr * num) :=
  List.map (fun f => (f, unit_cost_or_zero f (unit_costs t))) EXTRA_FIELDS.

Definition canonicalTier (name : jstr) (cs : list TierConditionInput) (t : VisualTier) : VisualTier :=
  VTier name (List.map canonicalCondition cs) (num_or_zero (input_unit_cost t)) (num_or_zero (output_unit_cost t))
    (getTierCacheMode None (canonical_costs t)) (canonical_costs t).

Lemma map_get_omap {A V W} (key : A -> jstr) (g : V -> W) (h : A -> option V) (L : list A) x :
  NoDup (key <$> L) -> x ∈ L -> map_get (key x) (omap (fun x => (fun v => (key x, g v)) <$> h x) L) = g <$> h x.
Proof.
  intros Hnd Hin. induction L as [|y L IH]; [by apply elem_of_nil in Hin|].
  apply NoDup_cons in Hnd as [Hn Hnd]. cbn [omap list_omap].
  apply elem_of_cons in Hin as [->|Hin].
  - destruct (h y) as [v|]; cbn [fmap option_fmap option_map map_get]; [by rewrite bool_decide_eq_true_2|].
    destruct (map_get _ _) eqn:E; [|done]. exfalso. apply Hn.
    assert (Hk : is_some (map_get (key y) (omap (fun x => (fun v => (key x, g v)) <$> h x) L)) = true) by by rewrite E.
    apply map_get_elem in Hk. apply list_elem_of_fmap in Hk as (kv & -> & Hk).
    apply list_elem_of_omap in Hk as (z & Hz & Ek). destruct (h z) as [v|]; [|done]. injection Ek as <-.
    by apply (list_elem_of_fmap_2 key).
  - assert (key x <> key y) by (intros E; apply Hn; rewrite <-E; by apply (list_elem_of_fmap_2 key)).
    destruct (h y) as [v|]; cbn [fmap option_fmap option_map map_get]; [rewrite bool_decide_eq_false_2 by done|]; by apply IH.
Qed.

Lemma num_or_zero_idemp x : num_or_zero (num_or_zero x) = num_or_zero x.
Proof. unfold num_or_zero. destruct (num_truthy x) eqn:E; by rewrite ?E. Qed.

Lemma num_zero_eq x : num_eqb (num_or_zero x) nzero = true -> num_or_zero x = nzero.
Proof. by destruct x as [[]|[]| |[] m e]. Qed.

(** The price of a field in what was read. *)
Lemma read_cost t f :
  writable_tier t -> f ∈ EXTRA_FIELDS ->
  unit_cost_or_zero f (omap (fun cv => (fun v => (cv.1, num_of_string v)) <$> extra_cost (unit_costs t) cv) BILLING_CACHE_VAR_MAP)
  = unit_cost_or_zero f (unit_costs t).
Proof.
  intros Ht Hf. pose proof (wt_extra t Ht f Hf) as [_ Hr]. rewrite <-extra_fields in Hf.
  apply list_elem_of_fmap in Hf as (cv & -> & Hcv). unfold unit_cost_or_zero at 1, unit_cost.
  rewrite (map_get_omap fst num_of_string (extra_cost (unit_costs t)) _ cv); [|apply extra_fields_distinct|done].
  unfold extra_cost. destruct (num_eqb _ _) eqn:E; cbn [fmap option_fmap option_map nullish].
  - unfold unit_cost_or_zero in *. by rewrite (num_zero_eq _ E).
  - rewrite Hr. unfold unit_cost_or_zero. apply num_or_zero_idemp.
Qed.

Lemma read_cost_fields t :
  writable_tier t ->
  List.map (fun f => (f, unit_cost_or_zero f
    (omap (fun cv => (fun v => (cv.1, num_of_string v)) <$> extra_cost (unit_costs t) cv) BILLING_CACHE_VAR_MAP)))
    EXTRA_FIELDS = canonical_costs t.
Proof.
  intros Ht. unfold canonical_costs. apply map_ext_in. intros f Hf. by rewrite read_cost by (done || by apply list_elem_of_In).
Qed.

Lemma canonical_cost t f : f ∈ EXTRA_FIELDS -> unit_cost_or_zero f (canonical_costs t) = unit_cost_or_zero f (unit_costs t).
Proof.
  intros Hf. unfold unit_cost_or_zero at 1, unit_cost, canonical_costs.
  assert (Hnd : NoDup EXTRA_FIELDS) by (rewrite <-extra_fields; apply extra_fields_distinct).
  assert (E : map_get f (List.map (fun f => (f, unit_cost_or_zero f (unit_costs t))) EXTRA_FIELDS) =
    Some (unit_cost_or_zero f (unit_costs t))).
  { revert Hf. clear Hnd. induction EXTRA_FIELDS as [|g L IH]; intros Hf; [by apply elem_of_nil in Hf|].
    cbn [List.map map_get]. destruct (bool_decide_reflect (f = g)) as [->|Hn]; [done|].
    apply IH. by apply elem_of_cons in Hf as [?|?]. }
  rewrite E. cbn [nullish]. unfold unit_cost_or_zero. apply num_or_zero_idemp.
Qed.

Lemma canonical_costs_idemp t :
  List.map (fun f => (f, unit_cost_or_zero f (canonical_costs t))) EXTRA_FIELDS = canonical_costs t.
Proof. unfold canonical_costs at 2. apply map_ext_in. intros f Hf. by rewrite canonical_cost by by apply list_elem_of_In. Qed.

Lemma normalize_canonical name cs t :
  normalizeVisualTier (partial_tier (canonicalTier name cs t)) = canonicalTier name cs t.
Proof. unfold normalizeVisualTier, canonicalTier. cbn. f_equal. apply canonical_costs_idemp. Qed.

(** The mode is the same from the prices that are read and from all of them. *)
Lemma read_mode t costs :
  costs = omap (fun cv => (fun v => (cv.1, num_of_string v)) <$> extra_cost (unit_costs t) cv) BILLING_CACHE_VAR_MAP ->
  writable_tier t -> getTierCacheMode None costs = getTierCacheMode None (canonical_costs t).
Proof.
  intros -> Ht. unfold getTierCacheMode. set (h := js "cache_create_1h_unit_cost").
  assert (Hh : h ∈ EXTRA_FIELDS) by (repeat first [left|right]).
  pose proof (read_cost t h Ht Hh) as H1. rewrite <-(canonical_cost t h Hh) in H1. unfold unit_cost_or_zero in H1.
  assert (Hz : forall x y, num_or_zero x = num_or_zero y -> num_ltb nzero x = num_ltb nzero y).
  { intros x y. destruct x as [[]|[]| |[] ? ?], y as [[]|[]| |[] ? ?]; cbn; intros [=]; by subst. }
  by rewrite (Hz _ _ H1).
Qed.

Lemma omap_map {A B} (g : A -> option B) l : omap id (List.map g l) = omap g l.
Proof. induction l as [|x l IH]; [done|]. cbn [List.map omap list_omap]. unfold id at 1. by rewrite IH. Qed.

Section ReadTier.
Context (i : nat) (name : jstr) (t : VisualTier) (Ht : writable_tier t).
Let ic := num_to_string (num_or_zero (input_unit_cost t)).
Let oc := num_to_string (num_or_zero (output_unit_cost t)).

Lemma takes_tier_call v :
  plain_name name = true -> takes (tierPat i) (tier_call name t) v (tier_caps i name ic oc (extra_cost (unit_costs t))).
Proof.
  intros Hn. rewrite tier_call_text. destruct Ht as [_ [Hi _] [Ho _] _ _].
  assert (Hf : forall cv s, cv ∈ BILLING_CACHE_VAR_MAP -> extra_cost (unit_costs t) cv = Some s -> num_text s)
    by (intros; by eapply extra_cost_text).
  by apply takes_tier.
Qed.

Lemma read_tier_caps cs0 cs a b c d :
  (forall g, i <= g -> cap_get g cs = None) ->
  read_tier i (List.map canonicalCondition cs0) (Found a b c d (tier_caps i name ic oc (extra_cost (unit_costs t)) cs)) =
  canonicalTier name cs0 t.
Proof.
  intros Hcs. unfold read_tier, group_or_empty, group, tier_caps. cbn [f_caps].
  set (f := extra_cost (unit_costs t)).
  replace (imap _ BILLING_CACHE_VAR_MAP)
    with (List.map (fun cv => (fun v => (cv.1, num_of_string v)) <$> f cv) BILLING_CACHE_VAR_MAP).
  2: { rewrite <-imap_const. apply imap_ext. intros j cv Hj. unfold const. f_equal. symmetry.
       apply extras_caps_at; [|done]. intros g Hg. rewrite !cap_get_cset.
       rewrite !(proj2 (Nat.eqb_neq _ _)) by lia. apply Hcs. lia. }
  rewrite !extras_caps_before, !cap_get_cset, !Nat.eqb_refl by lia.
  rewrite !(proj2 (Nat.eqb_neq _ _)) by lia. cbn [nullish]. subst ic oc.
  rewrite (wr_reads _ (wt_input t Ht)), (wr_reads _ (wt_output t Ht)).
  rewrite omap_map. unfold normalizeVisualTier, canonicalTier.
  cbn [pt_label pt_conditions pt_input_unit_cost pt_output_unit_cost pt_cache_mode pt_unit_costs nullish].
  f_equal; [by apply read_mode|by apply read_cost_fields].
Qed.
End ReadTier.

(** * Reading the whole expression *)

(** A tier as it is written: its conditions and its name. *)
Record Part := MkPart { pa_conditions : list TierConditionInput; pa_name : jstr; pa_tier : VisualTier }.

Record part_ok (p : Part) : Prop := {
  po_conditions : Forall readable (pa_conditions p);
  po_name : plain_name (pa_name p) = true;
  po_tier : writable_tier (pa_tier p) }.

Definition part_text (p : Part) : jstr :=
  match pa_conditions p with [] => [] | cs => conds_text cs ++ js " ? " end ++ tier_call (pa_name p) (pa_tier p).

Definition parts_tail (ps : list Part) : jstr := concat (List.map (fun p => js " : " ++ part_text p) ps).

Lemma part_text_nonempty p : part_text p <> [].
Proof. unfold part_text. intros [_ H]%app_eq_nil. done. Qed.

(** An expression that finds the part at hand, and nothing at a separator,
    finds every part. *)
Definition finds_part {B} (r : re) (read : found -> B) (result : Part -> B) : Prop := forall p v i q,
  part_ok p ->
  exists f, scan r i q (part_text p ++ v) = Some f /\ f_before f = i /\ f_text f = part_text p /\
    f_rest f = v /\ read f = result p.

Section ExecParts.
Context {B : Type} (r : re) (read : found -> B) (result : Part -> B).
Context (Hscan : finds_part r read result).
Context (Hsep : forall c w, one_of (js " :") c = true -> fails r (c :: w)) (Hnil : fails r []).

Lemma scan_separator i q v : scan r i q (js " : " ++ v) = scan r (S (S (S i))) (Some 32%N) v.
Proof.
  change (js " : " ++ v) with (32%N :: 58%N :: 32%N :: v). rewrite !scan_skip; [done|..]; (eapply Hsep; [|reflexivity]; reflexivity).
Qed.

Lemma exec_parts ps : forall fuel i q,
  Forall part_ok ps -> length (parts_tail ps) < fuel ->
  List.map read (exec_all_from fuel r i q (parts_tail ps)) = List.map result ps.
Proof.
  induction ps as [|p ps IH]; intros fuel i q Hps Hf; (destruct fuel as [|fuel]; [lia|]).
  - cbn [exec_all_from parts_tail List.map concat scan]. by rewrite Hnil.
  - apply Forall_cons in Hps as [Hp Hps]. cbn [exec_all_from]. unfold parts_tail in *. cbn [List.map concat] in *.
    rewrite <-app_assoc, scan_separator.
    destruct (Hscan p (concat (List.map (fun p => js " : " ++ part_text p) ps)) (S (S (S i))) (Some 32%N) Hp)
      as (f & -> & E1 & E2 & E3 & E4).
    cbn [List.map]. rewrite E4, E1, E2, E3. f_equal. apply IH; [done|].
    rewrite !length_app in Hf. change (length (js " : ")) with 3 in Hf. lia.
Qed.

Lemma exec_first p tail :
  part_ok p -> exists i q,
    List.map read (exec_all r (part_text p ++ tail)) =
    result p :: List.map read (exec_all_from (length (part_text p ++ tail)) r i q tail).
Proof.
  intros Hp. unfold exec_all. cbn [exec_all_from]. destruct (Hscan p tail 0 None Hp) as (f & -> & E1 & E2 & E3 & E4).
  exists (f_before f + length (f_text f)), (f_prev f). cbn [List.map]. by rewrite E4, E3.
Qed.
End ExecParts.

Definition part_tier (p : Part) : VisualTier := canonicalTier (pa_name p) (pa_conditions p) (pa_tier p).

Definition read_found (f : found) : VisualTier := read_tier 2 (readConditions (group_or_empty f 1)) f.

Definition header_re : re := ROpt (RSeqs [RCondGroup; RWss; RLit (js "?"); RWss]).

Lemma fails_header c w : one_of (js "pcl") c = false -> fails (RSeqs [RCondGroup; RWss; RLit (js "?"); RWss]) (c :: w).
Proof.
  intros Hc. apply fails_head, fails_group. apply (fails_head RCond [_]). apply fails_head.
  unfold one_of in Hc. cbn in Hc. rewrite orb_false_r in Hc. rewrite !orb_false_iff, !N.eqb_neq in Hc.
  destruct Hc as (H1 & H2 & H3).
  repeat apply fails_alt; apply fails_lit; cbn [strip_prefix js]; cbn; by rewrite (proj2 (N.eqb_neq _ _)).
Qed.

Lemma takes_header p v :
  part_ok p -> exists u c, part_text p = u ++ tier_call (pa_name p) (pa_tier p) /\
    takes [header_re] u (tier_call (pa_name p) (pa_tier p) ++ v) c /\
    (forall g, 2 <= g -> cap_get g (c []) = None) /\
    cap_get 1 (c []) = match pa_conditions p with [] => None | cs => Some (conds_text cs) end.
Proof.
  intros [Hc Hn Ht]. unfold part_text, header_re. destruct (pa_conditions p) as [|c cs].
  - exists [], id. split_and!; [done| |done|done]. apply takes_opt_none. by apply fails_header.
  - exists (conds_text (c :: cs) ++ js " ? "), (fun q => cset 1 (conds_text (c :: cs)) (cclear [1] q)).
    split_and!; [done| | |done].
    + apply (takes_opt (RSeqs [RCondGroup; RWss; RLit (js "?"); RWss]) (conds_text (c :: cs) ++ js " ? ") _
        (cset 1 (conds_text (c :: cs)))).
      { by intros [_ H]%app_eq_nil. }
      apply takes_seqs. eapply takes_conv; [eapply takes_cons; [by apply takes_conds|by apply takes_question]|done|done].
    + intros g Hg. rewrite cap_get_cset, (proj2 (Nat.eqb_neq _ _)) by lia. done.
Qed.

(** The expression finds the tier that is there. *)
Lemma scan_part : finds_part visualTierRe read_found part_tier.
Proof.
  intros p v i q Hp. destruct (takes_header p v Hp) as (u & c & -> & Hu & Hc & H1). destruct Hp as [Hcs Hn Ht].
  assert (H : takes ([header_re] ++ tierPat 2) (u ++ tier_call (pa_name p) (pa_tier p)) v
    (fun cs => tier_caps 2 (pa_name p) (num_to_string (num_or_zero (input_unit_cost (pa_tier p))))
      (num_to_string (num_or_zero (output_unit_cost (pa_tier p)))) (extra_cost (unit_costs (pa_tier p))) (c cs))).
  { eapply takes_app; [exact Hu|by apply takes_tier_call]. }
  destruct (scan_takes _ _ _ _ i q H) as (q' & E). eexists. split_and!; [exact E|done|done|done|].
  unfold read_found, group_or_empty at 1, group at 1. cbn [f_caps].
  assert (Hg : readConditions (cap_get 1 (tier_caps 2 (pa_name p)
      (num_to_string (num_or_zero (input_unit_cost (pa_tier p)))) (num_to_string (num_or_zero (output_unit_cost (pa_tier p))))
      (extra_cost (unit_costs (pa_tier p))) (c [])) ?? []) = List.map canonicalCondition (pa_conditions p)).
  { unfold tier_caps. rewrite extras_caps_before, !cap_get_cset by lia. cbn [Nat.add Nat.eqb]. rewrite H1.
    rewrite <-read_conditions by done. by destruct (pa_conditions p). }
  rewrite Hg. by apply read_tier_caps.
Qed.

(** Neither a condition nor a call begins the text. *)
Lemma header_call_fails l c w :
  one_of (js "pclt") c = false -> fails (RSeqs (header_re :: RLit (jq "tier(`") :: l)) (c :: w).
Proof.
  intros Hc. apply fails_opt_head.
  - apply fails_header. unfold one_of in *. cbn in *. rewrite !orb_false_iff in *. tauto.
  - apply fails_head, fails_lit. assert (Hne : 116%N <> c) by (intros <-; done).
    change (jq "tier(`") with (116%N :: jq "ier(`"). cbn [strip_prefix]. by rewrite (proj2 (N.eqb_neq _ _) Hne).
Qed.

Lemma header_call_fails_nil l : fails (RSeqs (header_re :: RLit (jq "tier(`") :: l)) [].
Proof.
  apply fails_opt_head; [|by apply fails_head, fails_lit].
  apply fails_head, fails_group. apply (fails_head RCond [_]). apply fails_head.
  repeat apply fails_alt; by apply fails_lit.
Qed.

Lemma separator_other c : one_of (js " :") c = true -> one_of (js "pclt") c = false.
Proof. unfold one_of. cbn. lia. Qed.

Lemma read_tail ps fuel i q :
  Forall part_ok ps -> length (parts_tail ps) < fuel ->
  List.map read_found (exec_all_from fuel visualTierRe i q (parts_tail ps)) = List.map part_tier ps.
Proof.
  apply (exec_parts _ _ _ scan_part); [|apply header_call_fails_nil].
  intros c w Hc. by apply header_call_fails, separator_other.
Qed.

Definition no_colon (c : N) : bool := negb (c =? 58)%N.

(** What follows the name of a single tier, up to the end. *)
Definition call_rest : list re := RWss :: bodyPat 2 ++ [RLit (js ")")].

Lemma call_rest_no_colon s x : foldr m Some (call_rest ++ [REol]) s = Some x -> forallb no_colon (rest s) = true.
Proof.
  intros H. rewrite <-m_seqs, m_seqs_snoc in H.
  destruct (m_within no_colon (RSeqs call_rest) (m REol Some) s) as (u & s' & Hr & Hu & Hk).
  - unfold call_rest, bodyPat, RCost. cbn. unfold no_colon.
    repeat split; intros c Hc; try (apply num_unit_plain in Hc; lia); unfold is_ws, in_range in Hc; lia.
  - by rewrite H.
  - cbn [m] in Hk. destruct (rest s'); [|done]. by rewrite Hr, app_nil_r.
Qed.

(** A name ends where the quotation mark is. *)
Lemma name_end name u v w :
  plain_name name = true -> plain_name u = true -> name ++ 34%N :: v = u ++ 34%N :: w -> v = w.
Proof.
  revert u. induction name as [|c name IH]; intros [|d u] Hn Hu [=]; subst; try done.
  apply andb_true_iff in Hn as [_ Hn], Hu as [_ Hu]. by eapply IH.
Qed.

(** The expression for a single tier does not take several ones: after the name
    nothing it takes is a colon. *)
Lemma single_fails name t v :
  plain_name name = true -> 58%N ∈ v -> re_match singleRe (tier_call name t ++ v) = None.
Proof.
  intros Hn Hv. change singleRe with (RSeq RBol (RSeqs (RLit (jq "tier(`") :: RGroup 1 (RStar (RSet (not_unit 34))) ::
    RLit (jq "`,") :: call_rest ++ [REol]))).
  apply match_miss. destruct (m _ _ _) as [s'|] eqn:E; [|done]. exfalso.
  rewrite m_seqs in E. cbn [foldr] in E. unfold tier_call in E. rewrite <-!app_assoc in E.
  set (body := buildTierBodyExpr t ++ js ")" ++ v) in E.
  rewrite (m_lit _ _ _ (name ++ jq "`, " ++ body)) in E by done. rewrite m_group in E.
  apply m_run_inv in E as (u & w & Hr & Hu & _ & E). cbn [adv rest] in Hr.
  destruct (strip_prefix (jq "`,") w) as [w'|] eqn:Ew; [|by rewrite m_lit_fail in E].
  apply strip_prefix_some in Ew as ->. rewrite (m_lit _ _ _ w') in E by done.
  change (name ++ 34%N :: js ", " ++ body = u ++ 34%N :: js "," ++ w') in Hr. apply name_end in Hr; [|done|done].
  assert (Hw : w' = js " " ++ body) by by injection Hr.
  rewrite Hw in E. clear Hr Hw.
  apply call_rest_no_colon in E. cbn [adv rest] in E. rewrite forallb_forall in E.
  assert (Hin : 58%N ∈ js " " ++ body) by (subst body; rewrite !elem_of_app; tauto).
  by apply list_elem_of_In, E in Hin.
Qed.

(** * What is written *)

Definition complete_conditions (t : VisualTier) : list TierConditionInput := List.filter is_complete (conditions t).

(** The [i]-th of [n] tiers: the last one has no condition. *)
Definition part_of (n i : nat) (t : VisualTier) : Part :=
  MkPart (if Nat.ltb i (n - 1) then complete_conditions t else [])
    (or_str (label t) (js "tier_" ++ print_N (N.of_nat (i + 1)))) t.

Definition written_parts (ts : list VisualTier) : list Part :=
  match ts with
  | [t] => [MkPart (complete_conditions t) (or_str (label t) (js "default")) t]
  | _ => imap (part_of (length ts)) ts
  end.

(** The tiers the editor reads: the name that is written, the conditions that
    are complete, the prices as numbers. *)
Definition canonicalConfig (cfg : VisualConfig) : VisualConfig := VConfig (List.map part_tier (written_parts (tiers cfg))).

Lemma conds_text_truthy cs : truthy (conds_text cs) = match cs with [] => false | _ => true end.
Proof.
  destruct cs as [|c cs]; [done|]. apply truthy_true. apply join_nonempty. unfold condition_text. by destruct (tc_var c).
Qed.

Lemma part_of_text n i t : tier_part n i t = part_text (part_of n i t).
Proof.
  unfold tier_part, part_text, part_of. cbn [pa_conditions pa_name pa_tier].
  change (buildConditionStr (conditions t)) with (conds_text (complete_conditions t)). rewrite conds_text_truthy.
  destruct (i <? n - 1); [|done]. destruct (complete_conditions t); [done|]. cbn [andb]. by rewrite <-app_assoc.
Qed.

Lemma plain_print n : plain_name (print_N n) = true.
Proof.
  pose proof (print_N_digits n) as H. unfold all_digits in H. apply andb_true_iff in H as [_ H].
  unfold plain_name. apply forallb_forall. intros c Hc. rewrite forallb_forall in H. apply H in Hc.
  unfold is_digit, in_range, not_unit in *. lia.
Qed.

Lemma plain_or_str x d : plain_name x = true -> plain_name d = true -> plain_name (or_str x d) = true.
Proof. unfold or_str. by destruct (truthy x). Qed.

Lemma written_parts_ok ts : Forall writable_tier ts -> Forall part_ok (written_parts ts).
Proof.
  intros H.
  assert (Hn : forall n, Forall part_ok (imap (part_of n) ts)).
  { intros n. apply Forall_lookup. intros i p. rewrite list_lookup_imap. destruct (ts !! i) as [t|] eqn:E; [|done].
    intros [= <-]. rewrite Forall_lookup in H. pose proof (H i t E) as Ht.
    split; cbn [part_of pa_conditions pa_name pa_tier]; [|apply plain_or_str; [apply Ht|]|done].
    - destruct (i <? n - 1); [apply Ht|constructor].
    - unfold plain_name. rewrite forallb_app. by rewrite (plain_print _). }
  destruct ts as [|t [|t2 ts]]; [constructor| |apply Hn]. apply Forall_cons in H as [Ht _]. apply Forall_singleton.
  split; cbn; [apply Ht|apply plain_or_str; [apply Ht|done]|done].
Qed.

Lemma generate_join ts :
  2 <= length ts ->
  generateExprFromVisualConfig (Some (VConfig ts)) = join (js " : ") (imap (tier_part (length ts)) ts).
Proof. destruct ts as [|t1 [|t2 ts]]; cbn [length]; [lia..|done]. Qed.

Lemma generate_single t (cs := complete_conditions t) (p := MkPart cs (or_str (label t) (js "default")) t) :
  generateExprFromVisualConfig (Some (VConfig [t])) =
  part_text p ++ match cs with [] => [] | _ => js " : " ++ no_charge end.
Proof.
  unfold generateExprFromVisualConfig, part_text. cbn [pa_conditions pa_name pa_tier p].
  change (buildConditionStr (conditions t)) with (conds_text cs). rewrite conds_text_truthy.
  destruct cs; [by rewrite app_nil_r|]. by rewrite <-!app_assoc.
Qed.

(** The expression of several tiers. *)
Lemma generate_several ts p ps :
  2 <= length ts -> written_parts ts = p :: ps ->
  generateExprFromVisualConfig (Some (VConfig ts)) = part_text p ++ parts_tail ps.
Proof.
  intros Hl E. rewrite generate_join by done.
  assert (Ei : imap (tier_part (length ts)) ts = List.map part_text (p :: ps)).
  { rewrite <-E. destruct ts as [|t1 [|t2 ts]]; cbn [length] in Hl; [lia..|]. unfold written_parts.
    etransitivity; [|symmetry; apply (fmap_imap _ part_text)]. apply imap_ext. intros. apply part_of_text. }
  rewrite Ei. cbn [List.map]. rewrite join_concat, List.map_map. done.
Qed.

Lemma part_tier_normal p : normalizeVisualTier (partial_tier (part_tier p)) = part_tier p.
Proof. apply normalize_canonical. Qed.

Lemma normalize_parts ps :
  ps <> [] -> normalizeVisualConfig (Some (VConfig (List.map part_tier ps))) = VConfig (List.map part_tier ps).
Proof.
  intros Hne. destruct ps as [|p ps]; [done|]. unfold normalizeVisualConfig. cbn [List.map].
  rewrite part_tier_normal, List.map_map. do 2 f_equal. apply map_ext. intros q. apply part_tier_normal.
Qed.

(** The text begins with a variable or with a call. *)
Lemma part_text_head p v : part_ok p -> exists c w, part_text p ++ v = c :: w /\ one_of (js "pclt") c = true.
Proof.
  intros [Hc _ _]. unfold part_text. destruct (pa_conditions p) as [|c cs].
  - eexists _, _. split; [reflexivity|done].
  - apply Forall_cons in Hc as [[Hx _ _ _] _]. unfold conds_text. cbn [List.map]. rewrite join_concat. unfold condition_text.
    unfold tier_vars in Hx. rewrite !elem_of_cons, elem_of_nil in Hx.
    destruct Hx as [->|[->|[->|[]]]]; eexists _, _; (split; [reflexivity|done]).
Qed.

Lemma not_versioned p v : part_ok p -> strip_version (part_text p ++ v) = part_text p ++ v.
Proof.
  intros Hp. destruct (part_text_head p v Hp) as (c & w & E & Hc). rewrite E. unfold strip_version, version_re. cbn [RSeqs].
  rewrite match_miss; [done|]. rewrite m_seq, m_lit_fail; [done|]. cbn [rest]. change (js "v") with [118%N]. cbn [strip_prefix].
  rewrite (proj2 (N.eqb_neq _ _)); [done|]. by intros <-.
Qed.

(** A text that begins with a condition is not a single call. *)
Lemma single_needs_call p v : part_ok p -> pa_conditions p <> [] -> re_match singleRe (part_text p ++ v) = None.
Proof.
  intros [Hc _ _] Hne. change singleRe with (RSeq RBol (RSeqs (RLit (jq "tier(`") :: RGroup 1 (RStar (RSet (not_unit 34))) ::
    RLit (jq "`,") :: call_rest ++ [REol]))).
  apply match_miss. rewrite m_seqs. cbn [foldr]. apply m_lit_fail. cbn [rest]. unfold part_text.
  destruct (pa_conditions p) as [|c cs]; [done|]. apply Forall_cons in Hc as [[Hx _ _ _] _].
  unfold conds_text. cbn [List.map]. rewrite join_concat. unfold condition_text.
  unfold tier_vars in Hx. rewrite !elem_of_cons, elem_of_nil in Hx. by destruct Hx as [->|[->|[->|[]]]].
Qed.

Lemma single_misses p v : part_ok p -> 58%N ∈ v -> re_match singleRe (part_text p ++ v) = None.
Proof.
  intros Hp Hv. destruct (pa_conditions p) eqn:E; [|apply single_needs_call; [done|by rewrite E]].
  unfold part_text. rewrite E. cbn [app]. apply single_fails; [apply Hp|done].
Qed.

(** What is read of tiers that are not a single call. *)
Lemma parse_parts_text p ps tail :
  part_ok p -> Forall part_ok ps -> re_match singleRe (part_text p ++ tail) = None ->
  (forall i q fuel, length tail < fuel -> List.map read_found (exec_all_from fuel visualTierRe i q tail) = List.map part_tier ps) ->
  generateExprFromVisualConfig (Some (VConfig (List.map part_tier (p :: ps)))) = part_text p ++ tail ->
  tryParseVisualConfig (Some (part_text p ++ tail)) = Some (VConfig (List.map part_tier (p :: ps))).
Proof.
  intros Hp Hps Hs Ht Hg. unfold tryParseVisualConfig.
  destruct (part_text p ++ tail) as [|c w] eqn:E; [by apply app_eq_nil in E as [E%part_text_nonempty _]|]. rewrite <-E in *.
  rewrite not_versioned, Hs by done.
  change (fun f => read_tier 2 (readConditions (group_or_empty f 1)) f) with read_found.
  destruct (exec_first _ _ _ scan_part p tail Hp) as (i & q & Ex). rewrite Ex.
  rewrite Ht by (rewrite length_app; pose proof (part_text_nonempty p); destruct (part_text p); [done|simpl; lia]).
  change (part_tier p :: List.map part_tier ps) with (List.map part_tier (p :: ps)).
  rewrite normalize_parts, Hg, jstr_eqb_refl by done. done.
Qed.

Lemma parse_single p :
  part_ok p -> pa_conditions p = [] ->
  tryParseVisualConfig (Some (part_text p)) = Some (VConfig [part_tier p]).
Proof.
  intros Hp Hc. unfold tryParseVisualConfig.
  destruct (part_text p) as [|c w] eqn:E; [by apply part_text_nonempty in E|]. rewrite <-E.
  pose proof (not_versioned p [] Hp) as Hv. rewrite app_nil_r in Hv. rewrite Hv. clear E c w Hv.
  assert (Et : part_text p = tier_call (pa_name p) (pa_tier p)) by (unfold part_text; by rewrite Hc).
  rewrite Et. destruct Hp as [_ Hn Ht].
  pose proof (takes_tier_call 1 (pa_name p) (pa_tier p) Ht [] Hn) as H.
  apply (takes_app _ [REol] _ [] [] _ id) in H; [|apply takes_eol].
  rewrite app_nil_r in H. apply (match_takes (RLit (jq "tier(`"))) in H as (q & H).
  match type of H with re_match ?r ?u = _ => change (re_match singleRe u) with (re_match r u) end. rewrite H. unfold id.
  rewrite (read_tier_caps 1 _ _ Ht []) by done.
  rewrite <-Hc. f_equal. by apply (normalize_parts [p]).
Qed.

(** ** Writing what was read *)

Lemma canonical_text c : readable c -> condition_text (canonicalCondition c) = condition_text c.
Proof. intros Hc. unfold condition_text, canonicalCondition. cbn. by rewrite (rd_same c Hc). Qed.

Lemma canonical_conditions cs :
  Forall readable cs -> List.filter is_complete (List.map canonicalCondition cs) = List.map canonicalCondition cs.
Proof.
  induction 1 as [|c cs [Hx Ho _ _] _ IH]; [done|]. cbn [List.map List.filter].
  assert (E : is_complete (canonicalCondition c) = true).
  { unfold is_complete, canonicalCondition. cbn. unfold tier_vars, tier_ops in *.
    rewrite !elem_of_cons, elem_of_nil in Hx. rewrite !elem_of_cons, elem_of_nil in Ho.
    by destruct_or! Hx; destruct_or! Ho; rewrite ?Hx, ?Ho. }
  by rewrite E, IH.
Qed.

Lemma canonical_conds_text cs : Forall readable cs -> conds_text (List.map canonicalCondition cs) = conds_text cs.
Proof.
  intros H. unfold conds_text. f_equal. rewrite List.map_map. apply map_ext_in. intros c Hc.
  apply canonical_text. rewrite Forall_forall in H. by apply H, list_elem_of_In.
Qed.

Lemma omap_ext_in {A B} (g h : A -> option B) (l : list A) : (forall x, x ∈ l -> g x = h x) -> omap g l = omap h l.
Proof.
  intros H. induction l as [|x l IH]; [done|]. cbn [omap list_omap]. rewrite H by left. rewrite IH; [done|].
  intros y Hy. apply H. by right.
Qed.

Lemma canonical_call name' name cs t : tier_call name (canonicalTier name' cs t) = tier_call name t.
Proof.
  unfold tier_call, buildTierBodyExpr, canonicalTier. cbn [input_unit_cost output_unit_cost unit_costs].
  rewrite !num_or_zero_idemp. do 4 f_equal. do 3 f_equal. apply omap_ext_in. intros cv Hcv.
  unfold extra_part. by rewrite canonical_cost by (rewrite <-extra_fields; by apply list_elem_of_fmap_2).
Qed.

Lemma canonical_part p name cs :
  part_ok p -> name = pa_name p -> cs = List.map canonicalCondition (pa_conditions p) ->
  part_text (MkPart cs name (part_tier p)) = part_text p.
Proof.
  intros Hp -> ->. unfold part_text, part_tier. cbn [pa_conditions pa_name pa_tier]. rewrite canonical_call.
  destruct (pa_conditions p) as [|c cs] eqn:E; [done|]. cbn [List.map].
  change (canonicalCondition c :: List.map canonicalCondition cs) with (List.map canonicalCondition (c :: cs)).
  rewrite canonical_conds_text; [done|]. rewrite <-E. apply Hp.
Qed.

Lemma or_str_kept x d d' : d <> [] -> or_str (or_str x d) d' = or_str x d.
Proof.
  intros Hd. unfold or_str at 1. assert (E : truthy (or_str x d) = true).
  { apply truthy_true. unfold or_str. by destruct x. }
  by rewrite E.
Qed.

(** The [i]-th tier that is read is written as it was. *)
Lemma rewrite_part n i t :
  part_ok (part_of n i t) -> part_text (part_of n i (part_tier (part_of n i t))) = part_text (part_of n i t).
Proof.
  intros Hp. apply canonical_part; [done|by apply or_str_kept|].
  destruct Hp as [Hc _ _]. unfold complete_conditions, part_tier, canonicalTier, part_of in *. cbn [pa_conditions conditions] in *.
  destruct (i <? n - 1); [by apply canonical_conditions|done].
Qed.

Lemma generate_canonical ts :
  ts <> [] -> Forall writable_tier ts ->
  generateExprFromVisualConfig (Some (canonicalConfig (VConfig ts))) = generateExprFromVisualConfig (Some (VConfig ts)).
Proof.
  intros Hne Hts. pose proof (written_parts_ok ts Hts) as Hok. unfold canonicalConfig. cbn [tiers].
  destruct ts as [|t [|t2 ts]]; [done| |].
  - cbn [written_parts List.map]. cbn [written_parts] in Hok. apply Forall_singleton in Hok as [Hc Hn Ht]. cbn in Hc, Hn, Ht.
    unfold generateExprFromVisualConfig, part_tier. cbn [pa_name pa_conditions pa_tier]. rewrite canonical_call.
    change (buildConditionStr ?cs) with (conds_text (List.filter is_complete cs)). cbn [canonicalTier conditions label].
    rewrite canonical_conditions, canonical_conds_text by done. by rewrite or_str_kept.
  - set (l := t :: t2 :: ts) in *. change (written_parts l) with (imap (part_of (length l)) l) in *.
    assert (Hl : length (List.map part_tier (imap (part_of (length l)) l)) = length l)
      by by rewrite length_map, length_imap.
    rewrite !generate_join by (rewrite ?Hl; subst l; simpl; lia). rewrite Hl. f_equal. apply list_eq. intros i.
    rewrite !list_lookup_imap. change (List.map part_tier ?x) with (part_tier <$> x).
    rewrite list_lookup_fmap, list_lookup_imap. destruct (l !! i) as [u|] eqn:E; [|done]. cbn [fmap option_fmap option_map].
    rewrite !part_of_text, rewrite_part; [done|]. rewrite Forall_lookup in Hok. apply (Hok i).
    by rewrite list_lookup_imap, E.
Qed.

(** What the editor writes is read as the tiers it stands for. *)
Lemma tiers_read_back ts :
  ts <> [] -> Forall writable_tier ts ->
  tryParseVisualConfig (Some (generateExprFromVisualConfig (Some (VConfig ts)))) = Some (canonicalConfig (VConfig ts)).
Proof.
  intros Hne Hts. pose proof (generate_canonical ts Hne Hts) as Hg.
  pose proof (written_parts_ok ts Hts) as Hok. unfold canonicalConfig in *. cbn [tiers] in *.
  destruct (written_parts ts) as [|p ps] eqn:E; [by destruct ts as [|? [|? ?]]|].
  apply Forall_cons in Hok as [Hp Hps].
  destruct ts as [|t [|t2 ts]]; [done| |].
  - injection E as <- <-. rewrite generate_single in *. set (p := MkPart _ _ _) in *.
    destruct (complete_conditions t) as [|c cs] eqn:Ec; [rewrite app_nil_r; by apply parse_single|].
    apply parse_parts_text; [done|done| |intros i q [|fuel] Hf; [simpl in Hf; lia|reflexivity]|done].
    by apply single_needs_call.
  - rewrite (generate_several _ p ps) in * by (done || simpl; lia).
    apply parse_parts_text; [done|done| |intros i q fuel Hf; by apply read_tail|done].
    apply single_misses; [done|]. destruct ps as [|p2 ps]; [done|]. unfold parts_tail. cbn [List.map concat].
    rewrite !elem_of_app. left. left. right. left.
Qed.

(** C19: the tiers the editor writes are the tiers it reads: a configuration whose
    names, prices and bounds can be written is read back with the names that
    were written, its complete conditions and its prices, and writing that again
    gives the same text. *)
Theorem tiers_roundtrip (cfg : VisualConfig) :
  tiers cfg <> [] -> Forall writable_tier (tiers cfg) ->
  tryParseVisualConfig (Some (generateExprFromVisualConfig (Some cfg))) = Some (canonicalConfig cfg) /\
  generateExprFromVisualConfig (Some (canonicalConfig cfg)) = generateExprFromVisualConfig (Some cfg).
Proof.
  destruct cfg as [ts]. intros Hne Hts. split; [by apply tiers_read_back|by apply generate_canonical].
Qed.

Lemma writable_check x :
  forallb num_unit (num_to_string x) = true -> truthy (num_to_string x) = true ->
  num_of_string (num_to_string x) = x -> writable x.
Proof. intros H1 H2 H3. split; [split; [done|by apply truthy_true]|done]. Qed.

Lemma extras_check t :
  Forall (fun f => writable (unit_cost_or_zero f (unit_costs t))) EXTRA_FIELDS ->
  forall f, f ∈ EXTRA_FIELDS -> writable (unit_cost_or_zero f (unit_costs t)).
Proof. by rewrite Forall_forall. Qed.

Lemma readable_check x o v :
  bool_decide (x ∈ tier_vars) = true -> bool_decide (o ∈ tier_ops) = true -> forallb bound_unit (value_text v) = true ->
  truthy (value_text v) = true -> num_to_string (num_of_string (value_text v)) = value_text v -> readable (TCI x o v).
Proof.
  intros H1%bool_decide_eq_true_1 H2%bool_decide_eq_true_1 H3 H4 H5. split; [done|done|split; [done|by apply truthy_true]|done].
Qed.

Definition long_context : list VisualTier :=
  [VTier (js "standard")
     [TCI (js "len") (js "<=") (TVNum (num_of_Z 200000)); TCI (js "p") [] TVNull; TCI (js "c") (js "<") (TVStr (js "1000000"))]
     (num_of_Z 3) (num_of_Z 15) CACHE_MODE_GENERIC [(js "cache_read_unit_cost", num_of_string (js "0.3"))];
   VTier [] [TCI (js "p") (js ">") (TVNum (num_of_Z 1))] (num_of_Z 6) (num_of_string (js "22.5")) CACHE_MODE_TIMED []].

Ltac check_num := apply writable_check; vm_compute; reflexivity.
Ltac check_condition := apply readable_check; vm_compute; reflexivity.

Lemma long_context_writable : Forall writable_tier long_context.
Proof.
  apply Forall_cons; split; [|apply Forall_singleton]; split.
  1, 6: reflexivity.
  1, 2, 5, 6: check_num.
  1, 3: apply extras_check; unfold EXTRA_FIELDS; repeat (apply Forall_cons; split; [check_num|]); constructor.
  - change (List.filter _ _) with
      [TCI (js "len") (js "<=") (TVNum (num_of_Z 200000)); TCI (js "c") (js "<") (TVStr (js "1000000"))].
    repeat (apply Forall_cons; split; [check_condition|]); constructor.
  - change (List.filter _ _) with [TCI (js "p") (js ">") (TVNum (num_of_Z 1))].
    repeat (apply Forall_cons; split; [check_condition|]); constructor.
Qed.

Lemma tiers_roundtrip_witness :
  tryParseVisualConfig (Some (generateExprFromVisualConfig (Some (VConfig long_context)))) =
    Some (canonicalConfig (VConfig long_context)) /\
  generateExprFromVisualConfig (Some (VConfig long_context)) =
  jq "len <= 200000 && c < 1000000 ? tier(`standard`, p * 3 + c * 15 + cr * 0.3) : tier(`tier_2`, p * 6 + c * 22.5)".
Proof.
  split; [|vm_compute; reflexivity].
  apply (tiers_roundtrip (VConfig long_context)); [done|apply long_context_writable].
Defined.
