(* ===== verification/TierPrices.v ===== *)
(** The price page and the tier editor together: what billing-expr.ts
    ([parseTiersFromExpr]) reads of an expression that tier-expr.ts
    ([generateExprFromVisualConfig]) wrote. *)

From Stdlib Require Import NArith ZArith Lia ZifyBool ZifyN.
From Stdlib Require Import SpecFloat.
From stdpp Require Import base list gmap strings.
From S2P Require Import Prelude JsString JsNum Json Regex BillingExpr TierExpr.

(** * The price of a variable *)

Definition price_keys : list jstr := List.map key BILLING_PRICING_VARS.

Definition key_rest : list re := [RWss; RLit (js "*"); RWss; RGroup 2 (RPlus (RSet num_unit))].

Lemma key_cases x :
  x ∈ price_keys -> x = js "p" \/ x = js "c" \/ x ∈ extra_vars.
Proof.
  change price_keys with ([js "p"; js "c"] ++ extra_vars). rewrite !elem_of_app, !elem_of_cons, elem_of_nil. tauto.
Qed.

(** A key that is not the one in the text is not followed by an asterisk. *)
Lemma key_fails x y u :
  x ∈ price_keys -> y ∈ price_keys -> x <> y -> fails (RSeqs (RGroup 1 (RLit x) :: key_rest)) (y ++ js " * " ++ u).
Proof.
  intros Hx%key_cases Hy%key_cases Hne. apply fails_group_lit.
  destruct Hx as [Hx|[Hx|Hx%extra_var_cases]]; [subst x|subst x|destruct_or! Hx; subst x];
    (destruct Hy as [Hy|[Hy|Hy%extra_var_cases]]; [subst y|subst y|destruct_or! Hy; subst y]);
    try (by destruct Hne); try (by apply fails_head, fails_lit).
  all: match goal with |- fails (RSeqs (RLit ?x :: _)) (?y ++ ?r) =>
    let z := eval vm_compute in (drop (length x) y) in change (y ++ r) with (x ++ z ++ r) end;
    apply fails_after_lit, fails_after_none; [done|by apply fails_head, fails_lit].
Qed.

(** The choice between the keys takes the one that is there. *)
Lemma takes_key xs x u v c :
  incl xs price_keys -> x ∈ xs -> takes key_rest (js " * " ++ u) v c ->
  takes (RGroup 1 (RAlts (List.map RLit xs)) :: key_rest) (x ++ js " * " ++ u) v (fun cs => c (cset 1 x cs)).
Proof.
  intros Hxs Hx Hu. assert (Hhit : takes (RGroup 1 (RLit x) :: key_rest) (x ++ js " * " ++ u) v (fun cs => c (cset 1 x cs))).
  { eapply takes_cons; [apply takes_group, takes_lit|done]. }
  assert (Hsplit : forall a b l w d, takes (RAlt (RGroup 1 a) (RGroup 1 b) :: l) w v d -> takes (RGroup 1 (RAlt a b) :: l) w v d).
  { intros a b l w d H s Hs. destruct (H s Hs) as (s' & H1 & H2 & H3). exists s'. split_and!; [done|done|]. apply H3. }
  induction xs as [|y xs IH]; [by apply elem_of_nil in Hx|].
  destruct xs as [|z xs].
  - apply list_elem_of_singleton in Hx as ->. exact Hhit.
  - cbn [List.map RAlts]. apply Hsplit. destruct (decide (x = y)) as [->|Hne]; [by apply takes_alt_first|].
    apply elem_of_cons in Hx as [?|Hx]; [done|].
    apply takes_alt_seq.
    + assert (Hk : forall w, w ∈ y :: z :: xs -> w ∈ price_keys) by (intros w Hw; apply list_elem_of_In, Hxs; by apply list_elem_of_In).
      pose proof (key_fails y x (u ++ v) (Hk y ltac:(left)) (Hk x ltac:(by right)) ltac:(congruence)) as Hf.
      by rewrite <-!app_assoc.
    + apply IH; [|done]. intros w Hw. apply Hxs. by right.
Qed.

Definition price_text (kv : jstr * jstr) : jstr := kv.1 ++ js " * " ++ kv.2.

Lemma takes_price kv v :
  kv.1 ∈ price_keys -> num_text kv.2 -> stops num_unit v ->
  takes (RGroup 1 (RAlts (List.map RLit price_keys)) :: key_rest) (price_text kv) v (fun cs => cset 2 kv.2 (cset 1 kv.1 cs)).
Proof.
  intros Hk Ht Hv. apply takes_key; [apply incl_refl|done|].
  unfold key_rest. change (js " * " ++ kv.2) with (js " " ++ js "*" ++ js " " ++ kv.2).
  eapply takes_conv; [|reflexivity|].
  - eapply takes_cons; [by apply takes_space|]. eapply takes_cons; [apply takes_lit|].
    eapply takes_cons; [apply takes_space; by apply num_head_no_ws|].
    apply takes_group, takes_run; [apply Ht|by apply nonempty_length, Ht|done].
  - done.
Qed.

(** ** The prices of a tier *)

Lemma key_head_word x v : x ∈ price_keys -> exists c w, x ++ v = c :: w /\ is_word c = true.
Proof.
  intros H%key_cases. destruct H as [H|[H|H%extra_var_cases]]; [subst x..|destruct_or! H; subst x];
    (eexists _, _; split; [reflexivity|done]).
Qed.

Lemma scan_price kv v i q :
  kv.1 ∈ price_keys -> num_text kv.2 -> stops num_unit v -> word_at q = false ->
  exists f, scan BILLING_VAR_REGEX i q (price_text kv ++ v) = Some f /\ f_rest f = v /\
    group_or_empty f 1 = kv.1 /\ group_or_empty f 2 = kv.2.
Proof.
  intros Hk Ht Hv Hq. destruct (takes_price kv v Hk Ht Hv (St q (price_text kv ++ v) []) eq_refl) as (s' & Hr & Hc & Hs).
  eexists. split; [apply (scan_here _ i q _ s')|].
  - change BILLING_VAR_REGEX with (RSeqs (RWordB :: RGroup 1 (RAlts (List.map RLit price_keys)) :: key_rest)).
    rewrite m_seqs. change (foldr m Some (RWordB :: ?l)) with (m RWordB (foldr m Some l)). cbn [m prev rest].
    rewrite Hq. unfold price_text. destruct (key_head_word kv.1 ((js " * " ++ kv.2) ++ v) Hk) as (c & w & E & Hw).
    rewrite <-app_assoc, E. cbn [head word_at]. rewrite Hw. cbn [Bool.eqb]. rewrite <-E, app_assoc. by apply Hs.
  - split_and!; [done|..]; unfold group_or_empty, group; cbn [f_caps]; by rewrite Hc.
Qed.

(** No key begins the text. *)
Lemma var_fails w : fails (RAlts (List.map RLit price_keys)) w -> fails BILLING_VAR_REGEX w.
Proof.
  intros H k s Hs.
  change BILLING_VAR_REGEX with (RSeqs (RWordB :: RGroup 1 (RAlts (List.map RLit price_keys)) :: key_rest)).
  rewrite m_seqs. change (foldr m k (RWordB :: ?l)) with (m RWordB (foldr m k l)). cbn [m].
  destruct (Bool.eqb _ _); [done|]. by apply (fails_group 1 _ w H (foldr m k key_rest)).
Qed.

Ltac no_key := repeat first [apply fails_lit; reflexivity|apply fails_alt].

Lemma scan_plus i q v : scan BILLING_VAR_REGEX i q (js " + " ++ v) = scan BILLING_VAR_REGEX (S (S (S i))) (Some 32%N) v.
Proof.
  change (js " + " ++ v) with (32%N :: 43%N :: 32%N :: v).
  rewrite !scan_skip; [done|..]; (eapply var_fails; [|reflexivity]; no_key).
Qed.

Definition prices_tail (kvs : list (jstr * jstr)) : jstr := concat (List.map (fun kv => js " + " ++ price_text kv) kvs).

Definition price_ok (kv : jstr * jstr) : Prop := kv.1 ∈ price_keys /\ num_text kv.2.

Definition found_price (f : found) : jstr * jstr := (group_or_empty f 1, group_or_empty f 2).

Lemma tail_stops kvs : stops num_unit (prices_tail kvs).
Proof. by destruct kvs. Qed.

Lemma exec_prices kvs : forall fuel i q,
  Forall price_ok kvs -> length (prices_tail kvs) < fuel ->
  List.map found_price (exec_all_from fuel BILLING_VAR_REGEX i q (prices_tail kvs)) = kvs.
Proof.
  induction kvs as [|kv kvs IH]; intros fuel i q Hk Hf; (destruct fuel as [|fuel]; [lia|]).
  - cbn [exec_all_from prices_tail List.map concat scan]. rewrite (var_fails []); [done|no_key|done].
  - apply Forall_cons in Hk as [[Hk Ht] Hks]. unfold prices_tail in *. cbn [List.map concat] in *. cbn [exec_all_from].
    rewrite <-app_assoc, scan_plus.
    destruct (scan_price kv (prices_tail kvs) (S (S (S i))) (Some 32%N) Hk Ht (tail_stops kvs) eq_refl)
      as (f & E & Hr & H1 & H2). unfold prices_tail in E, Hr. rewrite E. cbn [List.map]. rewrite Hr.
    rewrite IH; [|done|rewrite !length_app in Hf; change (length (js " + ")) with 3 in Hf; lia].
    unfold found_price. rewrite H1, H2. by destruct kv.
Qed.

Lemma exec_body kv kvs :
  Forall price_ok (kv :: kvs) ->
  List.map found_price (exec_all BILLING_VAR_REGEX (price_text kv ++ prices_tail kvs)) = kv :: kvs.
Proof.
  intros [[Hk Ht] Hks]%Forall_cons. unfold exec_all. cbn [exec_all_from].
  destruct (scan_price kv (prices_tail kvs) 0 None Hk Ht (tail_stops kvs) eq_refl) as (f & -> & Hr & H1 & H2).
  cbn [List.map]. rewrite Hr, exec_prices; [|done|].
  - unfold found_price. rewrite H1, H2. by destruct kv.
  - rewrite length_app. unfold price_text. rewrite !length_app. simpl. lia.
Qed.

(** The prices of a tier, as they are written. *)
Definition written_extras (t : VisualTier) : list (jstr * jstr) :=
  omap (fun cv => (fun s => (cv.2, s)) <$> extra_cost (unit_costs t) cv) BILLING_CACHE_VAR_MAP.

Definition written_prices (t : VisualTier) : list (jstr * jstr) :=
  (js "c", num_to_string (num_or_zero (output_unit_cost t))) :: written_extras t.

Lemma body_text t :
  buildTierBodyExpr t =
  price_text (js "p", num_to_string (num_or_zero (input_unit_cost t))) ++ prices_tail (written_prices t).
Proof.
  unfold buildTierBodyExpr, written_prices, prices_tail, written_extras. rewrite join_concat. cbn [List.map concat].
  assert (E : concat (List.map (fun y => js " + " ++ y) (omap (extra_part (unit_costs t)) BILLING_CACHE_VAR_MAP)) =
    concat (List.map (fun kv => js " + " ++ price_text kv)
      (omap (fun cv => (fun s => (cv.2, s)) <$> extra_cost (unit_costs t) cv) BILLING_CACHE_VAR_MAP))).
  { induction BILLING_CACHE_VAR_MAP as [|cv L IH]; [done|]. cbn [omap list_omap]. unfold extra_part at 1, extra_cost at 1.
    destruct (num_eqb _ _); cbn [fmap option_fmap option_map List.map concat]; by rewrite IH. }
  by rewrite E.
Qed.

Lemma map_key_in cv : cv ∈ BILLING_CACHE_VAR_MAP -> cv.2 ∈ extra_vars.
Proof. apply list_elem_of_fmap_2. Qed.

Lemma written_ok t :
  writable_tier t ->
  Forall price_ok ((js "p", num_to_string (num_or_zero (input_unit_cost t))) :: written_prices t).
Proof.
  intros Ht. pose proof Ht as [_ [Hi _] [Ho _] _ _].
  apply Forall_cons. split; [by split; [left|]|]. apply Forall_cons. split; [split; [by right; left|done]|].
  apply Forall_forall. intros kv Hkv. apply list_elem_of_omap in Hkv as (cv & Hcv & E).
  destruct (extra_cost _ cv) as [s|] eqn:Es; [|done]. injection E as <-. split; [|by eapply extra_cost_text].
  change price_keys with ([js "p"; js "c"] ++ extra_vars). apply elem_of_app. right. by apply map_key_in.
Qed.

(** The first price of a variable counts. *)
Definition coeff_step (co : list (jstr * num)) (kv : jstr * jstr) : list (jstr * num) :=
  if is_some (map_get kv.1 co) then co else map_set kv.1 (num_of_string kv.2) co.

Lemma coeffs_get kvs : forall co k,
  map_get k (fold_left coeff_step kvs co) =
  match map_get k co with Some x => Some x | None => num_of_string <$> map_get k kvs end.
Proof.
  induction kvs as [|[k' s] kvs IH]; intros co k; cbn [fold_left map_get].
  - by destruct (map_get k co).
  - rewrite IH. unfold coeff_step. cbn [fst snd].
    destruct (bool_decide_reflect (k = k')) as [->|Hne].
    + destruct (map_get k' co) as [x|] eqn:E; cbn [is_some]; [by rewrite E|]. by rewrite map_get_set_eq.
    + destruct (map_get k' co) as [x|] eqn:E; cbn [is_some]; [done|]. by rewrite map_get_set_ne.
Qed.

Lemma fold_found (fs : list found) co :
  fold_left (fun co f => let k := group_or_empty f 1 in
    if is_some (map_get k co) then co else map_set k (num_of_string (group_or_empty f 2)) co) fs co =
  fold_left coeff_step (List.map found_price fs) co.
Proof. revert co. induction fs as [|f fs IH]; intros co; [done|]. cbn [fold_left List.map]. by rewrite IH. Qed.

(** The prices that are shown: one for every variable, zero when none is set. *)
Definition shown_prices (t : VisualTier) : list (jstr * num) :=
  (js "inputPrice", num_or_zero (input_unit_cost t)) :: (js "outputPrice", num_or_zero (output_unit_cost t)) ::
  List.map (fun v => (field v ?? [], unit_cost_or_zero (tierField v ?? []) (unit_costs t))) BILLING_EXTRA_VARS.

Lemma written_extra_get t cv :
  cv ∈ BILLING_CACHE_VAR_MAP -> map_get cv.2 (written_extras t) = extra_cost (unit_costs t) cv.
Proof.
  intros Hcv. unfold written_extras.
  rewrite (map_get_omap snd (fun s => s) (extra_cost (unit_costs t)) _ cv extra_vars_distinct Hcv).
  by destruct (extra_cost _ _).
Qed.

Lemma shown_extra t cv :
  writable_tier t -> cv ∈ BILLING_CACHE_VAR_MAP ->
  match num_of_string <$> map_get cv.2 (written_extras t) with Some x => num_or_zero x | None => nzero end =
  unit_cost_or_zero cv.1 (unit_costs t).
Proof.
  intros Ht Hcv. rewrite written_extra_get by done. unfold extra_cost. destruct (num_eqb _ _) eqn:E; cbn [fmap option_fmap option_map].
  - symmetry. by apply num_zero_eq.
  - rewrite (wr_reads _ (wt_extra t Ht cv.1 ltac:(rewrite <-extra_fields; by apply list_elem_of_fmap_2))).
    apply num_or_zero_idemp.
Qed.

Lemma read_body t : writable_tier t -> parseTierBody (buildTierBodyExpr t) = shown_prices t.
Proof.
  intros Ht. unfold parseTierBody. rewrite fold_found, body_text, exec_body by by apply written_ok.
  set (kvs := (js "p", _) :: written_prices t).
  assert (Hp : map_get (js "p") (fold_left coeff_step kvs []) = Some (num_or_zero (input_unit_cost t))).
  { rewrite coeffs_get. cbn [map_get kvs]. rewrite bool_decide_eq_true_2 by done. cbn [fmap option_fmap option_map].
    by rewrite (wr_reads _ (wt_input t Ht)). }
  assert (Hc : map_get (js "c") (fold_left coeff_step kvs []) = Some (num_or_zero (output_unit_cost t))).
  { rewrite coeffs_get. unfold kvs, written_prices. cbn [map_get].
    rewrite (bool_decide_eq_false_2 (js "c" = js "p")), bool_decide_eq_true_2 by done. cbn [fmap option_fmap option_map].
    by rewrite (wr_reads _ (wt_output t Ht)). }
  assert (He : forall cv, cv ∈ BILLING_CACHE_VAR_MAP ->
    match map_get cv.2 (fold_left coeff_step kvs []) with Some x => num_or_zero x | None => nzero end =
    unit_cost_or_zero cv.1 (unit_costs t)).
  { intros cv Hcv. rewrite coeffs_get. cbn [map_get]. subst kvs. unfold written_prices. cbn [map_get].
    pose proof (map_key_in cv Hcv) as Hk.
    rewrite !bool_decide_eq_false_2 by (intros E; rewrite E in Hk; apply extra_var_cases in Hk; by destruct_or! Hk).
    by apply shown_extra. }
  change BILLING_VAR_KEY_TO_FIELD with ((js "p", js "inputPrice") :: (js "c", js "outputPrice") ::
    List.map (fun v => (key v, field v ?? [])) BILLING_EXTRA_VARS).
  cbn [List.map fst snd]. rewrite Hp, Hc, !num_or_zero_idemp. unfold shown_prices. do 2 f_equal.
  rewrite List.map_map. apply map_ext_in. intros v Hv. cbn [fst snd]. f_equal.
  apply (He (tierField v ?? [], key v)). apply list_elem_of_In, (List.in_map (fun v => (tierField v ?? [], key v))), Hv.
Qed.

(** * The tiers of the price page *)

Definition shown_condition (c : TierConditionInput) : option TierCondition :=
  (fun o => TCond (tc_var c) o (num_of_string (value_text (tc_value c)))) <$> op_of (tc_op c).

Definition shown_tier (p : Part) : ParsedTier :=
  Tier (pa_name p) (omap shown_condition (pa_conditions p)) (shown_prices (pa_tier p)).

Definition shown_found (f : found) : ParsedTier :=
  Tier (group_or_empty f 2) (parseTierConditions (group_or_empty f 1)) (parseTierBody (group_or_empty f 3)).

Lemma read_shown c : readable c -> parseTierCondition (condition_text c) = shown_condition c.
Proof.
  intros Hc. unfold parseTierCondition. rewrite trim_id by apply (condition_part c Hc).
  destruct (condition_found c Hc) as (q & E). unfold conditionRe in E. rewrite E. unfold group_or_empty, group.
  cbn [f_caps]. rewrite !cap_get_cset. cbn [Nat.eqb nullish]. unfold shown_condition. by destruct (op_of _).
Qed.

Lemma shown_conditions cs : Forall readable cs -> parseTierConditions (conds_text cs) = omap shown_condition cs.
Proof.
  intros H. unfold parseTierConditions. rewrite conds_text_truthy. destruct cs as [|c cs]; [done|].
  rewrite split_texts by done. induction H as [|d ds Hd _ IH]; [done|]. cbn [List.map omap list_omap].
  by rewrite read_shown, <-IH.
Qed.

Lemma price_units t : num_text t -> forallb (not_unit 41) t = true.
Proof.
  intros [Ht _]. apply forallb_forall. intros c Hc. rewrite forallb_forall in Ht. apply Ht, num_unit_plain in Hc.
  unfold not_unit. lia.
Qed.

Lemma body_units t : writable_tier t -> forallb (not_unit 41) (buildTierBodyExpr t) = true.
Proof.
  intros Ht. rewrite body_text. pose proof (written_ok t Ht) as H.
  assert (Hp : forall kv, price_ok kv -> forallb (not_unit 41) (price_text kv) = true).
  { intros kv [Hk Hn]. unfold price_text. rewrite !forallb_app, (price_units _ Hn).
    apply key_cases in Hk as [->|[->|Hk%extra_var_cases]]; [done|done|by destruct_or! Hk; rewrite Hk]. }
  apply Forall_cons in H as [H1 H2]. rewrite forallb_app, Hp by done. cbn [andb]. unfold prices_tail.
  induction H2 as [|kv kvs Hk _ IH]; [done|]. cbn [List.map concat]. by rewrite !forallb_app, Hp, IH.
Qed.

Lemma scan_shown : finds_part tierRe shown_found shown_tier.
Proof.
  intros p v i q Hp. destruct (takes_header p v Hp) as (u & c & -> & Hu & Hc & H1). destruct Hp as [Hcs Hn Ht].
  assert (H : takes ([header_re] ++ [RLit (jq "tier(`"); RGroup 2 (RStar (RSet (not_unit 34))); RLit (jq "`,"); RWss;
         RGroup 3 (RPlus (RSet (not_unit 41))); RLit (js ")")]) (u ++ tier_call (pa_name p) (pa_tier p)) v
    (fun cs => cset 3 (buildTierBodyExpr (pa_tier p)) (cset 2 (pa_name p) (c cs)))).
  { eapply takes_conv; [eapply takes_app; [exact Hu|]|reflexivity|].
    - unfold tier_call. change (jq "`, ") with (jq "`," ++ js " "). rewrite <-(app_assoc (jq "`,")).
      eapply takes_cons; [apply takes_lit|].
      eapply takes_cons; [apply takes_group, takes_run; [exact Hn|lia|done]|].
      eapply takes_cons; [apply takes_lit|]. eapply takes_cons; [by apply takes_space|].
      eapply takes_cons; [|apply takes_lit]. apply takes_group, takes_run; [by apply body_units| |done].
      apply nonempty_length. rewrite body_text. done.
    - done. }
  destruct (scan_takes _ _ _ _ i q H) as (q' & E). eexists. split_and!; [exact E|done|done|done|].
  unfold shown_found, shown_tier, group_or_empty, group. cbn [f_caps]. rewrite !cap_get_cset. cbn [Nat.eqb nullish].
  rewrite H1, (read_body (pa_tier p)) by done. f_equal. rewrite <-shown_conditions by done. by destruct (pa_conditions p).
Qed.

Lemma shown_tail ps fuel i q :
  Forall part_ok ps -> length (parts_tail ps) < fuel ->
  List.map shown_found (exec_all_from fuel tierRe i q (parts_tail ps)) = List.map shown_tier ps.
Proof.
  apply (exec_parts _ _ _ scan_shown); [|apply header_call_fails_nil].
  intros c w Hc. by apply header_call_fails, separator_other.
Qed.

Lemma version_kept p v : part_ok p -> (stripExprVersion (part_text p ++ v)).2 = part_text p ++ v.
Proof.
  intros Hp. destruct (part_text_head p v Hp) as (c & w & E & Hc). rewrite E. unfold stripExprVersion. cbn [truthy negb RSeqs].
  rewrite match_miss; [done|]. rewrite m_seq, m_lit_fail; [done|]. cbn [rest]. change (js "v") with [118%N]. cbn [strip_prefix].
  rewrite (proj2 (N.eqb_neq _ _)); [done|]. by intros <-.
Qed.

Lemma shown_parts p ps tail :
  part_ok p ->
  (forall i q fuel, length tail < fuel -> List.map shown_found (exec_all_from fuel tierRe i q tail) = List.map shown_tier ps) ->
  parseTiersFromExpr (part_text p ++ tail) = List.map shown_tier (p :: ps).
Proof.
  intros Hp Ht. unfold parseTiersFromExpr. rewrite version_kept by done.
  assert (Hne : truthy (part_text p ++ tail) = true).
  { apply truthy_true. by intros [E%part_text_nonempty _]%app_eq_nil. }
  rewrite Hne. cbn [negb]. destruct (exec_first _ _ _ scan_shown p tail Hp) as (i & q & Ex).
  unfold shown_found in Ex at 1. rewrite Ex. cbn [List.map]. f_equal. apply Ht.
  rewrite length_app. pose proof (nonempty_length _ (part_text_nonempty p)). lia.
Qed.

(** C26: the price page shows what the tier editor wrote: the tiers read out of
    the expression are those that were written, in order, each with its name, its
    conditions and all its prices. *)
Theorem display_reads_tiers (ts : list VisualTier) :
  ts <> [] -> Forall writable_tier ts ->
  parseTiersFromExpr (generateExprFromVisualConfig (Some (VConfig ts))) = List.map shown_tier (written_parts ts).
Proof.
  intros Hne Hts. pose proof (written_parts_ok ts Hts) as Hok.
  destruct (written_parts ts) as [|p ps] eqn:E; [by destruct ts as [|? [|? ?]]|].
  apply Forall_cons in Hok as [Hp Hps]. destruct ts as [|t [|t2 ts]]; [done| |].
  - injection E as <- <-. rewrite generate_single. apply shown_parts; [done|]. intros i q [|fuel] Hf; [lia|].
    by destruct (complete_conditions t).
  - rewrite (generate_several _ p ps) by (done || simpl; lia). apply shown_parts; [done|].
    intros i q fuel Hf. by apply shown_tail.
Qed.

Lemma display_reads_tiers_witness :
  parseTiersFromExpr (generateExprFromVisualConfig (Some (VConfig long_context))) =
    List.map shown_tier (written_parts long_context) /\
  List.map (fun t => (t_label t, t_conditions t)) (List.map shown_tier (written_parts long_context)) =
    [(js "standard", [TCond (js "len") OpLe (num_of_Z 200000); TCond (js "c") OpLt (num_of_Z 1000000)]); (js "tier_2", [])].
Proof.
  split; [|vm_compute; reflexivity].
  apply (display_reads_tiers long_context); [done|apply long_context_writable].
Defined.
