(* ===== verification/TierText.v ===== *)
(** The texts of configurations, as the splitting of an expression into a base and
    rules sees them (web/src/features/pricing/lib/billing-expr.ts and
    tier-expr.ts): what the editor writes for its tiers is a base that
    is told apart from the rules it is combined with. *)

From Stdlib Require Import NArith ZArith Lia ZifyBool ZifyN.
From stdpp Require Import base list gmap strings.
From S2P Require Import Prelude JsString JsNum Json Regex BillingExpr TierExpr.

(** * The text of a configuration

    A configuration is written as parts that the splitting at top level
    multiplications keeps apart from the rules. *)

Lemma quiet_app c u v : quiet c 0 u -> quiet c 0 v -> quiet c 0 (u ++ v).
Proof.
  intros [Eu Hu] [Ev Hv]. split; [by rewrite depth_of_app, Eu|].
  intros w z E. apply app_eq_app in E as [l [[-> E]|[-> E]]].
  - destruct l as [|x l]; [|injection E as -> ->; by apply (Hu w l)].
    rewrite app_nil_r in *. rewrite Eu. rewrite app_nil_l in E. destruct (Hv [] z); done.
  - rewrite depth_of_app, Eu. by apply (Hv l z).
Qed.

Lemma quiet_plain c s : no_paren s = true -> c ∉ s -> quiet c 0 s.
Proof. intros H Hc. apply quiet_absent; [by apply nested_plain|done]. Qed.

(** A text with balanced parentheses and no multiplication outside of them. *)
Definition apart (s : jstr) : Prop := quiet 42 0 s /\ nested s.

Lemma apart_app u v : apart u -> apart v -> apart (u ++ v).
Proof. intros [? ?] [? ?]. split; [by apply quiet_app|by apply nested_app]. Qed.

Lemma apart_plain s : no_paren s = true -> 42%N ∉ s -> apart s.
Proof. intros. split; [by apply quiet_plain|by apply nested_plain]. Qed.

Lemma apart_nil : apart [].
Proof. by apply apart_plain; [|apply not_elem_of_nil]. Qed.

Lemma apart_paren s : nested s -> apart (40%N :: s ++ [41%N]).
Proof. intros. split; [by apply quiet_paren|by apply nested_paren]. Qed.

Lemma no_paren_app u v : no_paren (u ++ v) = (no_paren u && no_paren v)%bool.
Proof. apply forallb_app. Qed.

Lemma num_no_paren t : forallb num_unit t = true -> no_paren t = true.
Proof. intros. by apply flat_no_paren, num_flat. Qed.

Lemma cost_nested x v : no_paren x = true -> writable v -> nested (cost_part x v).
Proof.
  intros Hx [[Hv _] _]. apply nested_plain. unfold cost_part. rewrite !no_paren_app, Hx.
  by rewrite (num_no_paren _ Hv).
Qed.

Lemma body_nested t : writable_tier t -> nested (buildTierBodyExpr t).
Proof.
  intros Ht. unfold buildTierBodyExpr. apply nested_join; [done|].
  apply Forall_cons; split; [by apply cost_nested, wt_input|].
  apply Forall_cons; split; [by apply cost_nested, wt_output|].
  apply Forall_forall. intros x ([f y] & Hin & E)%list_elem_of_omap. unfold extra_part in E. cbn [fst snd] in E.
  destruct (num_eqb _ _); [done|]. injection E as <-. apply cost_nested.
  - assert (H : Forall (fun cv => no_paren cv.2 = true) BILLING_CACHE_VAR_MAP) by repeat constructor.
    rewrite Forall_forall in H. by apply (H _ Hin).
  - apply wt_extra; [done|]. rewrite <-extra_fields. by apply (list_elem_of_fmap_2 fst _ _ Hin).
Qed.

Lemma call_apart name t : nested name -> writable_tier t -> apart (tier_call name t).
Proof.
  intros Hn Ht.
  assert (E : tier_call name t = js "tier" ++ 40%N :: (jq "`" ++ name ++ jq "`, " ++ buildTierBodyExpr t) ++ [41%N]).
  { unfold tier_call. by rewrite <-!app_assoc. }
  rewrite E. apply apart_app; [apply apart_plain; [done|by apply (bool_decide_unpack _)]|].
  apply apart_paren. apply nested_app; [done|]. apply nested_app; [done|]. apply nested_app; [done|by apply body_nested].
Qed.

Lemma condition_apart c : TierExpr.readable c -> apart (condition_text c).
Proof.
  intros [Hx Ho Ht _]. unfold condition_text.
  assert (Hin : forall x, x ∈ tier_vars ++ tier_ops ++ [js " "] -> apart x).
  { apply Forall_forall. unfold tier_vars, tier_ops. cbn [app].
    repeat (apply Forall_cons; split; [apply apart_plain; [done|by apply (bool_decide_unpack _)]|]). constructor. }
  do 4 (apply apart_app; [apply Hin; set_solver|]).
  apply apart_plain.
  - apply (forallb_impl bound_unit _ _); [|apply Ht]. intros c0 H%bound_unit_plain. unfold one_of. cbn [existsb]. lia.
  - intros H%list_elem_of_In. destruct Ht as [Ht _]. rewrite forallb_forall in Ht. by apply Ht in H.
Qed.

Lemma apart_join sep l : apart sep -> Forall apart l -> apart (join sep l).
Proof.
  intros Hs. induction 1 as [|p [|q l] Hp Hl IH]; [apply apart_nil|done|]. rewrite join_cons2. by apply apart_app, apart_app.
Qed.

Lemma separator_apart : apart (js " && ") /\ apart (js " ? ") /\ apart (js " : ").
Proof. split_and!; (apply apart_plain; [done|by apply (bool_decide_unpack _)]). Qed.

Lemma part_apart p : part_ok p -> nested (pa_name p) -> apart (part_text p).
Proof.
  intros [Hc _ Ht] Hn. unfold part_text. pose proof (call_apart _ _ Hn Ht) as Hcall.
  destruct (pa_conditions p) as [|c cs]; [done|]. rewrite <-app_assoc. apply apart_app; [|by apply apart_app; [apply separator_apart|]].
  apply apart_join; [apply separator_apart|].
  apply Forall_map. eapply Forall_impl; [exact Hc|]. apply condition_apart.
Qed.

Lemma parts_apart ps : Forall (fun p => part_ok p /\ nested (pa_name p)) ps -> apart (parts_tail ps).
Proof.
  unfold parts_tail. induction 1 as [|p ps [Hp Hn] _ IH]; [apply apart_nil|]. cbn [List.map concat]. rewrite <-app_assoc.
  apply apart_app; [apply separator_apart|by apply apart_app; [apply part_apart|]].
Qed.

(** A part that does not begin with a parenthesis is not a rule. *)
Record standing (s : jstr) : Prop := {
  st_apart : apart s;
  st_trimmed : trimmed s;
  st_head : exists c t, s = c :: t /\ c <> 40%N }.

Lemma standing_part s : standing s -> quiet 42 0 s /\ trimmed s /\ s <> [].
Proof. intros [[Hq _] Ht (c & t & -> & _)]. done. Qed.

Lemma split_multiply ps :
  ps <> [] -> Forall (fun p => quiet 42 0 p /\ trimmed p /\ p <> []) ps -> splitTopLevelMultiply (join (js " * ") ps) = ps.
Proof. intros Hne H. by apply (split_top_join 42 [32%N] ps). Qed.

(** What the reader of rules makes of one part. *)
Lemma is_rule_part_single s :
  quiet 42 0 s -> trimmed s -> s <> [] -> re_match factor_re s = None -> is_rule_part s = inr false.
Proof.
  intros Hq Ht Hn Hf. unfold is_rule_part, tryParseRequestRuleExpr. cbv zeta. rewrite trim_id by done.
  rewrite (proj2 (truthy_true _)) by done. cbn [negb].
  assert (E : splitTopLevelMultiply s = [s]) by (apply (split_multiply [s]); [done|by apply Forall_singleton]). rewrite E. cbn [parse_parts].
  unfold tryParseRuleGroupFactor. by rewrite Hf.
Qed.

Lemma standing_no_rule s : standing s -> is_rule_part s = inr false.
Proof.
  intros H. destruct (standing_part s H) as (? & ? & ?). apply is_rule_part_single; [done..|].
  destruct H as [_ _ (c & t & -> & Hc)]. unfold factor_re. cbn [RSeqs]. apply match_miss. rewrite m_seq. apply m_lit_fail.
  cbn [rest]. change (js "(") with [40%N]. cbn [strip_prefix]. by rewrite (proj2 (N.eqb_neq _ _)).
Qed.

(** A text that does not end as a rule does is not one. *)
Lemma factor_end u c d : re_match factor_re (u ++ [c; d]) <> None -> c = 49%N /\ d = 41%N.
Proof.
  set (s := u ++ [c; d]). intros H.
  assert (Ht : re_test factor_re s = true) by (unfold re_test; by destruct (re_match factor_re s)).
  change factor_re with (RSeq RBol (RSeqs (([RLit (js "("); RGroup 1 (RPlus RAny); RLit (js " ? "); RNum 2] ++ [RLit (js " : 1)")]) ++ [REol]))) in Ht.
  rewrite test_bol, !m_seqs_snoc in Ht.
  assert (Hw : within (fun _ => true) (RSeqs [RLit (js "("); RGroup 1 (RPlus RAny); RLit (js " ? "); RNum 2])) by (by repeat split).
  destruct (m_within _ _ _ _ Hw Ht) as (w & s1 & Hr & _ & Hk). cbn [rest] in Hr.
  destruct (strip_prefix (js " : 1)") (rest s1)) as [t|] eqn:E; [|by rewrite m_lit_fail in Hk].
  apply strip_prefix_some in E. rewrite (m_lit _ _ _ t) in Hk by done.
  destruct t as [|x t]; [|by rewrite (m_eol_fail _ _ x t) in Hk]. rewrite app_nil_r in E. rewrite E in Hr. subst s.
  change (js " : 1)") with ([32; 58; 32]%N ++ [49; 41]%N) in Hr. rewrite app_assoc in Hr.
  change (u ++ [c; d]) with (u ++ [c] ++ [d]) in Hr. change ([49; 41]%N) with ([49] ++ [41])%N in Hr.
  rewrite !app_assoc in Hr. apply app_inj_tail in Hr as [Hr ->]. by apply app_inj_tail in Hr as [_ ->].
Qed.

Lemma partition_standing ps : Forall standing ps -> partition_parts ps = inr ([], ps).
Proof. induction 1 as [|p ps Hp _ IH]; [done|]. cbn [partition_parts]. by rewrite standing_no_rule, IH. Qed.

(** The text of a configuration: parts that are no rules, which do not end as
    rules do. *)
Record base_text (e : jstr) : Prop := {
  bt_parts : exists ps, ps <> [] /\ Forall standing ps /\ e = join (js " * ") ps;
  bt_nested : nested e;
  bt_end : exists u c, e = u ++ [c] /\ c <> 49%N }.

Lemma base_trimmed e : base_text e -> trimmed e /\ exists c t, e = c :: t /\ c <> 40%N.
Proof.
  intros [(ps & Hne & Hps & ->) _ _]. split.
  - apply trimmed_join. eapply Forall_impl; [exact Hps|]. intros p Hp. by destruct (standing_part p Hp) as (? & ? & ?).
  - destruct ps as [|p ps]; [done|]. apply Forall_cons in Hps as [[_ _ (c & t & -> & Hc)] _].
    destruct ps; [by exists c, t|]. rewrite join_cons2. by eexists _, _.
Qed.

Lemma split_base e : base_text e -> splitBillingExprAndRequestRules e = inr (e, []).
Proof.
  intros He. destruct (base_trimmed e He) as [Ht (c & t & Ec & _)]. destruct He as [(ps & Hne & Hps & E) _ _].
  unfold splitBillingExprAndRequestRules. cbv zeta. rewrite trim_id by done.
  rewrite (proj2 (truthy_true _)) by (by rewrite Ec). cbn [negb]. 
  assert (Es : splitTopLevelMultiply e = ps).
  { rewrite E. apply split_multiply; [done|]. eapply Forall_impl; [exact Hps|]. apply standing_part. }
  rewrite Es.   destruct (Nat.leb (length ps) 1); [done|]. by rewrite partition_standing.
Qed.

Lemma split_written e gs :
  base_text e -> Forall editable gs ->
  splitBillingExprAndRequestRules (combineBillingExpr e (buildRequestRuleExpr gs)) = inr (e, buildRequestRuleExpr gs).
Proof.
  intros He Hg. destruct (base_trimmed e He) as [Ht (c & t & Ec & Hc)].
  destruct (omap canonicalGroup gs) eqn:Eg.
  - assert (Er : buildRequestRuleExpr gs = []) by (rewrite <-(rewrite_groups gs Hg), Eg; done).
    rewrite Er. unfold combineBillingExpr. cbv zeta. rewrite trim_id, (proj2 (truthy_true e)) by (done || by rewrite Ec).
    cbn [negb]. by rewrite split_base.
  - rewrite <-(trim_id e Ht) at 2. destruct He as [_ Hn (u & d & Eu & Hd)].
    assert (Hw : trimmed (40%N :: e ++ [41%N])).
    { split; intros x; [by intros [= <-]|]. rewrite app_comm_cons, last_snoc. by intros [= <-]. }
    apply split_combined; rewrite ?trim_id by done; [done|by rewrite Eg|done|by rewrite Ec| |].
    + unfold hasFullOuterParens, starts_with. rewrite Ec. change (js "(") with [40%N]. cbn [strip_prefix].
      by rewrite (proj2 (N.eqb_neq _ _)).
    + change (js "(" ++ e ++ js ")") with (40%N :: e ++ [41%N]). apply is_rule_part_single; [by apply quiet_paren|done|done|].
      destruct (re_match factor_re _) eqn:Ef; [|done]. exfalso. rewrite Eu, <-app_assoc, app_comm_cons in Ef.
      destruct (factor_end (40%N :: u) d 41) as [-> _]; [|done].
      change [d; 41%N] with ([d] ++ [41%N]). by rewrite Ef.
Qed.

(** Tiers whose names, prices and bounds can be written, with the parentheses of
    the names balanced. *)
Definition presentable (ts : list VisualTier) : Prop :=
  ts <> [] /\ Forall (fun t => writable_tier t /\ nested (label t)) ts.

Lemma nested_or_str x d : nested x -> nested d -> nested (or_str x d).
Proof. unfold or_str. by destruct (truthy x). Qed.

Lemma nested_tier_name n : nested (js "tier_" ++ print_N n).
Proof.
  apply nested_plain. rewrite no_paren_app. pose proof (print_N_digits n) as H. unfold all_digits in H.
  apply andb_true_iff in H as [_ H]. rewrite (num_no_paren (print_N n)); [done|].
  eapply forallb_impl; [|exact H]. intros c Hc. unfold num_unit. by rewrite Hc.
Qed.

Lemma written_parts_named ts : presentable ts -> Forall (fun p => part_ok p /\ nested (pa_name p)) (written_parts ts).
Proof.
  intros [_ H]. assert (Hw : Forall writable_tier ts) by (eapply Forall_impl; [exact H|by intros t []]).
  apply written_parts_ok in Hw. apply Forall_and. split; [done|]. clear Hw.
  destruct ts as [|t [|t2 ts]]; [constructor|..].
  - apply Forall_singleton in H as [_ H]. apply Forall_singleton. cbn. by apply nested_or_str.
  - unfold written_parts. set (l := t :: t2 :: ts) in *. apply Forall_lookup. intros i p. rewrite list_lookup_imap.
    destruct (l !! i) as [u|] eqn:E; [|done]. intros [= <-]. rewrite Forall_lookup in H. destruct (H i u E) as [_ Hn].
    cbn [part_of pa_name]. apply nested_or_str; [done|apply nested_tier_name].
Qed.

Lemma part_text_end p : exists u, part_text p = u ++ [41%N].
Proof.
  unfold part_text, tier_call. change (js ")") with [41%N]. rewrite !app_assoc. by eexists.
Qed.

Lemma parts_end p ps : exists u, part_text p ++ parts_tail ps = u ++ [41%N].
Proof.
  revert p. induction ps as [|q ps IH]; intros p.
  - rewrite app_nil_r. apply part_text_end.
  - destruct (IH q) as [u E]. exists (part_text p ++ js " : " ++ u). unfold parts_tail in *. cbn [List.map concat].
    by rewrite <-!app_assoc, E.
Qed.

Lemma standing_parts p v u c :
  part_ok p -> apart (part_text p ++ v) -> part_text p ++ v = u ++ [c] -> is_ws c = false -> standing (part_text p ++ v).
Proof.
  intros Hp Ha E Hc. destruct (part_text_head p v Hp) as (x & t & Ex & Hx).
  assert (Hw : is_ws x = false /\ x <> 40%N).
  { unfold one_of in Hx. apply existsb_exists in Hx as (y & Hy & ->%N.eqb_eq). by destruct Hy as [<-|[<-|[<-|[<-|[]]]]]. }
  split; [done| |exists x, t; by split; [|apply Hw]].
  split; intros y; [rewrite Ex; intros [= <-]; apply Hw|rewrite E, last_snoc; by intros [= <-]].
Qed.

Lemma generate_base ts : presentable ts -> base_text (generateExprFromVisualConfig (Some (VConfig ts))).
Proof.
  intros Hts. pose proof (written_parts_named ts Hts) as Hok. destruct Hts as [Hne _].
  destruct (written_parts ts) as [|p ps] eqn:E; [by destruct ts as [|? [|? ?]]|].
  apply Forall_cons in Hok as [[Hp Hn] Hps]. pose proof (part_apart p Hp Hn) as Ha.
  assert (Hsev : base_text (part_text p ++ parts_tail ps)).
  { assert (Hall : apart (part_text p ++ parts_tail ps)) by (apply apart_app; [done|by apply parts_apart]).
    destruct (parts_end p ps) as [u Eu]. split; [|by destruct Hall|by exists u, 41%N].
    exists [part_text p ++ parts_tail ps]. split; [done|]. split; [|done]. apply Forall_singleton.
    by apply (standing_parts _ _ u 41). }
  destruct ts as [|t [|t2 ts]]; [done| |by rewrite (generate_several _ p ps) by (done || simpl; lia)].
  injection E as <- <-. rewrite generate_single. set (p := MkPart _ _ _) in *.
  destruct (complete_conditions t) as [|c cs]; [done|]. clear Hsev.
  assert (Hh : apart (part_text p ++ js " : p")).
  { apply apart_app; [done|]. apply apart_plain; [done|by apply (bool_decide_unpack _)]. }
  split.
  - exists [part_text p ++ js " : p"; js "0 + c"; js "0"]. split; [done|]. split; [|by cbn [join]; rewrite <-!app_assoc].
    apply Forall_cons; split; [by apply (standing_parts _ _ (part_text p ++ js " : ") 112); [| |rewrite <-app_assoc|]|].
    assert (Hz : forall s c t, s = c :: t -> no_paren s = true -> 42%N ∉ s -> trimmed s -> standing s).
    { intros s x w -> H1 H2 H3. split; [by apply apart_plain|done|]. exists x, w. split; [done|]. by intros ->. }
    repeat (apply Forall_cons; split; [eapply Hz; [reflexivity|done|by apply (bool_decide_unpack _)|by split; intros ? [= <-]]|]). constructor.
  - apply nested_app; [apply Ha|by apply nested_plain].
  - exists (part_text p ++ js " : p * 0 + c * "), 48%N. split; [by rewrite <-app_assoc|done].
Qed.
