(* ===== verification/TierEditor.v ===== *)
(** The tiered pricing editor
    (web/src/features/system-settings/models/tiered-pricing-editor.tsx): the
    handlers of its parts, the presets, and the editor itself, with its two modes
    and the effects React runs after a render.

    The component that shows the editor keeps the two expressions it is given
    ([onBillingExprChange] and [onRequestRuleExprChange] set its state), so they
    are part of the state here. A [SyntaxError] thrown by a handler, by an effect
    or while rendering ends the editor: it is the left side of a sum. *)

From Stdlib Require Import NArith ZArith Lia ZifyBool ZifyN.
From Stdlib Require Import SpecFloat.
From stdpp Require Import base list gmap strings.
From S2P Require Import Prelude JsString JsNum Json Regex BillingExpr TierExpr TierText.

(** * Numbers that are being typed *)

Definition number_of (v : num + jstr) : num := match v with inl x => x | inr s => num_of_string s end.

Definition unitCostToPrice (uc : num + jstr) : num := num_or_zero (number_of uc).
Definition priceToUnitCost (price : num + jstr) : num := num_or_zero (number_of price).

Definition formatNumberDraft (value : num + jstr) : jstr :=
  match value with
  | inl x => if num_is_finite x then num_to_string x else js "0"
  | inr s => s
  end.

Definition parseNumberDraft (value : jstr) : num :=
  if negb (truthy (trim value)) then nzero
  else let next := num_of_string value in if num_is_finite next then next else nzero.

Definition isZeroDraft (value : jstr) : bool :=
  (truthy (trim value) && num_eqb (parseNumberDraft value) nzero)%bool.

(** The state of [DraftNumberInput]. *)
Record Draft := MkDraft { draft : jstr; focused : bool }.

Definition draft_initial (value : num + jstr) : Draft := MkDraft (formatNumberDraft value) false.

(** The effect, when [focused] or [value] changed. *)
Definition draft_effect (value : num + jstr) (d : Draft) : Draft :=
  if negb (focused d) then MkDraft (formatNumberDraft value) (focused d) else d.

(** The handlers, with the text of the input: the state, and the value given to
    [onValueChange]. *)
Definition draft_change (nextDraft : jstr) (d : Draft) : Draft * num :=
  (MkDraft nextDraft (focused d), parseNumberDraft nextDraft).

Definition draft_focus (d : Draft) : Draft := MkDraft (draft d) true.

Definition draft_blur (text : jstr) (d : Draft) : Draft * num :=
  let normalized := parseNumberDraft text in (MkDraft (num_to_string normalized) false, normalized).

(** * The card of a tier *)

Definition with_conditions (cs : list TierConditionInput) (t : VisualTier) : VisualTier :=
  VTier (label t) cs (input_unit_cost t) (output_unit_cost t) (cache_mode t) (unit_costs t).

(** The index is that of a condition that is shown. *)
Definition tier_handleConditionChange (conditionIndex : nat) (next : TierConditionInput) (t : VisualTier) : VisualTier :=
  with_conditions (<[conditionIndex := next]> (conditions t)) t.

Definition tier_handleConditionRemove (conditionIndex : nat) (t : VisualTier) : VisualTier :=
  with_conditions (delete conditionIndex (conditions t)) t.

Definition handlePriceChange (fld : jstr) (value : num) (t : VisualTier) : VisualTier :=
  if fld =s js "input_unit_cost" then VTier (label t) (conditions t) value (output_unit_cost t) (cache_mode t) (unit_costs t)
  else if fld =s js "output_unit_cost" then VTier (label t) (conditions t) (input_unit_cost t) value (cache_mode t) (unit_costs t)
  else VTier (label t) (conditions t) (input_unit_cost t) (output_unit_cost t) (cache_mode t)
         (map_set fld value (unit_costs t)).

Definition handleCacheModeChange (mode : CacheMode) (t : VisualTier) : VisualTier :=
  let h := js "cache_create_1h_unit_cost" in
  VTier (label t) (conditions t) (input_unit_cost t) (output_unit_cost t) mode
    (map_set h (match mode with CACHE_MODE_TIMED => map_get h (unit_costs t) ?? nzero | CACHE_MODE_GENERIC => nzero end)
       (unit_costs t)).

Definition CACHE_PRICE_VARS : list BillingVar :=
  List.filter (fun v => match v_group v with Some g => g =s js "cache" | None => false end) BILLING_EXTRA_VARS.
Definition MEDIA_PRICE_VARS : list BillingVar :=
  List.filter (fun v => match v_group v with Some g => g =s js "media" | None => false end) BILLING_EXTRA_VARS.

Definition hasMediaPricing (t : VisualTier) : bool :=
  existsb (fun v => num_ltb nzero (unitCostToPrice (inl (map_get (tierField v ?? []) (unit_costs t) ?? nzero)))) MEDIA_PRICE_VARS.

(** * The visual editor

    The handlers give the configuration passed to [onChange], if it is called. *)

Definition handleTierChange (visualConfig : option VisualConfig) (index : nat) (next : VisualTier) : option VisualConfig :=
  let config := normalizeVisualConfig visualConfig in
  Some (VConfig (<[index := normalizeVisualTier (partial_tier next)]> (tiers config))).

Definition default_bound (x : jstr) : TierConditionInput := TCI x (js "<") (TVNum (num_of_Z 200000)).

Definition handleAddTier (visualConfig : option VisualConfig) : option VisualConfig :=
  let ts := tiers (normalizeVisualConfig visualConfig) in
  let lastIndex := length ts - 1 in
  let ts1 := match ts !! lastIndex with
             | Some t =>
                 match conditions t with
                 | [] => <[lastIndex := normalizeVisualTier (partial_tier (with_conditions [default_bound (js "len")] t))]> ts
                 | _ => ts
                 end
             | None => ts
             end in
  Some (VConfig (ts1 ++ [normalizeVisualTier
    (PTier (Some (js "tier_" ++ print_N (N.of_nat (length ts1 + 1)))) (Some []) (Some nzero) (Some nzero) None [])])).

Definition handleRemoveTier (visualConfig : option VisualConfig) (index : nat) : option VisualConfig :=
  let ts := tiers (normalizeVisualConfig visualConfig) in
  let rest := delete index ts in
  Some (VConfig (match rest with [] => ts | _ => rest end)).

(** The index is that of a tier that is shown. *)
Definition handleAddCondition (visualConfig : option VisualConfig) (index : nat) : option VisualConfig :=
  let ts := tiers (normalizeVisualConfig visualConfig) in
  match ts !! index with
  | None => None
  | Some t =>
      if Nat.leb 2 (length (conditions t)) then None
      else
        let nextVar := if existsb (fun c => tc_var c =s js "len") (conditions t) then js "c" else js "len" in
        Some (VConfig (alter (with_conditions (conditions t ++ [default_bound nextVar])) index ts))
  end.

(** * The card of a group of rules *)

Definition rule_handleSourceChange (source : jstr) : option RequestCondition :=
  if source =s SOURCE_TIME then Some createEmptyTimeCondition
  else if source =s SOURCE_HEADER then Some (ParamHeaderCondition Header [] MATCH_EQ [])
  else if source =s SOURCE_PARAM then Some (ParamHeaderCondition Param [] MATCH_EQ [])
  else None.

Definition rule_handleModeChange (mode : jstr) (c : RequestCondition) : RequestCondition :=
  match c with
  | TimeCondition f tz _ v s e => TimeCondition f tz mode v s e
  | ParamHeaderCondition src p _ v => ParamHeaderCondition src p mode v
  end.

Definition with_rules (cs : list RequestCondition) (g : RequestRuleGroup) : RequestRuleGroup :=
  Group cs (multiplier g) (conditionText g) (matched g).

Definition group_handleConditionChange (conditionIndex : nat) (next : RequestCondition) (g : RequestRuleGroup) :
  RequestRuleGroup := with_rules (<[conditionIndex := next]> (BillingExpr.conditions g)) g.

Definition group_handleAddCondition (timeMode : bool) (g : RequestRuleGroup) : RequestRuleGroup :=
  with_rules (BillingExpr.conditions g ++ [if timeMode then createEmptyTimeCondition else createEmptyCondition]) g.

Definition group_removeCondition (conditionIndex : nat) (g : RequestRuleGroup) : RequestRuleGroup :=
  with_rules (delete conditionIndex (BillingExpr.conditions g)) g.

Definition group_setMultiplier (value : num) (g : RequestRuleGroup) : RequestRuleGroup :=
  Group (BillingExpr.conditions g) (num_to_string value) (conditionText g) (matched g).

(** * Presets *)

Record Preset := MkPreset { preset_key : jstr; preset_label : jstr; preset_expr : jstr; preset_rules : option (list RequestRuleGroup) }.
Record PresetGroup := MkPresetGroup { preset_group : jstr; presets : list Preset }.

Definition PRESET_GROUPS : list PresetGroup :=
 [ MkPresetGroup (js "Fixed price")
    [MkPreset (js "flat") (js "Flat")
        (jq "tier(`base`, p * 2 + c * 4)") None;
     MkPreset (js "claude-opus") (js "Claude Opus 4.6")
        (jq "tier(`base`, p * 5 + c * 25 + cr * 0.5 + cc * 6.25 + cc1h * 10)") None;
     MkPreset (js "gpt-5.4") (js "GPT-5.4")
        (jq "len <= 272000 ? tier(`standard`, p * 2.5 + c * 15 + cr * 0.25) : tier(`long_context`, p * 5 + c * 22.5 + cr * 0.5)") None];
  MkPresetGroup (js "Tiered")
    [MkPreset (js "claude-sonnet") (js "Claude Sonnet 4.5")
        (jq "len <= 200000 ? tier(`standard`, p * 3 + c * 15 + cr * 0.3 + cc * 3.75 + cc1h * 6) : tier(`long_context`, p * 6 + c * 22.5 + cr * 0.6 + cc * 7.5 + cc1h * 12)") None;
     MkPreset (js "qwen3-max") (js "Qwen3 Max")
        (jq "len <= 32000 ? tier(`short`, p * 1.2 + c * 6 + cr * 0.24 + cc * 1.5) : len <= 128000 ? tier(`mid`, p * 2.4 + c * 12 + cr * 0.48 + cc * 3) : tier(`long`, p * 3 + c * 15 + cr * 0.6 + cc * 3.75)") None;
     MkPreset (js "glm-4.5-air") (js "GLM-4.5 Air")
        (jq "len < 32000 && c < 200 ? tier(`short_output`, p * 0.8 + c * 2 + cr * 0.16) : len < 32000 && c >= 200 ? tier(`long_output`, p * 0.8 + c * 6 + cr * 0.16) : tier(`mid_context`, p * 1.2 + c * 8 + cr * 0.24)") None;
     MkPreset (js "doubao-seed-1.8") (js "Doubao Seed 1.8")
        (jq "len <= 32000 && c <= 200 ? tier(`discount`, p * 0.8 + c * 2 + cr * 0.16 + cc * 0.17) : len <= 32000 ? tier(`short`, p * 0.8 + c * 8 + cr * 0.16 + cc * 0.17) : len <= 128000 ? tier(`mid`, p * 1.2 + c * 16 + cr * 0.16 + cc * 0.17) : tier(`long`, p * 2.4 + c * 24 + cr * 0.16 + cc * 0.17)") None];
  MkPresetGroup (js "Multimodal")
    [MkPreset (js "gpt-image-1-mini") (js "GPT Image 1 Mini")
        (jq "tier(`base`, p * 2 + c * 8 + img * 2.5)") None;
     MkPreset (js "gemini-2.5-flash") (js "Gemini 2.5 Flash")
        (jq "tier(`base`, p * 0.3 + c * 2.5 + cr * 0.03 + ai * 1.0)") None;
     MkPreset (js "gemini-3-pro-image") (js "Gemini 3 Pro Image")
        (jq "tier(`base`, p * 2 + c * 12 + img_o * 120)") None;
     MkPreset (js "qwen3-omni-flash") (js "Qwen3 Omni Flash")
        (jq "tier(`base`, p * 0.43 + c * 3.06 + img * 0.78 + ai * 3.81 + ao * 15.11)") None];
  MkPresetGroup (js "Request rule")
    [MkPreset (js "claude-opus-fast") (js "Claude Opus 4.6 Fast")
        (jq "tier(`base`, p * 5 + c * 25 + cr * 0.5 + cc * 6.25 + cc1h * 10)") (Some [Group [ParamHeaderCondition Header (js "anthropic-beta") MATCH_CONTAINS (js "fast-mode-2026-02-01")] (js "6") None None]);
     MkPreset (js "gpt-5.4-tiers") (js "GPT-5.4 Priority/Flex")
        (jq "len <= 272000 ? tier(`standard`, p * 2.5 + c * 15 + cr * 0.25) : tier(`long_context`, p * 5 + c * 22.5 + cr * 0.5)") (Some [Group [ParamHeaderCondition Param (js "service_tier") MATCH_EQ (js "priority")] (js "2") None None;
         Group [ParamHeaderCondition Param (js "service_tier") MATCH_EQ (js "flex")] (js "0.5") None None])];
  MkPresetGroup (js "Time-based")
    [MkPreset (js "night-discount") (js "Night discount (50%)")
        (jq "tier(`base`, p * 3 + c * 15)") (Some [Group [TimeCondition Hour (js "Asia/Shanghai") MATCH_RANGE [] (js "21") (js "6")] (js "0.5") None None]);
     MkPreset (js "weekend-discount") (js "Weekend discount (80%)")
        (jq "tier(`base`, p * 3 + c * 15)") (Some [Group [TimeCondition Weekday (js "Asia/Shanghai") MATCH_EQ (js "0") [] []] (js "0.8") None None;
         Group [TimeCondition Weekday (js "Asia/Shanghai") MATCH_EQ (js "6") [] []] (js "0.8") None None])]].

(** * The editor *)

Inductive EditorMode := Visual | Raw.

(** [initDone] is [initRef.current]; [seen_props] and [seen_model] are the
    dependencies of the first two effects when they last ran. *)
Record Editor := MkEditor {
  editorMode : EditorMode;
  visualConfig : option VisualConfig;
  rawExpr : jstr;
  requestRuleGroups : list RequestRuleGroup;
  initDone : bool;
  modelName : option jstr;
  currentExpr : jstr;
  currentRequestRuleExpr : jstr;
  seen_props : option (jstr * jstr);
  seen_model : option (option jstr)
}.

Definition groups_of (r : option (list RequestRuleGroup)) : list RequestRuleGroup := r ?? [].

(** [canUseVisualRules] *)
Definition canUseVisualRules (e : Editor) : exn + bool :=
  if negb (truthy (currentRequestRuleExpr e)) then inr true
  else bind (tryParseRequestRuleExpr (currentRequestRuleExpr e)) (fun r => inr (is_some r)).

(** [effectiveExpr], computed while rendering. *)
Definition effectiveExpr (e : Editor) : exn + jstr :=
  match editorMode e with
  | Visual => inr (generateExprFromVisualConfig (visualConfig e))
  | Raw => bind (splitBillingExprAndRequestRules (rawExpr e)) (fun r => inr r.1)
  end.

(** The first render. *)
Definition mount (model : option jstr) (expr rules : jstr) : exn + Editor :=
  bind (tryParseRequestRuleExpr rules) (fun gs =>
    inr (MkEditor Visual (tryParseVisualConfig (Some expr)) (combineBillingExpr expr rules) (groups_of gs) false
           model expr rules None None)).

(** The first effect: the state from the props. *)
Definition init_effect (e : Editor) : exn + Editor :=
  if bool_decide (seen_props e = Some (currentExpr e, currentRequestRuleExpr e)) then inr e
  else if initDone e then inr e
  else
    let '(mode, cfg) :=
      match tryParseVisualConfig (Some (currentExpr e)) with
      | Some parsed => (Visual, Some parsed)
      | None => if truthy (currentExpr e) then (Raw, None) else (editorMode e, Some createDefaultVisualConfig)
      end in
    bind (tryParseRequestRuleExpr (currentRequestRuleExpr e)) (fun gs =>
      inr (MkEditor mode cfg (combineBillingExpr (currentExpr e) (currentRequestRuleExpr e)) (groups_of gs) true
             (modelName e) (currentExpr e) (currentRequestRuleExpr e) (seen_props e) (seen_model e))).

(** The second one. *)
Definition model_effect (e : Editor) : Editor :=
  if bool_decide (seen_model e = Some (modelName e)) then e
  else MkEditor (editorMode e) (visualConfig e) (rawExpr e) (requestRuleGroups e) false (modelName e)
         (currentExpr e) (currentRequestRuleExpr e) (seen_props e) (seen_model e).

Definition set_props (expr rules : jstr) (e : Editor) : Editor :=
  MkEditor (editorMode e) (visualConfig e) (rawExpr e) (requestRuleGroups e) (initDone e) (modelName e) expr rules
    (seen_props e) (seen_model e).

(** The effects after a render: they see the state that was rendered, and what
    they set is the state of the next render. *)
Definition commit (rendered : Editor) : exn + Editor :=
  bind (canUseVisualRules rendered) (fun _ =>
  bind (effectiveExpr rendered) (fun effective =>
  bind (init_effect rendered) (fun e =>
    let e := model_effect e in
    let expr := if effective =s currentExpr rendered then currentExpr rendered else effective in
    let rules := match editorMode rendered with
                 | Visual => buildRequestRuleExpr (requestRuleGroups rendered)
                 | Raw => currentRequestRuleExpr rendered
                 end in
    inr (MkEditor (editorMode e) (visualConfig e) (rawExpr e) (requestRuleGroups e) (initDone e) (modelName e)
           expr rules (Some (currentExpr rendered, currentRequestRuleExpr rendered)) (Some (modelName rendered)))))).

(** ** Its handlers *)

Definition set_editor (mode : EditorMode) (cfg : option VisualConfig) (raw : jstr) (gs : list RequestRuleGroup) (rules : jstr)
    (e : Editor) : Editor :=
  MkEditor mode cfg raw gs (initDone e) (modelName e) (currentExpr e) rules (seen_props e) (seen_model e).

Definition handleVisualChange (next : VisualConfig) (e : Editor) : Editor :=
  set_editor (editorMode e) (Some next) (rawExpr e) (requestRuleGroups e) (currentRequestRuleExpr e) e.

Definition handleRawChange (value : jstr) (e : Editor) : exn + Editor :=
  bind (splitBillingExprAndRequestRules value) (fun r =>
    inr (set_editor (editorMode e) (visualConfig e) value (requestRuleGroups e) r.2 e)).

Definition handleModeChange (next : EditorMode) (e : Editor) : exn + Editor :=
  match next with
  | Visual =>
      bind (splitBillingExprAndRequestRules (rawExpr e)) (fun '(billingExpr, ruleStr) =>
        let cfg := tryParseVisualConfig (Some billingExpr) ?? createDefaultVisualConfig in
        bind (tryParseRequestRuleExpr ruleStr) (fun gs =>
          inr (set_editor next (Some cfg) (rawExpr e) (groups_of gs) ruleStr e)))
  | Raw =>
      let expr := generateExprFromVisualConfig (visualConfig e) in
      let ruleExpr := buildRequestRuleExpr (requestRuleGroups e) in
      inr (set_editor next (visualConfig e) (or_str (combineBillingExpr expr ruleExpr) expr) (requestRuleGroups e)
             (currentRequestRuleExpr e) e)
  end.

Definition applyPreset (preset : Preset) (e : Editor) : Editor :=
  let presetGroups := preset_rules preset ?? [] in
  let ruleExpr := buildRequestRuleExpr presetGroups in
  let combined := or_str (combineBillingExpr (preset_expr preset) ruleExpr) (preset_expr preset) in
  match tryParseVisualConfig (Some (preset_expr preset)) with
  | Some parsed => set_editor Visual (Some parsed) combined presetGroups ruleExpr e
  | None => set_editor Raw None combined presetGroups ruleExpr e
  end.

Definition handleRuleGroupsChange (next : list RequestRuleGroup) (e : Editor) : Editor :=
  set_editor (editorMode e) (visualConfig e) (rawExpr e) next (currentRequestRuleExpr e) e.

(** The changes of the list of groups. *)
Definition changeRuleGroup (groupIndex : nat) (next : RequestRuleGroup) (e : Editor) : Editor :=
  handleRuleGroupsChange (<[groupIndex := next]> (requestRuleGroups e)) e.
Definition removeRuleGroup (groupIndex : nat) (e : Editor) : Editor :=
  handleRuleGroupsChange (delete groupIndex (requestRuleGroups e)) e.
Definition addRuleGroup (e : Editor) : Editor :=
  handleRuleGroupsChange (requestRuleGroups e ++ [createEmptyRuleGroup]) e.

(** * The editor between its two modes *)

Lemma tiers_of_presentable ts : presentable ts -> ts <> [] /\ Forall writable_tier ts.
Proof. intros [Hn H]. split; [done|]. eapply Forall_impl; [exact H|by intros t []]. Qed.

Lemma combine_kept e rules d : base_text e -> or_str (combineBillingExpr e rules) d = combineBillingExpr e rules.
Proof.
  intros He. destruct (base_trimmed e He) as [Ht (c & t & Ec & _)]. unfold combineBillingExpr. cbv zeta.
  rewrite trim_id, (proj2 (truthy_true e)) by (done || by rewrite Ec). cbn [negb].
  destruct (truthy (trim rules)); [done|]. cbn [negb]. unfold or_str. by rewrite (proj2 (truthy_true e)) by by rewrite Ec.
Qed.

(** C25: leaving the visual editor for the expression and coming back keeps the
    price, for tiers that can be shown and rules whose parameter conditions
    compare for equality or existence: both modes stand for the same billing
    expression, the tiers come back in the form they are written in (without the
    conditions of the last one, which is the fallback) and the rules as they were
    written. With another comparison of a parameter the rules and the tiers are
    lost on the way back ([mode_switch_loses_comparison]). *)
Theorem mode_switch_keeps (e : Editor) (ts : list VisualTier) :
  editorMode e = Visual -> visualConfig e = Some (VConfig ts) -> presentable ts -> Forall editable (requestRuleGroups e) ->
  exists raw back,
    handleModeChange Raw e = inr raw /\ editorMode raw = Raw /\ effectiveExpr raw = effectiveExpr e /\
    handleModeChange Visual raw = inr back /\ editorMode back = Visual /\
    visualConfig back = Some (canonicalConfig (VConfig ts)) /\
    requestRuleGroups back = omap BillingExpr.canonicalGroup (requestRuleGroups e) /\
    effectiveExpr back = effectiveExpr e /\
    currentRequestRuleExpr back = buildRequestRuleExpr (requestRuleGroups e) /\
    buildRequestRuleExpr (requestRuleGroups back) = buildRequestRuleExpr (requestRuleGroups e).
Proof.
  intros Hm Hc Hts Hg. pose proof (generate_base ts Hts) as Hb. destruct (tiers_of_presentable ts Hts) as [Hne Hw].
  pose proof (split_written _ _ Hb Hg) as Hs. unfold handleModeChange at 1, effectiveExpr. cbv zeta. rewrite Hm, Hc.
  rewrite combine_kept by done. eexists _, _. split; [reflexivity|]. cbn [editorMode set_editor rawExpr]. rewrite Hs. cbn [bind fst].
  split; [done|]. split; [done|]. unfold handleModeChange. cbn [rawExpr set_editor]. rewrite Hs. cbn [bind].
  rewrite rules_read_back, tiers_read_back by done. cbn [bind]. split; [reflexivity|].
  cbn [set_editor editorMode visualConfig requestRuleGroups currentRequestRuleExpr nullish groups_of].
  by rewrite generate_canonical, rewrite_groups.
Qed.

(** * Renders and effects *)

(** Renders, until the effects change nothing. *)
Fixpoint commits (n : nat) (e : Editor) : exn + Editor :=
  match n with O => inr e | S n => bind (commit e) (commits n) end.

Definition settled (e : Editor) : Prop := commit e = inr e.

Definition rules_shown (e : Editor) : jstr :=
  match editorMode e with Visual => buildRequestRuleExpr (requestRuleGroups e) | Raw => currentRequestRuleExpr e end.

(** A render whose first effect has nothing to do. *)
Lemma commit_idle e b x :
  canUseVisualRules e = inr b -> effectiveExpr e = inr x -> seen_model e = Some (modelName e) ->
  (seen_props e = Some (currentExpr e, currentRequestRuleExpr e) \/ initDone e = true) ->
  commit e = inr (MkEditor (editorMode e) (visualConfig e) (rawExpr e) (requestRuleGroups e) (initDone e) (modelName e) x
                    (rules_shown e) (Some (currentExpr e, currentRequestRuleExpr e)) (Some (modelName e))).
Proof.
  intros Hb Hx Hm Hi. unfold commit. rewrite Hb, Hx. cbn [bind].
  assert (E : init_effect e = inr e).
  { unfold init_effect. destruct (bool_decide _) eqn:Ed; [done|]. apply bool_decide_eq_false in Ed.
    by destruct Hi as [?| ->]. }
  rewrite E. cbn [bind]. unfold model_effect. rewrite bool_decide_true by done.
  destruct (x =s currentExpr e) eqn:Ex; [apply jstr_eqb_true in Ex as <-|]; done.
Qed.

Lemma settled_idle e b :
  canUseVisualRules e = inr b -> effectiveExpr e = inr (currentExpr e) -> rules_shown e = currentRequestRuleExpr e ->
  seen_model e = Some (modelName e) -> seen_props e = Some (currentExpr e, currentRequestRuleExpr e) -> settled e.
Proof.
  intros Hb Hx Hr Hm Hp. unfold settled. rewrite (commit_idle e b (currentExpr e)) by (done || by left).
  rewrite Hr, <-Hp, <-Hm. by destruct e.
Qed.

Lemma rules_usable e gs : Forall editable gs -> currentRequestRuleExpr e = buildRequestRuleExpr gs -> canUseVisualRules e = inr true.
Proof.
  intros Hg E. unfold canUseVisualRules. rewrite E, rules_read_back by done. cbn [bind is_some]. by destruct (truthy _).
Qed.

(** A change in an editor that is initialised reaches the form in one render
    and nothing else happens: after a second one the expressions of the form are
    those the editor shows, and mode, tiers, text and rules are untouched. *)
Theorem edits_settle (e : Editor) (b : bool) (x : jstr) :
  initDone e = true -> seen_model e = Some (modelName e) ->
  canUseVisualRules e = inr b -> effectiveExpr e = inr x -> (editorMode e = Visual -> Forall editable (requestRuleGroups e)) ->
  exists e', commits 2 e = inr e' /\ settled e' /\
    currentExpr e' = x /\ currentRequestRuleExpr e' = rules_shown e /\
    editorMode e' = editorMode e /\ visualConfig e' = visualConfig e /\ rawExpr e' = rawExpr e /\
    requestRuleGroups e' = requestRuleGroups e.
Proof.
  intros Hi Hm Hb Hx Hg. cbn [commits]. rewrite (commit_idle e b x) by (done || by right). cbn [bind].
  set (e1 := MkEditor _ _ _ _ _ _ _ _ _ _).
  assert (Hb1 : exists b1, canUseVisualRules e1 = inr b1).
  { unfold rules_shown in e1. destruct (editorMode e) eqn:Em; [|by exists b].
    exists true. by apply (rules_usable e1 (requestRuleGroups e)); [apply Hg|]. }
  destruct Hb1 as [b1 Hb1]. assert (Hx1 : effectiveExpr e1 = inr x) by exact Hx.
  rewrite (commit_idle e1 b1 x) by (done || by right). cbn [bind]. eexists. split; [reflexivity|].
  assert (Hr : rules_shown e1 = rules_shown e) by
    (change (match editorMode e with Visual => buildRequestRuleExpr (requestRuleGroups e) | Raw => rules_shown e end = rules_shown e);
     unfold rules_shown; by destruct (editorMode e)).
  split; [|by rewrite Hr].
  rewrite Hr. apply (settled_idle _ b1); done.
Qed.

(** ** Opening the editor *)

(** The editor after the first render for an expression it has written; [initRef]
    is clear again. *)
Definition opened (model : option jstr) (ts : list VisualTier) (gs : list RequestRuleGroup) : Editor :=
  let expr := generateExprFromVisualConfig (Some (VConfig ts)) in
  let rules := buildRequestRuleExpr gs in
  MkEditor Visual (Some (canonicalConfig (VConfig ts))) (combineBillingExpr expr rules) (omap BillingExpr.canonicalGroup gs)
    false model expr rules (Some (expr, rules)) (Some model).

Lemma mount_opens model ts gs :
  presentable ts -> Forall editable gs ->
  bind (mount model (generateExprFromVisualConfig (Some (VConfig ts))) (buildRequestRuleExpr gs)) commit = inr (opened model ts gs).
Proof.
  intros Hts Hg. set (expr := generateExprFromVisualConfig _). set (rules := buildRequestRuleExpr gs).
  destruct (tiers_of_presentable ts Hts) as [Hne Hw].
  unfold mount. unfold rules at 1. rewrite rules_read_back by done. cbn [bind].
  unfold expr at 1. rewrite tiers_read_back by done. cbn [groups_of nullish]. set (e0 := MkEditor _ _ _ _ _ _ _ _ _ _).
  assert (Hb : canUseVisualRules e0 = inr true) by by apply (rules_usable e0 gs).
  unfold commit. rewrite Hb. unfold effectiveExpr. cbn [editorMode visualConfig e0 bind]. rewrite generate_canonical by done.
  fold expr. unfold init_effect. rewrite bool_decide_false by done. cbn [initDone e0 currentExpr currentRequestRuleExpr].
  unfold expr at 1. rewrite tiers_read_back by done. unfold rules at 1. rewrite rules_read_back by done. cbn [bind groups_of nullish].
  unfold model_effect. rewrite bool_decide_false by done.
  cbn [editorMode visualConfig rawExpr requestRuleGroups initDone modelName currentExpr currentRequestRuleExpr seen_props seen_model e0].
  rewrite jstr_eqb_refl, rewrite_groups by done. fold rules.
  done.
Qed.

Lemma opened_settled model ts gs : presentable ts -> Forall editable gs -> settled (opened model ts gs).
Proof.
  intros Hts Hg. destruct (tiers_of_presentable ts Hts) as [Hne Hw].
  apply (settled_idle _ true); [by apply (rules_usable _ gs)| | |done|done].
  - unfold effectiveExpr, opened. cbn [editorMode visualConfig currentExpr]. by rewrite generate_canonical.
  - unfold rules_shown, opened. cbn [editorMode requestRuleGroups currentRequestRuleExpr]. by rewrite rewrite_groups.
Qed.

(** An expression the editor has written opens in the visual mode, and opening
    it changes nothing in the form. *)
Theorem opening_keeps (model : option jstr) (ts : list VisualTier) (gs : list RequestRuleGroup) :
  presentable ts -> Forall editable gs ->
  let expr := generateExprFromVisualConfig (Some (VConfig ts)) in
  let rules := buildRequestRuleExpr gs in
  exists e, bind (mount model expr rules) commit = inr e /\ settled e /\
    editorMode e = Visual /\ currentExpr e = expr /\ currentRequestRuleExpr e = rules /\
    visualConfig e = Some (canonicalConfig (VConfig ts)) /\
    requestRuleGroups e = omap BillingExpr.canonicalGroup gs /\ rawExpr e = combineBillingExpr expr rules.
Proof.
  intros Hts Hg expr rules. exists (opened model ts gs). split; [by apply mount_opens|]. split; [by apply opened_settled|done].
Qed.

(** An expression the visual editor does not read: after the first render, which
    is in the visual mode and has no tiers, the form holds the expression that
    charges nothing; the first effect runs again for it, since the second one
    has just cleared [initRef]. *)

Lemma combine_no_rules expr : combineBillingExpr expr [] = trim expr.
Proof. unfold combineBillingExpr. cbv zeta. by destruct (trim expr). Qed.

(** The fields of editors that are written out. *)
Ltac fields := cbn [bind fst snd groups_of nullish editorMode visualConfig rawExpr requestRuleGroups
  initDone modelName currentExpr currentRequestRuleExpr seen_props seen_model set_editor].

(** C33: opening the editor on an expression the visual editor cannot read replaces
    it by the one that charges nothing, in the form and in the text of the editor. *)
Theorem unreadable_expression_lost (model : option jstr) (expr b r : jstr) :
  truthy expr = true -> expr <> no_charge -> tryParseVisualConfig (Some expr) = None ->
  splitBillingExprAndRequestRules (trim expr) = inr (b, r) ->
  exists e, bind (mount model expr []) (commits 4) = inr e /\ settled e /\
    editorMode e = Raw /\ currentExpr e = no_charge /\ rawExpr e = no_charge /\ currentRequestRuleExpr e = [].
Proof.
  intros Ht Hne Hp Hs. unfold mount. change (tryParseRequestRuleExpr []) with (@inr exn _ (Some (@nil RequestRuleGroup))).
  cbn [bind groups_of nullish]. rewrite Hp, combine_no_rules. cbn [commits].
  set (e1 := MkEditor Raw None (trim expr) [] false model no_charge [] (Some (expr, [])) (Some model)).
  set (e2 := MkEditor Raw None no_charge [] true model b [] (Some (no_charge, [])) (Some model)).
  assert (E1 : commit (MkEditor Visual None (trim expr) [] false model expr [] None None) = inr e1).
  { unfold commit, init_effect. cbn [canUseVisualRules currentRequestRuleExpr effectiveExpr editorMode visualConfig truthy negb bind].
    change (canUseVisualRules _) with (@inr exn _ true). cbn [bind seen_props currentExpr currentRequestRuleExpr initDone].
    rewrite bool_decide_false by done. rewrite Hp, Ht. change (tryParseRequestRuleExpr []) with (@inr exn _ (Some (@nil RequestRuleGroup))).
    cbn [bind groups_of nullish]. rewrite combine_no_rules. unfold model_effect. rewrite bool_decide_false by done.
    change (generateExprFromVisualConfig None) with no_charge. fields. rewrite (proj2 (jstr_eqb_false no_charge expr)) by congruence. done. }
  assert (E2 : commit e1 = inr e2).
  { unfold commit, init_effect. change (canUseVisualRules e1) with (@inr exn _ true).
    unfold e1, effectiveExpr. fields. rewrite Hs. fields. rewrite bool_decide_false by congruence.
    change (tryParseVisualConfig (Some no_charge)) with (@None VisualConfig).
    change (truthy no_charge) with true. change (tryParseRequestRuleExpr []) with (@inr exn _ (Some (@nil RequestRuleGroup))).
    unfold model_effect. fields. rewrite bool_decide_true by done. fields.
    destruct (b =s no_charge) eqn:Eb; [apply jstr_eqb_true in Eb as ->|]; done. }
  rewrite E1. cbn [bind]. rewrite E2. cbn [bind].
  rewrite (commit_idle e2 true no_charge) by (done || by right). cbn [bind].
  rewrite (commit_idle _ true no_charge) by (done || by right). cbn [bind]. eexists. split; [reflexivity|]. split; [|done].
  by apply (settled_idle _ true).
Qed.

(** Rules the editor cannot show: the first render, which has none, clears them. *)
Lemma opening_drops_rules model ts rules :
  presentable ts -> tryParseRequestRuleExpr rules = inr None ->
  let expr := generateExprFromVisualConfig (Some (VConfig ts)) in
  let cfg := Some (canonicalConfig (VConfig ts)) in
  bind (mount model expr rules) (commits 2) = inr (MkEditor Visual cfg expr [] true model expr [] (Some (expr, [])) (Some model)).
Proof.
  intros Hts Hr expr cfg. destruct (tiers_of_presentable ts Hts) as [Hne Hw].
  pose proof (tiers_read_back ts Hne Hw : tryParseVisualConfig (Some expr) = cfg) as Hp.
  pose proof (generate_canonical ts Hne Hw : generateExprFromVisualConfig cfg = expr) as Hg.
  assert (Hnr : rules <> []) by (intros ->; by vm_compute in Hr).
  unfold mount. rewrite Hr, Hp. fields. cbn [commits].
  set (e1 := MkEditor Visual cfg (combineBillingExpr expr rules) [] false model expr [] (Some (expr, rules)) (Some model)).
  assert (E1 : commit (MkEditor Visual cfg (combineBillingExpr expr rules) [] false model expr rules None None) = inr e1).
  { unfold commit, init_effect, canUseVisualRules, effectiveExpr. fields. rewrite Hr, Hg.
    destruct (negb (truthy rules)); fields; (rewrite bool_decide_false by done); rewrite Hp; unfold cfg, model_effect; fields;
      (rewrite bool_decide_false by done); rewrite jstr_eqb_refl; done. }
  rewrite E1. fields. destruct (base_trimmed expr (generate_base ts Hts)) as [Htr _].
  assert (E2 : commit e1 = inr (MkEditor Visual cfg expr [] true model expr [] (Some (expr, [])) (Some model))).
  { unfold commit, init_effect, e1. change (canUseVisualRules _) with (@inr exn _ true). unfold effectiveExpr. fields. rewrite Hg. fields.
    rewrite bool_decide_false by congruence. rewrite Hp. change (tryParseRequestRuleExpr []) with (@inr exn _ (Some (@nil RequestRuleGroup))).
    unfold cfg, model_effect. fields. rewrite bool_decide_true by done. rewrite combine_no_rules, trim_id, jstr_eqb_refl by done. done. }
  by rewrite E2.
Qed.

(** Opening the editor on rules its rule editor cannot read removes them from
    the form. *)
Theorem unreadable_rules_dropped (model : option jstr) (ts : list VisualTier) (rules : jstr) :
  presentable ts -> tryParseRequestRuleExpr rules = inr None ->
  exists e, bind (mount model (generateExprFromVisualConfig (Some (VConfig ts))) rules) (commits 2) = inr e /\ settled e /\
    currentExpr e = generateExprFromVisualConfig (Some (VConfig ts)) /\ currentRequestRuleExpr e = [].
Proof.
  intros Hts Hr. eexists. split; [by apply opening_drops_rules|]. split; [|done].
  destruct (tiers_of_presentable ts Hts) as [Hne Hw].
  apply (settled_idle _ true); try done. unfold effectiveExpr. fields. by rewrite generate_canonical.
Qed.

(** After opening the editor, leaving the visual mode and changing the
    expression to another one that the visual editor reads, the editor is back in
    the visual mode: the first effect has not run for good, so the change makes it
    run again. *)
Theorem first_raw_edit_leaves_raw (model : option jstr) (ts : list VisualTier) (gs : list RequestRuleGroup)
    (value expr' : jstr) (cfg : VisualConfig) :
  presentable ts -> Forall editable gs ->
  splitBillingExprAndRequestRules value = inr (expr', buildRequestRuleExpr gs) ->
  expr' <> generateExprFromVisualConfig (Some (VConfig ts)) -> tryParseVisualConfig (Some expr') = Some cfg ->
  exists e raw e',
    bind (mount model (generateExprFromVisualConfig (Some (VConfig ts))) (buildRequestRuleExpr gs)) commit = inr e /\
    bind (handleModeChange Raw e) commit = inr raw /\ editorMode raw = Raw /\
    bind (handleRawChange value raw) (commits 2) = inr e' /\ editorMode e' = Visual /\ visualConfig e' = Some cfg /\
    currentExpr e' = expr'.
Proof.
  intros Hts Hg Hs Hne Hp. destruct (tiers_of_presentable ts Hts) as [Hn Hw]. rewrite mount_opens by done.
  set (expr := generateExprFromVisualConfig _) in *. set (rules := buildRequestRuleExpr gs) in *.
  set (gs' := omap BillingExpr.canonicalGroup gs).
  set (raw := MkEditor Raw (Some (canonicalConfig (VConfig ts))) (combineBillingExpr expr rules) gs' false model expr rules
    (Some (expr, rules)) (Some model)).
  set (e1 := MkEditor Raw (Some (canonicalConfig (VConfig ts))) value gs' false model expr' rules (Some (expr, rules)) (Some model)).
  assert (Hu : forall e, currentRequestRuleExpr e = rules -> canUseVisualRules e = inr true) by (intros e; by apply (rules_usable e gs)).
  assert (Eraw : bind (handleModeChange Raw (opened model ts gs)) commit = inr raw).
  { unfold handleModeChange, opened. fields. rewrite generate_canonical, rewrite_groups by done. fold expr rules.
    rewrite combine_kept by by apply generate_base. fields. fold raw. apply (settled_idle _ true); try done; [by apply Hu|].
    unfold effectiveExpr. fields. unfold rules, expr. rewrite split_written by (done || by apply generate_base). done. }
  assert (E1 : bind (handleRawChange value raw) commit = inr e1).
  { unfold handleRawChange. rewrite Hs. fields. rewrite (commit_idle _ true expr'); [done|by apply Hu| |done|by left].
    unfold effectiveExpr. fields. by rewrite Hs. }
  assert (E2 : exists e2, commit e1 = inr e2 /\ editorMode e2 = Visual /\ visualConfig e2 = Some cfg /\ currentExpr e2 = expr').
  { unfold commit. rewrite Hu by done. unfold effectiveExpr, e1, init_effect. fields. rewrite Hs. fields.
    rewrite bool_decide_false by congruence. rewrite Hp. unfold rules. rewrite rules_read_back by done. fields.
    unfold model_effect. fields. rewrite bool_decide_true by done. fields. rewrite jstr_eqb_refl. by eexists. }
  destruct E2 as (e2 & E2 & H2). exists (opened model ts gs), raw, e2. split; [done|]. split; [done|]. split; [done|]. split; [|done].
  revert E1. destruct (handleRawChange value raw) as [|e0]; [done|]. cbn [bind commits]. intros ->. cbn [bind]. by rewrite E2.
Qed.

(** * Tiers with a fallback *)

(** Every tier but the last has a condition. *)
Definition with_fallback (ts : list VisualTier) : Prop := Forall (fun t => conditions t <> []) (removelast ts).

(** The tiers the visual editor shows. *)
Definition shown (cfg : option VisualConfig) : list VisualTier := tiers (normalizeVisualConfig cfg).

Lemma shown_nonempty cfg : shown cfg <> [].
Proof. by destruct cfg as [[[|t ts]]|]. Qed.

Lemma shown_fallback ts : ts <> [] -> with_fallback (shown (Some (VConfig ts))) <-> with_fallback ts.
Proof.
  intros Hn. unfold shown. destruct ts as [|t ts]; [done|]. unfold normalizeVisualConfig, with_fallback.
  cbn [tiers]. generalize (t :: ts). clear. intros l.
  assert (E : removelast (List.map (fun t => normalizeVisualTier (partial_tier t)) l) =
              List.map (fun t => normalizeVisualTier (partial_tier t)) (removelast l)).
  { induction l as [|x [|y l] IH]; [done|done|]. cbn [removelast List.map] in *. by rewrite IH. }
  rewrite E. apply Forall_map.
Qed.

Lemma removelast_last {A} (l : list A) (x : A) : removelast (l ++ [x]) = l.
Proof. rewrite removelast_app by done. apply app_nil_r. Qed.

Lemma fallback_split ts t : with_fallback (ts ++ [t]) <-> Forall (fun t => conditions t <> []) ts.
Proof. unfold with_fallback. by rewrite removelast_last. Qed.

Lemma last_snoc_inv {A} (l : list A) : l <> [] -> exists u x, l = u ++ [x].
Proof. destruct l as [|x u _] using rev_ind; [done|]. intros _. by exists u, x. Qed.

Lemma add_tier_fallback cfg cfg' :
  with_fallback (shown cfg) -> handleAddTier cfg = Some cfg' ->
  length (tiers cfg') = S (length (shown cfg)) /\ with_fallback (tiers cfg') /\
  exists u t, tiers cfg' = u ++ [t] /\ conditions t = [].
Proof.
  intros H E. unfold handleAddTier in E. fold (shown cfg) in E. injection E as <-. cbn [tiers].
  destruct (last_snoc_inv (shown cfg) (shown_nonempty cfg)) as (u & x & Es). rewrite Es in *.
  apply fallback_split in H. assert (Elast : length (u ++ [x]) - 1 = length u) by (rewrite length_app; simpl; lia). rewrite Elast.
  rewrite lookup_app_r, Nat.sub_diag by lia. cbn [lookup list_lookup].
  set (ts1 := match conditions x with [] => _ | _ => _ end).
  assert (Ht : length ts1 = length u + 1 /\ Forall (fun t => conditions t <> []) ts1).
  { subst ts1. destruct (conditions x) as [|c cs] eqn:Ec.
    - rewrite (insert_app_r_alt u [x]) by lia. rewrite Nat.sub_diag, length_app. split; [done|].
      apply Forall_app. split; [done|]. by apply Forall_singleton.
    - rewrite length_app. split; [done|]. apply Forall_app. split; [done|]. apply Forall_singleton. by rewrite Ec. }
  destruct Ht as [Hl Hf]. rewrite (length_app ts1), (length_app u), Hl. split; [simpl; lia|]. split; [by apply fallback_split|].
  by eexists _, _.
Qed.

Lemma removelast_lookup {A} (l : list A) (P : A -> Prop) :
  Forall P (removelast l) <-> (forall i x, S i < length l -> l !! i = Some x -> P x).
Proof.
  destruct l as [|y u _] using rev_ind; [by split; [intros _ i x; simpl; lia|constructor]|].
  rewrite removelast_last, Forall_lookup, length_app. split; intros H i x.
  - simpl. intros Hi. rewrite lookup_app_l by lia. apply H.
  - intros Hi. pose proof (lookup_lt_Some _ _ _ Hi). apply (H i); [simpl; lia|]. by rewrite lookup_app_l.
Qed.

Lemma delete_fallback ts i : with_fallback ts -> with_fallback (delete i ts).
Proof.
  unfold with_fallback. rewrite !removelast_lookup. intros H j x Hj Hx.
  assert (Hlook : forall k y, delete i ts !! k = Some y -> ts !! (if decide (k < i) then k else S k) = Some y).
  { intros k y. destruct (decide (k < i)); [by rewrite list_lookup_delete_lt|by rewrite list_lookup_delete_ge by lia]. }
  apply lookup_lt_is_Some_2 in Hj as [y Hy]. apply Hlook in Hy. apply Hlook in Hx. apply lookup_lt_Some in Hy.
  eapply H; [|exact Hx]. destruct (decide (j < i)), (decide (S j < i)); lia.
Qed.

Lemma alter_fallback ts i cs : cs <> [] -> with_fallback ts -> with_fallback (alter (with_conditions cs) i ts).
Proof.
  intros Hc. unfold with_fallback. rewrite !removelast_lookup. intros H j x. rewrite length_alter. intros Hj.
  destruct (decide (i = j)) as [<-|Hij].
  - rewrite list_lookup_alter_eq. destruct (ts !! i); [|done]. by intros [= <-].
  - rewrite list_lookup_alter_ne by done. by apply H.
Qed.

(** Adding a tier, removing one and adding a condition keep a fallback: every
    tier but the last has a condition, before the change and in what the editor
    shows after it; adding a tier makes one more, without a condition. *)
Theorem tiers_keep_fallback (cfg cfg' : option VisualConfig) (i : nat) :
  with_fallback (shown cfg) ->
  cfg' ∈ [handleAddTier cfg; handleRemoveTier cfg i; handleAddCondition cfg i] -> is_some cfg' = true ->
  with_fallback (shown cfg') /\
  (cfg' = handleAddTier cfg ->
   length (shown cfg') = S (length (shown cfg)) /\ exists t, last (shown cfg') = Some t /\ conditions t = []).
Proof.
  intros H Hin Hs. destruct cfg' as [cfg'|]; [clear Hs|done].
  assert (Hadd : Some cfg' = handleAddTier cfg -> with_fallback (tiers cfg') /\ tiers cfg' <> [] /\
     length (shown (Some cfg')) = S (length (shown cfg)) /\ exists t, last (shown (Some cfg')) = Some t /\ conditions t = []).
  { intros E. destruct (add_tier_fallback cfg cfg' H (eq_sym E)) as (Hl & Hf & u & t & Eu & Ht).
    split; [done|]. split; [rewrite Eu; by destruct u|].
    assert (Esh : shown (Some cfg') = List.map (fun t => normalizeVisualTier (partial_tier t)) (u ++ [t])).
    { destruct cfg' as [ts]. cbn [tiers] in Eu. subst ts. unfold shown, normalizeVisualConfig. by destruct u. }
    rewrite Esh, length_map, <-Eu. split; [done|]. rewrite Eu, List.map_app. exists (normalizeVisualTier (partial_tier t)).
    split; [apply last_snoc|done]. }
  split; [|intros E; by apply Hadd].
  assert (Hgo : with_fallback (tiers cfg') /\ tiers cfg' <> []).
  { rewrite !elem_of_cons, elem_of_nil in Hin. destruct Hin as [E|[E|[E|[]]]]; [by apply Hadd in E as (? & ? & _)|..].
    - unfold handleRemoveTier in E. fold (shown cfg) in E. injection E as ->. cbn [tiers]. pose proof (shown_nonempty cfg) as Hn.
      pose proof (delete_fallback _ i H) as Hd. by destruct (delete i (shown cfg)).
    - unfold handleAddCondition in E. fold (shown cfg) in E. destruct (shown cfg !! i) as [t|] eqn:Ei; [|done].
      destruct (Nat.leb 2 _); [done|]. injection E as ->. cbn [tiers]. split.
      + apply alter_fallback; [|done]. by destruct (conditions t).
      + intros Hnil. apply (f_equal length) in Hnil. rewrite length_alter in Hnil. by apply (shown_nonempty cfg), nil_length_inv. }
  destruct cfg' as [ts], Hgo as [Hf Hn]. by apply shown_fallback.
Qed.

(** * Presets *)

(** Every preset can be edited: applying it opens the visual mode on tiers that
    are read back from what is written for them, the text of the editor splits into
    the expression and the rules of the preset, and the rules are read as the
    groups of the preset. *)
Theorem presets_editable :
  Forall (fun p => forall e, let e' := applyPreset p e in
    editorMode e' = Visual /\ is_some (visualConfig e') = true /\
    tryParseVisualConfig (Some (generateExprFromVisualConfig (visualConfig e'))) = visualConfig e' /\
    splitBillingExprAndRequestRules (rawExpr e') = inr (preset_expr p, currentRequestRuleExpr e') /\
    tryParseRequestRuleExpr (currentRequestRuleExpr e') = inr (Some (requestRuleGroups e')))
    (concat (List.map presets PRESET_GROUPS)).
Proof.
  unfold PRESET_GROUPS. cbn [List.map presets concat app].
  repeat (apply Forall_cons; split; [intros e; split_and!; vm_compute; reflexivity|]). apply Forall_nil_2.
Qed.

(** * Examples *)

Lemma long_context_presentable : presentable long_context.
Proof.
  split; [done|]. pose proof long_context_writable as H. unfold long_context in *.
  apply Forall_cons in H as [H1 H2]. apply Forall_cons in H2 as [H2 _].
  apply Forall_cons; split; [split; [exact H1|apply nested_plain; reflexivity]|].
  apply Forall_singleton. split; [exact H2|apply nested_plain; reflexivity].
Qed.

(** An editor in the visual mode, as it was opened. *)
Definition sample_editor : Editor := opened (Some (js "m")) long_context sample_groups.

Definition visual_editor : Editor :=
  set_editor Visual (Some (VConfig long_context)) [] sample_groups (js "1") sample_editor.

Lemma mode_switch_keeps_witness :
  exists raw back, handleModeChange Raw visual_editor = inr raw /\ handleModeChange Visual raw = inr back /\
    requestRuleGroups back = omap BillingExpr.canonicalGroup sample_groups /\ effectiveExpr back = effectiveExpr visual_editor.
Proof.
  destruct (mode_switch_keeps visual_editor long_context) as (raw & back & H1 & _ & _ & H2 & _ & _ & H3 & H4 & _).
  - reflexivity.
  - reflexivity.
  - exact long_context_presentable.
  - exact sample_editable.
  - exists raw, back. repeat (split; [assumption|]). assumption.
Defined.

(** A rule that looks for a text in a parameter: it cannot be told from the rest
    of the expression, which the visual editor then does not read, so coming back
    there are no rules and the tiers are the default ones. *)
Example mode_switch_loses_comparison :
  let e := set_editor Visual (Some (VConfig long_context)) []
             [Group [ParamHeaderCondition Param (js "mode") MATCH_CONTAINS (js "fast")] (js "2") None None] (js "1") sample_editor in
  match handleModeChange Raw e with
  | inr raw =>
      match handleModeChange Visual raw with
      | inr back => truthy (rules_shown e) = true /\ requestRuleGroups back = [] /\
                    visualConfig back = Some createDefaultVisualConfig
      | inl _ => False
      end
  | inl _ => False
  end.
Proof. vm_compute. repeat split. Qed.

(** An edit of the text once the editor is initialised. *)
Definition raw_editor : Editor :=
  MkEditor Raw None (jq "tier(`base`, p * 2 + c * 4)") [] true None (js "p") [] None (Some None).

Lemma edits_settle_witness :
  exists e', commits 2 raw_editor = inr e' /\ settled e' /\ currentExpr e' = jq "tier(`base`, p * 2 + c * 4)".
Proof.
  destruct (edits_settle raw_editor true (jq "tier(`base`, p * 2 + c * 4)")) as (e' & H1 & H2 & H3 & _).
  - reflexivity.
  - reflexivity.
  - vm_compute. reflexivity.
  - vm_compute. reflexivity.
  - intros H. discriminate H.
  - exists e'. split; [assumption|]. split; assumption.
Defined.

Lemma opening_keeps_witness :
  exists e, bind (mount None (generateExprFromVisualConfig (Some (VConfig long_context))) (buildRequestRuleExpr sample_groups)) commit = inr e /\
    settled e /\ editorMode e = Visual.
Proof.
  destruct (opening_keeps None long_context sample_groups long_context_presentable sample_editable) as (e & H1 & H2 & H3 & _).
  exists e. split; [assumption|]. split; assumption.
Defined.

Lemma unreadable_expression_lost_witness :
  exists e, bind (mount None (js "p * 2 + c * 4") []) (commits 4) = inr e /\ settled e /\ currentExpr e = js "p * 0 + c * 0".
Proof.
  destruct (unreadable_expression_lost None (js "p * 2 + c * 4") (js "p * 2 + c * 4") []) as (e & H1 & H2 & _ & H3 & _).
  - reflexivity.
  - vm_compute. congruence.
  - vm_compute. reflexivity.
  - vm_compute. reflexivity.
  - exists e. split; [assumption|]. split; assumption.
Defined.

Lemma first_raw_edit_leaves_raw_witness :
  exists raw e' cfg, editorMode raw = Raw /\
    bind (handleRawChange (jq "tier(`base`, p * 7 + c * 4)") raw) (commits 2) = inr e' /\ editorMode e' = Visual /\
    visualConfig e' = Some cfg.
Proof.
  destruct (tryParseVisualConfig (Some (jq "tier(`base`, p * 7 + c * 4)"))) as [cfg|] eqn:E; [|vm_compute in E; discriminate E].
  destruct (first_raw_edit_leaves_raw None long_context [] (jq "tier(`base`, p * 7 + c * 4)") (jq "tier(`base`, p * 7 + c * 4)") cfg)
    as (e & raw & e' & _ & _ & H1 & H2 & H3 & H4 & _).
  - exact long_context_presentable.
  - constructor.
  - vm_compute. reflexivity.
  - vm_compute. congruence.
  - exact E.
  - exists raw, e', cfg. repeat (split; [assumption|]). assumption.
Defined.

Lemma tiers_keep_fallback_witness :
  with_fallback (shown (handleAddTier (Some (VConfig long_context)))) /\
  length (shown (handleAddTier (Some (VConfig long_context)))) = 3.
Proof.
  destruct (tiers_keep_fallback (Some (VConfig long_context)) (handleAddTier (Some (VConfig long_context))) 0) as [H1 H2].
  - repeat constructor. vm_compute. congruence.
  - left.
  - reflexivity.
  - split; [exact H1|]. exact (proj1 (H2 eq_refl)).
Defined.

Lemma unreadable_rules_dropped_witness :
  exists e, bind (mount None (generateExprFromVisualConfig (Some (VConfig long_context))) (js "(param(`x`) ? 2 : 1)")) (commits 2) = inr e /\
    settled e /\ currentRequestRuleExpr e = [].
Proof.
  destruct (unreadable_rules_dropped None long_context (js "(param(`x`) ? 2 : 1)")) as (e & H1 & H2 & _ & H3).
  - exact long_context_presentable.
  - vm_compute. reflexivity.
  - exists e. split; [assumption|]. split; assumption.
Defined.
