(* ===== verification/ModelPricing.v ===== *)
(** The prices of models
    (web/src/features/system-settings/models/pricing-format.ts,
    model-pricing-core.ts and the panel of model-pricing-sheet.tsx): how prices
    are written, how the ratios of a model become prices of its lanes, and the
    panel that edits them and turns them back into ratios.

    The form library keeps the texts of the form ([form.setValue] sets one);
    translated messages are not modelled, a message is its English key. *)

From Stdlib Require Import NArith ZArith Lia ZifyBool ZifyN.
From Stdlib Require Import SpecFloat.
From stdpp Require Import base list gmap strings.
From S2P Require Import TierExpr TierText TierEditor Prelude JsString JsNum Json Regex BillingExpr.

(** * Writing prices (pricing-format.ts) *)

Definition DISPLAY_DECIMALS : Z := 12.
Definition SNAP_DECIMALS : nat := 8.
Definition SNAP_EPSILON : num := num_of_string (js "1e-12").

Definition hasValue (value : jv) : bool :=
  match value with JStr s => truthy s | JNull | JUndef | JBool false => false | _ => true end.

Definition toNumberOrNull (value : jv) : option num :=
  if hasValue value then let x := jv_number value in if num_is_finite x then Some x else None else None.

Definition roundToDecimals (value : num) (decimals : nat) : num :=
  let factor := num_of_Z (10 ^ Z.of_nat decimals) in
  num_div (num_round (num_mul value factor)) factor.

(** [Number.EPSILON] *)
Definition EPSILON : num := num_div (num_of_Z 1) (num_of_Z (2 ^ 52)).

(** The loop over the decimals from [decimals] on, [n] of them. *)
Fixpoint snap_loop (value tolerance : num) (n decimals : nat) : num :=
  match n with
  | O => value
  | S n =>
      let rounded := roundToDecimals value decimals in
      if num_leb (num_abs (num_sub value rounded)) tolerance then rounded
      else snap_loop value tolerance n (S decimals)
  end.

Definition snapFloatDrift (value : num) : num :=
  let tolerance := num_max SNAP_EPSILON (num_mul (num_mul (num_abs value) EPSILON) (num_of_Z 8)) in
  snap_loop value tolerance (S SNAP_DECIMALS) 0.

(** [Number.parseFloat(x.toFixed(12))]: large numbers are written as they are. *)
Definition fixed_number (x : num) : num :=
  if num_leb (num_of_string (js "1e21")) (num_abs x) then x else num_fixed DISPLAY_DECIMALS x.

Definition formatPricingNumber (value : jv) : jstr :=
  match toNumberOrNull value with
  | None => []
  | Some x => num_to_string (fixed_number (snapFloatDrift x))
  end.

Example format_drift : formatPricingNumber (JNum (num_add (num_of_string (js "0.1")) (num_of_string (js "0.2")))) = js "0.3".
Proof. vm_compute. reflexivity. Qed.

Example format_small : formatPricingNumber (JStr (js "0.0000001234567")) = js "1.23457e-7".
Proof. vm_compute. reflexivity. Qed.

(** * The fields of a model (model-pricing-core.ts) *)

(** The eight fields of a model that hold a price or a ratio. *)
Record Prices (A : Type) := MkPrices {
  price : A; ratio : A; cacheRatio : A; createCacheRatio : A; completionRatio : A;
  imageRatio : A; audioRatio : A; audioCompletionRatio : A }.
Arguments MkPrices {A}.
Arguments price {A}.
Arguments ratio {A}.
Arguments cacheRatio {A}.
Arguments createCacheRatio {A}.
Arguments completionRatio {A}.
Arguments imageRatio {A}.
Arguments audioRatio {A}.
Arguments audioCompletionRatio {A}.

Inductive Field := Price | Ratio | CacheRatio | CreateCacheRatio | CompletionRatio | ImageRatio | AudioRatio | AudioCompletionRatio.

#[global] Instance Field_eq_dec : EqDecision Field.
Proof. solve_decision. Defined.

Definition get {A} (f : Field) (p : Prices A) : A :=
  match f with
  | Price => price p | Ratio => ratio p | CacheRatio => cacheRatio p | CreateCacheRatio => createCacheRatio p
  | CompletionRatio => completionRatio p | ImageRatio => imageRatio p | AudioRatio => audioRatio p
  | AudioCompletionRatio => audioCompletionRatio p
  end.

Definition tabulate {A} (g : Field -> A) : Prices A :=
  MkPrices (g Price) (g Ratio) (g CacheRatio) (g CreateCacheRatio) (g CompletionRatio) (g ImageRatio) (g AudioRatio)
    (g AudioCompletionRatio).

Definition put {A} (f : Field) (x : A) (p : Prices A) : Prices A := tabulate (fun g => if decide (f = g) then x else get g p).

Lemma get_tabulate {A} (g : Field -> A) f : get f (tabulate g) = g f.
Proof. by destruct f. Qed.

Lemma tabulate_get {A} (p : Prices A) : tabulate (fun f => get f p) = p.
Proof. by destruct p. Qed.

Lemma prices_eq {A} (p q : Prices A) : (forall f, get f p = get f q) -> p = q.
Proof.
  intros H. destruct p, q.
  f_equal; [apply (H Price)|apply (H Ratio)|apply (H CacheRatio)|apply (H CreateCacheRatio)|apply (H CompletionRatio)|
    apply (H ImageRatio)|apply (H AudioRatio)|apply (H AudioCompletionRatio)].
Qed.

Lemma get_put {A} f g (x : A) p : get f (put g x p) = if decide (g = f) then x else get f p.
Proof. unfold put. by rewrite get_tabulate. Qed.

Inductive PricingMode := PerToken | PerRequest | TieredExpr.
#[global] Instance PricingMode_eq_dec : EqDecision PricingMode.
Proof. solve_decision. Defined.

Definition mode_str (m : PricingMode) : jstr :=
  match m with PerToken => js "per-token" | PerRequest => js "per-request" | TieredExpr => js "tiered_expr" end.

Inductive LaneKey := Completion | Cache | CreateCache | Image | AudioInput | AudioOutput.

#[global] Instance LaneKey_eq_dec : EqDecision LaneKey.
Proof. solve_decision. Defined.

(** A [Record<LaneKey, A>]. *)
Definition Lanes (A : Type) : Type := LaneKey -> A.
Definition set_lane {A} (k : LaneKey) (x : A) (l : Lanes A) : Lanes A := fun k' => if decide (k = k') then x else l k'.

Record ModelRatioData := MkData {
  d_name : jstr;
  d_prices : Prices (option jstr);
  d_billingMode : option PricingMode;
  d_billingExpr : option jstr;
  d_requestRuleExpr : option jstr
}.

Definition numericDraftRegex : re :=
  RSeqs [RBol; ROpt (RGroup 1 (RAlts [
    RSeqs [RPlus RDigit; ROpt (RGroup 2 (RSeqs [RLit (js "."); RStar RDigit]))];
    RSeqs [RLit (js "."); RStar RDigit]])); REol].

Definition EMPTY_LANE_PRICES : Lanes jstr := fun _ => [].
Definition EMPTY_LANE_ENABLED : Lanes bool := fun _ => false.

Definition ratioFieldByLane (k : LaneKey) : Field :=
  match k with
  | Completion => CompletionRatio | Cache => CacheRatio | CreateCache => CreateCacheRatio | Image => ImageRatio
  | AudioInput => AudioRatio | AudioOutput => AudioCompletionRatio
  end.

(** The keys of [laneConfigs], in order. *)
Definition laneConfigs : list LaneKey := [Completion; Cache; CreateCache; Image; AudioInput; AudioOutput].

Definition opt_value (o : option jstr) : jv := match o with Some s => JStr s | None => JUndef end.

Definition ratioToBasePrice (r : jv) : jstr :=
  match toNumberOrNull r with
  | None => []
  | Some x => formatPricingNumber (JNum (num_mul x (num_of_Z 2)))
  end.

Definition deriveLanePrice (r denominator : jv) : jstr :=
  match toNumberOrNull r, toNumberOrNull denominator with
  | Some x, Some y => formatPricingNumber (JNum (num_mul x y))
  | _, _ => []
  end.

Record LaneState := MkLaneState { ls_promptPrice : jstr; ls_prices : Lanes jstr; ls_enabled : Lanes bool }.

Definition createInitialLaneState (data : option ModelRatioData) : LaneState :=
  match data with
  | None => MkLaneState [] EMPTY_LANE_PRICES EMPTY_LANE_ENABLED
  | Some d =>
      let value f := opt_value (get f (d_prices d)) in
      let promptPrice := ratioToBasePrice (value Ratio) in
      let audioInputPrice := deriveLanePrice (value AudioRatio) (JStr promptPrice) in
      MkLaneState promptPrice
        (fun k => match k with
                  | AudioInput => audioInputPrice
                  | AudioOutput => deriveLanePrice (value AudioCompletionRatio) (JStr audioInputPrice)
                  | _ => deriveLanePrice (value (ratioFieldByLane k)) (JStr promptPrice)
                  end)
        (fun k => hasValue (value (ratioFieldByLane k)))
  end.

(** ** The rows of the preview *)

Record PreviewRow := MkRow { row_key : jstr; row_label : jstr; row_value : jstr; row_multiline : bool }.

Definition dollars (shown : bool) (p : jstr) : jstr := if (shown && truthy p)%bool then js "$" ++ p else js "Empty".

Definition lane_row (k : LaneKey) : jstr * jstr :=
  match k with
  | Completion => (js "completion", js "Completion price")
  | Cache => (js "cache", js "Cache read price")
  | CreateCache => (js "createCache", js "Cache write price")
  | Image => (js "image", js "Image input price")
  | AudioInput => (js "audio", js "Audio input price")
  | AudioOutput => (js "audioCompletion", js "Audio output price")
  end.

Definition buildPreviewRows (values : Prices jstr) (mode : PricingMode) (billingExpr requestRuleExpr promptPrice : jstr)
    (lanePrices : Lanes jstr) (laneEnabled : Lanes bool) : list PreviewRow :=
  match mode with
  | TieredExpr =>
      [MkRow (js "mode") (js "BillingMode") (js "tiered_expr") false;
       MkRow (js "expr") (js "Expression") (or_str (combineBillingExpr billingExpr requestRuleExpr) (js "Empty")) true]
  | PerRequest => [MkRow (js "price") (js "ModelPrice") (or_str (price values) (js "Empty")) false]
  | PerToken =>
      MkRow (js "inputPrice") (js "Input price") (dollars true promptPrice) false ::
      List.map (fun k => MkRow (lane_row k).1 (lane_row k).2 (dollars (laneEnabled k) (lanePrices k)) false) laneConfigs
  end.

(** * The panel (model-pricing-sheet.tsx) *)

Record Panel := MkPanel {
  pricingMode : PricingMode;
  promptPrice : jstr;
  lanePrices : Lanes jstr;
  laneEnabled : Lanes bool;
  p_billingExpr : jstr;
  p_requestRuleExpr : jstr;
  reloadToken : nat;
  form_name : jstr;
  form : Prices jstr
}.

Definition or_empty (o : option jstr) : jstr := or_str (o ?? []) [].

(** The state of a panel before its first effect, and the panel's own effect when
    [editData] changes; [panel_open] is the whole of opening a model. *)
Definition panel_initial : Panel :=
  MkPanel PerToken [] EMPTY_LANE_PRICES EMPTY_LANE_ENABLED [] [] 0 [] (tabulate (fun _ => [])).

Definition panel_reset (editData : option ModelRatioData) (p : Panel) : Panel :=
  let next := createInitialLaneState editData in
  match editData with
  | Some d =>
      let mode := match d_billingMode d with
                  | Some TieredExpr => TieredExpr
                  | _ => if truthy (get Price (d_prices d) ?? []) then PerRequest else PerToken
                  end in
      MkPanel mode (ls_promptPrice next) (ls_prices next) (ls_enabled next) (or_empty (d_billingExpr d))
        (or_empty (d_requestRuleExpr d)) (S (reloadToken p)) (d_name d) (tabulate (fun f => or_empty (get f (d_prices d))))
  | None =>
      MkPanel PerToken (ls_promptPrice next) (ls_prices next) (ls_enabled next) [] [] (S (reloadToken p)) []
        (tabulate (fun _ => []))
  end.

(** A panel in the tiered mode shows the editor of expressions, mounted anew for
    every [reloadToken], whose effects write the expressions of the panel: the
    panel after [n] of its renders. What they throw ends the panel. *)
Definition show_tiers (n : nat) (p : Panel) : exn + Panel :=
  match pricingMode p with
  | TieredExpr =>
      bind (bind (mount (Some (form_name p)) (p_billingExpr p) (p_requestRuleExpr p)) (commits n)) (fun e =>
        inr (MkPanel (pricingMode p) (promptPrice p) (lanePrices p) (laneEnabled p) (currentExpr e)
               (currentRequestRuleExpr e) (reloadToken p) (form_name p) (form p)))
  | _ => inr p
  end.

(** Opening a model: the effect of the panel, then the editor it shows. *)
Definition panel_open (n : nat) (editData : option ModelRatioData) (p : Panel) : exn + Panel :=
  show_tiers n (panel_reset editData p).

Definition setFormValue (f : Field) (value : jstr) (p : Panel) : Panel :=
  MkPanel (pricingMode p) (promptPrice p) (lanePrices p) (laneEnabled p) (p_billingExpr p) (p_requestRuleExpr p)
    (reloadToken p) (form_name p) (put f value (form p)).

Definition set_lanes (prompt : jstr) (prices : Lanes jstr) (enabled : Lanes bool) (p : Panel) : Panel :=
  MkPanel (pricingMode p) prompt prices enabled (p_billingExpr p) (p_requestRuleExpr p) (reloadToken p) (form_name p) (form p).

Definition deriveLaneRatio (lane : LaneKey) (value nextPromptPrice : jstr) (nextLanePrices : Lanes jstr) : jstr :=
  match toNumberOrNull (JStr value) with
  | None => []
  | Some priceNumber =>
      let divide denominator :=
        match denominator with
        | None => []
        | Some x => if num_eqb x nzero then [] else formatPricingNumber (JNum (num_div priceNumber x))
        end in
      match lane with
      | AudioOutput => divide (toNumberOrNull (JStr (nextLanePrices AudioInput)))
      | _ => divide (toNumberOrNull (JStr nextPromptPrice))
      end
  end.

(** The ratio of a lane that is not enabled is left out. *)
Definition lane_ratio (prompt : jstr) (prices : Lanes jstr) (enabled : Lanes bool) (k : LaneKey) : jstr :=
  if enabled k then deriveLaneRatio k (prices k) prompt prices else [].

Definition syncLaneRatios (nextPromptPrice : jstr) (nextLanePrices : Lanes jstr) (nextLaneEnabled : Lanes bool) (p : Panel) : Panel :=
  let p := setFormValue Ratio
             (match toNumberOrNull (JStr nextPromptPrice) with
              | Some x => formatPricingNumber (JNum (num_div x (num_of_Z 2)))
              | None => []
              end) p in
  fold_left (fun p k => setFormValue (ratioFieldByLane k) (lane_ratio nextPromptPrice nextLanePrices nextLaneEnabled k) p) laneConfigs p.

Definition handlePromptPriceChange (value : jstr) (p : Panel) : Panel :=
  if negb (re_test numericDraftRegex value) then p
  else syncLaneRatios value (lanePrices p) (laneEnabled p) (set_lanes value (lanePrices p) (laneEnabled p) p).

Definition handleLanePriceChange (lane : LaneKey) (value : jstr) (p : Panel) : Panel :=
  if negb (re_test numericDraftRegex value) then p
  else
    let next := set_lane lane value (lanePrices p) in
    let p1 := set_lanes (promptPrice p) next (laneEnabled p) p in
    let p2 := if laneEnabled p lane
              then setFormValue (ratioFieldByLane lane) (deriveLaneRatio lane value (promptPrice p) next) p1 else p1 in
    if (bool_decide (lane = AudioInput) && laneEnabled p AudioOutput)%bool
    then setFormValue AudioCompletionRatio (deriveLaneRatio AudioOutput (next AudioOutput) (promptPrice p) next) p2 else p2.

Definition handleLaneToggle (lane : LaneKey) (checked : bool) (p : Panel) : Panel :=
  let nextEnabled := set_lane lane checked (laneEnabled p) in
  if checked then
    let p1 := set_lanes (promptPrice p) (lanePrices p) nextEnabled p in
    setFormValue (ratioFieldByLane lane) (deriveLaneRatio lane (lanePrices p lane) (promptPrice p) (lanePrices p)) p1
  else
    let nextPrices := set_lane lane [] (lanePrices p) in
    let p1 := setFormValue (ratioFieldByLane lane) [] p in
    if bool_decide (lane = AudioInput) then
      set_lanes (promptPrice p) (set_lane AudioOutput [] nextPrices) (set_lane AudioOutput false nextEnabled)
        (setFormValue AudioCompletionRatio [] p1)
    else set_lanes (promptPrice p) nextPrices nextEnabled p1.

Definition panel_handleModeChange (next : PricingMode) (p : Panel) : Panel :=
  let expr := match next with
              | TieredExpr => if truthy (p_billingExpr p) then p_billingExpr p else jq "tier(`base`, p * 0 + c * 0)"
              | _ => p_billingExpr p
              end in
  MkPanel next (promptPrice p) (lanePrices p) (laneEnabled p) expr (p_requestRuleExpr p) (reloadToken p) (form_name p) (form p).

(** The field of the fixed price. *)
Definition handlePriceInput (value : jstr) (p : Panel) : Panel :=
  if re_test numericDraftRegex value then setFormValue Price value p else p.

(** The expressions, set by the editor of the third mode. *)
Definition setBillingExpr (e : jstr) (p : Panel) : Panel :=
  MkPanel (pricingMode p) (promptPrice p) (lanePrices p) (laneEnabled p) e (p_requestRuleExpr p) (reloadToken p) (form_name p) (form p).
Definition setRequestRuleExpr (e : jstr) (p : Panel) : Panel :=
  MkPanel (pricingMode p) (promptPrice p) (lanePrices p) (laneEnabled p) (p_billingExpr p) e (reloadToken p) (form_name p) (form p).
Definition setFormName (n : jstr) (p : Panel) : Panel :=
  MkPanel (pricingMode p) (promptPrice p) (lanePrices p) (laneEnabled p) (p_billingExpr p) (p_requestRuleExpr p) (reloadToken p) n (form p).

Definition missing_input_price (p : Panel) : bool :=
  (bool_decide (pricingMode p = PerToken) && negb (is_some (toNumberOrNull (JStr (promptPrice p)))) &&
   existsb (fun k => laneEnabled p k && hasValue (JStr (lanePrices p k))) laneConfigs)%bool.

Definition missing_audio_price (p : Panel) : bool :=
  (bool_decide (pricingMode p = PerToken) && laneEnabled p AudioOutput && negb (hasValue (JStr (lanePrices p AudioInput))))%bool.

Definition has_conflict (editData : option ModelRatioData) : bool :=
  match editData with
  | None => false
  | Some d =>
      (truthy (get Price (d_prices d) ?? []) &&
       existsb (fun f => hasValue (opt_value (get f (d_prices d))))
         [Ratio; CompletionRatio; CacheRatio; CreateCacheRatio; ImageRatio; AudioRatio; AudioCompletionRatio])%bool
  end.

Definition warnings (editData : option ModelRatioData) (p : Panel) : list jstr :=
  (if has_conflict editData
   then [js "This model has both fixed-price and token-price settings. Saving the current mode will rewrite the conflicting fields."] else []) ++
  (if missing_input_price p then [js "Input price is required before saving dependent prices."] else []) ++
  (if missing_audio_price p then [js "Audio output price requires an audio input price."] else []).

(** The field that gets an error, and its message. *)
Definition validatePricingValues (p : Panel) : option (Field * jstr) :=
  if missing_input_price p then Some (Ratio, js "Input price is required before saving dependent prices.")
  else if missing_audio_price p then Some (AudioRatio, js "Audio output price requires an audio input price.")
  else None.

Definition buildSubmitData (p : Panel) : ModelRatioData :=
  let tiered {A} (x : A) := match pricingMode p with TieredExpr => Some x | _ => None end in
  MkData (trim (form_name p)) (tabulate (fun f => Some (or_str (get f (form p)) []))) (Some (pricingMode p))
    (tiered (p_billingExpr p)) (tiered (p_requestRuleExpr p)).

(** [commitDraft]: the form wants a name. *)
Definition commitDraft (p : Panel) : option ModelRatioData :=
  if truthy (form_name p) then match validatePricingValues p with None => Some (buildSubmitData p) | Some _ => None end else None.

(** * Opening the tiered mode *)

(** Expressions that the visual editor writes. *)
Definition written_visually (expr rules : jstr) : Prop :=
  exists ts gs, presentable ts /\ Forall editable gs /\
    expr = generateExprFromVisualConfig (Some (VConfig ts)) /\ rules = buildRequestRuleExpr gs.

Lemma commits_settled e n : settled e -> commits n e = inr e.
Proof. intros H. induction n as [|n IH]; [done|]. cbn [commits]. unfold settled in H. by rewrite H. Qed.

(** Showing expressions of the visual editor changes nothing, from the first
    render on. *)
Lemma show_tiers_keeps n p :
  (pricingMode p = TieredExpr -> written_visually (p_billingExpr p) (p_requestRuleExpr p)) -> show_tiers (S n) p = inr p.
Proof.
  intros H. unfold show_tiers. destruct (pricingMode p) eqn:Em; [done..|].
  destruct (H eq_refl) as (ts & gs & Hts & Hg & E1 & E2). rewrite E1, E2.
  pose proof (mount_opens (Some (form_name p)) ts gs Hts Hg) as Ho.
  destruct (mount _ _ _) as [|e]; [done|]. cbn [bind commits] in *. rewrite Ho. cbn [bind].
  rewrite commits_settled by by apply opened_settled. cbn [bind opened currentExpr currentRequestRuleExpr].
  rewrite <-E1, <-E2, <-Em. by destruct p.
Qed.

(** * The lanes and their ratios *)

Lemma ratioField_inj k k' : ratioFieldByLane k = ratioFieldByLane k' -> k = k'.
Proof. by destruct k, k'. Qed.

Lemma ratioField_lane k : ratioFieldByLane k <> Ratio /\ ratioFieldByLane k <> Price.
Proof. by destruct k. Qed.

Definition input_ratio (prompt : jstr) : jstr :=
  match toNumberOrNull (JStr prompt) with Some x => formatPricingNumber (JNum (num_div x (num_of_Z 2))) | None => [] end.

(** The ratios of the form are those of the prices shown. *)
Record lanes_agree (p : Panel) : Prop := {
  la_input : get Ratio (form p) = input_ratio (promptPrice p);
  la_lane : forall k, get (ratioFieldByLane k) (form p) = lane_ratio (promptPrice p) (lanePrices p) (laneEnabled p) k }.

(** What the user does in the panel. A panel that is in the tiered mode after an
    event also shows the editor of expressions ([show_tiers]), which writes the two
    expressions and nothing else. *)
Inductive PanelEvent :=
| PromptPrice (v : jstr)
| LanePrice (k : LaneKey) (v : jstr)
| LaneToggle (k : LaneKey) (checked : bool)
| ModeChange (m : PricingMode)
| FixedPrice (v : jstr)
| Expression (e : jstr)
| RequestRules (e : jstr)
| Name (n : jstr).

Definition panel_step (p : Panel) (ev : PanelEvent) : Panel :=
  match ev with
  | PromptPrice v => handlePromptPriceChange v p
  | LanePrice k v => handleLanePriceChange k v p
  | LaneToggle k c => handleLaneToggle k c p
  | ModeChange m => panel_handleModeChange m p
  | FixedPrice v => handlePriceInput v p
  | Expression e => setBillingExpr e p
  | RequestRules e => setRequestRuleExpr e p
  | Name n => setFormName n p
  end.

Lemma form_set f v p : form (setFormValue f v p) = put f v (form p).
Proof. reflexivity. Qed.

Lemma sync_form prompt prices enabled ks : forall p g,
  (forall k, k ∈ ks -> g <> ratioFieldByLane k) ->
  get g (form (fold_left (fun p k => setFormValue (ratioFieldByLane k) (lane_ratio prompt prices enabled k) p) ks p)) = get g (form p).
Proof.
  induction ks as [|k ks IH]; intros p g Hg; [done|]. cbn [fold_left]. rewrite IH by (intros k' Hk; apply Hg; by right).
  rewrite form_set, get_put, decide_False; [done|]. intros E. by apply (Hg k); [left|].
Qed.

Lemma sync_lane prompt prices enabled ks k : forall p,
  k ∈ ks ->
  get (ratioFieldByLane k) (form (fold_left (fun p k => setFormValue (ratioFieldByLane k) (lane_ratio prompt prices enabled k) p) ks p)) =
  lane_ratio prompt prices enabled k.
Proof.
  induction ks as [|k' ks IH]; intros p Hk; [by apply not_elem_of_nil in Hk|]. cbn [fold_left].
  destruct (decide (k ∈ ks)) as [Hin|Hin]; [by apply IH|]. apply elem_of_cons in Hk as [->|]; [|done].
  rewrite sync_form; [by rewrite form_set, get_put, decide_True|]. intros k2 H2 E%ratioField_inj. congruence.
Qed.

Lemma sync_keeps prompt prices enabled ks : forall p,
  let q := fold_left (fun p k => setFormValue (ratioFieldByLane k) (lane_ratio prompt prices enabled k) p) ks p in
  promptPrice q = promptPrice p /\ lanePrices q = lanePrices p /\ laneEnabled q = laneEnabled p.
Proof. induction ks as [|k ks IH]; intros p; [done|]. exact (IH (setFormValue _ _ p)). Qed.

Lemma in_lanes k : k ∈ laneConfigs.
Proof. unfold laneConfigs. destruct k; set_solver. Qed.

Lemma sync_agrees v p : re_test numericDraftRegex v = true -> lanes_agree (handlePromptPriceChange v p).
Proof.
  intros Hv. unfold handlePromptPriceChange. rewrite Hv. cbn [negb]. unfold syncLaneRatios.
  set (p0 := setFormValue Ratio _ _).
  destruct (sync_keeps v (lanePrices p) (laneEnabled p) laneConfigs p0) as (E1 & E2 & E3). split.
  - rewrite sync_form by (intros k _ E; by destruct (ratioField_lane k)). rewrite E1. unfold p0. by rewrite form_set, get_put, decide_True.
  - intros k. rewrite sync_lane by apply in_lanes. rewrite E1, E2, E3. done.
Qed.

(** The ratio of a lane looks at its own price, at whether it is enabled, and for
    the audio output at the price of the audio input. *)
Lemma lane_ratio_ext prompt prices prices' enabled enabled' k :
  enabled k = enabled' k -> (enabled k = true -> prices k = prices' k /\ (k = AudioOutput -> prices AudioInput = prices' AudioInput)) ->
  lane_ratio prompt prices enabled k = lane_ratio prompt prices' enabled' k.
Proof.
  intros He Hp. unfold lane_ratio. rewrite <-He. destruct (enabled k); [|done]. destruct (Hp eq_refl) as [-> Ha].
  unfold deriveLaneRatio. destruct k; try done. by rewrite Ha.
Qed.

Lemma set_lane_same {A} k (x : A) l : set_lane k x l k = x.
Proof. unfold set_lane. by rewrite decide_True. Qed.

Lemma set_lane_other {A} k k' (x : A) l : k <> k' -> set_lane k x l k' = l k'.
Proof. intros. unfold set_lane. by rewrite decide_False. Qed.

Lemma lane_price_agrees k v p : lanes_agree p -> lanes_agree (handleLanePriceChange k v p).
Proof.
  intros [Hi Hl]. unfold handleLanePriceChange. destruct (negb _); [done|]. cbv zeta. set (next := set_lane k v (lanePrices p)).
  set (p1 := set_lanes (promptPrice p) next (laneEnabled p) p).
  set (p2 := if laneEnabled p k then setFormValue (ratioFieldByLane k) (deriveLaneRatio k v (promptPrice p) next) p1 else p1).
  assert (H2 : forall g, get g (form p2) =
    if bool_decide (g = ratioFieldByLane k /\ laneEnabled p k = true) then deriveLaneRatio k v (promptPrice p) next else get g (form p)).
  { intros g. unfold p2. destruct (laneEnabled p k) eqn:Ek; [rewrite form_set, get_put|].
    - destruct (decide (ratioFieldByLane k = g)) as [<-|Hg]; [by rewrite bool_decide_true|]. by rewrite bool_decide_false by (intros [-> _]; done).
    - by rewrite bool_decide_false by (by intros [_ ?]). }
  assert (Hk2 : promptPrice p2 = promptPrice p /\ lanePrices p2 = next /\ laneEnabled p2 = laneEnabled p) by (unfold p2; by destruct (laneEnabled p k)).
  destruct Hk2 as (E1 & E2 & E3).
  set (p3 := if (_ && _)%bool then _ else p2).
  assert (H3 : forall g, get g (form p3) =
    if bool_decide (g = AudioCompletionRatio /\ k = AudioInput /\ laneEnabled p AudioOutput = true)
    then deriveLaneRatio AudioOutput (next AudioOutput) (promptPrice p) next else get g (form p2)).
  { intros g. unfold p3. destruct (bool_decide_reflect (k = AudioInput)) as [->|Hn]; cbn [andb].
    - destruct (laneEnabled p AudioOutput) eqn:Ea; [rewrite form_set, get_put|].
      + destruct (decide (AudioCompletionRatio = g)) as [<-|Hg]; [by rewrite bool_decide_true|]. by rewrite bool_decide_false by (intros (-> & _); done).
      + by rewrite bool_decide_false by (by intros (_ & _ & ?)).
    - by rewrite bool_decide_false by (by intros (_ & ? & _)). }
  assert (Hk3 : promptPrice p3 = promptPrice p /\ lanePrices p3 = next /\ laneEnabled p3 = laneEnabled p) by (unfold p3; by destruct (_ && _)%bool).
  destruct Hk3 as (F1 & F2 & F3). split.
  - rewrite H3, bool_decide_false, H2, bool_decide_false by (intros [E _]; by destruct k). by rewrite F1.
  - intros k'. rewrite F1, F2, F3, H3, H2.
    destruct (decide (k = k')) as [<-|Hkk].
    + rewrite bool_decide_false by (intros (E & -> & _); by destruct (ratioField_inj AudioInput AudioOutput)).
      unfold lane_ratio. destruct (laneEnabled p k) eqn:Ek; [rewrite bool_decide_true by done; unfold next; by rewrite set_lane_same|].
      rewrite bool_decide_false by (by intros [_ ?]). rewrite Hl. unfold lane_ratio. by rewrite Ek.
    + rewrite (bool_decide_false (ratioFieldByLane k' = ratioFieldByLane k /\ _)) by (intros [E%ratioField_inj _]; congruence).
      destruct (bool_decide_reflect (ratioFieldByLane k' = AudioCompletionRatio /\ k = AudioInput /\ laneEnabled p AudioOutput = true))
        as [(E & -> & Ea)|Hn].
      * assert (k' = AudioOutput) as -> by by destruct k'. unfold lane_ratio. by rewrite Ea.
      * rewrite Hl. apply lane_ratio_ext; [done|]. intros Ek. split; [unfold next; by rewrite set_lane_other|].
        intros ->. unfold next. rewrite set_lane_other; [done|]. intros ->. by destruct Hn.
Qed.

Lemma lane_toggle_agrees k c p : lanes_agree p -> lanes_agree (handleLaneToggle k c p).
Proof.
  intros [Hi Hl]. unfold handleLaneToggle. cbv zeta. destruct c.
  - split; cbn [promptPrice lanePrices laneEnabled set_lanes setFormValue form].
    + rewrite get_put, decide_False; [done|]. by destruct (ratioField_lane k).
    + intros k'. rewrite get_put. destruct (decide (ratioFieldByLane k = ratioFieldByLane k')) as [<-%ratioField_inj|Hk].
      * unfold lane_ratio. by rewrite set_lane_same.
      * rewrite Hl. unfold lane_ratio. rewrite set_lane_other; [done|]. congruence.
  - destruct (bool_decide_reflect (k = AudioInput)) as [->|Hk];
      (split; cbn [promptPrice lanePrices laneEnabled set_lanes setFormValue form]).
    + rewrite !get_put, !decide_False by done. done.
    + intros k'. destruct (decide (k' = AudioInput)) as [->|H1]; [reflexivity|]. destruct (decide (k' = AudioOutput)) as [->|H2]; [reflexivity|].
      rewrite !get_put, !decide_False by (by destruct k'). rewrite Hl. apply lane_ratio_ext; [by rewrite !set_lane_other by congruence|].
      intros _. by rewrite !set_lane_other by congruence.
    + rewrite get_put, decide_False; [done|]. by destruct (ratioField_lane k).
    + intros k'. rewrite get_put. destruct (decide (ratioFieldByLane k = ratioFieldByLane k')) as [<-%ratioField_inj|Hkk].
      * unfold lane_ratio. by rewrite set_lane_same.
      * rewrite Hl. apply lane_ratio_ext; [rewrite set_lane_other; [done|congruence]|]. intros _.
        rewrite set_lane_other by congruence. split; [done|]. intros ->. by rewrite set_lane_other.
Qed.

Lemma panel_step_agrees p ev : lanes_agree p -> lanes_agree (panel_step p ev).
Proof.
  intros H. destruct ev as [v|k v|k c|m|v|e|e|n]; cbn [panel_step].
  - unfold handlePromptPriceChange. destruct (re_test numericDraftRegex v) eqn:Ev; [|done].
    pose proof (sync_agrees v p Ev) as Hs. unfold handlePromptPriceChange in Hs. by rewrite Ev in Hs.
  - by apply lane_price_agrees.
  - by apply lane_toggle_agrees.
  - destruct H. by split.
  - unfold handlePriceInput. destruct (re_test _ _); [|done]. destruct H as [Hi Hl]. split; cbn [promptPrice lanePrices laneEnabled setFormValue form].
    + by rewrite get_put, decide_False.
    + intros k. rewrite get_put, decide_False; [done|]. intros E. by destruct (ratioField_lane k).
  - destruct H. by split.
  - destruct H. by split.
  - destruct H. by split.
Qed.

Lemma panel_run_agrees evs : forall p, lanes_agree p -> lanes_agree (fold_left panel_step evs p).
Proof. induction evs as [|ev evs IH]; intros p Hp; [done|]. cbn [fold_left]. by apply IH, panel_step_agrees. Qed.

Lemma new_agrees : lanes_agree (panel_reset None panel_initial).
Proof. split; [done|by intros []]. Qed.

(** C30: the ratios of the form follow the prices shown in the panel: they do for a
    new model and after any change of the input price, and whatever is edited,
    switched on or off or typed next keeps it so. *)
Theorem lanes_in_step (p : Panel) (evs : list PanelEvent) :
  lanes_agree p \/ p = panel_reset None panel_initial \/
  (exists v q, re_test numericDraftRegex v = true /\ p = handlePromptPriceChange v q) ->
  lanes_agree (fold_left panel_step evs p).
Proof. intros [H|[->|(v & q & Hv & ->)]]; apply panel_run_agrees; [done|apply new_agrees|by apply sync_agrees]. Qed.

Definition typed : list PanelEvent :=
  [PromptPrice (js "3"); LanePrice Completion (js "15"); LaneToggle Completion true; LanePrice AudioInput (js "6");
   LaneToggle AudioInput true; LaneToggle AudioOutput true; LanePrice AudioOutput (js "12"); LanePrice AudioInput (js "4")].

Lemma lanes_in_step_witness :
  lanes_agree (fold_left panel_step typed (panel_reset None panel_initial)) /\
  get AudioCompletionRatio (form (fold_left panel_step typed (panel_reset None panel_initial))) = js "3" /\
  get CompletionRatio (form (fold_left panel_step typed (panel_reset None panel_initial))) = js "5".
Proof.
  split; [|split; vm_compute; reflexivity]. apply lanes_in_step. right. left. reflexivity.
Defined.

(** With an input price of zero the panel accepts prices of the other lanes
    and saves none of them. *)
Theorem free_input_drops_lanes (p : Panel) (d : ModelRatioData) (x : num) :
  lanes_agree p -> toNumberOrNull (JStr (promptPrice p)) = Some x -> num_eqb x nzero = true ->
  commitDraft p = Some d ->
  forall k, k <> AudioOutput -> get (ratioFieldByLane k) (d_prices d) = Some [].
Proof.
  intros [_ Hl] Hx Hz Hc k Hk. unfold commitDraft in Hc. destruct (truthy _); [|done]. destruct (validatePricingValues p); [done|].
  injection Hc as <-. unfold buildSubmitData. cbn [d_prices]. rewrite get_tabulate, Hl. unfold lane_ratio, deriveLaneRatio.
  destruct (laneEnabled p k); [|done]. destruct (toNumberOrNull (JStr (lanePrices p k))) as [y|]; [|by destruct k].
  rewrite Hx, Hz. by destruct k.
Qed.

Definition free_input : Panel :=
  fold_left panel_step [Name (js "m"); PromptPrice (js "0"); LanePrice Completion (js "15"); LaneToggle Completion true]
    (panel_reset None panel_initial).

Lemma free_input_drops_lanes_witness :
  lanePrices free_input Completion = js "15" /\
  exists d, commitDraft free_input = Some d /\ get CompletionRatio (d_prices d) = Some [].
Proof.
  split; [vm_compute; reflexivity|]. exists (buildSubmitData free_input). assert (E : commitDraft free_input = Some (buildSubmitData free_input)).
  { unfold commitDraft. assert (Hn : truthy (form_name free_input) = true) by (vm_compute; reflexivity).
    assert (Hv : validatePricingValues free_input = None) by (vm_compute; reflexivity). rewrite Hn, Hv. reflexivity. }
  split; [exact E|]. refine (free_input_drops_lanes free_input _ nzero _ _ _ E Completion _).
  - apply panel_run_agrees, new_agrees.
  - vm_compute. reflexivity.
  - reflexivity.
  - discriminate.
Defined.
