(* ===== verification/ModelPricingStore.v ===== *)
(** The stored prices of models
    (web/src/features/system-settings/models/model-pricing-snapshots.ts and
    model-ratio-visual-editor.tsx): the ten options that hold them, as JSON
    texts, the rows read out of them, and saving, deleting and copying the
    prices of models.

    The options are meant to be objects. [null] makes the program throw a
    [TypeError]; other values that are not objects are not followed
    ([OtherShape]). A model named as a member of [Object.prototype] is not
    followed either. *)

From Stdlib Require Import NArith ZArith Lia ZifyBool ZifyN.
From Stdlib Require Import SpecFloat.
From stdpp Require Import base list gmap strings.
From S2P Require Import TierExpr TierText TierEditor Prelude JsString JsNum Json JsTable Regex BillingExpr ModelPricing.

Inductive failure := TypeError | OtherShape | Thrown (e : exn).

Definition andThen {A B} (r : failure + A) (f : A -> failure + B) : failure + B :=
  match r with inl e => inl e | inr x => f x end.

Notation "'try' x <- r ; k" := (andThen r (fun x => k)) (at level 200, x pattern, r at level 100, k at level 200) : js_scope.

(** [safeJsonParse(value, { fallback })] *)
Definition safeJsonParse (value : jstr) (fallback : jv) : jv :=
  if (negb (truthy value) || (trim value =s []))%bool then fallback
  else match json_parse (trim value) with Some v => v | None => fallback end.

Definition as_record (v : jv) : failure + Table :=
  match v with JObj l => inr l | JNull => inl TypeError | _ => inl OtherShape end.

(** The ten options; a model has its entries under its name. *)
Record Options := MkOptions { op_prices : Prices jstr; op_billingMode : jstr; op_billingExpr : jstr }.
Record Tables := MkTables { tb_prices : Prices Table; tb_billingMode : Table; tb_billingExpr : Table }.

Definition parse_table (text : jstr) : failure + Table := as_record (safeJsonParse text (JObj [])).

Definition parse_prices (p : Prices jstr) : failure + Prices Table :=
  try a <- parse_table (price p); try b <- parse_table (ratio p); try c <- parse_table (cacheRatio p);
  try d <- parse_table (createCacheRatio p); try e <- parse_table (completionRatio p); try f <- parse_table (imageRatio p);
  try g <- parse_table (audioRatio p); try h <- parse_table (audioCompletionRatio p);
  inr (MkPrices a b c d e f g h).

Definition parse_options (o : Options) : failure + Tables :=
  try p <- parse_prices (op_prices o); try m <- parse_table (op_billingMode o); try e <- parse_table (op_billingExpr o);
  inr (MkTables p m e).

(** * Snapshots *)

Record ModelPricingSnapshot := MkSnapshot {
  sn_name : jstr;
  sn_prices : Prices (option jstr);
  sn_billingMode : option jstr;
  sn_billingExpr : option jstr;
  sn_requestRuleExpr : option jstr;
  hasConflict : bool
}.

Definition hasPricingValue (value : option jstr) : bool := truthy (value ?? []).

Definition isBasePricingUnset (snapshot : option ModelPricingSnapshot) : bool :=
  match snapshot with
  | None => true
  | Some s =>
      (negb (bool_decide (sn_billingMode s = Some (js "tiered_expr"))) &&
       negb (hasPricingValue (price (sn_prices s))) && negb (hasPricingValue (ratio (sn_prices s))))%bool
  end.

Definition snapshot_number (value : option jstr) : option num :=
  match value with
  | None => None
  | Some s => if negb (truthy s) then None else let x := num_of_string s in if num_is_finite x then Some x else None
  end.

Definition ratioToPrice (r denominator : option jstr) : jstr :=
  let d := if hasPricingValue denominator then snapshot_number denominator else Some (num_of_Z 2) in
  match snapshot_number r, d with
  | Some x, Some y => formatPricingNumber (JNum (num_mul x y))
  | _, _ => []
  end.

Definition getModeLabel (mode : option jstr) : jstr :=
  if bool_decide (mode = Some (js "per-request")) then js "Per-request"
  else if bool_decide (mode = Some (js "tiered_expr")) then js "Expression" else js "Per-token".

Definition getModeVariant (mode : option jstr) : jstr :=
  if bool_decide (mode = Some (js "per-request")) then js "warning"
  else if bool_decide (mode = Some (js "tiered_expr")) then js "info" else js "success".

Definition getExpressionSummary (row : ModelPricingSnapshot) : jstr :=
  let tierCount := length (exec_all (RLit (js "tier(")) (sn_billingExpr row ?? [])) in
  if Nat.ltb 0 tierCount
  then js "Tiered pricing" ++ [32%N; 183%N; 32%N] ++ print_N (N.of_nat tierCount) ++ js " tiers"
  else js "Expression pricing".

Definition mode_is (m : jstr) (row : ModelPricingSnapshot) : bool := bool_decide (sn_billingMode row = Some m).

Definition EXTRA_RATIOS : list Field := [CompletionRatio; CacheRatio; CreateCacheRatio; ImageRatio; AudioRatio; AudioCompletionRatio].

Definition getPriceSummary (row : ModelPricingSnapshot) : jstr :=
  if mode_is (js "tiered_expr") row then getExpressionSummary row
  else if mode_is (js "per-request") row then
    match price (sn_prices row) with
    | Some p => if truthy p then js "$" ++ p ++ js " / request" else js "Unset price"
    | None => js "Unset price"
    end
  else
    let inputPrice := ratioToPrice (ratio (sn_prices row)) None in
    if negb (truthy inputPrice) then js "Unset price"
    else
      let extraCount := length (List.filter (fun f => hasPricingValue (get f (sn_prices row))) EXTRA_RATIOS) in
      let input := js "Input $" ++ inputPrice in
      if Nat.ltb 0 extraCount then input ++ [32%N; 183%N; 32%N] ++ print_N (N.of_nat extraCount) ++ js " extras" else input.

Definition getPriceDetail (row : ModelPricingSnapshot) : jstr :=
  if mode_is (js "tiered_expr") row then
    if truthy (sn_requestRuleExpr row ?? []) then js "Includes request rules" else js "Expression based"
  else if mode_is (js "per-request") row then js "Fixed request price"
  else
    let inputPrice := ratioToPrice (ratio (sn_prices row)) None in
    if negb (truthy inputPrice) then js "No base input price"
    else
      let detail title f :=
        if hasPricingValue (get f (sn_prices row))
        then [title ++ js " $" ++ ratioToPrice (get f (sn_prices row)) (Some inputPrice)] else [] in
      let details := take 2 (detail (js "Output") CompletionRatio ++ detail (js "Cache") CacheRatio ++
                             detail (js "Cache write") CreateCacheRatio) in
      match details with [] => js "Base input price only" | _ => join [32%N; 183%N; 32%N] details end.

(** [map\[name\]?.toString() || ''] *)
Definition entry_text (name : jstr) (t : Table) : jstr :=
  match map_get name t with
  | None | Some JNull | Some JUndef => []
  | Some v => or_str (jv_to_string v) []
  end.

(** [map\[name\] || ''], which is then used as a text. *)
Definition entry_string (name : jstr) (t : Table) : failure + jstr :=
  match map_get name t with
  | Some (JStr s) => inr s
  | Some v => if jv_truthy v then inl TypeError else inr []
  | None => inr []
  end.

Definition model_names (t : Tables) : list jstr :=
  let p := tb_prices t in
  uniq (obj_keys (price p) ++ obj_keys (ratio p) ++ obj_keys (cacheRatio p) ++ obj_keys (createCacheRatio p) ++
        obj_keys (completionRatio p) ++ obj_keys (imageRatio p) ++ obj_keys (audioRatio p) ++
        obj_keys (audioCompletionRatio p) ++ obj_keys (tb_billingMode t) ++ obj_keys (tb_billingExpr t)).

Definition RATIO_FIELDS : list Field := [Ratio; CompletionRatio; CacheRatio; CreateCacheRatio; ImageRatio; AudioRatio; AudioCompletionRatio].

Definition is_tiered (name : jstr) (t : Tables) : bool :=
  match map_get name (tb_billingMode t) with Some (JStr m) => m =s js "tiered_expr" | _ => false end.

Definition split_parts (fullExpr : jstr) : failure + (jstr * jstr) :=
  match splitBillingExprAndRequestRules fullExpr with inl e => inl (Thrown e) | inr r => inr r end.

Definition snapshot_of (t : Tables) (name : jstr) : failure + ModelPricingSnapshot :=
  let p := tabulate (fun f => entry_text name (get f (tb_prices t))) in
  let texts := tabulate (fun f => Some (get f p)) in
  if is_tiered name t then
    try fullExpr <- entry_string name (tb_billingExpr t);
    andThen (split_parts fullExpr) (fun '(pureExpr, rules) =>
      inr (MkSnapshot name texts (Some (js "tiered_expr")) (Some pureExpr) (Some rules) false))
  else
    inr (MkSnapshot name texts (Some (if truthy (price p) then js "per-request" else js "per-token")) None None
           (truthy (price p) && existsb (fun f => truthy (get f p)) RATIO_FIELDS)%bool).

Fixpoint map_all {A B} (f : A -> failure + B) (l : list A) : failure + list B :=
  match l with
  | [] => inr []
  | x :: l => try y <- f x; try ys <- map_all f l; inr (y :: ys)
  end.

Definition buildModelSnapshots (o : Options) : failure + list ModelPricingSnapshot :=
  try t <- parse_options o; map_all (snapshot_of t) (model_names t).

Definition getSnapshotSignature (snapshot : option ModelPricingSnapshot) : jstr :=
  match snapshot with
  | None => []
  | Some s =>
      let text f := JStr (or_str (get f (sn_prices s) ?? []) []) in
      json_stringify (JObj [
        (js "price", text Price); (js "ratio", text Ratio); (js "cacheRatio", text CacheRatio);
        (js "createCacheRatio", text CreateCacheRatio); (js "completionRatio", text CompletionRatio);
        (js "imageRatio", text ImageRatio); (js "audioRatio", text AudioRatio);
        (js "audioCompletionRatio", text AudioCompletionRatio);
        (js "billingMode", JStr (or_str (sn_billingMode s ?? []) (js "per-token")));
        (js "billingExpr", JStr (or_str (sn_billingExpr s ?? []) []));
        (js "requestRuleExpr", JStr (or_str (sn_requestRuleExpr s ?? []) []))])
  end.

(** * The table of models *)

Record ModelRow := MkModelRow {
  displayed : ModelPricingSnapshot;
  saved : option ModelPricingSnapshot;
  drafted : option ModelPricingSnapshot;
  isDraftChanged : bool;
  isDraftDeleted : bool;
  isDraftNew : bool
}.

Definition by_name (name : jstr) (rows : list ModelPricingSnapshot) : option ModelPricingSnapshot :=
  List.find (fun s => sn_name s =s name) rows.

Definition unset_snapshot (name : jstr) : ModelPricingSnapshot :=
  MkSnapshot name (tabulate (fun _ => None)) (Some (js "per-token")) None None false.

Definition model_row (savedRows draftRows : list ModelPricingSnapshot) (name : jstr) : ModelRow :=
  let s := by_name name savedRows in
  let d := by_name name draftRows in
  MkModelRow (or_else s d ?? unset_snapshot name) s d
    (negb (getSnapshotSignature s =s getSnapshotSignature d))
    (is_some s && negb (is_some d))%bool (negb (is_some s) && is_some d)%bool.

Section Rows.
(** [a.localeCompare(b)], which the host's collation gives. *)
Context (localeCompare : jstr -> jstr -> Z).

Definition build_rows (unsetOnly : bool) (candidates : list jstr) (savedRows draftRows : list ModelPricingSnapshot) : list ModelRow :=
  let names := if unsetOnly then uniq candidates else uniq (List.map sn_name savedRows ++ List.map sn_name draftRows) in
  sort_by (fun a b => localeCompare (sn_name (displayed a)) (sn_name (displayed b)))
    (List.filter (fun r => negb unsetOnly || isBasePricingUnset (saved r))%bool
       (List.filter (fun r => negb (isDraftDeleted r)) (List.map (model_row savedRows draftRows) names))).

Definition models (unsetOnly : bool) (candidates : list jstr) (savedOptions draftOptions : Options) : failure + list ModelRow :=
  try s <- buildModelSnapshots savedOptions; try d <- buildModelSnapshots draftOptions;
  inr (build_rows unsetOnly candidates s d).
End Rows.

(** [modeCounts]: the counts per token, per request and by expression. *)
Definition modeCounts (rows : list ModelRow) : nat * nat * nat :=
  fold_left (fun '(a, b, c) r =>
    if mode_is (js "per-request") (displayed r) then (a, S b, c)
    else if mode_is (js "tiered_expr") (displayed r) then (a, b, S c) else (S a, b, c)) rows (0, 0, 0).

(** What opening the editor on a row edits. *)
Definition edit_data (row : ModelRow) : ModelRatioData :=
  let s := or_else (drafted row) (saved row) ?? displayed row in
  let mode := if mode_is (js "tiered_expr") s then TieredExpr
              else if hasPricingValue (price (sn_prices s)) then PerRequest else PerToken in
  MkData (sn_name s) (sn_prices s) (Some mode) (sn_billingExpr s) (sn_requestRuleExpr s).

(** * Changing the options *)

Definition delete_entries (name : jstr) (t : Tables) : Tables :=
  MkTables (tabulate (fun f => map_del name (get f (tb_prices t)))) (map_del name (tb_billingMode t)) (map_del name (tb_billingExpr t)).

Definition write_options (t : Tables) : Options :=
  MkOptions (tabulate (fun f => json_stringify2 (JObj (get f (tb_prices t))))) (json_stringify2 (JObj (tb_billingMode t)))
    (json_stringify2 (JObj (tb_billingExpr t))).

Definition handleDelete (name : jstr) (o : Options) : failure + Options :=
  try t <- parse_options o; inr (write_options (delete_entries name t)).

Definition setIfPresent (name : jstr) (value : option jstr) (t : Table) : Table :=
  match value with
  | Some s =>
      if truthy s then let parsed := parse_float s in if num_is_finite parsed then obj_set name (JNum parsed) t else t else t
  | None => t
  end.

Definition set_fields (fields : list Field) (name : jstr) (p : Prices (option jstr)) (t : Prices Table) : Prices Table :=
  tabulate (fun f => if bool_decide (f ∈ fields) then setIfPresent name (get f p) (get f t) else get f t).

Definition ALL_FIELDS : list Field := Price :: RATIO_FIELDS.

(** Writing the prices of [data] for one model. *)
Definition persist_name (data : ModelRatioData) (t : Tables) (name : jstr) : Tables :=
  let t := delete_entries name t in
  match d_billingMode data with
  | Some TieredExpr =>
      let combined := combineBillingExpr (d_billingExpr data ?? []) (d_requestRuleExpr data ?? []) in
      MkTables (set_fields ALL_FIELDS name (d_prices data) (tb_prices t))
        (if truthy combined then obj_set name (JStr (js "tiered_expr")) (tb_billingMode t) else tb_billingMode t)
        (if truthy combined then obj_set name (JStr combined) (tb_billingExpr t) else tb_billingExpr t)
  | _ =>
      let fields := if truthy (price (d_prices data) ?? []) then [Price] else RATIO_FIELDS in
      MkTables (set_fields fields name (d_prices data) (tb_prices t)) (tb_billingMode t) (tb_billingExpr t)
  end.

Definition persistPricingData (data : ModelRatioData) (targetNames : list jstr) (o : Options) : failure + Options :=
  try t <- parse_options o; inr (write_options (fold_left (persist_name data) targetNames t)).

(** The models a batch copy writes. *)
Definition batch_targets (source : ModelRatioData) (selected : list jstr) : list jstr := uniq (d_name source :: selected).

(** * Reading what was written *)

Lemma stringify_object l : exists u, json_stringify2 (JObj l) = 123%N :: u ++ [125%N].
Proof.
  unfold json_stringify2. cbn [stringify_gap]. cbv zeta.
  match goal with |- context [match ?p with [] => _ | _ => _ end] => destruct p end; [by exists []|].
  change (js "{") with [123%N]. change (js "}") with [125%N]. eexists. rewrite !app_assoc. reflexivity.
Qed.

Lemma parse_written t : plain_table t -> parse_table (json_stringify2 (JObj t)) = inr t.
Proof.
  intros Ht. unfold parse_table, safeJsonParse. destruct (stringify_object t) as [u E].
  assert (Htr : trim (json_stringify2 (JObj t)) = json_stringify2 (JObj t)).
  { rewrite E. apply trim_id. split; intros x; [by intros [= <-]|]. rewrite app_comm_cons, last_snoc. by intros [= <-]. }
  rewrite Htr. rewrite (proj2 (truthy_true _)) by (by rewrite E). rewrite (proj2 (jstr_eqb_false _ _)) by (by rewrite E).
  cbn [negb orb]. by rewrite json_parse_stringify.
Qed.

(** Tables that can be written. *)
Record plain_tables (t : Tables) : Prop := {
  pt_prices : forall f, plain_table (get f (tb_prices t));
  pt_mode : plain_table (tb_billingMode t);
  pt_expr : plain_table (tb_billingExpr t) }.

Lemma parse_prices_written p : (forall f, plain_table (get f p)) -> 
  parse_prices (tabulate (fun f => json_stringify2 (JObj (get f p)))) = inr p.
Proof.
  intros H. unfold parse_prices, tabulate.
  cbn [price ratio cacheRatio createCacheRatio completionRatio imageRatio audioRatio audioCompletionRatio].
  rewrite !parse_written by apply H. by destruct p.
Qed.

Lemma parse_write_options t : plain_tables t -> parse_options (write_options t) = inr t.
Proof.
  intros [Hp Hm He]. unfold parse_options, write_options. cbn [op_prices op_billingMode op_billingExpr].
  rewrite parse_prices_written by done. cbn [andThen]. rewrite !parse_written by done. by destruct t.
Qed.

(** ** What is saved for a model *)

Definition is_tiered_data (data : ModelRatioData) : bool := bool_decide (d_billingMode data = Some TieredExpr).

Definition written_fields (data : ModelRatioData) : list Field :=
  if is_tiered_data data then ALL_FIELDS
  else if truthy (price (d_prices data) ?? []) then [Price] else RATIO_FIELDS.

Definition field_number (v : option jstr) : option num :=
  match v with
  | Some s => if (truthy s && num_is_finite (parse_float s))%bool then Some (parse_float s) else None
  | None => None
  end.

Definition saved_number (data : ModelRatioData) (f : Field) : option num :=
  if bool_decide (f ∈ written_fields data) then field_number (get f (d_prices data)) else None.

Definition saved_expr (data : ModelRatioData) : option jstr :=
  let combined := combineBillingExpr (d_billingExpr data ?? []) (d_requestRuleExpr data ?? []) in
  if (is_tiered_data data && truthy combined)%bool then Some combined else None.

(** Data whose numbers and texts can be written as JSON. *)
Record savable (data : ModelRatioData) : Prop := {
  sv_number : forall f x, saved_number data f = Some x -> num_reads x;
  sv_expr : forall e, saved_expr data = Some e -> units_ok e }.

Lemma setIfPresent_number n v t :
  setIfPresent n v t = match field_number v with Some x => obj_set n (JNum x) t | None => t end.
Proof. unfold setIfPresent, field_number. destruct v as [s|]; [|done]. destruct (truthy s); [|done]. cbn [andb]. by destruct (num_is_finite _). Qed.

(** Replacing the entry of a model. *)
Definition put_entry (n : jstr) (v : option jv) (t : Table) : Table :=
  match v with Some v => obj_set n v (map_del n t) | None => map_del n t end.

Lemma persist_name_entries data t n :
  persist_name data t n =
  MkTables (tabulate (fun f => put_entry n (JNum <$> saved_number data f) (get f (tb_prices t))))
    (put_entry n (match saved_expr data with Some _ => Some (JStr (js "tiered_expr")) | None => None end) (tb_billingMode t))
    (put_entry n (JStr <$> saved_expr data) (tb_billingExpr t)).
Proof.
  assert (Hset : forall fields, (forall f, bool_decide (f ∈ written_fields data) = bool_decide (f ∈ fields)) ->
    set_fields fields n (d_prices data) (tabulate (fun f => map_del n (get f (tb_prices t)))) =
    tabulate (fun f => put_entry n (JNum <$> saved_number data f) (get f (tb_prices t)))).
  { intros fields Hf. apply prices_eq. intros f. unfold set_fields. rewrite !get_tabulate. unfold saved_number. rewrite Hf.
    destruct (bool_decide _); [|done]. rewrite setIfPresent_number. by destruct (field_number _). }
  unfold persist_name, delete_entries, saved_expr, is_tiered_data. cbn [tb_prices tb_billingMode tb_billingExpr].
  destruct (d_billingMode data) as [[]|] eqn:Em; cbn [andb].
  1, 2, 4: rewrite bool_decide_false by done; cbn [andb]; f_equal; apply Hset; intros f; unfold written_fields, is_tiered_data;
    rewrite Em; reflexivity.
  rewrite bool_decide_true by done. cbn [andb]. rewrite Hset; [by destruct (truthy _)|].
  intros f. unfold written_fields, is_tiered_data. rewrite Em. reflexivity.
Qed.

Lemma put_entry_plain n v t : plain_table t -> ordinary n -> (forall x, v = Some x -> plain x) -> plain_table (put_entry n v t).
Proof.
  intros Ht Hn Hv. apply (plain_del n) in Ht. destruct v as [x|]; [|done]. unfold put_entry.
  destruct (map_set_plain n x (map_del n t)) as [H ->]; auto.
Qed.

Lemma put_entry_get n v t k :
  plain_table t -> ordinary n -> (forall x, v = Some x -> plain x) ->
  map_get k (put_entry n v t) = if decide (k = n) then v else map_get k t.
Proof.
  intros Ht Hn Hv. apply (plain_del n) in Ht. destruct v as [x|]; unfold put_entry.
  - destruct (map_set_plain n x (map_del n t)) as [_ ->]; [done|done|by apply Hv|]. rewrite map_get_set, map_get_del.
    by destruct (decide (k = n)).
  - rewrite map_get_del. by destruct (decide (k = n)).
Qed.

Definition mode_entry (data : ModelRatioData) : option jv :=
  match saved_expr data with Some _ => Some (JStr (js "tiered_expr")) | None => None end.

(** The entries of a model in all the tables. *)
Record entries := MkEntries { en_prices : Prices (option jv); en_mode : option jv; en_expr : option jv }.

Definition entries_of (t : Tables) (k : jstr) : entries :=
  MkEntries (tabulate (fun f => map_get k (get f (tb_prices t)))) (map_get k (tb_billingMode t)) (map_get k (tb_billingExpr t)).

Definition saved_entries (data : ModelRatioData) : entries :=
  MkEntries (tabulate (fun f => JNum <$> saved_number data f)) (mode_entry data) (JStr <$> saved_expr data).

Lemma savable_plain data : savable data ->
  (forall f x, JNum <$> saved_number data f = Some x -> plain x) /\
  (forall x, mode_entry data = Some x -> plain x) /\ (forall x, JStr <$> saved_expr data = Some x -> plain x).
Proof.
  intros [Hx He]. split_and!.
  - intros f x. destruct (saved_number data f) as [y|] eqn:E; [|done]. intros [= <-]. by apply (Hx f).
  - unfold mode_entry. destruct (saved_expr data); [|done]. intros x [= <-]. cbn [plain]. units_done.
  - intros x. destruct (saved_expr data) as [y|] eqn:E; [|done]. intros [= <-]. by apply He.
Qed.

Lemma persist_name_spec data t n :
  savable data -> plain_tables t -> ordinary n ->
  plain_tables (persist_name data t n) /\
  forall k, entries_of (persist_name data t n) k = if decide (k = n) then saved_entries data else entries_of t k.
Proof.
  intros Hd [Hp Hm He] Hn. destruct (savable_plain data Hd) as (H1 & H2 & H3). rewrite persist_name_entries.
  fold (mode_entry data). split.
  - split; cbn [tb_prices tb_billingMode tb_billingExpr]; [intros f; rewrite get_tabulate|..]; apply put_entry_plain; auto. apply H1.
  - intros k. unfold entries_of. cbn [tb_prices tb_billingMode tb_billingExpr]. rewrite !put_entry_get by auto.
    unfold saved_entries. destruct (decide (k = n)) as [->|Hk].
    + f_equal. apply prices_eq. intros f. rewrite !get_tabulate, put_entry_get by (auto; apply H1). by rewrite decide_True.
    + f_equal. apply prices_eq. intros f. rewrite !get_tabulate, put_entry_get by (auto; apply H1). by rewrite decide_False.
Qed.

Lemma persist_names_spec data names : forall t,
  savable data -> plain_tables t -> Forall ordinary names ->
  plain_tables (fold_left (persist_name data) names t) /\
  forall k, entries_of (fold_left (persist_name data) names t) k = if decide (k ∈ names) then saved_entries data else entries_of t k.
Proof.
  induction names as [|n names IH]; intros t Hd Ht Hn; [split; [done|]; intros k; by rewrite decide_False by apply not_elem_of_nil|].
  apply Forall_cons in Hn as [Hn Hns]. destruct (persist_name_spec data t n Hd Ht Hn) as [Hp He].
  destruct (IH _ Hd Hp Hns) as [Hp' He']. split; [done|]. intros k. cbn [fold_left]. rewrite He', He.
  destruct (decide (k ∈ names)) as [Hin|Hin]; [by rewrite decide_True by (by right)|].
  destruct (decide (k = n)) as [->|Hk]; [by rewrite decide_True by left|]. rewrite decide_False; [done|].
  by intros [|]%elem_of_cons.
Qed.

Lemma delete_entries_spec t n :
  plain_tables t ->
  plain_tables (delete_entries n t) /\
  forall k, entries_of (delete_entries n t) k = if decide (k = n) then MkEntries (tabulate (fun _ => None)) None None else entries_of t k.
Proof.
  intros [Hp Hm He]. unfold delete_entries. split.
  - split; cbn [tb_prices tb_billingMode tb_billingExpr]; [intros f; rewrite get_tabulate|..]; apply plain_del; auto.
  - intros k. unfold entries_of. cbn [tb_prices tb_billingMode tb_billingExpr]. rewrite !map_get_del.
    destruct (decide (k = n)); f_equal; apply prices_eq; intros f; rewrite !get_tabulate, map_get_del; by destruct (decide _).
Qed.

(** ** The snapshot of a model depends on its entries *)

Definition snapshot_of_entries (e : entries) (name : jstr) : failure + ModelPricingSnapshot :=
  let one (o : option jv) : Table := match o with Some v => [(name, v)] | None => [] end in
  snapshot_of (MkTables (tabulate (fun f => one (get f (en_prices e)))) (one (en_mode e)) (one (en_expr e))) name.

Lemma get_one (name : jstr) (o : option jv) : map_get name (match o with Some v => [(name, v)] | None => [] end) = o.
Proof. destruct o; [|done]. cbn [map_get]. by rewrite bool_decide_true. Qed.

Lemma snapshot_entries t name : snapshot_of t name = snapshot_of_entries (entries_of t name) name.
Proof.
  unfold snapshot_of_entries, snapshot_of. cbv zeta. cbn [tb_prices tb_billingMode tb_billingExpr].
  assert (Et : forall f, entry_text name (get f (tb_prices t)) =
    entry_text name (get f (tabulate (fun f => match get f (en_prices (entries_of t name)) with Some v => [(name, v)] | None => [] end)))).
  { intros f. unfold entry_text. rewrite get_tabulate, get_one. unfold entries_of. cbn [en_prices]. by rewrite get_tabulate. }
  assert (Ep : tabulate (fun f => entry_text name (get f (tb_prices t))) =
    tabulate (fun f => entry_text name (get f (tabulate (fun f => match get f (en_prices (entries_of t name)) with Some v => [(name, v)] | None => [] end))))).
  { apply prices_eq. intros f. rewrite !get_tabulate. etransitivity; [apply Et|]. by rewrite !get_tabulate. }
  rewrite Ep. unfold is_tiered, entry_string. cbn [tb_billingMode tb_billingExpr]. rewrite !get_one. done.
Qed.

(** ** The rows *)

Definition present (e : entries) : bool :=
  (existsb (fun f => is_some (get f (en_prices e))) ALL_FIELDS || is_some (en_mode e) || is_some (en_expr e))%bool.

Lemma names_present t name : name ∈ model_names t <-> present (entries_of t name) = true.
Proof.
  unfold model_names, present, entries_of. rewrite uniq_elem, !elem_of_app. unfold obj_keys. rewrite <-!map_get_elem.
  cbn [en_prices en_mode en_expr]. unfold ALL_FIELDS, RATIO_FIELDS. cbn [existsb]. rewrite !get_tabulate. cbn [get].
  rewrite !orb_true_iff. intuition congruence.
Qed.

Lemma snapshot_name t name s : snapshot_of t name = inr s -> sn_name s = name.
Proof.
  unfold snapshot_of. cbv zeta. destruct (is_tiered name t); [|by intros [= <-]].
  destruct (entry_string _ _) as [|e]; [done|]. cbn [andThen]. destruct (split_parts e) as [|[a b]]; [done|]. by intros [= <-].
Qed.

Lemma map_all_some {A B} (f : A -> failure + B) l : (forall x, x ∈ l -> exists y, f x = inr y) -> exists ys, map_all f l = inr ys.
Proof.
  induction l as [|x l IH]; intros H; [by exists []|]. destruct (H x ltac:(left)) as [y Hy].
  destruct IH as [ys Hys]; [intros z Hz; apply H; by right|]. exists (y :: ys). cbn [map_all]. by rewrite Hy, Hys.
Qed.

Lemma map_all_cons {A B} (f : A -> failure + B) x l ys :
  map_all f (x :: l) = inr ys -> exists y ys', f x = inr y /\ map_all f l = inr ys' /\ ys = y :: ys'.
Proof.
  cbn [map_all]. destruct (f x) as [|y]; [done|]. cbn [andThen]. destruct (map_all f l) as [|ys']; [done|].
  intros [= <-]. by exists y, ys'.
Qed.

Lemma rows_by_name t names rows name :
  map_all (snapshot_of t) names = inr rows ->
  by_name name rows = if decide (name ∈ names) then match snapshot_of t name with inr s => Some s | inl _ => None end else None.
Proof.
  revert rows. induction names as [|n names IH]; intros rows.
  - intros [= <-]. by rewrite decide_False by apply not_elem_of_nil.
  - intros (s & rows' & Hs & Hr & ->)%map_all_cons. unfold by_name. cbn [List.find].
    rewrite (snapshot_name _ _ _ Hs). destruct (n =s name) eqn:E.
    + apply jstr_eqb_true in E as ->. rewrite decide_True by left. by rewrite Hs.
    + apply jstr_eqb_false in E. fold (by_name name rows'). rewrite (IH rows' Hr).
      destruct (decide (name ∈ names)); [by rewrite decide_True by (by right)|]. rewrite decide_False; [done|].
      by intros [->|]%elem_of_cons.
Qed.

(** The row of a model among the rows of the tables. *)
Definition row_of (t : Tables) (name : jstr) : option ModelPricingSnapshot :=
  if present (entries_of t name) then match snapshot_of t name with inr s => Some s | inl _ => None end else None.

Definition readable_tables (t : Tables) : Prop := forall name, present (entries_of t name) = true -> exists s, snapshot_of t name = inr s.

Lemma rows_of_tables o t :
  parse_options o = inr t -> readable_tables t ->
  exists rows, buildModelSnapshots o = inr rows /\ forall name, by_name name rows = row_of t name.
Proof.
  intros Ho Ht. unfold buildModelSnapshots. rewrite Ho. cbn [andThen].
  destruct (map_all_some (snapshot_of t) (model_names t)) as [rows Hr]; [intros name Hn; by apply Ht, names_present|].
  exists rows. split; [done|]. intros name. rewrite (rows_by_name _ _ _ _ Hr). unfold row_of.
  destruct (decide (name ∈ model_names t)) as [Hn|Hn]; rewrite names_present in Hn; [by rewrite Hn|].
  by destruct (present _).
Qed.

Lemma rows_readable o t rows : parse_options o = inr t -> buildModelSnapshots o = inr rows -> readable_tables t.
Proof.
  intros Ho Hb name Hn. unfold buildModelSnapshots in Hb. rewrite Ho in Hb. cbn [andThen] in Hb.
  apply names_present in Hn. revert rows Hb. induction (model_names t) as [|n names IH]; intros rows Hb; [by apply not_elem_of_nil in Hn|].
  apply map_all_cons in Hb as (s & rows' & Hs & Hr & ->). apply elem_of_cons in Hn as [->|Hn]; [by exists s|by eapply IH].
Qed.

Lemma row_of_entries t t' name : entries_of t name = entries_of t' name -> row_of t name = row_of t' name.
Proof. intros E. unfold row_of. by rewrite !snapshot_entries, E. Qed.

(** ** The snapshot that data stand for *)

Definition saved_text (data : ModelRatioData) (f : Field) : jstr :=
  match saved_number data f with Some x => num_to_string x | None => [] end.

Definition saved_snapshot (data : ModelRatioData) (name : jstr) : failure + ModelPricingSnapshot :=
  let texts := tabulate (fun f => Some (saved_text data f)) in
  match saved_expr data with
  | Some e => andThen (split_parts e) (fun '(a, b) => inr (MkSnapshot name texts (Some (js "tiered_expr")) (Some a) (Some b) false))
  | None =>
      let p := truthy (saved_text data Price) in
      inr (MkSnapshot name texts (Some (if p then js "per-request" else js "per-token")) None None
             (p && existsb (fun f => truthy (saved_text data f)) RATIO_FIELDS)%bool)
  end.

Lemma or_str_nil s : or_str s [] = s.
Proof. by destruct s. Qed.

Lemma saved_entries_snapshot data name : snapshot_of_entries (saved_entries data) name = saved_snapshot data name.
Proof.
  unfold snapshot_of_entries, snapshot_of, saved_snapshot, saved_entries. cbv zeta. cbn [tb_prices tb_billingMode tb_billingExpr en_prices en_mode en_expr].
  assert (Et : forall f, entry_text name (match JNum <$> saved_number data f with Some v => [(name, v)] | None => [] end) = saved_text data f).
  { intros f. unfold entry_text, saved_text. rewrite get_one. destruct (saved_number data f); [|done]. apply or_str_nil. }
  match goal with |- context [@tabulate jstr ?g] => assert (Ep : tabulate g = tabulate (saved_text data)) end.
  { apply prices_eq. intros f. rewrite !get_tabulate. apply Et. }
  rewrite Ep. unfold is_tiered, entry_string, mode_entry. cbn [tb_billingMode tb_billingExpr]. rewrite !get_one.
  destruct (saved_expr data) as [e|]; done.
Qed.

Definition priced (data : ModelRatioData) : bool := present (saved_entries data).

Lemma persist_rows (data : ModelRatioData) (names : list jstr) (o : Options) (t : Tables) (rows : list ModelPricingSnapshot) :
  parse_options o = inr t -> plain_tables t -> buildModelSnapshots o = inr rows ->
  savable data -> Forall ordinary names -> (forall name, name ∈ names -> exists s, saved_snapshot data name = inr s) ->
  exists o' rows', persistPricingData data names o = inr o' /\ buildModelSnapshots o' = inr rows' /\
    forall name, by_name name rows' =
      if decide (name ∈ names)
      then if priced data then match saved_snapshot data name with inr s => Some s | inl _ => None end else None
      else by_name name rows.
Proof.
  intros Ho Ht Hb Hd Hn Hs. unfold persistPricingData. rewrite Ho. cbn [andThen].
  destruct (persist_names_spec data names t Hd Ht Hn) as [Ht' He]. set (t' := fold_left _ names t) in *.
  pose proof (rows_readable o t rows Ho Hb) as Hr. eexists. destruct (rows_of_tables o t Ho Hr) as (rows0 & Hb0 & Hrows).
  rewrite Hb in Hb0. injection Hb0 as <-.
  assert (Hr' : readable_tables t').
  { intros name. rewrite snapshot_entries, He. destruct (decide (name ∈ names)); [rewrite saved_entries_snapshot; auto|].
    rewrite <-snapshot_entries. apply Hr. }
  destruct (rows_of_tables (write_options t') t' (parse_write_options t' Ht') Hr') as (rows' & Hb' & Hrows').
  exists rows'. split; [reflexivity|]. split; [done|]. intros name. rewrite Hrows', Hrows. unfold row_of.
  rewrite !snapshot_entries, !He. destruct (decide (name ∈ names)); [|done]. by rewrite saved_entries_snapshot.
Qed.

(** C2: saving prices for models: afterwards each of them has the row its data
    stand for, or none when the data hold no price, and every other model has
    the row it had. *)
Theorem persist_reads (data : ModelRatioData) (names : list jstr) (o : Options) (t : Tables) (rows : list ModelPricingSnapshot) :
  parse_options o = inr t -> plain_tables t -> buildModelSnapshots o = inr rows ->
  savable data -> Forall ordinary names -> (forall name, name ∈ names -> exists s, saved_snapshot data name = inr s) ->
  exists o' rows', persistPricingData data names o = inr o' /\ buildModelSnapshots o' = inr rows' /\
    forall name, by_name name rows' =
      if decide (name ∈ names)
      then if priced data then match saved_snapshot data name with inr s => Some s | inl _ => None end else None
      else by_name name rows.
Proof. exact (persist_rows data names o t rows). Qed.

(** Deleting a model removes its row and no other. *)
Theorem delete_reads (n : jstr) (o : Options) (t : Tables) (rows : list ModelPricingSnapshot) :
  parse_options o = inr t -> plain_tables t -> buildModelSnapshots o = inr rows ->
  exists o' rows', handleDelete n o = inr o' /\ buildModelSnapshots o' = inr rows' /\
    forall name, by_name name rows' = if decide (name = n) then None else by_name name rows.
Proof.
  intros Ho Ht Hb. unfold handleDelete. rewrite Ho. cbn [andThen]. destruct (delete_entries_spec t n Ht) as [Ht' He].
  pose proof (rows_readable o t rows Ho Hb) as Hr. destruct (rows_of_tables o t Ho Hr) as (rows0 & Hb0 & Hrows).
  rewrite Hb in Hb0. injection Hb0 as <-. set (t' := delete_entries n t) in *.
  assert (Hr' : readable_tables t').
  { intros name. rewrite snapshot_entries, He. destruct (decide (name = n)); [done|]. rewrite <-snapshot_entries. apply Hr. }
  destruct (rows_of_tables (write_options t') t' (parse_write_options t' Ht') Hr') as (rows' & Hb' & Hrows').
  eexists _, rows'. split; [reflexivity|]. split; [done|]. intros name. rewrite Hrows', Hrows. unfold row_of.
  rewrite !snapshot_entries, !He. by destruct (decide (name = n)).
Qed.

(** ** Opening a model and saving it as it is *)

(** A stored number that is written and read as a number of the panel. *)
Record stored (x : num) : Prop := {
  so_reads : num_reads x;
  so_finite : num_is_finite x = true;
  so_parses : parse_float (num_to_string x) = x }.

(** The entries of a model that the page has written. *)
Record canonical_entries (e : entries) : Prop := {
  ce_prices : forall f, get f (en_prices e) = None \/ exists x, get f (en_prices e) = Some (JNum x) /\ stored x;
  ce_expr : (en_mode e = None /\ en_expr e = None) \/
    exists text a b, en_mode e = Some (JStr (js "tiered_expr")) /\ en_expr e = Some (JStr text) /\
      splitBillingExprAndRequestRules text = inr (a, b) /\ truthy (combineBillingExpr a b) = true /\
      splitBillingExprAndRequestRules (combineBillingExpr a b) = inr (a, b) /\ units_ok (combineBillingExpr a b) }.

Definition entry_value (e : entries) (f : Field) : jstr :=
  match get f (en_prices e) with Some (JNum x) => num_to_string x | _ => [] end.

Lemma stored_text x : stored x -> truthy (num_to_string x) = true /\ field_number (Some (num_to_string x)) = Some x.
Proof.
  intros [[(c & u & E & _) _] Hf Hp]. unfold json_num in E. rewrite Hf in E.
  assert (Ht : truthy (num_to_string x) = true) by (by rewrite E). split; [done|].
  unfold field_number. by rewrite Ht, Hp, Hf.
Qed.

Lemma shown_canonical e f name : canonical_entries e ->
  entry_text name (match get f (en_prices e) with Some v => [(name, v)] | None => [] end) = entry_value e f /\
  field_number (Some (entry_value e f)) = match get f (en_prices e) with Some (JNum x) => Some x | _ => None end.
Proof.
  intros [Hp _]. unfold entry_text, entry_value. rewrite get_one. destruct (Hp f) as [->|(x & -> & Hx)]; [done|].
  destruct (stored_text x Hx) as [Ht Hn]. split; [apply or_str_nil|done].
Qed.

Definition row_prices (e : entries) : Prices (option jstr) := tabulate (fun f => Some (entry_value e f)).

(** The snapshot of canonical entries. *)
Lemma canonical_snapshot e name : canonical_entries e ->
  snapshot_of_entries e name =
  match en_expr e with
  | Some (JStr text) =>
      match splitBillingExprAndRequestRules text with
      | inr (a, b) => inr (MkSnapshot name (row_prices e) (Some (js "tiered_expr")) (Some a) (Some b) false)
      | inl x => inl (Thrown x)
      end
  | _ =>
      let p := truthy (entry_value e Price) in
      inr (MkSnapshot name (row_prices e) (Some (if p then js "per-request" else js "per-token")) None None
             (p && existsb (fun f => truthy (entry_value e f)) RATIO_FIELDS)%bool)
  end.
Proof.
  intros He. unfold snapshot_of_entries, snapshot_of. cbv zeta. cbn [tb_prices tb_billingMode tb_billingExpr].
  match goal with |- context [@tabulate jstr ?g] => assert (Ep : tabulate g = tabulate (entry_value e)) end.
  { apply prices_eq. intros f. rewrite !get_tabulate. by apply shown_canonical. }
  assert (Et : tabulate (fun f => Some (get f (tabulate (entry_value e)))) = row_prices e).
  { apply prices_eq. intros f. unfold row_prices. by rewrite !get_tabulate. }
  rewrite Ep, Et. unfold is_tiered, entry_string. cbn [tb_billingMode tb_billingExpr]. rewrite !get_one.
  destruct (ce_expr e He) as [[-> ->]|(text & a & b & -> & -> & Hs & _)].
  - done.
  - change (js "tiered_expr" =s js "tiered_expr") with true. cbn [andThen]. unfold split_parts. by rewrite Hs.
Qed.

(** The data the panel submits for a snapshot that was opened and not changed. *)
Definition resubmitted (s : ModelPricingSnapshot) (p : Panel) : ModelRatioData :=
  buildSubmitData (panel_reset (Some (edit_data (MkModelRow s None (Some s) false false false))) p).

Lemma resubmitted_fields s p f : get f (d_prices (resubmitted s p)) = Some (or_empty (get f (sn_prices s))).
Proof.
  unfold resubmitted, buildSubmitData, panel_reset. cbn [d_prices form edit_data drafted or_else nullish].
  rewrite !get_tabulate. by rewrite or_str_nil.
Qed.

Lemma resubmitted_mode s p :
  d_billingMode (resubmitted s p) =
    Some (if mode_is (js "tiered_expr") s then TieredExpr else if truthy (price (sn_prices s) ?? []) then PerRequest else PerToken).
Proof.
  unfold resubmitted, buildSubmitData, panel_reset. cbn [d_billingMode pricingMode edit_data drafted or_else nullish d_prices get].
  unfold hasPricingValue. by destruct (mode_is (js "tiered_expr") s), (truthy (price (sn_prices s) ?? [])).
Qed.

Lemma resubmitted_expr s p : mode_is (js "tiered_expr") s = true ->
  d_billingExpr (resubmitted s p) = Some (or_empty (sn_billingExpr s)) /\
  d_requestRuleExpr (resubmitted s p) = Some (or_empty (sn_requestRuleExpr s)).
Proof.
  intros H. unfold resubmitted, buildSubmitData, panel_reset.
  cbn [d_billingExpr d_requestRuleExpr pricingMode p_billingExpr p_requestRuleExpr edit_data drafted or_else nullish d_prices d_billingMode].
  by rewrite H.
Qed.

Lemma all_fields f : f ∈ ALL_FIELDS.
Proof. unfold ALL_FIELDS, RATIO_FIELDS. destruct f; set_solver. Qed.

Lemma ratio_fields f : f ∈ RATIO_FIELDS <-> f <> Price.
Proof. unfold RATIO_FIELDS. destruct f; set_solver. Qed.

Section Resubmit.
Context (e : entries) (name : jstr) (s : ModelPricingSnapshot) (p : Panel).
Context (He : canonical_entries e) (Hs : snapshot_of_entries e name = inr s) (Hc : hasConflict s = false).
Let d := resubmitted s p.

(** The snapshot, by its two shapes. *)
Lemma snapshot_shape :
  (en_mode e = None /\ en_expr e = None /\
   s = MkSnapshot name (row_prices e) (Some (if truthy (entry_value e Price) then js "per-request" else js "per-token")) None None false /\
   (truthy (entry_value e Price) = true -> forall f, f <> Price -> entry_value e f = [])) \/
  (exists a b, en_mode e = Some (JStr (js "tiered_expr")) /\
     s = MkSnapshot name (row_prices e) (Some (js "tiered_expr")) (Some a) (Some b) false /\
     truthy (combineBillingExpr a b) = true /\ splitBillingExprAndRequestRules (combineBillingExpr a b) = inr (a, b) /\
     units_ok (combineBillingExpr a b)).
Proof.
  pose proof Hs as H. rewrite canonical_snapshot in H by done.
  destruct (ce_expr e He) as [[Em Ee]|(text & a & b & Em & Ee & E & Ht & Hsp & Hu)]; rewrite Ee in H.
  - left. split; [done|]. split; [done|]. cbv zeta in H.
    assert (Es : s = MkSnapshot name (row_prices e) (Some (if truthy (entry_value e Price) then js "per-request" else js "per-token"))
      None None (truthy (entry_value e Price) && existsb (fun f => truthy (entry_value e f)) RATIO_FIELDS)%bool) by congruence.
    clear H. rewrite Es in Hc |- *. cbn [hasConflict] in Hc. rewrite Hc. split; [done|]. intros Hp f Hf. rewrite Hp in Hc. cbn [andb] in Hc.
    destruct (truthy (entry_value e f)) eqn:E; [|by destruct (entry_value e f)]. exfalso.
    apply not_true_iff_false in Hc. apply Hc, existsb_exists. exists f. split; [|done]. by apply list_elem_of_In, ratio_fields.
  - right. rewrite E in H. exists a, b. split; [done|]. split; [congruence|done].
Qed.

Lemma snapshot_prices : sn_prices s = row_prices e /\ sn_name s = name.
Proof. by destruct snapshot_shape as [(_ & _ & -> & _)|(a & b & _ & -> & _)]. Qed.

Lemma resubmitted_texts f : saved_text d f = entry_value e f.
Proof.
  assert (Hf : get f (d_prices d) = Some (entry_value e f)).
  { unfold d. rewrite resubmitted_fields. destruct snapshot_prices as [-> _]. unfold row_prices. rewrite get_tabulate.
    unfold or_empty. cbn [nullish]. by rewrite or_str_nil. }
  assert (Hin : f ∈ written_fields d -> saved_text d f = entry_value e f).
  { intros Hf'. unfold saved_text, saved_number. rewrite bool_decide_true, Hf by done.
    destruct (shown_canonical e f name He) as [_ ->]. unfold entry_value. by destruct (get f (en_prices e)) as [[]|]. }
  destruct (decide (f ∈ written_fields d)) as [|Hn]; [by apply Hin|]. clear Hin.
  unfold saved_text, saved_number. rewrite bool_decide_false by done. symmetry.
  destruct snapshot_shape as [(_ & _ & Es & Hz)|(a & b & _ & Es & _)].
  - assert (Hmode : is_tiered_data d = false).
    { unfold is_tiered_data, d. rewrite resubmitted_mode, Es. unfold mode_is. cbn [sn_billingMode].
      by destruct (truthy (entry_value e Price)), (truthy _). }
    assert (Hprice : price (d_prices d) ?? [] = entry_value e Price).
    { change (price (d_prices d)) with (get Price (d_prices d)). unfold d. rewrite resubmitted_fields, Es. cbn [sn_prices].
      unfold row_prices. rewrite get_tabulate. unfold or_empty. cbn [nullish]. by rewrite or_str_nil. }
    unfold written_fields in Hn. rewrite Hmode, Hprice in Hn. destruct (truthy (entry_value e Price)) eqn:Et.
    + apply Hz; [done|]. intros ->. apply Hn. left.
    + rewrite ratio_fields in Hn. destruct (decide (f = Price)) as [->|]; [by destruct (entry_value e Price)|by destruct Hn].
  - exfalso. apply Hn. unfold written_fields, is_tiered_data, d. rewrite resubmitted_mode, Es. unfold mode_is. cbn [sn_billingMode].
    rewrite bool_decide_true by done. apply all_fields.
Qed.

(** The expression that is submitted, by the same shapes. *)
Lemma resubmitted_saved_expr :
  (en_mode e = None /\ en_expr e = None /\ saved_expr d = None) \/
  (exists a b, s = MkSnapshot name (row_prices e) (Some (js "tiered_expr")) (Some a) (Some b) false /\
     saved_expr d = Some (combineBillingExpr a b) /\
     splitBillingExprAndRequestRules (combineBillingExpr a b) = inr (a, b) /\ units_ok (combineBillingExpr a b)).
Proof.
  unfold saved_expr, is_tiered_data, d. rewrite resubmitted_mode.
  destruct snapshot_shape as [(Em & Ee & Es & _)|(a & b & _ & Es & Ht & Hsp & Hu)].
  - left. split; [done|]. split; [done|]. rewrite Es. unfold mode_is. cbn [sn_billingMode].
    by destruct (truthy (entry_value e Price)), (truthy _).
  - right. exists a, b. split; [done|]. assert (Hm : mode_is (js "tiered_expr") s = true) by (by rewrite Es).
    destruct (resubmitted_expr s p Hm) as [Ea Eb]. rewrite Hm, Ea, Eb, Es, bool_decide_true by done.
    cbn [sn_billingExpr sn_requestRuleExpr nullish andb]. unfold or_empty. cbn [nullish]. by rewrite !or_str_nil, Ht.
Qed.

Lemma resubmitted_snapshot : saved_snapshot d name = inr s.
Proof.
  assert (Ep : tabulate (fun f => Some (saved_text d f)) = row_prices e).
  { apply prices_eq. intros f. unfold row_prices. rewrite !get_tabulate. by rewrite resubmitted_texts. }
  unfold saved_snapshot. cbv zeta. rewrite Ep, resubmitted_texts.
  destruct resubmitted_saved_expr as [(Em & Ee & ->)|(a & b & Es & -> & Hsp & _)].
  - destruct snapshot_shape as [(_ & _ & Es & Hz)|(a & b & Em' & _)]; [|congruence]. rewrite Es. do 2 f_equal. 
    apply andb_false_iff. destruct (truthy (entry_value e Price)) eqn:Et; [right|by left].
    destruct (existsb _ _) eqn:Ex; [|done]. apply existsb_exists in Ex as (f & Hf & Hv). rewrite resubmitted_texts, Hz in Hv; [done|done|].
    by apply ratio_fields, list_elem_of_In.
  - unfold split_parts. rewrite Hsp. cbn [andThen]. congruence.
Qed.

Lemma resubmitted_number f : saved_number d f <> None -> saved_number d f = field_number (Some (entry_value e f)).
Proof.
  intros H. unfold saved_number in *. destruct (bool_decide _); [|done]. unfold d. rewrite resubmitted_fields.
  destruct snapshot_prices as [-> _]. unfold row_prices. rewrite get_tabulate. unfold or_empty. cbn [nullish]. by rewrite or_str_nil.
Qed.

Lemma resubmitted_savable : savable d.
Proof.
  split.
  - intros f x Hx. rewrite resubmitted_number in Hx by congruence. destruct (shown_canonical e f name He) as [_ Hn].
    rewrite Hn in Hx. destruct (ce_prices e He f) as [E|(y & E & Hy)]; rewrite E in Hx; [done|]. injection Hx as <-. apply Hy.
  - intros x Hx. destruct resubmitted_saved_expr as [(_ & _ & E)|(a & b & _ & E & _ & Hu)]; congruence.
Qed.

Lemma resubmitted_priced : present e = true -> priced d = true.
Proof.
  unfold priced, present. intros H. apply orb_true_iff.
  destruct resubmitted_saved_expr as [(Em & Ee & _)|(a & b & _ & E & _)].
  - left. apply orb_true_iff. left. rewrite Em, Ee, !orb_false_r in H. apply existsb_exists in H as (f & _ & Hf).
    apply existsb_exists. exists f. split; [apply list_elem_of_In, all_fields|].
    unfold saved_entries. cbn [en_prices]. rewrite get_tabulate. pose proof (resubmitted_texts f) as Et. unfold saved_text, entry_value in Et.
    destruct (ce_prices e He f) as [E|(x & E & Hx)]; rewrite E in Hf, Et; [done|].
    destruct (stored_text x Hx) as [Ht _]. destruct (saved_number d f); [done|]. by rewrite <-Et in Ht.
  - right. unfold saved_entries. cbn [en_expr]. by rewrite E.
Qed.
End Resubmit.

(** Opening a model whose expression the visual editor wrote, or that has none,
    leaves the panel as its own effect set it. *)
Lemma open_keeps n row s p :
  drafted row = Some s ->
  (mode_is (js "tiered_expr") s = true ->
   written_visually (or_empty (sn_billingExpr s)) (or_empty (sn_requestRuleExpr s))) ->
  panel_open (S n) (Some (edit_data row)) p = inr (panel_reset (Some (edit_data row)) p).
Proof.
  intros Hd Hw. apply show_tiers_keeps. unfold panel_reset, edit_data. rewrite Hd.
  cbn [or_else pricingMode p_billingExpr p_requestRuleExpr d_billingMode d_billingExpr d_requestRuleExpr].
  cbn [nullish]. destruct (mode_is (js "tiered_expr") s) eqn:Em; [by intros _; apply Hw|].
  destruct (hasPricingValue _), (truthy _); discriminate.
Qed.

(** C32: opening a model in the editor and saving it without a change keeps the rows
    of all models. This is for a model whose numbers are as the page writes them,
    that has not both a fixed price and ratios, and whose expression and rules, if
    it has an expression, are as the visual editor writes them: the editor of
    expressions, which opens with the model, rewrites others
    ([opened_and_saved_lost]). The model opens, however often the panel renders. *)
Theorem save_unchanged (row : ModelRow) (s : ModelPricingSnapshot) (p : Panel) (n : nat)
    (o : Options) (t : Tables) (rows : list ModelPricingSnapshot) :
  parse_options o = inr t -> plain_tables t -> buildModelSnapshots o = inr rows ->
  drafted row = Some s -> by_name (sn_name s) rows = Some s -> hasConflict s = false ->
  canonical_entries (entries_of t (sn_name s)) -> ordinary (sn_name s) -> trim (sn_name s) = sn_name s ->
  (mode_is (js "tiered_expr") s = true ->
   written_visually (or_empty (sn_billingExpr s)) (or_empty (sn_requestRuleExpr s))) ->
  exists p', panel_open (S n) (Some (edit_data row)) p = inr p' /\
  forall d, commitDraft p' = Some d ->
  exists o' rows', persistPricingData d [d_name d] o = inr o' /\ buildModelSnapshots o' = inr rows' /\
    forall name, by_name name rows' = by_name name rows.
Proof.
  intros Ho Ht Hb Hd Hrow Hc He Hord Htrim Hvis. eexists. split; [by eapply open_keeps|]. intros d Hcommit.
  set (name := sn_name s) in *.
  pose proof (rows_readable o t rows Ho Hb) as Hr. destruct (rows_of_tables o t Ho Hr) as (rows0 & Hb0 & Hrows).
  rewrite Hb in Hb0. injection Hb0 as <-. rewrite Hrows in Hrow. unfold row_of in Hrow.
  destruct (present (entries_of t name)) eqn:Hp; [|done]. destruct (snapshot_of t name) as [|s'] eqn:Es; [done|].
  injection Hrow as ->. rewrite snapshot_entries in Es.
  assert (Ed : d = resubmitted s p).
  { unfold commitDraft in Hcommit. destruct (truthy _); [|done]. destruct (validatePricingValues _); [done|].
    injection Hcommit as <-. unfold resubmitted, edit_data. by rewrite Hd. }
  assert (En : d_name d = name).
  { rewrite Ed. exact Htrim. }
  pose proof (resubmitted_snapshot _ _ _ p He Es Hc) as Hsnap. pose proof (resubmitted_savable _ _ _ p He Es Hc) as Hsav.
  pose proof (resubmitted_priced _ _ _ p He Es Hc Hp) as Hpri. rewrite En. rewrite Ed in *. clear Ed En Hcommit.
  destruct (persist_rows (resubmitted s p) [name] o t rows) as (o' & rows' & H1 & H2 & H3); try done.
  - by apply Forall_singleton.
  - intros m ->%list_elem_of_singleton. by exists s.
  - exists o', rows'. split; [done|]. split; [done|]. intros m. rewrite H3. destruct (decide (m ∈ [name])) as [->%list_elem_of_singleton|]; [|done].
    rewrite Hpri, Hsnap. rewrite Hrows. unfold row_of. by rewrite Hp, snapshot_entries, Es.
Qed.

(** While the field of the fixed price holds a number, what is saved is a model
    with that fixed price and no ratios, also when the panel is switched to
    prices per token: the mode of the panel is not looked at. *)
Theorem fixed_price_shadows_per_token (p : Panel) (name : jstr) (s : ModelPricingSnapshot) :
  is_some (field_number (Some (get Price (form p)))) = true ->
  truthy (num_to_string (parse_float (get Price (form p)))) = true ->
  saved_snapshot (buildSubmitData (panel_handleModeChange PerToken p)) name = inr s ->
  sn_billingMode s = Some (js "per-request") /\ forall f, f <> Price -> get f (sn_prices s) = Some [].
Proof.
  intros Hn Ht. set (d := buildSubmitData _).
  assert (E : get Price (d_prices d) = Some (get Price (form p))).
  { unfold d, buildSubmitData. cbn [d_prices]. by rewrite get_tabulate, or_str_nil. }
  assert (Hw : written_fields d = [Price]).
  { unfold written_fields. change (is_tiered_data d) with false. change (price (d_prices d)) with (get Price (d_prices d)).
    rewrite E. unfold field_number in Hn. cbn [nullish]. by destruct (truthy (get Price (form p))). }
  assert (Hz : forall f, f <> Price -> saved_text d f = []).
  { intros f Hf. unfold saved_text, saved_number. rewrite Hw, bool_decide_false; [done|]. by intros ->%list_elem_of_singleton. }
  assert (Hp : truthy (saved_text d Price) = true).
  { unfold saved_text, saved_number. rewrite Hw, bool_decide_true, E by by apply list_elem_of_singleton.
    unfold field_number in *. by destruct (_ && _)%bool. }
  unfold saved_snapshot. change (saved_expr d) with (@None jstr). cbv zeta. rewrite Hp. intros [= <-]. split; [done|].
  intros f Hf. cbn [sn_prices]. by rewrite get_tabulate, Hz.
Qed.

(** * Rows that differ *)

(** The fields of a snapshot, an absent one as the signature shows it. *)
Definition shown_fields (s : ModelPricingSnapshot) : Prices jstr * (jstr * jstr * jstr) :=
  (tabulate (fun f => get f (sn_prices s) ?? []),
   (or_str (sn_billingMode s ?? []) (js "per-token"), sn_billingExpr s ?? [], sn_requestRuleExpr s ?? [])).

(** Texts of the host are sequences of 16 bit units. *)
Definition units_snapshot (s : ModelPricingSnapshot) : Prop :=
  (forall f, units_ok (get f (sn_prices s) ?? [])) /\ units_ok (sn_billingMode s ?? []) /\
  units_ok (sn_billingExpr s ?? []) /\ units_ok (sn_requestRuleExpr s ?? []).

Definition signature_value (s : ModelPricingSnapshot) : jv :=
  let '(p, (m, e, r)) := shown_fields s in
  JObj (List.map (fun '(k, v) => (k, JStr v))
    [(js "price", price p); (js "ratio", ratio p); (js "cacheRatio", cacheRatio p); (js "createCacheRatio", createCacheRatio p);
     (js "completionRatio", completionRatio p); (js "imageRatio", imageRatio p); (js "audioRatio", audioRatio p);
     (js "audioCompletionRatio", audioCompletionRatio p); (js "billingMode", m); (js "billingExpr", e); (js "requestRuleExpr", r)]).

Lemma signature_stringify s : getSnapshotSignature (Some s) = json_stringify (signature_value s).
Proof. unfold getSnapshotSignature, signature_value, shown_fields. rewrite !or_str_nil. done. Qed.

Lemma signature_nonempty s : getSnapshotSignature (Some s) <> [].
Proof. discriminate. Qed.

Lemma units_or_str s d : units_ok s -> units_ok d -> units_ok (or_str s d).
Proof. unfold or_str. by destruct (truthy s). Qed.

Lemma signature_plain s : units_snapshot s -> plain (signature_value s).
Proof.
  intros (Hp & Hm & He & Hr). unfold signature_value, shown_fields. rewrite plain_obj. split; [|split].
  - apply (bool_decide_unpack _). vm_compute. exact I.
  - cbn [List.map]. csimpl. repeat (apply Forall_cons; split; [split; [units_done|vm_compute; reflexivity]|]). constructor.
  - cbn [List.map fmap list_fmap snd plain_list foldr plain]. 
    split_and!; try apply (Hp Price); try apply (Hp Ratio); try apply (Hp CacheRatio); try apply (Hp CreateCacheRatio);
      try apply (Hp CompletionRatio); try apply (Hp ImageRatio); try apply (Hp AudioRatio); try apply (Hp AudioCompletionRatio); try done.
    apply units_or_str; [done|units_done].
Qed.

Lemma signature_value_inj a b : signature_value a = signature_value b -> shown_fields a = shown_fields b.
Proof.
  unfold signature_value. destruct (shown_fields a) as [p [[m e] r]], (shown_fields b) as [q [[m' e'] r']].
  cbn [List.map]. intros [= H1 H2 H3 H4 H5 H6 H7 H8 -> -> ->]. f_equal. destruct p, q. cbn in *. by subst.
Qed.

(** A row is marked as changed exactly when the draft and the saved prices of
    its model differ in a field, or only one of them exists. *)
Theorem changed_iff_different (savedRows draftRows : list ModelPricingSnapshot) (name : jstr) :
  Forall units_snapshot savedRows -> Forall units_snapshot draftRows ->
  isDraftChanged (model_row savedRows draftRows name) = true <->
  shown_fields <$> by_name name savedRows <> shown_fields <$> by_name name draftRows.
Proof.
  intros Hs Hd. unfold model_row. cbn [isDraftChanged].
  assert (Hu : forall rows s, Forall units_snapshot rows -> by_name name rows = Some s -> units_snapshot s).
  { intros rows s H E. unfold by_name in E. apply find_some in E as [Hin _]. rewrite Forall_forall in H. by apply H, list_elem_of_In. }
  rewrite negb_true_iff, jstr_eqb_false.
  destruct (by_name name savedRows) as [a|] eqn:Ea, (by_name name draftRows) as [b|] eqn:Eb; cbn [fmap option_fmap option_map].
  - rewrite !signature_stringify. pose proof (signature_plain a (Hu _ _ Hs Ea)) as Pa. pose proof (signature_plain b (Hu _ _ Hd Eb)) as Pb.
    split; intros H E; apply H.
    + assert (Es : shown_fields a = shown_fields b) by congruence. unfold signature_value. by rewrite Es.
    + f_equal. apply signature_value_inj. pose proof (json_parse_compact _ Pa) as E1. rewrite E, json_parse_compact in E1 by done.
      congruence.
  - split; [done|]. intros _. apply signature_nonempty.
  - split; [done|]. intros _ E. by apply (signature_nonempty b).
  - split; intros H; by destruct H.
Qed.

(** * Examples *)

Definition sample_tables : Tables :=
  MkTables (put Price [(js "dall", JNum (num_of_Z 2))]
      (put Ratio [(js "gpt", JNum (num_of_Z 5)); (js "claude", JNum (num_of_Z 3))]
        (put CompletionRatio [(js "gpt", JNum (num_of_Z 4))] (tabulate (fun _ => [])))))
    [(js "claude", JStr (js "tiered_expr"))]
    [(js "claude", JStr (jq "tier(`base`, p * 3 + c * 15)"))].

Definition sample_options : Options := write_options sample_tables.

Ltac plain_table_done :=
  apply plain_table_spec; split; [apply (bool_decide_unpack _); vm_compute; exact I|];
  split; csimpl; repeat (apply Forall_cons; split; [first [split; [units_done|vm_compute; reflexivity] |
    cbn [plain]; first [units_done | apply num_reads_digits; vm_compute; reflexivity]]|]); apply Forall_nil_2.

Lemma sample_plain : plain_tables sample_tables.
Proof.
  split; [intros []|..]; unfold sample_tables; cbn [tb_prices tb_billingMode tb_billingExpr get put tabulate]; 
    plain_table_done.
Qed.

Definition sample_rows : list ModelPricingSnapshot :=
  match buildModelSnapshots sample_options with inr rows => rows | inl _ => [] end.

Lemma sample_parses : parse_options sample_options = inr sample_tables.
Proof. apply parse_write_options, sample_plain. Qed.

Lemma sample_rows_read : buildModelSnapshots sample_options = inr sample_rows.
Proof. vm_compute. reflexivity. Qed.

(** The price 10 and the output price 40. *)
Definition sample_data : ModelRatioData :=
  MkData (js "gpt") (put Ratio (Some (js "5")) (put CompletionRatio (Some (js "4")) (tabulate (fun _ => Some []))))
    (Some PerToken) None None.

Lemma sample_savable : savable sample_data.
Proof.
  split; [|discriminate]. intros f x H.
  destruct f; vm_compute in H; try discriminate H; injection H as <-; apply num_reads_digits; vm_compute; reflexivity.
Qed.

Lemma persist_reads_witness :
  exists o' rows', persistPricingData sample_data [js "dall"; js "new"] sample_options = inr o' /\
    buildModelSnapshots o' = inr rows' /\ by_name (js "gpt") rows' = by_name (js "gpt") sample_rows /\
    match by_name (js "dall") rows' with Some s => sn_billingMode s = Some (js "per-token") | None => False end.
Proof.
  destruct (persist_reads sample_data [js "dall"; js "new"] sample_options sample_tables sample_rows)
    as (o' & rows' & H1 & H2 & H3).
  - exact sample_parses.
  - exact sample_plain.
  - exact sample_rows_read.
  - exact sample_savable.
  - repeat (apply Forall_cons; split; [split; [units_done|vm_compute; reflexivity]|]). constructor.
  - intros name _. eexists. reflexivity.
  - exists o', rows'. split; [exact H1|]. split; [exact H2|]. split; [rewrite H3; reflexivity|]. rewrite H3. reflexivity.
Defined.

Lemma delete_reads_witness :
  exists o' rows', handleDelete (js "gpt") sample_options = inr o' /\ buildModelSnapshots o' = inr rows' /\
    by_name (js "gpt") rows' = None.
Proof.
  destruct (delete_reads (js "gpt") sample_options sample_tables sample_rows sample_parses sample_plain sample_rows_read)
    as (o' & rows' & H1 & H2 & H3).
  exists o', rows'. split; [exact H1|]. split; [exact H2|]. rewrite H3. reflexivity.
Defined.

Definition claude_row : ModelRow := model_row sample_rows sample_rows (js "claude").

Lemma stored_digits x :
  canonical_digits (json_num x) = true -> num_of_dec false (digits_value (json_num x)) 0 = x -> num_is_finite x = true ->
  parse_float (num_to_string x) = x -> stored x.
Proof. intros H1 H2 H3 H4. split; [by apply num_reads_digits|done|done]. Qed.

(** The tier of "claude". *)
Definition claude_tier : list VisualTier :=
  [VTier (js "base") [] (num_of_Z 3) (num_of_Z 15) CACHE_MODE_GENERIC []].

Lemma claude_presentable : presentable claude_tier.
Proof.
  split; [done|]. apply Forall_singleton. split; [|by apply nested_plain].
  split; [reflexivity|check_num|check_num| |constructor].
  apply extras_check. unfold EXTRA_FIELDS. repeat (apply Forall_cons; split; [check_num|]). constructor.
Qed.

Lemma claude_commits :
  match panel_open 5 (Some (edit_data claude_row)) panel_initial with inr p => is_some (commitDraft p) | inl _ => false end = true.
Proof. vm_compute. reflexivity. Qed.

Lemma save_unchanged_witness :
  exists p' d o' rows', panel_open 5 (Some (edit_data claude_row)) panel_initial = inr p' /\ commitDraft p' = Some d /\
    persistPricingData d [d_name d] sample_options = inr o' /\ buildModelSnapshots o' = inr rows' /\
    by_name (js "dall") rows' = by_name (js "dall") sample_rows /\ by_name (js "claude") rows' = by_name (js "claude") sample_rows.
Proof.
  destruct (drafted claude_row) as [s|] eqn:Es; [|vm_compute in Es; discriminate Es].
  destruct (save_unchanged claude_row s panel_initial 4 sample_options sample_tables sample_rows) as (p' & Hp & Hsave).
  - exact sample_parses.
  - exact sample_plain.
  - exact sample_rows_read.
  - exact Es.
  - vm_compute in Es. injection Es as <-. vm_compute. reflexivity.
  - vm_compute in Es. injection Es as <-. reflexivity.
  - assert (En : sn_name s = js "claude") by (vm_compute in Es; injection Es as <-; reflexivity). rewrite En. split.
    + intros []; vm_compute; try (left; reflexivity). right. eexists. split; [reflexivity|]. apply stored_digits; vm_compute; reflexivity.
    + right. eexists _, _, _. split; [vm_compute; reflexivity|]. split; [vm_compute; reflexivity|].
      split; [vm_compute; reflexivity|]. split; [vm_compute; reflexivity|]. split; [vm_compute; reflexivity|].
      apply units_check. vm_compute. reflexivity.
  - assert (En : sn_name s = js "claude") by (vm_compute in Es; injection Es as <-; reflexivity). rewrite En.
    split; [units_done|vm_compute; reflexivity].
  - assert (En : sn_name s = js "claude") by (vm_compute in Es; injection Es as <-; reflexivity). rewrite En. vm_compute. reflexivity.
  - intros _. exists claude_tier, []. split; [exact claude_presentable|]. split; [constructor|].
    vm_compute in Es. injection Es as <-. split; vm_compute; reflexivity.
  - destruct (commitDraft p') as [d|] eqn:Ed.
    + destruct (Hsave d eq_refl) as (o' & rows' & H1 & H2 & H3).
      exists p', d, o', rows'. split; [exact Hp|]. split; [exact Ed|]. split; [exact H1|]. split; [exact H2|]. split; apply H3.
    + exfalso. pose proof claude_commits as H. rewrite Hp, Ed in H. discriminate H.
Defined.

(** An expression that the visual editor does not read: opening the model and
    saving it stores the expression that charges nothing. *)
Example opened_and_saved_lost :
  let o := write_options (MkTables (tabulate (fun _ => [])) [(js "m", JStr (js "tiered_expr"))] [(js "m", JStr (js "p * 2 + c * 4"))]) in
  match buildModelSnapshots o with
  | inr rows =>
      match panel_open 4 (Some (edit_data (model_row rows rows (js "m")))) panel_initial with
      | inr p =>
          match commitDraft p with
          | Some d => d_billingExpr d = Some (js "p * 0 + c * 0") /\
              match persistPricingData d [d_name d] o with
              | inr o' => op_billingExpr o' <> op_billingExpr o
              | inl _ => False
              end
          | None => False
          end
      | inl _ => False
      end
  | inl _ => False
  end.
Proof. vm_compute. split; [reflexivity|]. intros H. discriminate H. Qed.

Definition switched_panel : Panel := panel_reset (Some (edit_data (model_row sample_rows sample_rows (js "dall")))) panel_initial.

Lemma fixed_price_shadows_per_token_witness :
  pricingMode switched_panel = PerRequest /\
  exists s, saved_snapshot (buildSubmitData (panel_handleModeChange PerToken (handlePromptPriceChange (js "10") switched_panel))) (js "dall") = inr s /\
    sn_billingMode s = Some (js "per-request") /\ get Ratio (sn_prices s) = Some [].
Proof.
  split; [vm_compute; reflexivity|]. eexists. split; [reflexivity|].
  destruct (fixed_price_shadows_per_token (handlePromptPriceChange (js "10") switched_panel) (js "dall") _
    ltac:(vm_compute; reflexivity) ltac:(vm_compute; reflexivity) eq_refl) as [H1 H2].
  split; [exact H1|]. apply H2. discriminate.
Defined.

Definition units_text (s : jstr) : bool := forallb (fun c => (c <? 65536)%N) s.

Definition units_row (s : ModelPricingSnapshot) : bool :=
  (forallb (fun f => units_text (get f (sn_prices s) ?? [])) ALL_FIELDS &&
   (units_text (sn_billingMode s ?? []) && (units_text (sn_billingExpr s ?? []) && units_text (sn_requestRuleExpr s ?? []))))%bool.

Lemma units_rows rows : forallb units_row rows = true -> Forall units_snapshot rows.
Proof.
  intros H. apply Forall_forall. intros s Hs. rewrite forallb_forall in H. apply list_elem_of_In, H in Hs.
  unfold units_row in Hs. rewrite !andb_true_iff in Hs. destruct Hs as (Hp & Hm & He & Hr).
  split; [|split_and!; by apply units_check]. intros f. rewrite forallb_forall in Hp. apply units_check, Hp, list_elem_of_In, all_fields.
Qed.

Lemma changed_iff_different_witness :
  isDraftChanged (model_row sample_rows [] (js "gpt")) = true.
Proof.
  apply (changed_iff_different sample_rows [] (js "gpt")).
  - apply units_rows. vm_compute. reflexivity.
  - constructor.
  - vm_compute. discriminate.
Defined.
