(* ===== verification/UpstreamSync.v ===== *)
(** Synchronising prices with upstream channels
    (system-settings/models/upstream-ratio-sync-helpers.ts,
    upstream-ratio-sync.tsx, upstream-ratio-sync-table.tsx): the differences the
    server found, the values selected from them, and the options that are written.
    A name of a model is taken not to be one of the properties every object has. *)

From Stdlib Require Import NArith ZArith Lia ZifyBool ZifyN SpecFloat.
From stdpp Require Import base list gmap strings.
From S2P Require Import Prelude JsString JsNum Json JsTable ModelPricing ModelPricingStore.

(** * Fields and differences *)

Inductive RatioType :=
| model_ratio | completion_ratio | cache_ratio | create_cache_ratio | image_ratio | audio_ratio | audio_completion_ratio
| model_price | billing_mode | billing_expr.

#[export] Instance ratio_type_eq_dec : EqDecision RatioType.
Proof. solve_decision. Defined.

Definition ratio_text (rt : RatioType) : jstr :=
  js match rt with
     | model_ratio => "model_ratio" | completion_ratio => "completion_ratio" | cache_ratio => "cache_ratio"
     | create_cache_ratio => "create_cache_ratio" | image_ratio => "image_ratio" | audio_ratio => "audio_ratio"
     | audio_completion_ratio => "audio_completion_ratio" | model_price => "model_price" | billing_mode => "billing_mode"
     | billing_expr => "billing_expr"
     end%string.

Record RatioDifferenceEntry := MkDiff { current : jv; upstreams : list (jstr * jv); confidence : list (jstr * bool) }.

(** [Partial<Record<RatioType, RatioDifferenceEntry>>], in the order of its properties. *)
Definition RatioTypes : Type := list (RatioType * RatioDifferenceEntry).
Definition DifferencesMap : Type := list (jstr * RatioTypes).

(** What is selected for a model, and for every model. *)
Definition Resolution : Type := list (RatioType * jv).
Definition ResolutionsMap : Type := list (jstr * Resolution).

Record ResolutionSelection := MkSel { s_model : jstr; s_ratioType : RatioType; s_value : jv; s_source : jstr }.

Definition RATIO_SYNC_FIELDS : list RatioType :=
  [model_ratio; completion_ratio; cache_ratio; create_cache_ratio; image_ratio; audio_ratio; audio_completion_ratio].
Definition SYNC_FIELD_ORDER : list RatioType := RATIO_SYNC_FIELDS ++ [model_price; billing_mode; billing_expr].
Definition NUMERIC_SYNC_FIELDS : list RatioType := RATIO_SYNC_FIELDS ++ [model_price].

Definition mem (rt : RatioType) (l : list RatioType) : bool := bool_decide (rt ∈ l).

(** [!filter || filter === '__all__'] *)
Definition passes (filter : jstr) (rt : RatioType) : bool :=
  if (negb (truthy filter) || (filter =s js "__all__"))%bool then true else ratio_text rt =s filter.

Definition getOrderedRatioTypes (ratioTypes : RatioTypes) (filter : jstr) : list RatioType :=
  let keys := ratioTypes.*1 in
  let ordered := List.filter (fun f => mem f keys) SYNC_FIELD_ORDER ++ List.filter (fun f => negb (mem f SYNC_FIELD_ORDER)) keys in
  List.filter (passes filter) ordered.

(** [ratioTypes\[rt\]?.upstreams?.\[source\]] *)
Definition upstream_value (ratioTypes : RatioTypes) (rt : RatioType) (source : jstr) : jv :=
  match map_get rt ratioTypes with
  | Some e => nullish (map_get source (upstreams e)) JUndef
  | None => JUndef
  end.

Definition isSelectableUpstreamValue (value : jv) : bool :=
  match value with JNull | JUndef => false | JStr s => negb (s =s js "same") | _ => true end.

Definition getPreferredSyncField (ratioTypes : RatioTypes) (rt : RatioType) (source : jstr) : RatioType :=
  if (negb (bool_decide (rt = billing_expr)) && isSelectableUpstreamValue (upstream_value ratioTypes billing_expr source))%bool
  then billing_expr else rt.

Definition getVisibleRatioTypesForSource (ratioTypes : RatioTypes) (source filter : jstr) : list RatioType :=
  List.filter (fun rt => bool_decide (getPreferredSyncField ratioTypes rt source = rt)) (getOrderedRatioTypes ratioTypes filter).

Definition getAlignedRatioTypes (ratioTypes : RatioTypes) (sources : list jstr) (filter : jstr) : list RatioType :=
  let ordered := getOrderedRatioTypes ratioTypes filter in
  if Nat.eqb (length sources) 0 then ordered
  else List.filter (fun rt => existsb (fun source => mem rt (getVisibleRatioTypesForSource ratioTypes source filter)) sources) ordered.

Inductive Category := CatPrice | CatRatio | CatTiered.

#[export] Instance category_eq_dec : EqDecision Category.
Proof. solve_decision. Defined.

Definition getBillingCategory (rt : RatioType) : Category :=
  match rt with model_price => CatPrice | billing_mode | billing_expr => CatTiered | _ => CatRatio end.


(** [a === b] on numbers and strings. *)
Definition same_value (a b : jv) : bool :=
  match a, b with
  | JNum x, JNum y => num_eqb x y
  | JStr s, JStr t => s =s t
  | _, _ => false
  end.

Definition selected (resolutions : ResolutionsMap) (model : jstr) (rt : RatioType) : option jv :=
  match map_get model resolutions with Some r => map_get rt r | None => None end.

Definition isSelectedResolutionValue (resolutions : ResolutionsMap) (model : jstr) (rt : RatioType) (upstreamValue : jv) : bool :=
  if negb (isSelectableUpstreamValue upstreamValue) then false
  else match selected resolutions model rt with
       | None => false
       | Some selectedValue =>
           if mem rt NUMERIC_SYNC_FIELDS then
             let selectedNumber := jv_number selectedValue in
             let upstreamNumber := jv_number upstreamValue in
             (num_is_finite selectedNumber && num_is_finite upstreamNumber && num_eqb selectedNumber upstreamNumber)%bool
           else same_value selectedValue upstreamValue
       end.

(** * Selecting *)

(** [a ?? b] on values *)
Definition jv_nullish (a b : jv) : jv := match a with JNull | JUndef => b | _ => a end.

(** [differences\[model\] || {}] *)
Definition diffs_of (differences : DifferencesMap) (model : jstr) : RatioTypes := nullish (map_get model differences) [].

(** The field and value a selection stands for: the expression of the source when it has one. *)
Definition resolveResolutionSelection (differences : DifferencesMap) (sel : ResolutionSelection) : ResolutionSelection :=
  let modelDiffs := diffs_of differences (s_model sel) in
  let preferredType := getPreferredSyncField modelDiffs (s_ratioType sel) (s_source sel) in
  let preferredValue :=
    if bool_decide (preferredType = s_ratioType sel) then s_value sel
    else jv_nullish (upstream_value modelDiffs preferredType (s_source sel)) (s_value sel) in
  MkSel (s_model sel) preferredType preferredValue (s_source sel).

(** A field that stays when one of this category is selected: prices and ratios exclude each other. *)
Definition compatible (category : Category) (rt : RatioType) : bool :=
  negb (negb (bool_decide (category = CatTiered)) && negb (bool_decide (getBillingCategory rt = CatTiered)) &&
        negb (bool_decide (getBillingCategory rt = category))).

(** The change of one model's draft. *)
Definition select_in_draft (differences : DifferencesMap) (sel : ResolutionSelection) (draft : Resolution) : Resolution :=
  let final := resolveResolutionSelection differences sel in
  let finalType := s_ratioType final in
  let category := getBillingCategory finalType in
  let draft := List.filter (fun e => compatible category e.1) draft in
  let draft := map_set finalType (s_value final) draft in
  match category, map_get (s_model sel) differences with
  | CatTiered, Some modelDiffs =>
      let modeVal := upstream_value modelDiffs billing_mode (s_source sel) in
      let exprVal := upstream_value modelDiffs billing_expr (s_source sel) in
      let draft :=
        if isSelectableUpstreamValue modeVal then map_set billing_mode modeVal draft
        else if bool_decide (finalType = billing_expr) then map_set billing_mode (JStr (js "tiered_expr")) draft
        else draft in
      if isSelectableUpstreamValue exprVal then map_set billing_expr exprVal draft else draft
  | _, _ => draft
  end.

(** [getDraftModelResolution]: the draft so far, or a copy of what is selected. *)
Definition getDraftModelResolution (drafts resolutions : ResolutionsMap) (model : jstr) : Resolution :=
  match map_get model drafts with Some d => d | None => nullish (map_get model resolutions) [] end.

Definition applyResolutionSelectionToDraft (resolutions : ResolutionsMap) (differences : DifferencesMap) (drafts : ResolutionsMap)
    (sel : ResolutionSelection) : ResolutionsMap :=
  map_set (s_model sel) (select_in_draft differences sel (getDraftModelResolution drafts resolutions (s_model sel))) drafts.

(** A model's draft is written, or the model removed when it is empty. *)
Definition write_draft (next : ResolutionsMap) (e : jstr * Resolution) : ResolutionsMap :=
  if Nat.eqb (length e.2) 0 then map_del e.1 next else obj_set e.1 e.2 next.

Definition applyResolutionSelections (resolutions : ResolutionsMap) (differences : DifferencesMap)
    (selections : list ResolutionSelection) : ResolutionsMap :=
  if Nat.eqb (length selections) 0 then resolutions
  else fold_left write_draft (fold_left (applyResolutionSelectionToDraft resolutions differences) selections []) resolutions.

Definition applyResolutionSelection (resolutions : ResolutionsMap) (differences : DifferencesMap) (sel : ResolutionSelection) : ResolutionsMap :=
  applyResolutionSelections resolutions differences [sel].

(** [getEffectiveResolutionSelections]: the map's key is the model and the field. *)
Definition effective_step (differences : DifferencesMap) (m : list ((jstr * RatioType) * ResolutionSelection)) (sel : ResolutionSelection)
    : list ((jstr * RatioType) * ResolutionSelection) :=
  let resolved := resolveResolutionSelection differences sel in
  let category := getBillingCategory (s_ratioType resolved) in
  let m := List.filter (fun e => negb (bool_decide (s_model e.2 = s_model resolved) && negb (compatible category (s_ratioType e.2)))) m in
  map_set (s_model resolved, s_ratioType resolved) resolved m.

Definition getEffectiveResolutionSelections (differences : DifferencesMap) (selections : list ResolutionSelection) : list ResolutionSelection :=
  (fold_left (effective_step differences) selections []).*2.

(** * Removing *)

Definition ResolutionRemovalPlan : Type := list (jstr * list RatioType).

Definition delete_field (draft : Resolution) (rt : RatioType) : Resolution :=
  List.filter (fun e => negb (bool_decide (e.1 = rt) ||
                              (bool_decide (rt = billing_expr) && bool_decide (e.1 = billing_mode)) ||
                              (bool_decide (rt = billing_mode) && bool_decide (e.1 = billing_expr)))) draft.

Definition remove_step (resolutions : ResolutionsMap) (next : ResolutionsMap) (e : jstr * list RatioType) : ResolutionsMap :=
  match map_get e.1 resolutions with
  | None => next
  | Some cur => write_draft next (e.1, fold_left delete_field e.2 cur)
  end.

Definition applyResolutionRemovalPlan (resolutions : ResolutionsMap) (plan : ResolutionRemovalPlan) : ResolutionsMap :=
  fold_left (remove_step resolutions) plan resolutions.

(** [ratioTypes.add(ratioType)] on a set in the order of insertion. *)
Definition plan_add (plan : ResolutionRemovalPlan) (model : jstr) (rt : RatioType) : ResolutionRemovalPlan :=
  match map_get model plan with
  | Some types => map_set model (if mem rt types then types else types ++ [rt]) plan
  | None => map_set model [rt] plan
  end.

Definition applyResolutionRemovals (resolutions : ResolutionsMap) (removals : list (jstr * RatioType)) : ResolutionsMap :=
  applyResolutionRemovalPlan resolutions (fold_left (fun plan r => plan_add plan r.1 r.2) removals []).

Definition deleteResolutionField (resolutions : ResolutionsMap) (model : jstr) (rt : RatioType) : ResolutionsMap :=
  applyResolutionRemovals resolutions [(model, rt)].

(** * The table *)

(** [row.ratioTypes] of the rows that pass the filters. *)
Definition ModelRowDiffs : Type := jstr * RatioTypes.

(** "both fixed price and ratio" *)
Definition billingConflict (row : ModelRowDiffs) : bool :=
  let keys := row.2.*1 in (mem model_price keys && existsb (fun rt => mem rt keys) RATIO_SYNC_FIELDS)%bool.

Section Filter.
(** [String.prototype.toLowerCase]. *)
Context (toLowerCase : jstr -> jstr).

Definition filteredData (differences : DifferencesMap) (search filter : jstr) : list ModelRowDiffs :=
  let data := differences in
  let data := if truthy (trim search) then List.filter (fun row => is_some (index_of (toLowerCase search) (toLowerCase row.1))) data else data in
  if (truthy filter && negb (filter =s js "__all__"))%bool
  then List.filter (fun row => existsb (fun rt => ratio_text rt =s filter) row.2.*1) data else data.
End Filter.

Definition upstreamNames (data : list ModelRowDiffs) (filter : jstr) : list jstr :=
  uniq (concat (List.map (fun row =>
    concat (List.map (fun rt => match map_get rt row.2 with Some e => (upstreams e).*1 | None => [] end)
      (getOrderedRatioTypes row.2 filter))) data)).

(** The cells of one source that can be selected. *)
Definition row_selections (filter upstreamName : jstr) (row : ModelRowDiffs) : list ResolutionSelection :=
  List.map (fun rt => MkSel row.1 rt (upstream_value row.2 rt upstreamName) upstreamName)
    (List.filter (fun rt => isSelectableUpstreamValue (upstream_value row.2 rt upstreamName))
       (getAlignedRatioTypes row.2 [upstreamName] filter)).

Definition source_selections (data : list ModelRowDiffs) (filter upstreamName : jstr) : list ResolutionSelection :=
  concat (List.map (row_selections filter upstreamName) data).

Record UpstreamBulkSelectState := MkBulk {
  bk_selections : list ResolutionSelection; removalPlan : ResolutionRemovalPlan; selectableCount : nat; selectedCount : nat }.

Definition is_selected (resolutions : ResolutionsMap) (sel : ResolutionSelection) : bool :=
  isSelectedResolutionValue resolutions (s_model sel) (s_ratioType sel) (s_value sel).

Definition bulk_state (differences : DifferencesMap) (resolutions : ResolutionsMap) (data : list ModelRowDiffs) (filter upstreamName : jstr)
    : UpstreamBulkSelectState :=
  let selections := source_selections data filter upstreamName in
  let effectiveSelections := getEffectiveResolutionSelections differences selections in
  {| bk_selections := effectiveSelections;
     removalPlan := fold_left (fun plan sel => plan_add plan (s_model sel) (s_ratioType sel)) selections [];
     selectableCount := length effectiveSelections;
     selectedCount := length (List.filter (is_selected resolutions) effectiveSelections) |}.

(** * Writing the options *)

Definition capital (word : jstr) : jstr := match word with c :: t => upper_unit c :: t | [] => [] end.

Definition optionKeyBySyncField (rt : RatioType) : jstr :=
  match rt with
  | billing_mode => js "billing_setting.billing_mode"
  | billing_expr => js "billing_setting.billing_expr"
  | _ => concat (List.map capital (split_unit 95 (ratio_text rt)))
  end.

(** [JSON.parse(raw || '{}')], [{}] when it throws; a value that is not an object is not covered. *)
Definition parseJsonRecord (raw : jstr) : failure + Table :=
  match json_parse (or_str raw (js "{}")) with
  | Some (JObj l) => inr l
  | Some _ => inl OtherShape
  | None => inr []
  end.

(** The names of the options, in the order of the object. *)
Definition OPTION_KEYS : list jstr :=
  List.map js ["ModelRatio"; "CompletionRatio"; "CacheRatio"; "CreateCacheRatio"; "ImageRatio"; "AudioRatio"; "AudioCompletionRatio";
               "ModelPrice"; "billing_setting.billing_mode"; "billing_setting.billing_expr"]%string.

Definition RATIO_OPTIONS : list jstr := take 7 OPTION_KEYS.

(** A record with one table per option. *)
Definition Ratios : Type := list (jstr * Table).

Fixpoint parse_ratios (keys : list jstr) (texts : jstr -> jstr) : failure + Ratios :=
  match keys with
  | [] => inr []
  | k :: keys => try t <- parseJsonRecord (texts k); try rest <- parse_ratios keys texts; inr ((k, t) :: rest)
  end.

(** [parsedRatios], from the texts of the options. *)
Definition parsedRatios (modelRatios : jstr -> jstr) : failure + Ratios := parse_ratios OPTION_KEYS modelRatios.

Definition table_of (ratios : Ratios) (k : jstr) : Table := nullish (map_get k ratios) [].
Definition has_entry (ratios : Ratios) (model : jstr) (k : jstr) : bool := is_some (map_get model (table_of ratios k)).

Definition getLocalBillingCategory (model : jstr) (cur : Ratios) : option Category :=
  if has_entry cur model (js "ModelPrice") then Some CatPrice
  else if existsb (has_entry cur model) RATIO_OPTIONS then Some CatRatio
  else None.

Definition delete_entry (model : jstr) (ratios : Ratios) (k : jstr) : Ratios := map_set k (map_del model (table_of ratios k)) ratios.

(** [NUMERIC_SYNC_FIELDS.has(ratioType) ? Number(value) : value] *)
Definition stored_value (rt : RatioType) (value : jv) : jv := if mem rt NUMERIC_SYNC_FIELDS then JNum (jv_number value) else value.

(** One selected field; an option the record does not have makes the assignment throw. *)
Definition sync_field (model : jstr) (ratios : failure + Ratios) (e : RatioType * jv) : failure + Ratios :=
  try r <- ratios;
  let optionKey := optionKeyBySyncField e.1 in
  match map_get optionKey r with
  | Some t => inr (map_set optionKey (obj_set model (stored_value e.1 e.2) t) r)
  | None => inl TypeError
  end.

Definition hasPrice (r : Resolution) : bool := mem model_price r.*1.
Definition hasRatio (r : Resolution) : bool := existsb (fun rt => mem rt RATIO_SYNC_FIELDS) r.*1.

Definition sync_model (finalRatios : failure + Ratios) (e : jstr * Resolution) : failure + Ratios :=
  try r <- finalRatios;
  let r := if hasPrice e.2 then fold_left (delete_entry e.1) RATIO_OPTIONS r else r in
  let r := if hasRatio e.2 then delete_entry e.1 r (js "ModelPrice") else r in
  fold_left (sync_field e.1) e.2 (inr r).

Definition finalRatios (resolutions : ResolutionsMap) (cur : Ratios) : failure + Ratios := fold_left sync_model resolutions (inr cur).

(** The updates [performSync] sends: the key and the text of every option. *)
Definition updates_of (final : Ratios) : list (jstr * jstr) := List.map (fun e => (e.1, json_stringify2 (JObj e.2))) final.

Definition performSync (resolutions : ResolutionsMap) (cur : Ratios) : failure + list (jstr * jstr) :=
  try final <- finalRatios resolutions cur; inr (updates_of final).

(** [updateSystemOption]: what the server answers. The HTTP client reports a
    refusal to the user but does not reject it. *)
Inductive Answer := Stored | Refused | Failed.

(** The loop of the mutation: the updates the server has stored and whether the
    mutation succeeds. *)
Fixpoint send (updates : list (jstr * jstr)) (answers : list Answer) : list (jstr * jstr) * bool :=
  match updates, answers with
  | u :: us, Stored :: rest => let '(l, ok) := send us rest in (u :: l, ok)
  | _ :: us, Refused :: rest => send us rest
  | _ :: _, _ => ([], false)
  | [], _ => ([], true)
  end.

(** * Applying the selection *)

Record ConflictItem := MkConflict { cf_channel : jstr; cf_model : jstr; cf_current : jstr; cf_newVal : jstr }.

Definition newCategory (r : Resolution) : Category :=
  if hasPrice r then CatPrice else if existsb (fun rt => mem rt r.*1) RATIO_SYNC_FIELDS then CatRatio else CatTiered.

Definition findSourceChannel (differences : DifferencesMap) (model : jstr) (rt : RatioType) (value : jv) : jstr :=
  match map_get model differences with
  | Some types =>
      match map_get rt types with
      | Some d => match List.find (fun e => same_value e.2 value) (upstreams d) with Some e => e.1 | None => js "Unknown" end
      | None => js "Unknown"
      end
  | None => js "Unknown"
  end.

(** [`${v ?? '-'}`] *)
Definition or_dash (v : option jv) : jstr := match v with Some JNull | Some JUndef | None => js "-" | Some v => jv_to_string v end.

Definition conflict_of (differences : DifferencesMap) (cur : Ratios) (e : jstr * Resolution) : list ConflictItem :=
  let '(model, ratios) := e in
  let newCat := newCategory ratios in
  match getLocalBillingCategory model cur with
  | Some localCat =>
      if (negb (bool_decide (newCat = CatTiered)) && negb (bool_decide (localCat = newCat)))%bool then
        let entry k := map_get model (table_of cur (js k)) in
        let pair a b := js "Model ratio: " ++ or_dash a ++ [10%N] ++ js "Completion ratio: " ++ or_dash b in
        [{| cf_channel := join (js ", ") (uniq (List.map (fun f => findSourceChannel differences model f.1 f.2) ratios));
            cf_model := model;
            cf_current := match localCat with
                          | CatPrice => js "Fixed price: " ++ jv_to_string (nullish (entry "ModelPrice"%string) JUndef)
                          | _ => pair (entry "ModelRatio"%string) (entry "CompletionRatio"%string)
                          end;
            cf_newVal := match newCat with
                         | CatPrice => js "Fixed price: " ++ jv_to_string (nullish (map_get model_price ratios) JUndef)
                         | _ => pair (map_get model_ratio ratios) (map_get completion_ratio ratios)
                         end |}]
      else []
  | None => []
  end.

(** [handleApplySync]: the conflicts to confirm; the sync starts when there are none. *)
Definition conflicts (differences : DifferencesMap) (resolutions : ResolutionsMap) (cur : Ratios) : list ConflictItem :=
  concat (List.map (conflict_of differences cur) resolutions).

(** * After a sync *)

(** The updater of the differences: the records of the models are those of the
    state before, which it changes in place. The result is that state as it is
    left, and the new one. *)
Definition resolved_step (s : DifferencesMap * DifferencesMap) (e : jstr * RatioType) : DifferencesMap * DifferencesMap :=
  let '(prev, next) := s in
  let '(model, rt) := e in
  match map_get model next with
  | Some types =>
      if is_some (map_get rt types) then
        let types := List.filter (fun d => negb (bool_decide (d.1 = rt))) types in
        (map_set model types prev, if Nat.eqb (length types) 0 then map_del model next else map_set model types next)
      else (prev, next)
  | None => (prev, next)
  end.

Definition resolved_fields (resolutions : ResolutionsMap) : list (jstr * RatioType) :=
  concat (List.map (fun e => List.map (fun f => (e.1, f.1)) e.2) resolutions).

Definition remove_resolved (resolutions : ResolutionsMap) (prevDiffs : DifferencesMap) : DifferencesMap * DifferencesMap :=
  fold_left resolved_step (resolved_fields resolutions) (prevDiffs, prevDiffs).

(** * Channels to compare with *)

Definition OFFICIAL_CHANNEL_ID : Z := -100.
Definition MODELS_DEV_PRESET_ID : Z := -101.
Definition OPENROUTER_CHANNEL_TYPE : N := 20.

(** The Chinese names of the two presets. *)
Definition OFFICIAL_CHANNEL_NAME : jstr := [23448; 26041; 20493; 29575; 39044; 35774]%N.
Definition MODELS_DEV_PRESET_NAME : jstr := js "models.dev " ++ [20215; 26684; 39044; 35774]%N.

Definition DEFAULT_ENDPOINT : jstr := js "/api/pricing".
Definition OFFICIAL_CHANNEL_ENDPOINT : jstr := js "/llm-metadata/api/newapi/ratio_config-v1-base.json".
Definition MODELS_DEV_PRESET_ENDPOINT : jstr := js "https://models.dev/api.json".
Definition OPENROUTER_ENDPOINT : jstr := js "openrouter".

Definition getUpstreamDisplayName (sourceName : jstr) : jstr :=
  if sourceName =s OFFICIAL_CHANNEL_NAME ++ js "(-100)" then OFFICIAL_CHANNEL_NAME
  else if sourceName =s MODELS_DEV_PRESET_NAME ++ js "(-101)" then MODELS_DEV_PRESET_NAME
  else sourceName.

Record UpstreamChannel := MkUpstreamChannel { uc_id : Z; uc_name : jstr; uc_base_url : jstr; uc_type : option N }.

Definition getDefaultEndpointForChannel (channel : UpstreamChannel) : jstr :=
  if (uc_id channel =? MODELS_DEV_PRESET_ID)%Z then MODELS_DEV_PRESET_ENDPOINT
  else if (uc_id channel =? OFFICIAL_CHANNEL_ID)%Z then OFFICIAL_CHANNEL_ENDPOINT
  else if bool_decide (uc_type channel = Some OPENROUTER_CHANNEL_TYPE) then OPENROUTER_ENDPOINT
  else DEFAULT_ENDPOINT.

(** The effect that fills the endpoints of channels that have none. *)
Definition fill_endpoints (channels : list UpstreamChannel) (endpoints : list (Z * jstr)) : list (Z * jstr) :=
  fold_left (fun next channel =>
    if truthy (nullish (map_get (uc_id channel) next) []) then next
    else map_set (uc_id channel) (getDefaultEndpointForChannel channel) next) channels endpoints.

Record UpstreamConfig := MkUpstreamConfig { ug_id : Z; ug_name : jstr; ug_base_url : jstr; ug_endpoint : jstr }.

(** [handleConfirmChannelSelection]: the channels compared with; none when none is selected. *)
Definition upstream_configs (channels : list UpstreamChannel) (selectedIds : list Z) (endpoints : list (Z * jstr)) : list UpstreamConfig :=
  List.map (fun ch => MkUpstreamConfig (uc_id ch) (uc_name ch) (uc_base_url ch) (or_str (nullish (map_get (uc_id ch) endpoints) []) DEFAULT_ENDPOINT))
    (List.filter (fun ch => bool_decide (uc_id ch ∈ selectedIds)) channels).

(** [getSyncFieldLabel]: the label of a field, the field itself when it has none. *)
Definition getSyncFieldLabel (rt : RatioType) : jstr :=
  match rt with
  | model_ratio => js "Model ratio" | completion_ratio => js "Completion ratio" | cache_ratio => js "Cache ratio"
  | create_cache_ratio => js "Create cache ratio" | image_ratio => js "Image ratio" | audio_ratio => js "Audio ratio"
  | audio_completion_ratio => js "Audio completion ratio" | model_price => js "Fixed price"
  | billing_expr => js "Expression billing" | billing_mode => ratio_text billing_mode
  end.

(** * The page *)

Record Sync := MkSync { differences : DifferencesMap; resolutions : ResolutionsMap }.

Inductive SyncEvent :=
| Fetched (diffs : DifferencesMap)
| SelectValue (sel : ResolutionSelection)
| UnselectValue (model : jstr) (rt : RatioType)
| BulkSelect (data : list ModelRowDiffs) (filter upstreamName : jstr)
| BulkUnselect (data : list ModelRowDiffs) (filter upstreamName : jstr)
| SyncSucceeded.

Definition handle (e : SyncEvent) (s : Sync) : Sync :=
  match e with
  | Fetched diffs => MkSync diffs []
  | SelectValue sel => MkSync (differences s) (applyResolutionSelection (resolutions s) (differences s) sel)
  | UnselectValue model rt => MkSync (differences s) (deleteResolutionField (resolutions s) model rt)
  | BulkSelect data filter up =>
      MkSync (differences s) (applyResolutionSelections (resolutions s) (differences s)
        (bk_selections (bulk_state (differences s) (resolutions s) data filter up)))
  | BulkUnselect data filter up =>
      MkSync (differences s) (applyResolutionRemovalPlan (resolutions s) (removalPlan (bulk_state (differences s) (resolutions s) data filter up)))
  | SyncSucceeded => MkSync (remove_resolved (resolutions s) (differences s)).2 []
  end.

(** What the page lets the user do: the rows shown are rows of the differences,
    a cell can be selected when its value is shown with a check box. *)
Inductive sync_step (s : Sync) : SyncEvent -> Prop :=
| step_fetched diffs : NoDup diffs.*1 -> sync_step s (Fetched diffs)
| step_select model types rt source :
    map_get model (differences s) = Some types -> getPreferredSyncField types rt source = rt ->
    isSelectableUpstreamValue (upstream_value types rt source) = true ->
    sync_step s (SelectValue (MkSel model rt (upstream_value types rt source) source))
| step_unselect model rt : sync_step s (UnselectValue model rt)
| step_bulk_select data filter up : data ⊆ differences s -> sync_step s (BulkSelect data filter up)
| step_bulk_unselect data filter up : data ⊆ differences s -> sync_step s (BulkUnselect data filter up)
| step_succeeded : sync_step s SyncSucceeded.

Inductive sync_run : Sync -> Prop :=
| sync_start : sync_run (MkSync [] [])
| sync_next s e : sync_run s -> sync_step s e -> sync_run (handle e s).

(** * What a selection leaves for one model *)

(** The selections of one model, one after the other. *)
Definition select_all (d : DifferencesMap) (l : list ResolutionSelection) (r : Resolution) : Resolution :=
  fold_left (fun r sel => select_in_draft d sel r) l r.

Definition of_model (model : jstr) (l : list ResolutionSelection) : list ResolutionSelection :=
  List.filter (fun sel => bool_decide (s_model sel = model)) l.

Lemma map_set_cons_ne {K V} `{EqDecision K} (k : K) (v : V) m : map_set k v m <> [].
Proof. destruct m as [|[k0 v0] t]; simpl; [done|]. by case_bool_decide. Qed.

Lemma select_nonempty d sel r : select_in_draft d sel r <> [].
Proof.
  unfold select_in_draft. destruct (getBillingCategory _), (map_get (s_model sel) d);
    repeat (case_bool_decide || destruct (isSelectableUpstreamValue _)); apply (@map_set_cons_ne RatioType).
Qed.

Lemma select_all_nonempty d x l r : select_all d (x :: l) r <> [].
Proof.
  unfold select_all. cbn [fold_left]. generalize (select_nonempty d x r). generalize (select_in_draft d x r). clear.
  induction l as [|y l IH]; intros r Hr; [done|]. apply IH, select_nonempty.
Qed.

(** The drafts: a model has one when it is selected for, its selections applied
    to what was selected before. *)
Lemma drafts_get res d sels model :
  map_get model (fold_left (applyResolutionSelectionToDraft res d) sels []) =
  match of_model model sels with [] => None | l => Some (select_all d l (nullish (map_get model res) [])) end.
Proof.
  induction sels as [|sel sels IH] using rev_ind; [done|]. rewrite fold_left_app. cbn [fold_left].
  unfold applyResolutionSelectionToDraft at 1. rewrite map_get_set. unfold of_model. rewrite List.filter_app. cbn [List.filter].
  fold (of_model model sels). case_decide as Hm.
  - subst model. rewrite bool_decide_true by done. unfold getDraftModelResolution. rewrite IH.
    destruct (of_model (s_model sel) sels) as [|x l] eqn:E; [done|]. rewrite <-app_comm_cons. f_equal.
    unfold select_all. by rewrite app_comm_cons, fold_left_app.
  - rewrite bool_decide_false by congruence. by rewrite app_nil_r, IH.
Qed.

Lemma drafts_nodup res d sels : NoDup (fold_left (applyResolutionSelectionToDraft res d) sels []).*1.
Proof.
  induction sels as [|sel sels IH] using rev_ind; [constructor|]. rewrite fold_left_app. cbn [fold_left]. by apply map_set_nodup.
Qed.

Lemma write_draft_nodup next e : NoDup next.*1 -> NoDup (write_draft next e).*1.
Proof. intros H. unfold write_draft. destruct (Nat.eqb _ _); [by apply map_del_nodup|by apply obj_set_nodup]. Qed.

Lemma write_draft_get next e model : NoDup next.*1 ->
  map_get model (write_draft next e) = if decide (model = e.1) then if Nat.eqb (length e.2) 0 then None else Some e.2 else map_get model next.
Proof.
  intros H. unfold write_draft. destruct (Nat.eqb _ _); [by rewrite map_get_del|by rewrite map_get_obj_set].
Qed.

Lemma write_drafts_get drafts next model : NoDup next.*1 -> NoDup drafts.*1 ->
  NoDup (fold_left write_draft drafts next).*1 /\
  map_get model (fold_left write_draft drafts next) =
    match map_get model drafts with Some d => if Nat.eqb (length d) 0 then None else Some d | None => map_get model next end.
Proof.
  revert next. induction drafts as [|[m d] drafts IH]; intros next Hn Hd; [done|]. csimpl in *. apply NoDup_cons in Hd as [Hni Hd].
  destruct (IH (write_draft next (m, d)) (write_draft_nodup _ _ Hn) Hd) as [H1 H2]. split; [done|]. rewrite H2, write_draft_get by done.
  cbn [fst snd]. case_bool_decide as E; [subst m|by rewrite decide_False by done].
  apply map_get_none in Hni. by rewrite Hni, decide_True.
Qed.

(** What the selections make of a model, without the drafts. *)
Lemma apply_get res d sels model : NoDup res.*1 ->
  NoDup (applyResolutionSelections res d sels).*1 /\
  map_get model (applyResolutionSelections res d sels) =
    match of_model model sels with [] => map_get model res | l => Some (select_all d l (nullish (map_get model res) [])) end.
Proof.
  intros Hn. unfold applyResolutionSelections. destruct (Nat.eqb_spec (length sels) 0) as [E|E]; [by destruct sels|].
  destruct (write_drafts_get (fold_left (applyResolutionSelectionToDraft res d) sels []) res model Hn (drafts_nodup res d sels)) as [H1 H2].
  split; [done|]. rewrite H2, drafts_get. destruct (of_model model sels) as [|x l]; [done|].
  destruct (Nat.eqb_spec (length (select_all d (x :: l) (nullish (map_get model res) []))) 0) as [E'|E']; [|done].
  apply length_zero_iff_nil in E'. by apply select_all_nonempty in E'.
Qed.

Lemma apply_nodup res d sels : NoDup res.*1 -> NoDup (applyResolutionSelections res d sels).*1.
Proof. intros H. by apply (apply_get res d sels []). Qed.

Lemma apply_lookup res d sels model : NoDup res.*1 -> map_get model (applyResolutionSelections res d sels) =
  match of_model model sels with [] => map_get model res | l => Some (select_all d l (nullish (map_get model res) [])) end.
Proof. intros H. by apply apply_get. Qed.

(** Selecting values at once is selecting them one after the other, however
    they are grouped, for every model. *)
Theorem bulk_is_sequential (res : ResolutionsMap) (d : DifferencesMap) (l1 l2 : list ResolutionSelection) (model : jstr) :
  NoDup res.*1 ->
  map_get model (applyResolutionSelections res d (l1 ++ l2)) =
  map_get model (applyResolutionSelections (applyResolutionSelections res d l1) d l2).
Proof.
  intros Hn. rewrite !apply_lookup by (done || by apply apply_nodup).
  unfold of_model. rewrite List.filter_app. destruct (List.filter _ l1) as [|x l1'] eqn:E1; [done|].
  destruct (List.filter _ l2) as [|y l2'] eqn:E2; [by rewrite app_nil_r|].
  rewrite <-app_comm_cons. f_equal. cbn [nullish]. unfold select_all. by rewrite app_comm_cons, fold_left_app.
Qed.

(** * Consistent selections *)

Record resolution_ok (r : Resolution) : Prop := {
  ro_keys : NoDup r.*1;
  ro_exclusive : hasPrice r && hasRatio r = false;
  ro_mode : billing_expr ∈ r.*1 -> billing_mode ∈ r.*1;
  ro_values : Forall (fun e => isSelectableUpstreamValue e.2 = true) r }.

Record resolutions_ok (s : Sync) : Prop := {
  rs_diffs : NoDup (differences s).*1;
  rs_keys : NoDup (resolutions s).*1;
  rs_each : forall model r, map_get model (resolutions s) = Some r -> resolution_ok r /\ r <> [] /\ model ∈ (differences s).*1 }.

Lemma has_price r : hasPrice r = is_some (map_get model_price r).
Proof.
  unfold hasPrice, mem. case_bool_decide as E; symmetry; [by apply map_get_elem|]. apply not_true_iff_false. by rewrite map_get_elem.
Qed.

Lemma has_ratio r : hasRatio r = true <-> exists rt v, rt ∈ RATIO_SYNC_FIELDS /\ map_get rt r = Some v.
Proof.
  unfold hasRatio. rewrite existsb_exists. setoid_rewrite bool_decide_eq_true. setoid_rewrite <-list_elem_of_In. split.
  - intros (rt & Hk & Hr). apply map_get_elem in Hk. destruct (map_get rt r) as [v|] eqn:E; [eauto|done].
  - intros (rt & v & Hr & E). exists rt. split; [|done]. apply map_get_elem. by rewrite E.
Qed.

(** What one selection makes of every field. *)
Definition select_value (d : DifferencesMap) (sel : ResolutionSelection) (r : Resolution) (rt : RatioType) : option jv :=
  let f := resolveResolutionSelection d sel in
  let types := diffs_of d (s_model sel) in
  let modeVal := upstream_value types billing_mode (s_source sel) in
  let exprVal := upstream_value types billing_expr (s_source sel) in
  let base := if decide (rt = s_ratioType f) then Some (s_value f)
              else if compatible (getBillingCategory (s_ratioType f)) rt then map_get rt r else None in
  match getBillingCategory (s_ratioType f), rt with
  | CatTiered, billing_expr => if isSelectableUpstreamValue exprVal then Some exprVal else base
  | CatTiered, billing_mode =>
      if isSelectableUpstreamValue modeVal then Some modeVal
      else if bool_decide (s_ratioType f = billing_expr) then Some (JStr (js "tiered_expr")) else base
  | _, _ => base
  end.

Lemma select_get d sel r rt : is_some (map_get (s_model sel) d) = true -> map_get rt (select_in_draft d sel r) = select_value d sel r rt.
Proof.
  intros Hd. unfold select_in_draft, select_value, diffs_of. destruct (map_get (s_model sel) d) as [types|]; [|done]. cbn [nullish].
  set (f := resolveResolutionSelection d sel). cbv zeta.
  destruct (getBillingCategory (s_ratioType f)) eqn:Ec.
  1,2: rewrite map_get_set, (map_get_filter (compatible _)); by destruct rt.
  destruct (isSelectableUpstreamValue (upstream_value types billing_expr (s_source sel)));
    [rewrite map_get_set; destruct (decide (rt = billing_expr)) as [->|Hne]; [done|]|];
    (destruct (isSelectableUpstreamValue (upstream_value types billing_mode (s_source sel)));
      [|case_bool_decide as Eb]);
    repeat (rewrite map_get_set; case_decide; [by subst|]); rewrite ?map_get_set, (map_get_filter (compatible _)); try by destruct rt.
Qed.

(** ** Removing *)

(** A field that goes with another. *)
Definition killed (rt f : RatioType) : bool :=
  (bool_decide (f = rt) || (bool_decide (rt = billing_expr) && bool_decide (f = billing_mode)) ||
   (bool_decide (rt = billing_mode) && bool_decide (f = billing_expr)))%bool.

Lemma delete_fields_get types r f :
  map_get f (fold_left delete_field types r) = if existsb (fun rt => killed rt f) types then None else map_get f r.
Proof.
  revert r. induction types as [|rt types IH]; intros r; [done|]. cbn [fold_left existsb]. rewrite IH.
  change (delete_field r rt) with (List.filter (fun e => negb (killed rt e.1)) r). rewrite (map_get_filter (fun k => negb (killed rt k))). destruct (killed rt f); cbn [negb orb]; [|done]. by destruct (existsb _ _).
Qed.

Lemma delete_fields_sub types r e : e ∈ fold_left delete_field types r -> e ∈ r.
Proof. revert r. induction types as [|rt types IH]; intros r; [done|]. cbn [fold_left]. intros [H _]%IH%elem_filter. done. Qed.

Lemma delete_fields_nodup types r : NoDup r.*1 -> NoDup (fold_left delete_field types r).*1.
Proof. revert r. induction types as [|rt types IH]; intros r H; [done|]. cbn [fold_left]. apply IH. by apply nodup_map_filter. Qed.

Lemma killed_pair types : existsb (fun rt => killed rt billing_mode) types = existsb (fun rt => killed rt billing_expr) types.
Proof. induction types as [|rt types IH]; [done|]. cbn [existsb]. rewrite IH. by destruct rt. Qed.

Lemma delete_ok types r : resolution_ok r -> resolution_ok (fold_left delete_field types r).
Proof.
  intros [Hk He Hm Hv]. split.
  - by apply delete_fields_nodup.
  - apply andb_false_iff. rewrite has_price, delete_fields_get. destruct (existsb _ types); [by left|]. rewrite has_price in He.
    apply andb_false_iff in He as [He|He]; [by left|right]. apply not_true_iff_false. intros (rt & v & Hr & Hg)%has_ratio.
    rewrite delete_fields_get in Hg. destruct (existsb _ types); [done|]. apply not_true_iff_false in He. apply He, has_ratio. eauto.
  - rewrite <-!map_get_elem, !delete_fields_get in *. rewrite killed_pair. by destruct (existsb _ types).
  - rewrite Forall_forall in *. intros e He'. by apply Hv, (delete_fields_sub types).
Qed.

Lemma remove_get res plan model : NoDup res.*1 -> NoDup plan.*1 ->
  NoDup (applyResolutionRemovalPlan res plan).*1 /\
  map_get model (applyResolutionRemovalPlan res plan) =
    match map_get model res, map_get model plan with
    | Some r, Some types => let r' := fold_left delete_field types r in if Nat.eqb (length r') 0 then None else Some r'
    | o, _ => o
    end.
Proof.
  intros Hn Hp. unfold applyResolutionRemovalPlan.
  assert (G : forall next, NoDup next.*1 -> NoDup (fold_left (remove_step res) plan next).*1 /\
    map_get model (fold_left (remove_step res) plan next) =
    match map_get model res, map_get model plan with
    | Some r, Some types => let r' := fold_left delete_field types r in if Nat.eqb (length r') 0 then None else Some r'
    | _, _ => map_get model next
    end).
  { induction plan as [|[m types] plan IH]; intros next Hnx; [split; [done|by destruct (map_get model res)]|].
    csimpl in *. apply NoDup_cons in Hp as [Hni Hp].
    assert (Hs : NoDup (remove_step res next (m, types)).*1).
    { unfold remove_step. cbn [fst snd]. destruct (map_get m res); [by apply write_draft_nodup|done]. }
    destruct (IH Hp _ Hs) as [H1 H2]. split; [done|]. rewrite H2. unfold remove_step. cbn [fst snd]. case_bool_decide as E.
    - subst m. apply map_get_none in Hni. rewrite Hni. destruct (map_get model res) as [r|]; [|done].
      rewrite write_draft_get by done. cbn [fst snd]. by rewrite decide_True.
    - destruct (map_get m res) as [r|]; [|by repeat case_match]. rewrite write_draft_get by done. cbn [fst snd]. by rewrite decide_False. }
  destruct (G res Hn) as [H1 H2]. split; [done|]. rewrite H2. by destruct (map_get model res), (map_get model plan).
Qed.

Lemma plan_nodup {A} (mk : A -> jstr * RatioType) l : NoDup (fold_left (fun plan a => plan_add plan (mk a).1 (mk a).2) l []).*1.
Proof.
  induction l as [|a l IH] using rev_ind; [constructor|]. rewrite fold_left_app. cbn [fold_left]. unfold plan_add.
  destruct (map_get _ _); by apply map_set_nodup.
Qed.

(** The plan has exactly the fields added to it. *)
Lemma plan_get {A} (mk : A -> jstr * RatioType) l model :
  let plan := fold_left (fun plan a => plan_add plan (mk a).1 (mk a).2) l [] in
  forall rt, rt ∈ nullish (map_get model plan) [] <-> exists a, a ∈ l /\ mk a = (model, rt).
Proof.
  cbv zeta. induction l as [|a l IH] using rev_ind; intros rt.
  - split; [by intros ?%not_elem_of_nil|by intros (? & ?%not_elem_of_nil & _)].
  - rewrite fold_left_app. cbn [fold_left]. set (plan := fold_left _ l _) in *. setoid_rewrite elem_of_app. setoid_rewrite list_elem_of_singleton.
    assert (E : nullish (map_get model (plan_add plan (mk a).1 (mk a).2)) [] =
      if decide (model = (mk a).1) then let ts := nullish (map_get model plan) [] in if mem (mk a).2 ts then ts else ts ++ [(mk a).2]
      else nullish (map_get model plan) []).
    { unfold plan_add. destruct (decide (model = (mk a).1)) as [->|Hne].
      - destruct (map_get (mk a).1 plan) eqn:Eg; rewrite map_get_set, decide_True by done; done.
      - destruct (map_get (mk a).1 plan) eqn:Eg; by rewrite map_get_set, decide_False by done. }
    rewrite E. destruct (decide (model = (mk a).1)) as [->|Hne].
    + cbv zeta. unfold mem. case_bool_decide as Hin.
      * rewrite IH. split; [intros (b & ? & ?); eauto|]. intros (b & [Hb| ->] & Hmk); [eauto|]. apply IH. rewrite Hmk in Hin. by rewrite Hmk.
      * rewrite elem_of_app, list_elem_of_singleton, IH. split.
        -- intros [(b & ? & ?)| ->]; [eauto|]. exists a. split; [by right|by destruct (mk a)].
        -- intros (b & [Hb| ->] & Hmk); [eauto|]. right. by rewrite Hmk.
    + rewrite IH. split; [intros (b & ? & ?); eauto|]. intros (b & [Hb| ->] & Hmk); [eauto|]. by rewrite Hmk in Hne.
Qed.

(** ** Selecting keeps selections consistent *)

Lemma entries_values (P : jv -> Prop) (r : Resolution) : NoDup r.*1 ->
  (Forall (fun e => P e.2) r <-> forall rt v, map_get rt r = Some v -> P v).
Proof.
  intros Hn. rewrite Forall_forall. split.
  - intros H rt v Hg. apply (H (rt, v)), map_get_mem, Hg.
  - intros H [rt v] He. apply (H rt). by apply map_get_in.
Qed.

Lemma select_nodup d sel r : NoDup r.*1 -> NoDup (select_in_draft d sel r).*1.
Proof.
  intros H. unfold select_in_draft.
  destruct (getBillingCategory _), (map_get (s_model sel) d); repeat (case_bool_decide || destruct (isSelectableUpstreamValue _));
    repeat apply map_set_nodup; by apply nodup_map_filter.
Qed.

(** A source with an expression is selected by its expression. *)
Lemma resolved_expr d sel : s_ratioType (resolveResolutionSelection d sel) <> billing_expr ->
  isSelectableUpstreamValue (upstream_value (diffs_of d (s_model sel)) billing_expr (s_source sel)) = false.
Proof.
  unfold resolveResolutionSelection, getPreferredSyncField. cbn [s_ratioType]. intros H. apply not_true_iff_false. intros E. rewrite E in H.
  case_bool_decide; by subst.
Qed.

Lemma ratio_field rt : rt ∈ RATIO_SYNC_FIELDS <-> getBillingCategory rt = CatRatio.
Proof. split; [intros H; apply (bool_decide_pack _) in H; by destruct rt|]. destruct rt; intros E; try done; by apply (bool_decide_unpack _); vm_compute. Qed.

Lemma select_exclusive d sel r : is_some (map_get (s_model sel) d) = true ->
  hasPrice r && hasRatio r = false -> hasPrice (select_in_draft d sel r) && hasRatio (select_in_draft d sel r) = false.
Proof.
  intros Hd He. apply andb_false_iff. rewrite has_price, select_get by done.
  assert (Hr : hasRatio (select_in_draft d sel r) = true ->
    exists rt v, getBillingCategory rt = CatRatio /\ select_value d sel r rt = Some v).
  { intros (rt & v & Hr & Hg)%has_ratio. rewrite select_get in Hg by done. exists rt, v. split; [by apply ratio_field|done]. }
  unfold select_value in *. cbv zeta in *. remember (s_ratioType (resolveResolutionSelection d sel)) as t eqn:Et.
  destruct (getBillingCategory t) eqn:Ec; rewrite ?Ec in Hr.
  - right. apply not_true_iff_false. intros (rt & v & Hc & Hg)%Hr. rewrite decide_False in Hg by (intros ->; congruence). by destruct rt.
  - left. by rewrite decide_False by (by intros <-).
  - rewrite decide_False by (by intros <-). change (compatible CatTiered model_price) with true. cbv iota. rewrite <-has_price.
    apply andb_false_iff in He as [He|He]; [by left|right]. apply not_true_iff_false. intros (rt & v & Hc & Hg)%Hr.
    apply not_true_iff_false in He. apply He, has_ratio. exists rt, v. split; [by apply ratio_field|].
    rewrite decide_False in Hg by (intros ->; congruence). by destruct rt.
Qed.

Lemma select_ok d sel r : is_some (map_get (s_model sel) d) = true ->
  isSelectableUpstreamValue (s_value (resolveResolutionSelection d sel)) = true ->
  resolution_ok r -> resolution_ok (select_in_draft d sel r).
Proof.
  intros Hd Hv [Hk He Hm Hvs]. pose proof (select_nodup d sel r Hk) as Hn. split; [done|by apply select_exclusive|..].
  - rewrite <-!map_get_elem, !select_get by done. rewrite <-!map_get_elem in Hm. unfold select_value. cbv zeta.
    remember (s_ratioType (resolveResolutionSelection d sel)) as t eqn:Et. destruct (getBillingCategory t) eqn:Ec.
    1,2: by rewrite !decide_False by (by intros <-).
    intros _. case_match; [done|]. case_bool_decide as E; [done|]. by destruct t.
  - apply (entries_values (fun v => isSelectableUpstreamValue v = true)); [done|]. intros rt v Hg. rewrite select_get in Hg by done. unfold select_value in Hg. cbv zeta in Hg.
    pose proof (proj1 (entries_values (fun v => isSelectableUpstreamValue v = true) r Hk) Hvs rt v) as Hold.
    destruct (getBillingCategory _), rt; repeat case_match; simplify_eq; auto.
Qed.

Lemma ok_empty : resolution_ok [].
Proof. split; [constructor|done|by intros ?%not_elem_of_nil|constructor]. Qed.

Lemma select_all_ok d l r : Forall (fun sel => is_some (map_get (s_model sel) d) = true /\
    isSelectableUpstreamValue (s_value (resolveResolutionSelection d sel)) = true) l -> resolution_ok r -> resolution_ok (select_all d l r).
Proof.
  intros Hl. revert r. unfold select_all. induction Hl as [|sel l [Hd Hv] _ IH]; intros r Hr; [done|]. cbn [fold_left]. apply IH. by apply select_ok.
Qed.

(** ** The selections of a source *)

(** A selection of a cell that can be selected: the value is the source's, and
    it is not replaced by the source's expression. *)
Record shown (d : DifferencesMap) (sel : ResolutionSelection) : Prop := {
  sh_model : is_some (map_get (s_model sel) d) = true;
  sh_value : s_value sel = upstream_value (diffs_of d (s_model sel)) (s_ratioType sel) (s_source sel);
  sh_selectable : isSelectableUpstreamValue (s_value sel) = true;
  sh_preferred : getPreferredSyncField (diffs_of d (s_model sel)) (s_ratioType sel) (s_source sel) = s_ratioType sel }.

Lemma shown_resolved d sel : shown d sel -> resolveResolutionSelection d sel = sel.
Proof.
  intros [_ _ _ Hp]. unfold resolveResolutionSelection. rewrite Hp, bool_decide_true by done. by destruct sel.
Qed.

Lemma source_shown d data filter up sel : NoDup d.*1 -> data ⊆ d -> sel ∈ source_selections data filter up ->
  shown d sel /\ s_source sel = up.
Proof.
  intros Hn Hd Hs. unfold source_selections in Hs. apply list_elem_of_In, in_concat in Hs as (l & Hl & Hs).
  apply in_map_iff in Hl as (row & <- & Hrow%list_elem_of_In). unfold row_selections in Hs.
  apply in_map_iff in Hs as (rt & <- & Hrt%list_elem_of_In). apply elem_filter in Hrt as [Hrt Hv].
  unfold getAlignedRatioTypes in Hrt. cbn [length Nat.eqb existsb] in Hrt. apply elem_filter in Hrt as [_ Hvis].
  rewrite orb_false_r in Hvis. unfold mem in Hvis. apply bool_decide_eq_true in Hvis. unfold getVisibleRatioTypesForSource in Hvis.
  apply elem_filter in Hvis as [_ Hp%bool_decide_eq_true].
  assert (Hg : map_get row.1 d = Some row.2) by (apply map_get_in; [done|]; destruct row; by apply Hd).
  split; [|done]. split; cbn [s_model s_ratioType s_value s_source]; unfold diffs_of; by rewrite ?Hg.
Qed.

(** The pairs of an insertion ordered map after an assignment. *)
Lemma elem_map_set {K V} `{EqDecision K} (k : K) (v : V) m e : NoDup m.*1 -> e ∈ map_set k v m -> e = (k, v) \/ (e ∈ m /\ e.1 <> k).
Proof.
  induction m as [|[k0 v0] t IH]; csimpl; [by intros _ ->%list_elem_of_singleton; left|].
  intros [Hni Hn]%NoDup_cons. case_bool_decide as E.
  - subst k0. intros [->|He]%elem_of_cons; [by left|]. right. split; [by right|]. intros <-. apply Hni. by apply list_elem_of_fmap_2.
  - intros [->|He]%elem_of_cons; [right; split; [left|done]|]. destruct (IH Hn He) as [->|[Hm Hk]]; [by left|]. right. split; [by right|done].
Qed.

(** Selections that can stand next to each other. *)
Definition together (a b : ResolutionSelection) : Prop :=
  s_model a = s_model b -> compatible (getBillingCategory (s_ratioType a)) (s_ratioType b) = true.

Lemma compatible_sym a b : compatible (getBillingCategory a) b = compatible (getBillingCategory b) a.
Proof. by destruct a, b. Qed.

Lemma together_sym a b : together a b -> together b a.
Proof. unfold together. rewrite (compatible_sym (s_ratioType b)). auto. Qed.

Lemma together_refl a : together a a.
Proof. intros _. by destruct (s_ratioType a). Qed.

(** What is effective: resolved selections, one for each field, that can stand together. *)
Lemma effective_spec d sels :
  let m := fold_left (effective_step d) sels [] in
  NoDup m.*1 /\ Forall (fun e => e.1 = (s_model e.2, s_ratioType e.2) /\ exists sel, sel ∈ sels /\ e.2 = resolveResolutionSelection d sel) m /\
  forall a b, a ∈ m.*2 -> b ∈ m.*2 -> together a b.
Proof.
  cbv zeta. induction sels as [|sel sels IH] using rev_ind.
  - split; [constructor|]. split; [constructor|]. by intros a b ?%not_elem_of_nil.
  - rewrite fold_left_app. cbn [fold_left]. set (m := fold_left _ sels _) in *. destruct IH as (Hn & Hf & Ht).
    unfold effective_step. set (res := resolveResolutionSelection d sel).
    set (m' := List.filter _ m). assert (Hn' : NoDup m'.*1) by by apply nodup_map_filter.
    assert (Hm' : forall e, e ∈ m' -> e ∈ m /\ together res e.2).
    { intros e [He Hc]%elem_filter. split; [done|]. intros Hmod. apply negb_true_iff, andb_false_iff in Hc as [Hc|Hc].
      - by apply bool_decide_eq_false in Hc.
      - by apply negb_false_iff. }
    split; [by apply map_set_nodup|]. split.
    + rewrite Forall_forall in *. intros e [->|[He _]]%elem_map_set; [|apply Hm' in He as [He _]|done].
      * split; [done|]. exists sel. split; [set_solver|done].
      * destruct (Hf e He) as (H1 & s & Hs & H2). split; [done|]. exists s. set_solver.
    + assert (Hcase : forall x, x ∈ (map_set (s_model res, s_ratioType res) res m').*2 -> x = res \/ (x ∈ m.*2 /\ together res x)).
      { intros x ([k y] & -> & Hy)%list_elem_of_fmap. apply elem_map_set in Hy as [[= -> ->]|[Hy _]]; [by left|right|done].
        apply Hm' in Hy as [Hy Htog]. split; [by apply list_elem_of_fmap_2|done]. }
      intros a b [->|[Ha Hra]]%Hcase [->|[Hb Hrb]]%Hcase; auto using together_refl, together_sym.
Qed.

Definition field_of (sel : ResolutionSelection) : jstr * RatioType := (s_model sel, s_ratioType sel).

Lemma effective_list d sels :
  NoDup (List.map field_of (getEffectiveResolutionSelections d sels)) /\
  (forall a b, a ∈ getEffectiveResolutionSelections d sels -> b ∈ getEffectiveResolutionSelections d sels -> together a b) /\
  (forall e, e ∈ getEffectiveResolutionSelections d sels -> exists sel, sel ∈ sels /\ e = resolveResolutionSelection d sel).
Proof.
  destruct (effective_spec d sels) as (Hn & Hf & Ht). unfold getEffectiveResolutionSelections. split; [|split; [done|]].
  - replace (List.map field_of _) with (fold_left (effective_step d) sels []).*1; [done|].
    clear Hn Ht. induction Hf as [|e m [E _] _ IH]; [done|]. csimpl. by rewrite IH, E.
  - intros e ([k y] & -> & Hy)%list_elem_of_fmap. rewrite Forall_forall in Hf. by apply (Hf (k, y) Hy).
Qed.

(** The effective selections of a source are cells of it. *)
Lemma effective_shown d data filter up e : NoDup d.*1 -> data ⊆ d ->
  e ∈ getEffectiveResolutionSelections d (source_selections data filter up) ->
  shown d e /\ s_source e = up /\ e ∈ source_selections data filter up.
Proof.
  intros Hn Hd He. apply effective_list in He as (sel & Hs & ->). destruct (source_shown d data filter up sel Hn Hd Hs) as [H1 H2].
  by rewrite (shown_resolved d sel H1).
Qed.

Lemma resolved_steps_nodup l s : NoDup s.2.*1 -> NoDup (fold_left resolved_step l s).2.*1.
Proof.
  revert s. induction l as [|[m rt] l IH]; intros [prev next] Hs; [done|]. cbn [fold_left]. apply IH. unfold resolved_step. cbn [snd] in Hs.
  destruct (map_get m next) as [types|]; [|done]. destruct (is_some _); [|done]. cbn [snd].
  destruct (Nat.eqb _ _); [by apply map_del_nodup|by apply map_set_nodup].
Qed.

Lemma resolved_nodup res d : NoDup d.*1 -> NoDup (remove_resolved res d).2.*1.
Proof. intros Hd. by apply resolved_steps_nodup. Qed.

(** C7: whatever is fetched, selected, unselected and synced, what is selected
    for a model is consistent: at least one field, each once, never a fixed
    price together with ratios, no expression without its mode, no missing or
    "same" value, and the model is one of the differences. *)
Theorem selection_consistent (s : Sync) : sync_run s -> resolutions_ok s.
Proof.
  induction 1 as [|s e _ [Hd Hk He] Hstep]; [by split; [constructor|constructor|]|].
  assert (Happly : forall sels, Forall (shown (differences s)) sels ->
    resolutions_ok (MkSync (differences s) (applyResolutionSelections (resolutions s) (differences s) sels))).
  { intros sels Hs. split; [done|by apply apply_nodup|]. cbn [differences resolutions]. intros model r Hg.
    rewrite apply_lookup in Hg by done. destruct (of_model model sels) as [|x l] eqn:El; [by apply He|]. injection Hg as <-.
    assert (Hxl : forall y, y ∈ x :: l -> y ∈ sels /\ s_model y = model) by (intros y; rewrite <-El; intros [? ?%bool_decide_eq_true]%elem_filter; done).
    rewrite Forall_forall in Hs. split; [|split; [apply select_all_nonempty|]].
    - apply (select_all_ok (differences s) (x :: l)).
      + apply Forall_forall. intros y Hy. apply Hxl in Hy as [Hy _]. pose proof (Hs y Hy) as Hsh.
        rewrite (shown_resolved _ _ Hsh). split; [apply Hsh|apply Hsh].
      + destruct (map_get model (resolutions s)) as [r|] eqn:Er; [by apply (He model)|apply ok_empty].
    - destruct (Hxl x) as [Hx <-]; [left|]. by apply map_get_elem, (sh_model _ _ (Hs x Hx)). }
  assert (Hremove : forall plan, NoDup plan.*1 -> resolutions_ok (MkSync (differences s) (applyResolutionRemovalPlan (resolutions s) plan))).
  { intros plan Hp. split; [done|by apply (remove_get _ _ [])|]. cbn [differences resolutions]. intros model r Hg.
    rewrite (proj2 (remove_get _ _ _ Hk Hp)) in Hg. destruct (map_get model (resolutions s)) as [r0|] eqn:Er; [|done].
    destruct (He model r0 Er) as (H1 & H2 & H3). destruct (map_get model plan) as [types|]; [|by injection Hg as <-]. cbv zeta in Hg.
    destruct (Nat.eqb_spec (length (fold_left delete_field types r0)) 0) as [|Hne]; [done|]. injection Hg as <-.
    split; [by apply delete_ok|]. split; [|done]. intros E. by rewrite E in Hne. }
  destruct Hstep as [diffs Hdiffs|model types rt source Hg Hp Hv|model rt|data filter up Hdata|data filter up Hdata|]; cbn [handle].
  - by split; [|constructor|].
  - apply Happly, Forall_singleton. split; cbn [s_model s_ratioType s_value s_source]; unfold diffs_of; by rewrite ?Hg.
  - apply Hremove, plan_nodup.
  - apply Happly, Forall_forall. intros e Hin. by apply (effective_shown (differences s) data filter up e).
  - apply Hremove, (plan_nodup field_of).
  - split; cbn [differences resolutions]; [by apply resolved_nodup|constructor|done].
Qed.

(** ** Select all *)

(** Values of their types: numbers for prices and ratios, texts for the other two. *)
Definition comparable (rt : RatioType) (v : jv) : bool :=
  if mem rt NUMERIC_SYNC_FIELDS then num_is_finite (jv_number v) else match v with JStr _ => true | _ => false end.

Definition well_typed (data : list ModelRowDiffs) : Prop :=
  forall row, row ∈ data -> forall rt source, isSelectableUpstreamValue (upstream_value row.2 rt source) = true ->
    comparable rt (upstream_value row.2 rt source) = true.

Lemma num_eqb_finite x : num_is_finite x = true -> num_eqb x x = true.
Proof.
  destruct x as [[]|[]| |[] m e]; try done; intros _; unfold num_eqb, SFeqb; simpl; by rewrite Z.compare_refl, Pos.compare_cont_refl.
Qed.

Lemma source_typed data filter up sel : well_typed data -> sel ∈ source_selections data filter up ->
  comparable (s_ratioType sel) (s_value sel) = true.
Proof.
  intros Hty Hs. unfold source_selections in Hs. apply list_elem_of_In, in_concat in Hs as (l & Hl & Hs).
  apply in_map_iff in Hl as (row & <- & Hrow%list_elem_of_In). unfold row_selections in Hs.
  apply in_map_iff in Hs as (rt & <- & [_ Hv]%list_elem_of_In%elem_filter). by apply Hty.
Qed.

Lemma selected_comparable res sel : isSelectableUpstreamValue (s_value sel) = true -> comparable (s_ratioType sel) (s_value sel) = true ->
  selected res (s_model sel) (s_ratioType sel) = Some (s_value sel) -> is_selected res sel = true.
Proof.
  intros Hs Hc Hg. unfold is_selected, isSelectedResolutionValue. rewrite Hs, Hg. cbn [negb]. unfold comparable in Hc.
  destruct (mem _ _); [by rewrite Hc, num_eqb_finite|]. destruct (s_value sel); try done. apply jstr_eqb_refl.
Qed.

Lemma of_model_shown d l x : shown d x ->
  map_get (s_ratioType x) (select_in_draft d x l) = Some (s_value x).
Proof.
  intros Hx. rewrite select_get by apply Hx. unfold select_value. cbv zeta. rewrite shown_resolved by done.
  pose proof (sh_value d x Hx) as Hv. pose proof (sh_selectable d x Hx) as Hs. pose proof (sh_preferred d x Hx) as Hp.
  rewrite decide_True by done. destruct (s_ratioType x) eqn:Et; cbn [getBillingCategory]; try done; by rewrite <-Hv, Hs.
Qed.

(** A cell of the same source leaves the fields it can stand with. *)
Lemma select_keeps d x e r : shown d x -> shown d e -> s_model x = s_model e -> s_source x = s_source e ->
  s_ratioType x <> s_ratioType e -> together x e ->
  map_get (s_ratioType e) (select_in_draft d x r) = map_get (s_ratioType e) r.
Proof.
  intros Hx He Hm Hs Hne Ht. rewrite select_get by apply Hx. unfold select_value. cbv zeta. rewrite shown_resolved by done.
  specialize (Ht Hm). rewrite decide_False by congruence. rewrite Ht.
  pose proof (sh_preferred d x Hx) as Hpx. pose proof (sh_preferred d e He) as Hpe. pose proof (sh_value d x Hx) as Hvx.
  pose proof (sh_value d e He) as Hve. pose proof (sh_selectable d x Hx) as Hsx. pose proof (sh_selectable d e He) as Hse.
  rewrite <-Hm, <-Hs in Hpe, Hve. unfold getPreferredSyncField in Hpx, Hpe.
  destruct (s_ratioType x) eqn:Ex, (s_ratioType e) eqn:Ee; try done; cbn [getBillingCategory]; cbn in Hpx, Hpe.
  - by rewrite <-Hve, Hse in Hpx.
  - by rewrite <-Hvx, Hsx in Hpe.
Qed.

Lemma select_all_keeps d model up l r : NoDup (List.map field_of l) ->
  (forall a, a ∈ l -> shown d a /\ s_model a = model /\ s_source a = up) -> (forall a b, a ∈ l -> b ∈ l -> together a b) ->
  forall e, e ∈ l -> map_get (s_ratioType e) (select_all d l r) = Some (s_value e).
Proof.
  induction l as [|x l IH] using rev_ind; intros Hn Hsh Ht e He; [by apply not_elem_of_nil in He|].
  unfold select_all. rewrite fold_left_app. cbn [fold_left]. fold (select_all d l r).
  rewrite map_app in Hn. apply NoDup_app in Hn as (Hn & Hni & _).
  assert (Hx : x ∈ l ++ [x]) by set_solver. destruct (Hsh x Hx) as (H1 & H2 & H3).
  apply elem_of_app in He as [He| ->%list_elem_of_singleton]; [|by apply of_model_shown].
  assert (He' : e ∈ l ++ [x]) by set_solver. destruct (Hsh e He') as (H4 & H5 & H6).
  rewrite select_keeps; [apply IH; [done|set_solver..|done]|done|done|congruence|congruence| |by apply Ht].
  intros E. apply (Hni (field_of e)); [by apply list_elem_of_fmap_2|]. apply list_elem_of_singleton. unfold field_of. congruence.
Qed.

(** C0: "select all" selects all: after it every effective cell of the source is
    selected, so that its box is checked; and "unselect all" leaves none of them
    selected, whatever was selected before. *)
Theorem select_all_selects (d : DifferencesMap) (res : ResolutionsMap) (data : list ModelRowDiffs) (filter up : jstr) :
  NoDup d.*1 -> NoDup res.*1 -> data ⊆ d -> well_typed data ->
  let bulk res := bulk_state d res data filter up in
  let all := applyResolutionSelections res d (bk_selections (bulk res)) in
  let none := applyResolutionRemovalPlan res (removalPlan (bulk res)) in
  selectedCount (bulk all) = selectableCount (bulk all) /\ selectedCount (bulk none) = 0.
Proof.
  intros Hd Hr Hsub Hty. cbv zeta. unfold bulk_state. cbn [bk_selections removalPlan selectedCount selectableCount].
  set (sels := source_selections data filter up). set (eff := getEffectiveResolutionSelections d sels).
  destruct (effective_list d sels) as (Hn & Ht & _). fold eff in Hn, Ht.
  assert (Hsh : forall e, e ∈ eff -> shown d e /\ s_source e = up /\ e ∈ sels) by (intros e; by apply effective_shown).
  split.
  - rewrite filter_all; [done|]. apply Forall_forall. intros e He. destruct (Hsh e He) as (H1 & H2 & H3).
    apply selected_comparable; [apply H1|by apply (source_typed data filter up)|].
    unfold selected. rewrite apply_lookup by done. set (l := of_model (s_model e) eff).
    assert (Hel : e ∈ l) by (apply elem_filter; by rewrite bool_decide_true).
    destruct l as [|x l'] eqn:El; [by apply not_elem_of_nil in Hel|].
    rewrite <-El in *. apply (select_all_keeps d (s_model e) up l); [..|done].
    + unfold l, of_model. by apply nodup_map_filter.
    + intros a [Ha ?%bool_decide_eq_true]%elem_filter. destruct (Hsh a Ha) as (? & ? & _). done.
    + intros a b [Ha _]%elem_filter [Hb _]%elem_filter. by apply Ht.
  - rewrite filter_none; [done|]. apply Forall_forall. intros e He. destruct (Hsh e He) as (H1 & H2 & H3).
    unfold is_selected, isSelectedResolutionValue. destruct (negb _); [done|]. unfold selected.
    set (plan := fold_left (fun plan sel => plan_add plan (s_model sel) (s_ratioType sel)) sels []). pose proof (plan_nodup field_of sels) as Hpn.
    rewrite (proj2 (remove_get res plan (s_model e) Hr Hpn)).
    destruct (map_get (s_model e) res) as [r|] eqn:Er; [|done].
    pose proof (plan_get field_of sels (s_model e) (s_ratioType e)) as [_ Hp]. specialize (Hp (ex_intro _ e (conj H3 eq_refl))).
    change (s_ratioType e ∈ nullish (map_get (s_model e) plan) []) in Hp.
    destruct (map_get (s_model e) plan) as [types|]; [|by apply not_elem_of_nil in Hp]. cbn [nullish] in Hp. cbv zeta.
    destruct (Nat.eqb _ 0); [done|]. rewrite delete_fields_get. replace (existsb _ types) with true; [done|]. symmetry.
    apply existsb_exists. exists (s_ratioType e). split; [by apply list_elem_of_In|]. unfold killed. by rewrite bool_decide_true.
Qed.

(** * What a sync writes *)

Definition entry (ratios : Ratios) (k model : jstr) : option jv := map_get model (table_of ratios k).

(** The record of the options: the ten keys in their order, tables without repeated names. *)
Record ratios_ok (r : Ratios) : Prop := {
  ra_keys : r.*1 = OPTION_KEYS;
  ra_tables : forall k, NoDup (table_of r k).*1 }.

Lemma option_keys_nodup : NoDup OPTION_KEYS.
Proof. apply (bool_decide_unpack _). vm_compute. done. Qed.

Lemma option_key_in rt : optionKeyBySyncField rt ∈ OPTION_KEYS.
Proof. apply (bool_decide_unpack _). destruct rt; vm_compute; done. Qed.

Lemma option_key_inj rt rt' : optionKeyBySyncField rt = optionKeyBySyncField rt' -> rt = rt'.
Proof. intros E. apply (f_equal (fun k => jstr_eqb k (optionKeyBySyncField rt))) in E. destruct rt, rt'; (done || by vm_compute in E). Qed.

Lemma option_key_ratio rt : optionKeyBySyncField rt ∈ RATIO_OPTIONS <-> getBillingCategory rt = CatRatio.
Proof.
  split; [intros H; apply (bool_decide_pack _) in H; destruct rt; (done || by vm_compute in H)|].
  intros E. apply (bool_decide_unpack _). destruct rt; (done || by vm_compute).
Qed.

Lemma option_key_price rt : optionKeyBySyncField rt = js "ModelPrice" <-> rt = model_price.
Proof.
  change (js "ModelPrice") with (optionKeyBySyncField model_price). split; [apply option_key_inj|by intros ->].
Qed.

Lemma put_table_ok k t r : k ∈ OPTION_KEYS -> ratios_ok r -> NoDup t.*1 -> ratios_ok (map_set k t r).
Proof.
  intros Hk [Hr Ht] Hn. split.
  - rewrite map_set_keys. rewrite <-Hr in Hk. apply map_get_elem in Hk. by rewrite Hk.
  - intros k'. unfold table_of. rewrite map_get_set. case_decide; [done|]. apply Ht.
Qed.

Lemma entry_put k t r k' model : entry (map_set k t r) k' model = if decide (k' = k) then map_get model t else entry r k' model.
Proof. unfold entry, table_of. rewrite map_get_set. by case_decide. Qed.

Lemma delete_entries_get model ks r : Forall (fun k => k ∈ OPTION_KEYS) ks -> ratios_ok r ->
  ratios_ok (fold_left (delete_entry model) ks r) /\
  forall k' model', entry (fold_left (delete_entry model) ks r) k' model' =
    if (bool_decide (model' = model) && bool_decide (k' ∈ ks))%bool then None else entry r k' model'.
Proof.
  intros Hks. revert r. induction Hks as [|k ks Hk _ IH]; intros r Hr.
  { split; [done|]. intros k' model'. rewrite (bool_decide_false (k' ∈ [])) by by apply not_elem_of_nil. by rewrite andb_false_r. }
  cbn [fold_left]. assert (Hd : ratios_ok (delete_entry model r k)) by (apply put_table_ok; [done..|apply map_del_nodup, Hr]).
  destruct (IH _ Hd) as [H1 H2]. split; [done|]. intros k' model'. rewrite H2. unfold delete_entry. rewrite entry_put, map_get_del.
  rewrite (bool_decide_ext (k' ∈ k :: ks) (k' = k \/ k' ∈ ks)) by apply elem_of_cons.
  repeat (case_bool_decide || case_decide); cbn [andb]; try done; try tauto; subst; by destruct H3 || unfold entry.
Qed.

(** The fields of one model, written. *)
Lemma sync_fields_get model fields r : NoDup fields.*1 -> ratios_ok r ->
  exists r', fold_left (sync_field model) fields (inr r) = inr r' /\ ratios_ok r' /\
    forall rt model', entry r' (optionKeyBySyncField rt) model' =
      match (if decide (model' = model) then map_get rt fields else None) with
      | Some v => Some (stored_value rt v)
      | None => entry r (optionKeyBySyncField rt) model'
      end.
Proof.
  revert r. induction fields as [|[rt v] fields IH]; intros r Hn Hr.
  { exists r. split; [done|]. split; [done|]. intros rt model'. by case_decide. }
  csimpl in *. apply NoDup_cons in Hn as [Hni Hn].
  assert (Hg : exists t, map_get (optionKeyBySyncField rt) r = Some t).
  { pose proof (option_key_in rt) as Hk. rewrite <-(ra_keys r Hr) in Hk. apply map_get_elem in Hk. by destruct (map_get _ r); eauto. }
  destruct Hg as [t Hg].
  rewrite Hg.
  assert (Ht : NoDup t.*1) by (pose proof (ra_tables r Hr (optionKeyBySyncField rt)) as H; unfold table_of in H; by rewrite Hg in H).
  destruct (IH (map_set (optionKeyBySyncField rt) (obj_set model (stored_value rt v) t) r) Hn) as (r' & Hr' & Hok & He).
  { apply put_table_ok; [apply option_key_in|done|by apply obj_set_nodup]. }
  exists r'. split; [done|]. split; [done|]. intros rt' model'. rewrite He, entry_put.
  assert (Hold : entry r (optionKeyBySyncField rt) model' = map_get model' t) by (unfold entry, table_of; by rewrite Hg).
  destruct (decide (rt' = rt)) as [->|Hne].
  - apply map_get_none in Hni. rewrite Hni, bool_decide_true by done. rewrite (decide_True (P := optionKeyBySyncField rt = _)) by done. rewrite map_get_obj_set, Hold by done. by repeat case_decide.
  - rewrite (bool_decide_false (rt' = rt)) by done. rewrite (decide_False (P := optionKeyBySyncField rt' = _)) by (by intros ?%option_key_inj). done.
Qed.

(** What the sync makes of one entry. *)
Definition synced_entry (res : ResolutionsMap) (cur : Ratios) (rt : RatioType) (model : jstr) : option jv :=
  match map_get model res with
  | None => entry cur (optionKeyBySyncField rt) model
  | Some r =>
      match map_get rt r with
      | Some v => Some (stored_value rt v)
      | None =>
          if (hasPrice r && bool_decide (getBillingCategory rt = CatRatio) || hasRatio r && bool_decide (rt = model_price))%bool then None
          else entry cur (optionKeyBySyncField rt) model
      end
  end.

Lemma sync_model_get model fields r : NoDup fields.*1 -> ratios_ok r ->
  exists r', sync_model (inr r) (model, fields) = inr r' /\ ratios_ok r' /\
    forall rt model', entry r' (optionKeyBySyncField rt) model' = synced_entry [(model, fields)] r rt model'.
Proof.
  intros Hn Hr. unfold sync_model. cbn [andThen fst snd].
  set (r1 := if hasPrice fields then _ else r).
  assert (H1 : ratios_ok r1 /\ forall rt model', entry r1 (optionKeyBySyncField rt) model' =
    if (bool_decide (model' = model) && (hasPrice fields && bool_decide (getBillingCategory rt = CatRatio)))%bool then None
    else entry r (optionKeyBySyncField rt) model').
  { unfold r1. destruct (hasPrice fields); [|split; [done|intros; by rewrite andb_false_r]].
    destruct (delete_entries_get model RATIO_OPTIONS r) as [Ha Hb]; [apply (bool_decide_unpack _); by vm_compute|done|].
    split; [done|]. intros rt model'. rewrite Hb. by rewrite (bool_decide_ext _ _ (option_key_ratio rt)). }
  set (r2 := if hasRatio fields then _ else r1).
  assert (H2 : ratios_ok r2 /\ forall rt model', entry r2 (optionKeyBySyncField rt) model' =
    if (bool_decide (model' = model) && (hasRatio fields && bool_decide (rt = model_price)))%bool then None
    else entry r1 (optionKeyBySyncField rt) model').
  { unfold r2. destruct H1 as [H1 _]. destruct (hasRatio fields); [|split; [done|intros; by rewrite andb_false_r]].
    destruct (delete_entries_get model [js "ModelPrice"] r1) as [Ha Hb]; [apply (bool_decide_unpack _); by vm_compute|done|].
    split; [done|]. intros rt model'. cbn [fold_left] in Hb. rewrite Hb.
    rewrite (bool_decide_ext (_ ∈ [js "ModelPrice"]) (rt = model_price)); [done|]. by rewrite list_elem_of_singleton, option_key_price. }
  destruct H1 as [_ H1], H2 as [Hr2 H2]. destruct (sync_fields_get model fields r2 Hn Hr2) as (r' & E & Hok & He).
  exists r'. split; [done|]. split; [done|]. intros rt model'. rewrite He, H2, H1. unfold synced_entry. cbn [map_get].
  destruct (decide (model' = model)) as [->|Hne].
  - rewrite !bool_decide_true by done. cbn [andb]. destruct (map_get rt fields); [done|]. by destruct (hasPrice fields && _)%bool, (hasRatio fields && _)%bool.
  - by rewrite !(bool_decide_false (model' = model)) by done.
Qed.

Lemma final_get res cur : NoDup res.*1 -> Forall (fun e => NoDup e.2.*1) res -> ratios_ok cur ->
  exists final, finalRatios res cur = inr final /\ ratios_ok final /\
    forall rt model, entry final (optionKeyBySyncField rt) model = synced_entry res cur rt model.
Proof.
  unfold finalRatios. intros Hn Hf. revert cur. induction Hf as [|[m fields] res Hfields _ IH]; intros cur Hc; [by exists cur|].
  csimpl in Hn. apply NoDup_cons in Hn as [Hni Hn]. cbn [fold_left].
  destruct (sync_model_get m fields cur Hfields Hc) as (r1 & E1 & Hr1 & H1). rewrite E1.
  destruct (IH Hn r1 Hr1) as (final & E & Hfin & He). exists final. split; [done|]. split; [done|].
  intros rt model. rewrite He. pose proof (H1 rt model) as Hold. unfold synced_entry in *.
  change (map_get model ((m, fields) :: res)) with (if bool_decide (model = m) then Some fields else map_get model res).
  change (map_get model [(m, fields)]) with (if bool_decide (model = m) then Some fields else None) in Hold.
  rewrite Hold. clear Hold. destruct (bool_decide_reflect (model = m)) as [Em|Hne]; [|done].
  assert (Hnone : map_get (V := Resolution) model res = None) by (rewrite Em; by apply map_get_none). by rewrite Hnone.
Qed.

(** ** The options after the sync *)

Definition field_type (f : Field) : RatioType :=
  match f with
  | Price => model_price | Ratio => model_ratio | CacheRatio => cache_ratio | CreateCacheRatio => create_cache_ratio
  | CompletionRatio => completion_ratio | ImageRatio => image_ratio | AudioRatio => audio_ratio | AudioCompletionRatio => audio_completion_ratio
  end.

Definition from_types {A} (g : RatioType -> A) : Prices A * A * A := (tabulate (fun f => g (field_type f)), g billing_mode, g billing_expr).

(** The options with the texts stored, as the price table reads them. *)
Definition options_of (stored : list (jstr * jstr)) : Options :=
  let '(p, m, e) := from_types (fun rt => nullish (map_get (optionKeyBySyncField rt) stored) []) in MkOptions p m e.

Definition tables_of (r : Ratios) : Tables :=
  let '(p, m, e) := from_types (fun rt => table_of r (optionKeyBySyncField rt)) in MkTables p m e.

Definition synced_entries (res : ResolutionsMap) (cur : Ratios) (model : jstr) : entries :=
  let '(p, m, e) := from_types (fun rt => synced_entry res cur rt model) in MkEntries p m e.

Lemma updates_get r k : map_get k (updates_of r) = (fun t => json_stringify2 (JObj t)) <$> map_get k r.
Proof.
  unfold updates_of. induction r as [|[k0 t] r IH]; [done|]. cbn [List.map map_get fst snd]. by case_bool_decide.
Qed.

Lemma updates_written r : ratios_ok r -> options_of (updates_of r) = write_options (tables_of r).
Proof.
  intros Hr. assert (E : forall rt, nullish (map_get (optionKeyBySyncField rt) (updates_of r)) [] = json_stringify2 (JObj (table_of r (optionKeyBySyncField rt)))).
  { intros rt. rewrite updates_get. unfold table_of. pose proof (option_key_in rt) as Hk. rewrite <-(ra_keys r Hr) in Hk.
    apply map_get_elem in Hk. by destruct (map_get _ r). }
  unfold options_of, tables_of, from_types, write_options, tabulate. by rewrite !E.
Qed.

Lemma plain_table_entries t : NoDup t.*1 -> (forall k v, map_get k t = Some v -> ordinary k /\ plain v) -> plain_table t.
Proof.
  intros Hn H. apply plain_table_spec. split; [done|].
  assert (Hall : forall e, e ∈ t -> ordinary e.1 /\ plain e.2) by (intros [k v] He; apply (H k v); by apply map_get_in).
  split; apply Forall_fmap, Forall_forall; intros e He; by apply Hall.
Qed.

(** Tables and selections that can be written. *)
Record writable (res : ResolutionsMap) (cur : Ratios) : Prop := {
  wr_tables : forall rt, plain_table (table_of cur (optionKeyBySyncField rt));
  wr_models : forall model r, map_get model res = Some r -> ordinary model /\ forall rt v, map_get rt r = Some v -> plain (stored_value rt v) }.

Lemma entry_plain res cur rt model v : writable res cur -> entry cur (optionKeyBySyncField rt) model = Some v -> ordinary model /\ plain v.
Proof.
  intros [Ht _] Hg. pose proof (Ht rt) as H. apply plain_table_spec in H as (_ & Ho & Hp). unfold entry in Hg. apply map_get_mem in Hg.
  rewrite Forall_fmap in Ho. rewrite Forall_fmap in Hp. rewrite Forall_forall in Ho. rewrite Forall_forall in Hp. split; [by apply (Ho (model, v))|by apply (Hp (model, v))].
Qed.

Lemma synced_plain res cur rt model v : writable res cur -> synced_entry res cur rt model = Some v -> ordinary model /\ plain v.
Proof.
  intros Hw. unfold synced_entry. destruct (map_get model res) as [r|] eqn:Er; [|by eapply entry_plain].
  destruct (wr_models _ _ Hw model r Er) as [Ho Hp]. destruct (map_get rt r) as [w|] eqn:Ew.
  - intros [= <-]. split; [done|]. by apply Hp.
  - destruct (_ || _)%bool; [done|]. by eapply entry_plain.
Qed.

Lemma tables_entries r model : entries_of (tables_of r) model =
  let '(p, m, e) := from_types (fun rt => entry r (optionKeyBySyncField rt) model) in MkEntries p m e.
Proof. reflexivity. Qed.

Lemma all_stored ups : send ups (List.map (fun _ => Stored) ups) = (ups, true).
Proof. induction ups as [|u ups IH]; [done|]. cbn [List.map send]. by rewrite IH. Qed.

(** C3: a sync whose updates are all stored succeeds, and the options then read,
    in the table of prices, for every model what was selected for it; the
    other fields of the model stay, except that a fixed price removes the
    ratios and a ratio removes the fixed price; models without a selection
    keep all they had. *)
Theorem sync_reads (res : ResolutionsMap) (cur : Ratios) :
  NoDup res.*1 -> Forall (fun e => NoDup e.2.*1) res -> ratios_ok cur -> writable res cur ->
  exists ups stored t, performSync res cur = inr ups /\ send ups (List.map (fun _ => Stored) ups) = (stored, true) /\
    parse_options (options_of stored) = inr t /\ forall model, entries_of t model = synced_entries res cur model.
Proof.
  intros Hn Hf Hc Hw. destruct (final_get res cur Hn Hf Hc) as (final & E & Hfin & He).
  exists (updates_of final), (updates_of final), (tables_of final). unfold performSync. rewrite E. split; [done|].
  split; [apply all_stored|]. rewrite updates_written by done.
  assert (Hp : forall rt, plain_table (table_of final (optionKeyBySyncField rt))).
  { intros rt. apply plain_table_entries; [apply Hfin|]. intros k v Hg. apply (synced_plain res cur rt k v Hw). by rewrite <-He. }
  split.
  - apply parse_write_options. split; [intros f; unfold tables_of; cbn [from_types tb_prices]; rewrite get_tabulate; apply Hp|apply Hp..].
  - intros model. rewrite tables_entries. unfold synced_entries, from_types, tabulate. by rewrite !He.
Qed.

(** After a sync no model it was asked to change has both a fixed price and a
    ratio: whichever was selected has removed the other. *)
Theorem synced_price_or_ratio (res : ResolutionsMap) (cur : Ratios) (final : Ratios) (model : jstr) (r : Resolution) :
  NoDup res.*1 -> Forall (fun e => resolution_ok e.2) res -> ratios_ok cur -> map_get model res = Some r ->
  finalRatios res cur = inr final ->
  (hasPrice r = true -> forall rt, rt ∈ RATIO_SYNC_FIELDS -> entry final (optionKeyBySyncField rt) model = None) /\
  (hasRatio r = true -> entry final (js "ModelPrice") model = None).
Proof.
  intros Hn Hok Hc Hm E.
  assert (Hf : Forall (fun e => NoDup e.2.*1) res) by (eapply Forall_impl; [exact Hok|by intros e []]).
  destruct (final_get res cur Hn Hf Hc) as (final' & E' & _ & He). rewrite E in E'. injection E' as <-.
  assert (Hr : resolution_ok r).
  { rewrite Forall_forall in Hok. apply (Hok (model, r)). by apply map_get_mem. }
  pose proof (ro_exclusive r Hr) as Hx. split.
  - intros Hp rt Hrt. rewrite He. unfold synced_entry. rewrite Hm, Hp. rewrite Hp in Hx. cbn [andb] in Hx.
    destruct (map_get rt r) as [v|] eqn:Ev.
    + apply not_true_iff_false in Hx. destruct Hx. apply has_ratio. eauto.
    + apply ratio_field in Hrt. by rewrite Hrt, bool_decide_true.
  - intros Hr'. change (js "ModelPrice") with (optionKeyBySyncField model_price). rewrite He. unfold synced_entry. rewrite Hm, Hr'.
    rewrite Hr', andb_true_r, has_price in Hx. destruct (map_get model_price r); [done|].
    rewrite (bool_decide_true (model_price = _)) by done. by rewrite orb_true_r.
Qed.

(** ** Conflicts *)

Lemma has_ratio_keys r : existsb (fun rt => mem rt r.*1) RATIO_SYNC_FIELDS = hasRatio r.
Proof.
  apply eq_true_iff_eq. unfold hasRatio. rewrite !existsb_exists. unfold mem.
  split; intros (rt & H1%list_elem_of_In & H2%bool_decide_eq_true); exists rt; split; (by apply list_elem_of_In) || by apply bool_decide_eq_true.
Qed.

Lemma has_entry_some cur model k : has_entry cur model k = true <-> entry cur k model <> None.
Proof. unfold has_entry, entry. by destruct (map_get model _). Qed.

Lemma no_conflict d res cur model r : conflicts d res cur = [] -> map_get model res = Some r ->
  getLocalBillingCategory model cur = None \/ newCategory r = CatTiered \/ getLocalBillingCategory model cur = Some (newCategory r).
Proof.
  unfold conflicts. intros Hc Hm%map_get_mem. assert (E : conflict_of d cur (model, r) = []).
  { induction res as [|e res IH]; [by apply not_elem_of_nil in Hm|]. cbn [List.map concat] in Hc. apply app_eq_nil in Hc as [H1 H2].
    apply elem_of_cons in Hm as [<-|Hm]; auto. }
  unfold conflict_of in E. destruct (getLocalBillingCategory model cur) as [c|]; [|by left]. right.
  destruct (bool_decide_reflect (newCategory r = CatTiered)); [by left|]. destruct (bool_decide_reflect (c = newCategory r)) as [Ec|]; [right; by rewrite Ec|done].
Qed.

(** C15: a sync that starts without asking loses nothing: when no conflict is
    reported, every price and ratio that was set is still set after it, unless
    the model had both a fixed price and ratios. *)
Theorem unconfirmed_sync_keeps (d : DifferencesMap) (res : ResolutionsMap) (cur final : Ratios) (model : jstr) (rt : RatioType) :
  NoDup res.*1 -> Forall (fun e => NoDup e.2.*1) res -> ratios_ok cur -> finalRatios res cur = inr final ->
  conflicts d res cur = [] ->
  (has_entry cur model (js "ModelPrice") && existsb (has_entry cur model) RATIO_OPTIONS)%bool = false ->
  entry cur (optionKeyBySyncField rt) model <> None -> entry final (optionKeyBySyncField rt) model <> None.
Proof.
  intros Hn Hf Hc E Hconf Hboth Hset. destruct (final_get res cur Hn Hf Hc) as (final' & E' & _ & He). rewrite E in E'. injection E' as <-.
  rewrite He. unfold synced_entry. destruct (map_get model res) as [r|] eqn:Er; [|done]. destruct (map_get rt r) as [v|] eqn:Ev; [done|].
  apply has_entry_some in Hset. pose proof (no_conflict d res cur model r Hconf Er) as Hno.
  unfold getLocalBillingCategory, newCategory in Hno. rewrite has_ratio_keys in Hno.
  destruct (bool_decide_reflect (getBillingCategory rt = CatRatio)) as [Hrt|Hrt].
  - assert (Hloc : existsb (has_entry cur model) RATIO_OPTIONS = true).
    { apply existsb_exists. exists (optionKeyBySyncField rt). split; [by apply list_elem_of_In, option_key_ratio|done]. }
    rewrite Hloc, andb_true_r in Hboth. rewrite Hboth, Hloc in Hno. rewrite (bool_decide_false (rt = model_price)) by (by intros ->).
    rewrite andb_false_r, orb_false_r, andb_true_r. destruct (hasPrice r); [|by apply has_entry_some].
    by destruct Hno as [|[|]].
  - rewrite andb_false_r. cbn [orb]. case_bool_decide as Hp; [|rewrite andb_false_r; by apply has_entry_some]. subst rt.
    rewrite andb_true_r. change (optionKeyBySyncField model_price) with (js "ModelPrice") in *. rewrite Hset in Hno.
    rewrite has_price, Ev in Hno. cbn [is_some] in Hno. destruct (hasRatio r); [|by apply has_entry_some]. by destruct Hno as [|[|]].
Qed.

(** A price that is synced for a model with an expression is not used: unless
    the mode was selected too the model keeps its tiered mode, and the table
    of prices shows the expression as before. *)
Theorem price_sync_keeps_tiered (res : ResolutionsMap) (cur final : Ratios) (model : jstr) (r : Resolution) :
  NoDup res.*1 -> Forall (fun e => NoDup e.2.*1) res -> ratios_ok cur -> finalRatios res cur = inr final ->
  map_get model res = Some r -> map_get billing_mode r = None ->
  entry cur (optionKeyBySyncField billing_mode) model = Some (JStr (js "tiered_expr")) ->
  is_tiered model (tables_of final) = true.
Proof.
  intros Hn Hf Hc E Hm Hmode Ht. destruct (final_get res cur Hn Hf Hc) as (final' & E' & _ & He). rewrite E in E'. injection E' as <-.
  unfold is_tiered. change (map_get model (tb_billingMode (tables_of final))) with (entry final (optionKeyBySyncField billing_mode) model).
  rewrite He. unfold synced_entry. rewrite Hm, Hmode. cbn [getBillingCategory].
  rewrite !bool_decide_false by done. rewrite !andb_false_r. cbn [orb]. rewrite Ht. apply jstr_eqb_refl.
Qed.

(** ** The answers of the server *)

(** An update the server refuses counts as done: when no request fails the
    sync is reported as a success, whatever was refused, and the differences of
    everything selected are taken off the table. *)
Theorem refused_counts (ups : list (jstr * jstr)) (refused : jstr -> bool) :
  send ups (List.map (fun u => if refused u.1 then Refused else Stored) ups) = (List.filter (fun u => negb (refused u.1)) ups, true).
Proof.
  induction ups as [|u ups IH]; [done|]. cbn [List.map List.filter send]. destruct (refused u.1); cbn [negb send]; by rewrite IH.
Qed.

(** ** The differences after a sync *)

Definition fields_of (model : jstr) (l : list (jstr * RatioType)) : list RatioType :=
  List.map snd (List.filter (fun e => bool_decide (e.1 = model)) l).

Definition left_types (types : RatioTypes) (fields : list RatioType) : RatioTypes :=
  List.filter (fun e => negb (bool_decide (e.1 ∈ fields))) types.

Definition left_in (d : DifferencesMap) (l : list (jstr * RatioType)) (model : jstr) : option RatioTypes :=
  match map_get model d with
  | Some types => match left_types types (fields_of model l) with [] => None | t => Some t end
  | None => None
  end.

Lemma left_types_snoc types fields rt :
  left_types types (fields ++ [rt]) = List.filter (fun d => negb (bool_decide (d.1 = rt))) (left_types types fields).
Proof.
  unfold left_types. induction types as [|e types IH]; [done|]. cbn [List.filter].
  rewrite (bool_decide_ext (e.1 ∈ fields ++ [rt]) (e.1 ∈ fields \/ e.1 = rt)) by by rewrite elem_of_app, list_elem_of_singleton.
  destruct (bool_decide_reflect (e.1 ∈ fields)) as [Hin|Hni]; [rewrite bool_decide_true by tauto; done|]. cbn [negb List.filter].
  rewrite (bool_decide_ext (e.1 ∈ fields \/ e.1 = rt) (e.1 = rt)) by tauto. destruct (bool_decide (e.1 = rt)); cbn [negb]; by rewrite IH.
Qed.

Lemma left_types_same types fields rt : is_some (map_get rt (left_types types fields)) = false ->
  left_types types (fields ++ [rt]) = left_types types fields.
Proof.
  intros H. rewrite left_types_snoc. apply filter_all, Forall_forall. intros e He. apply negb_true_iff, bool_decide_eq_false. intros <-.
  apply not_true_iff_false in H. apply H, map_get_elem. by apply list_elem_of_fmap_2.
Qed.

Lemma fields_of_snoc model l e : fields_of model (l ++ [e]) = if bool_decide (e.1 = model) then fields_of model l ++ [e.2] else fields_of model l.
Proof.
  unfold fields_of. rewrite List.filter_app, map_app. cbn [List.filter]. destruct (bool_decide _); [done|]. by rewrite app_nil_r.
Qed.

(** What is left of a record when one field is resolved. *)
Definition without (rt : RatioType) (types : RatioTypes) : option RatioTypes :=
  if is_some (map_get rt types) then
    match List.filter (fun d => negb (bool_decide (d.1 = rt))) types with [] => None | t => Some t end
  else Some types.

Lemma resolved_step_get prev (next : DifferencesMap) m rt model : NoDup next.*1 ->
  map_get model (resolved_step (prev, next) (m, rt)).2 =
  if decide (model = m) then match map_get model next with Some types => without rt types | None => None end else map_get model next.
Proof.
  intros Hn. unfold resolved_step, without. destruct (decide (model = m)) as [->|Hne].
  - destruct (map_get m next) as [types|] eqn:E; [|done]. destruct (is_some _); [|done]. cbn [snd].
    destruct (List.filter _ types) as [|e t]; cbn [length Nat.eqb]; rewrite ?map_get_del, ?map_get_set; by rewrite decide_True.
  - destruct (map_get m next) as [types|]; [|done]. destruct (is_some _); [|done]. cbn [snd].
    destruct (Nat.eqb _ _); rewrite ?map_get_del, ?map_get_set; by rewrite decide_False.
Qed.

Lemma left_without types fields rt :
  match match left_types types fields with [] => None | t => Some t end with Some t => without rt t | None => None end =
  match left_types types (fields ++ [rt]) with [] => None | t => Some t end.
Proof.
  destruct (is_some (map_get rt (left_types types fields))) eqn:Es.
  - rewrite left_types_snoc. destruct (left_types types fields) as [|e t] eqn:E; [done|]. unfold without. by rewrite Es.
  - rewrite left_types_same by done. destruct (left_types types fields) as [|e t] eqn:E; [done|]. unfold without. by rewrite Es.
Qed.

Lemma resolved_steps_get (d : DifferencesMap) l model : NoDup d.*1 -> Forall (fun e => e.2 <> []) d ->
  map_get model (fold_left resolved_step l (d, d)).2 = left_in d l model.
Proof.
  intros Hn Hd. induction l as [|[m rt] l IH] using rev_ind.
  { cbn [fold_left snd]. unfold left_in. destruct (map_get model d) as [types|] eqn:E; [|done].
    unfold left_types, fields_of. cbn [List.filter List.map]. rewrite filter_all by by apply Forall_forall.
    apply map_get_mem in E. rewrite Forall_forall in Hd. specialize (Hd _ E). by destruct types. }
  rewrite fold_left_app. cbn [fold_left]. destruct (fold_left resolved_step l (d, d)) as [prev next] eqn:Ef. cbn [snd] in IH.
  rewrite resolved_step_get by (change next with (prev, next).2; rewrite <-Ef; by apply resolved_steps_nodup).
  rewrite IH. unfold left_in. rewrite fields_of_snoc. cbn [fst snd]. destruct (decide (model = m)) as [Em|Hne].
  - rewrite (bool_decide_true (m = model)) by done. destruct (map_get model d) as [types|]; [|done]. apply left_without.
  - by rewrite (bool_decide_false (m = model)).
Qed.

(** After a sync the table shows of every model exactly the differences that
    were not selected, and no model without a difference. *)
Theorem synced_differences (s : Sync) (model : jstr) :
  NoDup (differences s).*1 -> Forall (fun e => e.2 <> []) (differences s) -> NoDup (resolutions s).*1 ->
  map_get model (differences (handle SyncSucceeded s)) =
  match map_get model (differences s) with
  | Some types =>
      match List.filter (fun e => negb (is_some (selected (resolutions s) model e.1))) types with [] => None | t => Some t end
  | None => None
  end.
Proof.
  intros Hd Hne Hr. cbn [handle differences]. unfold remove_resolved. rewrite resolved_steps_get by done. unfold left_in.
  destruct (map_get model (differences s)) as [types|]; [|done]. unfold left_types.
  rewrite (List.filter_ext _ (fun e => negb (is_some (selected (resolutions s) model e.1)))); [done|]. intros e. f_equal.
  apply eq_true_iff_eq. rewrite bool_decide_eq_true. unfold fields_of, resolved_fields, selected. split.
  - intros Hin%list_elem_of_In. apply in_map_iff in Hin as ([m rt] & Ee & Hin). cbn [snd] in Ee. rewrite <-Ee.
    apply list_elem_of_In, elem_filter in Hin as [Hin Em%bool_decide_eq_true]. cbn [fst] in Em. rewrite <-Em.
    apply list_elem_of_In, in_concat in Hin as (l & Hl & Hin). apply in_map_iff in Hl as ([m' r] & <- & Hm%list_elem_of_In).
    apply in_map_iff in Hin as ([rt' v] & [= Em' Er] & Hv%list_elem_of_In). cbn [fst] in *.
    rewrite Em' in Hm. rewrite (map_get_in m r) by done. rewrite <-Er.
    apply map_get_elem. by apply (list_elem_of_fmap_2 fst r (rt', v)).
  - intros Hs. destruct (map_get model (resolutions s)) as [r|] eqn:Er; [|done]. destruct (map_get e.1 r) as [v|] eqn:Ev; [|done].
    apply map_get_mem in Er, Ev. apply list_elem_of_In, in_map_iff. exists (model, e.1). split; [done|].
    apply list_elem_of_In, elem_filter. split; [|by apply bool_decide_eq_true]. apply list_elem_of_In, in_concat.
    exists (List.map (fun f => (model, f.1)) r). split; apply in_map_iff; [exists (model, r)|exists (e.1, v)]; (split; [done|by apply list_elem_of_In]).
Qed.

(** * A page with differences *)

Definition from_source (source : string) (v : jv) : RatioDifferenceEntry := MkDiff JNull [(js source, v)] [(js source, true)].

(** A source with ratios for one model, a fixed price for another and an expression for a third. *)
Definition sample_differences : DifferencesMap := [
  (js "gpt", [(model_ratio, from_source "up" (JNum (num_of_Z 5))); (completion_ratio, from_source "up" (JNum (num_of_Z 4)))]);
  (js "dall", [(model_ratio, from_source "other" (JNum (num_of_Z 9))); (model_price, from_source "up" (JNum (num_of_Z 2)))]);
  (js "claude", [(model_ratio, from_source "up" (JNum (num_of_Z 3))); (billing_expr, from_source "up" (JStr (js "p * 3")))])].

Definition sample_all : ResolutionsMap :=
  applyResolutionSelections [] sample_differences
    (bk_selections (bulk_state sample_differences [] sample_differences [] (js "up"))).

Example sample_all_is : sample_all = [
  (js "gpt", [(model_ratio, JNum (num_of_Z 5)); (completion_ratio, JNum (num_of_Z 4))]);
  (js "dall", [(model_price, JNum (num_of_Z 2))]);
  (js "claude", [(billing_expr, JStr (js "p * 3")); (billing_mode, JStr (js "tiered_expr"))])].
Proof. vm_compute. reflexivity. Qed.

Lemma sample_diffs_nodup : NoDup sample_differences.*1.
Proof. apply (bool_decide_unpack _). vm_compute. done. Qed.

Lemma sample_sync_run : sync_run (MkSync sample_differences sample_all).
Proof.
  change (MkSync sample_differences sample_all) with
    (handle (BulkSelect sample_differences [] (js "up")) (handle (Fetched sample_differences) (MkSync [] []))).
  apply sync_next; [apply sync_next; [constructor|constructor; apply sample_diffs_nodup]|by constructor].
Qed.

Lemma selection_consistent_witness : resolutions_ok (MkSync sample_differences sample_all).
Proof. apply (selection_consistent _ sample_sync_run). Defined.

Lemma bulk_is_sequential_witness :
  map_get (js "gpt") (applyResolutionSelections [] sample_differences ([MkSel (js "gpt") model_ratio (JNum (num_of_Z 5)) (js "up")] ++
    [MkSel (js "gpt") model_price (JNum (num_of_Z 1)) (js "other")])) =
  map_get (js "gpt") (applyResolutionSelections (applyResolutionSelections [] sample_differences
    [MkSel (js "gpt") model_ratio (JNum (num_of_Z 5)) (js "up")]) sample_differences [MkSel (js "gpt") model_price (JNum (num_of_Z 1)) (js "other")]).
Proof. apply bulk_is_sequential. constructor. Defined.

Definition typed_entries (data : list ModelRowDiffs) : bool :=
  forallb (fun row => forallb (fun e => forallb (fun u => comparable e.1 u.2) (upstreams e.2)) row.2) data.

Lemma typed_well data : typed_entries data = true -> well_typed data.
Proof.
  intros H row Hrow rt source Hs. unfold upstream_value in *. destruct (map_get rt row.2) as [e|] eqn:Ee; [|done].
  destruct (map_get source (upstreams e)) as [v|] eqn:Ev; [|done]. apply map_get_mem, list_elem_of_In in Ee, Ev. apply list_elem_of_In in Hrow.
  unfold typed_entries in H. rewrite forallb_forall in H. specialize (H _ Hrow). rewrite forallb_forall in H. specialize (H _ Ee).
  rewrite forallb_forall in H. apply (H _ Ev).
Qed.

Lemma sample_typed : well_typed sample_differences.
Proof. apply typed_well. vm_compute. reflexivity. Qed.

Lemma select_all_selects_witness :
  let bulk res := bulk_state sample_differences res sample_differences [] (js "up") in
  selectedCount (bulk sample_all) = selectableCount (bulk sample_all) /\ selectableCount (bulk sample_all) = 4.
Proof.
  split; [|vm_compute; reflexivity].
  destruct (select_all_selects sample_differences [] sample_differences [] (js "up") sample_diffs_nodup (NoDup_nil_2)
    (fun x H => H) sample_typed) as [H _]. unfold sample_all. exact H.
Defined.

(** The options before: "gpt" has a fixed price, "claude" has an expression and "dall" ratios. *)
Definition sample_current : Ratios :=
  List.map (fun k => (k,
    if k =s js "ModelPrice" then [(js "gpt", JNum (num_of_Z 1))]
    else if k =s js "ModelRatio" then [(js "dall", JNum (num_of_Z 6)); (js "old", JNum (num_of_Z 7))]
    else if k =s js "billing_setting.billing_mode" then [(js "claude", JStr (js "tiered_expr"))]
    else if k =s js "billing_setting.billing_expr" then [(js "claude", JStr (js "p * 9"))]
    else [])) OPTION_KEYS.

Lemma sample_ratios_ok : ratios_ok sample_current.
Proof.
  split; [vm_compute; reflexivity|]. intros k. unfold table_of, sample_current, OPTION_KEYS. cbn [List.map map_get].
  repeat (case_bool_decide; [apply (bool_decide_unpack _); vm_compute; done|]). constructor.
Qed.

Lemma sample_keys : NoDup sample_all.*1 /\ Forall (fun e => NoDup e.2.*1) sample_all.
Proof.
  rewrite sample_all_is. split; [apply (bool_decide_unpack _); vm_compute; done|].
  repeat constructor; cbn; repeat (apply not_elem_of_cons; split; [done|]); apply not_elem_of_nil.
Qed.

Definition sample_table (rt : RatioType) : Table :=
  match rt with
  | model_price => [(js "gpt", JNum (num_of_Z 1))]
  | model_ratio => [(js "dall", JNum (num_of_Z 6)); (js "old", JNum (num_of_Z 7))]
  | billing_mode => [(js "claude", JStr (js "tiered_expr"))]
  | billing_expr => [(js "claude", JStr (js "p * 9"))]
  | _ => []
  end.

Lemma sample_table_of rt : table_of sample_current (optionKeyBySyncField rt) = sample_table rt.
Proof. destruct rt; vm_compute; reflexivity. Qed.

Lemma sample_writable_sync : writable sample_all sample_current.
Proof.
  split.
  - intros rt. rewrite sample_table_of. destruct rt; unfold sample_table; plain_table_done.
  - rewrite sample_all_is. intros model r Hg%map_get_mem. rewrite !elem_of_cons in Hg.
    destruct Hg as [[= -> ->]|[[= -> ->]|[[= -> ->]|Hg%not_elem_of_nil]]]; [..|done];
      (split; [split; [units_done|vm_compute; reflexivity]|]); intros rt v Hv%map_get_mem; rewrite ?elem_of_cons in Hv;
      repeat (destruct Hv as [Hv|Hv]; [pose proof (f_equal fst Hv) as Er; pose proof (f_equal snd Hv) as Ev; cbn [fst snd] in Er, Ev; rewrite Er, Ev;
        match goal with |- plain ?t => let t' := eval vm_compute in t in change (plain t') end; cbn [plain];
        first [apply num_reads_digits; vm_compute; reflexivity|units_done]|]); by apply not_elem_of_nil in Hv.
Qed.

Lemma sync_reads_witness :
  exists ups stored t, performSync sample_all sample_current = inr ups /\ send ups (List.map (fun _ => Stored) ups) = (stored, true) /\
    parse_options (options_of stored) = inr t /\ forall model, entries_of t model = synced_entries sample_all sample_current model.
Proof. apply sync_reads; [apply sample_keys|apply sample_keys|apply sample_ratios_ok|apply sample_writable_sync]. Defined.

Definition sample_final : Ratios := match finalRatios sample_all sample_current with inr f => f | inl _ => [] end.

Lemma sample_final_is : finalRatios sample_all sample_current = inr sample_final.
Proof. vm_compute. reflexivity. Qed.

Lemma sample_each_ok : Forall (fun e => resolution_ok e.2) sample_all.
Proof.
  pose proof (selection_consistent _ sample_sync_run) as [_ Hk He]. apply Forall_forall. intros [m r] Hin. by apply (He m), map_get_in.
Qed.

Lemma synced_price_or_ratio_witness :
  entry sample_final (js "ModelPrice") (js "gpt") = None /\ entry sample_current (js "ModelPrice") (js "gpt") <> None.
Proof.
  split; [|by vm_compute].
  apply (synced_price_or_ratio sample_all sample_current sample_final (js "gpt") [(model_ratio, JNum (num_of_Z 5)); (completion_ratio, JNum (num_of_Z 4))]);
    [apply sample_keys|apply sample_each_ok|apply sample_ratios_ok|vm_compute; reflexivity|apply sample_final_is|vm_compute; reflexivity].
Defined.

(** A selection that needs no confirmation: the expression of "claude". *)
Definition sample_claude : ResolutionsMap := [(js "claude", [(billing_expr, JStr (js "p * 3")); (billing_mode, JStr (js "tiered_expr"))])].

Lemma sample_claude_keys : NoDup sample_claude.*1 /\ Forall (fun e => NoDup e.2.*1) sample_claude.
Proof.
  split; [apply (bool_decide_unpack _); vm_compute; done|].
  repeat constructor; cbn; repeat (apply not_elem_of_cons; split; [done|]); apply not_elem_of_nil.
Qed.

Lemma unconfirmed_sync_keeps_witness :
  exists final, finalRatios sample_claude sample_current = inr final /\ entry final (optionKeyBySyncField model_ratio) (js "old") <> None.
Proof.
  eexists. split; [vm_compute; reflexivity|].
  apply (unconfirmed_sync_keeps sample_differences sample_claude sample_current);
    [apply sample_claude_keys|apply sample_claude_keys|apply sample_ratios_ok|vm_compute; reflexivity|vm_compute; reflexivity|vm_compute; reflexivity|by vm_compute].
Defined.

(** A model that has both is in the category of its fixed price: a fixed price
    that is synced for it is no conflict, and its ratios are deleted unasked. *)
Example both_kinds_unasked :
  let both := js "both" in
  let table v := [(both, JNum (num_of_Z v))] in
  let cur := map_set (js "ModelPrice") (table 1%Z) (map_set (js "ModelRatio") (table 2%Z) sample_current) in
  let res := [(both, [(model_price, JNum (num_of_Z 3))])] in
  conflicts [] res cur = [] /\
  match finalRatios res cur with
  | inr final => entry final (js "ModelPrice") both = Some (JNum (num_of_Z 3)) /\ entry final (js "ModelRatio") both = None
  | inl _ => False
  end.
Proof. vm_compute. repeat split. Qed.

Definition sample_price : ResolutionsMap := [(js "claude", [(model_price, JNum (num_of_Z 2))])].

Lemma price_sync_keeps_tiered_witness :
  exists final, finalRatios sample_price sample_current = inr final /\ is_tiered (js "claude") (tables_of final) = true.
Proof.
  eexists. split; [vm_compute; reflexivity|].
  apply (price_sync_keeps_tiered sample_price sample_current _ (js "claude") [(model_price, JNum (num_of_Z 2))]);
    [apply (bool_decide_unpack _); vm_compute; done|repeat constructor; apply not_elem_of_nil|apply sample_ratios_ok|vm_compute; reflexivity..].
Defined.

Lemma synced_differences_witness :
  map_get (js "dall") (differences (handle SyncSucceeded (MkSync sample_differences sample_all))) =
  Some [(model_ratio, from_source "other" (JNum (num_of_Z 9)))].
Proof.
  rewrite (synced_differences (MkSync sample_differences sample_all) (js "dall"));
    [vm_compute; reflexivity|apply sample_diffs_nodup|repeat constructor; done|apply sample_keys].
Defined.

(** The options are stored one after the other: when the request for the eighth
    fails the ratios of "dall" are gone and its price is not there. *)
Example half_stored :
  let answers := [Stored; Stored; Stored; Stored; Stored; Stored; Stored; Failed] in
  match performSync sample_all sample_current with
  | inr ups =>
      let '(stored, ok) := send ups answers in
      ok = false /\ has_entry sample_current (js "dall") (js "ModelRatio") = true /\
      match parse_ratios (stored.*1) (fun k => nullish (map_get k stored) []) with
      | inr r => existsb (has_entry r (js "dall")) (js "ModelPrice" :: RATIO_OPTIONS) = false
      | inl _ => False
      end /\ map_get (js "ModelPrice") stored = None
  | inl _ => False
  end.
Proof. vm_compute. repeat split. Qed.

(** The updater changes the records it is given: run again on the state before,
    as React does in its strict mode, it leaves models without a difference. *)
Example updater_run_twice :
  let d := [(js "gpt", [(model_ratio, from_source "up" (JNum (num_of_Z 5)))])] in
  let res := [(js "gpt", [(model_ratio, JNum (num_of_Z 5))])] in
  let '(prev, next) := remove_resolved res d in
  next = [] /\ (remove_resolved res prev).2 = [(js "gpt", [])].
Proof. vm_compute. split; reflexivity. Qed.
