(* ===== verification/ParamOverride.v ===== *)
(** Parameter overrides of a channel
    (channels/components/dialogs/param-override-editor-dialog.tsx): the rules the
    dialog edits, reading them from the stored JSON text, checking them and writing
    them back, and the drafts of the two rule kinds with an editor of their own.

    Identifiers of rules and conditions come from a counter of the module and the
    clock; [clock n] is what [Date.now()] answers for the counter value [n].
    Values are written with [JSON.stringify] and read back with [JSON.parse] where
    the text is JSON, and as they are otherwise. *)

From Stdlib Require Import NArith ZArith Lia.
From stdpp Require Import base list strings.
From S2P Require Import Prelude JsString JsNum Json JsTable.

(** * Rules and conditions *)

Record ParamOverrideCondition := MkCondition {
  cd_id : jstr; cd_path : jstr; cd_mode : jstr; cd_value_text : jstr; cd_invert : bool; cd_pass_missing_key : bool }.

Record ParamOverrideOperation := MkOperation {
  op_id : jstr; op_description : jstr; op_path : jstr; op_mode : jstr; op_from : jstr; op_to : jstr;
  op_value_text : jstr; op_keep_origin : bool; op_logic : jstr; op_conditions : list ParamOverrideCondition }.

(** A list of values with the labels they are shown with. *)
Definition OPERATION_MODE_OPTIONS : list (jstr * jstr) := [
  (js "set", js "Set Field"); (js "delete", js "Delete Field"); (js "append", js "Append to End");
  (js "prepend", js "Prepend to Start"); (js "copy", js "Copy Field"); (js "move", js "Move Field");
  (js "replace", js "String Replace"); (js "regex_replace", js "Regex Replace");
  (js "trim_prefix", js "Trim Prefix"); (js "trim_suffix", js "Trim Suffix");
  (js "ensure_prefix", js "Ensure Prefix"); (js "ensure_suffix", js "Ensure Suffix");
  (js "trim_space", js "Trim Space"); (js "to_lower", js "To Lowercase"); (js "to_upper", js "To Uppercase");
  (js "return_error", js "Return Custom Error"); (js "prune_objects", js "Prune Object Items");
  (js "pass_headers", js "Pass Through Headers"); (js "sync_fields", js "Sync Fields");
  (js "set_header", js "Set Request Header"); (js "delete_header", js "Delete Request Header");
  (js "copy_header", js "Copy Request Header"); (js "move_header", js "Move Request Header")].

Definition OPERATION_MODE_VALUES : list jstr := OPERATION_MODE_OPTIONS.*1.

Definition CONDITION_MODE_OPTIONS : list (jstr * jstr) := [
  (js "full", js "Exact Match"); (js "prefix", js "Prefix"); (js "suffix", js "Suffix"); (js "contains", js "Contains");
  (js "gt", js "Greater Than"); (js "gte", js "Greater Than or Equal"); (js "lt", js "Less Than");
  (js "lte", js "Less Than or Equal")].

Definition CONDITION_MODE_VALUES : list jstr := CONDITION_MODE_OPTIONS.*1.

(** Which parts a rule of a mode has. *)
Record ModeMeta := MkMeta {
  m_path : bool; m_pathOptional : bool; m_value : bool; m_from : bool; m_to : option bool; m_keepOrigin : bool; m_pathAlias : bool }.

Definition no_meta : ModeMeta := MkMeta false false false false None false false.
Definition path_meta : ModeMeta := MkMeta true false false false None false false.
Definition path_value_meta : ModeMeta := MkMeta true false true false None false false.
Definition set_meta : ModeMeta := MkMeta true false true false None true false.
Definition copy_meta : ModeMeta := MkMeta false false false true (Some true) false false.
Definition replace_meta : ModeMeta := MkMeta true false false true (Some false) false false.
Definition alias_meta : ModeMeta := MkMeta false false false true (Some true) true true.

Definition MODE_META : list (jstr * ModeMeta) := [
  (js "delete", path_meta); (js "set", set_meta); (js "append", set_meta); (js "prepend", set_meta);
  (js "copy", copy_meta); (js "move", copy_meta); (js "replace", replace_meta); (js "regex_replace", replace_meta);
  (js "trim_prefix", path_value_meta); (js "trim_suffix", path_value_meta); (js "ensure_prefix", path_value_meta);
  (js "ensure_suffix", path_value_meta); (js "trim_space", path_meta); (js "to_lower", path_meta); (js "to_upper", path_meta);
  (js "return_error", MkMeta false false true false None false false);
  (js "prune_objects", MkMeta false true true false None false false);
  (js "pass_headers", MkMeta false false true false None true false); (js "sync_fields", copy_meta);
  (js "set_header", set_meta); (js "delete_header", path_meta); (js "copy_header", alias_meta); (js "move_header", alias_meta)].

(** [MODE_META\[mode\] || MODE_META.set] of a mode of the list. *)
Definition mode_meta (mode : jstr) : ModeMeta := map_get mode MODE_META ?? set_meta.

Definition VALUE_REQUIRED_MODES : list jstr :=
  List.map js ["trim_prefix"; "trim_suffix"; "ensure_prefix"; "ensure_suffix"; "set_header"; "return_error"; "prune_objects"; "pass_headers"]%string.
Definition FROM_REQUIRED_MODES : list jstr :=
  List.map js ["copy"; "move"; "replace"; "regex_replace"; "copy_header"; "move_header"; "sync_fields"]%string.
Definition TO_REQUIRED_MODES : list jstr := List.map js ["copy"; "move"; "copy_header"; "move_header"; "sync_fields"]%string.

Definition has (set : list jstr) (v : jstr) : bool := bool_decide (v ∈ set).

(** [SET.has(v) ? v : other] of a value of any type. *)
Definition known_or (set : list jstr) (v : jv) (other : jstr) : jstr :=
  match v with JStr s => if has set s then s else other | _ => other end.

(** * Values and their texts *)

Definition toValueText (value : jv) : jstr :=
  match value with
  | JUndef => []
  | JStr s => s
  | _ => json_stringify value
  end.

Definition parseLooseValue (valueText : jstr) : jv :=
  let raw := trim valueText in
  if negb (truthy raw) then JStr [] else nullish (json_parse raw) (JStr raw).

Definition verifyJSON (text : jstr) : bool := is_some (json_parse text).

(** * Identifiers *)

(** A computation that draws identifiers: the counter goes in and out; [None] is
    a thrown TypeError. *)
Definition Gen (A : Type) : Type := N -> option A * N.
Definition ret {A} (x : A) : Gen A := fun s => (Some x, s).
Definition throw {A} : Gen A := fun s => (None, s).
Definition gbind {A B} (m : Gen A) (f : A -> Gen B) : Gen B :=
  fun s => match m s with (Some x, s') => f x s' | (None, s') => (None, s') end.
Definition lift {A} (o : option A) : Gen A := match o with Some x => ret x | None => throw end.
Notation "'draw' x <- m ; k" := (gbind m (fun x => k)) (at level 200, x pattern, m at level 100, k at level 200) : js_scope.

Fixpoint gmap_list {A B} (f : A -> Gen B) (l : list A) : Gen (list B) :=
  match l with
  | [] => ret []
  | x :: t => draw y <- f x; draw ys <- gmap_list f t; ret (y :: ys)
  end.

Section Rules.
Context (clock : N -> N).

Definition id_at (n : N) : jstr := js "po_" ++ print_N (clock n) ++ js "_" ++ print_N n.

Definition nextLocalId : Gen jstr := fun s => (Some (id_at s), (s + 1)%N).

(** ** Reading rules *)

(** Only [undefined] is replaced by the default argument; a property of null
    throws. *)
Definition with_properties (v : jv) : Gen jv :=
  match v with JNull => throw | JUndef => ret (JObj []) | _ => ret v end.

Definition normalizeCondition (condition : jv) : Gen ParamOverrideCondition :=
  draw id <- nextLocalId;
  draw c <- with_properties condition;
  ret (MkCondition id (string_or_empty (jv_get c (js "path"))) (known_or CONDITION_MODE_VALUES (jv_get c (js "mode")) (js "full"))
         (toValueText (jv_get c (js "value"))) (is_true (jv_get c (js "invert"))) (is_true (jv_get c (js "pass_missing_key")))).

Definition createDefaultCondition : Gen ParamOverrideCondition := normalizeCondition (JObj []).

Definition logic_of (v : jv) : option jstr :=
  match js_String (jv_or v (JStr (js "OR"))) with
  | Some s => Some (if upper_is (js "AND") s then js "AND" else js "OR")
  | None => None
  end.

Definition normalizeOperation (operation : jv) : Gen ParamOverrideOperation :=
  draw id <- nextLocalId;
  draw o <- with_properties operation;
  draw logic <- lift (logic_of (jv_get o (js "logic")));
  draw conditions <- match jv_get o (js "conditions") with
                     | JArr l => gmap_list normalizeCondition l
                     | _ => ret []
                     end;
  ret (MkOperation id (string_or_empty (jv_get o (js "description"))) (string_or_empty (jv_get o (js "path")))
         (known_or OPERATION_MODE_VALUES (jv_get o (js "mode")) (js "set"))
         (string_or_empty (jv_get o (js "from"))) (string_or_empty (jv_get o (js "to"))) (toValueText (jv_get o (js "value")))
         (is_true (jv_get o (js "keep_origin"))) logic conditions).

Definition createDefaultOperation : Gen ParamOverrideOperation := normalizeOperation (JObj [(js "mode", JStr (js "set"))]).

(** ** The draft of a custom error *)

Record ReturnErrorDraft := MkErrorDraft {
  re_message : jstr; re_statusCode : num; re_code : jstr; re_type : jstr; re_skipRetry : bool; re_simpleMode : bool }.

Definition error_defaults : ReturnErrorDraft := MkErrorDraft [] (num_of_Z 400) [] [] true true.

(** [Number.isInteger(x) && x >= 100 && x <= 599 ? x : 400] *)
Definition status_or_400 (x : num) : num :=
  if (num_is_integer x && num_leb (num_of_Z 100) x && num_leb x (num_of_Z 599))%bool then x else num_of_Z 400.

(** [String(v).trim()] in the [try] block. *)
Definition trimmed_string (v : jv) : option jstr := option_map trim (js_String v).

Definition error_draft_of (parsed : jv) : option ReturnErrorDraft :=
  let status := jv_get parsed (js "status_code") in
  match js_Number (if is_undefined status then jv_get parsed (js "status") else status) with
  | None => None
  | Some statusValue =>
  match trimmed_string (jv_or (jv_or (jv_get parsed (js "message")) (jv_get parsed (js "msg"))) (JStr [])) with
  | None => None
  | Some message =>
  match trimmed_string (jv_or (jv_get parsed (js "code")) (JStr [])) with
  | None => None
  | Some code =>
  match trimmed_string (jv_or (jv_get parsed (js "type")) (JStr [])) with
  | None => None
  | Some type =>
      Some (MkErrorDraft message (status_or_400 statusValue) code type (negb (is_false (jv_get parsed (js "skip_retry")))) false)
  end end end end.

Definition parseReturnErrorDraft (valueText : jstr) : ReturnErrorDraft :=
  let raw := trim valueText in
  let plain_text := MkErrorDraft raw (num_of_Z 400) [] [] true true in
  if negb (truthy raw) then error_defaults
  else
    match json_parse raw with
    | Some parsed => if as_object parsed then error_draft_of parsed ?? plain_text else plain_text
    | None => plain_text
    end.

(** [if (b) payload\[k\] = v] *)
Definition assign (b : bool) (k : jstr) (v : jv) (payload : list (jstr * jv)) : list (jstr * jv) :=
  if b then map_set k v payload else payload.

Definition buildReturnErrorValueText (draft : ReturnErrorDraft) : jstr :=
  let message := trim (re_message draft) in
  if re_simpleMode draft then message
  else
    let code := trim (re_code draft) in
    let type := trim (re_type draft) in
    let payload := [(js "message", JStr message); (js "status_code", JNum (status_or_400 (re_statusCode draft)))] in
    let payload := assign (truthy code) (js "code") (JStr code) payload in
    let payload := assign (truthy type) (js "type") (JStr type) payload in
    let payload := assign (negb (re_skipRetry draft)) (js "skip_retry") (JBool false) payload in
    json_stringify (JObj payload).

(** ** The draft of a pruning rule *)

Definition PruneRule : Type := ParamOverrideCondition.

Record PruneObjectsDraft := MkPruneDraft {
  pd_simpleMode : bool; pd_typeText : jstr; pd_logic : jstr; pd_recursive : bool; pd_rules : list PruneRule }.

Definition prune_defaults : PruneObjectsDraft := MkPruneDraft true [] (js "AND") true [].
Definition prune_text (typeText : jstr) : PruneObjectsDraft := MkPruneDraft true typeText (js "AND") true [].

Definition normalizePruneRule (rule : jv) : Gen PruneRule := normalizeCondition rule.

(** The rules of an object from paths to values. *)
Definition rules_of_entries (v : jv) : Gen (list PruneRule) :=
  match v with
  | JObj l => gmap_list (fun e => normalizePruneRule (JObj [(js "path", JStr e.1); (js "mode", JStr (js "full")); (js "value", e.2)])) l
  | _ => ret []
  end.

Definition rules_of_conditions (v : jv) : Gen (list PruneRule) :=
  match v with
  | JArr l => gmap_list (normalizePruneRule) (List.filter (fun item => jv_truthy item && is_object item)%bool l)
  | _ => rules_of_entries v
  end.

(** [try { m } catch { other }] *)
Definition catching {A} (m : Gen A) (other : A) : Gen A :=
  fun s => match m s with (Some x, s') => (Some x, s') | (None, s') => (Some other, s') end.

Definition prune_draft_of (parsed : jv) : Gen PruneObjectsDraft :=
  match parsed with
  | JStr s => ret (prune_text (trim s))
  | JObj _ =>
      draw where_rules <- rules_of_entries (jv_get parsed (js "where"));
      draw condition_rules <- rules_of_conditions (jv_get parsed (js "conditions"));
      let type := jv_get parsed (js "type") in
      draw typeText <- if is_undefined type then ret [] else lift (trimmed_string type);
      draw logic <- lift (js_String (jv_or (jv_get parsed (js "logic")) (JStr (js "AND"))));
      let hasAdvancedFields := existsb (fun k => negb (is_undefined (jv_get parsed k)))
                                 [js "logic"; js "recursive"; js "where"; js "conditions"] in
      ret (MkPruneDraft (negb hasAdvancedFields) typeText (if upper_is (js "OR") logic then js "OR" else js "AND")
             (negb (is_false (jv_get parsed (js "recursive")))) (where_rules ++ condition_rules))
  | JNull | JUndef => ret (prune_text [])
  | _ => draw s <- lift (js_String parsed); ret (prune_text (trim s))
  end.

Definition parsePruneObjectsDraft (valueText : jstr) : Gen PruneObjectsDraft :=
  let raw := trim valueText in
  if negb (truthy raw) then ret prune_defaults
  else
    match json_parse raw with
    | Some parsed => catching (prune_draft_of parsed) (prune_text raw)
    | None => ret (prune_text raw)
    end.

Definition prune_condition (rule : PruneRule) : jv :=
  let valueRaw := trim (cd_value_text rule) in
  let payload := [(js "path", JStr (trim (cd_path rule)));
                  (js "mode", JStr (if has CONDITION_MODE_VALUES (cd_mode rule) then cd_mode rule else js "full"))] in
  let payload := assign (truthy valueRaw) (js "value") (parseLooseValue valueRaw) payload in
  let payload := assign (cd_invert rule) (js "invert") (JBool true) payload in
  JObj (assign (cd_pass_missing_key rule) (js "pass_missing_key") (JBool true) payload).

Definition buildPruneObjectsValueText (draft : PruneObjectsDraft) : jstr :=
  let typeText := trim (pd_typeText draft) in
  if pd_simpleMode draft then typeText
  else
    let conditions := List.map prune_condition (List.filter (fun rule => truthy (trim (cd_path rule))) (pd_rules draft)) in
    let payload := assign (truthy typeText) (js "type") (JStr typeText) [] in
    let payload := assign (upper_is (js "OR") (or_str (pd_logic draft) (js "AND"))) (js "logic") (JStr (js "OR")) payload in
    let payload := assign (negb (pd_recursive draft)) (js "recursive") (JBool false) payload in
    let payload := assign (Nat.ltb 0 (length conditions)) (js "conditions") (JArr conditions) payload in
    if (negb (truthy typeText) && negb (Nat.ltb 0 (length conditions)))%bool
    then json_stringify (JObj [(js "logic", JStr (js "AND"))])
    else json_stringify (JObj payload).

(** ** Endpoints of a synchronisation *)

Definition parseSyncTargetSpec (spec : jstr) : jstr * jstr :=
  let raw := trim spec in
  if negb (truthy raw) then (js "json", [])
  else
    match index_of (js ":") raw with
    | None => (js "json", raw)
    | Some idx =>
        let prefix := trim (take idx raw) in
        let key := trim (drop (idx + 1) raw) in
        if lower_is (js "header") prefix then (js "header", key) else (js "json", key)
    end.

Definition buildSyncTargetSpec (type key : jstr) : jstr :=
  let normalizedType := if type =s js "header" then js "header" else js "json" in
  let normalizedKey := trim key in
  if negb (truthy normalizedKey) then [] else normalizedType ++ js ":" ++ normalizedKey.

(** * What is shown of a rule *)

Definition mode_or_set (mode : jstr) : jstr := or_str mode (js "set").
Definition OPERATION_MODE_LABEL_MAP (mode : jstr) : jstr := map_get mode OPERATION_MODE_OPTIONS ?? mode.

Definition getOperationSummary (operation : ParamOverrideOperation) (index : nat) : jstr :=
  let mode := mode_or_set (op_mode operation) in
  let path := if mode =s js "sync_fields" then [] else trim (op_path operation) in
  print_N (N.of_nat (index + 1)) ++ js ". " ++ OPERATION_MODE_LABEL_MAP mode ++ [32; 183; 32]%N ++
  or_str path (or_str (trim (op_from operation)) (or_str (trim (op_to operation)) (js "-"))).

Definition getModePathLabel (mode : jstr) : jstr :=
  if has [js "set_header"; js "delete_header"] mode then js "Header Name"
  else if mode =s js "prune_objects" then js "Target Path (optional)" else js "Target Field Path".

Definition getModeFromLabel (mode : jstr) : jstr :=
  if mode =s js "replace" then js "Match Text" else if mode =s js "regex_replace" then js "Regex Pattern"
  else if has [js "copy_header"; js "move_header"] mode then js "Source Header" else js "Source Field".

Definition getModeToLabel (mode : jstr) : jstr :=
  if has [js "replace"; js "regex_replace"] mode then js "Replace With"
  else if has [js "copy_header"; js "move_header"] mode then js "Target Header" else js "Target Field".

Definition getModeValueLabel (mode : jstr) : jstr :=
  if mode =s js "set_header" then js "Header Value (supports string or JSON mapping)"
  else if mode =s js "pass_headers" then js "Pass-through Headers (comma-separated or JSON array)"
  else if has [js "trim_prefix"; js "trim_suffix"; js "ensure_prefix"; js "ensure_suffix"] mode then js "Prefix/Suffix Text"
  else if mode =s js "prune_objects" then js "Prune Rule (string or JSON object)" else js "Value (supports JSON or plain text)".

(** * Writing rules *)

Definition reorderOperations (ops : list ParamOverrideOperation) (sourceId targetId : jstr) (after : bool)
    : list ParamOverrideOperation :=
  if (negb (truthy sourceId) || negb (truthy targetId) || (sourceId =s targetId))%bool then ops
  else
    match list_find (fun o => op_id o = sourceId) ops with
    | None => ops
    | Some (srcIdx, moved) =>
        let next := delete srcIdx ops in
        match list_find (fun o => op_id o = targetId) next with
        | None => ops
        | Some (insertIdx, _) => let i := if after then insertIdx + 1 else insertIdx in take i next ++ moved :: drop i next
        end
    end.

Definition condition_touched (c : ParamOverrideCondition) : bool :=
  (truthy (trim (cd_path c)) || truthy (trim (cd_value_text c)) || negb (cd_mode c =s js "full") || cd_invert c ||
   cd_pass_missing_key c)%bool.

Definition isOperationBlank (operation : ParamOverrideOperation) : bool :=
  ((op_mode operation =s js "set") && negb (truthy (trim (op_path operation))) && negb (truthy (trim (op_from operation))) &&
   negb (truthy (trim (op_to operation))) && negb (truthy (trim (op_value_text operation))) &&
   negb (op_keep_origin operation) && negb (existsb condition_touched (op_conditions operation)))%bool.

(** [l.map((i) => String(i ?? '').trim()).filter(Boolean)] *)
Fixpoint header_names (l : list jv) : option (list jstr) :=
  match l with
  | [] => Some []
  | v :: t =>
      match trimmed_string (match v with JNull | JUndef => JStr [] | _ => v end), header_names t with
      | Some s, Some names => Some (if truthy s then s :: names else names)
      | _, _ => None
      end
  end.

Definition parsePassHeaderNames (rawValue : jv) : option (list jstr) :=
  match rawValue with
  | JArr l => header_names l
  | JObj _ =>
      match jv_get rawValue (js "headers") with
      | JArr l => header_names l
      | _ => let header := jv_get rawValue (js "header") in if is_undefined header then Some [] else header_names [header]
      end
  | JStr s => Some (List.filter truthy (List.map trim (split_unit 44 s)))
  | _ => Some []
  end.

Definition condition_payload (condition : ParamOverrideCondition) : jv :=
  let payload := [(js "path", JStr (trim (cd_path condition))); (js "mode", JStr (or_str (cd_mode condition) (js "full")));
                  (js "value", parseLooseValue (cd_value_text condition))] in
  let payload := assign (cd_invert condition) (js "invert") (JBool true) payload in
  JObj (assign (cd_pass_missing_key condition) (js "pass_missing_key") (JBool true) payload).

Definition buildConditionPayload (condition : ParamOverrideCondition) : option jv :=
  if negb (truthy (trim (cd_path condition))) then None else Some (condition_payload condition).

(** What an error says: a message about a rule, a message, or the TypeError of a
    value that cannot be a string. *)
Inductive Failure := RuleError (key : jstr) (line : nat) | PlainError (key : jstr) | TypeError.

(** The checks of one rule, in their order. Those that ask again for a value, of
    the modes that have one checked before, never answer. *)
Definition check_return_error (raw : jstr) (line : nat) : option Failure :=
  match json_parse raw with
  | Some parsed =>
      if as_object parsed then
        match trimmed_string (jv_or (jv_get parsed (js "message")) (JStr [])) with
        | Some m => if truthy m then None else Some (RuleError (js "Rule {{line}} return_error requires a message field") line)
        | None => None
        end
      else None
  | None => None
  end.

Definition check_pass_headers (raw : jstr) (line : nat) : option Failure :=
  match parsePassHeaderNames (parseLooseValue raw) with
  | None => Some TypeError
  | Some [] => Some (RuleError (js "Rule {{line}} pass_headers format is invalid") line)
  | Some _ => None
  end.

Definition validateOperation (op : ParamOverrideOperation) (line : nat) : option Failure :=
  let mode := mode_or_set (op_mode op) in
  let meta := mode_meta mode in
  let pathValue := truthy (trim (op_path op)) in
  let aliased := (m_pathAlias meta && pathValue)%bool in
  let raw := trim (op_value_text op) in
  if (m_path meta && negb pathValue)%bool then Some (RuleError (js "Rule {{line}} is missing target path") line)
  else if (has FROM_REQUIRED_MODES mode && negb (truthy (trim (op_from op))) && negb aliased)%bool
  then Some (RuleError (js "Rule {{line}} is missing source field") line)
  else if (has TO_REQUIRED_MODES mode && negb (truthy (trim (op_to op))) && negb aliased)%bool
  then Some (RuleError (js "Rule {{line}} is missing target field") line)
  else if (has VALUE_REQUIRED_MODES mode && negb (truthy raw))%bool
  then Some (RuleError (js "Rule {{line}} is missing value") line)
  else if mode =s js "return_error" then check_return_error raw line
  else if mode =s js "pass_headers" then check_pass_headers raw line
  else None.

Fixpoint validate_from (line : nat) (operations : list ParamOverrideOperation) : option Failure :=
  match operations with
  | [] => None
  | op :: t => match validateOperation op line with Some f => Some f | None => validate_from (S line) t end
  end.

Definition validateOperations (operations : list ParamOverrideOperation) : option Failure := validate_from 1 operations.

Definition operation_payload (operation : ParamOverrideOperation) : jv :=
  let mode := mode_or_set (op_mode operation) in
  let meta := mode_meta mode in
  let descriptionValue := trim (op_description operation) in
  let pathValue := trim (op_path operation) in
  let fromValue := trim (op_from operation) in
  let toValue := trim (op_to operation) in
  let to_meta := m_to meta ?? false in
  let payload := [(js "mode", JStr mode)] in
  let payload := assign (truthy descriptionValue) (js "description") (JStr descriptionValue) payload in
  let payload := assign (m_path meta) (js "path") (JStr pathValue) payload in
  let payload := assign (m_pathOptional meta && truthy pathValue) (js "path") (JStr pathValue) payload in
  let payload := assign (m_value meta) (js "value") (parseLooseValue (op_value_text operation)) payload in
  let payload := assign (m_keepOrigin meta && op_keep_origin operation) (js "keep_origin") (JBool true) payload in
  let payload := assign (m_from meta) (js "from") (JStr fromValue) payload in
  let payload := assign (negb to_meta && truthy toValue) (js "to") (JStr toValue) payload in
  let payload := assign to_meta (js "to") (JStr toValue) payload in
  let payload := assign (m_pathAlias meta && negb (jv_truthy (jv_get (JObj payload) (js "from"))) && truthy pathValue)
                   (js "from") (JStr pathValue) payload in
  let payload := assign (m_pathAlias meta && negb (jv_truthy (jv_get (JObj payload) (js "to"))) && truthy pathValue)
                   (js "to") (JStr pathValue) payload in
  let conditions := omap buildConditionPayload (op_conditions operation) in
  let payload := assign (Nat.ltb 0 (length conditions)) (js "conditions") (JArr conditions) payload in
  JObj (assign (Nat.ltb 0 (length conditions)) (js "logic")
          (JStr (if op_logic operation =s js "AND" then js "AND" else js "OR")) payload).

Definition buildOperationsJson (sourceOperations : list ParamOverrideOperation) (validate : bool) : Failure + jstr :=
  let filteredOps := List.filter (fun o => negb (isOperationBlank o)) sourceOperations in
  match filteredOps with
  | [] => inr []
  | _ =>
      match (if validate then validateOperations filteredOps else None) with
      | Some f => inl f
      | None => inr (json_stringify2 (JObj [(js "operations", JArr (List.map operation_payload filteredOps))]))
      end
  end.

(** * Reading the stored text *)

Inductive EditMode := EditVisual | EditJson.
Inductive VisualMode := VisualOperations | VisualLegacy.

(** An error text is what failed, if anything. *)
Record EditorState := MkEditorState {
  es_editMode : EditMode; es_visualMode : VisualMode; es_legacyValue : jstr; es_operations : list ParamOverrideOperation;
  es_jsonText : jstr; es_jsonError : option Failure }.

(** [parsed.operations] when it is an array of an object. *)
Definition operations_of (parsed : jv) : option (list jv) :=
  match parsed with
  | JObj _ => match jv_get parsed (js "operations") with JArr l => Some l | _ => None end
  | _ => None
  end.

(** The rules of a list of values; an empty one gives the default rule. *)
Definition read_operations (l : list jv) : Gen (list ParamOverrideOperation) :=
  match l with
  | [] => draw o <- createDefaultOperation; ret [o]
  | _ => gmap_list normalizeOperation l
  end.

Definition default_operations : Gen (list ParamOverrideOperation) := read_operations [].

Definition parseInitialState (text : jstr) : Gen EditorState :=
  let trimmed := trim text in
  if negb (truthy trimmed) then draw ops <- default_operations; ret (MkEditorState EditVisual VisualOperations [] ops [] None)
  else
    match json_parse trimmed with
    | None => draw ops <- default_operations; ret (MkEditorState EditJson VisualOperations [] ops text (Some (PlainError (js "Invalid JSON format"))))
    | Some parsed =>
        let pretty := json_stringify2 parsed in
        match operations_of parsed with
        | Some l => draw ops <- read_operations l; ret (MkEditorState EditVisual VisualOperations [] ops pretty None)
        | None =>
            draw ops <- default_operations;
            if as_object parsed then ret (MkEditorState EditVisual VisualLegacy pretty ops pretty None)
            else ret (MkEditorState EditJson VisualOperations [] ops pretty None)
        end
    end.

End Rules.

(** * Values read back *)

(** Values whose text reads back as they are: a string must not look like JSON. *)
Definition steady (v : jv) : Prop :=
  match v with
  | JStr u => units_ok u /\ trim u = u /\ json_parse u = None
  | _ => plain v
  end.

Lemma trim_stringify v : trim (json_stringify v) = json_stringify v.
Proof. apply trim_id, stringify_trimmed. Qed.

Lemma trim_stringify2 v : trim (json_stringify2 v) = json_stringify2 v.
Proof. apply trim_id, stringify_trimmed. Qed.

Lemma plain_nonempty gap v : plain v -> truthy (stringify_gap gap [] v) = true.
Proof. intros H. destruct (stringify_head gap [] v H) as (c & t & -> & _). done. Qed.

Lemma loose_stringify v : plain v -> parseLooseValue (json_stringify v) = v.
Proof.
  intros H. unfold parseLooseValue. rewrite trim_stringify. unfold json_stringify at 1. rewrite plain_nonempty by done.
  cbn [negb]. by rewrite json_parse_compact.
Qed.

Lemma loose_plain_text u : trim u = u -> json_parse u = None -> parseLooseValue u = JStr u.
Proof. intros Ht Hp. unfold parseLooseValue. rewrite Ht, Hp. by destruct u. Qed.

Lemma loose_reads v : steady v -> parseLooseValue (toValueText v) = v.
Proof.
  destruct v as [| |b|x|u|l|l]; intros H; try (by apply loose_stringify).
  - done.
  - destruct H as (_ & Ht & Hp). by apply loose_plain_text.
Qed.

Lemma loose_blank s : trim s = [] -> parseLooseValue s = JStr [].
Proof. intros H. unfold parseLooseValue. by rewrite H. Qed.

Lemma steady_plain v : steady v -> plain v.
Proof. destruct v; try done. by intros (H & _). Qed.

Lemma units_trim s : units_ok s -> units_ok (trim s).
Proof.
  unfold units_ok. rewrite !Forall_forall. intros H c Hc. apply H. unfold trim, trim_end, trim_start in Hc.
  rewrite elem_of_reverse in Hc. destruct (drop_while_suffix is_ws (reverse (drop_while is_ws s))) as (u & E & _).
  assert (Hc' : c ∈ reverse (drop_while is_ws s)) by (rewrite E; apply elem_of_app; by right).
  rewrite elem_of_reverse in Hc'. destruct (drop_while_suffix is_ws s) as (w & E' & _). rewrite E'. apply elem_of_app. by right.
Qed.

(** A text that is not JSON is a steady value. *)
Lemma text_steady s : units_ok s -> json_parse (trim s) = None -> steady (parseLooseValue s).
Proof.
  intros Hu Hp. unfold parseLooseValue. rewrite Hp. destruct (truthy (trim s)); cbn [negb nullish].
  - split; [by apply units_trim|]. split; [apply trim_idemp|done].
  - split; [by constructor|]. split; reflexivity.
Qed.

(** * Properties of assigned objects *)

Lemma get_assign b k v p k' :
  jv_get (JObj (assign b k v p)) k' = if (b && (k =s k'))%bool then v else jv_get (JObj p) k'.
Proof.
  unfold assign. destruct b; [|done]. cbn [andb jv_get]. destruct (k =s k') eqn:E.
  - apply jstr_eqb_true in E as ->. by rewrite map_get_set_eq.
  - apply jstr_eqb_false in E. by rewrite map_get_set_ne by congruence.
Qed.

Lemma get_here k v p : jv_get (JObj ((k, v) :: p)) k = v.
Proof. cbn. by rewrite bool_decide_true. Qed.

Lemma get_first k v p k' : jv_get (JObj ((k, v) :: p)) k' = if k =s k' then v else jv_get (JObj p) k'.
Proof.
  cbn. unfold jstr_eqb. destruct (decide (k = k')) as [->|H]; [by rewrite !bool_decide_true|].
  by rewrite !bool_decide_false by congruence.
Qed.

Lemma get_nil k : jv_get (JObj []) k = JUndef.
Proof. done. Qed.

(** Comparisons of literal keys. *)
Ltac keys :=
  repeat match goal with
  | |- context [js ?a =s js ?b] => let r := eval vm_compute in (js a =s js b) in change (js a =s js b) with r
  end.

Ltac getters := rewrite ?get_assign, ?get_first, ?get_nil; keys; rewrite ?andb_false_r, ?andb_true_r; cbv iota.

(** The keys of an object that are assigned are those of the names. *)
Definition plain_props (names : list jstr) (l : list (jstr * jv)) : Prop :=
  NoDup l.*1 /\ Forall (fun k => k ∈ names) l.*1 /\ Forall plain l.*2.

Lemma map_set_in k v (l : list (jstr * jv)) e : e ∈ map_set k v l -> e = (k, v) \/ e ∈ l.
Proof.
  induction l as [|[k' v'] l IH]; cbn [map_set]; intros H.
  - apply list_elem_of_singleton in H. by left.
  - case_bool_decide.
    + apply elem_of_cons in H as [->|H]; [left; congruence|right; by right].
    + apply elem_of_cons in H as [->|H]; [right; left|]. destruct (IH H) as [?|?]; [by left|right; by right].
Qed.

Lemma plain_assign names b k v l : k ∈ names -> plain v -> plain_props names l -> plain_props names (assign b k v l).
Proof.
  intros Hk Hv (H1 & H2 & H3). unfold assign. destruct b; [|done]. split_and!.
  - rewrite map_set_keys. destruct (is_some (map_get k l)) eqn:E; [done|].
    rewrite NoDup_app. split; [done|]. split; [|apply NoDup_singleton].
    intros x Hx ->%list_elem_of_singleton. by apply map_get_elem in Hx; congruence.
  - rewrite Forall_forall in *. intros x Hx. apply list_elem_of_fmap in Hx as (e & -> & He).
    apply map_set_in in He as [->|He]; [done|]. apply H2, list_elem_of_fmap. eauto.
  - rewrite Forall_forall in *. intros x Hx. apply list_elem_of_fmap in Hx as (e & -> & He).
    apply map_set_in in He as [->|He]; [done|]. apply H3, list_elem_of_fmap. eauto.
Qed.

Lemma plain_first names k v : k ∈ names -> plain v -> plain_props names [(k, v)].
Proof. intros Hk Hv. split; [apply NoDup_singleton|]. split; by repeat constructor. Qed.

Lemma plain_keyed names l :
  forallb (fun k => forallb (fun c => (c <? 65536)%N) k && negb (is_some (array_index k)))%bool names = true ->
  plain_props names l -> plain (JObj l).
Proof.
  intros Hn (H1 & H2 & H3). rewrite plain_obj. split; [done|]. split; [|by apply plain_list_Forall].
  rewrite forallb_forall in Hn. apply (Forall_impl _ _ _ H2). intros k Hk.
  apply list_elem_of_In, Hn, andb_prop in Hk as [Hu Ha]. split; [by apply units_check|]. by destruct (array_index k).
Qed.

(** * Identifiers drawn *)

Section Ids.
Context (clock : N -> N).

Lemma id_at_inj a b : id_at clock a = id_at clock b -> a = b.
Proof.
  unfold id_at. intros H. apply app_inv_head in H. apply print_N_inj.
  assert (Hno : forall n, 95%N ∉ print_N n).
  { intros n. pose proof (print_N_digits n) as Hd. unfold all_digits in Hd. apply andb_prop in Hd as [_ Hd]. by apply (all_digits_no 95). }
  assert (Hs : forall n m, split_unit 95 (print_N n ++ js "_" ++ print_N m) = [print_N n; print_N m]).
  { intros n m. change (js "_" ++ print_N m) with (95%N :: print_N m). rewrite split_unit_app by apply Hno.
    by rewrite split_unit_no by apply Hno. }
  apply (f_equal (split_unit 95)) in H. rewrite !Hs in H. congruence.
Qed.

(** An identifier drawn while the counter went from [s] to [s']. *)
Definition between (s s' : N) (id : jstr) : Prop := exists n, (s <= n < s')%N /\ id = id_at clock n.

(** What is drawn is fresh and distinct; [ids] are the identifiers in a result. *)
Definition draws {A} (ids : A -> list jstr) (m : Gen A) : Prop :=
  forall s, let '(r, s') := m s in
    (s <= s')%N /\ match r with Some x => NoDup (ids x) /\ Forall (between s s') (ids x) | None => True end.

Lemma between_weaken s s' t t' id : (t <= s)%N -> (s' <= t')%N -> between s s' id -> between t t' id.
Proof. intros H1 H2 (n & Hn & ->). exists n. split; [lia|done]. Qed.

Lemma between_disjoint s m s' l1 l2 :
  NoDup l1 -> NoDup l2 -> Forall (between s m) l1 -> Forall (between m s') l2 -> NoDup (l1 ++ l2).
Proof.
  intros H1 H2 F1 F2. rewrite NoDup_app. split_and!; [done| |done]. intros x Hx Hx'.
  rewrite Forall_forall in F1, F2. destruct (F1 x Hx) as (n & Hn & ->). destruct (F2 _ Hx') as (k & Hk & E).
  apply id_at_inj in E. lia.
Qed.

Lemma draws_ret {A} (ids : A -> list jstr) x : ids x = [] -> draws ids (ret x).
Proof. intros H s. simpl. rewrite H. split; [lia|]. split; [constructor|done]. Qed.

Lemma draws_throw {A} (ids : A -> list jstr) : draws ids throw.
Proof. intros s. simpl. by split; [lia|]. Qed.

(** The identifiers of two draws one after the other. *)
Lemma draws_bind {A B} (i : A -> list jstr) (j : A -> B -> list jstr) (ids : B -> list jstr) (m : Gen A) (f : A -> Gen B) :
  draws i m -> (forall x, draws (j x) (f x)) ->
  (forall x s y s', f x s = (Some y, s') -> ids y ≡ₚ i x ++ j x y) -> draws ids (gbind m f).
Proof.
  intros Hm Hf E s. unfold gbind. specialize (Hm s). destruct (m s) as [[x|] s1]; [|done].
  destruct Hm as (H1 & Hn & Hb). specialize (Hf x s1). destruct (f x s1) as [[y|] s2] eqn:Ef.
  - destruct Hf as (H2 & Hn' & Hb'). split; [lia|]. rewrite (E x s1 y s2 Ef). split.
    + by apply (between_disjoint s s1 s2).
    + apply Forall_app. split; [eapply (Forall_impl _ _ _ Hb)|eapply (Forall_impl _ _ _ Hb')];
        intros id Hid; (eapply between_weaken; [..|exact Hid]; lia).
  - split; [lia|done].
Qed.

Lemma draws_seq {A B} (ids : B -> list jstr) (m : Gen A) (f : A -> Gen B) :
  draws (fun _ => []) m -> (forall x, draws ids (f x)) -> draws ids (gbind m f).
Proof. intros Hm Hf. by apply (draws_bind (fun _ => []) (fun _ => ids)). Qed.

Lemma draws_lift {A} (o : option A) : draws (fun _ => []) (lift o).
Proof. destruct o; [by apply draws_ret|apply draws_throw]. Qed.

Lemma draws_list {A B} (ids : B -> list jstr) (f : A -> Gen B) l :
  (forall x, draws ids (f x)) -> draws (flat_map ids) (gmap_list f l).
Proof.
  intros Hf. induction l as [|x l IH]; [by apply draws_ret|]. cbn [gmap_list].
  apply (draws_bind ids (fun _ ys => flat_map ids (tl ys))); [done| |].
  - intros y. apply (draws_bind (flat_map ids) (fun _ _ => [])); [done|intros ys; by apply draws_ret|].
    intros ys s zs s' [= <- <-]. cbn [tl]. by rewrite app_nil_r.
  - intros y s zs s'. unfold gbind. destruct (gmap_list f l s) as [[ys|] s1]; [|done]. intros [= <- <-]. done.
Qed.

Lemma draws_next : draws (fun id => [id]) (nextLocalId clock).
Proof.
  intros s. simpl. split; [lia|]. split; [apply NoDup_singleton|]. constructor; [|done]. exists s. split; [lia|done].
Qed.

Lemma draws_properties v : draws (fun _ => []) (with_properties v).
Proof. destruct v; try (by apply draws_ret). apply draws_throw. Qed.

Lemma draws_catching {A} (ids : A -> list jstr) (m : Gen A) x : ids x = [] -> draws ids m -> draws ids (catching m x).
Proof.
  intros Hx Hm s. unfold catching. specialize (Hm s). destruct (m s) as [[y|] s']; [done|]. destruct Hm as [H _].
  split; [done|]. rewrite Hx. split; [constructor|done].
Qed.

Definition operation_ids (o : ParamOverrideOperation) : list jstr := op_id o :: List.map cd_id (op_conditions o).
Definition rule_ids (x : PruneObjectsDraft) : list jstr := List.map cd_id (pd_rules x).

Lemma draws_condition v : draws (fun c => [cd_id c]) (normalizeCondition clock v).
Proof.
  apply (draws_bind (fun id => [id]) (fun _ _ => [])); [apply draws_next| |].
  - intros id. apply draws_seq; [apply draws_properties|]. intros c. by apply draws_ret.
  - intros id s c s'. unfold gbind. destruct (with_properties v s) as [[x|] s1]; [|done]. by intros [= <- <-].
Qed.

Lemma flat_single {A B} (f : A -> B) l : flat_map (fun x => [f x]) l = List.map f l.
Proof. induction l as [|x l IH]; [done|]. cbn. by rewrite IH. Qed.

Lemma draws_perm {A} (i j : A -> list jstr) m : (forall x, i x = j x) -> draws i m -> draws j m.
Proof. intros E H s. specialize (H s). destruct (m s) as [[x|] s']; [|done]. by rewrite <-E. Qed.

Lemma draws_conditions (l : list jv) : draws (List.map cd_id) (gmap_list (normalizeCondition clock) l).
Proof. eapply draws_perm; [|apply (draws_list (fun c => [cd_id c])), draws_condition]. intros x. apply flat_single. Qed.

Lemma draws_operation v : draws operation_ids (normalizeOperation clock v).
Proof.
  apply (draws_bind (fun id => [id]) (fun _ o => List.map cd_id (op_conditions o))); [apply draws_next| |].
  - intros id. apply draws_seq; [apply draws_properties|]. intros o. apply draws_seq; [apply draws_lift|]. intros logic.
    apply (draws_bind (List.map cd_id) (fun _ _ => [])); [| |].
    + destruct (jv_get o (js "conditions")); try (by apply draws_ret). apply draws_conditions.
    + intros cs. by apply draws_ret.
    + intros cs s y s' [= <- <-]. by rewrite app_nil_r.
  - intros id s y s'. unfold gbind.
    destruct (with_properties v s) as [[o|] s1]; [|done]. destruct (lift _ s1) as [[l|] s2]; [|done].
    match goal with |- context [match ?m s2 with _ => _ end] => destruct (m s2) as [[cs|] s3] end; [|done]. by intros [= <- <-].
Qed.

Lemma draws_operations (l : list jv) : draws (flat_map operation_ids) (read_operations clock l).
Proof.
  destruct l as [|v l]; [|apply draws_list, draws_operation].
  apply (draws_bind operation_ids (fun _ _ => [])); [apply draws_operation|intros o; by apply draws_ret|].
  intros o s y s' [= <- <-]. cbn. by rewrite !app_nil_r.
Qed.

Lemma draws_prune text : draws rule_ids (parsePruneObjectsDraft clock text).
Proof.
  unfold parsePruneObjectsDraft. destruct (truthy (trim text)); [|by apply draws_ret]. cbn [negb].
  destruct (json_parse (trim text)) as [parsed|]; [|by apply draws_ret]. apply draws_catching; [done|].
  assert (Hr : forall f (l : list (jstr * jv)), draws (List.map cd_id) (gmap_list (fun e => normalizePruneRule clock (f e)) l)).
  { intros f l. eapply draws_perm; [|apply (draws_list (fun c => [cd_id c])); intros e; apply draws_condition]. intros x. apply flat_single. }
  assert (He : forall v, draws (List.map cd_id) (rules_of_entries clock v)).
  { intros v. destruct v; try (by apply draws_ret). apply Hr. }
  assert (Hc : forall v, draws (List.map cd_id) (rules_of_conditions clock v)).
  { intros v. destruct v; try apply (He JNull); [apply draws_conditions|apply He]. }
  destruct parsed; cbn [prune_draft_of]; try (by apply draws_ret);
    try (apply draws_seq; [apply draws_lift|intros ?; by apply draws_ret]).
  apply (draws_bind (List.map cd_id) (fun w y => drop (length w) (rule_ids y))); [apply He| |].
  - intros w. apply (draws_bind (List.map cd_id) (fun _ _ => [])); [apply Hc| |].
    + intros cr. apply draws_seq; [destruct (is_undefined _); [by apply draws_ret|apply draws_lift]|]. intros type.
      apply draws_seq; [apply draws_lift|]. intros logic. by apply draws_ret.
    + intros cr s y s'. unfold gbind. destruct (is_undefined _); cbn [ret].
      * destruct (lift _ s) as [[lg|] s1]; [|done]. intros [= <- <-]. unfold rule_ids. cbn [pd_rules].
        by rewrite List.map_app, app_nil_r, drop_app_length' by (by rewrite length_map).
      * destruct (lift _ s) as [[type|] s1]; [|done]. destruct (lift _ s1) as [[lg|] s2]; [|done]. intros [= <- <-].
        unfold rule_ids. cbn [pd_rules]. by rewrite List.map_app, app_nil_r, drop_app_length' by (by rewrite length_map).
  - intros w s y s'. unfold gbind. destruct (rules_of_conditions clock _ s) as [[cr|] s1]; [|done].
    match goal with |- context [match ?m s1 with _ => _ end] => destruct (m s1) as [[type|] s2] end; [|done].
    destruct (lift _ s2) as [[lg|] s3]; [|done]. intros [= <- <-]. unfold rule_ids. cbn [pd_rules].
    by rewrite List.map_app, drop_app_length' by (by rewrite length_map).
Qed.

End Ids.

(** * What is written is what is read *)

(** Rules without their identifiers. *)
Definition erase_condition (c : ParamOverrideCondition) : ParamOverrideCondition :=
  MkCondition [] (cd_path c) (cd_mode c) (cd_value_text c) (cd_invert c) (cd_pass_missing_key c).
Definition erase (o : ParamOverrideOperation) : ParamOverrideOperation :=
  MkOperation [] (op_description o) (op_path o) (op_mode o) (op_from o) (op_to o) (op_value_text o) (op_keep_origin o) (op_logic o)
    (List.map erase_condition (op_conditions o)).

(** A value text that is not changed by writing and reading it. *)
Record settled_text (s : jstr) : Prop := {
  st_value : steady (parseLooseValue s);
  st_blank : parseLooseValue s = JStr [] -> trim s = [] }.

Definition rewrite_text (s : jstr) : jstr := toValueText (parseLooseValue s).

Lemma rewrite_text_value s : settled_text s -> parseLooseValue (rewrite_text s) = parseLooseValue s.
Proof. intros H. apply loose_reads, H. Qed.

Lemma rewrite_text_blank s : settled_text s -> truthy (trim (rewrite_text s)) = truthy (trim s).
Proof.
  intros [H1 H2]. destruct (truthy (trim s)) eqn:E.
  - unfold rewrite_text. destruct (parseLooseValue s) as [| |b|x|u|l|l] eqn:Ev; try done;
      try (cbn [toValueText]; rewrite trim_stringify; by apply plain_nonempty).
    destruct H1 as (_ & Ht & _). cbn [toValueText]. rewrite Ht. apply truthy_true. intros ->.
    by rewrite H2 in E.
  - apply truthy_false in E. unfold rewrite_text. by rewrite (loose_blank s E).
Qed.

Record writable_condition (c : ParamOverrideCondition) : Prop := {
  wc_path : units_ok (cd_path c);
  wc_mode : cd_mode c ∈ CONDITION_MODE_VALUES;
  wc_value : steady (parseLooseValue (cd_value_text c)) }.

Definition canonicalCondition (c : ParamOverrideCondition) : ParamOverrideCondition :=
  MkCondition [] (trim (cd_path c)) (cd_mode c) (rewrite_text (cd_value_text c)) (cd_invert c) (cd_pass_missing_key c).

Lemma has_true set m : has set m = true <-> m ∈ set.
Proof. apply bool_decide_eq_true. Qed.

Lemma has_false set m : has set m = false <-> m ∉ set.
Proof. apply bool_decide_eq_false. Qed.

Lemma mode_in set m other : m ∈ set -> known_or set (JStr m) other = m.
Proof. intros H. unfold known_or, has. by rewrite bool_decide_true. Qed.

Lemma condition_mode_kept m : m ∈ CONDITION_MODE_VALUES -> or_str m (js "full") = m.
Proof.
  intros H. unfold or_str. destruct m; [|done]. by apply has_true in H.
Qed.

Lemma normalize_written_condition clock c s : writable_condition c ->
  exists c', normalizeCondition clock (condition_payload c) s = (Some c', (s + 1)%N) /\ erase_condition c' = canonicalCondition c.
Proof.
  intros [_ Hm _]. eexists. split; [reflexivity|]. unfold erase_condition. cbn [cd_path cd_mode cd_value_text cd_invert cd_pass_missing_key].
  unfold condition_payload. cbv zeta. getters. cbn [string_or_empty]. unfold canonicalCondition.
  rewrite (condition_mode_kept _ Hm), mode_in by done. by destruct (cd_invert c), (cd_pass_missing_key c).
Qed.

Lemma condition_payload_erase c : condition_payload (erase_condition c) = condition_payload c.
Proof. done. Qed.

Lemma condition_payload_canonical c : writable_condition c -> condition_payload (canonicalCondition c) = condition_payload c.
Proof.
  intros [_ _ Hv]. unfold condition_payload, canonicalCondition. cbn [cd_path cd_mode cd_value_text cd_invert cd_pass_missing_key].
  unfold rewrite_text. by rewrite trim_idemp, loose_reads.
Qed.

Lemma condition_plain c : writable_condition c -> plain (condition_payload c).
Proof.
  intros [Hp Hm Hv]. unfold condition_payload. cbv zeta.
  apply (plain_keyed (List.map js ["path"; "mode"; "value"; "invert"; "pass_missing_key"]%string)); [reflexivity|].
  repeat (apply plain_assign; [by apply has_true|done|]). split_and!.
  - apply (bool_decide_unpack _). by vm_compute.
  - repeat (constructor; [by apply has_true|]). constructor.
  - assert (Hum : units_ok (or_str (cd_mode c) (js "full"))).
    { rewrite (condition_mode_kept _ Hm). clear -Hm.
      assert (H : Forall units_ok CONDITION_MODE_VALUES) by (repeat (constructor; [units_done|]); constructor).
      rewrite Forall_forall in H. by apply H. }
    repeat constructor; [by apply units_trim|exact Hum|by apply steady_plain].
Qed.

(** The parts of a rule that are written, as they are read. *)
Definition canonicalOperation (o : ParamOverrideOperation) : ParamOverrideOperation :=
  let meta := mode_meta (op_mode o) in
  let path := trim (op_path o) in
  let aliased s := if m_pathAlias meta then or_str s path else s in
  let conditions := List.map canonicalCondition (List.filter (fun c => truthy (trim (cd_path c))) (op_conditions o)) in
  MkOperation [] (trim (op_description o)) (if (m_path meta || m_pathOptional meta)%bool then path else []) (op_mode o)
    (if m_from meta then aliased (trim (op_from o)) else []) (aliased (trim (op_to o)))
    (if m_value meta then rewrite_text (op_value_text o) else []) (m_keepOrigin meta && op_keep_origin o)
    (match conditions with [] => js "OR" | _ => op_logic o end) conditions.

Record writable (o : ParamOverrideOperation) : Prop := {
  wo_mode : op_mode o ∈ OPERATION_MODE_VALUES;
  wo_logic : op_logic o ∈ [js "OR"; js "AND"];
  wo_texts : Forall units_ok [op_description o; op_path o; op_from o; op_to o];
  wo_value : settled_text (op_value_text o);
  wo_conditions : Forall writable_condition (op_conditions o) }.

Lemma operation_mode_kept m : m ∈ OPERATION_MODE_VALUES -> mode_or_set m = m.
Proof. intros H. unfold mode_or_set, or_str. destruct m; [|done]. by apply has_true in H. Qed.

Lemma condition_payloads l :
  omap buildConditionPayload l = List.map condition_payload (List.filter (fun c => truthy (trim (cd_path c))) l).
Proof.
  induction l as [|c l IH]; [done|]. cbn [omap list_omap List.filter]. unfold buildConditionPayload at 1.
  destruct (truthy (trim (cd_path c))); cbn [negb]; [cbn [List.map]; by rewrite <-IH|exact IH].
Qed.

Lemma kept_conditions_payloads l : Forall writable_condition l ->
  omap buildConditionPayload (List.map canonicalCondition (List.filter (fun c => truthy (trim (cd_path c))) l)) = omap buildConditionPayload l.
Proof.
  intros H. rewrite !condition_payloads. induction H as [|c l Hc Hl IH]; [done|]. cbn [List.filter].
  destruct (truthy (trim (cd_path c))) eqn:E; [|done]. cbn [List.map List.filter].
  replace (truthy (trim (cd_path (canonicalCondition c)))) with true by (cbn [canonicalCondition cd_path]; by rewrite trim_idemp).
  cbn [List.map]. by rewrite IH, condition_payload_canonical.
Qed.

Lemma erased_conditions l : omap buildConditionPayload (List.map erase_condition l) = omap buildConditionPayload l.
Proof.
  induction l as [|c l IH]; [done|]. cbn [List.map omap list_omap].
  change (buildConditionPayload (erase_condition c)) with (buildConditionPayload c).
  destruct (buildConditionPayload c); [f_equal; exact IH|exact IH].
Qed.

Lemma operation_payload_erase o : operation_payload (erase o) = operation_payload o.
Proof. unfold operation_payload. by rewrite <-(erased_conditions (op_conditions o)). Qed.

Lemma normalize_written_conditions clock l s : Forall writable_condition l ->
  exists l' s', gmap_list (normalizeCondition clock) (List.map condition_payload l) s = (Some l', s') /\
    List.map erase_condition l' = List.map canonicalCondition l.
Proof.
  intros H. revert s. induction H as [|c l Hc Hl IH]; intros s; [by exists [], s|].
  destruct (normalize_written_condition clock c s Hc) as (c' & E & Ec). destruct (IH (s + 1)%N) as (l' & s' & E' & El).
  exists (c' :: l'), s'. cbn [List.map gmap_list]. unfold gbind at 1. rewrite E. unfold gbind at 1. rewrite E'.
  split; [done|]. cbn [List.map]. by rewrite Ec, El.
Qed.

(** The modes of the list by what their rules have. *)
Lemma mode_metas m : m ∈ OPERATION_MODE_VALUES ->
  mode_meta m ∈ [path_meta; path_value_meta; set_meta; copy_meta; replace_meta; alias_meta;
    MkMeta false false true false None false false; MkMeta false true true false None false false;
    MkMeta false false true false None true false].
Proof.
  intros H. assert (Hall : Forall (fun m => mode_meta m ∈ [path_meta; path_value_meta; set_meta; copy_meta; replace_meta; alias_meta;
    MkMeta false false true false None false false; MkMeta false true true false None false false;
    MkMeta false false true false None true false]) OPERATION_MODE_VALUES).
  { repeat constructor. }
  rewrite Forall_forall in Hall. by apply Hall.
Qed.

Ltac meta_cases H :=
  apply mode_metas in H; repeat (apply elem_of_cons in H as [H|H]); [..|by apply elem_of_nil in H].

Lemma logic_kept l : l ∈ [js "OR"; js "AND"] -> (if l =s js "AND" then js "AND" else js "OR") = l /\
  logic_of (JStr l) = Some l.
Proof. intros H. repeat (apply elem_of_cons in H as [->|H]); [..|by apply elem_of_nil in H]; split; reflexivity. Qed.

Ltac meta_cbn := cbn [m_path m_pathOptional m_value m_from m_to m_keepOrigin m_pathAlias path_meta path_value_meta set_meta copy_meta
  replace_meta alias_meta andb orb negb nullish].

(** What reading finds in a written rule. *)
Record reads_fields (p : jv) (o : ParamOverrideOperation) : Prop := {
  rf_description : string_or_empty (jv_get p (js "description")) = op_description o;
  rf_path : string_or_empty (jv_get p (js "path")) = op_path o;
  rf_mode : known_or OPERATION_MODE_VALUES (jv_get p (js "mode")) (js "set") = op_mode o;
  rf_from : string_or_empty (jv_get p (js "from")) = op_from o;
  rf_to : string_or_empty (jv_get p (js "to")) = op_to o;
  rf_value : toValueText (jv_get p (js "value")) = op_value_text o;
  rf_keep : is_true (jv_get p (js "keep_origin")) = op_keep_origin o;
  rf_logic : logic_of (jv_get p (js "logic")) = Some (op_logic o) }.

Lemma truthy_or s d : truthy s = true -> or_str s d = s.
Proof. unfold or_str. by intros ->. Qed.

Lemma string_if_truthy s : string_or_empty (if truthy s then JStr s else JUndef) = s.
Proof. by destruct s. Qed.

Lemma string_or_path (a p : jstr) :
  string_or_empty (if (negb (truthy a) && truthy p)%bool then JStr p else JStr a) = or_str a p.
Proof. unfold or_str. by destruct a, p. Qed.

Lemma payload_fields o : writable o -> reads_fields (operation_payload o) (canonicalOperation o).
Proof.
  intros [Hm Hl _ _ _]. unfold operation_payload, canonicalOperation. cbv zeta. rewrite (operation_mode_kept _ Hm).
  pose proof (mode_in _ _ (js "set") Hm) as Hk. pose proof (logic_kept _ Hl) as [Hl1 Hl2]. rewrite Hl1.
  set (cs := List.map canonicalCondition _). set (b := Nat.ltb 0 _).
  assert (Hb : match cs with [] => js "OR" | _ => op_logic o end = if b then op_logic o else js "OR").
  { unfold b, cs. rewrite condition_payloads, length_map. by destruct (List.filter _ _). }
  rewrite Hb. clearbody b cs. clear Hb. set (os := omap _ _). clearbody os.
  meta_cases Hm; rewrite Hm; meta_cbn; constructor;
    cbn [op_description op_path op_mode op_from op_to op_value_text op_keep_origin op_logic]; getters;
    rewrite ?string_if_truthy; cbn [jv_truthy]; rewrite ?string_or_path; try done;
    try (by destruct (op_keep_origin o)); try (by destruct b).
Qed.

Lemma payload_conditions o :
  jv_get (operation_payload o) (js "conditions") =
  if Nat.ltb 0 (length (omap buildConditionPayload (op_conditions o))) then JArr (omap buildConditionPayload (op_conditions o)) else JUndef.
Proof.
  unfold operation_payload. cbv zeta. set (os := omap _ _). getters. by destruct (Nat.ltb _ _).
Qed.

Lemma with_object l s : with_properties (JObj l) s = (Some (JObj l), s).
Proof. done. Qed.

Lemma read_operation clock o s : writable o ->
  exists o' s', normalizeOperation clock (operation_payload o) s = (Some o', s') /\ erase o' = canonicalOperation o.
Proof.
  intros H. pose proof (payload_fields o H) as [F1 F2 F3 F4 F5 F6 F7 F8].
  assert (Hc : exists l' s', match jv_get (operation_payload o) (js "conditions") with
                             | JArr l => gmap_list (normalizeCondition clock) l
                             | _ => ret []
                             end (s + 1)%N = (Some l', s') /\
                 List.map erase_condition l' = op_conditions (canonicalOperation o)).
  { rewrite payload_conditions, condition_payloads. unfold canonicalOperation. cbv zeta. cbn [op_conditions].
    set (l := List.filter _ _). rewrite length_map.
    assert (Hw : Forall writable_condition l).
    { pose proof (wo_conditions _ H) as Hw. rewrite Forall_forall in *. intros c Hc. apply Hw.
      apply list_elem_of_In, filter_In in Hc as [Hc _]. by apply list_elem_of_In. }
    destruct l as [|c l]; [by exists [], (s + 1)%N|]. cbn [length]. change (Nat.ltb 0 (S (length l))) with true. cbv iota.
    apply normalize_written_conditions. exact Hw. }
  destruct Hc as (l' & s' & Ec & El). eexists _, s'. split.
  - unfold normalizeOperation, gbind at 1. cbn [nextLocalId]. unfold gbind at 1.
    change (operation_payload o) with (operation_payload o). unfold operation_payload at 1. rewrite with_object.
    change (JObj _) with (operation_payload o). rewrite F8. unfold gbind at 1. cbn [lift ret]. unfold gbind.
    rewrite Ec. reflexivity.
  - unfold erase. cbn [op_description op_path op_mode op_from op_to op_value_text op_keep_origin op_logic op_conditions].
    rewrite F1, F2, F3, F4, F5, F6, F7, El. unfold canonicalOperation. reflexivity.
Qed.

Lemma read_written clock l s : Forall writable l ->
  exists l' s', gmap_list (normalizeOperation clock) (List.map operation_payload l) s = (Some l', s') /\
    List.map erase l' = List.map canonicalOperation l.
Proof.
  intros H. revert s. induction H as [|o l Ho Hl IH]; intros s; [by exists [], s|].
  destruct (read_operation clock o s Ho) as (o' & s1 & E & Eo). destruct (IH s1) as (l' & s' & E' & El).
  exists (o' :: l'), s'. cbn [List.map gmap_list]. unfold gbind at 1. rewrite E. unfold gbind at 1. rewrite E'.
  split; [done|]. cbn [List.map]. by rewrite Eo, El.
Qed.

(** Writing what was read gives the same text. *)
Lemma trim_or a p : trim (or_str (trim a) (trim p)) = or_str (trim a) (trim p).
Proof. unfold or_str. destruct (truthy (trim a)); apply trim_idemp. Qed.

Lemma payload_canonical o : writable o -> operation_payload (canonicalOperation o) = operation_payload o.
Proof.
  intros [Hm Hl _ Hv Hc]. unfold operation_payload, canonicalOperation. cbv zeta.
  cbn [op_description op_path op_mode op_from op_to op_value_text op_keep_origin op_logic op_conditions].
  rewrite (operation_mode_kept _ Hm), (kept_conditions_payloads _ Hc), trim_idemp. pose proof (logic_kept _ Hl) as [Hl1 _].
  set (cs := List.map canonicalCondition _). set (b := Nat.ltb 0 _).
  assert (Hb : assign b (js "logic") (JStr (if (match cs with [] => js "OR" | _ => op_logic o end) =s js "AND" then js "AND" else js "OR"))
             = assign b (js "logic") (JStr (if op_logic o =s js "AND" then js "AND" else js "OR"))).
  { unfold b, cs. rewrite condition_payloads, length_map. by destruct (List.filter _ _). }
  rewrite Hb. clearbody b cs. clear Hb. set (os := omap _ _). clearbody os.
  meta_cases Hm; rewrite Hm; meta_cbn; rewrite ?rewrite_text_value, ?trim_idemp by done; try reflexivity;
    try (by destruct (op_keep_origin o)).
  rewrite !trim_or. change (trim []) with (@nil N). do 3 f_equal.
  generalize (trim (op_from o)) (trim (op_to o)) (trim (op_path o)) (trim (op_description o)) (op_keep_origin o) (op_mode o).
  intros f t p d k m. destruct f, t, p, d, k; vm_compute; reflexivity.
Qed.

(** ** Checks see what is written *)

Lemma check_error_value s line :
  check_return_error (trim s) line =
  match parseLooseValue s with
  | JObj l => check_return_error (trim s) line
  | _ => None
  end.
Proof.
  unfold parseLooseValue, check_return_error. destruct (truthy (trim s)) eqn:E.
  - cbn [negb]. destruct (json_parse (trim s)) as [[]|]; done.
  - apply truthy_false in E. by rewrite E.
Qed.

Lemma check_error_text s line : settled_text s ->
  check_return_error (trim (rewrite_text s)) line = check_return_error (trim s) line.
Proof.
  intros H. rewrite (check_error_value (rewrite_text s)), (check_error_value s), rewrite_text_value by done.
  destruct (parseLooseValue s) as [| | | | | |l] eqn:E; try done.
  pose proof (st_value _ H) as Hs. rewrite E in Hs. unfold rewrite_text. rewrite E. cbn [toValueText]. rewrite trim_stringify.
  unfold check_return_error. rewrite json_parse_compact by done.
  unfold parseLooseValue in E. destruct (truthy (trim s)); [|done]. cbn [negb] in E.
  destruct (json_parse (trim s)) as [v|]; [|done]. cbn [nullish] in E. by subst v.
Qed.

Lemma loose_trim s : parseLooseValue (trim s) = parseLooseValue s.
Proof. unfold parseLooseValue. by rewrite trim_idemp. Qed.

Lemma truthy_or_str (a p : jstr) : truthy (or_str a p) = (truthy a || truthy p)%bool.
Proof. unfold or_str. by destruct a. Qed.

(** A mode that requires a part has it. *)
Lemma required_value m : has VALUE_REQUIRED_MODES m = true -> m_value (mode_meta m) = true.
Proof.
  intros Hin%has_true. assert (H : Forall (fun m => m_value (mode_meta m) = true) VALUE_REQUIRED_MODES) by (repeat constructor).
  rewrite Forall_forall in H. by apply H.
Qed.

Lemma required_from m : has FROM_REQUIRED_MODES m = true -> m_from (mode_meta m) = true.
Proof.
  intros Hin%has_true. assert (H : Forall (fun m => m_from (mode_meta m) = true) FROM_REQUIRED_MODES) by (repeat constructor).
  rewrite Forall_forall in H. by apply H.
Qed.

Lemma mode_required m s : (m =s js s) = true -> has VALUE_REQUIRED_MODES (js s) = true -> m_value (mode_meta m) = true.
Proof. intros E%jstr_eqb_true H. rewrite <-E in H. by apply required_value. Qed.

Lemma check_headers_text s line : settled_text s ->
  check_pass_headers (trim (rewrite_text s)) line = check_pass_headers (trim s) line.
Proof. intros H. unfold check_pass_headers. by rewrite loose_trim, rewrite_text_value, <-loose_trim. Qed.

Lemma validate_canonical o line : writable o ->
  validateOperation o line = None -> validateOperation (canonicalOperation o) line = None.
Proof.
  intros H Hv. pose proof H as [Hm _ _ Ht _]. unfold validateOperation in *. cbv zeta in *.
  change (op_mode (canonicalOperation o)) with (op_mode o). rewrite (operation_mode_kept _ Hm) in *.
  unfold canonicalOperation. cbv zeta. cbn [op_path op_from op_to op_value_text].
  destruct (m_path (mode_meta (op_mode o)) && negb (truthy (trim (op_path o))))%bool eqn:E1; [done|].
  destruct (has FROM_REQUIRED_MODES (op_mode o) && negb (truthy (trim (op_from o))) && _)%bool eqn:E2; [done|].
  destruct (has TO_REQUIRED_MODES (op_mode o) && negb (truthy (trim (op_to o))) && _)%bool eqn:E3; [done|].
  destruct (has VALUE_REQUIRED_MODES (op_mode o) && negb (truthy (trim (op_value_text o))))%bool eqn:E4; [done|].
  assert (Hpath : forall b : bool, truthy (trim (if b then trim (op_path o) else [])) = (b && truthy (trim (op_path o)))%bool).
  { intros []; [by rewrite trim_idemp|done]. }
  rewrite !Hpath.
  match goal with |- context [(m_path ?m && negb ?x)%bool] => replace (m_path m && negb x)%bool with false end.
  2: { destruct (m_path _); [|done]. cbn [andb orb] in *. by rewrite E1. }
  match goal with |- context [(has FROM_REQUIRED_MODES ?m && ?x && ?y)%bool] => replace (has FROM_REQUIRED_MODES m && x && y)%bool with false end.
  2: { destruct (has FROM_REQUIRED_MODES (op_mode o)) eqn:Ef; [|done]. rewrite (required_from _ Ef). cbn [andb] in *.
       destruct (m_pathAlias _); cbn [andb negb] in *; [rewrite trim_or, truthy_or_str|rewrite trim_idemp];
       by destruct (truthy (trim (op_from o))), (truthy (trim (op_path o))). }
  match goal with |- context [(has TO_REQUIRED_MODES ?m && ?x && ?y)%bool] => replace (has TO_REQUIRED_MODES m && x && y)%bool with false end.
  2: { destruct (has TO_REQUIRED_MODES (op_mode o)) eqn:Ef; [|done]. cbn [andb] in *.
       destruct (m_pathAlias _); cbn [andb negb] in *; [rewrite trim_or, truthy_or_str|rewrite trim_idemp];
       by destruct (truthy (trim (op_to o))), (truthy (trim (op_path o))). }
  match goal with |- context [(has VALUE_REQUIRED_MODES ?m && ?x)%bool] => replace (has VALUE_REQUIRED_MODES m && x)%bool with false end.
  2: { destruct (has VALUE_REQUIRED_MODES (op_mode o)) eqn:Ef; [|done]. rewrite (required_value _ Ef). cbn [andb] in *.
       by rewrite rewrite_text_blank. }
  destruct (op_mode o =s js "return_error") eqn:Er.
  - rewrite (mode_required _ _ Er) by done. by rewrite check_error_text.
  - destruct (op_mode o =s js "pass_headers") eqn:Ep; [|done]. rewrite (mode_required _ _ Ep) by done. by rewrite check_headers_text.
Qed.

Lemma validate_from_none l n : validate_from n l = None <-> forall i o, l !! i = Some o -> validateOperation o (n + i) = None.
Proof.
  revert n. induction l as [|o l IH]; intros n; cbn [validate_from]; [by split|].
  destruct (validateOperation o n) as [f|] eqn:E.
  - split; [done|]. intros H. specialize (H 0 o eq_refl). rewrite Nat.add_0_r in H. congruence.
  - rewrite IH. split; intros H i x Hx.
    + destruct i as [|i]; [rewrite Nat.add_0_r; cbn in Hx; congruence|]. cbn in Hx. rewrite <-(H i x Hx). f_equal. lia.
    + specialize (H (S i) x Hx). rewrite <-H. f_equal. lia.
Qed.

Lemma validate_map f l n : (forall o line, o ∈ l -> validateOperation o line = None -> validateOperation (f o) line = None) ->
  validate_from n l = None -> validate_from n (List.map f l) = None.
Proof.
  intros H. revert n. induction l as [|o l IH]; intros n; [done|]. cbn [validate_from List.map].
  destruct (validateOperation o n) eqn:E; [done|]. intros Hl. rewrite H by (done || left). apply IH; [|done]. intros; apply H; [by right|done].
Qed.

(** ** Blank rules *)

Lemma blank_erase o : isOperationBlank (erase o) = isOperationBlank o.
Proof.
  unfold isOperationBlank. cbn [op_mode op_path op_from op_to op_value_text op_keep_origin erase op_conditions].
  do 2 f_equal. induction (op_conditions o) as [|c l IH]; [done|]. cbn [List.map existsb]. by rewrite IH.
Qed.

Lemma validate_erase o line : validateOperation (erase o) line = validateOperation o line.
Proof. done. Qed.

Lemma valid_not_blank o line : op_mode o ∈ OPERATION_MODE_VALUES -> validateOperation o line = None -> isOperationBlank o = false.
Proof.
  intros Hm Hv. unfold isOperationBlank. destruct (op_mode o =s js "set") eqn:E; [|done]. apply jstr_eqb_true in E.
  unfold validateOperation in Hv. cbv zeta in Hv. rewrite (operation_mode_kept _ Hm), E in Hv. change (mode_meta (js "set")) with set_meta in Hv.
  cbn [m_path set_meta andb] in Hv. by destruct (truthy (trim (op_path o))).
Qed.

(** ** Written rules are plain values *)

Definition OPERATION_KEYS : list jstr :=
  List.map js ["mode"; "description"; "path"; "value"; "keep_origin"; "from"; "to"; "conditions"; "logic"]%string.

Lemma operation_plain o : writable o -> plain (operation_payload o).
Proof.
  intros [Hm Hl Ht Hv Hc]. unfold operation_payload. cbv zeta. rewrite (operation_mode_kept _ Hm).
  pose proof (logic_kept _ Hl) as [-> _]. rewrite !Forall_cons in Ht. destruct Ht as (Hd & Hp & Hf & Hto & _).
  apply (plain_keyed OPERATION_KEYS); [reflexivity|].
  assert (Hum : Forall units_ok (OPERATION_MODE_VALUES ++ [js "OR"; js "AND"])) by (repeat (constructor; [units_done|]); constructor).
  rewrite Forall_forall in Hum.
  repeat (apply plain_assign; [by apply has_true|try (by apply units_trim)|]); [..|apply plain_first; [by apply has_true|]].
  all: try (cbn [plain]; exact I).
  - apply Hum, elem_of_app. by right.
  - change (plain (JArr (omap buildConditionPayload (op_conditions o)))). rewrite plain_arr, plain_list_Forall, condition_payloads.
    apply Forall_map, Forall_forall. intros c Hin. apply list_elem_of_In, filter_In in Hin as [Hin _]. apply condition_plain.
    rewrite Forall_forall in Hc. by apply Hc, list_elem_of_In.
  - apply steady_plain, Hv.
  - apply Hum, elem_of_app. by left.
Qed.

(** ** The stored text *)

Definition written (ops : list ParamOverrideOperation) : jv := JObj [(js "operations", JArr (List.map operation_payload ops))].

Lemma written_plain ops : Forall writable ops -> plain (written ops).
Proof.
  intros H. apply (plain_keyed [js "operations"]); [reflexivity|]. apply plain_first; [left|].
  rewrite plain_arr, plain_list_Forall. apply Forall_map. apply (Forall_impl _ _ _ H). apply operation_plain.
Qed.

Definition kept (ops : list ParamOverrideOperation) : list ParamOverrideOperation := List.filter (fun o => negb (isOperationBlank o)) ops.

Lemma build_kept ops text : buildOperationsJson ops true = inr text -> text <> [] ->
  kept ops <> [] /\ validateOperations (kept ops) = None /\ text = json_stringify2 (written (kept ops)).
Proof.
  unfold buildOperationsJson. fold (kept ops). cbv zeta. destruct (kept ops) as [|o l]; [by intros [= <-]|].
  destruct (validateOperations (o :: l)) as [f|] eqn:E; [done|]. by intros [= <-] _.
Qed.

Lemma kept_writable ops : Forall writable ops -> Forall writable (kept ops).
Proof.
  rewrite !Forall_forall. intros H o Ho. apply H. apply list_elem_of_In, filter_In in Ho as [Ho _]. by apply list_elem_of_In.
Qed.

Lemma kept_erase ops : List.map erase (kept ops) = kept (List.map erase ops).
Proof.
  unfold kept. induction ops as [|o l IH]; [done|]. cbn [List.map List.filter]. rewrite blank_erase.
  destruct (isOperationBlank o); cbn [negb]; [exact IH|cbn [List.map]; by rewrite IH].
Qed.

Lemma validate_erased ops n : validate_from n (List.map erase ops) = validate_from n ops.
Proof. revert n. induction ops as [|o l IH]; intros n; [done|]. cbn [List.map validate_from]. by rewrite validate_erase, IH. Qed.

(** The text written depends on the rules without their identifiers. *)
Lemma build_erase ops : buildOperationsJson (List.map erase ops) true = buildOperationsJson ops true.
Proof.
  unfold buildOperationsJson. fold (kept ops) (kept (List.map erase ops)). cbv zeta. rewrite <-kept_erase.
  unfold validateOperations. rewrite validate_erased, List.map_map.
  rewrite (List.map_ext (fun o => operation_payload (erase o)) operation_payload) by apply operation_payload_erase.
  by destruct (kept ops).
Qed.

Lemma canonical_kept l n : Forall writable l -> validate_from n l = None ->
  kept (List.map canonicalOperation l) = List.map canonicalOperation l.
Proof.
  intros H Hv. rewrite validate_from_none in Hv. unfold kept. apply forallb_filter_id, forallb_forall. intros c Hc.
  apply in_map_iff in Hc as (o & <- & Ho). rewrite Forall_forall in H. apply list_elem_of_In in Ho as Ho'.
  apply list_elem_of_lookup in Ho' as [i Hi]. specialize (Hv i o Hi).
  assert (Hw : writable o) by (apply H; by apply list_elem_of_In).
  rewrite (valid_not_blank (canonicalOperation o) (n + i)); [done|apply Hw|by apply validate_canonical].
Qed.

Lemma build_canonical l : Forall writable l -> l <> [] -> validateOperations l = None ->
  buildOperationsJson (List.map canonicalOperation l) true = inr (json_stringify2 (written l)).
Proof.
  intros H Hne Hv. unfold buildOperationsJson. fold (kept (List.map canonicalOperation l)). cbv zeta.
  rewrite (canonical_kept l 1) by done. rewrite Forall_forall in H.
  unfold validateOperations. rewrite (validate_map canonicalOperation l 1) by (done || (intros; apply validate_canonical; auto)).
  rewrite List.map_map. rewrite (map_ext_in (fun o => operation_payload (canonicalOperation o)) operation_payload).
  2: { intros o Ho. apply payload_canonical, H. by apply list_elem_of_In. }
  by destruct l.
Qed.

(** The rules read from a text that was written. *)
Lemma open_written clock l s : Forall writable l -> l <> [] ->
  exists ops s', parseInitialState clock (json_stringify2 (written l)) s =
    (Some (MkEditorState EditVisual VisualOperations [] ops (json_stringify2 (written l)) None), s') /\
    List.map erase ops = List.map canonicalOperation l.
Proof.
  intros H Hne. pose proof (written_plain _ H) as Hp. unfold parseInitialState. rewrite trim_stringify2.
  unfold json_stringify2 at 1. rewrite (plain_nonempty _ _ Hp). cbn [negb]. rewrite json_parse_stringify by done.
  change (operations_of (written l)) with (Some (List.map operation_payload l)). cbv iota zeta.
  destruct (read_written clock l s H) as (ops & s' & E & Eo).
  exists ops, s'. split; [|done]. unfold gbind, read_operations. destruct l as [|o l]; [done|]. cbn [List.map] in *. by rewrite E.
Qed.


(** What a rule is read as. *)
Lemma normalize_fields clock p o s s' : normalizeOperation clock p s = (Some o, s') ->
  op_mode o = known_or OPERATION_MODE_VALUES (jv_get p (js "mode")) (js "set") /\
  op_value_text o = toValueText (jv_get p (js "value")).
Proof.
  unfold normalizeOperation, gbind. cbn [nextLocalId]. destruct p as [| |b|x|u|l|l]; cbn [with_properties ret throw]; try done;
    destruct (lift _ _) as [[lg|] s1]; try done;
    match goal with |- context [match ?m s1 with _ => _ end] => destruct (m s1) as [[cs|] s2] end; try done;
    intros [= <- <-]; done.
Qed.

Lemma payload_value o : op_mode o ∈ OPERATION_MODE_VALUES ->
  jv_get (operation_payload o) (js "value") =
  if m_value (mode_meta (op_mode o)) then parseLooseValue (op_value_text o) else JUndef.
Proof. intros Hm. unfold operation_payload. cbv zeta. rewrite (operation_mode_kept _ Hm). getters. done. Qed.

(** A stored string that looks like JSON, such as a number in quotes, is
    written as the value it looks like when the rule is opened and saved. *)
Theorem quoted_value_retyped (clock : N -> N) (p : jv) (m u : jstr) (v : jv) (o : ParamOverrideOperation) (s s' : N) :
  jv_get p (js "mode") = JStr m -> m ∈ OPERATION_MODE_VALUES -> m_value (mode_meta m) = true ->
  jv_get p (js "value") = JStr u -> json_parse (trim u) = Some v ->
  normalizeOperation clock p s = (Some o, s') -> jv_get (operation_payload o) (js "value") = v.
Proof.
  intros Hm Hin Hv Hu Hp Ho. apply normalize_fields in Ho as [Em Ev]. rewrite Hm, mode_in in Em by done.
  rewrite payload_value by (by rewrite Em). rewrite Em, Hv, Ev, Hu. cbn [toValueText]. unfold parseLooseValue. rewrite Hp.
  by destruct (trim u).
Qed.

(** The first rule that fails its checks, in the order of the rules that are
    not blank, is the one a failed save names. *)
Theorem save_error_first (ops : list ParamOverrideOperation) (f : Failure) :
  buildOperationsJson ops true = inl f <->
  exists i o, kept ops !! i = Some o /\ validateOperation o (S i) = Some f /\
    forall j o', j < i -> kept ops !! j = Some o' -> validateOperation o' (S j) = None.
Proof.
  assert (H : forall l n, validate_from n l = Some f <-> exists i o, l !! i = Some o /\ validateOperation o (n + i) = Some f /\
    forall j o', j < i -> l !! j = Some o' -> validateOperation o' (n + j) = None).
  { induction l as [|o l IH]; intros n; cbn [validate_from]; [split; [done|by intros (i & o & ? & _)]|].
    destruct (validateOperation o n) as [f'|] eqn:E.
    - split; [intros [= ->]; exists 0, o; rewrite Nat.add_0_r; split_and!; [done|done|lia]|].
      intros ([|i] & x & Hx & Hf & Hl); [cbn in Hx; rewrite Nat.add_0_r in Hf; congruence|].
      specialize (Hl 0 o ltac:(lia) eq_refl). rewrite Nat.add_0_r in Hl. congruence.
    - rewrite IH. split; intros (i & x & Hx & Hf & Hl).
      + exists (S i), x. rewrite Nat.add_succ_r. split_and!; [done|done|]. intros [|j] y Hj Hy.
        * cbn in Hy. rewrite Nat.add_0_r. congruence.
        * rewrite Nat.add_succ_r. apply (Hl j); [lia|done].
      + destruct i as [|i]; [cbn in Hx; rewrite Nat.add_0_r in Hf; congruence|]. exists i, x. rewrite Nat.add_succ_r in Hf.
        split_and!; [done|done|]. intros j y Hj Hy. rewrite <-(Hl (S j) y ltac:(lia) Hy). f_equal. lia. }
  rewrite <-(H (kept ops) 1). unfold buildOperationsJson. fold (kept ops). cbv zeta. unfold validateOperations.
  destruct (kept ops) as [|o l]; [done|]. destruct (validate_from 1 (o :: l)); split; congruence.
Qed.

(** ** Endpoints *)

Lemma spec_trimmed t k : t = js "json" \/ t = js "header" -> trim (t ++ js ":" ++ trim k) = t ++ js ":" ++ trim k.
Proof.
  intros Ht. destruct (trim k) as [|c u] eqn:E.
  - destruct Ht as [-> | ->]; reflexivity.
  - apply trim_id. pose proof (trim_trimmed k) as [_ Hl]. rewrite E in Hl. split.
    + intros x. destruct Ht as [-> | ->]; by intros [= <-].
    + intros x Hx. apply Hl. rewrite last_app in Hx. destruct (last (c :: u)) as [y|] eqn:Ey; [|by apply last_None in Ey].
      rewrite last_app, Ey in Hx. exact Hx.
Qed.

(** An endpoint reads back as it was chosen when it has a key; without a key
    its kind is lost, and the request header is a body field again. *)
Theorem sync_spec_roundtrip (type key : jstr) :
  type = js "json" \/ type = js "header" ->
  parseSyncTargetSpec (buildSyncTargetSpec type key) = if truthy (trim key) then (type, trim key) else (js "json", []).
Proof.
  intros Ht. unfold buildSyncTargetSpec. assert (Etype : (if type =s js "header" then js "header" else js "json") = type) by (by destruct Ht as [-> | ->]).
  rewrite Etype. destruct (truthy (trim key)) eqn:E; [|done]. cbn [negb]. unfold parseSyncTargetSpec.
  rewrite spec_trimmed by done. destruct Ht as [-> | ->].
  - change (truthy (js "json" ++ js ":" ++ trim key)) with true. cbn [negb].
    change (index_of (js ":") (js "json" ++ js ":" ++ trim key)) with (Some 4). cbv iota zeta.
    change (drop (4 + 1) (js "json" ++ js ":" ++ trim key)) with (trim key). by rewrite trim_idemp.
  - change (truthy (js "header" ++ js ":" ++ trim key)) with true. cbn [negb].
    change (index_of (js ":") (js "header" ++ js ":" ++ trim key)) with (Some 6). cbv iota zeta.
    change (drop (6 + 1) (js "header" ++ js ":" ++ trim key)) with (trim key). by rewrite trim_idemp.
Qed.

(** ** The order of rules *)

Lemma find_by_id (l : list ParamOverrideOperation) id o :
  NoDup (List.map op_id l) -> o ∈ l -> op_id o = id ->
  exists u v, l = u ++ o :: v /\ list_find (fun x => op_id x = id) l = Some (length u, o) /\ id ∉ List.map op_id (u ++ v).
Proof.
  intros Hn Ho <-. apply list_elem_of_split in Ho as (u & v & ->). exists u, v. split; [done|].
  rewrite List.map_app in Hn. cbn [List.map] in Hn. apply NoDup_app in Hn as (H1 & H2 & H3). apply NoDup_cons in H3 as [H3 H4].
  assert (Hu : op_id o ∉ List.map op_id u) by (intros H; apply (H2 _ H); left).
  split.
  - apply list_find_Some. split_and!; [by apply list_lookup_middle|done|]. intros j y Hy Hj E. apply Hu.
    rewrite lookup_app_l in Hy by lia. apply list_elem_of_lookup_2 in Hy. rewrite <-E. apply list_elem_of_In, in_map. by apply list_elem_of_In.
  - rewrite List.map_app, elem_of_app. by intros [H|H].
Qed.

(** Dropping a rule on another puts it next to that one, before or after it,
    and keeps the order of all others. *)
Theorem reorder_spec (ops : list ParamOverrideOperation) (m t : ParamOverrideOperation) (after : bool) :
  NoDup (List.map op_id ops) -> m ∈ ops -> t ∈ ops -> op_id m <> op_id t -> op_id m <> [] -> op_id t <> [] ->
  exists u v, List.filter (fun o => negb (op_id o =s op_id m)) ops = u ++ t :: v /\
    reorderOperations ops (op_id m) (op_id t) after = (if after then u ++ t :: m :: v else u ++ m :: t :: v) /\
    reorderOperations ops (op_id m) (op_id t) after ≡ₚ ops.
Proof.
  intros Hn Hm Ht Hne Hm0 Ht0. destruct (find_by_id ops (op_id m) m Hn Hm eq_refl) as (a & b & -> & Ef & Hno).
  assert (Hdel : delete (length a) (a ++ m :: b) = a ++ b).
  { rewrite delete_take_drop, take_app_length, drop_app_ge by lia. by replace (S (length a) - length a) with 1 by lia. }
  assert (Hfil : List.filter (fun o => negb (op_id o =s op_id m)) (a ++ m :: b) = a ++ b).
  { rewrite List.filter_app. cbn [List.filter]. rewrite jstr_eqb_refl. cbn [negb]. rewrite <-List.filter_app.
    apply forallb_filter_id, forallb_forall. intros x Hx. apply negb_true_iff, jstr_eqb_false. intros E. apply Hno.
    rewrite <-E. apply list_elem_of_In, in_map, Hx. }
  assert (Hn' : NoDup (List.map op_id (a ++ b))).
  { rewrite List.map_app in *. cbn [List.map] in Hn. apply NoDup_app in Hn as (H1 & H2 & H3). apply NoDup_cons in H3 as [H3 H4].
    apply NoDup_app. split_and!; [done| |done]. intros x Hx Hx'. apply (H2 x Hx). by right. }
  assert (Ht' : t ∈ a ++ b).
  { apply elem_of_app in Ht as [Ht|Ht]; [apply elem_of_app; by left|]. apply elem_of_cons in Ht as [->|Ht]; [done|]. apply elem_of_app. by right. }
  destruct (find_by_id (a ++ b) (op_id t) t Hn' Ht' eq_refl) as (u & v & Euv & Eft & _).
  exists u, v. rewrite Hfil. split; [done|].
  assert (Er : reorderOperations (a ++ m :: b) (op_id m) (op_id t) after = if after then u ++ t :: m :: v else u ++ m :: t :: v).
  { unfold reorderOperations. rewrite (proj2 (truthy_true _) Hm0), (proj2 (truthy_true _) Ht0), (proj2 (jstr_eqb_false _ _) Hne).
    cbn [negb orb]. rewrite Ef. cbv zeta. rewrite Hdel, Eft, Euv. destruct after.
    - rewrite Nat.add_1_r. replace (u ++ t :: v) with ((u ++ [t]) ++ v) by (by rewrite <-app_assoc).
      replace (S (length u)) with (length (u ++ [t])) by (rewrite length_app; cbn; lia).
      rewrite take_app_length, drop_app_length. by rewrite <-app_assoc.
    - by rewrite take_app_length, drop_app_length. }
  split; [done|]. rewrite Er. rewrite <-(Permutation_middle a b m), Euv. destruct after; [|by rewrite <-Permutation_middle].
  rewrite <-!Permutation_middle. apply perm_swap.
Qed.

(** ** The draft of a custom error *)

(** The status codes that are kept are written in digits. *)
Lemma status_plain n : (100 <= n <= 599)%Z -> num_reads (num_of_Z n) /\ status_or_400 (num_of_Z n) = num_of_Z n.
Proof.
  intros Hn. assert (H : forallb (fun k => let x := num_of_Z (100 + Z.of_nat k) in
    canonical_digits (json_num x) && bool_decide (num_of_dec false (digits_value (json_num x)) 0 = x) &&
    bool_decide (status_or_400 x = x))%bool (seq 0 500) = true) by (vm_compute; reflexivity).
  rewrite forallb_forall in H. specialize (H (Z.to_nat (n - 100))). cbv zeta in H.
  replace (100 + Z.of_nat (Z.to_nat (n - 100)))%Z with n in H by lia.
  assert (Hin : In (Z.to_nat (n - 100)) (seq 0 500)) by (apply in_seq; lia).
  apply H in Hin. apply andb_prop in Hin as [[Hc Hd]%andb_prop Hst].
  apply bool_decide_eq_true in Hd. apply bool_decide_eq_true in Hst. split; [by apply num_reads_digits|done].
Qed.

Definition canonical_error (d : ReturnErrorDraft) : ReturnErrorDraft :=
  MkErrorDraft (trim (re_message d)) (re_statusCode d) (trim (re_code d)) (trim (re_type d)) (re_skipRetry d) false.

(** An error that is edited with its details reads back as it was entered,
    without the blanks around its texts. *)
Theorem error_draft_roundtrip (d : ReturnErrorDraft) (n : Z) :
  re_simpleMode d = false -> re_statusCode d = num_of_Z n -> (100 <= n <= 599)%Z ->
  Forall units_ok [re_message d; re_code d; re_type d] ->
  parseReturnErrorDraft (buildReturnErrorValueText d) = canonical_error d.
Proof.
  intros Hs Hn Hr Hu. destruct (status_plain n Hr) as (Hp & Hst). rewrite !Forall_cons in Hu. destruct Hu as (Hm & Hc & Ht & _).
  unfold buildReturnErrorValueText. rewrite Hs, Hn, Hst. cbv zeta.
  set (p := assign _ (js "skip_retry") _ _).
  assert (Hpl : plain (JObj p)).
  { apply (plain_keyed (List.map js ["message"; "status_code"; "code"; "type"; "skip_retry"]%string)); [reflexivity|].
    repeat (apply plain_assign; [by apply has_true|first [done|by apply units_trim]|]). split_and!.
    - apply (bool_decide_unpack _). by vm_compute.
    - repeat (constructor; [by apply has_true|]). constructor.
    - constructor; [by apply units_trim|]. constructor; [exact Hp|constructor]. }
  unfold parseReturnErrorDraft. rewrite trim_stringify. unfold json_stringify at 1. rewrite (plain_nonempty _ _ Hpl). cbn [negb].
  rewrite json_parse_compact by done. cbn [as_object]. unfold error_draft_of. cbv zeta. subst p. getters. cbn [is_undefined].
  unfold canonical_error. rewrite Hn.
  change (js_Number (JNum (num_of_Z n))) with (Some (num_of_Z n)). cbv iota. rewrite Hst.
  assert (Es : forall (b : bool) (s : jstr), s = trim s ->
    trimmed_string (jv_or (if b then JStr s else JUndef) (JStr [])) = Some (if b then s else [])).
  { intros [] s E; [|done]. unfold jv_or. cbn [jv_truthy]. destruct s as [|c s]; [done|]. cbn [truthy]. unfold trimmed_string, js_String.
    cbn [unprintable option_map jv_to_string]. by rewrite <-E. }
  assert (Em : trimmed_string (jv_or (jv_or (JStr (trim (re_message d))) JUndef) (JStr [])) = Some (trim (re_message d))).
  { unfold jv_or. cbn [jv_truthy]. pose proof (trim_idemp (re_message d)) as E. destruct (trim (re_message d)); [done|].
    cbn [truthy jv_truthy]. unfold trimmed_string, js_String. cbn [unprintable option_map jv_to_string]. by rewrite E. }
  rewrite Em, !Es by (by rewrite trim_idemp). cbn [nullish].
  f_equal; [by destruct (trim (re_code d))|by destruct (trim (re_type d))|by destruct (re_skipRetry d)].
Qed.

(** * Examples *)

Definition sample_condition : ParamOverrideCondition :=
  MkCondition (js "c") (js " model ") (js "prefix") (js "gpt") true false.
Definition sample_set : ParamOverrideOperation :=
  MkOperation (js "a") (js "limit ") (js "max_tokens") (js "set") [] [] (js " 42") true (js "AND") [sample_condition].
Definition sample_copy : ParamOverrideOperation :=
  MkOperation (js "b") [] (js "X-Trace") (js "copy_header") [] (js "X-Copy") [] false (js "OR") [].
Definition sample_blank : ParamOverrideOperation := MkOperation (js "d") (js "todo") [] (js "set") [] [] [] false (js "OR") [].
Definition sample_operations : list ParamOverrideOperation := [sample_set; sample_blank; sample_copy].

Definition sample_text : jstr :=
  match buildOperationsJson sample_operations true with inr t => t | inl _ => [] end.

Example sample_text_parsed :
  json_parse sample_text = json_parse (jq "{`operations`: [{`mode`: `set`, `description`: `limit`, `path`: `max_tokens`,
    `value`: 42, `keep_origin`: true, `conditions`: [{`path`: `model`, `mode`: `prefix`, `value`: `gpt`, `invert`: true}],
    `logic`: `AND`}, {`mode`: `copy_header`, `from`: `X-Trace`, `to`: `X-Copy`}]}").
Proof. vm_compute. reflexivity. Qed.

Lemma plain_text_settled s : units_ok s -> json_parse (trim s) = None -> settled_text s.
Proof.
  intros Hu Hp. split; [by apply text_steady|]. unfold parseLooseValue. rewrite Hp.
  destruct (truthy (trim s)) eqn:E; cbn [negb nullish]; [congruence|]. intros _. by apply truthy_false.
Qed.

Lemma sample_writable : Forall writable sample_operations.
Proof.
  assert (E42 : settled_text (js " 42")).
  { assert (E : parseLooseValue (js " 42") = JNum (num_of_Z 42)) by (vm_compute; reflexivity).
    split; rewrite E; [|done]. by apply num_reads_digits. }
  assert (Eb : settled_text []) by (apply plain_text_settled; [units_done|reflexivity]).
  assert (Hc : writable_condition sample_condition).
  { split; [units_done|by apply has_true|]. apply text_steady; [units_done|reflexivity]. }
  do 3 (constructor; [split; [by apply has_true|by apply has_true|repeat (constructor; [units_done|]); constructor|done|by repeat constructor]|]).
  constructor.
Qed.


Lemma quoted_value_retyped_witness :
  exists o s', normalizeOperation (fun _ => 1%N) (JObj [(js "mode", JStr (js "set")); (js "path", JStr (js "n")); (js "value", JStr (js "10"))]) 0%N =
    (Some o, s') /\ jv_get (operation_payload o) (js "value") = JNum (num_of_Z 10).
Proof.
  eexists _, _. split; [reflexivity|].
  apply (quoted_value_retyped (fun _ => 1%N) (JObj [(js "mode", JStr (js "set")); (js "path", JStr (js "n")); (js "value", JStr (js "10"))])
    (js "set") (js "10") (JNum (num_of_Z 10)) _ 0%N 1%N); [reflexivity|by apply has_true|reflexivity..|vm_compute; reflexivity|reflexivity].
Defined.

Lemma sync_spec_roundtrip_witness :
  parseSyncTargetSpec (buildSyncTargetSpec (js "header") (js " session_id")) = (js "header", js "session_id") /\
  parseSyncTargetSpec (buildSyncTargetSpec (js "header") (js " ")) = (js "json", []).
Proof.
  split; [exact (sync_spec_roundtrip (js "header") (js " session_id") (or_intror eq_refl))|].
  exact (sync_spec_roundtrip (js "header") (js " ") (or_intror eq_refl)).
Defined.

Lemma reorder_spec_witness :
  reorderOperations sample_operations (js "a") (js "b") true = [sample_blank; sample_copy; sample_set] /\
  exists u v, List.filter (fun o => negb (op_id o =s js "a")) sample_operations = u ++ sample_copy :: v.
Proof.
  split; [vm_compute; reflexivity|].
  assert (Hn : NoDup (List.map op_id sample_operations)) by (apply (bool_decide_unpack _); by vm_compute).
  destruct (reorder_spec sample_operations sample_set sample_copy true Hn) as (u & v & E & _);
    [left|right; right; left|done|done|done|]. exists u, v. exact E.
Defined.

Definition sample_error : ReturnErrorDraft :=
  MkErrorDraft (js "too large ") (num_of_Z 429) (js "rate_limited") [] false false.

Lemma error_draft_roundtrip_witness :
  parseReturnErrorDraft (buildReturnErrorValueText sample_error) =
  MkErrorDraft (js "too large") (num_of_Z 429) (js "rate_limited") [] false false.
Proof.
  apply (error_draft_roundtrip sample_error 429); [reflexivity|reflexivity|lia|]. repeat (constructor; [units_done|]). constructor.
Defined.
