(* ===== verification/ParamOverrideEditor.v ===== *)
(** The dialog for parameter overrides
    (channels/components/dialogs/param-override-editor-dialog.tsx): its state, its
    effects and its handlers.

    A handler is a function on the state; the updaters it gives to React are
    applied when it returns, except where the code depends on when they run
    ([duplicateOperation]). A render draws an identifier for the initial value that
    [useState] discards, and parses the draft of the selected pruning rule unless
    it is remembered. *)

From Stdlib Require Import NArith ZArith Lia.
From stdpp Require Import base list strings.
From S2P Require Import Prelude JsString JsNum Json JsTable ParamOverride.

(** * Templates *)

Definition str (s : string) : jv := JStr (js s).
Definition strs (l : list string) : jv := JArr (List.map str l).
Definition obj (l : list (string * jv)) : jv := JObj (List.map (fun e => (js e.1, e.2)) l).
Definition operations_obj (l : list jv) : jv := obj [("operations"%string, JArr l)].

Definition LEGACY_TEMPLATE : jv := obj [("temperature", JNum nzero); ("max_tokens", JNum (num_of_Z 1000))]%string.

Definition OPERATION_TEMPLATE : jv := operations_obj [obj [
  ("description", str "Set default temperature for openai/* models."); ("path", str "temperature"); ("mode", str "set");
  ("value", JNum (num_of_dec false 7 (-1)));
  ("conditions", JArr [obj [("path", str "model"); ("mode", str "prefix"); ("value", str "openai/")]]); ("logic", str "AND")]%string].

Definition HEADER_PASSTHROUGH_TEMPLATE : jv := operations_obj [obj [
  ("description", str "Pass through X-Request-Id header to upstream."); ("mode", str "pass_headers");
  ("value", strs ["X-Request-Id"]); ("keep_origin", JBool true)]%string].

Definition GEMINI_IMAGE_4K_TEMPLATE : jv := operations_obj [obj [
  ("description", str "Set imageSize to 4K when model contains gemini/image and ends with 4k."); ("mode", str "set");
  ("path", str "generationConfig.imageConfig.imageSize"); ("value", str "4K");
  ("conditions", JArr [
     obj [("path", str "original_model"); ("mode", str "contains"); ("value", str "gemini")];
     obj [("path", str "original_model"); ("mode", str "contains"); ("value", str "image")];
     obj [("path", str "original_model"); ("mode", str "suffix"); ("value", str "4k")]]);
  ("logic", str "AND")]%string].

Definition CODEX_CLI_HEADER_PASSTHROUGH_HEADERS : list string := [
  "Originator"; "Session_id"; "Thread_id"; "Session-Id"; "Thread-Id"; "X-Client-Request-Id"; "User-Agent";
  "X-Codex-Beta-Features"; "X-Codex-Turn-State"; "X-Codex-Turn-Metadata"; "X-Codex-Window-Id"; "X-Codex-Parent-Thread-Id";
  "X-OpenAI-Subagent"; "X-OpenAI-Memgen-Request"; "X-ResponsesAPI-Include-Timing-Metrics";
  "X-OpenAI-Internal-Codex-Responses-Lite"]%string.

Definition CLAUDE_CLI_HEADER_PASSTHROUGH_HEADERS : list string := [
  "X-Stainless-Arch"; "X-Stainless-Lang"; "X-Stainless-Os"; "X-Stainless-Package-Version"; "X-Stainless-Retry-Count";
  "X-Stainless-Runtime"; "X-Stainless-Runtime-Version"; "X-Stainless-Timeout"; "User-Agent"; "X-App"; "Anthropic-Beta";
  "Anthropic-Dangerous-Direct-Browser-Access"; "Anthropic-Version"]%string.

Definition buildPassHeadersTemplate (headers : list string) : jv := operations_obj [obj [
  ("mode", str "pass_headers"); ("value", strs headers); ("keep_origin", JBool true)]%string].

Definition CODEX_CLI_HEADER_PASSTHROUGH_TEMPLATE : jv := buildPassHeadersTemplate CODEX_CLI_HEADER_PASSTHROUGH_HEADERS.
Definition CLAUDE_CLI_HEADER_PASSTHROUGH_TEMPLATE : jv := buildPassHeadersTemplate CLAUDE_CLI_HEADER_PASSTHROUGH_HEADERS.

Definition AWS_BEDROCK_ANTHROPIC_COMPAT_TEMPLATE : jv := operations_obj [
  obj [("description", str "Normalize anthropic-beta header tokens for Bedrock compatibility."); ("mode", str "set_header");
       ("path", str "anthropic-beta");
       ("value", obj [
          ("advanced-tool-use-2025-11-20", str "tool-search-tool-2025-10-19"); ("bash_20241022", JNull); ("bash_20250124", JNull);
          ("code-execution-2025-08-25", JNull); ("compact-2026-01-12", str "compact-2026-01-12");
          ("computer-use-2025-01-24", str "computer-use-2025-01-24"); ("computer-use-2025-11-24", str "computer-use-2025-11-24");
          ("context-1m-2025-08-07", str "context-1m-2025-08-07"); ("context-management-2025-06-27", str "context-management-2025-06-27");
          ("effort-2025-11-24", JNull); ("fast-mode-2026-02-01", JNull); ("files-api-2025-04-14", JNull);
          ("fine-grained-tool-streaming-2025-05-14", JNull);
          ("interleaved-thinking-2025-05-14", str "interleaved-thinking-2025-05-14"); ("mcp-client-2025-11-20", JNull);
          ("mcp-client-2025-04-04", JNull); ("mcp-servers-2025-12-04", JNull); ("output-128k-2025-02-19", JNull);
          ("structured-output-2024-03-01", JNull); ("prompt-caching-scope-2026-01-05", JNull); ("skills-2025-10-02", JNull);
          ("structured-outputs-2025-11-13", JNull); ("text_editor_20241022", JNull); ("text_editor_20250124", JNull);
          ("token-efficient-tools-2025-02-19", JNull); ("tool-search-tool-2025-10-19", str "tool-search-tool-2025-10-19");
          ("web-fetch-2025-09-10", JNull); ("web-search-2025-03-05", JNull); ("oauth-2025-04-20", JNull)])];
  obj [("description", str "Remove all tools[*].custom.input_examples before upstream relay."); ("mode", str "delete");
       ("path", str "tools.*.custom.input_examples")]]%string.

Record TemplatePresetConfig := MkTemplate { tp_label : jstr; tp_legacy : bool; tp_payload : jv }.

Definition TEMPLATE_PRESET_CONFIG : list (jstr * TemplatePresetConfig) := [
  (js "operations_default", MkTemplate (js "New Format Template") false OPERATION_TEMPLATE);
  (js "legacy_default", MkTemplate (js "Legacy Format Template") true LEGACY_TEMPLATE);
  (js "pass_headers_auth", MkTemplate (js "Header Passthrough (X-Request-Id)") false HEADER_PASSTHROUGH_TEMPLATE);
  (js "gemini_image_4k", MkTemplate (js "Gemini Image 4K") false GEMINI_IMAGE_4K_TEMPLATE);
  (js "claude_cli_headers_passthrough", MkTemplate (js "Claude CLI Header Passthrough") false CLAUDE_CLI_HEADER_PASSTHROUGH_TEMPLATE);
  (js "codex_cli_headers_passthrough", MkTemplate (js "Codex CLI Header Passthrough") false CODEX_CLI_HEADER_PASSTHROUGH_TEMPLATE);
  (js "aws_bedrock_anthropic_beta_override", MkTemplate (js "AWS Bedrock Claude Compat") false AWS_BEDROCK_ANTHROPIC_COMPAT_TEMPLATE)].

(** * The state *)

#[global] Instance condition_dec : EqDecision ParamOverrideCondition.
Proof. solve_decision. Defined.
#[global] Instance operation_dec : EqDecision ParamOverrideOperation.
Proof. solve_decision. Defined.

Record Drag := MkDrag { draggedOperationId : jstr; dragOverOperationId : jstr; dragOverAfter : bool }.
Definition no_drag : Drag := MkDrag [] [] false.

(** What the two modes edit. *)
Record Content := MkContent {
  editMode : EditMode; visualMode : VisualMode; legacyValue : jstr; operations : list ParamOverrideOperation;
  jsonText : jstr; jsonError : option Failure; selectedOperationId : jstr; templatePresetKey : jstr }.

(** [seed] is the counter of identifiers; [shown] the selected pruning rule with
    the draft that is shown for it; [toasts] and [saved] the calls of
    [toast.error] and [onSave]. *)
Record Dialog := MkDialog {
  content : Content; expandedConditions : list (jstr * bool); drag : Drag; seed : N;
  shown : option (ParamOverrideOperation * PruneObjectsDraft); toasts : list Failure; saved : list jstr; isOpen : bool }.

Definition set_content (c : Content) (d : Dialog) : Dialog :=
  MkDialog c (expandedConditions d) (drag d) (seed d) (shown d) (toasts d) (saved d) (isOpen d).
Definition set_expanded (x : list (jstr * bool)) (d : Dialog) : Dialog :=
  MkDialog (content d) x (drag d) (seed d) (shown d) (toasts d) (saved d) (isOpen d).
Definition set_drag (x : Drag) (d : Dialog) : Dialog :=
  MkDialog (content d) (expandedConditions d) x (seed d) (shown d) (toasts d) (saved d) (isOpen d).
Definition set_seed (x : N) (d : Dialog) : Dialog :=
  MkDialog (content d) (expandedConditions d) (drag d) x (shown d) (toasts d) (saved d) (isOpen d).
Definition set_shown (x : option (ParamOverrideOperation * PruneObjectsDraft)) (d : Dialog) : Dialog :=
  MkDialog (content d) (expandedConditions d) (drag d) (seed d) x (toasts d) (saved d) (isOpen d).
Definition toast (x : Failure) (d : Dialog) : Dialog :=
  MkDialog (content d) (expandedConditions d) (drag d) (seed d) (shown d) (toasts d ++ [x]) (saved d) (isOpen d).

Definition set_operations (ops : list ParamOverrideOperation) (d : Dialog) : Dialog :=
  let c := content d in
  set_content (MkContent (editMode c) (visualMode c) (legacyValue c) ops (jsonText c) (jsonError c) (selectedOperationId c)
                 (templatePresetKey c)) d.
Definition select (id : jstr) (d : Dialog) : Dialog :=
  let c := content d in
  set_content (MkContent (editMode c) (visualMode c) (legacyValue c) (operations c) (jsonText c) (jsonError c) id
                 (templatePresetKey c)) d.

Definition ops (d : Dialog) : list ParamOverrideOperation := operations (content d).

(** Drawing identifiers in a handler: a TypeError ends it before anything is set. *)
Definition with_gen {A} (m : Gen A) (k : A -> Dialog -> Dialog) (d : Dialog) : Dialog :=
  match m (seed d) with (Some x, s) => k x (set_seed s d) | (None, s) => set_seed s d end.

Definition first_id (l : list ParamOverrideOperation) : jstr := match l with [] => [] | o :: _ => op_id o end.

(** * Effects and renders *)

Section Editor.
Context (clock : N -> N).

(** The effect that keeps the selection valid. *)
Definition keep_selection (d : Dialog) : Dialog :=
  match ops d with
  | [] => select [] d
  | o :: _ => if existsb (fun o => op_id o =s selectedOperationId (content d)) (ops d) then d else select (op_id o) d
  end.

Definition selectedOperation (d : Dialog) : option ParamOverrideOperation :=
  List.find (fun o => op_id o =s selectedOperationId (content d)) (ops d).

Definition operationCount (d : Dialog) : nat := length (List.filter (fun o => negb (isOperationBlank o)) (ops d)).

(** The four modes most rules have, with their counts. *)
Definition topOperationModes (d : Dialog) : list (jstr * nat) :=
  let counts := fold_left (fun m o => let mode := mode_or_set (op_mode o) in map_set mode (S (map_get mode m ?? 0)) m) (ops d) [] in
  take 4 (sort_by (fun a b => Z.of_nat b.2 - Z.of_nat a.2)%Z counts).

(** A render, after which [shown] is the draft on the page; [forget] when React
    does not use the remembered one. *)
Definition render (forget : bool) (d : Dialog) : Dialog :=
  with_gen (createDefaultOperation clock) (fun _ d =>
    match selectedOperation d with
    | Some o =>
        if op_mode o =s js "prune_objects" then
          match shown d with
          | Some (o', _) => if (negb forget && bool_decide (o' = o))%bool then d
                            else with_gen (parsePruneObjectsDraft clock (op_value_text o)) (fun x => set_shown (Some (o, x))) d
          | None => with_gen (parsePruneObjectsDraft clock (op_value_text o)) (fun x => set_shown (Some (o, x))) d
          end
        else set_shown None d
    | None => set_shown None d
    end) d.

(** Opening the dialog on a value: [None] when the effect throws, which takes the
    page down. *)
Definition open_effect (value : jstr) (d : Dialog) : option Dialog :=
  match parseInitialState clock value (seed d) with
  | (None, _) => None
  | (Some s, n) =>
      Some (MkDialog
        (MkContent (es_editMode s) (es_visualMode s) (es_legacyValue s) (es_operations s) (es_jsonText s) (es_jsonError s)
           (first_id (es_operations s))
           (match es_visualMode s with VisualLegacy => js "legacy_default" | VisualOperations => js "operations_default" end))
        [] no_drag n (shown d) (toasts d) (saved d) true)
  end.

(** * Rules *)

(** What the fields of a rule set. *)
Inductive OperationPatch :=
| PatchMode (s : jstr) | PatchPath (s : jstr) | PatchDescription (s : jstr) | PatchValueText (s : jstr)
| PatchKeepOrigin (b : bool) | PatchFrom (s : jstr) | PatchTo (s : jstr) | PatchLogic (s : jstr)
| PatchFromTo (from to : jstr).

Definition patch_operation (p : OperationPatch) (o : ParamOverrideOperation) : ParamOverrideOperation :=
  let '(MkOperation id description path mode from to value_text keep_origin logic conditions) := o in
  match p with
  | PatchMode s => MkOperation id description path s from to value_text keep_origin logic conditions
  | PatchPath s => MkOperation id description s mode from to value_text keep_origin logic conditions
  | PatchDescription s => MkOperation id s path mode from to value_text keep_origin logic conditions
  | PatchValueText s => MkOperation id description path mode from to s keep_origin logic conditions
  | PatchKeepOrigin b => MkOperation id description path mode from to value_text b logic conditions
  | PatchFrom s => MkOperation id description path mode s to value_text keep_origin logic conditions
  | PatchTo s => MkOperation id description path mode from s value_text keep_origin logic conditions
  | PatchLogic s => MkOperation id description path mode from to value_text keep_origin s conditions
  | PatchFromTo f t => MkOperation id description path mode f t value_text keep_origin logic conditions
  end.

(** [prev.map((o) => (o.id === id ? f(o) : o))] *)
Definition map_operation (id : jstr) (f : ParamOverrideOperation -> ParamOverrideOperation) (l : list ParamOverrideOperation)
    : list ParamOverrideOperation :=
  List.map (fun o => if op_id o =s id then f o else o) l.

Definition updateOperation (id : jstr) (p : OperationPatch) (d : Dialog) : Dialog :=
  set_operations (map_operation id (patch_operation p) (ops d)) d.

Definition addOperation (d : Dialog) : Dialog :=
  with_gen (createDefaultOperation clock) (fun created d => select (op_id created) (set_operations (ops d ++ [created]) d)) d.

Definition duplicate_value (source : ParamOverrideOperation) : jv :=
  JObj [(js "description", JStr (op_description source)); (js "path", JStr (op_path source)); (js "mode", JStr (op_mode source));
        (js "value", parseLooseValue (op_value_text source)); (js "keep_origin", JBool (op_keep_origin source));
        (js "from", JStr (op_from source)); (js "to", JStr (op_to source)); (js "logic", JStr (op_logic source));
        (js "conditions", JArr (List.map (fun c =>
           JObj [(js "path", JStr (cd_path c)); (js "mode", JStr (cd_mode c)); (js "value", parseLooseValue (cd_value_text c));
                 (js "invert", JBool (cd_invert c)); (js "pass_missing_key", JBool (cd_pass_missing_key c))])
           (op_conditions source)))].

(** The new rule is selected only if React runs the updater at once ([eager]),
    since the identifier is taken from it. *)
Definition duplicateOperation (eager : bool) (id : jstr) (d : Dialog) : Dialog :=
  match list_find (fun o => op_id o = id) (ops d) with
  | None => d
  | Some (idx, source) =>
      with_gen (normalizeOperation clock (duplicate_value source)) (fun cloned d =>
        let d := set_operations (take (idx + 1) (ops d) ++ cloned :: drop (idx + 1) (ops d)) d in
        if eager then select (op_id cloned) d else d) d
  end.

Definition removeOperation (id : jstr) (d : Dialog) : Dialog :=
  if Nat.leb (length (ops d)) 1
  then with_gen (createDefaultOperation clock) (fun o => set_operations [o]) d
  else set_operations (List.filter (fun o => negb (op_id o =s id)) (ops d)) d.

(** ** Conditions *)

Inductive ConditionPatch :=
| PatchCPath (s : jstr) | PatchCMode (s : jstr) | PatchCValueText (s : jstr) | PatchCInvert (b : bool) | PatchCPass (b : bool).

Definition patch_condition (p : ConditionPatch) (c : ParamOverrideCondition) : ParamOverrideCondition :=
  let '(MkCondition id path mode value_text invert pass) := c in
  match p with
  | PatchCPath s => MkCondition id s mode value_text invert pass
  | PatchCMode s => MkCondition id path s value_text invert pass
  | PatchCValueText s => MkCondition id path mode s invert pass
  | PatchCInvert b => MkCondition id path mode value_text b pass
  | PatchCPass b => MkCondition id path mode value_text invert b
  end.

Definition with_conditions (f : list ParamOverrideCondition -> list ParamOverrideCondition) (o : ParamOverrideOperation)
    : ParamOverrideOperation :=
  MkOperation (op_id o) (op_description o) (op_path o) (op_mode o) (op_from o) (op_to o) (op_value_text o) (op_keep_origin o)
    (op_logic o) (f (op_conditions o)).

(** [list.map((c) => (c.id === id ? { ...c, ...patch } : c))], for conditions and
    for pruning rules. *)
Definition patch_by_id (id : jstr) (p : ConditionPatch) (l : list ParamOverrideCondition) : list ParamOverrideCondition :=
  List.map (fun c => if cd_id c =s id then patch_condition p c else c) l.
Definition remove_by_id (id : jstr) (l : list ParamOverrideCondition) : list ParamOverrideCondition :=
  List.filter (fun c => negb (cd_id c =s id)) l.

Definition addCondition (id : jstr) (d : Dialog) : Dialog :=
  with_gen (createDefaultCondition clock) (fun created d =>
    set_expanded (map_set (cd_id created) true (expandedConditions d))
      (set_operations (map_operation id (with_conditions (fun l => l ++ [created])) (ops d)) d)) d.

Definition updateCondition (id conditionId : jstr) (p : ConditionPatch) (d : Dialog) : Dialog :=
  set_operations (map_operation id (with_conditions (patch_by_id conditionId p)) (ops d)) d.

Definition removeCondition (id conditionId : jstr) (d : Dialog) : Dialog :=
  set_operations (map_operation id (with_conditions (remove_by_id conditionId)) (ops d)) d.

Definition setExpanded (conditionId : jstr) (expanded : bool) (d : Dialog) : Dialog :=
  set_expanded (map_set conditionId expanded (expandedConditions d)) d.

Definition expandAll (expanded : bool) (d : Dialog) : Dialog :=
  match selectedOperation d with
  | Some o => set_expanded (fold_left (fun m c => map_set (cd_id c) expanded m) (op_conditions o) (expandedConditions d)) d
  | None => d
  end.

(** ** The two drafts *)

Definition with_value_text (s : jstr) (o : ParamOverrideOperation) : ParamOverrideOperation := patch_operation (PatchValueText s) o.

Inductive ErrorPatch :=
| PatchMessage (s : jstr) | PatchStatus (x : num) | PatchCode (s : jstr) | PatchType (s : jstr) | PatchSkipRetry (b : bool)
| PatchErrorSimple (b : bool) | PatchErrorPreset (status : num) (code type : jstr).

Definition patch_error (p : ErrorPatch) (x : ReturnErrorDraft) : ReturnErrorDraft :=
  let '(MkErrorDraft message status code type skip simple) := x in
  match p with
  | PatchMessage s => MkErrorDraft s status code type skip simple
  | PatchStatus n => MkErrorDraft message n code type skip simple
  | PatchCode s => MkErrorDraft message status s type skip simple
  | PatchType s => MkErrorDraft message status code s skip simple
  | PatchSkipRetry b => MkErrorDraft message status code type b simple
  | PatchErrorSimple b => MkErrorDraft message status code type skip b
  | PatchErrorPreset n c t => MkErrorDraft message n c t skip simple
  end.

Definition updateReturnErrorDraft (id : jstr) (p : ErrorPatch) (d : Dialog) : Dialog :=
  set_operations (map_operation id (fun o =>
    with_value_text (buildReturnErrorValueText (patch_error p (parseReturnErrorDraft (op_value_text o)))) o) (ops d)) d.

(** An updater of the pruning draft may draw identifiers too. *)
Definition PruneUpdater : Type := PruneObjectsDraft -> Gen PruneObjectsDraft.

Definition map_operation_gen (id : jstr) (f : ParamOverrideOperation -> Gen ParamOverrideOperation) (l : list ParamOverrideOperation)
    : Gen (list ParamOverrideOperation) :=
  gmap_list (fun o => if op_id o =s id then f o else ret o) l.

Definition updatePruneObjectsDraft (id : jstr) (updater : PruneUpdater) (d : Dialog) : Dialog :=
  with_gen (map_operation_gen id (fun o =>
    draw draft <- parsePruneObjectsDraft clock (op_value_text o);
    draw nextDraft <- updater draft;
    ret (with_value_text (buildPruneObjectsValueText nextDraft) o)) (ops d)) set_operations d.

Inductive PrunePatch :=
| PatchPruneSimple (b : bool) | PatchTypeText (s : jstr) | PatchPruneLogic (s : jstr) | PatchRecursive (b : bool).

Definition patch_prune (p : PrunePatch) (x : PruneObjectsDraft) : PruneObjectsDraft :=
  let '(MkPruneDraft simple type logic recursive rules) := x in
  match p with
  | PatchPruneSimple b => MkPruneDraft b type logic recursive rules
  | PatchTypeText s => MkPruneDraft simple s logic recursive rules
  | PatchPruneLogic s => MkPruneDraft simple type s recursive rules
  | PatchRecursive b => MkPruneDraft simple type logic b rules
  end.

Definition with_rules (f : list PruneRule -> list PruneRule) (x : PruneObjectsDraft) : PruneObjectsDraft :=
  MkPruneDraft (pd_simpleMode x) (pd_typeText x) (pd_logic x) (pd_recursive x) (f (pd_rules x)).

Definition patchPruneDraft (id : jstr) (p : PrunePatch) : Dialog -> Dialog :=
  updatePruneObjectsDraft id (fun x => ret (patch_prune p x)).

Definition addPruneRule (id : jstr) : Dialog -> Dialog :=
  updatePruneObjectsDraft id (fun x =>
    draw rule <- normalizePruneRule clock (JObj []);
    ret (patch_prune (PatchPruneSimple false) (with_rules (fun l => l ++ [rule]) x))).

Definition updatePruneRule (id ruleId : jstr) (p : ConditionPatch) : Dialog -> Dialog :=
  updatePruneObjectsDraft id (fun x => ret (with_rules (patch_by_id ruleId p) x)).

Definition removePruneRule (id ruleId : jstr) : Dialog -> Dialog :=
  updatePruneObjectsDraft id (fun x => ret (with_rules (remove_by_id ruleId) x)).

(** ** Dragging *)

Definition handleDragStart (id : jstr) (d : Dialog) : Dialog :=
  select id (set_drag (MkDrag id (dragOverOperationId (drag d)) (dragOverAfter (drag d))) d).

(** [after]: the pointer is in the lower half of the rule. *)
Definition handleDragOver (id : jstr) (after : bool) (d : Dialog) : Dialog :=
  let dragged := draggedOperationId (drag d) in
  if (negb (truthy dragged) || (dragged =s id))%bool then d else set_drag (MkDrag dragged id after) d.

Definition resetDragState (d : Dialog) : Dialog := set_drag no_drag d.

(** [data] is what the drag carries. *)
Definition handleDrop (id data : jstr) (d : Dialog) : Dialog :=
  let sourceId := or_str (draggedOperationId (drag d)) data in
  let after := if dragOverOperationId (drag d) =s id then dragOverAfter (drag d) else false in
  resetDragState
    (if (truthy sourceId && truthy id && negb (sourceId =s id))%bool
     then select sourceId (set_operations (reorderOperations (ops d) sourceId id after) d) else d).

(** * Modes, templates, saving *)

Definition buildVisualJson (c : Content) : Failure + jstr :=
  match visualMode c with
  | VisualLegacy =>
      let trimmed := trim (legacyValue c) in
      if negb (truthy trimmed) then inr []
      else
        match json_parse trimmed with
        | None => inl (PlainError (js "Parameter override must be valid JSON format"))
        | Some parsed =>
            if as_object parsed then inr (json_stringify2 parsed)
            else inl (PlainError (js "Legacy format must be a JSON object"))
        end
  | VisualOperations => buildOperationsJson (operations c) true
  end.

Definition to_json (text : jstr) (error : option Failure) (d : Dialog) : Dialog :=
  let c := content d in
  set_content (MkContent EditJson (visualMode c) (legacyValue c) (operations c) text error (selectedOperationId c)
                 (templatePresetKey c)) d.

Definition switchToJsonMode (d : Dialog) : Dialog :=
  let c := content d in
  match editMode c with
  | EditJson => d
  | EditVisual =>
      match buildVisualJson c with
      | inr text => to_json text None d
      | inl f =>
          let text := match visualMode c with
                      | VisualLegacy => legacyValue c
                      | VisualOperations => match buildOperationsJson (operations c) false with inr t => t | inl _ => [] end
                      end in
          to_json text (Some f) (toast f d)
      end
  end.

Definition switchToVisualMode (d : Dialog) : Dialog :=
  let c := content d in
  match editMode c with
  | EditVisual => d
  | EditJson =>
      let trimmed := trim (jsonText c) in
      if negb (truthy trimmed) then
        with_gen (default_operations clock) (fun l =>
          set_content (MkContent EditVisual VisualOperations [] l (jsonText c) None (first_id l) (templatePresetKey c))) d
      else
        match json_parse trimmed with
        | None => toast (PlainError (js "Parameter override must be valid JSON format")) d
        | Some parsed =>
            match operations_of parsed with
            | Some l =>
                with_gen (read_operations clock l) (fun l =>
                  set_content (MkContent EditVisual VisualOperations [] l (jsonText c) None (first_id l) (js "operations_default"))) d
            | None =>
                if as_object parsed then
                  with_gen (default_operations clock) (fun l =>
                    set_content (MkContent EditVisual VisualLegacy (json_stringify2 parsed) l (jsonText c) None (first_id l)
                                   (js "legacy_default"))) d
                else toast (PlainError (js "Parameter override must be a valid JSON object")) d
            end
        end
  end.

(** The own properties of a spread value. *)
Definition spread_entries (v : jv) : list (jstr * jv) :=
  match v with
  | JStr s => imap (fun i c => (print_N (N.of_nat i), JStr [c])) s
  | _ => jv_entries v
  end.

Definition template (c : Content) : TemplatePresetConfig :=
  map_get (templatePresetKey c) TEMPLATE_PRESET_CONFIG ?? MkTemplate (js "New Format Template") false OPERATION_TEMPLATE.

Definition fill_legacy (text : jstr) : Dialog -> Dialog :=
  with_gen (default_operations clock) (fun l d =>
    let c := content d in
    set_content (MkContent EditVisual VisualLegacy text l text None (selectedOperationId c) (templatePresetKey c)) d).

Definition fill_operations (append : bool) (values : list jv) : Dialog -> Dialog :=
  with_gen (gmap_list (normalizeOperation clock) values) (fun added d =>
    let c := content d in
    if append then
      let existing := match visualMode c with
                      | VisualOperations => List.filter (fun o => negb (isOperationBlank o)) (operations c)
                      | VisualLegacy => []
                      end in
      let nextOps := existing ++ added in
      set_content (MkContent EditVisual VisualOperations [] (match nextOps with [] => added | _ => nextOps end) [] None
                     (or_str (first_id nextOps) (first_id added)) (templatePresetKey c)) d
    else
      let text := json_stringify2 (JObj [(js "operations", JArr values)]) in
      match added with
      | [] => with_gen (default_operations clock) (fun l =>
                set_content (MkContent EditVisual VisualOperations (legacyValue c) l text None (first_id l) (templatePresetKey c))) d
      | _ => set_content (MkContent EditVisual VisualOperations (legacyValue c) added text None (first_id added) (templatePresetKey c)) d
      end).

Definition fillTemplate (append : bool) (d : Dialog) : Dialog :=
  let c := content d in
  let preset := template c in
  let payload := tp_payload preset in
  if tp_legacy preset then
    match append, visualMode c with
    | true, VisualLegacy =>
        let trimmed := trim (legacyValue c) in
        match (if truthy trimmed then json_parse trimmed else Some (JObj [])) with
        | None => toast (PlainError (js "Current legacy JSON is invalid, cannot append")) d
        | Some parsedCurrent =>
            fill_legacy (json_stringify2 (make_obj (spread_entries payload ++ spread_entries parsedCurrent))) d
        end
    | _, _ => fill_legacy (json_stringify2 payload) d
    end
  else fill_operations append (operations_of payload ?? []) d.

Definition setTemplatePresetKey (key : jstr) (d : Dialog) : Dialog :=
  let c := content d in
  set_content (MkContent (editMode c) (visualMode c) (legacyValue c) (operations c) (jsonText c) (jsonError c)
                 (selectedOperationId c) (or_str key (js "operations_default"))) d.

Definition setLegacyValue (text : jstr) (d : Dialog) : Dialog :=
  let c := content d in
  set_content (MkContent (editMode c) (visualMode c) text (operations c) (jsonText c) (jsonError c)
                 (selectedOperationId c) (templatePresetKey c)) d.

Definition resetEditorState : Dialog -> Dialog :=
  with_gen (default_operations clock) (fun l =>
    set_content (MkContent EditVisual VisualOperations [] l [] None (first_id l) (js "operations_default"))).

Definition handleJsonChange (nextValue : jstr) (d : Dialog) : Dialog :=
  let c := content d in
  let trimmed := trim nextValue in
  let error := if (truthy trimmed && negb (verifyJSON trimmed))%bool then Some (PlainError (js "JSON format error")) else None in
  set_content (MkContent (editMode c) (visualMode c) (legacyValue c) (operations c) nextValue error (selectedOperationId c)
                 (templatePresetKey c)) d.

Definition visualValidationError (c : Content) : option Failure :=
  match editMode c with
  | EditVisual => match buildVisualJson c with inl f => Some f | inr _ => None end
  | EditJson => None
  end.

(** What a save hands over. *)
Definition save_result (c : Content) : Failure + jstr :=
  match editMode c with
  | EditJson =>
      let trimmed := trim (jsonText c) in
      if negb (truthy trimmed) then inr []
      else
        match json_parse trimmed with
        | None => inl (PlainError (js "Parameter override must be valid JSON format"))
        | Some parsed => inr (json_stringify2 parsed)
        end
  | EditVisual => buildVisualJson c
  end.

Definition handleSave (d : Dialog) : Dialog :=
  match save_result (content d) with
  | inr result => MkDialog (content d) (expandedConditions d) (drag d) (seed d) (shown d) (toasts d) (saved d ++ [result]) false
  | inl f => toast f d
  end.

(** * Events *)

Inductive Event :=
| Rendered (forget : bool) | SelectOperation (id : jstr)
| UpdateOperation (id : jstr) (p : OperationPatch) | AddOperation | DuplicateOperation (eager : bool) (id : jstr)
| RemoveOperation (id : jstr) | AddCondition (id : jstr) | UpdateCondition (id conditionId : jstr) (p : ConditionPatch)
| RemoveCondition (id conditionId : jstr) | SetExpanded (conditionId : jstr) (b : bool) | ExpandAll (b : bool)
| UpdateReturnError (id : jstr) (p : ErrorPatch) | PatchPrune (id : jstr) (p : PrunePatch) | AddPruneRule (id : jstr)
| UpdatePruneRule (id ruleId : jstr) (p : ConditionPatch) | RemovePruneRule (id ruleId : jstr)
| DragStart (id : jstr) | DragOver (id : jstr) (after : bool) | Drop (id data : jstr) | DragEnd
| ToJson | ToVisual | FillTemplate (append : bool) | SetTemplate (key : jstr) | ResetEditor | JsonChange (text : jstr)
| LegacyChange (text : jstr) | Save.

Definition handle (e : Event) : Dialog -> Dialog :=
  match e with
  | Rendered forget => render forget
  | SelectOperation id => select id
  | UpdateOperation id p => updateOperation id p
  | AddOperation => addOperation
  | DuplicateOperation eager id => duplicateOperation eager id
  | RemoveOperation id => removeOperation id
  | AddCondition id => addCondition id
  | UpdateCondition id cid p => updateCondition id cid p
  | RemoveCondition id cid => removeCondition id cid
  | SetExpanded cid b => setExpanded cid b
  | ExpandAll b => expandAll b
  | UpdateReturnError id p => updateReturnErrorDraft id p
  | PatchPrune id p => patchPruneDraft id p
  | AddPruneRule id => addPruneRule id
  | UpdatePruneRule id rid p => updatePruneRule id rid p
  | RemovePruneRule id rid => removePruneRule id rid
  | DragStart id => handleDragStart id
  | DragOver id after => handleDragOver id after
  | Drop id data => handleDrop id data
  | DragEnd => resetDragState
  | ToJson => switchToJsonMode
  | ToVisual => switchToVisualMode
  | FillTemplate append => fillTemplate append
  | SetTemplate key => setTemplatePresetKey key
  | ResetEditor => resetEditorState
  | JsonChange text => handleJsonChange text
  | LegacyChange text => setLegacyValue text
  | Save => handleSave
  end.

(** A handler and the effect that follows its render. *)
Definition step (d : Dialog) (e : Event) : Dialog := keep_selection (handle e d).

End Editor.

(** * Identifiers stay distinct *)

Section Invariant.
Context (clock : N -> N).

Definition all_ids (l : list ParamOverrideOperation) : list jstr := flat_map operation_ids l.
Notation old := (between clock 0).

(** What holds of the dialog between renders: identifiers are distinct and drawn
    before now, there is a rule, the selected one exists, and so do the
    identifiers of the draft that is shown. *)
Record Valid (d : Dialog) : Prop := {
  va_distinct : NoDup (all_ids (ops d));
  va_old : Forall (old (seed d)) (all_ids (ops d));
  va_rules : ops d <> [];
  va_selected : selectedOperationId (content d) ∈ List.map op_id (ops d);
  va_shown : match shown d with Some (_, x) => Forall (old (seed d)) (rule_ids x) | None => True end }.

(** The same without the selection, which the effect repairs. *)
Record Sound (d : Dialog) : Prop := {
  so_distinct : NoDup (all_ids (ops d));
  so_old : Forall (old (seed d)) (all_ids (ops d));
  so_rules : ops d <> [];
  so_shown : match shown d with Some (_, x) => Forall (old (seed d)) (rule_ids x) | None => True end }.

Lemma valid_sound d : Valid d -> Sound d.
Proof. intros []. by split. Qed.

Lemma old_later s s' l : (s <= s')%N -> Forall (old s) l -> Forall (old s') l.
Proof. intros H Hl. apply (Forall_impl _ _ _ Hl). intros id. apply between_weaken; lia. Qed.

Lemma sound_valid d : Sound d -> Valid (keep_selection d).
Proof.
  intros [H1 H2 H3 H4]. unfold keep_selection. destruct (ops d) as [|o l] eqn:E; [done|].
  destruct (existsb _ (o :: l)) eqn:Ex.
  - split; rewrite ?E; try done. apply existsb_exists in Ex as (x & Hx & Ei). apply jstr_eqb_true in Ei. rewrite <-Ei.
    apply list_elem_of_In, in_map, Hx.
  - split; unfold select; cbn; fold (ops d); rewrite ?E; try done. left.
Qed.

(** A change of the rules that keeps some identifiers and draws others. *)
Lemma sound_ops d d' new : Sound d -> (seed d <= seed d')%N -> ops d' <> [] -> shown d' = shown d ->
  NoDup new -> Forall (between clock (seed d) (seed d')) new -> all_ids (ops d') ⊆+ all_ids (ops d) ++ new -> Sound d'.
Proof.
  intros [H1 H2 H3 H4] Hs Hne Hsh Hn Hb Hsub.
  assert (Hnd : NoDup (all_ids (ops d) ++ new)) by by apply (between_disjoint clock 0 (seed d) (seed d')).
  assert (Hold : Forall (old (seed d')) (all_ids (ops d) ++ new)).
  { apply Forall_app. split; [by apply (old_later (seed d))|]. apply (Forall_impl _ _ _ Hb). intros id. apply between_weaken; lia. }
  split; [| |done|].
  - apply submseteq_Permutation in Hsub as [k Hk]. rewrite Hk in Hnd. by apply NoDup_app in Hnd as [Hnd _].
  - rewrite Forall_forall in *. intros x Hx. apply Hold. by apply (elem_of_submseteq _ _ _ Hx Hsub).
  - rewrite Hsh. destruct (shown d) as [[o x]|]; [|done]. by apply (old_later (seed d)).
Qed.

(** The same rules at a later counter. *)
Lemma sound_same d d' : Sound d -> (seed d <= seed d')%N -> ops d' = ops d -> shown d' = shown d -> Sound d'.
Proof.
  intros H Hs Ho Hsh. apply (sound_ops d d' []); try done; [rewrite Ho; apply H|constructor|].
  by rewrite Ho, app_nil_r.
Qed.

Lemma sound_seed d s : Sound d -> (seed d <= s)%N -> Sound (set_seed s d).
Proof. intros H Hs. by apply (sound_same d). Qed.

Lemma sound_subset d l : Sound d -> l <> [] -> all_ids l ⊆+ all_ids (ops d) -> Sound (set_operations l d).
Proof.
  intros H Hne Hs. apply (sound_ops d (set_operations l d) []); try done; [constructor|by rewrite app_nil_r].
Qed.

Lemma sound_gen {A} (ids : A -> list jstr) (m : Gen A) k d :
  draws clock ids m -> Sound d ->
  (forall x s, (seed d <= s)%N -> NoDup (ids x) -> Forall (between clock (seed d) s) (ids x) -> Sound (k x (set_seed s d))) ->
  Sound (with_gen m k d).
Proof.
  intros Hm H Hk. unfold with_gen. specialize (Hm (seed d)). destruct (m (seed d)) as [[x|] s].
  - destruct Hm as (Hs & Hn & Hb). by apply Hk.
  - destruct Hm as [Hs _]. by apply sound_seed.
Qed.

(** Handlers that put drawn rules among the old ones, or in their place. *)
Lemma sound_drawn d d' s l new : Sound d -> (seed d <= s)%N -> NoDup (all_ids new) -> Forall (between clock (seed d) s) (all_ids new) ->
  l <> [] -> all_ids l ⊆+ all_ids (ops d) ++ all_ids new -> ops d' = l -> seed d' = s -> shown d' = shown d -> Sound d'.
Proof. intros H Hs Hn Hb Hne Hsub Ho Hsd Hsh. apply (sound_ops d d' (all_ids new)); rewrite ?Ho, ?Hsd; done. Qed.

Lemma all_ids_app u v : all_ids (u ++ v) = all_ids u ++ all_ids v.
Proof. apply flat_map_app. Qed.

Lemma all_ids_single o : all_ids [o] = operation_ids o.
Proof. apply app_nil_r. Qed.

Lemma submseteq_new (u v : list jstr) : v ⊆+ u ++ v.
Proof. apply submseteq_inserts_l. done. Qed.

Lemma map_operation_ids id f l : (forall o, operation_ids (f o) = operation_ids o) -> all_ids (map_operation id f l) = all_ids l.
Proof.
  intros Hf. induction l as [|o l IH]; [done|]. unfold all_ids, map_operation in *. cbn [List.map flat_map].
  rewrite IH. by destruct (op_id o =s id); rewrite ?Hf.
Qed.

Lemma map_operation_absent id f l : id ∉ List.map op_id l -> map_operation id f l = l.
Proof.
  intros Hl. unfold map_operation. rewrite <-(List.map_id l) at 2. apply map_ext_in. intros o Ho.
  rewrite (proj2 (jstr_eqb_false _ _)); [done|]. intros E. apply Hl. rewrite <-E. by apply list_elem_of_In, in_map.
Qed.

Lemma op_ids_in l id : id ∈ List.map op_id l -> id ∈ all_ids l.
Proof.
  induction l as [|x l IH]; [by intros H%elem_of_nil|]. unfold all_ids. cbn [flat_map List.map]. rewrite elem_of_app.
  intros H. apply elem_of_cons in H as [->|H]; [left; left|right; by apply IH].
Qed.

Lemma map_operation_nonempty id f l : l <> [] -> map_operation id f l <> [].
Proof. by destruct l. Qed.

Lemma sound_map d id f : (forall o, operation_ids (f o) = operation_ids o) -> Sound d -> Sound (set_operations (map_operation id f (ops d)) d).
Proof.
  intros Hf H. apply sound_subset; [done|apply map_operation_nonempty, H|]. by rewrite map_operation_ids.
Qed.

Lemma patch_operation_ids p o : operation_ids (patch_operation p o) = operation_ids o.
Proof. by destruct o, p. Qed.

Lemma map_operation_sub id f l : (forall o, operation_ids (f o) ⊆+ operation_ids o) -> all_ids (map_operation id f l) ⊆+ all_ids l.
Proof.
  intros Hf. induction l as [|o l IH]; [done|]. unfold all_ids, map_operation in *. cbn [List.map flat_map].
  apply submseteq_app; [|done]. by destruct (op_id o =s id).
Qed.

Lemma filter_rules_sub f l : all_ids (List.filter f l) ⊆+ all_ids l.
Proof.
  induction l as [|o l IH]; [done|]. unfold all_ids in *. cbn [List.filter flat_map].
  destruct (f o); [by apply submseteq_skips_l|]. by apply submseteq_inserts_l.
Qed.

Lemma conditions_ids f o : (forall l, List.map cd_id (f l) ⊆+ List.map cd_id l) -> operation_ids (with_conditions f o) ⊆+ operation_ids o.
Proof. intros H. unfold operation_ids. cbn. by apply submseteq_skip. Qed.

Lemma patch_by_id_ids id p l : List.map cd_id (patch_by_id id p l) = List.map cd_id l.
Proof.
  unfold patch_by_id. rewrite List.map_map. apply map_ext. intros c. destruct (cd_id c =s id); [|done]. by destruct c, p.
Qed.

Lemma remove_by_id_ids id l : List.map cd_id (remove_by_id id l) ⊆+ List.map cd_id l.
Proof.
  unfold remove_by_id. induction l as [|c l IH]; [done|]. cbn [List.filter List.map].
  destruct (negb _); cbn [List.map]; [by apply submseteq_skip|by apply submseteq_cons].
Qed.

End Invariant.

(** ** Handlers that draw identifiers *)

(** Draws do not take the counter back. *)
Definition later {A} (m : Gen A) : Prop := forall s, (s <= (m s).2)%N.

Lemma later_bind {A B} (m : Gen A) (f : A -> Gen B) : later m -> (forall x, later (f x)) -> later (gbind m f).
Proof.
  intros Hm Hf s. unfold gbind. specialize (Hm s). destruct (m s) as [[x|] s']; [|done]. specialize (Hf x s'). cbn in *. lia.
Qed.

Lemma later_ret {A} (x : A) : later (ret x).
Proof. intros s. cbn. lia. Qed.

Lemma later_list {A B} (f : A -> Gen B) l : (forall x, later (f x)) -> later (gmap_list f l).
Proof.
  intros Hf. induction l as [|x l IH]; [apply later_ret|]. apply later_bind; [done|]. intros y. apply later_bind; [done|].
  intros ys. apply later_ret.
Qed.

Section Handlers.
Context (clock : N -> N).
Notation Sound := (Sound clock).
Notation Valid := (Valid clock).

Lemma sound_add d : Sound d -> Sound (addOperation clock d).
Proof.
  intros H. apply (sound_gen clock operation_ids); [apply draws_operation|done|]. intros o s Hs Hn Hb.
  apply (sound_drawn clock d _ s (ops d ++ [o]) [o]); rewrite ?all_ids_single; try done; [by destruct (ops d)|].
  by rewrite all_ids_app, all_ids_single.
Qed.

Lemma insert_ids u v new l : l = u ++ v -> all_ids (u ++ new :: v) ⊆+ all_ids l ++ all_ids [new].
Proof.
  intros ->. change (new :: v) with ([new] ++ v). rewrite !all_ids_app. rewrite <-app_assoc. apply submseteq_skips_l.
  by rewrite (Permutation_app_comm (all_ids [new])).
Qed.

Lemma sound_duplicate eager id d : Sound d -> Sound (duplicateOperation clock eager id d).
Proof.
  intros H. unfold duplicateOperation. destruct (list_find _ (ops d)) as [[idx source]|]; [|done].
  apply (sound_gen clock operation_ids); [apply draws_operation|done|]. intros o s Hs Hn Hb.
  apply (sound_drawn clock d _ s (take (idx + 1) (ops d) ++ o :: drop (idx + 1) (ops d)) [o]); rewrite ?all_ids_single; try done;
    try (by destruct eager); [by destruct (take _ _)|].
  rewrite <-(all_ids_single o). apply insert_ids. by rewrite take_drop.
Qed.

(** The rules made of values, in place of all others. *)
Lemma sound_replaced d d' s l : Sound d -> (seed d <= s)%N -> NoDup (all_ids l) -> Forall (between clock (seed d) s) (all_ids l) ->
  l <> [] -> ops d' = l -> seed d' = s -> shown d' = shown d -> Sound d'.
Proof. intros H Hs Hn Hb Hne Ho Hsd Hsh. apply (sound_drawn clock d d' s l l); try done. apply submseteq_new. Qed.

Lemma read_nonempty values s l s' : read_operations clock values s = (Some l, s') -> l <> [].
Proof.
  destruct values as [|v values]; unfold read_operations, gbind; cbn [gmap_list].
  - destruct (createDefaultOperation clock s) as [[o|] s1]; [|done]. by intros [= <- <-].
  - unfold gbind. destruct (normalizeOperation clock v s) as [[o|] s1]; [|done].
    destruct (gmap_list _ values s1) as [[l0|] s2]; [|done]. by intros [= <- <-].
Qed.

(** Handlers that read a list of rules and put it in place. *)
Lemma sound_read values (k : list ParamOverrideOperation -> Dialog -> Dialog) d : Sound d ->
  (forall l d', ops (k l d') = l /\ seed (k l d') = seed d' /\ shown (k l d') = shown d') ->
  Sound (with_gen (read_operations clock values) k d).
Proof.
  intros H Hk. unfold with_gen. pose proof (draws_operations clock values (seed d)) as Hd.
  destruct (read_operations clock values (seed d)) as [[l|] s] eqn:E; [|apply sound_seed; tauto].
  destruct Hd as (Hs & Hn & Hb). destruct (Hk l (set_seed s d)) as (Ho & Hsd & Hsh).
  by apply (sound_replaced d _ s l); try done; apply (read_nonempty _ _ _ _ E).
Qed.

Lemma sound_remove id d : Sound d -> Sound (removeOperation clock id d).
Proof.
  intros H. unfold removeOperation. destruct (Nat.leb (length (ops d)) 1) eqn:E.
  - apply (sound_gen clock operation_ids); [apply draws_operation|done|]. intros o s Hs Hn Hb.
    by apply (sound_replaced d _ s [o]); rewrite ?all_ids_single.
  - apply sound_subset; [done| |apply filter_rules_sub]. apply Nat.leb_gt in E. pose proof (so_distinct _ _ H) as Hn.
    destruct (ops d) as [|a [|b l]]; cbn in E; [lia|lia|]. unfold all_ids in Hn. cbn [flat_map operation_ids app] in Hn.
    assert (Hab : op_id a <> op_id b).
    { intros Eab. apply NoDup_cons in Hn as [Hn _]. apply Hn. rewrite Eab, !elem_of_app. right. left. }
    cbn [List.filter]. destruct (op_id a =s id) eqn:Ea; [|done]. apply jstr_eqb_true in Ea.
    rewrite (proj2 (jstr_eqb_false (op_id b) id)) by congruence. done.
Qed.

Lemma add_condition_ids id c l : NoDup (all_ids l) ->
  all_ids (map_operation id (with_conditions (fun cs => cs ++ [c])) l) ⊆+ all_ids l ++ [cd_id c].
Proof.
  induction l as [|o l IH]; [intros _; apply submseteq_nil_l|]. unfold all_ids. cbn [flat_map]. intros Hn.
  unfold map_operation. cbn [List.map flat_map]. fold (map_operation id (with_conditions (fun cs => cs ++ [c])) l).
  fold (all_ids l) in *. fold (all_ids (map_operation id (with_conditions (fun cs => cs ++ [c])) l)).
  destruct (op_id o =s id) eqn:E.
  - apply jstr_eqb_true in E. rewrite map_operation_absent.
    + unfold operation_ids. cbn [op_id op_conditions with_conditions]. rewrite List.map_app. cbn [List.map].
      cbn [app]. rewrite <-!app_assoc. apply submseteq_skip, submseteq_skips_l. by rewrite (Permutation_app_comm [cd_id c]).
    + intros Hin. unfold operation_ids in Hn. cbn [app] in Hn. apply NoDup_cons in Hn as [Hn _]. apply Hn. rewrite E.
      apply elem_of_app. right. by apply op_ids_in.
  - apply NoDup_app in Hn as (_ & _ & Hn). rewrite <-app_assoc. apply submseteq_skips_l. by apply IH.
Qed.

Lemma sound_add_condition id d : Sound d -> Sound (addCondition clock id d).
Proof.
  intros H. apply (sound_gen clock (fun c => [cd_id c])); [apply draws_condition|done|]. intros c s Hs Hn Hb.
  apply (sound_ops clock d _ [cd_id c]); try done; [apply map_operation_nonempty, H|]. apply add_condition_ids, H.
Qed.

(** ** Reordering *)

Lemma reorder_perm l a b after : reorderOperations l a b after ≡ₚ l.
Proof.
  unfold reorderOperations. destruct (_ || _ || _)%bool; [done|]. destruct (list_find _ l) as [[i m]|] eqn:E; [|done]. cbv zeta.
  destruct (list_find _ (delete i l)) as [[k t]|]; [|done]. apply list_find_Some in E as (Hi & _ & _).
  rewrite <-Permutation_middle, take_drop, delete_take_drop. rewrite Permutation_middle. by rewrite (take_drop_middle l i m Hi).
Qed.

Lemma perm_ids l l' : l ≡ₚ l' -> all_ids l ⊆+ all_ids l'.
Proof. intros H. apply Permutation_submseteq. unfold all_ids. by rewrite !flat_map_concat_map, H. Qed.

Lemma sound_reorder a b after d : Sound d -> Sound (set_operations (reorderOperations (ops d) a b after) d).
Proof.
  intros H. pose proof (reorder_perm (ops d) a b after) as Hp. apply sound_subset; [done| |by apply perm_ids].
  intros E. rewrite E in Hp. apply Permutation_nil_l in Hp. by apply (so_rules _ _ H).
Qed.

(** ** Drafts *)

Lemma draws_later {A} ids (m : Gen A) : draws clock ids m -> later m.
Proof. intros H s. specialize (H s). destruct (m s) as [r s']. by destruct H. Qed.

Lemma update_prune_ids (updater : PruneUpdater) id l s l' s' :
  map_operation_gen id (fun o =>
    draw draft <- parsePruneObjectsDraft clock (op_value_text o);
    draw nextDraft <- updater draft;
    ret (with_value_text (buildPruneObjectsValueText nextDraft) o)) l s = (Some l', s') -> List.map operation_ids l' = List.map operation_ids l.
Proof.
  revert s l' s'. induction l as [|o l IH]; intros s l' s'; [by intros [= <- <-]|]. unfold map_operation_gen. cbn [gmap_list].
  unfold gbind at 1. match goal with |- context [match ?m with _ => _ end] => destruct m as [[o'|] s1] eqn:Eo end; [|done].
  unfold gbind at 1. match goal with |- context [match ?m with _ => _ end] => destruct m as [[l0|] s2] eqn:El end; [|done].
  intros [= <- <-]. cbn [List.map]. f_equal; [|by apply (IH s1 _ s2)].
  destruct (op_id o =s id); [|by injection Eo as <- _]. revert Eo. unfold gbind.
  destruct (parsePruneObjectsDraft clock _ s) as [[x|] s3]; [|done]. destruct (updater x s3) as [[y|] s4]; [|done].
  intros [= <- _]. apply patch_operation_ids.
Qed.

Lemma sound_prune id updater d : (forall x, later (updater x)) -> Sound d -> Sound (updatePruneObjectsDraft clock id updater d).
Proof.
  intros Hu H. unfold updatePruneObjectsDraft, with_gen.
  set (m := map_operation_gen _ _ _). assert (Hm : later m).
  { apply later_list. intros o. destruct (op_id o =s id); [|apply later_ret]. apply later_bind; [eapply draws_later, draws_prune|].
    intros x. apply later_bind; [apply Hu|]. intros y. apply later_ret. }
  specialize (Hm (seed d)). destruct (m (seed d)) as [[l|] s] eqn:E; [|by apply sound_seed]. cbn in Hm. subst m.
  apply update_prune_ids in E. assert (Ei : all_ids l = all_ids (ops d)) by (unfold all_ids; by rewrite !flat_map_concat_map, E).
  apply (sound_ops clock d _ []); try done; [|constructor|].
  - intros El. change (l = []) in El. subst l. destruct (ops d) as [|o l0] eqn:Eo; [by apply (so_rules _ _ H)|done].
  - change (all_ids l ⊆+ all_ids (ops d) ++ []). by rewrite app_nil_r, Ei.
Qed.

(** ** Renders *)

Lemma sound_shown d s o x : Sound d -> (seed d <= s)%N -> Forall (between clock (seed d) s) (rule_ids x) -> Sound (set_shown (Some (o, x)) (set_seed s d)).
Proof.
  intros H Hs Hb. destruct (sound_seed clock d s H Hs) as [H1 H2 H3 H4]. split; try done.
  apply (Forall_impl _ _ _ Hb). intros id. apply between_weaken; [|done]. apply N.le_0_l.
Qed.

Lemma sound_render forget d : Sound d -> Sound (render clock forget d).
Proof.
  intros H. apply (sound_gen clock operation_ids); [apply draws_operation|done|]. intros _ s Hs _ _.
  assert (Hd : Sound (set_seed s d)) by by apply sound_seed. set (d' := set_seed s d) in *.
  assert (Hnone : Sound (set_shown None d')) by (destruct Hd as [H1 H2 H3 H4]; by split).
  assert (Hparse : forall o, Sound (with_gen (parsePruneObjectsDraft clock (op_value_text o)) (fun x => set_shown (Some (o, x))) d')).
  { intros o. apply (sound_gen clock rule_ids); [apply draws_prune|done|]. intros x s' Hs' _ Hb. by apply sound_shown. }
  destruct (selectedOperation d') as [o|]; [|done]. destruct (op_mode o =s js "prune_objects"); [|done].
  destruct (shown d') as [[o' x]|] eqn:E; [|apply Hparse]. destruct (_ && _)%bool; [done|apply Hparse].
Qed.
End Handlers.

(** ** Every handler *)

Section Runs.
Context (clock : N -> N).
Notation Sound := (Sound clock).
Notation Valid := (Valid clock).

(** Handlers that do not touch the rules. *)
Lemma sound_content d c : Sound d -> operations c = ops d -> Sound (set_content c d).
Proof. intros H E. by apply (sound_same clock d); [|apply N.le_refl|..]. Qed.

Lemma sound_toast d f : Sound d -> Sound (toast f d).
Proof. intros H. by apply (sound_same clock d); [|apply N.le_refl|..]. Qed.

Lemma sound_legacy text d : Sound d -> Sound (fill_legacy clock text d).
Proof. intros H. by apply (sound_read clock []). Qed.

Lemma map_get_value {V} k (l : list (jstr * V)) v : map_get k l = Some v -> v ∈ l.*2.
Proof.
  induction l as [|[k' v'] l IH]; [done|]. cbn [map_get]. case_bool_decide; [intros [= ->]; left|]. intros Hv. right. by apply IH.
Qed.

Definition template_values (t : TemplatePresetConfig) : list jv := operations_of (tp_payload t) ?? [].

Lemma template_nonempty c : tp_legacy (template c) = false -> template_values (template c) <> [].
Proof.
  assert (H : Forall (fun t => tp_legacy t = false -> template_values t <> []) (template c :: TEMPLATE_PRESET_CONFIG.*2)).
  { assert (Hall : Forall (fun t => tp_legacy t = false -> template_values t <> []) TEMPLATE_PRESET_CONFIG.*2).
    { repeat (constructor; [by vm_compute|]). constructor. }
    constructor; [|done]. unfold template. destruct (map_get _ _) as [t|] eqn:E; cbn [nullish]; [|by vm_compute].
    rewrite Forall_forall in Hall. apply Hall. by eapply map_get_value. }
  by inversion H.
Qed.

Lemma normalized_nonempty values s l s' : values <> [] -> gmap_list (normalizeOperation clock) values s = (Some l, s') -> l <> [].
Proof. intros Hv. destruct values as [|v values]; [done|]. apply (read_nonempty clock (v :: values)). Qed.

Lemma sound_fill_operations append values d : values <> [] -> Sound d -> Sound (fill_operations clock append values d).
Proof.
  intros Hv H. unfold fill_operations, with_gen.
  pose proof (draws_list clock operation_ids (normalizeOperation clock) values (draws_operation clock) (seed d)) as Hd.
  destruct (gmap_list _ values (seed d)) as [[added|] s] eqn:E; [|apply sound_seed; tauto]. destruct Hd as (Hs & Hn & Hb).
  pose proof (normalized_nonempty _ _ _ _ Hv E) as Hne. cbv zeta. destruct append.
  - set (existing := match visualMode _ with VisualOperations => _ | VisualLegacy => _ end).
    assert (He : all_ids existing ⊆+ all_ids (ops d)).
    { unfold existing. destruct (visualMode _); [apply filter_rules_sub|apply submseteq_nil_l]. }
    destruct (existing ++ added) as [|o l] eqn:Eo; [by apply app_nil in Eo as [_ ?]|]. rewrite <-Eo.
    apply (sound_drawn clock d _ s (existing ++ added) added); try done; [by rewrite Eo|].
    rewrite all_ids_app. by apply submseteq_app.
  - destruct added as [|o added]; [done|]. by apply (sound_replaced clock d _ s (o :: added)).
Qed.

Lemma sound_fill append d : Sound d -> Sound (fillTemplate clock append d).
Proof.
  intros H. unfold fillTemplate. cbv zeta. destruct (tp_legacy (template (content d))) eqn:El.
  - destruct append, (visualMode (content d)); try by apply sound_legacy.
    destruct (if truthy _ then _ else _); [by apply sound_legacy|by apply sound_toast].
  - apply sound_fill_operations; [by apply template_nonempty|done].
Qed.

Lemma sound_to_json text e d : Sound d -> Sound (to_json text e d).
Proof. intros H. by apply sound_content. Qed.

Lemma sound_switch_json d : Sound d -> Sound (switchToJsonMode d).
Proof.
  intros H. unfold switchToJsonMode. cbv zeta. destruct (editMode _); [|done]. destruct (buildVisualJson _).
  - by apply sound_to_json, sound_toast.
  - by apply sound_to_json.
Qed.

Lemma sound_switch_visual d : Sound d -> Sound (switchToVisualMode clock d).
Proof.
  intros H. unfold switchToVisualMode. cbv zeta. destruct (editMode _); [done|].
  destruct (negb _); [by apply (sound_read clock [])|]. destruct (json_parse _) as [parsed|]; [|by apply sound_toast].
  destruct (operations_of parsed) as [l|]; [by apply (sound_read clock l)|].
  destruct (as_object parsed); [by apply (sound_read clock [])|by apply sound_toast].
Qed.

Lemma sound_drop id data d : Sound d -> Sound (handleDrop id data d).
Proof.
  intros H. unfold handleDrop, resetDragState. cbv zeta. set (after := if _ =s id then _ else false). clearbody after.
  assert (Hdrag : forall d x, Sound d -> Sound (set_drag x d)) by (intros d0 x Hd; by apply (sound_same clock d0); [|apply N.le_refl|..]).
  apply Hdrag. destruct (_ && _ && _)%bool; [|done]. apply sound_content; [by apply sound_reorder|done].
Qed.

Lemma sound_save d : Sound d -> Sound (handleSave d).
Proof.
  intros H. unfold handleSave. destruct (save_result _); [by apply sound_toast|]. by apply (sound_same clock d); [|apply N.le_refl|..].
Qed.

Lemma sound_handle e d : Sound d -> Sound (handle clock e d).
Proof.
  intros H. assert (Hsame : forall d', ops d' = ops d -> seed d' = seed d -> shown d' = shown d -> Sound d').
  { intros d' Ho Hs Hsh. apply (sound_same clock d); [done|rewrite Hs; apply N.le_refl|done..]. }
  assert (Hcond : forall id f, (forall l, List.map cd_id (f l) ⊆+ List.map cd_id l) -> Sound (set_operations (map_operation id (with_conditions f) (ops d)) d)).
  { intros id f Hf. apply sound_subset; [done|apply map_operation_nonempty, H|]. apply map_operation_sub. intros o. by apply conditions_ids. }
  destruct e; cbn [handle].
  - by apply sound_render.
  - by apply Hsame.
  - apply sound_map; [apply patch_operation_ids|done].
  - by apply sound_add.
  - by apply sound_duplicate.
  - by apply sound_remove.
  - by apply sound_add_condition.
  - apply Hcond. intros l. by rewrite patch_by_id_ids.
  - apply Hcond. intros l. apply remove_by_id_ids.
  - by apply Hsame.
  - unfold expandAll. destruct (selectedOperation d); [by apply Hsame|done].
  - apply sound_map; [intros o; apply patch_operation_ids|done].
  - apply sound_prune; [|done]. intros x. apply later_ret.
  - apply sound_prune; [|done]. intros x. apply later_bind; [eapply draws_later, draws_condition|]. intros r. apply later_ret.
  - apply sound_prune; [intros x; apply later_ret|done].
  - apply sound_prune; [intros x; apply later_ret|done].
  - by apply Hsame.
  - unfold handleDragOver. cbv zeta. destruct (_ || _)%bool; [done|]. by apply Hsame.
  - by apply sound_drop.
  - by apply Hsame.
  - by apply sound_switch_json.
  - by apply sound_switch_visual.
  - by apply sound_fill.
  - by apply Hsame.
  - by apply (sound_read clock []).
  - by apply Hsame.
  - by apply Hsame.
  - by apply sound_save.
Qed.

(** The dialog before it is opened, after [n] identifiers. *)
Definition mounted (n : N) : Dialog :=
  MkDialog (MkContent EditVisual VisualOperations [] [] [] None [] (js "operations_default")) [] no_drag n None [] [] false.

Lemma sound_open value n d : open_effect clock value (mounted n) = Some d -> Sound d.
Proof.
  unfold open_effect. destruct (parseInitialState clock value _) as [[s|] k] eqn:E; [|done]. intros [= <-].
  assert (H : exists values, read_operations clock values n = (Some (es_operations s), k)).
  { revert E. unfold parseInitialState, gbind, default_operations. cbn [seed mounted]. destruct (negb _).
    - destruct (read_operations clock [] n) as [[l|] k'] eqn:El; [|done]. intros [= <- <-]. by exists [].
    - destruct (json_parse _) as [parsed|].
      + destruct (operations_of parsed) as [values|].
        * destruct (read_operations clock values n) as [[l|] k'] eqn:El; [|done]. intros [= <- <-]. by exists values.
        * destruct (read_operations clock [] n) as [[l|] k'] eqn:El; [|done]. destruct (as_object parsed); intros [= <- <-]; by exists [].
      + destruct (read_operations clock [] n) as [[l|] k'] eqn:El; [|done]. intros [= <- <-]. by exists []. }
  destruct H as [values Hv]. pose proof (draws_operations clock values n) as Hd. rewrite Hv in Hd. destruct Hd as (Hs & Hn & Hb).
  split; cbn [ops content operations seed shown]; [done| |by apply (read_nonempty _ _ _ _ _ Hv)|done].
  apply (Forall_impl _ _ _ Hb). intros id. apply between_weaken; [apply N.le_0_l|done].
Qed.

Lemma run_valid (value : jstr) (n : N) (d : Dialog) (evs : list Event) :
  open_effect clock value (mounted n) = Some d -> Valid (fold_left (step clock) evs (keep_selection d)).
Proof.
  intros H%sound_open. assert (Hv : Valid (keep_selection d)) by by apply sound_valid. clear H. revert Hv.
  generalize (keep_selection d). induction evs as [|e evs IH]; intros x Hx; [done|]. cbn [fold_left]. apply IH.
  apply sound_valid, sound_handle, valid_sound, Hx.
Qed.

(** C6: from opening on, whatever is done in the dialog: there is a rule, the
    selected rule exists, and no two rules or conditions have the same identifier. *)
Theorem dialog_invariant (value : jstr) (n : N) (d : Dialog) (evs : list Event) :
  open_effect clock value (mounted n) = Some d ->
  let d' := fold_left (step clock) evs (keep_selection d) in
  NoDup (all_ids (ops d')) /\ selectedOperationId (content d') ∈ List.map op_id (ops d') /\ Valid d'.
Proof. intros H d'. pose proof (run_valid value n d evs H) as Hv. split_and!; [apply Hv|apply Hv|done]. Qed.
End Runs.

(** * What the editor does to drafts *)

Section Drafts.
Context (clock : N -> N).

Lemma find_absent l id : id ∉ List.map op_id l -> List.find (fun o => op_id o =s id) l = None.
Proof.
  intros H. destruct (List.find _ l) as [o|] eqn:E; [|done]. exfalso. apply find_some in E as [Hin E]. apply jstr_eqb_true in E.
  apply H. rewrite <-E. by apply list_elem_of_In, in_map.
Qed.

(** Only one rule has an identifier, so an updater runs for one rule. *)
Lemma map_gen_spec id f l s : NoDup (List.map op_id l) ->
  map_operation_gen id f l s =
  match List.find (fun o => op_id o =s id) l with
  | None => (Some l, s)
  | Some o => match f o s with
              | (Some o', s') => (Some (map_operation id (fun _ => o') l), s')
              | (None, s') => (None, s')
              end
  end.
Proof.
  unfold map_operation_gen. revert s. induction l as [|o l IH]; intros s Hn; [done|]. cbn [List.map] in Hn.
  apply NoDup_cons in Hn as [Ho Hn]. cbn [gmap_list List.find]. unfold gbind at 1. destruct (op_id o =s id) eqn:E.
  - destruct (f o s) as [[o'|] s']; [|done]. unfold gbind. rewrite IH by done. apply jstr_eqb_true in E as E'. subst id.
    rewrite find_absent by done. pose proof (map_operation_absent _ (fun _ => o') l Ho) as Ea. unfold map_operation in *.
    cbn [List.map]. by rewrite E, Ea.
  - cbn [ret]. unfold gbind. rewrite IH by done. destruct (List.find _ l) as [x|]; [|done].
    destruct (f x s) as [[o'|] s']; [|done]. cbn [ret]. unfold map_operation. cbn [List.map]. by rewrite E.
Qed.

Lemma parse_prune_some text s : exists x s', parsePruneObjectsDraft clock text s = (Some x, s').
Proof.
  unfold parsePruneObjectsDraft. destruct (negb _); [by eexists _, _|]. destruct (json_parse _) as [v|]; [|by eexists _, _].
  unfold catching. destruct (prune_draft_of clock v s) as [[x|] s']; by eexists _, _.
Qed.

Lemma valid_op_ids d : Valid clock d -> NoDup (List.map op_id (ops d)).
Proof.
  intros [H _ _ _ _]. revert H. induction (ops d) as [|o l IH]; [constructor|]. unfold all_ids. cbn [flat_map List.map].
  intros H. apply NoDup_app in H as (_ & H2 & H3). constructor; [|by apply IH]. intros Hin. apply (H2 (op_id o)); [left|].
  by apply op_ids_in.
Qed.

Definition rewritten (o : ParamOverrideOperation) (x : PruneObjectsDraft) : ParamOverrideOperation :=
  with_value_text (buildPruneObjectsValueText x) o.

(** An updater on the rule it is meant for. *)
Lemma update_prune_spec id (updater : PruneUpdater) d : Valid clock d ->
  updatePruneObjectsDraft clock id updater d =
  match List.find (fun o => op_id o =s id) (ops d) with
  | None => set_operations (ops d) (set_seed (seed d) d)
  | Some o =>
      match gbind (parsePruneObjectsDraft clock (op_value_text o)) updater (seed d) with
      | (Some y, s) => set_operations (map_operation id (fun _ => rewritten o y) (ops d)) (set_seed s d)
      | (None, s) => set_seed s d
      end
  end.
Proof.
  intros H. unfold updatePruneObjectsDraft, with_gen. rewrite map_gen_spec by by apply valid_op_ids.
  destruct (List.find _ _) as [o|]; [|done]. unfold gbind.
  destruct (parsePruneObjectsDraft clock (op_value_text o) (seed d)) as [[x|] s1]; [|done].
  by destruct (updater x s1) as [[y|] s2].
Qed.

(** Rules with other identifiers are not found. *)
Lemma patch_missing id p l : id ∉ List.map cd_id l -> patch_by_id id p l = l.
Proof.
  intros H. unfold patch_by_id. rewrite <-(List.map_id l) at 2. apply map_ext_in. intros c Hc.
  rewrite (proj2 (jstr_eqb_false _ _)); [done|]. intros <-. apply H. by apply list_elem_of_In, in_map.
Qed.

Lemma remove_missing id l : id ∉ List.map cd_id l -> remove_by_id id l = l.
Proof.
  intros H. apply forallb_filter_id, forallb_forall. intros c Hc. apply negb_true_iff, jstr_eqb_false. intros <-.
  apply H. by apply list_elem_of_In, in_map.
Qed.

(** Changing or deleting a condition of the pruning rule that is shown has no
    effect: the draft is parsed again, its conditions get new identifiers, and the
    one that was clicked is not found; the rule is only written again. *)
Theorem prune_rule_edits_lost (d : Dialog) (o : ParamOverrideOperation) (x : PruneObjectsDraft) (id ruleId : jstr) (p : ConditionPatch) :
  Valid clock d -> shown d = Some (o, x) -> ruleId ∈ rule_ids x ->
  updatePruneRule clock id ruleId p d = updatePruneObjectsDraft clock id ret d /\
  removePruneRule clock id ruleId d = updatePruneObjectsDraft clock id ret d.
Proof.
  intros H Hx Hr. pose proof (va_shown _ _ H) as Hold. rewrite Hx in Hold. rewrite Forall_forall in Hold.
  destruct (Hold _ Hr) as (n & Hn & ->). unfold updatePruneRule, removePruneRule. rewrite !update_prune_spec by done.
  destruct (List.find _ _) as [r|]; [|done]. unfold gbind.
  pose proof (draws_prune clock (op_value_text r) (seed d)) as Hd.
  destruct (parsePruneObjectsDraft clock (op_value_text r) (seed d)) as [[y|] s]; [|done]. destruct Hd as (_ & _ & Hb).
  assert (Hno : id_at clock n ∉ List.map cd_id (pd_rules y)).
  { intros Hin. rewrite Forall_forall in Hb. destruct (Hb _ Hin) as (k & Hk & E). apply id_at_inj in E. lia. }
  unfold with_rules. rewrite patch_missing, remove_missing by done. by destruct y.
Qed.

Lemma build_with_blank b x c : trim (cd_path c) = [] ->
  buildPruneObjectsValueText (patch_prune (PatchPruneSimple b) (with_rules (fun l => l ++ [c]) x)) =
  buildPruneObjectsValueText (patch_prune (PatchPruneSimple b) x).
Proof.
  intros Hc. destruct x as [simple type logic recursive rules]. cbn [with_rules patch_prune pd_simpleMode pd_typeText pd_logic pd_recursive pd_rules].
  unfold buildPruneObjectsValueText. cbn [pd_simpleMode pd_typeText pd_logic pd_recursive pd_rules].
  rewrite List.filter_app. cbn [List.filter]. rewrite Hc. cbn [truthy]. by rewrite app_nil_r.
Qed.

(** Adding a condition to a pruning rule adds none: the new one has no path yet
    and is left out of the text, and so of the draft that is read from it. *)
Theorem added_prune_rule_lost (d : Dialog) (id : jstr) :
  Valid clock d -> ops (addPruneRule clock id d) = ops (patchPruneDraft clock id (PatchPruneSimple false) d).
Proof.
  intros H. unfold addPruneRule, patchPruneDraft. rewrite !update_prune_spec by done. destruct (List.find _ _) as [r|]; [|done].
  unfold gbind. destruct (parse_prune_some (op_value_text r) (seed d)) as (x & s & ->). cbn [ret].
  unfold normalizePruneRule, createDefaultCondition. cbn [normalizeCondition gbind nextLocalId with_properties ret].
  cbn [ops set_operations content set_content operations]. unfold rewritten. by rewrite build_with_blank.
Qed.

(** With a type entered, choosing the detailed form of a pruning rule, which
    has its conditions, shows the simple form again. *)
Theorem prune_details_unreachable (T : jstr) (s : N) :
  units_ok T -> trim T = T -> T <> [] ->
  parsePruneObjectsDraft clock (buildPruneObjectsValueText (patch_prune (PatchPruneSimple false) (prune_text T))) s =
  (Some (prune_text T), s).
Proof.
  intros Hu Ht Hne. cbn [prune_text patch_prune]. unfold buildPruneObjectsValueText. cbn [pd_typeText pd_simpleMode pd_rules pd_logic pd_recursive List.filter List.map length].
  rewrite Ht. apply truthy_true in Hne. rewrite Hne. change (upper_is (js "OR") (or_str (js "AND") (js "AND"))) with false.
  cbn [assign negb andb map_set]. change (Nat.ltb 0 0) with false. cbn [assign]. set (v := JObj [(js "type", JStr T)]).
  assert (Hp : plain v).
  { apply (plain_keyed [js "type"]); [reflexivity|]. apply plain_first; [left|done]. }
  unfold parsePruneObjectsDraft. rewrite trim_stringify. unfold json_stringify at 1. rewrite (plain_nonempty _ _ Hp). cbn [negb].
  rewrite json_parse_compact by done. unfold catching, v, prune_draft_of. getters. cbn [is_undefined].
  unfold gbind. cbn [rules_of_entries rules_of_conditions ret lift]. unfold trimmed_string, js_String. cbn [unprintable option_map jv_to_string lift ret].
  rewrite Ht. reflexivity.
Qed.

Lemma trim_end_space s : trim_end (s ++ [32%N]) = trim_end s.
Proof. unfold trim_end. rewrite reverse_app. reflexivity. Qed.

Lemma trim_space s : trim (s ++ [32%N]) = trim s.
Proof.
  unfold trim, trim_start. destruct (drop_while_suffix is_ws s) as (u & E & Hu).
  destruct (drop_while is_ws s) as [|c t] eqn:Ed.
  - rewrite app_nil_r in E. subst u. rewrite drop_while_app by done. done.
  - assert (Ek : drop_while is_ws (s ++ [32%N]) = (c :: t) ++ [32%N]).
    { rewrite E, <-app_assoc, drop_while_app by done. cbn [app]. apply drop_while_keep. by apply (drop_while_head is_ws s c t). }
    by rewrite Ek, trim_end_space.
Qed.

(** A space typed at the end of the message of a custom error disappears, since
    what is shown is read back from the text that is written. *)
Theorem typed_space_lost (d : Dialog) (id m : jstr) :
  updateReturnErrorDraft id (PatchMessage (m ++ [32%N])) d = updateReturnErrorDraft id (PatchMessage m) d.
Proof.
  unfold updateReturnErrorDraft. f_equal. unfold map_operation. apply map_ext. intros o. destruct (op_id o =s id); [|done].
  f_equal. destruct (parseReturnErrorDraft (op_value_text o)) as [message status code type skip simple]. cbn [patch_error].
  unfold buildReturnErrorValueText. cbn [re_message re_simpleMode re_statusCode re_code re_type re_skipRetry]. by rewrite trim_space.
Qed.
End Drafts.

(** * Switching modes and saving *)

Section Modes.
Context (clock : N -> N).

(** The effect on the selection leaves what is edited. *)
Lemma keep_selection_content d :
  let c := content (keep_selection d) in
  editMode c = editMode (content d) /\ visualMode c = visualMode (content d) /\ legacyValue c = legacyValue (content d) /\
  operations c = operations (content d) /\ jsonText c = jsonText (content d) /\ jsonError c = jsonError (content d) /\
  toasts (keep_selection d) = toasts d.
Proof. unfold keep_selection. destruct (ops d) as [|o l]; [done|]. by destruct (existsb _ _). Qed.

(** Switching to the JSON text and back keeps the rules, in the form they are
    written in and without the blank ones, and what would be saved. *)
Theorem mode_switch_keeps_rules (d : Dialog) (text : jstr) :
  editMode (content d) = EditVisual -> visualMode (content d) = VisualOperations ->
  Forall writable (ops d) -> save_result (content d) = inr text -> text <> [] ->
  let j := step clock d ToJson in
  let v := step clock j ToVisual in
  editMode (content j) = EditJson /\ jsonText (content j) = text /\ save_result (content j) = inr text /\
  editMode (content v) = EditVisual /\ visualMode (content v) = VisualOperations /\
  List.map erase (ops v) = List.map canonicalOperation (kept (ops d)) /\ save_result (content v) = inr text /\ toasts v = toasts d.
Proof.
  intros He Hv Hw Hs Hne. unfold save_result in Hs. rewrite He in Hs. pose proof Hs as Hb. unfold buildVisualJson in Hb. rewrite Hv in Hb.
  destruct (build_kept _ _ Hb Hne) as (Hk & Hval & Et). pose proof (kept_writable _ Hw) as Hkw. fold (ops d) in *.
  cbv zeta. set (j := step clock d ToJson).
  assert (Ej : handle clock ToJson d = to_json text None d).
  { cbn [handle]. unfold switchToJsonMode. cbv zeta. by rewrite He, Hs. }
  destruct (keep_selection_content (handle clock ToJson d)) as (J1 & J2 & J3 & J4 & J5 & J6 & J7). fold j in J1, J2, J3, J4, J5, J6, J7.
  change (keep_selection (handle clock ToJson d)) with j in *. rewrite Ej in *. cbn in J1, J5, J7.
  pose proof (written_plain _ Hkw) as Hp.
  assert (Etrim : trim text = text) by (rewrite Et; apply trim_stringify2).
  assert (Htr : truthy text = true) by by apply truthy_true.
  assert (Hparse : json_parse text = Some (written (kept (ops d)))) by (rewrite Et; by apply json_parse_stringify).
  assert (Ev : handle clock ToVisual j = with_gen (read_operations clock (List.map operation_payload (kept (ops d)))) (fun l =>
      set_content (MkContent EditVisual VisualOperations [] l text None (first_id l) (js "operations_default"))) j).
  { cbn [handle]. unfold switchToVisualMode. cbv zeta. by rewrite J1, J5, Etrim, Htr, Hparse. }
  destruct (read_written clock _ (seed j) Hkw) as (l & s & El & Ee).
  assert (Er : read_operations clock (List.map operation_payload (kept (ops d))) (seed j) = (Some l, s)).
  { unfold read_operations. destruct (kept (ops d)); [done|exact El]. }
  unfold with_gen in Ev. rewrite Er in Ev. set (v := step clock j ToVisual).
  destruct (keep_selection_content (handle clock ToVisual j)) as (V1 & V2 & V3 & V4 & V5 & V6 & V7).
  change (keep_selection (handle clock ToVisual j)) with v in *. rewrite Ev in *. cbn in V1, V2, V4, V7.
  split_and!; [done|done| |done|done|by unfold ops; rewrite V4|..].
  - unfold save_result. by rewrite J1, J5, Etrim, Htr, Hparse, <-Et.
  - unfold save_result, buildVisualJson. rewrite V1, V2, V4, <-build_erase, Ee, build_canonical by done. by rewrite <-Et.
  - by rewrite V7.
Qed.

(** A save in the visual mode hands over nothing or the text of an object, and
    closes the dialog; a save that fails says why and changes nothing else. *)
Theorem save_hands_over_object (d : Dialog) :
  editMode (content d) = EditVisual -> Forall writable (ops d) ->
  (visualMode (content d) = VisualLegacy -> forall v, json_parse (trim (legacyValue (content d))) = Some v -> plain v) ->
  (exists text, saved (handleSave d) = saved d ++ [text] /\ isOpen (handleSave d) = false /\
    (text = [] \/ exists l, json_parse text = Some (JObj l))) \/
  (exists f, handleSave d = toast f d).
Proof.
  intros He Hw Hl. unfold handleSave, save_result. rewrite He. destruct (buildVisualJson (content d)) as [f|text] eqn:E; [right; by exists f|].
  left. exists text. split_and!; [done|done|]. unfold buildVisualJson in E. destruct (visualMode (content d)) eqn:Ev.
  - destruct (decide (text = [])) as [->|Hne]; [by left|]. right. destruct (build_kept _ _ E Hne) as (Hk & _ & ->).
    eexists. apply json_parse_stringify, written_plain, kept_writable, Hw.
  - cbv zeta in E. destruct (truthy (trim _)); [|by injection E as <-; left]. cbn [negb] in E.
    destruct (json_parse _) as [v|] eqn:Ep; [|done]. destruct v as [| | | | | |l]; try done. injection E as <-. right. exists l.
    by apply json_parse_stringify, (Hl eq_refl).
Qed.

(** Every template passes the checks: filled in, it can be saved as it is. *)
Theorem templates_pass :
  Forall (fun key => forall d, exists text,
    save_result (content (fillTemplate clock false (setTemplatePresetKey key d))) = inr text /\ truthy text = true /\
    jsonError (content (fillTemplate clock false (setTemplatePresetKey key d))) = None) TEMPLATE_PRESET_CONFIG.*1.
Proof.
  unfold TEMPLATE_PRESET_CONFIG. cbn [fmap list_fmap fst].
  repeat (apply Forall_cons; split; [intros d; eexists; split_and!; vm_compute; reflexivity|]). apply Forall_nil_2.
Qed.
End Modes.

(** * Examples *)

Definition noon : N -> N := fun _ => 43200000%N.

Definition run (value : jstr) (evs : list Event) : Dialog :=
  match open_effect noon value (mounted 0) with
  | Some d => fold_left (step noon) evs (keep_selection d)
  | None => mounted 0
  end.

(** The identifier of the rule at an index. *)
Definition nth_id (i : nat) (d : Dialog) : jstr := match ops d !! i with Some o => op_id o | None => [] end.

Definition edits : list Event :=
  let d := run sample_text [AddOperation] in
  [AddOperation; DuplicateOperation true (nth_id 0 d); DragStart (nth_id 2 d); DragOver (nth_id 0 d) true; Drop (nth_id 0 d) [];
   RemoveOperation (nth_id 1 d); AddCondition (nth_id 0 d); ToJson; ToVisual; FillTemplate true].

Lemma dialog_invariant_witness :
  let d := run sample_text edits in
  NoDup (all_ids (ops d)) /\ length (ops d) = 3 /\ selectedOperationId (content d) ∈ List.map op_id (ops d).
Proof.
  assert (E : exists d0, open_effect noon sample_text (mounted 0) = Some d0) by (eexists; vm_compute; reflexivity).
  destruct E as [d0 E]. assert (Er : run sample_text edits = fold_left (step noon) edits (keep_selection d0)) by (unfold run; by rewrite E).
  destruct (dialog_invariant noon sample_text 0 d0 edits E) as (H1 & H2 & _). cbv zeta. split_and!.
  - by rewrite Er.
  - vm_compute. reflexivity.
  - by rewrite Er.
Defined.

(** A pruning rule with a condition, shown on the page. *)
Definition prune_value : jstr :=
  jq "{`operations`: [{`mode`: `prune_objects`, `value`: {`type`: `thinking`, `conditions`: [{`path`: `id`, `value`: 7}]}}]}".
Definition pruning : Dialog := run prune_value [Rendered false].

Lemma pruning_valid : Valid noon pruning.
Proof.
  assert (E : exists d0, open_effect noon prune_value (mounted 0) = Some d0) by (eexists; vm_compute; reflexivity).
  destruct E as [d0 E]. unfold pruning, run. rewrite E. by apply (run_valid noon prune_value 0 d0).
Qed.

Definition shown_rule (d : Dialog) : jstr :=
  match shown d with Some (_, x) => match rule_ids x with id :: _ => id | [] => [] end | None => [] end.

Lemma prune_rule_edits_lost_witness :
  truthy (shown_rule pruning) = true /\
  updatePruneRule noon (nth_id 0 pruning) (shown_rule pruning) (PatchCPath (js "name")) pruning =
    updatePruneObjectsDraft noon (nth_id 0 pruning) ret pruning /\
  removePruneRule noon (nth_id 0 pruning) (shown_rule pruning) pruning = updatePruneObjectsDraft noon (nth_id 0 pruning) ret pruning.
Proof.
  split; [vm_compute; reflexivity|]. assert (E : exists o x, shown pruning = Some (o, x) /\ shown_rule pruning ∈ rule_ids x).
  { eexists _, _. split; [vm_compute; reflexivity|]. apply has_true. vm_compute. reflexivity. }
  destruct E as (o & x & E & Hin).
  exact (prune_rule_edits_lost noon pruning o x (nth_id 0 pruning) (shown_rule pruning) (PatchCPath (js "name")) pruning_valid E Hin).
Defined.

Lemma added_prune_rule_lost_witness :
  ops (addPruneRule noon (nth_id 0 pruning) pruning) = ops (patchPruneDraft noon (nth_id 0 pruning) (PatchPruneSimple false) pruning).
Proof. exact (added_prune_rule_lost noon pruning (nth_id 0 pruning) pruning_valid). Defined.

Lemma prune_details_unreachable_witness :
  parsePruneObjectsDraft noon (js "{" ++ json_quote (js "type") ++ js ":" ++ json_quote (js "thinking") ++ js "}") 4%N =
  (Some (prune_text (js "thinking")), 4%N).
Proof.
  exact (prune_details_unreachable noon (js "thinking") 4%N ltac:(units_done) eq_refl ltac:(discriminate)).
Defined.

Definition editing : Dialog :=
  set_content (MkContent EditVisual VisualOperations [] sample_operations [] None (js "a") (js "operations_default")) (mounted 9).

Lemma mode_switch_keeps_rules_witness :
  jsonText (content (step noon editing ToJson)) = sample_text /\
  List.map erase (ops (step noon (step noon editing ToJson) ToVisual)) = List.map canonicalOperation [sample_set; sample_copy].
Proof.
  assert (Hne : sample_text <> []) by (intros E; apply (f_equal truthy) in E; vm_compute in E; discriminate).
  destruct (mode_switch_keeps_rules noon editing sample_text eq_refl eq_refl sample_writable ltac:(vm_compute; reflexivity) Hne)
    as (_ & H1 & _ & _ & _ & H2 & _). by split.
Defined.

Lemma save_hands_over_object_witness :
  (exists text, saved (handleSave editing) = [text] /\ isOpen (handleSave editing) = false /\
    (text = [] \/ exists l, json_parse text = Some (JObj l))) \/ (exists f, handleSave editing = toast f editing).
Proof. apply (save_hands_over_object editing eq_refl sample_writable). discriminate. Defined.
