(* ===== verification/Playground.v ===== *)
(** The messages of the web playground (web/src/features/playground/types.ts,
    constants.ts and lib/message): how a message is created, streamed into,
    finalized, edited, and how it is shown.

    [Date.now()] is a clock: its n-th reading within one call. Fresh identifiers
    ([nanoid()]) are given. A property that is absent and one whose value is
    [undefined] are the same here: the code only reads them and prints them with
    [JSON.stringify]. *)

From Stdlib Require Import NArith ZArith Lia ZifyBool ZifyN.
From Stdlib Require Import SpecFloat.
From stdpp Require Import base list gmap strings.
From S2P Require Import Prelude JsString JsNum Json.

(** * Data (types.ts, constants.ts) *)

Inductive MessageRole := USER | ASSISTANT | SYSTEM.
Inductive MessageStatus := LOADING | STREAMING | COMPLETE | ERROR.

#[export] Instance MessageRole_dec : EqDecision MessageRole.
Proof. solve_decision. Defined.
#[export] Instance MessageStatus_dec : EqDecision MessageStatus.
Proof. solve_decision. Defined.

Record MessageVersion := Version { v_id : jstr; v_content : jstr }.

Record Source := MkSource { href : jstr; s_title : jstr }.

Record Reasoning := MkReasoning {
  r_content : jstr; r_duration : num;
  r_startedAt : option num; r_completedAt : option num; r_durationMs : option num
}.

(** [errorCode] keeps the value the server sent, whatever its type. *)
Record Message := MkMessage {
  key : jstr;
  from : MessageRole;
  versions : list MessageVersion;
  createdAt : option num;
  startedAt : option num;
  completedAt : option num;
  durationMs : option num;
  sources : option (list Source);
  reasoning : option Reasoning;
  isReasoningStreaming : option bool;
  isReasoningComplete : option bool;
  isContentComplete : option bool;
  status : option MessageStatus;
  errorCode : jv
}.

Notation clock := (nat -> num) (only parsing).

(** What is left of a clock after its first [n] readings. *)
Definition later (n : nat) (clk : clock) : clock := fun i => clk (n + i).

(** ** The spread updates the code writes *)

Definition with_versions (vs : list MessageVersion) (m : Message) : Message :=
  MkMessage (key m) (from m) vs (createdAt m) (startedAt m) (completedAt m) (durationMs m) (sources m)
    (reasoning m) (isReasoningStreaming m) (isReasoningComplete m) (isContentComplete m) (status m) (errorCode m).

Definition with_createdAt (c : option num) (m : Message) : Message :=
  MkMessage (key m) (from m) (versions m) c (startedAt m) (completedAt m) (durationMs m) (sources m)
    (reasoning m) (isReasoningStreaming m) (isReasoningComplete m) (isContentComplete m) (status m) (errorCode m).

Definition with_timing (s c d : option num) (m : Message) : Message :=
  MkMessage (key m) (from m) (versions m) (createdAt m) s c d (sources m)
    (reasoning m) (isReasoningStreaming m) (isReasoningComplete m) (isContentComplete m) (status m) (errorCode m).

Definition with_reasoning (r : option Reasoning) (m : Message) : Message :=
  MkMessage (key m) (from m) (versions m) (createdAt m) (startedAt m) (completedAt m) (durationMs m) (sources m)
    r (isReasoningStreaming m) (isReasoningComplete m) (isContentComplete m) (status m) (errorCode m).

Definition with_reasoningStreaming (b : bool) (m : Message) : Message :=
  MkMessage (key m) (from m) (versions m) (createdAt m) (startedAt m) (completedAt m) (durationMs m) (sources m)
    (reasoning m) (Some b) (isReasoningComplete m) (isContentComplete m) (status m) (errorCode m).

Definition with_status (s : MessageStatus) (m : Message) : Message :=
  MkMessage (key m) (from m) (versions m) (createdAt m) (startedAt m) (completedAt m) (durationMs m) (sources m)
    (reasoning m) (isReasoningStreaming m) (isReasoningComplete m) (isContentComplete m) (Some s) (errorCode m).

Definition with_errorCode (e : jv) (m : Message) : Message :=
  MkMessage (key m) (from m) (versions m) (createdAt m) (startedAt m) (completedAt m) (durationMs m) (sources m)
    (reasoning m) (isReasoningStreaming m) (isReasoningComplete m) (isContentComplete m) (status m) e.

(** * Messages (lib/message/message-utils.ts) *)

Definition createMessageVersion (vid content : jstr) : MessageVersion := Version vid content.

Definition getCurrentVersion (m : Message) : MessageVersion :=
  match versions m with
  | v :: _ => v
  | [] => Version (js "default") []
  end.

Definition getMessageContent (m : Message) : jstr := v_content (getCurrentVersion m).

Definition hasMessageContent (m : Message) : bool := truthy (trim (getMessageContent m)).

Definition updateCurrentVersionContent (m : Message) (content : jstr) : Message :=
  with_versions [Version (v_id (getCurrentVersion m)) content] m.

Definition createUserMessage (kid vid content : jstr) (created : num) : Message :=
  MkMessage kid USER [createMessageVersion vid content] (Some created) None None None None None None None None
    None JUndef.

Definition createLoadingAssistantMessage (kid vid : jstr) (started : num) : Message :=
  MkMessage kid ASSISTANT [createMessageVersion vid []] (Some started) (Some started) None None None None
    (Some false) (Some false) (Some false) (Some LOADING) JUndef.

(** A part of a message for the API. *)
Inductive ContentPart := TextPart (text : jstr) | ImagePart (url : jstr).

Inductive ApiContent := PlainText (text : jstr) | Parts (parts : list ContentPart).

Definition buildMessageContent (text : jstr) (imageUrls : list jstr) : ApiContent :=
  let validImages := List.filter (fun u => truthy (trim u)) imageUrls in
  match validImages with
  | [] => PlainText text
  | _ => Parts (TextPart text :: List.map (fun u => ImagePart (trim u)) validImages)
  end.

Definition getTextContent (content : ApiContent) : jstr :=
  match content with
  | PlainText s => s
  | Parts ps =>
      match List.find (fun p => match p with TextPart _ => true | ImagePart _ => false end) ps with
      | Some (TextPart s) => s
      | _ => []
      end
  end.

Record ChatCompletionMessage := ApiMessage { api_role : MessageRole; api_content : jstr }.

Definition formatMessageForAPI (m : Message) : ChatCompletionMessage :=
  ApiMessage (from m) (v_content (getCurrentVersion m)).

Definition is_assistant (m : Message) : bool := bool_decide (from m = ASSISTANT).
Definition is_user (m : Message) : bool := bool_decide (from m = USER).

Definition isValidMessage (m : Message) : bool :=
  if Nat.eqb (length (versions m)) 0 then false
  else if is_assistant m && negb (hasMessageContent m) then false
  else true.

(** * Timing (lib/message/message-timing-utils.ts) *)

Definition completeAssistantTiming (m : Message) (completed : num) : Message :=
  if negb (is_assistant m) then m
  else
    let started := startedAt m ?? (createdAt m ?? completed) in
    with_timing (Some started) (Some completed) (Some (num_max nzero (num_sub completed started))) m.

Definition startReasoningTiming (m : Message) (started : num) : Reasoning :=
  MkReasoning
    (match reasoning m with Some r => r_content r | None => [] end)
    (match reasoning m with Some r => r_duration r | None => nzero end)
    (Some (match reasoning m with Some r => r_startedAt r ?? started | None => started end))
    (match reasoning m with Some r => r_completedAt r | None => None end)
    (match reasoning m with Some r => r_durationMs r | None => None end).

Definition completeReasoningTiming (m : Message) (completed : num) : Message :=
  match reasoning m with
  | None => m
  | Some r =>
      if is_some (r_durationMs r) then m
      else
        let started := r_startedAt r ?? (startedAt m ?? completed) in
        let ms := num_max nzero (num_sub completed started) in
        with_reasoning
          (Some (MkReasoning (r_content r) (num_ceil (num_div ms (num_of_Z 1000))) (Some started) (Some completed)
                   (Some ms))) m
  end.

(** * Thinking tags (lib/message/message-reasoning-utils.ts) *)

Record ParsedThinkTags := Parsed { visibleContent : jstr; p_reasoning : jstr; hasUnclosedTag : bool }.

Definition think_open : jstr := js "<think>".
Definition think_close : jstr := js "</think>".

(** The loop, on the content from [currentPos] on: the visible parts, the
    reasoning parts, and whether the last tag is open. *)
Fixpoint think_loop (fuel : nat) (rest : jstr) : list jstr * list jstr * bool :=
  match fuel with
  | O => ([], [], false)
  | S f =>
      match index_of think_open rest with
      | None => (if Nat.ltb 0 (length rest) then [rest] else [], [], false)
      | Some openPos =>
          let before := if Nat.ltb 0 openPos then [take openPos rest] else [] in
          let inner := drop (openPos + 7) rest in
          match index_of think_close inner with
          | None => (before, [inner], true)
          | Some closePos =>
              let '(vis, rs, unclosed) := think_loop f (drop (closePos + 8) inner) in
              (before ++ vis, take closePos inner :: rs, unclosed)
          end
      end
  end.

Definition parseThinkTags (content : jstr) : ParsedThinkTags :=
  if negb (includes think_open content) then Parsed content [] false
  else
    let '(visibleParts, reasoningParts, unclosed) := think_loop (S (length content)) content in
    Parsed (trim (join [] visibleParts)) (trim (join [10; 10]%N reasoningParts)) unclosed.

(** * Streaming (lib/message/message-streaming-utils.ts) *)

Definition processStreamingContent (clk : clock) (m : Message) (contentChunk : jstr) : Message :=
  let cur := getMessageContent m in
  let fullContent := if truthy contentChunk then cur ++ contentChunk else cur in
  if negb (is_some (reasoning m)) && negb (includes think_open fullContent) then
    with_reasoningStreaming false (updateCurrentVersionContent m fullContent)
  else
    let parsed := parseThinkTags fullContent in
    let finalReasoning :=
      if truthy (p_reasoning parsed) then
        let r := startReasoningTiming m (clk 0) in
        Some (MkReasoning (p_reasoning parsed) (r_duration r) (r_startedAt r) (r_completedAt r) (r_durationMs r))
      else reasoning m in
    with_reasoningStreaming (hasUnclosedTag parsed)
      (with_reasoning finalReasoning (updateCurrentVersionContent m fullContent)).

Inductive StreamChunkType := reasoning_chunk | content_chunk.

#[export] Instance StreamChunkType_dec : EqDecision StreamChunkType.
Proof. solve_decision. Defined.

Definition getAppendableChunk (currentContent chunk : jstr) : jstr :=
  if negb (truthy currentContent) || negb (starts_with currentContent chunk) then chunk
  else drop (length currentContent) chunk.

Definition has_status (s : MessageStatus) (m : Message) : bool := bool_decide (status m = Some s).

Definition applyStreamingChunk (clk : clock) (m : Message) (type : StreamChunkType) (chunk : jstr) : Message :=
  if has_status ERROR m then m
  else
    match type with
    | reasoning_chunk =>
        let r := startReasoningTiming m (clk 0) in
        with_status STREAMING
          (with_reasoningStreaming true
             (with_reasoning
                (Some (MkReasoning (r_content r ++ getAppendableChunk (r_content r) chunk) (r_duration r)
                         (r_startedAt r) (r_completedAt r) (r_durationMs r))) m))
    | content_chunk =>
        let appendable := getAppendableChunk (getMessageContent m) chunk in
        let contentMessage := processStreamingContent clk m appendable in
        with_status STREAMING
          (if isReasoningStreaming contentMessage ?? false then contentMessage
           else completeReasoningTiming contentMessage (clk 1))
    end.

Definition opt_truthy (o : option jstr) : option jstr :=
  match o with Some s => if truthy s then Some s else None | None => None end.

Definition finalizeMessage (clk : clock) (m : Message) (apiReasoningContent : option jstr) : Message :=
  let cur := getMessageContent m in
  let parsed := if includes think_open cur then Some (parseThinkTags cur) else None in
  let visible := match parsed with Some p => visibleContent p | None => cur end in
  let finalReasoning :=
    opt_truthy apiReasoningContent ??
    (opt_truthy (match reasoning m with Some r => Some (r_content r) | None => None end) ??
    (opt_truthy (match parsed with Some p => Some (p_reasoning p) | None => None end) ?? [])) in
  let finalized :=
    with_reasoningStreaming false
      (with_reasoning
         (if truthy finalReasoning then
            let r := startReasoningTiming m (clk 0) in
            Some (MkReasoning finalReasoning (r_duration r) (r_startedAt r) (r_completedAt r) (r_durationMs r))
          else None)
         (updateCurrentVersionContent m visible)) in
  completeReasoningTiming finalized (clk 1).

Definition completeAssistantMessage (clk : clock) (m : Message) : Message :=
  completeAssistantTiming (with_status COMPLETE (finalizeMessage clk m None)) (clk 2).

Definition isAssistantMessageFinal (m : Message) : bool := has_status COMPLETE m || has_status ERROR m.

Definition isAssistantMessagePending (m : Message) : bool := has_status LOADING m || has_status STREAMING m.

Definition isPendingAssistantMessage (m : option Message) : bool :=
  match m with
  | Some m => is_assistant m && isAssistantMessagePending m
  | None => false
  end.

(** The answer to a request that does not stream. *)
Record ChoiceMessage := MkChoiceMessage { ch_content : option jstr; ch_reasoning : option jstr }.
Record ChatCompletionChoice := Choice { ch_message : option ChoiceMessage }.
Record ChatCompletionResponse := Response { choices : option (list ChatCompletionChoice) }.

(** [response.choices?.\[0\]] *)
Definition firstChoice (response : ChatCompletionResponse) : option ChatCompletionChoice :=
  match choices response with
  | Some (c :: _) => Some c
  | _ => None
  end.

Definition hasChatCompletionChoice (response : ChatCompletionResponse) : bool := is_some (firstChoice response).

Definition applyChatCompletionChoice (clk : clock) (m : Message) (choice : ChatCompletionChoice) : Message :=
  let content := match ch_message choice with Some c => ch_content c ?? [] | None => [] end in
  let api_reasoning := match ch_message choice with Some c => ch_reasoning c | None => None end in
  completeAssistantTiming
    (with_status COMPLETE (finalizeMessage clk (updateCurrentVersionContent m content) api_reasoning)) (clk 2).

Definition applyChatCompletionResponse (clk : clock) (m : Message) (response : ChatCompletionResponse) :
  option Message :=
  match firstChoice response with
  | Some choice => Some (applyChatCompletionChoice clk m choice)
  | None => None
  end.

(** ** Error messages (constants.ts); [t] translates *)

Definition API_REQUEST_ERROR : jstr := js "Request error occurred".
Definition NETWORK_ERROR : jstr := js "Network connection failed or server not responding".
Definition PARSE_ERROR : jstr := js "Error parsing response data".
Definition STREAM_START_ERROR : jstr := js "Error establishing connection".
Definition CONNECTION_CLOSED : jstr := js "Connection closed".
Definition INTERRUPTED : jstr := js "Generation was interrupted".

Definition ERROR_MESSAGES : list jstr :=
  [API_REQUEST_ERROR; NETWORK_ERROR; PARSE_ERROR; STREAM_START_ERROR; CONNECTION_CLOSED; INTERRUPTED].

(** The position of the last pending assistant message, searched from the end. *)
Fixpoint last_pending (ms : list Message) : option nat :=
  match ms with
  | [] => None
  | m :: t =>
      match last_pending t with
      | Some i => Some (S i)
      | None => if isPendingAssistantMessage (Some m) then Some 0 else None
      end
  end.

Definition trimmed_reasoning (m : Message) : bool :=
  match reasoning m with Some r => truthy (trim (r_content r)) | None => false end.

Definition sanitizeMessagesOnLoad (t : jstr -> jstr) (clk : clock) (messages : list Message) : list Message :=
  match last_pending messages with
  | None => messages
  | Some targetIndex =>
      match messages !! targetIndex with
      | None => messages
      | Some target =>
          let finalized := finalizeMessage clk target None in
          let sanitized :=
            if hasMessageContent finalized || trimmed_reasoning finalized then
              completeAssistantTiming (with_reasoningStreaming false (with_status COMPLETE finalized)) (clk 2)
            else
              completeAssistantTiming
                (with_reasoningStreaming false
                   (with_status ERROR
                      (updateCurrentVersionContent finalized (t API_REQUEST_ERROR ++ js ": " ++ t INTERRUPTED))))
                (clk 2) in
          <[targetIndex := sanitized]> messages
      end
  end.

(** * Updates of the last message (lib/message/message-update-utils.ts) *)

Definition updateLastAssistantMessage (messages : list Message) (updater : Message -> Message) : list Message :=
  match last messages with
  | Some m => if is_assistant m then <[length messages - 1 := updater m]> messages else messages
  | None => messages
  end.

(** The title is given: the default of the parameter is [API_REQUEST_ERROR]. *)
Definition updateAssistantMessageWithError (now : num) (messages : list Message) (errorMessage : jstr)
    (error_code : jv) (title : jstr) : list Message :=
  updateLastAssistantMessage messages (fun m =>
    completeAssistantTiming
      (with_errorCode (if jv_truthy error_code then error_code else JNull)
         (with_reasoningStreaming false
            (with_status ERROR (updateCurrentVersionContent m (title ++ js ": " ++ errorMessage))))) now).

(** * Conversation (lib/message/conversation-message-utils.ts) *)

(** The identifiers of a pair: of the user message, its version, the assistant
    message and its version. *)
Record PairIds := Ids { u_key : jstr; u_vid : jstr; a_key : jstr; a_vid : jstr }.

Definition appendUserMessagePair (now : num) (ids : PairIds) (messages : list Message) (content : jstr) :
  list Message :=
  messages ++ [createUserMessage (u_key ids) (u_vid ids) content now;
               createLoadingAssistantMessage (a_key ids) (a_vid ids) now].

(** [messages.findIndex((message) => message.key === messageKey)] *)
Fixpoint find_key (messages : list Message) (messageKey : jstr) : option nat :=
  match messages with
  | [] => None
  | m :: t =>
      if (key m =s messageKey) then Some 0
      else match find_key t messageKey with Some i => Some (S i) | None => None end
  end.

Definition createRegeneratedMessages (now : num) (kid vid : jstr) (messages : list Message) (messageKey : jstr) :
  option (list Message) :=
  match find_key messages messageKey with
  | None => None
  | Some messageIndex =>
      match messages !! messageIndex with
      | None => None
      | Some m =>
          if is_user m then Some (take (messageIndex + 1) messages ++ [createLoadingAssistantMessage kid vid now])
          else Some (take messageIndex messages ++ [createLoadingAssistantMessage kid vid now])
      end
  end.

Definition removeMessageByKey (messages : list Message) (messageKey : jstr) : list Message :=
  List.filter (fun m => negb (key m =s messageKey)) messages.

(** The loop counts [index] down from [beforeIndex - 1]; the outer [None] is the
    TypeError of an index past the end. *)
Fixpoint getPreviousUserMessage (messages : list Message) (beforeIndex : nat) : option (option Message) :=
  match beforeIndex with
  | O => Some None
  | S index =>
      match messages !! index with
      | Some m => if is_user m then Some (Some m) else getPreviousUserMessage messages index
      | None => None
      end
  end.

Record ApplyMessageEditResult := Edited { e_messages : list Message; shouldSend : bool }.

Definition applyMessageEdit (submittedAt : num) (kid vid : jstr) (messages : list Message)
    (messageKey content : jstr) (shouldSubmit : bool) : option ApplyMessageEditResult :=
  match find_key messages messageKey with
  | None => None
  | Some messageIndex =>
      let updatedMessages :=
        List.map (fun m =>
          if (key m =s messageKey) then
            with_createdAt (if shouldSubmit then Some submittedAt else createdAt m)
              (updateCurrentVersionContent m content)
          else m) messages in
      let is_user_edit := match updatedMessages !! messageIndex with Some m => is_user m | None => false end in
      if negb shouldSubmit || negb is_user_edit then Some (Edited updatedMessages false)
      else
        Some (Edited (take (messageIndex + 1) updatedMessages ++
                      [createLoadingAssistantMessage kid vid submittedAt]) true)
  end.

Definition getEditingMessageContent (messages : list Message) (editingKey : option jstr) : jstr :=
  match opt_truthy editingKey with
  | None => []
  | Some k =>
      match List.find (fun m => key m =s k) messages with
      | Some m => getMessageContent m
      | None => []
      end
  end.

Record ChatMessageRenderState := RenderState { alwaysShowActions : bool; rs_content : jstr; isEditing : bool }.

Definition getChatMessageRenderState (messages : list Message) (m : Message) (messageIndex : nat)
    (editingKey : option jstr) : ChatMessageRenderState :=
  RenderState (Z.eqb (Z.of_nat messageIndex) (Z.of_nat (length messages) - 1) && is_assistant m)
    (getMessageContent m)
    (match editingKey with Some k => k =s key m | None => false end).

(** * What is shown (lib/message/message-*-utils.ts) *)

Record MessageActionState := ActionState {
  as_content : jstr; as_hasContent : bool; as_isAssistant : bool; as_isLoading : bool; as_isUser : bool }.

Definition getMessageActionState (m : Message) : MessageActionState :=
  ActionState (getMessageContent m) (hasMessageContent m) (is_assistant m)
    (has_status LOADING m || has_status STREAMING m) (is_user m).

Definition getMessageActionsVisibilityClass (alwaysVisible : bool) : jstr :=
  if alwaysVisible then js "opacity-100" else js "opacity-0 group-hover:opacity-100 max-md:opacity-100".

Definition shouldShowMessageLoader (m : Message) (isAssistant : bool) (versionContent : jstr) : bool :=
  isAssistant && negb (isReasoningStreaming m ?? false) &&
  (has_status LOADING m || (has_status STREAMING m && negb (truthy versionContent))).

Definition shouldShowMessageContent (m : Message) (versionContent : jstr) : bool :=
  (is_user m || negb (isReasoningStreaming m ?? false)) && Nat.ltb 0 (length versionContent).

Definition getDisplayContent (m : Message) (versionContent : jstr) : jstr :=
  if negb (is_assistant m) then versionContent
  else if negb (includes think_open versionContent) then versionContent
  else visibleContent (parseThinkTags versionContent).

(** [reasoningContent] is present exactly when [hasReasoning]. *)
Record MessageContentState := ContentState {
  displayContent : jstr; hasSources : bool; cs_isAssistant : bool; showLoader : bool;
  showMessageContent : bool; cs_sources : list Source; reasoningContent : option jstr }.

Definition getMessageContentState (m : Message) (versionContent : jstr) : MessageContentState :=
  let isAssistant := is_assistant m in
  let srcs := sources m ?? [] in
  let content := if isAssistant then match reasoning m with Some r => Some (r_content r) | None => None end
                 else None in
  ContentState (getDisplayContent m versionContent) (Nat.ltb 0 (length srcs)) isAssistant
    (shouldShowMessageLoader m isAssistant versionContent) (shouldShowMessageContent m versionContent)
    srcs (opt_truthy content).

Record MessageEditorState := EditorState { canSave : bool; hasChanged : bool; showSaveAndSubmit : bool }.

Definition getMessageEditorState (m : Message) (editText originalText : jstr) : MessageEditorState :=
  let hasText := Nat.ltb 0 (length (trim editText)) in
  let changed := negb (editText =s originalText) in
  EditorState (hasText && changed) changed (is_user m).

Definition MODEL_PRICE_ERROR_CODE : jstr := js "model_price_error".
Definition FALLBACK_ERROR_CONTENT : jstr := js "An unknown error occurred".

Inductive MessageErrorKind := generic_error | model_price_error.

Record MessageErrorState := ErrorState { es_content : jstr; es_kind : MessageErrorKind; showSettingsLink : bool }.

Definition isAdminRole (role : option num) : bool :=
  match role with Some r => num_leb (num_of_Z 10) r | None => false end.

Definition isErrorMessage (m : Message) : bool := has_status ERROR m.

Definition getMessageErrorState (m : Message) (isAdmin : bool) : option MessageErrorState :=
  if negb (isErrorMessage m) then None
  else
    let content := or_str (getMessageContent m) FALLBACK_ERROR_CONTENT in
    let isModelPriceError := match errorCode m with JStr c => c =s MODEL_PRICE_ERROR_CODE | _ => false end in
    Some (ErrorState content (if isModelPriceError then model_price_error else generic_error)
            (isModelPriceError && isAdmin)).

Inductive PlaygroundMessageLayoutMode := alternating | left_mode.
Inductive MessageAlignment := align_left | align_right.

Definition getMessageAlignment (m : Message) (layoutMode : PlaygroundMessageLayoutMode) : MessageAlignment :=
  match layoutMode with
  | left_mode => align_left
  | alternating => if is_user m then align_right else align_left
  end.

Definition getMessageAlignmentClass (alignment : MessageAlignment) : jstr :=
  match alignment with
  | align_right => js "items-end text-right"
  | align_left => js "items-start text-left"
  end.

(** * Concrete values *)

Example think_closed :
  parseThinkTags (js "a<think>b</think> c<think>d</think>") = Parsed (js "a c") (js "b" ++ [10; 10]%N ++ js "d") false.
Proof. vm_compute. reflexivity. Qed.

Example think_unclosed : parseThinkTags (js "a<think>b") = Parsed (js "a") (js "b") true.
Proof. vm_compute. reflexivity. Qed.

Example chunk_repeated : getAppendableChunk (js "ha") (js "ha") = [].
Proof. vm_compute. reflexivity. Qed.

(** * Thinking tags *)

(** A text with closed tags, and what follows the last of them. *)
Fixpoint tag_text (blocks : list (jstr * jstr)) (rest : jstr) : jstr :=
  match blocks with
  | [] => rest
  | (v, r) :: t => v ++ think_open ++ r ++ think_close ++ tag_text t rest
  end.

(** The last visible text, with the tag that stays open after it if any. *)
Definition ending (v : jstr) (o : option jstr) : jstr :=
  match o with Some r => v ++ think_open ++ r | None => v end.

Definition well_tagged (blocks : list (jstr * jstr)) (v : jstr) (o : option jstr) : Prop :=
  Forall (fun b => includes think_open b.1 = false /\ includes think_close b.2 = false) blocks /\
  includes think_open v = false /\ match o with Some r => includes think_close r = false | None => True end.

Definition opt_list {A} (o : option A) : list A := match o with Some x => [x] | None => [] end.

Lemma join_nil_concat ls : join [] ls = concat ls.
Proof.
  induction ls as [|x ls IH]; [done|]. destruct ls as [|y ls]; [simpl; by rewrite app_nil_r|].
  change (join [] (x :: y :: ls)) with (x ++ [] ++ join [] (y :: ls)). by rewrite IH.
Qed.

Lemma open_first v s : includes think_open v = false -> index_of think_open (v ++ think_open ++ s) = Some (length v).
Proof. apply index_of_first. apply (bool_decide_unpack _). by vm_compute. Qed.

Lemma close_first v s : includes think_close v = false -> index_of think_close (v ++ think_close ++ s) = Some (length v).
Proof. apply index_of_first. apply (bool_decide_unpack _). by vm_compute. Qed.

Lemma concat_before (v : jstr) l : concat ((if Nat.ltb 0 (length v) then [v] else []) ++ l) = v ++ concat l.
Proof. by destruct v. Qed.

(** One round of the loop, on a text that begins with [v] and a tag. *)
Lemma think_round f v s :
  includes think_open v = false ->
  think_loop (S f) (v ++ think_open ++ s) =
    let before := if Nat.ltb 0 (length v) then [v] else [] in
    match index_of think_close s with
    | None => (before, [s], true)
    | Some closePos =>
        let '(vis, rs, unclosed) := think_loop f (drop (closePos + 8) s) in
        (before ++ vis, take closePos s :: rs, unclosed)
    end.
Proof.
  intros Hv. cbn [think_loop]. rewrite open_first by done. rewrite take_app_length.
  assert (drop (length v + 7) (v ++ think_open ++ s) = s) as ->.
  { rewrite app_assoc. change 7 with (length think_open). rewrite <-length_app. apply drop_app_length. }
  done.
Qed.

Lemma think_loop_parts v o blocks : well_tagged blocks v o ->
  forall f, length blocks < f -> exists vis,
    think_loop f (tag_text blocks (ending v o)) = (vis, blocks.*2 ++ opt_list o, is_some o) /\
    concat vis = concat blocks.*1 ++ v.
Proof.
  intros (Hb & Hv & Ho). induction Hb as [|[w r] blocks [Hw Hr] _ IH]; intros f Hf; (destruct f as [|f]; [simpl in Hf; lia|]).
  - destruct o as [r|]; cbn [tag_text ending].
    + rewrite think_round by done. rewrite (proj1 (index_of_none _ _) Ho). eexists; split; [done|].
      destruct v; simpl; rewrite ?app_nil_r; done.
    + cbn [think_loop]. rewrite (proj1 (index_of_none _ _) Hv). eexists; split; [done|].
      destruct v; simpl; rewrite ?app_nil_r; done.
  - cbn [tag_text]. rewrite think_round by done. rewrite close_first by done. cbv zeta. rewrite take_app_length.
    assert (drop (length r + 8) (r ++ think_close ++ tag_text blocks (ending v o)) = tag_text blocks (ending v o)) as ->.
    { rewrite app_assoc. change 8 with (length think_close). rewrite <-length_app. apply drop_app_length. }
    destruct (IH f) as (vis & E & Hc); [simpl in Hf; lia|]. rewrite E. eexists; split; [done|].
    rewrite concat_before, Hc. csimpl. by rewrite app_assoc.
Qed.

Lemma tag_text_length blocks rest : length blocks <= length (tag_text blocks rest).
Proof.
  induction blocks as [|[w r] blocks IH]; [simpl; lia|]. cbn [tag_text]. rewrite !length_app.
  change (length think_open) with 7. simpl. lia.
Qed.

(** Every text has this form. *)
Lemma tag_decompose n content :
  length content < n -> exists blocks v o, content = tag_text blocks (ending v o) /\ well_tagged blocks v o.
Proof.
  revert content. induction n as [|n IH]; intros content Hn; [lia|].
  destruct (index_of think_open content) as [i|] eqn:Eo.
  2:{ exists [], content, None. split; [done|]. split_and!; try done. by apply index_of_none. }
  pose proof (index_of_some _ _ _ Eo) as E1. pose proof (index_of_before think_open _ _ ltac:(done) Eo) as H1.
  set (v := take i content) in *. set (s := drop (i + length think_open) content) in *.
  destruct (index_of think_close s) as [j|] eqn:Ec.
  2:{ exists [], v, (Some s). split; [done|]. split_and!; try done. by apply index_of_none. }
  pose proof (index_of_some _ _ _ Ec) as E2. pose proof (index_of_before think_close _ _ ltac:(done) Ec) as H2.
  set (rest := drop (j + length think_close) s) in *.
  destruct (IH rest) as (blocks & w & o & E3 & Hb & Hw & Ho).
  { subst rest s. rewrite !length_drop. apply (f_equal length) in E1. rewrite !length_app in E1.
    change (length think_open) with 7 in *. lia. }
  exists ((v, take j s) :: blocks), w, o. cbn [tag_text]. split; [by rewrite <-E3, <-E2|].
  split_and!; try done. by constructor.
Qed.

(** The split of an answer into its thinking and its visible text: every
    text is visible parts and closed think tags, maybe with a last tag that
    stays open; the visible parts are put together and trimmed, the thoughts are
    separated by empty lines and trimmed, and the open tag is reported. A text
    without a tag is visible as it is. *)
Theorem parse_think_tags content :
  exists blocks v o, content = tag_text blocks (ending v o) /\ well_tagged blocks v o /\
    parseThinkTags content =
      match blocks, o with
      | [], None => Parsed content [] false
      | _, _ => Parsed (trim (concat blocks.*1 ++ v)) (trim (join [10; 10]%N (blocks.*2 ++ opt_list o))) (is_some o)
      end.
Proof.
  destruct (tag_decompose (S (length content)) content) as (blocks & v & o & E & Hw); [lia|].
  exists blocks, v, o. split_and!; [done|done|]. unfold parseThinkTags.
  assert (Hinc : includes think_open content = match blocks, o with [], None => false | _, _ => true end).
  { rewrite E. destruct Hw as (_ & Hv & _). destruct blocks as [|[w r] blocks]; [destruct o as [r|]; [|done]|];
      cbn [tag_text ending]; apply includes_true; eauto. }
  rewrite Hinc. destruct (think_loop_parts v o blocks Hw (S (length content))) as (vis & El & Hc).
  { pose proof (tag_text_length blocks (ending v o)). rewrite <-E in H. lia. }
  rewrite <-E in El. rewrite El, join_nil_concat, Hc. by destruct blocks, o.
Qed.
