(* ===== verification/PlaygroundRequest.v ===== *)
(** What the web playground sends and reads
    (web/src/features/playground/constants.ts, lib/streaming, lib/options,
    lib/input, lib/parameters and api.ts): the configuration, the request
    payload, the events of a stream, the errors of a request, the choice of
    model and group. *)

From Stdlib Require Import NArith ZArith Lia ZifyBool ZifyN.
From Stdlib Require Import SpecFloat.
From stdpp Require Import base list gmap strings.
From S2P Require Import Prelude JsString JsNum Json Playground.

(** * Configuration *)

Record PlaygroundConfig := Config {
  model : jstr; group : jstr; temperature : num; top_p : num; max_tokens : num;
  frequency_penalty : num; presence_penalty : num; seed : option num; stream : bool }.

Record ParameterEnabled := Enabled {
  en_temperature : bool; en_top_p : bool; en_max_tokens : bool;
  en_frequency_penalty : bool; en_presence_penalty : bool; en_seed : bool }.

Definition DEFAULT_GROUP : jstr := js "default".

Definition DEFAULT_CONFIG : PlaygroundConfig :=
  Config (js "gpt-4o") DEFAULT_GROUP (num_of_dec false 7 (-1)) (num_of_Z 1) (num_of_Z 4096) nzero nzero None true.

Definition DEFAULT_PARAMETER_ENABLED : ParameterEnabled := Enabled true true false true true false.

(** * The payload (lib/streaming/payload-builder.ts) *)

Record ChatCompletionRequest := Request {
  q_model : jstr; q_group : jstr; q_messages : list ChatCompletionMessage; q_stream : bool;
  q_temperature : option num; q_top_p : option num; q_max_tokens : option num;
  q_frequency_penalty : option num; q_presence_penalty : option num; q_seed : option num }.

Definition buildChatCompletionPayload (messages : list Message) (config : PlaygroundConfig)
    (parameterEnabled : ParameterEnabled) : ChatCompletionRequest :=
  let when (b : bool) (x : num) := if b then Some x else None in
  Request (model config) (group config)
    (List.map formatMessageForAPI (List.filter isValidMessage messages)) (stream config)
    (when (en_temperature parameterEnabled) (temperature config))
    (when (en_top_p parameterEnabled) (top_p config))
    (when (en_max_tokens parameterEnabled) (max_tokens config))
    (when (en_frequency_penalty parameterEnabled) (frequency_penalty config))
    (when (en_presence_penalty parameterEnabled) (presence_penalty config))
    (if en_seed parameterEnabled then seed config else None).

(** * Events of the stream (lib/streaming/stream-utils.ts) *)

Definition STREAM_DONE_MESSAGE : jstr := js "[DONE]".
Definition STREAM_CLOSED_READY_STATE : num := num_of_Z 2.

(** The chunk is any truthy value the server sent. *)
Record StreamMessageUpdate := Update { up_type : StreamChunkType; up_chunk : jv }.

(** [errorCode] is [JUndef] when there is none. *)
Record StreamErrorDetails := ErrorDetails { sd_errorCode : jv; sd_errorMessage : jv }.

Definition jv_or (a b : jv) : jv := if jv_truthy a then a else b.

(** [v.k], which throws on undefined and null. *)
Definition jv_prop (v : jv) (k : jstr) : option jv :=
  match v with
  | JUndef | JNull => None
  | _ => Some (jv_get v k)
  end.

Definition parseStreamErrorDetails (data : option jstr) : StreamErrorDetails :=
  let fallbackMessage := opt_truthy data ?? API_REQUEST_ERROR in
  match opt_truthy data with
  | None => ErrorDetails JUndef (JStr fallbackMessage)
  | Some d =>
      match json_parse d with
      | None => ErrorDetails JUndef (JStr fallbackMessage)
      | Some parsed =>
          let error := jv_get parsed (js "error") in
          if negb (jv_truthy error) then ErrorDetails JUndef (JStr fallbackMessage)
          else
            ErrorDetails (jv_or (jv_get error (js "code")) JUndef)
              (jv_or (jv_get error (js "message")) (JStr fallbackMessage))
      end
  end.

(** [v?.\[0\]] *)
Definition jv_first (v : jv) : jv :=
  match v with
  | JArr (x :: _) => x
  | JStr (c :: _) => JStr [c]
  | JObj _ => jv_get v (js "0")
  | _ => JUndef
  end.

(** [None]: [JSON.parse] or a property of null threw. *)
Definition parseStreamMessageUpdates (data : jstr) : option (list StreamMessageUpdate) :=
  match json_parse data with
  | None => None
  | Some chunk =>
      match jv_prop chunk (js "choices") with
      | None => None
      | Some chs =>
          let delta := jv_get (jv_first chs) (js "delta") in
          if negb (jv_truthy delta) then Some []
          else
            let r := jv_get delta (js "reasoning_content") in
            let c := jv_get delta (js "content") in
            Some ((if jv_truthy r then [Update reasoning_chunk r] else []) ++
                  (if jv_truthy c then [Update content_chunk c] else []))
      end
  end.

Definition isStreamDoneMessage (data : jstr) : bool := data =s STREAM_DONE_MESSAGE.

Definition isStreamClosedReadyState (readyState : option num) : bool :=
  match readyState with Some r => num_eqb r STREAM_CLOSED_READY_STATE | None => false end.

(** The second argument is the [status] of the source. *)
Definition getStreamReadyStateError (eventReadyState : option num) (source_status : option num) : option jstr :=
  match eventReadyState, source_status with
  | Some r, Some st =>
      if num_leb STREAM_CLOSED_READY_STATE r && negb (num_eqb st (num_of_Z 200))
      then Some (js "HTTP " ++ num_to_string st ++ js ": " ++ CONNECTION_CLOSED) else None
  | _, _ => None
  end.

(** * Errors of a request (lib/streaming/request-error-utils.ts) *)

(** [RequestErrorLike], with the nested optional properties it is read through. *)
Record RequestErrorLike := RequestError {
  re_message : option jstr; re_data_message : option jstr; re_data_error_code : option jstr }.

Record RequestErrorDetails := RequestDetails { rd_errorCode : option jstr; rd_errorMessage : jstr }.

Definition parseRequestErrorDetails (e : RequestErrorLike) : RequestErrorDetails :=
  RequestDetails (opt_truthy (re_data_error_code e))
    (opt_truthy (re_data_message e) ?? (opt_truthy (re_message e) ?? API_REQUEST_ERROR)).

(** * Model and group options (lib/options/playground-option-utils.ts) *)

Record ModelOption := MkModel { mo_label : jstr; mo_value : jstr }.
Record GroupOption := MkGroup { go_label : jstr; go_value : jstr; ratio : num; desc : jstr }.

Definition has_model (models : list ModelOption) (m : jstr) : bool := existsb (fun x => mo_value x =s m) models.

Definition getModelFallback (models : list ModelOption) (currentModel : jstr) : option jstr :=
  if has_model models currentModel then None
  else match models with
       | [] => None
       | x :: _ => Some (mo_value x)
       end.

Definition shouldClearModelForGroup (models : list ModelOption) (currentModel : jstr) : bool :=
  if (currentModel =s []) then false else negb (has_model models currentModel).

Definition getGroupFallback (groups : list GroupOption) (currentGroup : jstr) : option jstr :=
  if existsb (fun x => go_value x =s currentGroup) groups then None
  else match groups with
       | [] => None
       | x :: _ =>
           Some (match List.find (fun g => go_value g =s js "default") groups with
                 | Some g => go_value g
                 | None => go_value x
                 end)
       end.

(** The argument is the message of an [Error], if the error is one. *)
Definition getOptionLoadErrorMessage (error_message : option jstr) (fallbackMessage : jstr) : jstr :=
  error_message ?? fallbackMessage.

(** ** The effects of use-playground-options.ts: what they do to the model and
    the group of the configuration *)

Definition with_model (m : jstr) (c : PlaygroundConfig) : PlaygroundConfig :=
  Config m (group c) (temperature c) (top_p c) (max_tokens c) (frequency_penalty c) (presence_penalty c) (seed c)
    (stream c).

Definition with_group (g : jstr) (c : PlaygroundConfig) : PlaygroundConfig :=
  Config (model c) g (temperature c) (top_p c) (max_tokens c) (frequency_penalty c) (presence_penalty c) (seed c)
    (stream c).

Definition models_effect (modelsData : option (list ModelOption)) (c : PlaygroundConfig) : PlaygroundConfig :=
  match modelsData with
  | None => c
  | Some models =>
      match opt_truthy (getModelFallback models (model c)) with
      | Some fallback => with_model fallback c
      | None => if shouldClearModelForGroup models (model c) then with_model [] c else c
      end
  end.

Definition groups_effect (groupsData : option (list GroupOption)) (c : PlaygroundConfig) : PlaygroundConfig :=
  match groupsData with
  | None => c
  | Some groups =>
      match opt_truthy (getGroupFallback groups (group c)) with
      | Some fallback => with_group fallback c
      | None => c
      end
  end.

(** * Input (lib/input/input-control-utils.ts) *)

Definition getSubmittableInputText (text : option jstr) (disabled : bool) : option jstr :=
  match text with
  | Some s => if disabled || negb (truthy (trim s)) then None else Some s
  | None => None
  end.

Record InputControlState := ControlState { canSubmit : bool; isSelectorDisabled : bool; shouldShowStop : bool }.

Definition getInputControlState (disabled hasStopHandler isGenerating isModelLoading : bool)
    (groups : list GroupOption) (models : list ModelOption) (text : jstr) : InputControlState :=
  let hasModels := Nat.ltb 0 (length models) in
  ControlState (negb disabled && hasModels && Nat.ltb 0 (length (trim text)))
    (disabled || isModelLoading || Nat.eqb (length groups) 0) (isGenerating && hasStopHandler).

(** * Parameters (lib/parameters/playground-parameters.ts) *)

Inductive PlaygroundParameterKey :=
| k_temperature | k_top_p | k_frequency_penalty | k_presence_penalty | k_max_tokens | k_seed.

#[export] Instance PlaygroundParameterKey_dec : EqDecision PlaygroundParameterKey.
Proof. solve_decision. Defined.

Record PlaygroundParameterControl := Control { pc_key : PlaygroundParameterKey; pc_min : num; pc_max : num; pc_step : num }.

Definition tenth : num := num_of_dec false 1 (-1).

Definition PLAYGROUND_PARAMETER_CONTROLS : list PlaygroundParameterControl := [
  Control k_temperature tenth (num_of_Z 1) tenth;
  Control k_top_p tenth (num_of_Z 1) tenth;
  Control k_frequency_penalty (num_of_Z (-2)) (num_of_Z 2) tenth;
  Control k_presence_penalty (num_of_Z (-2)) (num_of_Z 2) tenth;
  Control k_max_tokens nzero (num_of_Z 200000) (num_of_Z 1);
  Control k_seed nzero (num_of_Z 2147483647) (num_of_Z 1)].

(** The value typed: the text of a field, or the number of a slider. *)
Inductive ParameterInput := TextInput (s : jstr) | NumberInput (x : num).

(** [String(step).split('.')\[1\]?.length ?? 0] *)
Definition step_precision (step : num) : Z :=
  match split_unit 46%N (num_to_string step) with
  | _ :: frac :: _ => Z.of_nat (length frac)
  | _ => 0
  end.

Definition normalizeParameterNumberValue (k : PlaygroundParameterKey) (value : ParameterInput) : option num :=
  let missing := if bool_decide (k = k_seed) then None else Some nzero in
  match value with
  | TextInput [] => missing
  | _ =>
      let control := List.find (fun item => bool_decide (pc_key item = k)) PLAYGROUND_PARAMETER_CONTROLS in
      let parsed := match value with NumberInput x => x | TextInput s => parse_float s end in
      match control, parsed with
      | None, _ | _, S754_nan => missing
      | Some c, _ =>
          let clamped := num_min (pc_max c) (num_max (pc_min c) parsed) in
          if num_leb (num_of_Z 1) (pc_step c) then Some (num_trunc clamped)
          else Some (num_fixed (Z.max 0 (step_precision (pc_step c))) clamped)
      end
  end.

Definition getParameterControlValueText (k : PlaygroundParameterKey) (value : jv) : jstr :=
  match k, value with
  | k_seed, JNull => js "Not set"
  | _, _ => jv_to_string value
  end.

(** * The answers read by api.ts *)

(** [success] of the body, and [data] when it is a list of names. *)
Definition getUserModels (success : bool) (data : option (list jstr)) : list ModelOption :=
  match data with
  | Some l => if success then List.map (fun m => MkModel m m) l else []
  | None => []
  end.

(** [success] of the body, and the entries of [data] in the order of
    [Object.entries]: name, description and ratio. *)
Definition getUserGroups (success : bool) (data : option (list (jstr * (jstr * num)))) : list GroupOption :=
  match data with
  | Some l => if success then List.map (fun e => MkGroup e.1 e.1 e.2.2 e.2.1) l else []
  | None => []
  end.

(** * Concrete values *)

Example normalize_clamps : normalizeParameterNumberValue k_temperature (TextInput (js "7")) = Some (num_of_Z 1).
Proof. vm_compute. reflexivity. Qed.

Example normalize_rounds :
  normalizeParameterNumberValue k_top_p (TextInput (js "0.4499")) = Some (num_of_dec false 4 (-1)).
Proof. vm_compute. reflexivity. Qed.

Example normalize_seed_empty : normalizeParameterNumberValue k_seed (TextInput []) = None.
Proof. vm_compute. reflexivity. Qed.

Example stream_chunk :
  parseStreamMessageUpdates (jq "{`choices`:[{`delta`:{`content`:`hi`}}]}") =
  Some [Update content_chunk (JStr (js "hi"))].
Proof. vm_compute. reflexivity. Qed.
