(* ===== verification/PlaygroundChat.v ===== *)
(** The requests of the web playground
    (web/src/features/playground/hooks/use-stream-request.ts,
    use-chat-handler.ts and use-playground-conversation.ts): the stream
    controller, the chat handler that batches what the stream delivers, and the
    updates of the messages, which React queues and runs later.

    The machine takes one event at a time: a call of the page, the answer to an
    [await], an event of a stream, a timer, the evaluation of the first queued
    update. Sources and suspended calls that are no longer current stay in the
    state, and may still deliver. *)

From Stdlib Require Import NArith ZArith Lia ZifyBool ZifyN.
From Stdlib Require Import SpecFloat.
From stdpp Require Import base list gmap strings.
From S2P Require Import Prelude JsString JsNum Json Playground PlaygroundRequest.

(** * The chat handler (use-chat-handler.ts) *)

Record PendingStreamChunks := Pending { p_generation : nat; p_content : jstr; p_reasoning : jstr }.

(** The updater functions passed to [onMessageUpdate], with what they capture. *)
Inductive Updater :=
| SetMessages (ms : list Message)
| RemoveMessage (k : jstr)
| FlushChunks (generation : nat) (reasoning content : jstr)
| CompleteMessage (generation : nat)
| FailMessage (generation : nat) (error : jstr) (code : jv) (title : jstr)
| ApplyResponse (generation : nat) (response : ChatCompletionResponse)
| StopMessage (generation : nat).

(** A suspended [sendNonStreamingChat]: its generation, its payload, and whether
    its abort controller was aborted. *)
Record NonStreaming := Posted { n_generation : nat; n_payload : ChatCompletionRequest; n_aborted : bool }.

(** [flushTimer] is the generation the armed timer captured; [abortController]
    the generation of the request that owns it; [queue] the updates React has
    not run yet. *)
Record Handler := MkHandler {
  requestGeneration : nat;
  pending : PendingStreamChunks;
  flushTimer : option nat;
  isRequesting : bool;
  abortController : option nat;
  posted : list NonStreaming;
  toasts : list jstr;
  messages : list Message;
  queue : list Updater
}.

Definition set_generation (g : nat) (h : Handler) : Handler :=
  MkHandler g (pending h) (flushTimer h) (isRequesting h) (abortController h) (posted h) (toasts h) (messages h) (queue h).
Definition set_pending (p : PendingStreamChunks) (h : Handler) : Handler :=
  MkHandler (requestGeneration h) p (flushTimer h) (isRequesting h) (abortController h) (posted h) (toasts h)
    (messages h) (queue h).
Definition set_timer (t : option nat) (h : Handler) : Handler :=
  MkHandler (requestGeneration h) (pending h) t (isRequesting h) (abortController h) (posted h) (toasts h)
    (messages h) (queue h).
Definition set_requesting (b : bool) (h : Handler) : Handler :=
  MkHandler (requestGeneration h) (pending h) (flushTimer h) b (abortController h) (posted h) (toasts h)
    (messages h) (queue h).
Definition set_abort (a : option nat) (ps : list NonStreaming) (h : Handler) : Handler :=
  MkHandler (requestGeneration h) (pending h) (flushTimer h) (isRequesting h) a ps (toasts h) (messages h) (queue h).
Definition toast_error (s : jstr) (h : Handler) : Handler :=
  MkHandler (requestGeneration h) (pending h) (flushTimer h) (isRequesting h) (abortController h) (posted h)
    (toasts h ++ [s]) (messages h) (queue h).
Definition set_messages (ms : list Message) (q : list Updater) (h : Handler) : Handler :=
  MkHandler (requestGeneration h) (pending h) (flushTimer h) (isRequesting h) (abortController h) (posted h)
    (toasts h) ms q.

(** [setMessages(updater)]: queued until React runs it. *)
Definition onMessageUpdate (u : Updater) (h : Handler) : Handler :=
  set_messages (messages h) (queue h ++ [u]) h.

(** The text of a batch once a chunk is added; [None] is the TypeError of
    [startsWith] on a chunk that is not a string. *)
Definition mergePendingStreamChunk (currentChunk : jstr) (nextChunk : jv) : option jstr :=
  if negb (truthy currentChunk) then Some (jv_to_string nextChunk)
  else match nextChunk with
       | JStr s => Some (if starts_with currentChunk s then s else currentChunk ++ s)
       | _ => None
       end.

Definition discardPendingStreamUpdates (generation : nat) (h : Handler) : Handler :=
  set_pending (Pending generation [] []) (set_timer None h).

Definition flushStreamUpdates (generation : nat) (h : Handler) : Handler :=
  if negb (Nat.eqb generation (requestGeneration h)) then h
  else
    let h := set_timer None h in
    let pendingChunks := pending h in
    if negb (Nat.eqb (p_generation pendingChunks) generation) then h
    else if negb (truthy (p_reasoning pendingChunks)) && negb (truthy (p_content pendingChunks)) then h
    else
      onMessageUpdate (FlushChunks generation (p_reasoning pendingChunks) (p_content pendingChunks))
        (set_pending (Pending generation [] []) h).

Definition scheduleStreamFlush (generation : nat) (h : Handler) : Handler :=
  if negb (Nat.eqb generation (requestGeneration h)) then h
  else if is_some (flushTimer h) then h
  else set_timer (Some generation) h.

Definition connectionClosedSuffix : jstr := js ": " ++ CONNECTION_CLOSED.

(** [None]: [endsWith] of an error that is not a string. *)
Definition getDisplayError (t : jstr -> jstr) (error : jv) : option jstr :=
  match error with
  | JStr s =>
      Some (if bool_decide (s ∈ ERROR_MESSAGES) then t s
            else if ends_with connectionClosedSuffix s
            then take (length s - length CONNECTION_CLOSED) s ++ t CONNECTION_CLOSED
            else s)
  | _ => None
  end.

(** [true]: the call threw. *)
Definition handleStreamUpdate (generation : nat) (type : StreamChunkType) (chunk : jv) (h : Handler) :
  Handler * bool :=
  if negb (Nat.eqb generation (requestGeneration h)) then (h, false)
  else if negb (Nat.eqb (p_generation (pending h)) generation) then (h, false)
  else
    let p := pending h in
    match type with
    | content_chunk =>
        match mergePendingStreamChunk (p_content p) chunk with
        | None => (h, true)
        | Some s => (scheduleStreamFlush generation (set_pending (Pending (p_generation p) s (p_reasoning p)) h), false)
        end
    | reasoning_chunk =>
        match mergePendingStreamChunk (p_reasoning p) chunk with
        | None => (h, true)
        | Some s => (scheduleStreamFlush generation (set_pending (Pending (p_generation p) (p_content p) s) h), false)
        end
    end.

Definition handleStreamComplete (generation : nat) (h : Handler) : Handler :=
  if negb (Nat.eqb generation (requestGeneration h)) then h
  else onMessageUpdate (CompleteMessage generation) (set_requesting false (flushStreamUpdates generation h)).

Definition handleStreamError (t : jstr -> jstr) (generation : nat) (error errorCode : jv) (h : Handler) :
  Handler * bool :=
  if negb (Nat.eqb generation (requestGeneration h)) then (h, false)
  else
    let h := set_requesting false (flushStreamUpdates generation h) in
    match getDisplayError t error with
    | None => (h, true)
    | Some displayError =>
        (onMessageUpdate (FailMessage generation displayError errorCode (t API_REQUEST_ERROR))
           (toast_error displayError h), false)
    end.

(** [abortControllerRef.current?.abort(); abortControllerRef.current = null] *)
Definition abort_current (h : Handler) : Handler :=
  match abortController h with
  | None => h
  | Some g =>
      set_abort None
        (List.map (fun n => if Nat.eqb (n_generation n) g then Posted g (n_payload n) true else n) (posted h)) h
  end.

(** ** The updaters, when React runs them *)

(** The updater of [flushStreamUpdates], on the last assistant message. *)
Definition apply_chunks (clk : clock) (reasoning content : jstr) (m : Message) : Message :=
  let m1 := if truthy reasoning then applyStreamingChunk clk m reasoning_chunk reasoning else m in
  if truthy content then applyStreamingChunk (later 2 clk) m1 content_chunk content else m1.

Definition run_updater (clk : clock) (current : nat) (u : Updater) (prev : list Message) : list Message :=
  let guarded g ms := if Nat.eqb g current then ms else prev in
  match u with
  | SetMessages ms => ms
  | RemoveMessage k => removeMessageByKey prev k
  | FlushChunks g r c => guarded g (updateLastAssistantMessage prev (apply_chunks clk r c))
  | CompleteMessage g =>
      guarded g (updateLastAssistantMessage prev (fun m =>
        if isAssistantMessageFinal m then m else completeAssistantMessage clk m))
  | FailMessage g e code title => guarded g (updateAssistantMessageWithError (clk 0) prev e code title)
  | ApplyResponse g response =>
      guarded g (updateLastAssistantMessage prev (fun m =>
        nullish (applyChatCompletionResponse clk m response) m))
  | StopMessage g =>
      guarded g (updateLastAssistantMessage prev (fun m =>
        if isAssistantMessagePending m then completeAssistantMessage clk m else m))
  end.

(** React evaluates the first queued updater. *)
Definition run_queue (clk : clock) (h : Handler) : Handler :=
  match queue h with
  | [] => h
  | u :: q => set_messages (run_updater clk (requestGeneration h) u (messages h)) q h
  end.

(** * The stream controller (createStreamRequestController) *)

(** A source and what its listeners captured: the generation of its request and
    the callbacks, which are those of a generation of the handler. *)
Record StreamSource := MkStream {
  s_generation : nat; s_callbacks : nat; s_payload : ChatCompletionRequest; s_completed : bool; s_closed : bool }.

(** A [send] that waits for the headers. *)
Record WaitingSend := Waiting { w_generation : nat; w_callbacks : nat; w_payload : ChatCompletionRequest }.

(** A source is named by its position in [c_sources]. *)
Record Controller := MkController {
  c_source : option nat;
  c_generation : nat;
  c_sources : list StreamSource;
  c_waiting : list WaitingSend;
  isStreaming : bool
}.

Definition update_source (f : StreamSource -> StreamSource) (i : nat) (c : Controller) : Controller :=
  MkController (c_source c) (c_generation c) (alter f i (c_sources c)) (c_waiting c) (isStreaming c).

Definition close_source (i : nat) (c : Controller) : Controller :=
  update_source (fun s => MkStream (s_generation s) (s_callbacks s) (s_payload s) (s_completed s) true) i c.

Definition complete_source (i : nat) (c : Controller) : Controller :=
  update_source (fun s => MkStream (s_generation s) (s_callbacks s) (s_payload s) true (s_closed s)) i c.

Definition setStreaming (b : bool) (c : Controller) : Controller :=
  MkController (c_source c) (c_generation c) (c_sources c) (c_waiting c) b.

Definition clear_source (c : Controller) : Controller :=
  MkController None (c_generation c) (c_sources c) (c_waiting c) (isStreaming c).

Definition close_opt (o : option nat) (c : Controller) : Controller :=
  match o with Some i => close_source i c | None => c end.

Definition closeActiveSource (target : nat) (c : Controller) : Controller :=
  let c := close_source target c in
  if bool_decide (c_source c = Some target) then setStreaming false (clear_source c) else c.

(** [send] up to the first [await]. *)
Definition send_begin (payload : ChatCompletionRequest) (callbacks : nat) (c : Controller) : Controller :=
  let requestGeneration := S (c_generation c) in
  let previousSource := c_source c in
  let c := close_opt previousSource
             (MkController None requestGeneration (c_sources c) (c_waiting c) (isStreaming c)) in
  let c := setStreaming false c in
  MkController (c_source c) (c_generation c) (c_sources c)
    (c_waiting c ++ [Waiting requestGeneration callbacks payload]) (isStreaming c).

Definition cancel (notify : bool) (c : Controller) : Controller :=
  let activeSource := c_source c in
  let c := close_opt activeSource
             (MkController None (S (c_generation c)) (c_sources c) (c_waiting c) (isStreaming c)) in
  if notify then setStreaming false c else c.

Definition stop : Controller -> Controller := cancel true.
Definition dispose : Controller -> Controller := cancel false.

Definition source_at (c : Controller) (i : nat) : option StreamSource := c_sources c !! i.

(** [isCurrent()] of the source at [i]. *)
Definition isCurrent (c : Controller) (i : nat) : bool :=
  match source_at c i with
  | Some s => Nat.eqb (c_generation c) (s_generation s) && bool_decide (c_source c = Some i)
  | None => false
  end.

(** The source at [i], when a listener of it goes past its guard. *)
Definition listening (c : Controller) (i : nat) : option StreamSource :=
  match source_at c i with
  | Some s => if negb (isCurrent c i) || s_completed s then None else Some s
  | None => None
  end.

Section Machine.
Context (t : jstr -> jstr).

Definition handleError (i : nat) (errorMessage errorCode : jv) (ch : Controller * Handler) : Controller * Handler :=
  let '(c, h) := ch in
  match listening c i with
  | None => (c, h)
  | Some s =>
      let c := complete_source i c in
      let '(h, threw) := handleStreamError t (s_callbacks s) errorMessage errorCode h in
      if threw then (c, h) else (closeActiveSource i c, h)
  end.

(** The loop over the updates of an event, up to the one that throws. *)
Fixpoint apply_updates (callbacks : nat) (updates : list StreamMessageUpdate) (h : Handler) : Handler * bool :=
  match updates with
  | [] => (h, false)
  | u :: rest =>
      let '(h, threw) := handleStreamUpdate callbacks (up_type u) (up_chunk u) h in
      if threw then (h, true) else apply_updates callbacks rest h
  end.

Definition on_message (i : nat) (event_data : option jstr) (ch : Controller * Handler) : Controller * Handler :=
  let '(c, h) := ch in
  match listening c i with
  | None => (c, h)
  | Some s =>
      let data := event_data ?? [] in
      if isStreamDoneMessage data then
        (closeActiveSource i (complete_source i c), handleStreamComplete (s_callbacks s) h)
      else
        match parseStreamMessageUpdates data with
        | None => handleError i (JStr PARSE_ERROR) JUndef (c, h)
        | Some updates =>
            let '(h, threw) := apply_updates (s_callbacks s) updates h in
            if threw then handleError i (JStr PARSE_ERROR) JUndef (c, h) else (c, h)
        end
  end.

(** [readyState] of the source and [data] of the event. *)
Definition on_error (i : nat) (readyState : option num) (event_data : option jstr) (ch : Controller * Handler) :
  Controller * Handler :=
  let '(c, h) := ch in
  match listening c i with
  | None => (c, h)
  | Some _ =>
      if isStreamClosedReadyState readyState then (c, h)
      else
        let d := parseStreamErrorDetails event_data in
        handleError i (sd_errorMessage d) (sd_errorCode d) (c, h)
  end.

Definition on_readystatechange (i : nat) (event_readyState source_status : option num) (ch : Controller * Handler) :
  Controller * Handler :=
  let '(c, h) := ch in
  match listening c i with
  | None => (c, h)
  | Some _ =>
      match opt_truthy (getStreamReadyStateError event_readyState source_status) with
      | Some errorMessage => handleError i (JStr errorMessage) JUndef (c, h)
      | None => (c, h)
      end
  end.

Definition find_waiting (g : nat) (c : Controller) : option WaitingSend :=
  List.find (fun w => Nat.eqb (w_generation w) g) (c_waiting c).

Definition drop_waiting (g : nat) (c : Controller) : Controller :=
  MkController (c_source c) (c_generation c) (c_sources c)
    (List.filter (fun w => negb (Nat.eqb (w_generation w) g)) (c_waiting c)) (isStreaming c).

(** [getHeaders] of the [send] of generation [g] rejects; the message of the
    error, if it is an [Error]. *)
Definition headers_rejected (g : nat) (error_message : option jstr) (ch : Controller * Handler) :
  Controller * Handler :=
  let '(c, h) := ch in
  match find_waiting g c with
  | None => (c, h)
  | Some w =>
      let c := drop_waiting g c in
      if negb (Nat.eqb (c_generation c) g) then (c, h)
      else (c, (handleStreamError t (w_callbacks w) (JStr (error_message ?? STREAM_START_ERROR)) JUndef h).1)
  end.

(** It resolves: the source is created and started, which may throw. *)
Definition headers_resolved (g : nat) (stream_throws : bool) (ch : Controller * Handler) : Controller * Handler :=
  let '(c, h) := ch in
  match find_waiting g c with
  | None => (c, h)
  | Some w =>
      let c := drop_waiting g c in
      if negb (Nat.eqb (c_generation c) g) then (c, h)
      else
        let i := length (c_sources c) in
        let c := MkController (Some i) (c_generation c)
                   (c_sources c ++ [MkStream g (w_callbacks w) (w_payload w) false false]) (c_waiting c) true in
        if stream_throws then handleError i (JStr STREAM_START_ERROR) JUndef (c, h) else (c, h)
  end.

(** * Sending and stopping (use-chat-handler.ts) *)

Definition sendStreamingChat (ms : list Message) (config : PlaygroundConfig) (enabled : ParameterEnabled)
    (ch : Controller * Handler) : Controller * Handler :=
  let '(c, h) := ch in
  let generation := S (requestGeneration h) in
  let h := set_generation generation h in
  let h := abort_current h in
  let h := set_requesting true (discardPendingStreamUpdates generation h) in
  (send_begin (buildChatCompletionPayload ms config enabled) generation c, h).

(** [sendNonStreamingChat] up to its [await]. *)
Definition sendNonStreamingChat (ms : list Message) (config : PlaygroundConfig) (enabled : ParameterEnabled)
    (ch : Controller * Handler) : Controller * Handler :=
  let '(c, h) := ch in
  let payload := buildChatCompletionPayload ms config enabled in
  let generation := S (requestGeneration h) in
  let h := set_generation generation h in
  let c := stop c in
  let h := discardPendingStreamUpdates generation h in
  let h := abort_current h in
  let h := set_abort (Some generation) (posted h ++ [Posted generation payload false]) h in
  (c, set_requesting true h).

Definition sendChat (ms : list Message) (config : PlaygroundConfig) (enabled : ParameterEnabled)
    (ch : Controller * Handler) : Controller * Handler :=
  if stream config then sendStreamingChat ms config enabled ch else sendNonStreamingChat ms config enabled ch.

Definition find_posted (g : nat) (h : Handler) : option NonStreaming :=
  List.find (fun n => Nat.eqb (n_generation n) g) (posted h).

Definition drop_posted (g : nat) (h : Handler) : Handler :=
  set_abort (abortController h) (List.filter (fun n => negb (Nat.eqb (n_generation n) g)) (posted h)) h.

(** The [finally] block. *)
Definition posted_finally (g : nat) (h : Handler) : Handler :=
  if Nat.eqb (requestGeneration h) g then set_requesting false (set_abort None (posted h) h) else h.

(** The rest of [sendNonStreamingChat] once [sendChatCompletion] settles: with a
    response or with an error. *)
Definition posted_settled (g : nat) (outcome : ChatCompletionResponse + RequestErrorLike) (h : Handler) : Handler :=
  match find_posted g h with
  | None => h
  | Some n =>
      let h := drop_posted g h in
      posted_finally g
        (if n_aborted n || negb (Nat.eqb (requestGeneration h) g) then h
         else match outcome with
              | inl response =>
                  if negb (hasChatCompletionChoice response)
                  then (handleStreamError t g (JStr API_REQUEST_ERROR) JUndef h).1
                  else onMessageUpdate (ApplyResponse g response) h
              | inr error =>
                  let d := parseRequestErrorDetails error in
                  (handleStreamError t g (JStr (rd_errorMessage d))
                     (match rd_errorCode d with Some c => JStr c | None => JUndef end) h).1
              end)
  end.

Definition stopGeneration (ch : Controller * Handler) : Controller * Handler :=
  let '(c, h) := ch in
  let stoppedGeneration := requestGeneration h in
  let h := flushStreamUpdates stoppedGeneration h in
  let idleGeneration := S stoppedGeneration in
  let h := discardPendingStreamUpdates idleGeneration (set_generation idleGeneration h) in
  let h := set_requesting false (abort_current h) in
  (stop c, onMessageUpdate (StopMessage idleGeneration) h).

(** The effects that run when the page is left. *)
Definition unmount (ch : Controller * Handler) : Controller * Handler :=
  let '(c, h) := ch in
  (dispose c, abort_current (set_timer None (set_generation (S (requestGeneration h)) h))).

Definition isGenerating (ch : Controller * Handler) : bool := isStreaming ch.1 || isRequesting ch.2.

(** * The conversation (use-playground-conversation.ts)

    The messages a handler sees are those of the last render. *)

Definition update_messages (u : Updater) (ch : Controller * Handler) : Controller * Handler :=
  (ch.1, onMessageUpdate u ch.2).

Definition handleSendMessage (now : num) (ids : PairIds) (shown : list Message) (text : jstr)
    (config : PlaygroundConfig) (enabled : ParameterEnabled) (ch : Controller * Handler) : Controller * Handler :=
  let nextMessages := appendUserMessagePair now ids shown text in
  sendChat nextMessages config enabled (update_messages (SetMessages nextMessages) ch).

Definition handleRegenerateMessage (now : num) (kid vid : jstr) (shown : list Message) (k : jstr)
    (config : PlaygroundConfig) (enabled : ParameterEnabled) (ch : Controller * Handler) : Controller * Handler :=
  match createRegeneratedMessages now kid vid shown k with
  | None => ch
  | Some nextMessages => sendChat nextMessages config enabled (update_messages (SetMessages nextMessages) ch)
  end.

(** The key being edited after the call, and the state. *)
Definition applyEdit (now : num) (kid vid : jstr) (shown : list Message) (editingMessageKey : option jstr)
    (newContent : jstr) (shouldSubmit : bool) (config : PlaygroundConfig) (enabled : ParameterEnabled)
    (ch : Controller * Handler) : option jstr * (Controller * Handler) :=
  match opt_truthy editingMessageKey with
  | None => (editingMessageKey, ch)
  | Some k =>
      match applyMessageEdit now kid vid shown k newContent shouldSubmit with
      | None => (editingMessageKey, ch)
      | Some r =>
          let ch := update_messages (SetMessages (e_messages r)) ch in
          (None, if shouldSend r then sendChat (e_messages r) config enabled ch else ch)
      end
  end.

Definition handleDeleteMessage (k : jstr) (ch : Controller * Handler) : Controller * Handler :=
  update_messages (RemoveMessage k) ch.

(** * The machine *)

Inductive event :=
| EvSend (ms : list Message) (config : PlaygroundConfig) (enabled : ParameterEnabled)
| EvStop
| EvUnmount
| EvUpdate (u : Updater)
| EvHeaders (g : nat) (stream_throws : bool)
| EvNoHeaders (g : nat) (error_message : option jstr)
| EvMessage (i : nat) (data : option jstr)
| EvError (i : nat) (readyState : option num) (data : option jstr)
| EvReady (i : nat) (readyState source_status : option num)
| EvTimer
| EvSettled (g : nat) (outcome : ChatCompletionResponse + RequestErrorLike)
| EvRun (clk : clock).

(** The armed timer fires: it is no longer armed, but the handler forgets it only
    when it flushes. *)
Definition timer_fires (h : Handler) : Handler :=
  match flushTimer h with
  | Some g => flushStreamUpdates g h
  | None => h
  end.

(** The page itself only sets the messages and removes one. *)
Definition page_update (u : Updater) : bool :=
  match u with SetMessages _ | RemoveMessage _ => true | _ => false end.

Definition step (ch : Controller * Handler) (e : event) : Controller * Handler :=
  match e with
  | EvSend ms config enabled => sendChat ms config enabled ch
  | EvStop => stopGeneration ch
  | EvUnmount => unmount ch
  | EvUpdate u => if page_update u then update_messages u ch else ch
  | EvHeaders g throws => headers_resolved g throws ch
  | EvNoHeaders g e => headers_rejected g e ch
  | EvMessage i data => on_message i data ch
  | EvError i r data => on_error i r data ch
  | EvReady i r st => on_readystatechange i r st ch
  | EvTimer => (ch.1, timer_fires ch.2)
  | EvSettled g outcome => (ch.1, posted_settled g outcome ch.2)
  | EvRun clk => (ch.1, run_queue clk ch.2)
  end.

Definition run (es : list event) (ch : Controller * Handler) : Controller * Handler := fold_left step es ch.

Definition initial (ms : list Message) : Controller * Handler :=
  (MkController None 0 [] [] false, MkHandler 0 (Pending 0 [] []) None false None [] [] ms []).

Inductive reachable : Controller * Handler -> Prop :=
| reach_init ms : reachable (initial ms)
| reach_step ch e : reachable ch -> reachable (step ch e).

End Machine.
