(* ===== verification/PlaygroundSpec.v ===== *)
(** What the requests of the web playground promise: the machine of
    PlaygroundChat.v, with its generations, stale sources and suspended calls,
    implements a machine with one slot for the request in progress.

    In the specification nothing carries a generation: a new request takes the
    slot, and with it goes all that was left of the one before. *)

From Stdlib Require Import NArith ZArith Lia ZifyBool ZifyN.
From Stdlib Require Import SpecFloat.
From stdpp Require Import base list gmap strings.
From S2P Require Import Prelude JsString JsNum Json Playground PlaygroundRequest PlaygroundChat.

(** * The specification *)

(** The request in progress; an open one that has [ended] takes no more events. *)
Inductive Phase :=
| Idle
| Connecting (payload : ChatCompletionRequest)
| Open (payload : ChatCompletionRequest) (ended : bool)
| Awaiting (payload : ChatCompletionRequest).

Inductive SlotUpdate :=
| USet (ms : list Message)
| URemove (k : jstr)
| UChunks (reasoning content : jstr)
| UComplete
| UFail (error : jstr) (code : jv) (title : jstr)
| URespond (response : ChatCompletionResponse)
| UFinish.

Record Slot := MkSlot {
  phase : Phase; buffer_reasoning : jstr; buffer_content : jstr; armed : bool; requesting : bool; streaming : bool;
  shown_toasts : list jstr; shown : list Message; updates : list SlotUpdate }.

Definition set_phase (p : Phase) (s : Slot) : Slot :=
  MkSlot p (buffer_reasoning s) (buffer_content s) (armed s) (requesting s) (streaming s) (shown_toasts s) (shown s)
    (updates s).
Definition set_buffers (r c : jstr) (a : bool) (s : Slot) : Slot :=
  MkSlot (phase s) r c a (requesting s) (streaming s) (shown_toasts s) (shown s) (updates s).
Definition set_flags (req str : bool) (s : Slot) : Slot :=
  MkSlot (phase s) (buffer_reasoning s) (buffer_content s) (armed s) req str (shown_toasts s) (shown s) (updates s).
Definition set_updates (us : list SlotUpdate) (s : Slot) : Slot :=
  MkSlot (phase s) (buffer_reasoning s) (buffer_content s) (armed s) (requesting s) (streaming s) (shown_toasts s)
    (shown s) us.
Definition add_toast (d : jstr) (s : Slot) : Slot :=
  MkSlot (phase s) (buffer_reasoning s) (buffer_content s) (armed s) (requesting s) (streaming s)
    (shown_toasts s ++ [d]) (shown s) (updates s).

Definition post (u : SlotUpdate) (s : Slot) : Slot := set_updates (updates s ++ [u]) s.

(** What the page asked for stays when a request is given up. *)
Definition page_only (us : list SlotUpdate) : list SlotUpdate :=
  List.filter (fun u => match u with USet _ | URemove _ => true | _ => false end) us.

Definition apply_update (clk : clock) (u : SlotUpdate) (prev : list Message) : list Message :=
  match u with
  | USet ms => ms
  | URemove k => removeMessageByKey prev k
  | UChunks r c => updateLastAssistantMessage prev (apply_chunks clk r c)
  | UComplete =>
      updateLastAssistantMessage prev (fun m => if isAssistantMessageFinal m then m else completeAssistantMessage clk m)
  | UFail e code title => updateAssistantMessageWithError (clk 0) prev e code title
  | URespond response =>
      updateLastAssistantMessage prev (fun m => nullish (applyChatCompletionResponse clk m response) m)
  | UFinish =>
      updateLastAssistantMessage prev (fun m =>
        if isAssistantMessagePending m then completeAssistantMessage clk m else m)
  end.

Definition flush (s : Slot) : Slot :=
  if negb (truthy (buffer_reasoning s)) && negb (truthy (buffer_content s))
  then set_buffers (buffer_reasoning s) (buffer_content s) false s
  else post (UChunks (buffer_reasoning s) (buffer_content s)) (set_buffers [] [] false s).

(** The slot is given up: for [p], with nothing buffered. *)
Definition yield_slot (p : Phase) (s : Slot) : Slot :=
  set_updates (page_only (updates s)) (set_phase p (set_buffers [] [] false s)).

Section Spec.
Context (t : jstr -> jstr).

Definition receive (type : StreamChunkType) (chunk : jv) (s : Slot) : Slot * bool :=
  match type with
  | content_chunk =>
      match mergePendingStreamChunk (buffer_content s) chunk with
      | Some c => (set_buffers (buffer_reasoning s) c true s, false)
      | None => (s, true)
      end
  | reasoning_chunk =>
      match mergePendingStreamChunk (buffer_reasoning s) chunk with
      | Some r => (set_buffers r (buffer_content s) true s, false)
      | None => (s, true)
      end
  end.

Fixpoint receive_all (us : list StreamMessageUpdate) (s : Slot) : Slot * bool :=
  match us with
  | [] => (s, false)
  | u :: rest =>
      let '(s, threw) := receive (up_type u) (up_chunk u) s in
      if threw then (s, true) else receive_all rest s
  end.

(** An error is shown; [true] when showing it throws. *)
Definition report (error code : jv) (s : Slot) : Slot * bool :=
  let s := flush s in
  let s := set_flags false (streaming s) s in
  match getDisplayError t error with
  | None => (s, true)
  | Some d => (post (UFail d code (t API_REQUEST_ERROR)) (add_toast d s), false)
  end.

Definition break_stream (payload : ChatCompletionRequest) (error code : jv) (s : Slot) : Slot :=
  let '(s, threw) := report error code (set_phase (Open payload true) s) in
  if threw then s else set_flags (requesting s) false (set_phase Idle s).

Inductive request :=
| RqSend (ms : list Message) (config : PlaygroundConfig) (enabled : ParameterEnabled)
| RqStop
| RqUnmount
| RqUpdate (u : SlotUpdate)
| RqHeaders (stream_throws : bool)
| RqNoHeaders (error_message : option jstr)
| RqMessage (data : option jstr)
| RqError (readyState : option num) (data : option jstr)
| RqReady (readyState source_status : option num)
| RqTimer
| RqSettled (outcome : ChatCompletionResponse + RequestErrorLike)
| RqRun (clk : clock).

Definition slot_step (s : Slot) (e : request) : Slot :=
  match e, phase s with
  | RqSend ms config enabled, _ =>
      let p := buildChatCompletionPayload ms config enabled in
      set_flags true false (yield_slot (if stream config then Connecting p else Awaiting p) s)
  | RqStop, _ => post UFinish (set_flags false false (yield_slot Idle s))
  | RqUnmount, _ => yield_slot Idle s
  | RqUpdate u, _ => post u s
  | RqHeaders throws, Connecting p =>
      let s := set_flags (requesting s) true (set_phase (Open p false) s) in
      if throws then break_stream p (JStr STREAM_START_ERROR) JUndef s else s
  | RqNoHeaders e, Connecting p =>
      (report (JStr (e ?? STREAM_START_ERROR)) JUndef (set_phase Idle s)).1
  | RqMessage data, Open p false =>
      let data := data ?? [] in
      if isStreamDoneMessage data then
        post UComplete (set_flags false false (flush (set_phase Idle s)))
      else
        match parseStreamMessageUpdates data with
        | None => break_stream p (JStr PARSE_ERROR) JUndef s
        | Some us =>
            let '(s, threw) := receive_all us s in
            if threw then break_stream p (JStr PARSE_ERROR) JUndef s else s
        end
  | RqError readyState data, Open p false =>
      if isStreamClosedReadyState readyState then s
      else
        let d := parseStreamErrorDetails data in
        break_stream p (sd_errorMessage d) (sd_errorCode d) s
  | RqReady readyState source_status, Open p false =>
      match opt_truthy (getStreamReadyStateError readyState source_status) with
      | Some e => break_stream p (JStr e) JUndef s
      | None => s
      end
  | RqTimer, _ => if armed s then flush s else s
  | RqSettled outcome, Awaiting _ =>
      let s := set_phase Idle s in
      let s := match outcome with
               | inl response =>
                   if hasChatCompletionChoice response then post (URespond response) s
                   else (report (JStr API_REQUEST_ERROR) JUndef s).1
               | inr error =>
                   let d := parseRequestErrorDetails error in
                   (report (JStr (rd_errorMessage d))
                      (match rd_errorCode d with Some c => JStr c | None => JUndef end) s).1
               end in
      set_flags false (streaming s) s
  | RqRun clk, _ =>
      match updates s with
      | [] => s
      | u :: us =>
          MkSlot (phase s) (buffer_reasoning s) (buffer_content s) (armed s) (requesting s) (streaming s)
            (shown_toasts s) (apply_update clk u (shown s)) us
      end
  | _, _ => s
  end.
End Spec.

(** * The correspondence *)

Definition erase (g : nat) (u : Updater) : option SlotUpdate :=
  let live g' u := if Nat.eqb g' g then Some u else None in
  match u with
  | SetMessages ms => Some (USet ms)
  | RemoveMessage k => Some (URemove k)
  | FlushChunks g' r c => live g' (UChunks r c)
  | CompleteMessage g' => live g' UComplete
  | FailMessage g' e code title => live g' (UFail e code title)
  | ApplyResponse g' response => live g' (URespond response)
  | StopMessage g' => live g' UFinish
  end.

Definition current_posted (h : Handler) : option NonStreaming :=
  match abortController h with
  | Some g => find_posted g h
  | None => None
  end.

Definition current_source (c : Controller) : option StreamSource :=
  match c_source c with
  | Some i => source_at c i
  | None => None
  end.

Definition phase_of (c : Controller) (h : Handler) : Phase :=
  match current_source c with
  | Some s => Open (s_payload s) (s_completed s)
  | None =>
      match find_waiting (c_generation c) c with
      | Some w => Connecting (w_payload w)
      | None =>
          match current_posted h with
          | Some n => Awaiting (n_payload n)
          | None => Idle
          end
      end
  end.

Definition buffered (h : Handler) : PendingStreamChunks :=
  if Nat.eqb (p_generation (pending h)) (requestGeneration h) then pending h
  else Pending (requestGeneration h) [] [].

Definition slot_of (ch : Controller * Handler) : Slot :=
  let '(c, h) := ch in
  MkSlot (phase_of c h) (p_reasoning (buffered h)) (p_content (buffered h)) (is_some (flushTimer h))
    (isRequesting h) (isStreaming c) (toasts h) (messages h) (omap (erase (requestGeneration h)) (queue h)).

Arguments slot_of : simpl never.

(** What an event of the machine is to the slot: nothing, when it comes from a
    request that no longer has it. *)
Definition view (ch : Controller * Handler) (e : event) : option request :=
  let '(c, h) := ch in
  match e with
  | EvSend ms config enabled => Some (RqSend ms config enabled)
  | EvStop => Some RqStop
  | EvUnmount => Some RqUnmount
  | EvUpdate (SetMessages ms) => Some (RqUpdate (USet ms))
  | EvUpdate (RemoveMessage k) => Some (RqUpdate (URemove k))
  | EvUpdate _ => None
  | EvHeaders g throws => if Nat.eqb g (c_generation c) then Some (RqHeaders throws) else None
  | EvNoHeaders g e => if Nat.eqb g (c_generation c) then Some (RqNoHeaders e) else None
  | EvMessage i data => if bool_decide (c_source c = Some i) then Some (RqMessage data) else None
  | EvError i r data => if bool_decide (c_source c = Some i) then Some (RqError r data) else None
  | EvReady i r st => if bool_decide (c_source c = Some i) then Some (RqReady r st) else None
  | EvTimer => Some RqTimer
  | EvSettled g outcome => if bool_decide (abortController h = Some g) then Some (RqSettled outcome) else None
  | EvRun clk =>
      match queue h with
      | u :: _ => if is_some (erase (requestGeneration h) u) then Some (RqRun clk) else None
      | [] => None
      end
  end.

(** * The invariant *)

Definition updater_generation (u : Updater) : nat :=
  match u with
  | SetMessages _ | RemoveMessage _ => 0
  | FlushChunks g _ _ | CompleteMessage g | FailMessage g _ _ _ | ApplyResponse g _ | StopMessage g => g
  end.

(** Whether a request has the slot. *)
Definition slot_taken (c : Controller) (h : Handler) : Prop :=
  is_some (c_source c) = true \/ (exists w, w ∈ c_waiting c /\ w_generation w = c_generation c) \/
  is_some (abortController h) = true.

Record handler_ok (h : Handler) : Prop := {
  timer_current g : flushTimer h = Some g -> g = requestGeneration h;
  pending_old : p_generation (pending h) <= requestGeneration h;
  pending_timer : p_generation (pending h) <> requestGeneration h -> flushTimer h = None;
  queue_old : Forall (fun u => updater_generation u <= requestGeneration h) (queue h);
  posted_old n : n ∈ posted h -> n_generation n <= requestGeneration h;
  posted_aborted n : n ∈ posted h -> n_aborted n = false -> abortController h = Some (n_generation n);
  posted_stale n : n ∈ posted h -> n_aborted n = true -> n_generation n < requestGeneration h;
  abort_current_request g :
    abortController h = Some g -> g = requestGeneration h /\ exists n, n ∈ posted h /\ n_generation n = g /\ n_aborted n = false;
  posted_nodup : NoDup (List.map n_generation (posted h))
}.

Record controller_ok (c : Controller) (g : nat) : Prop := {
  source_current i : c_source c = Some i ->
    exists s, source_at c i = Some s /\ s_generation s = c_generation c /\ s_callbacks s = g /\
      (forall w, w ∈ c_waiting c -> w_generation w <> c_generation c);
  sources_old i s : source_at c i = Some s -> s_generation s <= c_generation c;
  waiting_old w : w ∈ c_waiting c -> w_generation w <= c_generation c;
  waiting_current w : w ∈ c_waiting c -> w_generation w = c_generation c -> w_callbacks w = g;
  waiting_nodup : NoDup (List.map w_generation (c_waiting c))
}.

Record machine_ok (ch : Controller * Handler) : Prop := {
  ok_handler : handler_ok ch.2;
  ok_controller : controller_ok ch.1 (requestGeneration ch.2);
  ok_pending : slot_taken ch.1 ch.2 -> p_generation (pending ch.2) = requestGeneration ch.2;
  ok_single : is_some (abortController ch.2) = true ->
    c_source ch.1 = None /\ (forall w, w ∈ c_waiting ch.1 -> w_generation w <> c_generation ch.1)
}.

(** * Lemmas *)

Lemma neqb_refl n : Nat.eqb n n = true.
Proof. apply Nat.eqb_refl. Qed.

Lemma find_app {A} (p : A -> bool) l1 l2 :
  List.find p (l1 ++ l2) = match List.find p l1 with Some x => Some x | None => List.find p l2 end.
Proof. induction l1 as [|x l1 IH]; [done|]. simpl. by destruct (p x). Qed.

(** A new generation keeps of the queue what the page asked for. *)
Lemma erase_next g q :
  Forall (fun u => updater_generation u <= g) q -> omap (erase (S g)) q = page_only (omap (erase g) q).
Proof.
  induction 1 as [|u q Hu _ IH]; [done|]. cbn [omap list_omap].
  assert (Hcase : match erase (S g) u with Some v => erase g u = Some v /\ page_only [v] = [v]
                  | None => match erase g u with Some v => page_only [v] = [] | None => True end end).
  { destruct u; cbn [erase updater_generation] in *; try done;
      (match goal with |- context [Nat.eqb ?x (S g)] => destruct (Nat.eqb_spec x (S g)); [lia|]; by destruct (Nat.eqb x g) end). }
  destruct (erase (S g) u) as [v|].
  - destruct Hcase as [-> Hv]. unfold page_only in *. cbn [List.filter] in *. destruct v; try done; by rewrite <-IH.
  - destruct (erase g u) as [v|]; [|done]. unfold page_only in *. cbn [List.filter] in *. by destruct v.
Qed.

Lemma queue_weaken g g' q :
  g <= g' -> Forall (fun u => updater_generation u <= g) q -> Forall (fun u => updater_generation u <= g') q.
Proof. intros H Hq. eapply Forall_impl; [exact Hq|]. simpl. lia. Qed.

Lemma run_updater_erase clk g u prev :
  run_updater clk g u prev = match erase g u with Some v => apply_update clk v prev | None => prev end.
Proof. destruct u; simpl; try done; case_match; done. Qed.

(** ** The handler *)

Lemma flush_ok h : handler_ok h -> handler_ok (flushStreamUpdates (requestGeneration h) h).
Proof.
  intros []. unfold flushStreamUpdates. rewrite neqb_refl. cbn [negb].
  assert (H0 : handler_ok (set_timer None h)) by (by split).
  destruct (Nat.eqb_spec (p_generation (pending (set_timer None h))) (requestGeneration h)) as [E|E]; [|done].
  cbn [negb]. destruct (_ && _); [done|]. split; simpl; try done.
  apply Forall_app; split; [done|]. constructor; [simpl; lia|constructor].
Qed.

Lemma flush_same g h :
  requestGeneration (flushStreamUpdates g h) = requestGeneration h /\
  abortController (flushStreamUpdates g h) = abortController h /\
  posted (flushStreamUpdates g h) = posted h /\ messages (flushStreamUpdates g h) = messages h /\
  (p_generation (pending h) = requestGeneration h ->
     p_generation (pending (flushStreamUpdates g h)) = requestGeneration h).
Proof.
  unfold flushStreamUpdates. destruct (Nat.eqb_spec g (requestGeneration h)) as [->|]; simpl; [|auto].
  destruct (Nat.eqb_spec (p_generation (pending h)) (requestGeneration h)); simpl; [|auto].
  destruct (_ && _); simpl; auto.
Qed.

Lemma phase_same c h h' :
  abortController h' = abortController h -> posted h' = posted h -> phase_of c h' = phase_of c h.
Proof. intros H1 H2. unfold phase_of, current_posted, find_posted. by rewrite H1, H2. Qed.

Lemma flush_slot c h :
  p_generation (pending h) = requestGeneration h ->
  slot_of (c, flushStreamUpdates (requestGeneration h) h) = flush (slot_of (c, h)).
Proof.
  intros H. unfold flush, slot_of at 1. pose proof (flush_same (requestGeneration h) h) as (E1 & E2 & E3 & E4 & E5).
  rewrite (phase_same c h) by done. rewrite E1, E4. unfold buffered. rewrite E1, (E5 H), neqb_refl.
  clear E1 E2 E3 E4 E5. unfold slot_of, buffered. rewrite H, neqb_refl. cbn [buffer_reasoning buffer_content].
  unfold flushStreamUpdates. rewrite neqb_refl. cbn [negb]. simpl pending. rewrite H, neqb_refl. cbn [negb].
  destruct (negb (truthy (p_reasoning (pending h))) && negb (truthy (p_content (pending h)))); simpl; [done|].
  unfold post, set_buffers, set_updates. simpl. f_equal. rewrite omap_app. simpl. by rewrite neqb_refl.
Qed.

(** Changes of the fields no clause of the invariant mentions. *)
Lemma ok_requesting b h : handler_ok h -> handler_ok (set_requesting b h).
Proof. by intros []. Qed.

Lemma ok_toast d h : handler_ok h -> handler_ok (toast_error d h).
Proof. by intros []. Qed.

Lemma ok_push u h :
  updater_generation u <= requestGeneration h -> handler_ok h -> handler_ok (onMessageUpdate u h).
Proof.
  intros Hu []. split; simpl; try done. apply Forall_app; split; [done|]. constructor; [done|constructor].
Qed.

#[local] Hint Resolve flush_ok ok_requesting ok_toast ok_push : core.

(** ** Errors *)

Section Reported.
Context (t : jstr -> jstr).

Lemma error_same g e code h :
  let h' := (handleStreamError t g e code h).1 in
  requestGeneration h' = requestGeneration h /\ abortController h' = abortController h /\ posted h' = posted h /\
  messages h' = messages h /\ (p_generation (pending h) = requestGeneration h ->
     p_generation (pending h') = requestGeneration h).
Proof.
  unfold handleStreamError. destruct (Nat.eqb g (requestGeneration h)); simpl; [|auto].
  pose proof (flush_same g h). destruct (getDisplayError t e); simpl; done.
Qed.

Lemma error_ok e code h : handler_ok h -> handler_ok (handleStreamError t (requestGeneration h) e code h).1.
Proof.
  intros H. unfold handleStreamError. rewrite neqb_refl. cbn [negb].
  pose proof (flush_same (requestGeneration h) h) as (E & _). apply flush_ok in H.
  destruct (getDisplayError t e); simpl; auto. apply ok_push; simpl; [lia|auto].
Qed.

(** An error of the current request is what the specification reports. *)
Lemma error_slot c e code h :
  p_generation (pending h) = requestGeneration h ->
  (slot_of (c, (handleStreamError t (requestGeneration h) e code h).1),
   (handleStreamError t (requestGeneration h) e code h).2) = report t e code (slot_of (c, h)).
Proof.
  intros H. unfold handleStreamError, report. rewrite neqb_refl. cbn [negb].
  rewrite <-flush_slot by done. pose proof (flush_same (requestGeneration h) h) as (E & _ & _ & _ & E5).
  destruct (getDisplayError t e); [|done]. cbn [fst snd]. f_equal.
  unfold post, set_updates, add_toast, set_flags, slot_of, buffered. simpl. rewrite omap_app. simpl.
  rewrite E, neqb_refl. done.
Qed.
End Reported.

(** ** The controller *)

Lemma source_at_update f i j c :
  source_at (update_source f i c) j = (if decide (i = j) then f <$> source_at c j else source_at c j).
Proof.
  unfold source_at, update_source. simpl. destruct (decide (i = j)) as [->|H].
  - by rewrite list_lookup_alter_eq.
  - by rewrite list_lookup_alter_ne.
Qed.

(** The flags of a source are not part of the invariant. *)
Lemma ok_update f i c g :
  (forall s, s_generation (f s) = s_generation s /\ s_callbacks (f s) = s_callbacks s) ->
  controller_ok c g -> controller_ok (update_source f i c) g.
Proof.
  intros Hf []. split; try done.
  - simpl. intros j Hj. destruct (source_current0 j Hj) as (s & Hs & H1 & H2 & H3). rewrite source_at_update, Hs.
    destruct (decide (i = j)); simpl; eexists; split_and!; try done; destruct (Hf s); congruence.
  - simpl. intros j s. rewrite source_at_update. destruct (decide (i = j)) as [->|]; [|apply sources_old0].
    intros (s' & Hs & ->)%fmap_Some. destruct (Hf s') as [-> _]. by eapply sources_old0.
Qed.

Lemma ok_clear b c g : controller_ok c g -> controller_ok (setStreaming b (clear_source c)) g.
Proof. intros []. by split. Qed.

Lemma ok_drop_waiting g' c g : controller_ok c g -> controller_ok (drop_waiting g' c) g.
Proof.
  intros []. split; simpl; try done.
  - intros i Hi. destruct (source_current0 i Hi) as (s & H1 & H2 & H3 & H4). exists s. split_and!; try done.
    intros w [Hw _]%elem_filter. by apply H4.
  - intros w [Hw _]%elem_filter. by apply waiting_old0.
  - intros w [Hw _]%elem_filter. by apply waiting_current0.
  - by apply nodup_map_filter.
Qed.

Lemma listening_stale c i : c_source c <> Some i -> listening c i = None.
Proof.
  intros H. unfold listening, isCurrent. destruct (source_at c i); [|done].
  rewrite (bool_decide_eq_false_2 (c_source c = Some i)) by done. by rewrite andb_false_r.
Qed.

Lemma listening_current c g i :
  controller_ok c g -> c_source c = Some i ->
  exists s, source_at c i = Some s /\ s_callbacks s = g /\ s_generation s = c_generation c /\
    listening c i = if s_completed s then None else Some s.
Proof.
  intros [] H. destruct (source_current0 i H) as (s & Hs & H1 & H2 & _). exists s. split_and!; try done.
  unfold listening, isCurrent. by rewrite Hs, H1, neqb_refl, H, bool_decide_eq_true_2.
Qed.

Lemma slot_controller c c' h :
  slot_of (c', h) = set_flags (isRequesting h) (isStreaming c') (set_phase (phase_of c' h) (slot_of (c, h))).
Proof. reflexivity. Qed.

Lemma find_waiting_some g c w : find_waiting g c = Some w -> w ∈ c_waiting c /\ w_generation w = g.
Proof. intros [H1 H2]%find_some. split; [by apply list_elem_of_In|]. by apply Nat.eqb_eq. Qed.

Lemma find_waiting_none g c : (forall w, w ∈ c_waiting c -> w_generation w <> g) -> find_waiting g c = None.
Proof.
  intros H. destruct (find_waiting g c) as [w|] eqn:E; [|done]. apply find_waiting_some in E as [H1 H2].
  by destruct (H w H1).
Qed.

(** A change that keeps the request in the slot, or lets go of it. *)
Lemma machine_change c h c' h' :
  machine_ok (c, h) -> handler_ok h' -> controller_ok c' (requestGeneration h') ->
  requestGeneration h' = requestGeneration h -> abortController h' = abortController h ->
  (p_generation (pending h) = requestGeneration h -> p_generation (pending h') = requestGeneration h) ->
  (slot_taken c' h' -> slot_taken c h) ->
  (is_some (abortController h) = true ->
    c_source c' = None /\ forall w, w ∈ c_waiting c' -> w_generation w <> c_generation c') ->
  machine_ok (c', h').
Proof.
  intros [H1 H2 H3 H4] Hh Hc Eg Ea Hp Hs Hw. simpl in *. split; simpl; try done.
  - intros H. rewrite Eg. auto.
  - by rewrite Ea.
Qed.

Lemma source_no_abort c h i : machine_ok (c, h) -> c_source c = Some i -> abortController h = None.
Proof.
  intros [_ _ _ H] Hi. simpl in *. destruct (abortController h); [|done]. destruct H as [H _]; [done|]. congruence.
Qed.

Lemma closed_waiting c h i :
  machine_ok (c, h) -> c_source c = Some i -> find_waiting (c_generation c) c = None.
Proof.
  intros H Hi. destruct (source_current _ _ (ok_controller _ H) i Hi) as (_ & _ & _ & _ & Hw).
  by apply find_waiting_none.
Qed.

Lemma complete_flags s :
  s_generation (MkStream (s_generation s) (s_callbacks s) (s_payload s) true (s_closed s)) = s_generation s /\
  s_callbacks (MkStream (s_generation s) (s_callbacks s) (s_payload s) true (s_closed s)) = s_callbacks s.
Proof. done. Qed.

Section Streams.
Context (t : jstr -> jstr).

(** The active source is closed: the slot is idle. *)
Lemma closed_phase c h i b :
  machine_ok (c, h) -> c_source c = Some i -> phase_of (setStreaming b (clear_source (close_source i (complete_source i c)))) h = Idle.
Proof.
  intros H Hi. unfold phase_of, current_source. cbn [c_source setStreaming clear_source].
  unfold find_waiting. simpl. pose proof (closed_waiting c h i H Hi) as Hw. unfold find_waiting in Hw. rewrite Hw.
  unfold current_posted. by rewrite (source_no_abort c h i H Hi).
Qed.

Lemma closeActive_eq c i :
  c_source c = Some i ->
  closeActiveSource i (complete_source i c) =
  setStreaming false (clear_source (close_source i (complete_source i c))).
Proof. intros H. unfold closeActiveSource. simpl. by rewrite bool_decide_eq_true_2. Qed.

Lemma completed_phase c h i s :
  source_at c i = Some s -> c_source c = Some i -> phase_of (complete_source i c) h = Open (s_payload s) true.
Proof.
  intros Hs Hi. unfold phase_of, current_source. cbn [c_source complete_source update_source]. rewrite Hi.
  unfold complete_source. rewrite source_at_update, Hs, decide_True by done. done.
Qed.

Lemma fail_step i s e code c h :
  machine_ok (c, h) -> c_source c = Some i -> source_at c i = Some s -> s_completed s = false ->
  machine_ok (handleError t i e code (c, h)) /\
  slot_of (handleError t i e code (c, h)) = break_stream t (s_payload s) e code (slot_of (c, h)).
Proof.
  intros Hok Hi Hs Hc. pose proof (ok_controller _ Hok) as Hok_c. pose proof (ok_handler _ Hok) as Hok_h. cbn [fst snd] in *.
  destruct (listening_current _ _ _ Hok_c Hi) as (s' & Hs' & Hcb & _ & Hl). simplify_eq.
  unfold handleError. rewrite Hl, Hc, Hcb.
  assert (Hp : p_generation (pending h) = requestGeneration h).
  { apply (ok_pending _ Hok). left. simpl. by rewrite Hi. }
  pose proof (error_slot t (complete_source i c) e code h Hp) as Hslot.
  rewrite (slot_controller c (complete_source i c) h), (completed_phase c h i s) in Hslot by done.
  change (set_flags (isRequesting h) (isStreaming (complete_source i c)) (set_phase ?p (slot_of (c, h)))) with
    (set_phase p (slot_of (c, h))) in Hslot.
  unfold break_stream. rewrite <-Hslot. clear Hslot.
  pose proof (error_same t (requestGeneration h) e code h) as (E1 & E2 & E3 & E4 & E5).
  pose proof (error_ok t e code h Hok_h) as Hok'.
  destruct (handleStreamError t (requestGeneration h) e code h) as [h' threw]. cbn [fst snd] in *.
  pose proof (ok_update _ i _ _ complete_flags Hok_c) as Hc1. fold (complete_source i c) in Hc1.
  destruct threw; (split; [|]).
  - eapply machine_change; [exact Hok|done| |done..| |].
    + by rewrite E1.
    + intros _. left. by rewrite Hi.
    + by rewrite (source_no_abort c h i).
  - done.
  - rewrite closeActive_eq by done. eapply machine_change; [exact Hok|done| |done..| |].
    + rewrite E1. apply ok_clear. by apply ok_update.
    + intros _. left. by rewrite Hi.
    + by rewrite (source_no_abort c h i).
  - rewrite closeActive_eq by done. rewrite (slot_controller (complete_source i c) _ h').
    rewrite (phase_same _ h h') by done. rewrite (closed_phase c h i) by done. done.
Qed.
End Streams.

(** ** What a stream delivers *)

Lemma receive_ok type chunk h :
  p_generation (pending h) = requestGeneration h -> handler_ok h ->
  let h' := (handleStreamUpdate (requestGeneration h) type chunk h).1 in
  handler_ok h' /\ requestGeneration h' = requestGeneration h /\ abortController h' = abortController h /\
  posted h' = posted h /\ p_generation (pending h') = requestGeneration h'.
Proof.
  intros Hp Hok. unfold handleStreamUpdate. rewrite Hp, neqb_refl. cbn [negb].
  assert (Hs : forall p, p_generation p = requestGeneration h ->
    let h' := scheduleStreamFlush (requestGeneration h) (set_pending p h) in
    handler_ok h' /\ requestGeneration h' = requestGeneration h /\ abortController h' = abortController h /\
    posted h' = posted h /\ p_generation (pending h') = requestGeneration h').
  { intros p Hpg. unfold scheduleStreamFlush. simpl. rewrite neqb_refl. cbn [negb]. destruct Hok.
    destruct (is_some (flushTimer h)) eqn:E; simpl; (split; [|done]); split; simpl; try done; try lia. congruence. }
  destruct type; (destruct (mergePendingStreamChunk _ _); [apply Hs; done|done]).
Qed.

Lemma receive_slot c type chunk h :
  p_generation (pending h) = requestGeneration h ->
  (slot_of (c, (handleStreamUpdate (requestGeneration h) type chunk h).1),
   (handleStreamUpdate (requestGeneration h) type chunk h).2) = receive type chunk (slot_of (c, h)).
Proof.
  intros Hp. unfold handleStreamUpdate, receive. rewrite Hp, neqb_refl. cbn [negb].
  assert (Hb : buffered h = pending h) by (unfold buffered; by rewrite Hp, neqb_refl).
  assert (Hbc : buffer_content (slot_of (c, h)) = p_content (pending h)) by (unfold slot_of; by rewrite Hb).
  assert (Hbr : buffer_reasoning (slot_of (c, h)) = p_reasoning (pending h)) by (unfold slot_of; by rewrite Hb).
  rewrite Hbc, Hbr.
  assert (Hs : forall p, p_generation p = requestGeneration h ->
    slot_of (c, scheduleStreamFlush (requestGeneration h) (set_pending p h)) =
    set_buffers (p_reasoning p) (p_content p) true (slot_of (c, h))).
  { intros p Hpg. unfold scheduleStreamFlush. simpl. rewrite neqb_refl. cbn [negb].
    destruct (flushTimer h) eqn:E; unfold slot_of, set_buffers, buffered; simpl; rewrite Hpg, neqb_refl, ?E; done. }
  destruct type; (destruct (mergePendingStreamChunk _ _); [|done]); cbn [fst snd]; by rewrite Hs.
Qed.

Lemma updates_slot c us : forall h,
  p_generation (pending h) = requestGeneration h -> handler_ok h ->
  let r := apply_updates (requestGeneration h) us h in
  (slot_of (c, r.1), r.2) = receive_all us (slot_of (c, h)) /\
  handler_ok r.1 /\ requestGeneration r.1 = requestGeneration h /\ abortController r.1 = abortController h /\
  posted r.1 = posted h /\ p_generation (pending r.1) = requestGeneration r.1.
Proof.
  induction us as [|u us IH]; intros h Hp Hok; [done|]. cbn [apply_updates receive_all].
  pose proof (receive_slot c (up_type u) (up_chunk u) h Hp) as Hs.
  pose proof (receive_ok (up_type u) (up_chunk u) h Hp Hok) as (H1 & H2 & H3 & H4 & H5).
  rewrite <-Hs. destruct (handleStreamUpdate _ _ _ _) as [h' threw]. cbn [fst snd] in *.
  destruct threw; [done|]. specialize (IH h' H5 H1). rewrite H2 in IH.
  destruct IH as (I1 & I2 & I3 & I4 & I5 & I6). split_and!; try done; congruence.
Qed.

(** ** A new generation *)

Lemma abort_posted h :
  handler_ok h -> forall n, n ∈ posted (abort_current h) ->
  n_aborted n = true /\ n_generation n <= requestGeneration h.
Proof.
  intros [] n. unfold abort_current. destruct (abortController h) as [g|] eqn:E.
  - simpl. rewrite list_elem_of_In, in_map_iff. intros (m & <- & Hm%list_elem_of_In).
    destruct (Nat.eqb_spec (n_generation m) g) as [<-|Hne]; simpl.
    + split; [done|]. by apply posted_old0.
    + split; [|by apply posted_old0]. destruct (n_aborted m) eqn:Ea; [done|].
      specialize (posted_aborted0 m Hm Ea). congruence.
  - intros Hn. split; [|by apply posted_old0]. destruct (n_aborted n) eqn:Ea; [done|].
    by specialize (posted_aborted0 n Hn Ea).
Qed.

Lemma abort_same h :
  requestGeneration (abort_current h) = requestGeneration h /\ pending (abort_current h) = pending h /\
  flushTimer (abort_current h) = flushTimer h /\ isRequesting (abort_current h) = isRequesting h /\
  toasts (abort_current h) = toasts h /\ messages (abort_current h) = messages h /\
  queue (abort_current h) = queue h /\ abortController (abort_current h) = None /\
  List.map n_generation (posted (abort_current h)) = List.map n_generation (posted h).
Proof.
  unfold abort_current. destruct (abortController h) eqn:E; simpl; split_and!; try done.
  rewrite map_map. apply map_ext. intros a. by destruct (Nat.eqb_spec (n_generation a) n) as [<-|].
Qed.

(** The state a request leaves when its generation is over. *)
Definition over (h h' : Handler) : Prop :=
  requestGeneration h' = S (requestGeneration h) /\ flushTimer h' = None /\
  (p_generation (pending h') <= requestGeneration h \/ pending h' = Pending (S (requestGeneration h)) [] []) /\
  abortController h' = None /\ toasts h' = toasts h /\ messages h' = messages h /\
  omap (erase (S (requestGeneration h))) (queue h') = page_only (omap (erase (requestGeneration h)) (queue h)) /\
  Forall (fun u => updater_generation u <= S (requestGeneration h)) (queue h') /\
  (forall n, n ∈ posted h' -> n_aborted n = true /\ n_generation n <= requestGeneration h) /\
  NoDup (List.map n_generation (posted h')).

Lemma over_ok h h' : over h h' -> handler_ok h'.
Proof.
  intros (E1 & E2 & E3 & E4 & E5 & E6 & E7 & E8 & E9 & E10). split; rewrite ?E1, ?E2, ?E4; try done.
  - destruct E3 as [H| ->]; simpl; lia.
  - intros n Hn. destruct (E9 n Hn). lia.
  - intros n Hn Ha. destruct (E9 n Hn). congruence.
  - intros n Hn _. destruct (E9 n Hn). lia.
Qed.

Lemma over_slot c c' h h' :
  over h h' ->
  slot_of (c', h') = set_flags (isRequesting h') (isStreaming c') (yield_slot (phase_of c' h') (slot_of (c, h))).
Proof.
  intros (E1 & E2 & E3 & E4 & E5 & E6 & E7 & _).
  assert (Hb : p_reasoning (buffered h') = [] /\ p_content (buffered h') = []).
  { unfold buffered. rewrite E1. destruct E3 as [H| ->]; [|simpl; by rewrite neqb_refl].
    by destruct (Nat.eqb_spec (p_generation (pending h')) (S (requestGeneration h))); [lia|]. }
  destruct Hb as [Hr Hc]. unfold slot_of at 1, yield_slot, set_flags, set_updates, set_phase, set_buffers.
  rewrite Hr, Hc, E2, E5, E6, E1, E7. done.
Qed.

(** Sending and leaving the page end the generation ... *)
Lemma over_next h : handler_ok h -> over h (abort_current (discardPendingStreamUpdates (S (requestGeneration h)) (set_generation (S (requestGeneration h)) h))).
Proof.
  intros Hok. set (h1 := discardPendingStreamUpdates _ _).
  assert (Ea : posted (abort_current h1) = posted (abort_current h))
    by (unfold abort_current; simpl; by destruct (abortController h)).
  destruct (abort_same h1) as (E1 & E2 & E3 & E4 & E5 & E6 & E7 & E8 & E9).
  unfold over. rewrite E1, E2, E3, E5, E6, E7, E8, E9, Ea. subst h1. simpl. split_and!; try done.
  - by right.
  - by apply erase_next, queue_old.
  - eapply queue_weaken; [|by apply queue_old]. lia.
  - by apply abort_posted.
  - by apply posted_nodup.
Qed.

Lemma over_unmount h : handler_ok h -> over h (abort_current (set_timer None (set_generation (S (requestGeneration h)) h))).
Proof.
  intros Hok. set (h1 := set_timer _ _).
  assert (Ea : posted (abort_current h1) = posted (abort_current h))
    by (unfold abort_current; simpl; by destruct (abortController h)).
  destruct (abort_same h1) as (E1 & E2 & E3 & E4 & E5 & E6 & E7 & E8 & E9).
  unfold over. rewrite E1, E2, E3, E5, E6, E7, E8, E9, Ea. subst h1. simpl. split_and!; try done.
  - left. by apply pending_old.
  - by apply erase_next, queue_old.
  - eapply queue_weaken; [|by apply queue_old]. lia.
  - by apply abort_posted.
  - by apply posted_nodup.
Qed.

(** ... and so does stopping: what it flushes is of the generation it ends. *)
Lemma flush_queue h :
  handler_ok h -> exists us, queue (flushStreamUpdates (requestGeneration h) h) = queue h ++ us /\
    omap (erase (S (requestGeneration h))) us = [].
Proof.
  intros Hok. unfold flushStreamUpdates. rewrite neqb_refl. cbn [negb].
  destruct (negb (Nat.eqb _ _)); [exists []; by rewrite app_nil_r|]. destruct (_ && _); [exists []; by rewrite app_nil_r|].
  simpl. eexists; split; [done|]. cbn [omap list_omap erase].
  by destruct (Nat.eqb_spec (requestGeneration h) (S (requestGeneration h))); [lia|].
Qed.

Lemma over_stop h :
  handler_ok h ->
  over h (abort_current (discardPendingStreamUpdates (S (requestGeneration h))
            (set_generation (S (requestGeneration h)) (flushStreamUpdates (requestGeneration h) h)))).
Proof.
  intros Hok. pose proof (flush_ok h Hok) as Hf. destruct (flush_same (requestGeneration h) h) as (F1 & F2 & F3 & F4 & _).
  pose proof (over_next _ Hf) as (E1 & E2 & E3 & E4 & E5 & E6 & E7 & E8 & E9 & E10).
  rewrite F1 in *. unfold over. split_and!; try done.
  - rewrite E5. unfold flushStreamUpdates. rewrite neqb_refl. simpl. repeat (case_match; try done).
  - by rewrite E6.
  - destruct (flush_queue h Hok) as (us & Eq & Hus).
    destruct (abort_same (discardPendingStreamUpdates (S (requestGeneration h))
            (set_generation (S (requestGeneration h)) (flushStreamUpdates (requestGeneration h) h))))
      as (_ & _ & _ & _ & _ & _ & -> & _). simpl. rewrite Eq, omap_app, Hus, app_nil_r. by apply erase_next, queue_old.
Qed.

(** ** The controller begins, or gives up *)

Lemma ok_close o c g : controller_ok c g -> controller_ok (close_opt o c) g.
Proof. destruct o; [|done]. by apply ok_update. Qed.

Lemma close_same o c :
  c_source (close_opt o c) = c_source c /\ c_generation (close_opt o c) = c_generation c /\
  c_waiting (close_opt o c) = c_waiting c /\ isStreaming (close_opt o c) = isStreaming c.
Proof. by destruct o. Qed.

(** A controller without a source, at the next generation. *)
Lemma ok_advance c g g' :
  controller_ok c g ->
  controller_ok (MkController None (S (c_generation c)) (c_sources c) (c_waiting c) (isStreaming c)) g' /\
  (forall w, w ∈ c_waiting c -> w_generation w <> S (c_generation c)).
Proof.
  intros []. assert (Hw : forall w, w ∈ c_waiting c -> w_generation w <> S (c_generation c)).
  { intros w H. apply waiting_old0 in H. lia. }
  split; [|done]. split; simpl; try done.
  - intros i s H. apply sources_old0 in H. lia.
  - intros w H. apply waiting_old0 in H. lia.
  - intros w H1 H2. by destruct (Hw w H1).
Qed.

Lemma ok_cancel b c g g' :
  controller_ok c g ->
  controller_ok (cancel b c) g' /\ c_source (cancel b c) = None /\ c_generation (cancel b c) = S (c_generation c) /\
  c_waiting (cancel b c) = c_waiting c /\
  isStreaming (cancel b c) = (if b then false else isStreaming c) /\
  (forall w, w ∈ c_waiting c -> w_generation w <> S (c_generation c)).
Proof.
  intros H. destruct (ok_advance c g g' H) as [H1 H2].
  apply (ok_close (c_source c)) in H1.
  destruct (close_same (c_source c) (MkController None (S (c_generation c)) (c_sources c) (c_waiting c) (isStreaming c)))
    as (E1 & E2 & E3 & E4).
  unfold cancel. destruct b; simpl; rewrite ?E1, ?E2, ?E3, ?E4; (split; [|done]); [|done].
  destruct H1. by split.
Qed.

Lemma ok_begin p c g g' :
  controller_ok c g ->
  controller_ok (send_begin p g' c) g' /\ c_source (send_begin p g' c) = None /\
  c_generation (send_begin p g' c) = S (c_generation c) /\
  find_waiting (S (c_generation c)) (send_begin p g' c) = Some (Waiting (S (c_generation c)) g' p) /\
  isStreaming (send_begin p g' c) = false.
Proof.
  intros H. destruct (ok_advance c g g' H) as [H1 H2]. apply (ok_close (c_source c)) in H1.
  destruct (close_same (c_source c) (MkController None (S (c_generation c)) (c_sources c) (c_waiting c) (isStreaming c)))
    as (E1 & E2 & E3 & E4).
  unfold send_begin. simpl in *. rewrite ?E1, ?E2, ?E3 in *. destruct H1. rewrite ?E1, ?E2, ?E3 in *. split_and!; try done.
  - split; simpl; try done.
    + intros w [Hw| ->%list_elem_of_singleton]%elem_of_app; simpl; [|lia]. by apply waiting_old0.
    + intros w [Hw| ->%list_elem_of_singleton]%elem_of_app; simpl; [|done]. by apply waiting_current0.
    + rewrite map_app. apply NoDup_app. split_and!; [done| |apply NoDup_singleton]. simpl.
      intros x Hx ->%list_elem_of_singleton. apply list_elem_of_In, in_map_iff in Hx as (w & Hx & Hw).
      by apply (H2 w); [apply list_elem_of_In|].
  - unfold find_waiting. simpl. rewrite find_app. replace (List.find _ (c_waiting c)) with (@None WaitingSend).
    + simpl. by rewrite neqb_refl.
    + symmetry. by apply (find_waiting_none (S (c_generation c)) c).
Qed.

(** * The simulation *)

Section Simulation.
Context (t : jstr -> jstr).

Definition simulates (ch : Controller * Handler) (e : event) : Prop :=
  machine_ok (step t ch e) /\
  slot_of (step t ch e) =
    match view ch e with Some r => slot_step t (slot_of ch) r | None => slot_of ch end.

Lemma sim_stream_send c h ms config enabled :
  machine_ok (c, h) -> stream config = true -> simulates (c, h) (EvSend ms config enabled).
Proof.
  intros [Hh Hc _ _] Hst. unfold simulates. simpl step. unfold sendChat. rewrite Hst. cbn [view slot_step].
  unfold sendStreamingChat. set (p := buildChatCompletionPayload ms config enabled).
  pose proof (over_next h Hh) as Ho.
  assert (Ecomm : discardPendingStreamUpdates (S (requestGeneration h)) (abort_current (set_generation (S (requestGeneration h)) h)) =
    abort_current (discardPendingStreamUpdates (S (requestGeneration h)) (set_generation (S (requestGeneration h)) h))).
  { unfold abort_current. simpl. by destruct (abortController h). }
  rewrite Ecomm. clear Ecomm. set (h' := abort_current _) in *.
  pose proof Ho as (E1 & _ & _ & E4 & _).
  destruct (ok_begin p c _ (S (requestGeneration h)) Hc) as (B1 & B2 & B3 & B4 & B5).
  assert (Hok : handler_ok h') by (by eapply over_ok).
  split.
  - split; cbn [fst snd].
    + by apply ok_requesting.
    + simpl. by rewrite E1.
    + intros _. subst h'. destruct (abort_same (discardPendingStreamUpdates (S (requestGeneration h))
        (set_generation (S (requestGeneration h)) h))) as (A1 & A2 & _). simpl. by rewrite A1, A2.
    + simpl. by rewrite E4.
  - rewrite (over_slot c _ h (set_requesting true h')) by done.
    assert (phase_of (send_begin p (S (requestGeneration h)) c) (set_requesting true h') = Connecting p) as ->.
    { unfold phase_of, current_source. by rewrite B2, B3, B4. }
    rewrite B5, Hst. done.
Qed.

Lemma sim_posted_send c h ms config enabled :
  machine_ok (c, h) -> stream config = false -> simulates (c, h) (EvSend ms config enabled).
Proof.
  intros [Hh Hc _ _] Hst. unfold simulates. simpl step. unfold sendChat. rewrite Hst. cbn [view slot_step].
  unfold sendNonStreamingChat. set (p := buildChatCompletionPayload ms config enabled).
  pose proof (over_next h Hh) as Ho. set (h' := abort_current _) in *. rewrite Hst.
  pose proof Ho as (E1 & E2 & E3 & E4 & E5 & E6 & E7 & E8 & E9 & E10).
  destruct (ok_cancel true c _ (S (requestGeneration h)) Hc) as (B1 & B2 & B3 & B4 & B5 & B6).
  pose proof (over_ok _ _ Ho) as Hok. fold (stop c) in *.
  assert (Hp : pending h' = Pending (S (requestGeneration h)) [] []).
  { subst h'. by destruct (abort_same (discardPendingStreamUpdates (S (requestGeneration h))
        (set_generation (S (requestGeneration h)) h))) as (_ & -> & _). }
  set (n := Posted (S (requestGeneration h)) p false).
  split.
  - split; cbn [fst snd].
    + apply ok_requesting. destruct Hok. split; simpl; rewrite ?E1 in *; try done.
      * intros m [Hm| ->%list_elem_of_singleton]%elem_of_app; [by apply posted_old0|done].
      * intros m [Hm| ->%list_elem_of_singleton]%elem_of_app Ha; [|done]. destruct (E9 m Hm). congruence.
      * intros m [Hm| ->%list_elem_of_singleton]%elem_of_app Ha; [|done]. by apply posted_stale0.
      * intros g [= <-]. split; [done|]. exists n. split_and!; [|done|done]. apply elem_of_app. right. by left.
      * rewrite map_app. apply NoDup_app. split_and!; [done| |apply NoDup_singleton]. simpl.
        intros x Hx ->%list_elem_of_singleton. apply list_elem_of_In, in_map_iff in Hx as (m & Hx & Hm).
        apply list_elem_of_In in Hm. destruct (E9 m Hm). lia.
    + simpl. by rewrite E1.
    + intros _. simpl. by rewrite Hp, E1.
    + intros _. rewrite B2, B3, B4. done.
  - set (h2 := set_requesting true _).
    assert (Hs : slot_of (stop c, h2) =
      set_flags true (isStreaming (stop c)) (yield_slot (phase_of (stop c) h2) (slot_of (c, h)))).
    { assert (slot_of (stop c, h2) = set_flags true (isStreaming (stop c)) (set_phase (phase_of (stop c) h2)
        (slot_of (stop c, h')))) as -> by done.
      rewrite (over_slot c (stop c) h h') by done. done. }
    rewrite Hs, B5. do 2 f_equal. unfold phase_of, current_source. rewrite B2, B3.
    rewrite find_waiting_none by (by rewrite B4).
    unfold current_posted, find_posted. simpl. rewrite find_app.
    replace (List.find _ (posted h')) with (@None NonStreaming); [simpl; by rewrite neqb_refl|].
    symmetry. destruct (List.find _ (posted h')) as [m|] eqn:Ef; [|done].
    apply find_some in Ef as [Hm Hg%Nat.eqb_eq]. apply list_elem_of_In in Hm. destruct (E9 m Hm). lia.
Qed.
(** A state whose request is over, with nothing in the slot. *)
Lemma over_machine h c' h' :
  over h h' -> controller_ok c' (requestGeneration h') -> c_source c' = None ->
  (forall w, w ∈ c_waiting c' -> w_generation w <> c_generation c') ->
  machine_ok (c', h') /\ phase_of c' h' = Idle.
Proof.
  intros Ho Hc Hs Hw. pose proof Ho as (_ & _ & _ & E4 & _). split.
  - split; cbn [fst snd]; [by eapply over_ok|done| |].
    + intros [H|[(w & H1 & H2)|H]]; [by rewrite Hs in H|by destruct (Hw w)|by rewrite E4 in H].
    + by rewrite E4.
  - unfold phase_of, current_source, current_posted. by rewrite Hs, find_waiting_none, E4.
Qed.

Lemma sim_stop c h : machine_ok (c, h) -> simulates (c, h) EvStop.
Proof.
  intros [Hh Hc _ _]. unfold simulates. cbn [step view slot_step]. unfold stopGeneration.
  pose proof (over_stop h Hh) as Ho. set (h' := abort_current _) in *.
  destruct (ok_cancel true c _ (requestGeneration h') Hc) as (B1 & B2 & B3 & B4 & B5 & B6). fold (stop c) in *.
  assert (Ho' : over h (set_requesting false h')) by done.
  destruct (over_machine h (stop c) (set_requesting false h') Ho') as [Hm Hp]; [done|done|by rewrite B3, B4|].
  pose proof Ho as (E1 & _).
  split.
  - eapply machine_change; [exact Hm| |apply Hm|done..|apply (ok_single _ Hm)].
    apply ok_push; [simpl; lia|]. apply Hm.
  - pose proof (over_slot c (stop c) h _ Ho') as Hs. rewrite Hp, B5 in Hs. cbn [isRequesting set_requesting] in Hs.
    rewrite <-Hs. unfold slot_of, post, set_updates. simpl. rewrite omap_app. simpl. by rewrite E1, neqb_refl.
Qed.

Lemma sim_unmount c h : machine_ok (c, h) -> simulates (c, h) EvUnmount.
Proof.
  intros [Hh Hc _ _]. unfold simulates. cbn [step view slot_step]. unfold unmount.
  pose proof (over_unmount h Hh) as Ho. set (h' := abort_current _) in *.
  destruct (ok_cancel false c _ (requestGeneration h') Hc) as (B1 & B2 & B3 & B4 & B5 & B6). fold (dispose c) in *.
  destruct (over_machine h (dispose c) h' Ho) as [Hm Hp]; [done|done|by rewrite B3, B4|].
  split; [done|]. rewrite (over_slot c (dispose c) h h') by done. rewrite Hp, B5.
  assert (isRequesting h' = isRequesting h) as ->; [|done].
  subst h'. by destruct (abort_same (set_timer None (set_generation (S (requestGeneration h)) h)))
    as (_ & _ & _ & -> & _).
Qed.

Lemma sim_update c h u : machine_ok (c, h) -> simulates (c, h) (EvUpdate u).
Proof.
  intros Hok. unfold simulates. cbn [step view].
  assert (H : page_update u = true -> machine_ok (update_messages u (c, h))).
  { intros Hu. eapply machine_change; [exact Hok| |apply Hok|done..|apply (ok_single _ Hok)].
    apply ok_push; [|apply Hok]. destruct u; simpl in *; try done; lia. }
  destruct u; cbn [page_update]; (split; [by auto|]); try done;
    unfold slot_of, post, set_updates; simpl; by rewrite omap_app.
Qed.

Lemma find_drop g g' c : g <> g' -> find_waiting g' (drop_waiting g c) = find_waiting g' c.
Proof.
  intros H. unfold find_waiting, drop_waiting. simpl. induction (c_waiting c) as [|w l IH]; [done|]. simpl.
  destruct (Nat.eqb_spec (w_generation w) g) as [E|E]; simpl; rewrite IH; [|done].
  by destruct (Nat.eqb_spec (w_generation w) g'); [congruence|].
Qed.

(** A [send] that resumes when it is no longer current changes nothing but the
    list of suspended calls. *)
Lemma drop_machine g c h : machine_ok (c, h) -> machine_ok (drop_waiting g c, h).
Proof.
  intros Hok. eapply machine_change; [exact Hok|apply Hok|by apply ok_drop_waiting, Hok|done..| |].
  - intros [H|[(w' & [H1 _]%elem_filter & H2)|H]]; [by left|right; left; by exists w'|by right; right].
  - intros Ha. destruct (ok_single _ Hok Ha) as [H1 H2]. split; [done|].
    intros w' [Hw' _]%elem_filter. by apply H2.
Qed.

Lemma drop_slot g c h : g <> c_generation c -> slot_of (drop_waiting g c, h) = slot_of (c, h).
Proof. intros H. unfold slot_of, phase_of. by rewrite find_drop. Qed.

(** A current [send] has the slot. *)
Lemma waiting_slot c h w :
  machine_ok (c, h) -> find_waiting (c_generation c) c = Some w ->
  w ∈ c_waiting c /\ w_generation w = c_generation c /\ w_callbacks w = requestGeneration h /\
  c_source c = None /\ abortController h = None /\ phase_of c h = Connecting (w_payload w) /\
  p_generation (pending h) = requestGeneration h.
Proof.
  intros Hok Ew. pose proof (find_waiting_some _ _ _ Ew) as [Hw Hg].
  assert (Hs : c_source c = None).
  { destruct (c_source c) as [i|] eqn:Ei; [|done].
    destruct (source_current _ _ (ok_controller _ Hok) i Ei) as (_ & _ & _ & _ & H). by destruct (H w). }
  split_and!; try done.
  - by apply (waiting_current _ _ (ok_controller _ Hok)).
  - destruct (abortController h) eqn:Ea; [|done].
    destruct (ok_single _ Hok) as [_ H]; [simpl; by rewrite Ea|]. by destruct (H w).
  - unfold phase_of, current_source. by rewrite Hs, Ew.
  - apply (ok_pending _ Hok). right. left. by exists w.
Qed.

(** After it resumes nothing waits for its generation. *)
Lemma drop_current c w : w ∈ c_waiting (drop_waiting (c_generation c) c) -> w_generation w <> c_generation c.
Proof. intros [_ H]%elem_filter. by apply negb_true_iff, Nat.eqb_neq in H. Qed.

Lemma sim_headers c h g throws : machine_ok (c, h) -> simulates (c, h) (EvHeaders g throws).
Proof.
  intros Hok. unfold simulates. cbn [step view]. unfold headers_resolved.
  pose proof (ok_controller _ Hok) as Hc. pose proof (ok_handler _ Hok) as Hh. cbn [fst snd] in *.
  destruct (find_waiting g c) as [w|] eqn:Ew.
  2:{ split; [done|]. destruct (Nat.eqb_spec g (c_generation c)) as [->|]; [|done].
      unfold slot_step. unfold slot_of at 2. cbn [phase]. unfold phase_of. rewrite Ew.
      destruct (current_source c); [done|]. by destruct (current_posted h). }
  cbn [c_generation drop_waiting]. destruct (Nat.eqb_spec (c_generation c) g) as [<-|Hne].
  2:{ cbn [negb]. split; [by apply drop_machine|]. rewrite (proj2 (Nat.eqb_neq g _)) by congruence.
      by apply drop_slot. }
  cbn [negb]. rewrite neqb_refl.
  destruct (waiting_slot c h w Hok Ew) as (Hw & Hg & Hcb & Hs & Ha & Hp & Hpg).
  set (i := length (c_sources (drop_waiting (c_generation c) c))).
  set (s := MkStream (c_generation c) (w_callbacks w) (w_payload w) false false).
  set (c2 := MkController (Some i) _ _ _ _).
  assert (Hsrc : source_at c2 i = Some s) by (unfold source_at; simpl; by rewrite list_lookup_middle).
  assert (Hok2 : machine_ok (c2, h)).
  { eapply machine_change; [exact Hok|done| |done..| |by rewrite Ha].
    - destruct (ok_drop_waiting (c_generation c) _ _ Hc). split; try done.
      + intros j [= <-]. exists s. split_and!; try done. intros w'. exact (drop_current c w').
      + intros j s'. unfold source_at. subst c2. cbn [c_sources]. rewrite lookup_app.
        destruct (c_sources (drop_waiting _ c) !! j) as [s''|] eqn:Ej.
        * intros [= <-]. apply (sources_old0 j s'' Ej).
        * destruct (j - _) as [|k] eqn:Ek; [|by destruct k]. simpl. intros [= <-]. done.
    - intros _. right. left. by exists w. }
  assert (Hslot : slot_of (c2, h) =
    set_flags (isRequesting h) true (set_phase (Open (w_payload w) false) (slot_of (c, h)))).
  { rewrite (slot_controller c c2 h). f_equal. unfold phase_of at 1, current_source. cbn [c_source c2]. by rewrite Hsrc. }
  unfold slot_step. unfold slot_of at 2. cbn [phase]. rewrite Hp. destruct throws; [|done].
  change (set_flags (requesting (slot_of (c, h))) true (set_phase (Open (w_payload w) false) (slot_of (c, h)))) with
    (set_flags (isRequesting h) true (set_phase (Open (w_payload w) false) (slot_of (c, h)))).
  rewrite <-Hslot. by apply (fail_step t i s).
Qed.

Lemma sim_no_headers c h g e : machine_ok (c, h) -> simulates (c, h) (EvNoHeaders g e).
Proof.
  intros Hok. unfold simulates. cbn [step view]. unfold headers_rejected.
  destruct (find_waiting g c) as [w|] eqn:Ew.
  2:{ split; [done|]. destruct (Nat.eqb_spec g (c_generation c)) as [->|]; [|done].
      unfold slot_step. unfold slot_of at 2. cbn [phase]. unfold phase_of. rewrite Ew.
      destruct (current_source c); [done|]. by destruct (current_posted h). }
  cbn [c_generation drop_waiting]. destruct (Nat.eqb_spec (c_generation c) g) as [<-|Hne].
  2:{ cbn [negb]. split; [by apply drop_machine|]. rewrite (proj2 (Nat.eqb_neq g _)) by congruence.
      by apply drop_slot. }
  cbn [negb]. rewrite neqb_refl.
  destruct (waiting_slot c h w Hok Ew) as (Hw & Hg & Hcb & Hs & Ha & Hp & Hpg). rewrite Hcb.
  set (e' := JStr (e ?? STREAM_START_ERROR)).
  pose proof (error_same t (requestGeneration h) e' JUndef h) as (E1 & E2 & E3 & E4 & E5).
  pose proof (drop_machine (c_generation c) c h Hok) as Hd.
  split.
  - eapply machine_change; [exact Hd|by apply error_ok, Hok|rewrite E1; by apply Hd|done..| |by rewrite Ha].
    intros [H|[(w' & H1 & H2)|H]]; [simpl in H; by rewrite Hs in H|by destruct (drop_current c w' H1)|by rewrite E2, Ha in H].
  - pose proof (error_slot t (drop_waiting (c_generation c) c) e' JUndef h Hpg) as Hr.
    apply (f_equal fst) in Hr. cbn [fst] in Hr.
    assert (slot_of (drop_waiting (c_generation c) c, (handleStreamError t (requestGeneration h) e' JUndef h).1) =
      (report t e' JUndef (set_phase Idle (slot_of (c, h)))).1) as ->.
    { rewrite Hr. do 2 f_equal. rewrite (slot_controller c). f_equal. unfold phase_of at 1, current_source, current_posted.
      simpl. rewrite Hs, Ha. change (c_generation (drop_waiting (c_generation c) c)) with (c_generation c).
      rewrite find_waiting_none; [done|]. intros w'. exact (drop_current c w'). }
    unfold slot_step. unfold slot_of at 2. cbn [phase]. by rewrite Hp.
Qed.

(** The active source of a machine, and the slot it has. *)
Lemma source_slot c h i :
  machine_ok (c, h) -> c_source c = Some i ->
  exists s, source_at c i = Some s /\ s_callbacks s = requestGeneration h /\
    listening c i = (if s_completed s then None else Some s) /\
    phase_of c h = Open (s_payload s) (s_completed s) /\ p_generation (pending h) = requestGeneration h.
Proof.
  intros Hok Hi. destruct (listening_current _ _ _ (ok_controller _ Hok) Hi) as (s & H1 & H2 & _ & H3). simpl in *.
  exists s. split_and!; try done.
  - unfold phase_of, current_source. by rewrite Hi, H1.
  - apply (ok_pending _ Hok). left. simpl. by rewrite Hi.
Qed.

(** Events of a source that is not the active one do nothing. *)
Lemma stale_machine c h i f g k :
  c_source c <> Some i ->
  on_message t i f (c, h) = (c, h) /\ on_error t i g f (c, h) = (c, h) /\ on_readystatechange t i g k (c, h) = (c, h).
Proof. intros H. unfold on_message, on_error, on_readystatechange. by rewrite listening_stale. Qed.

Lemma slot_phase c h : phase (slot_of (c, h)) = phase_of c h.
Proof. reflexivity. Qed.

Lemma sim_error c h i r data : machine_ok (c, h) -> simulates (c, h) (EvError i r data).
Proof.
  intros Hok. unfold simulates. cbn [step view]. case_bool_decide as Hi.
  2:{ by destruct (stale_machine c h i data r None Hi) as (_ & -> & _). }
  destruct (source_slot c h i Hok Hi) as (s & Hs & Hcb & Hl & Hp & Hpg).
  unfold on_error, slot_step. rewrite Hl, slot_phase, Hp. destruct (s_completed s) eqn:Ec; [done|].
  destruct (isStreamClosedReadyState r); [done|]. by apply (fail_step t i s).
Qed.

Lemma sim_ready c h i r st : machine_ok (c, h) -> simulates (c, h) (EvReady i r st).
Proof.
  intros Hok. unfold simulates. cbn [step view]. case_bool_decide as Hi.
  2:{ by destruct (stale_machine c h i None r st Hi) as (_ & _ & ->). }
  destruct (source_slot c h i Hok Hi) as (s & Hs & Hcb & Hl & Hp & Hpg).
  unfold on_readystatechange, slot_step. rewrite Hl, slot_phase, Hp. destruct (s_completed s) eqn:Ec; [done|].
  destruct (opt_truthy _); [|done]. by apply (fail_step t i s).
Qed.

(** The end of a stream. *)
Lemma done_step c h i s :
  machine_ok (c, h) -> c_source c = Some i -> source_at c i = Some s ->
  let ch' := (closeActiveSource i (complete_source i c), handleStreamComplete (requestGeneration h) h) in
  machine_ok ch' /\ slot_of ch' = post UComplete (set_flags false false (flush (set_phase Idle (slot_of (c, h))))).
Proof.
  intros Hok Hi Hs ch'. subst ch'. rewrite closeActive_eq by done.
  destruct (source_slot c h i Hok Hi) as (s' & _ & _ & _ & _ & Hpg).
  pose proof (ok_controller _ Hok) as Hc. pose proof (ok_handler _ Hok) as Hh. cbn [fst snd] in *.
  unfold handleStreamComplete. rewrite neqb_refl. cbn [negb].
  pose proof (flush_same (requestGeneration h) h) as (E1 & E2 & E3 & E4 & E5).
  set (c2 := setStreaming false _). split.
  - eapply machine_change; [exact Hok| |simpl; rewrite E1|done..| |by rewrite (source_no_abort c h i)].
    + apply ok_push; [simpl; lia|]. auto.
    + apply ok_clear. apply ok_update; [done|]. by apply ok_update.
    + intros _. left. by rewrite Hi.
  - set (h1 := flushStreamUpdates _ _) in *.
    assert (Hf : slot_of (c2, h1) = flush (set_phase Idle (set_flags (isRequesting h) false (slot_of (c, h))))).
    { subst h1. rewrite flush_slot by done. f_equal. rewrite (slot_controller c).
      subst c2. by rewrite (closed_phase c h i). }
    assert (Hx : slot_of (c2, onMessageUpdate (CompleteMessage (requestGeneration h)) (set_requesting false h1)) =
      post UComplete (set_flags false false (slot_of (c2, h1)))).
    { unfold slot_of, post, set_updates, set_flags. simpl. rewrite omap_app. simpl. rewrite E1, neqb_refl. done. }
    rewrite Hx, Hf. unfold flush. simpl. by destruct (_ && _).
Qed.

Lemma sim_message c h i data : machine_ok (c, h) -> simulates (c, h) (EvMessage i data).
Proof.
  intros Hok. unfold simulates. cbn [step view]. case_bool_decide as Hi.
  2:{ by destruct (stale_machine c h i data None None Hi) as (-> & _). }
  destruct (source_slot c h i Hok Hi) as (s & Hs & Hcb & Hl & Hp & Hpg).
  unfold on_message, slot_step. rewrite Hl, slot_phase, Hp. destruct (s_completed s) eqn:Ec; [done|].
  set (d := data ?? []). rewrite Hcb. destruct (isStreamDoneMessage d); [by apply (done_step c h i s)|].
  destruct (parseStreamMessageUpdates d) as [us|]; [|by apply (fail_step t i s)].
  pose proof (updates_slot c us h Hpg (ok_handler _ Hok)) as (H1 & H2 & H3 & H4 & H5 & H6).
  destruct (apply_updates (requestGeneration h) us h) as [h' threw]. cbn [fst snd] in *. rewrite <-H1.
  assert (Hok' : machine_ok (c, h')).
  { eapply machine_change; [exact Hok|done| |done|done|congruence| |].
    - rewrite H3. apply Hok.
    - intros _. left. by rewrite Hi.
    - apply (ok_single _ Hok). }
  destruct threw; [|done]. by apply (fail_step t i s).
Qed.

Lemma sim_timer c h : machine_ok (c, h) -> simulates (c, h) EvTimer.
Proof.
  intros Hok. unfold simulates. cbn [step view fst snd]. unfold slot_step, timer_fires.
  assert (armed (slot_of (c, h)) = is_some (flushTimer h)) as -> by done.
  destruct (flushTimer h) as [g|] eqn:Et; [|done]. cbn [is_some].
  pose proof (ok_handler _ Hok) as Hh. cbn [snd] in Hh. rewrite (timer_current _ Hh g Et).
  destruct (Nat.eqb_spec (p_generation (pending h)) (requestGeneration h)) as [Hp|Hp].
  2:{ by rewrite (pending_timer _ Hh Hp) in Et. }
  split; [|by apply flush_slot].
  pose proof (flush_same (requestGeneration h) h) as (E1 & E2 & E3 & E4 & E5).
  eapply machine_change; [exact Hok|auto|rewrite E1; apply Hok|done..| |apply (ok_single _ Hok)].
  unfold slot_taken. by rewrite E2.
Qed.

Lemma sim_run c h clk : machine_ok (c, h) -> simulates (c, h) (EvRun clk).
Proof.
  intros Hok. unfold simulates. cbn [step view fst snd]. unfold run_queue.
  destruct (queue h) as [|u q] eqn:Eq; [done|].
  split.
  - eapply machine_change; [exact Hok| |apply Hok|done..|apply (ok_single _ Hok)].
    pose proof (ok_handler _ Hok) as Hh. destruct Hh. split; simpl in *; try done.
    rewrite Eq in queue_old0. by apply Forall_inv_tail in queue_old0.
  - rewrite run_updater_erase.
    assert (Hu : updates (slot_of (c, h)) = match erase (requestGeneration h) u with
      | Some v => v :: omap (erase (requestGeneration h)) q | None => omap (erase (requestGeneration h)) q end).
    { unfold slot_of. simpl. rewrite Eq. done. }
    destruct (erase (requestGeneration h) u) as [v|] eqn:Ev; cbn [is_some].
    + unfold slot_step. rewrite Hu. done.
    + unfold slot_of. rewrite Eq. simpl. by rewrite Ev.
Qed.
(** ** Answers to requests that do not stream *)

Lemma error_commute g e code a ps h :
  (handleStreamError t g e code (set_abort a ps h)).1 = set_abort a ps (handleStreamError t g e code h).1.
Proof.
  unfold handleStreamError. simpl requestGeneration. destruct (negb _); [done|].
  assert (flushStreamUpdates g (set_abort a ps h) = set_abort a ps (flushStreamUpdates g h)) as ->.
  { unfold flushStreamUpdates. simpl. repeat (case_match; try done). }
  by destruct (getDisplayError t e).
Qed.

Lemma stale_settled g n h :
  handler_ok h -> find_posted g h = Some n -> abortController h <> Some g -> n_aborted n = true /\ g < requestGeneration h.
Proof.
  intros Hh [Hn Hg%Nat.eqb_eq]%find_some Hne. apply list_elem_of_In in Hn. subst g.
  destruct (n_aborted n) eqn:Ea; [|by destruct Hne; apply (posted_aborted _ Hh)].
  split; [done|]. by apply (posted_stale _ Hh).
Qed.

Lemma find_drop_posted g g' h : g <> g' -> find_posted g' (drop_posted g h) = find_posted g' h.
Proof.
  intros H. unfold find_posted, drop_posted. simpl. induction (posted h) as [|n l IH]; [done|]. simpl.
  destruct (Nat.eqb_spec (n_generation n) g) as [E|E]; simpl; rewrite IH; [|done].
  by destruct (Nat.eqb_spec (n_generation n) g'); [congruence|].
Qed.

(** An answer to a request that was given up only leaves the suspended calls. *)
Lemma drop_posted_machine c g h :
  machine_ok (c, h) -> abortController h <> Some g ->
  machine_ok (c, drop_posted g h) /\ slot_of (c, drop_posted g h) = slot_of (c, h).
Proof.
  intros Hok Hne. pose proof (ok_handler _ Hok) as Hh. cbn [snd] in Hh. split.
  - eapply machine_change; [exact Hok| |apply Hok|done..|apply (ok_single _ Hok)].
    destruct Hh. split; simpl; try done.
    + intros n [Hn _]%elem_filter. by apply posted_old0.
    + intros n [Hn _]%elem_filter. by apply posted_aborted0.
    + intros n [Hn _]%elem_filter. by apply posted_stale0.
    + intros g' Hg'. destruct (abort_current_request0 g' Hg') as (E & n & Hn & Hng & Ha). split; [done|].
      exists n. split_and!; try done. apply elem_filter. split; [done|].
      apply negb_true_iff, Nat.eqb_neq. congruence.
    + by apply nodup_map_filter.
  - unfold slot_of, phase_of, current_posted. change (abortController (drop_posted g h)) with (abortController h).
    destruct (abortController h) as [g'|] eqn:Ea; [|done]. rewrite find_drop_posted by congruence. done.
Qed.

(** The request in the slot lets go of it. *)
Lemma settle_machine c g h ps :
  machine_ok (c, h) -> abortController h = Some g ->
  ps = List.filter (fun n => negb (Nat.eqb (n_generation n) g)) (posted h) ->
  machine_ok (c, set_abort None ps h) /\ slot_of (c, set_abort None ps h) = set_phase Idle (slot_of (c, h)) /\
  (exists p, phase_of c h = Awaiting p) /\ p_generation (pending h) = requestGeneration h.
Proof.
  intros Hok Ha ->. pose proof (ok_handler _ Hok) as Hh. cbn [snd] in Hh.
  destruct (ok_single _ Hok) as [Hs Hw]; [simpl; by rewrite Ha|]. cbn [fst] in *.
  split_and!.
  - split; cbn [fst snd].
    + destruct Hh. split; simpl; try done.
      * intros n [Hn _]%elem_filter. by apply posted_old0.
      * intros n [Hn Hg]%elem_filter Hb. apply negb_true_iff, Nat.eqb_neq in Hg.
        specialize (posted_aborted0 n Hn Hb). congruence.
      * intros n [Hn _]%elem_filter. by apply posted_stale0.
      * by apply nodup_map_filter.
    + apply Hok.
    + intros _. simpl. apply (ok_pending _ Hok). right. right. simpl. by rewrite Ha.
    + done.
  - unfold slot_of, set_phase, phase_of, current_source. simpl. rewrite Hs, find_waiting_none by done. done.
  - unfold phase_of, current_source, current_posted. rewrite Hs, find_waiting_none, Ha by done.
    destruct (abort_current_request _ Hh g Ha) as (_ & n & Hn & Hg & _).
    destruct (find_posted g h) as [m|] eqn:E; [by eexists|].
    unfold find_posted in E. apply list_elem_of_In in Hn. apply (find_none _ _ E) in Hn. simpl in Hn.
    by rewrite Hg, neqb_refl in Hn.
  - apply (ok_pending _ Hok). right. right. simpl. by rewrite Ha.
Qed.

Lemma error_machine c e code h :
  machine_ok (c, h) -> machine_ok (c, (handleStreamError t (requestGeneration h) e code h).1).
Proof.
  intros Hok. pose proof (error_same t (requestGeneration h) e code h) as (E1 & E2 & E3 & E4 & E5).
  eapply machine_change; [exact Hok|by apply error_ok, Hok|rewrite E1; apply Hok|done..| |apply (ok_single _ Hok)].
  unfold slot_taken. by rewrite E2.
Qed.

Lemma requesting_machine c b h : machine_ok (c, h) -> machine_ok (c, set_requesting b h).
Proof. intros Hok. eapply machine_change; [exact Hok|by apply ok_requesting, Hok|apply Hok|done..|apply (ok_single _ Hok)]. Qed.

Lemma push_machine c u h :
  updater_generation u <= requestGeneration h -> machine_ok (c, h) -> machine_ok (c, onMessageUpdate u h).
Proof.
  intros Hu Hok. eapply machine_change; [exact Hok|by apply ok_push, Hok|apply Hok|done..|apply (ok_single _ Hok)].
Qed.

Lemma sim_settled c h g outcome : machine_ok (c, h) -> simulates (c, h) (EvSettled g outcome).
Proof.
  intros Hok. unfold simulates. cbn [step view fst snd]. unfold posted_settled.
  pose proof (ok_handler _ Hok) as Hh. cbn [snd] in Hh.
  case_bool_decide as Ha.
  2:{ destruct (find_posted g h) as [n|] eqn:En; [|done].
      destruct (stale_settled g n h Hh En Ha) as [-> Hlt]. cbn [orb]. unfold posted_finally. simpl requestGeneration.
      rewrite (proj2 (Nat.eqb_neq _ _)) by lia. by apply drop_posted_machine. }
  destruct (abort_current_request _ Hh g Ha) as (Hg & n' & Hn' & Hg' & _).
  destruct (find_posted g h) as [n|] eqn:En.
  2:{ unfold find_posted in En. apply list_elem_of_In in Hn'. apply (find_none _ _ En) in Hn'. simpl in Hn'.
      by rewrite Hg', neqb_refl in Hn'. }
  assert (n_aborted n = false) as ->.
  { apply find_some in En as [Hn Hgn%Nat.eqb_eq]. apply list_elem_of_In in Hn. destruct (n_aborted n) eqn:E; [|done].
    specialize (posted_stale _ Hh n Hn E). lia. }
  change (requestGeneration (drop_posted g h)) with (requestGeneration h). rewrite <-Hg, neqb_refl. cbn [negb orb].
  destruct (settle_machine c g h _ Hok Ha eq_refl) as (Hok0 & Hslot & (p & Hp) & Hpg).
  change (drop_posted g h) with (set_abort (abortController h) (List.filter (fun n => negb (Nat.eqb (n_generation n) g)) (posted h)) h).
  set (ps := List.filter _ _) in *. set (h0 := set_abort None ps h) in *.
  unfold slot_step. rewrite slot_phase, Hp.
  assert (Herr : forall e code,
    posted_finally g (handleStreamError t g e code (set_abort (abortController h) ps h)).1 =
    set_requesting false (handleStreamError t (requestGeneration h0) e code h0).1).
  { intros e code. subst h0. rewrite !error_commute. unfold posted_finally. simpl.
    destruct (error_same t g e code h) as (-> & _). rewrite <-Hg, neqb_refl. done. }
  assert (Hres : forall e code, let h' := set_requesting false (handleStreamError t (requestGeneration h0) e code h0).1 in
    machine_ok (c, h') /\
    slot_of (c, h') = let s := (report t e code (set_phase Idle (slot_of (c, h)))).1 in set_flags false (streaming s) s).
  { intros e code h'. split; [by apply requesting_machine, error_machine|].
    rewrite <-Hslot. pose proof (error_slot t c e code h0 Hpg) as Hr. apply (f_equal fst) in Hr. cbn [fst] in Hr.
    rewrite <-Hr. done. }
  destruct outcome as [response|error].
  - destruct (hasChatCompletionChoice response) eqn:Er; cbn [negb]; [|rewrite Herr; apply Hres].
    assert (posted_finally g (onMessageUpdate (ApplyResponse g response) (set_abort (abortController h) ps h)) =
      set_requesting false (onMessageUpdate (ApplyResponse g response) h0)) as ->.
    { unfold posted_finally. simpl. rewrite <-Hg, neqb_refl. done. }
    split.
    + apply requesting_machine, push_machine; [simpl; lia|done].
    + rewrite <-Hslot. unfold slot_of, post, set_updates, set_flags. simpl. rewrite omap_app. simpl.
      by rewrite <-Hg, neqb_refl.
  - rewrite Herr. apply Hres.
Qed.
Lemma step_simulates ch e : machine_ok ch -> simulates ch e.
Proof.
  destruct ch as [c h]. intros Hok. destruct e.
  - destruct (stream config) eqn:E; [by apply sim_stream_send|by apply sim_posted_send].
  - by apply sim_stop.
  - by apply sim_unmount.
  - by apply sim_update.
  - by apply sim_headers.
  - by apply sim_no_headers.
  - by apply sim_message.
  - by apply sim_error.
  - by apply sim_ready.
  - by apply sim_timer.
  - by apply sim_settled.
  - by apply sim_run.
Qed.

Lemma initial_ok ms : machine_ok (initial ms).
Proof.
  split; simpl; [..|done|done].
  - split; simpl; try done; try (by intros ? ?%elem_of_nil); constructor.
  - split; simpl; try done; try (by intros ? ?%elem_of_nil); constructor.
Qed.

Lemma reachable_ok ch : reachable t ch -> machine_ok ch.
Proof. induction 1; [apply initial_ok|]. by apply step_simulates. Qed.

Lemma reachable_run es ch : reachable t ch -> reachable t (run t es ch).
Proof. revert ch. induction es as [|e es IH]; intros ch H; [done|]. apply IH. by constructor. Qed.

(** What the events of a run are to the slot. *)
Fixpoint views (es : list event) (ch : Controller * Handler) : list request :=
  match es with
  | [] => []
  | e :: es => match view ch e with Some r => [r] | None => [] end ++ views es (step t ch e)
  end.

Lemma run_slot es : forall ch, machine_ok ch -> slot_of (run t es ch) = fold_left (slot_step t) (views es ch) (slot_of ch).
Proof.
  induction es as [|e es IH]; intros ch Hok; [done|]. cbn [views].
  destruct (step_simulates ch e Hok) as [H1 H2].
  change (run t (e :: es) ch) with (run t es (step t ch e)). rewrite IH by done. rewrite H2.
  by destruct (view ch e).
Qed.

(** C1: the latest request wins: whatever events arrive, in whatever order and
    from whichever request, the chat handler with its stream controller shows
    what the machine with one slot shows on the events of the request that has
    the slot. *)
Theorem latest_wins ms es :
  slot_of (run t es (initial ms)) =
  fold_left (slot_step t) (views es (initial ms)) (MkSlot Idle [] [] false false false [] ms []).
Proof. by rewrite run_slot by apply initial_ok. Qed.

(** Whatever happens, at most one request is in progress: the flush timer
    and the batch belong to the current generation, every answer still awaited
    but the latest was aborted, a source is current only when nothing else is,
    and its listeners write for the current generation. *)
Theorem one_request ms es : machine_ok (run t es (initial ms)).
Proof. apply reachable_ok, reachable_run. constructor. Qed.
End Simulation.
