(* ===== verification/PlaygroundRuns.v ===== *)
(** Runs of the web playground: what a request that was superseded can still do
    (nothing), how a generation ends, and the text a stream leaves. *)

From Stdlib Require Import NArith ZArith Lia ZifyBool ZifyN.
From Stdlib Require Import SpecFloat.
From stdpp Require Import base list gmap strings.
From S2P Require Import Prelude JsString JsNum Json Playground PlaygroundRequest PlaygroundChat PlaygroundSpec.

(** * Superseded requests *)

Section Superseded.
Context (t : jstr -> jstr).

(** No source before the [k]-th is current, and none will be. *)
Definition sources_past (k : nat) (c : Controller) : Prop :=
  k <= length (c_sources c) /\ forall i, c_source c = Some i -> k <= i.

Lemma past_update k f i c : sources_past k c -> sources_past k (update_source f i c).
Proof. unfold sources_past, update_source. simpl. by rewrite length_alter. Qed.

Lemma past_close_active k i c : sources_past k c -> sources_past k (closeActiveSource i c).
Proof.
  intros H. unfold closeActiveSource. assert (H' : sources_past k (close_source i c)) by (by apply past_update).
  case_bool_decide; [|done]. destruct H'. by split.
Qed.

Lemma past_handle_error k i e code ch : sources_past k ch.1 -> sources_past k (handleError t i e code ch).1.
Proof.
  destruct ch as [c h]. intros H. unfold handleError. destruct (listening c i); [|done].
  destruct (handleStreamError _ _ _ _ _) as [h' []]; simpl; [by apply past_update|].
  by apply past_close_active, past_update.
Qed.

Lemma past_close_opt k o c : sources_past k c -> sources_past k (close_opt o c).
Proof. destruct o; [|done]. by apply past_update. Qed.

Lemma past_cancel k b c : k <= length (c_sources c) -> sources_past k (cancel b c).
Proof.
  intros H. unfold cancel. set (c1 := MkController None _ _ _ _).
  assert (Hp : sources_past k (close_opt (c_source c) c1)) by (by apply past_close_opt).
  by destruct b.
Qed.

Lemma past_begin k p cb c : k <= length (c_sources c) -> sources_past k (send_begin p cb c).
Proof.
  intros H. unfold send_begin. set (c1 := MkController None _ _ _ _).
  assert (Hp : sources_past k (close_opt (c_source c) c1)) by (by apply past_close_opt). done.
Qed.

Lemma past_send k ms cfg en ch : k <= length (c_sources ch.1) -> sources_past k (sendChat ms cfg en ch).1.
Proof.
  destruct ch as [c h]. intros H. unfold sendChat.
  destruct (stream cfg); simpl; [by apply past_begin|by apply past_cancel].
Qed.

Lemma past_step k ch e : sources_past k ch.1 -> sources_past k (step t ch e).1.
Proof.
  destruct ch as [c h]. intros H. pose proof H as [Hlen _]. cbn [fst] in *. destruct e; cbn [step fst]; try done.
  - by apply past_send.
  - by apply past_cancel.
  - by apply past_cancel.
  - by destruct (page_update u).
  - unfold headers_resolved. destruct (find_waiting g c); [|done]. destruct (negb _); [done|].
    set (c2 := MkController _ _ _ _ _). assert (H2 : sources_past k c2).
    { split; simpl; [rewrite length_app; lia|]. intros i [= <-]. done. }
    destruct stream_throws; [by apply past_handle_error|done].
  - unfold headers_rejected. destruct (find_waiting g c); [|done]. by destruct (negb _).
  - unfold on_message. destruct (listening c i); [|done]. destruct (isStreamDoneMessage _).
    + by apply past_close_active, past_update.
    + destruct (parseStreamMessageUpdates _); [|by apply past_handle_error].
      destruct (apply_updates _ _ _) as [h' []]; [by apply past_handle_error|done].
  - unfold on_error. destruct (listening c i); [|done]. destruct (isStreamClosedReadyState _); [done|].
    by apply past_handle_error.
  - unfold on_readystatechange. destruct (listening c i); [|done]. destruct (opt_truthy _); [|done].
    by apply past_handle_error.
Qed.

Lemma past_run k es : forall ch, sources_past k ch.1 -> sources_past k (run t es ch).1.
Proof. induction es as [|e es IH]; intros ch H; [done|]. by apply IH, past_step. Qed.

(** Sending, stopping and leaving the page take the slot from what had it. *)
Definition supersedes (e : event) : bool :=
  match e with EvSend _ _ _ | EvStop | EvUnmount => true | _ => false end.

(** An event of the [i]-th source. *)
Definition source_event (i : nat) (e : event) : bool :=
  match e with
  | EvMessage j _ | EvError j _ _ | EvReady j _ _ => Nat.eqb i j
  | _ => false
  end.

(** Once a request is superseded, by a new one, by a stop or by leaving the
    page, no event of any of the sources there were does anything, however late
    it comes and whatever happens in between. *)
Theorem superseded_silent ch e es i late :
  supersedes e = true -> i < length (c_sources ch.1) -> source_event i late = true ->
  step t (run t es (step t ch e)) late = run t es (step t ch e).
Proof.
  intros He Hi Hl.
  assert (Hp : sources_past (S i) (step t ch e).1).
  { destruct ch as [c h]. destruct e; try done; simpl in *; [by apply past_send|by apply past_cancel..]. }
  apply (past_run _ es) in Hp. destruct (run t es (step t ch e)) as [c h]. destruct Hp as [_ Hp]. cbn [fst] in Hp.
  assert (Hc : c_source c <> Some i) by (intros Hc; apply Hp in Hc; lia).
  destruct late; try done; simpl in Hl; apply Nat.eqb_eq in Hl as <-; simpl.
  - apply (proj1 (stale_machine t c h i data None None Hc)).
  - apply (proj1 (proj2 (stale_machine t c h i data readyState None Hc))).
  - apply (proj2 (proj2 (stale_machine t c h i None readyState source_status Hc))).
Qed.
End Superseded.

(** * Ends of a generation *)

Section Ends.
Context (t : jstr -> jstr).

(** React runs all that is queued. *)
Definition drain (clk : clock) (ch : Controller * Handler) : Controller * Handler :=
  run t (List.repeat (EvRun clk) (length (queue ch.2))) ch.

Definition run_all (clk : clock) (g : nat) (us : list Updater) (ms : list Message) : list Message :=
  fold_left (fun ms u => run_updater clk g u ms) us ms.

Lemma drain_eq clk ch :
  drain clk ch = (ch.1, set_messages (run_all clk (requestGeneration ch.2) (queue ch.2) (messages ch.2)) [] ch.2).
Proof.
  unfold drain. destruct ch as [c h]. cbn [fst snd].
  remember (queue h) as us eqn:Hq. symmetry in Hq. revert h Hq. induction us as [|u us IH]; intros h Hq; cbn [length List.repeat].
  - simpl. unfold set_messages. rewrite <-Hq. by destruct h.
  - change (run t (EvRun clk :: ?es) (c, h)) with (run t es (c, run_queue clk h)).
    unfold run_queue. rewrite Hq. by rewrite IH.
Qed.

(** What is shown then, from the slot. *)
Lemma drain_slot clk ch :
  messages (drain clk ch).2 =
  fold_left (fun ms u => apply_update clk u ms) (updates (slot_of ch)) (shown (slot_of ch)).
Proof.
  rewrite drain_eq. destruct ch as [c h]. unfold slot_of. cbn [fst snd messages set_messages updates shown].
  unfold run_all. generalize (messages h). induction (queue h) as [|u us IH]; intros ms; [done|].
  cbn [fold_left omap list_omap]. rewrite run_updater_erase, IH. by destruct (erase (requestGeneration h) u).
Qed.

(** ** The last message *)

Lemma update_last ms f m :
  last ms = Some m -> updateLastAssistantMessage ms f = if is_assistant m then <[length ms - 1 := f m]> ms else ms.
Proof. intros H. unfold updateLastAssistantMessage. by rewrite H. Qed.

Lemma last_insert {A} (ms : list A) x : ms <> [] -> last (<[length ms - 1 := x]> ms) = Some x.
Proof.
  intros H. destruct ms as [|m ms] using rev_ind; [done|]. clear IHms H.
  rewrite length_app. simpl. replace (length ms + 1 - 1) with (length ms + 0) by lia.
  rewrite insert_app_r. simpl. by rewrite last_snoc.
Qed.

Lemma update_last_result ms f m :
  last (updateLastAssistantMessage ms f) = Some m ->
  exists m0, last ms = Some m0 /\ m = if is_assistant m0 then f m0 else m0.
Proof.
  unfold updateLastAssistantMessage. destruct (last ms) as [m0|] eqn:E; [|congruence].
  intros H. exists m0. split; [done|]. destruct (is_assistant m0); [|congruence].
  rewrite last_insert in H; [congruence|]. by intros ->.
Qed.

Lemma complete_status clk m : status (completeAssistantMessage clk m) = Some COMPLETE.
Proof. unfold completeAssistantMessage, completeAssistantTiming. by destruct (negb _). Qed.

Lemma has_status_eq s m : status m = Some s -> forall s', has_status s' m = bool_decide (s = s').
Proof. intros H s'. unfold has_status. rewrite H. apply bool_decide_ext. split; congruence. Qed.

Lemma complete_final clk m :
  isAssistantMessageFinal (completeAssistantMessage clk m) = true /\
  isAssistantMessagePending (completeAssistantMessage clk m) = false.
Proof.
  unfold isAssistantMessageFinal, isAssistantMessagePending.
  by rewrite !(has_status_eq COMPLETE _ (complete_status clk m)).
Qed.

Lemma error_final now m e code title :
  let f m := completeAssistantTiming (with_errorCode code (with_reasoningStreaming false
    (with_status ERROR (updateCurrentVersionContent m (title ++ js ": " ++ e))))) now in
  isAssistantMessageFinal (f m) = true.
Proof. simpl. unfold completeAssistantTiming. by destruct (negb _). Qed.

(** C27: stopping ends the generation: once the queued updates have run the page
    is not generating and the last answer is not pending, whatever was in
    progress. *)
Theorem stop_ends ms es clk :
  let ch := drain clk (step t (run t es (initial ms)) EvStop) in
  isGenerating ch = false /\ queue ch.2 = [] /\
  forall m, last (messages ch.2) = Some m -> is_assistant m = true -> isAssistantMessagePending m = false.
Proof.
  destruct (run t es (initial ms)) as [c h]. rewrite drain_eq. cbn [step fst snd]. unfold stopGeneration.
  set (h1 := set_requesting false _). cbn [fst snd].
  split_and!; [|done|].
  - unfold isGenerating, stop, cancel. simpl. done.
  - cbn [messages queue onMessageUpdate set_messages requestGeneration]. unfold run_all. rewrite fold_left_app.
    cbn [fold_left run_updater]. set (ms1 := fold_left _ _ _).
    assert (requestGeneration h1 = S (requestGeneration h)) as ->.
    { subst h1. simpl. by destruct (abort_same (discardPendingStreamUpdates (S (requestGeneration h))
        (set_generation (S (requestGeneration h)) (flushStreamUpdates (requestGeneration h) h)))) as (-> & _). }
    rewrite neqb_refl. intros m (m0 & Hm0 & ->)%update_last_result Ha.
    destruct (is_assistant m0) eqn:E0; [|by rewrite E0 in Ha].
    destruct (isAssistantMessagePending m0) eqn:Ep; [apply complete_final|done].
Qed.

(** The text that was received but not yet flushed when the user stops is
    not in the answer: the update that would have shown it is discarded with
    the generation it belongs to. *)
Theorem stop_discards_batch ms es clk :
  let ch := run t es (initial ms) in
  queue ch.2 = [] ->
  messages (drain clk (step t ch EvStop)).2 =
  updateLastAssistantMessage (messages ch.2) (fun m =>
    if isAssistantMessagePending m then completeAssistantMessage clk m else m).
Proof.
  intros ch Hq. pose proof (reachable_ok t ch (reachable_run t es _ (reach_init t ms))) as Hok.
  rewrite drain_slot. destruct (step_simulates t ch EvStop Hok) as [_ ->].
  destruct ch as [c h]. cbn [view slot_step]. unfold slot_of. simpl in *. by rewrite Hq.
Qed.
(** A source whose listeners act has the slot. *)
Lemma listening_slot c h i s :
  machine_ok (c, h) -> listening c i = Some s ->
  c_source c = Some i /\ phase (slot_of (c, h)) = Open (s_payload s) false.
Proof.
  intros Hok Hl. assert (Hi : c_source c = Some i).
  { destruct (decide (c_source c = Some i)); [done|]. by rewrite listening_stale in Hl. }
  split; [done|]. destruct (source_slot c h i Hok Hi) as (s' & _ & _ & Hl' & Hp & _). rewrite slot_phase, Hp.
  rewrite Hl in Hl'. by destruct (s_completed s'); simplify_eq.
Qed.

Lemma flush_flags s : requesting (flush s) = requesting s /\ streaming (flush s) = streaming s /\ shown (flush s) = shown s.
Proof. unfold flush. by destruct (_ && _). Qed.

(** When the stream of the request in progress says that it is done, the
    page stops generating and, once the queued updates have run, the last
    answer is final. *)
Theorem done_ends ms es clk i s :
  let ch := run t es (initial ms) in
  listening ch.1 i = Some s ->
  let ch' := drain clk (step t ch (EvMessage i (Some STREAM_DONE_MESSAGE))) in
  isGenerating ch' = false /\
  forall m, last (messages ch'.2) = Some m -> is_assistant m = true -> isAssistantMessageFinal m = true.
Proof.
  intros ch Hl. pose proof (reachable_ok t ch (reachable_run t es _ (reach_init t ms))) as Hok.
  destruct (step_simulates t ch (EvMessage i (Some STREAM_DONE_MESSAGE)) Hok) as [_ Hs].
  destruct ch as [c h]. cbn [fst] in Hl. destruct (listening_slot c h i s Hok Hl) as [Hi Hp].
  cbn [view] in Hs. rewrite bool_decide_eq_true_2 in Hs by done. unfold slot_step in Hs. rewrite Hp in Hs.
  change (isStreamDoneMessage _) with true in Hs. cbn iota in Hs.
  set (ch1 := step t (c, h) _) in *. cbv zeta. split.
  - rewrite drain_eq. unfold isGenerating. cbn [fst snd isRequesting set_messages].
    change (isStreaming ch1.1 || isRequesting ch1.2 = false).
    apply (f_equal (fun s => streaming s || requesting s)) in Hs. by destruct ch1.
  - rewrite drain_slot, Hs. unfold post. cbn [updates shown set_updates set_flags].
    rewrite fold_left_app. cbn [fold_left apply_update].
    intros m (m0 & Hm0 & ->)%update_last_result Ha.
    destruct (is_assistant m0) eqn:E0; [|by rewrite E0 in Ha].
    destruct (isAssistantMessageFinal m0) eqn:Ef; [done|]. by apply complete_final.
Qed.
End Ends.

(** * The text of a stream *)

Section Text.
Context (t : jstr -> jstr).

(** A chunk of content, as an event of the stream. *)
Definition delta_data (d : jstr) (data : option jstr) : Prop :=
  truthy d = true /\ isStreamDoneMessage (data ?? []) = false /\
  parseStreamMessageUpdates (data ?? []) = Some [Update content_chunk (JStr d)].

(** No run of chunks begins with the run before it: then every chunk is taken
    for new text. *)
Definition independent (ds : list jstr) : Prop :=
  forall l1 l2 l3 l4, ds = l1 ++ l2 ++ l3 ++ l4 -> concat l2 <> [] -> concat l3 <> [] ->
  starts_with (concat l2) (concat l3) = false.

(** The events of one stream while it delivers: chunks, the timer, React. *)
Inductive delivers (i : nat) : list event -> list jstr -> Prop :=
| del_nil : delivers i [] []
| del_chunk d data es ds : delta_data d data -> delivers i es ds -> delivers i (EvMessage i data :: es) (d :: ds)
| del_timer es ds : delivers i es ds -> delivers i (EvTimer :: es) ds
| del_run clk es ds : delivers i es ds -> delivers i (EvRun clk :: es) ds.

(** A pending answer without reasoning. *)
Definition plain_answer (m : Message) (text : jstr) : Prop :=
  is_assistant m = true /\ isAssistantMessagePending m = true /\ reasoning m = None /\ getMessageContent m = text.

(** The text so far is shown, queued or in the batch. *)
Definition text_so_far (p : ChatCompletionRequest) (ds : list jstr) (s : Slot) : Prop :=
  exists d0 dq db m,
    ds = d0 ++ concat dq ++ db /\ phase s = Open p false /\ buffer_reasoning s = [] /\
    buffer_content s = concat db /\ updates s = List.map (fun l => UChunks [] (concat l)) dq /\
    Forall (fun l => concat l <> []) dq /\ last (shown s) = Some m /\ plain_answer m (concat d0).

Lemma includes_app_l p u v : includes p (u ++ v) = false -> includes p u = false.
Proof.
  intros H. destruct (includes p u) eqn:E; [|done]. apply includes_true in E as (a & b & ->).
  assert (includes p ((a ++ p ++ b) ++ v) = true) as H'; [|congruence].
  apply includes_true. exists a, (b ++ v). by rewrite <-!app_assoc.
Qed.

Lemma update_content m text : getMessageContent (updateCurrentVersionContent m text) = text.
Proof. reflexivity. Qed.

Lemma plain_chunk clk m text c :
  plain_answer m text -> truthy c = true -> (text <> [] -> starts_with text c = false) ->
  includes think_open (text ++ c) = false ->
  plain_answer (applyStreamingChunk clk m content_chunk c) (text ++ c).
Proof.
  intros (Ha & Hp & Hr & Hc) Ht Hs Hn. unfold applyStreamingChunk.
  assert (has_status ERROR m = false) as ->.
  { unfold isAssistantMessagePending, has_status in *. destruct (status m) as [[]|]; done. }
  unfold getAppendableChunk. rewrite Hc.
  assert (negb (truthy text) || negb (starts_with text c) = true) as ->.
  { destruct text; [done|]. by rewrite Hs. }
  unfold processStreamingContent. rewrite Hc, Ht, Hr, Hn. cbn [is_some negb andb isReasoningStreaming
    with_reasoningStreaming nullish]. unfold completeReasoningTiming. simpl. rewrite Hr. done.
Qed.

Lemma plain_complete clk m text :
  plain_answer m text -> includes think_open text = false ->
  let m' := completeAssistantMessage clk m in
  getMessageContent m' = text /\ status m' = Some COMPLETE.
Proof.
  intros (Ha & Hp & Hr & Hc) Hn. split; [|apply complete_status].
  unfold completeAssistantMessage, finalizeMessage. rewrite Hc, Hn. cbn [opt_truthy nullish truthy]. rewrite Hr. simpl.
  unfold completeAssistantTiming. by destruct (negb _).
Qed.

Lemma plain_final m text : plain_answer m text -> isAssistantMessageFinal m = false.
Proof.
  intros (_ & H & _). unfold isAssistantMessagePending, isAssistantMessageFinal, has_status in *.
  by destruct (status m) as [[]|].
Qed.

Section Stream.
Context (all : list jstr) (Hind : independent all) (Hthink : includes think_open (concat all) = false).

(** What a run of chunks is to the text before it. *)
Lemma next_text l1 l2 l3 :
  all = l1 ++ l2 ++ l3 -> concat l2 <> [] -> concat l1 <> [] -> starts_with (concat l1) (concat l2) = false.
Proof. intros E H2 H1. by apply (Hind [] l1 l2 l3). Qed.

Lemma no_think l1 l2 : all = l1 ++ l2 -> includes think_open (concat l1) = false.
Proof. intros E. rewrite E, concat_app in Hthink. by eapply includes_app_l. Qed.

Lemma truthy_ne s : truthy s = true <-> s <> [].
Proof. by destruct s. Qed.

Lemma shown_chunk clk d0 l rest ms m :
  all = d0 ++ l ++ rest -> concat l <> [] -> last ms = Some m -> plain_answer m (concat d0) ->
  exists m', last (apply_update clk (UChunks [] (concat l)) ms) = Some m' /\ plain_answer m' (concat (d0 ++ l)).
Proof.
  intros E Hl Hm Hp. cbn [apply_update]. rewrite (update_last _ _ m) by done.
  pose proof Hp as (Ha & _). rewrite Ha. rewrite last_insert by (by intros ->).
  eexists; split; [done|]. unfold apply_chunks. cbn [truthy]. rewrite (proj2 (truthy_ne _) Hl), concat_app.
  apply plain_chunk; [done|by apply truthy_ne| |].
  - intros H0. by eapply next_text.
  - rewrite <-concat_app. apply (no_think _ rest). by rewrite <-app_assoc.
Qed.

(** All the queued chunks. *)
Lemma shown_chunks clk dq : forall d0 rest ms m,
  all = d0 ++ concat dq ++ rest -> Forall (fun l => concat l <> []) dq -> last ms = Some m ->
  plain_answer m (concat d0) ->
  exists m', last (fold_left (fun ms u => apply_update clk u ms) (List.map (fun l => UChunks [] (concat l)) dq) ms) = Some m' /\
    plain_answer m' (concat (d0 ++ concat dq)).
Proof.
  induction dq as [|l dq IH]; intros d0 rest ms m E Hq Hm Hp; [exists m; by rewrite app_nil_r|].
  apply Forall_cons in Hq as [Hl Hq]. cbn [List.map fold_left concat].
  destruct (shown_chunk clk d0 l (concat dq ++ rest) ms m) as (m' & Hm' & Hp'); [by rewrite E; simpl; rewrite <-!app_assoc|done..|].
  rewrite app_assoc. apply (IH (d0 ++ l) rest _ m'); [|done..]. rewrite E. simpl. by rewrite <-!app_assoc.
Qed.

Lemma flush_text p ds s : text_so_far p ds s -> text_so_far p ds (flush s).
Proof.
  intros (d0 & dq & db & m & E & Hp & Hr & Hb & Hu & Hq & Hm & Ha). unfold flush. rewrite Hr, Hb. cbn [truthy negb andb].
  destruct (truthy (concat db)) eqn:Et; cbn [negb].
  - exists d0, (dq ++ [db]), [], m. cbn [phase buffer_reasoning buffer_content updates shown post set_updates set_buffers].
    split_and!; try done.
    + by rewrite E, concat_app, app_nil_r; simpl; rewrite app_nil_r.
    + by rewrite Hu, map_app.
    + apply Forall_app; split; [done|]. constructor; [by apply truthy_ne|constructor].
  - exists d0, dq, db, m. done.
Qed.

Lemma receive_text p ds d rest s :
  text_so_far p ds s -> all = ds ++ d :: rest -> truthy d = true ->
  exists s', receive content_chunk (JStr d) s = (s', false) /\ text_so_far p (ds ++ [d]) s'.
Proof.
  intros (d0 & dq & db & m & E & Hp & Hr & Hb & Hu & Hq & Hm & Ha) Eall Hd. unfold receive, mergePendingStreamChunk.
  rewrite Hb. assert (Hmerge : (if negb (truthy (concat db)) then Some (jv_to_string (JStr d))
    else Some (if starts_with (concat db) d then d else concat db ++ d)) = Some (concat (db ++ [d]))).
  { rewrite concat_app. simpl. rewrite app_nil_r. destruct (concat db) eqn:Edb; [done|]. rewrite <-Edb. cbn [truthy negb].
    assert (Hne : concat db <> []) by congruence. apply truthy_ne in Hne. rewrite Hne. cbn [negb].
    assert (starts_with (concat db) d = false) as ->; [|done].
    pose proof (Hind (d0 ++ concat dq) db [d] rest) as Hi. simpl in Hi. rewrite app_nil_r in Hi.
    apply Hi; [by rewrite Eall, E, <-!app_assoc|by apply truthy_ne|by apply truthy_ne]. }
  cbv iota. rewrite Hmerge. eexists; split; [done|].
  exists d0, dq, (db ++ [d]), m; split_and!; try done; by rewrite E, <-!app_assoc.
Qed.

Lemma close_source_kept i c : c_source (closeActiveSource i c) = c_source c \/ c_source (closeActiveSource i c) = None.
Proof. unfold closeActiveSource. case_bool_decide; [by right|by left]. Qed.

Lemma error_source_kept i e code ch :
  c_source (handleError t i e code ch).1 = c_source ch.1 \/ c_source (handleError t i e code ch).1 = None.
Proof.
  destruct ch as [c h]. unfold handleError. destruct (listening c i); [|by left].
  destruct (handleStreamError _ _ _ _ _) as [h' []]; [by left|]. apply (close_source_kept i (complete_source i c)).
Qed.

Lemma message_source_kept i data ch :
  c_source (on_message t i data ch).1 = c_source ch.1 \/ c_source (on_message t i data ch).1 = None.
Proof.
  destruct ch as [c h]. unfold on_message. destruct (listening c i); [|by left].
  destruct (isStreamDoneMessage _); [apply (close_source_kept i (complete_source i c))|].
  destruct (parseStreamMessageUpdates _); [|apply error_source_kept].
  destruct (apply_updates _ _ _) as [h' []]; [apply (error_source_kept i _ _ (c, h'))|by left].
Qed.

Lemma open_source c h p b : phase (slot_of (c, h)) = Open p b -> c_source c <> None.
Proof.
  rewrite slot_phase. unfold phase_of, current_source. intros H E. rewrite E in H.
  destruct (find_waiting _ c); [done|]. by destruct (current_posted h).
Qed.

Lemma text_phase p ds s : text_so_far p ds s -> phase s = Open p false.
Proof. by intros (? & ? & ? & ? & _ & ? & _). Qed.

(** One chunk. *)
Lemma message_text i d data ch p before rest :
  machine_ok ch -> text_so_far p before (slot_of ch) -> c_source ch.1 = Some i -> delta_data d data ->
  all = before ++ d :: rest ->
  text_so_far p (before ++ [d]) (slot_of (step t ch (EvMessage i data))) /\
  c_source (step t ch (EvMessage i data)).1 = Some i.
Proof.
  intros Hok Ht Hi (Hd & Hdone & Hparse) E. destruct (step_simulates t ch (EvMessage i data) Hok) as [_ Hs].
  destruct (receive_text p before d rest (slot_of ch) Ht E Hd) as (s' & Hr & Ht').
  pose proof (text_phase _ _ _ Ht) as Hph. destruct ch as [c h]. cbn [fst view] in *.
  rewrite bool_decide_eq_true_2 in Hs by done. unfold slot_step in Hs. rewrite Hph, Hdone, Hparse in Hs.
  cbn [receive_all up_type up_chunk] in Hs. rewrite Hr in Hs. cbn iota in Hs. rewrite <-Hs in Ht'. split; [done|].
  destruct (message_source_kept i data (c, h)) as [H|H]; cbn [fst] in H; [cbn [step]; congruence|].
  apply text_phase in Ht'. cbn [step] in *. destruct (on_message t i data (c, h)) as [c' h']. cbn [fst] in *.
  by apply open_source in Ht'.
Qed.

(** The timer, and React. *)
Lemma timer_text ch p before :
  machine_ok ch -> text_so_far p before (slot_of ch) -> text_so_far p before (slot_of (step t ch EvTimer)).
Proof.
  intros Hok Ht. destruct (step_simulates t ch EvTimer Hok) as [_ Hs]. destruct ch as [c h]. cbn [view] in Hs.
  rewrite Hs. unfold slot_step. destruct (armed _); [by apply flush_text|done].
Qed.

Lemma chunks_run_text clk ch p before rest :
  machine_ok ch -> text_so_far p before (slot_of ch) -> all = before ++ rest ->
  text_so_far p before (slot_of (step t ch (EvRun clk))).
Proof.
  intros Hok Ht E. destruct (step_simulates t ch (EvRun clk) Hok) as [_ Hs]. rewrite Hs.
  destruct (view ch (EvRun clk)) as [r|] eqn:Ev; [|done].
  assert (r = RqRun clk) as ->.
  { destruct ch as [c h]. simpl in Ev. destruct (queue h); [done|]. by destruct (is_some _); simplify_eq. }
  destruct Ht as (d0 & dq & db & m & Ed & Hp & Hr & Hb & Hu & Hq & Hm & Ha). unfold slot_step. rewrite Hu.
  destruct dq as [|l dq]; [by exists d0, [], db, m|]. cbn [List.map].
  apply Forall_cons in Hq as [Hl Hq].
  destruct (shown_chunk clk d0 l (concat dq ++ db ++ rest) (shown (slot_of ch)) m) as (m' & Hm' & Ha'); try done.
  { rewrite E, Ed. simpl. by rewrite <-!app_assoc. }
  exists (d0 ++ l), dq, db, m'. split_and!; try done. rewrite Ed. simpl. by rewrite <-!app_assoc.
Qed.

(** Every event the stream delivers keeps the text together. *)
Lemma delivers_text i es ds : delivers i es ds ->
  forall ch p before rest, machine_ok ch -> text_so_far p before (slot_of ch) -> c_source ch.1 = Some i ->
  all = before ++ ds ++ rest ->
  machine_ok (run t es ch) /\ text_so_far p (before ++ ds) (slot_of (run t es ch)) /\
  c_source (run t es ch).1 = Some i.
Proof.
  induction 1 as [|d data es ds Hd _ IH|es ds _ IH|clk es ds _ IH];
    intros ch p before rest Hok Ht Hi E; [by rewrite app_nil_r|..];
    match goal with |- context [run t (?e :: _) _] =>
      assert (Hok1 : machine_ok (step t ch e)) by (by apply step_simulates) end.
  - destruct (message_text i d data ch p before (ds ++ rest) Hok Ht Hi Hd E) as [Ht1 Hi1].
    destruct (IH _ p (before ++ [d]) rest Hok1 Ht1 Hi1) as (H1 & H2 & H3); [by rewrite E, <-!app_assoc|].
    split_and!; try done. by rewrite <-app_assoc in H2.
  - apply (IH _ p before rest Hok1); [by apply timer_text|done|done].
  - apply (IH _ p before rest Hok1); [by apply (chunks_run_text clk ch p before (ds ++ rest))|done|done].
Qed.
End Stream.

Lemma flush_empty s : buffer_content (flush s) = [].
Proof. unfold flush. destruct (truthy (buffer_reasoning s)), (buffer_content s) eqn:E; simpl; rewrite ?E; done. Qed.

(** C16: the text of a streamed answer: however the chunks, the timer that
    flushes them and the updates React runs interleave, once the stream is done
    the answer is the concatenation of the chunks and is complete, when no run
    of chunks begins with the run before it and nothing opens a think tag. *)
Theorem stream_text ms es0 i s m0 es ds clk :
  let ch := run t es0 (initial ms) in
  listening ch.1 i = Some s -> queue ch.2 = [] -> pending ch.2 = Pending (requestGeneration ch.2) [] [] ->
  last (messages ch.2) = Some m0 -> plain_answer m0 [] ->
  delivers i es ds -> independent ds -> includes think_open (concat ds) = false ->
  let ch' := drain t clk (run t (es ++ [EvMessage i (Some STREAM_DONE_MESSAGE)]) ch) in
  exists m, last (messages ch'.2) = Some m /\ getMessageContent m = concat ds /\ status m = Some COMPLETE.
Proof.
  intros ch Hl Hq Hb Hm Ha Hdel Hind Hth. pose proof (reachable_ok t ch (reachable_run t es0 _ (reach_init t ms))) as Hok.
  destruct ch as [c h]. cbn [fst snd] in *. destruct (listening_slot c h i s Hok Hl) as [Hi Hp].
  assert (Ht : text_so_far (s_payload s) [] (slot_of (c, h))).
  { exists [], [], [], m0. unfold slot_of, buffered in *. simpl. rewrite Hq, Hb. simpl. rewrite neqb_refl. done. }
  destruct (delivers_text ds Hind Hth i es ds Hdel (c, h) _ [] [] Hok Ht Hi) as (Hok1 & Ht1 & Hi1);
    [by rewrite app_nil_r|].
  unfold run. rewrite fold_left_app. cbn [fold_left]. fold (run t es (c, h)).
  set (ch1 := run t es (c, h)) in *. rewrite drain_slot.
  destruct (step_simulates t ch1 (EvMessage i (Some STREAM_DONE_MESSAGE)) Hok1) as [_ ->].
  pose proof (text_phase _ _ _ Ht1) as Hp1. apply flush_text in Ht1.
  destruct Ht1 as (d0 & dq & db & m & Ed & _ & Hr & Hbc & Hu & Hne & Hm1 & Ha1).
  destruct ch1 as [c1 h1]. cbn [view fst] in *. rewrite bool_decide_eq_true_2 by done. unfold slot_step. rewrite Hp1.
  change (isStreamDoneMessage _) with true. cbv iota. cbn [post set_updates set_flags updates shown].
  assert (Hf : forall s, updates (flush (set_phase Idle s)) = updates (flush s) /\
    shown (flush (set_phase Idle s)) = shown (flush s)) by (intros s'; unfold flush; simpl; by destruct (_ && _)).
  destruct (Hf (slot_of (c1, h1))) as [-> ->]. rewrite Hu, fold_left_app.
  destruct (shown_chunks ds Hind Hth clk dq d0 db (shown (flush (slot_of (c1, h1)))) m) as (m1 & Hm1' & Ha1');
    [by rewrite <-Ed|done..|].
  cbn [fold_left apply_update]. rewrite (update_last _ _ m1) by done. pose proof Ha1' as (Has & _). rewrite Has.
  rewrite (plain_final m1 _ Ha1'). eexists. split; [apply last_insert; intros E; by rewrite E in Hm1'|].
  assert (Htext : concat (d0 ++ concat dq) = concat ds).
  { cbn [app] in Ed. rewrite Ed, !concat_app, <-Hbc, flush_empty, app_nil_r. done. }
  rewrite Htext in Ha1'. by apply plain_complete.
Qed.
End Text.

(** * A concrete run *)

Definition demo_clock : clock := fun _ => num_of_Z 1700000000000.
Definition demo_messages : list Message :=
  appendUserMessagePair (demo_clock 0) (Ids (js "k1") (js "v1") (js "k2") (js "v2")) [] (js "hi").

(** A message is sent, the headers arrive, the stream is open. *)
Definition demo_open : list event :=
  [EvUpdate (SetMessages demo_messages); EvSend demo_messages DEFAULT_CONFIG DEFAULT_PARAMETER_ENABLED;
   EvRun demo_clock; EvHeaders 1 false].

Definition demo_chunk (text : jstr) : option jstr :=
  Some (jq "{`choices`:[{`delta`:{`content`:`" ++ text ++ jq "`}}]}").

Definition demo_stream : list event :=
  [EvMessage 0 (demo_chunk (js "Hel")); EvTimer; EvMessage 0 (demo_chunk (js "lo")); EvRun demo_clock].

Definition demo_source : StreamSource :=
  MkStream 1 1 (buildChatCompletionPayload demo_messages DEFAULT_CONFIG DEFAULT_PARAMETER_ENABLED) false false.

Definition same_text : jstr -> jstr := fun s => s.

Lemma stream_text_witness :
  exists m,
    last (messages (drain same_text demo_clock
      (run same_text (demo_stream ++ [EvMessage 0 (Some STREAM_DONE_MESSAGE)])
        (run same_text demo_open (initial [])))).2) = Some m /\
    getMessageContent m = js "Hello" /\ status m = Some COMPLETE.
Proof.
  apply (stream_text same_text [] demo_open 0 demo_source
    (createLoadingAssistantMessage (js "k2") (js "v2") (demo_clock 0)) demo_stream [js "Hel"; js "lo"] demo_clock).
  - vm_compute. reflexivity.
  - vm_compute. reflexivity.
  - vm_compute. reflexivity.
  - vm_compute. reflexivity.
  - vm_compute. split_and!; reflexivity.
  - unfold demo_stream. apply del_chunk; [split_and!; vm_compute; reflexivity|]. apply del_timer.
    apply del_chunk; [split_and!; vm_compute; reflexivity|]. apply del_run, del_nil.
  - intros l1 l2 l3 l4 E H2 H3. destruct l2 as [|a l2]; [by destruct H2|]. destruct l3 as [|b l3]; [by destruct H3|].
    destruct l1 as [|x [|y l1]]; [|exfalso; destruct l2; simplify_eq/=; by destruct l2|
      exfalso; destruct l1 as [|z l1]; simplify_eq/=].
    destruct l2 as [|c l2]; simplify_eq/=.
    + vm_compute. reflexivity.
    + by destruct l2.
  - vm_compute. reflexivity.
Defined.

Lemma done_ends_witness :
  isGenerating (drain same_text demo_clock (run same_text (demo_open ++ [EvMessage 0 (Some STREAM_DONE_MESSAGE)]) (initial []))) = false.
Proof.
  unfold run. rewrite fold_left_app.
  apply (done_ends same_text [] demo_open demo_clock 0 demo_source). vm_compute. reflexivity.
Defined.

(** After a second message was sent the stream of the first is silent. *)
Lemma superseded_silent_witness :
  let ch := run same_text demo_open (initial []) in
  let e := EvSend demo_messages DEFAULT_CONFIG DEFAULT_PARAMETER_ENABLED in
  step same_text (run same_text [EvHeaders 2 false; EvTimer] (step same_text ch e)) (EvMessage 0 (demo_chunk (js "late"))) =
  run same_text [EvHeaders 2 false; EvTimer] (step same_text ch e).
Proof. apply (superseded_silent same_text _ _ _ 0); vm_compute; [reflexivity|lia|reflexivity]. Defined.

(** The chunk is in the batch when the user stops; it is not in the answer. *)
Lemma stop_discards_batch_witness :
  let ch := run same_text (demo_open ++ [EvMessage 0 (demo_chunk (js "Hello"))]) (initial []) in
  p_content (pending ch.2) = js "Hello" /\
  List.map getMessageContent (messages (drain same_text demo_clock (step same_text ch EvStop)).2) = [js "hi"; []].
Proof.
  split; [vm_compute; reflexivity|]. rewrite stop_discards_batch; vm_compute; reflexivity.
Defined.

(** Two equal chunks: the second is taken for a copy of the first. *)
Example repeated_chunk_lost :
  List.map getMessageContent
    (messages (drain same_text demo_clock
      (run same_text (demo_open ++ [EvMessage 0 (demo_chunk (js "ha")); EvMessage 0 (demo_chunk (js "ha"));
                                    EvMessage 0 (Some STREAM_DONE_MESSAGE)]) (initial []))).2) =
  [js "hi"; js "ha"].
Proof. vm_compute. reflexivity. Qed.
