(* ===== verification/PlaygroundStore.v ===== *)
(** What the web playground keeps in the browser
    (web/src/features/playground/lib/storage, lib/state and
    hooks/use-playground-state.ts): the stored configuration and messages, what
    loading makes of them, and the delayed saving of the messages.

    The browser storage and the schema library are classes of operations with
    their documented laws; both have an instance for concrete inputs. *)

From Stdlib Require Import NArith ZArith Lia ZifyBool ZifyN.
From Stdlib Require Import SpecFloat.
From stdpp Require Import base list gmap strings.
From S2P Require Import Prelude JsString JsNum Json Regex Playground PlaygroundRequest.

(** * The browser storage *)

(** [None] is an exception, which leaves the storage as it was; [getItem] of a
    key that is not stored is [Some None]. *)
Class LocalStorage (D : Type) := {
  getItem : jstr -> D -> option (option jstr);
  setItem : jstr -> jstr -> D -> option D;
  removeItem : jstr -> D -> option D
}.

Class LocalStorageLaws (D : Type) `{LocalStorage D} := {
  get_set_item k v d d' : setItem k v d = Some d' -> getItem k d' = Some (Some v);
  get_set_item_other k k' v d d' : k <> k' -> setItem k v d = Some d' -> getItem k' d' = getItem k' d;
  get_remove_item k d d' : removeItem k d = Some d' -> getItem k d' = Some None;
  get_remove_item_other k k' d d' : k <> k' -> removeItem k d = Some d' -> getItem k' d' = getItem k' d
}.

(** A storage that works, with room for [quota] units in one value. *)
Record Browser := MkBrowser { items : list (jstr * jstr); quota : N }.

#[export] Instance browser_storage : LocalStorage Browser := {
  getItem k d := Some (map_get k (items d));
  setItem k v d := if (N.of_nat (length v) <=? quota d)%N then Some (MkBrowser (map_set k v (items d)) (quota d)) else None;
  removeItem k d := Some (MkBrowser (List.filter (fun e => negb (bool_decide (e.1 = k))) (items d)) (quota d))
}.

(** * Schemas (lib/storage/storage-schema.ts) *)

Inductive schema :=
| ZString | ZNumber | ZBoolean
| ZEnum (members : list jstr)
| ZArray (s : schema) (min : nat)
| ZObject (fields : list (jstr * schema))
| ZOptional (s : schema)
| ZNullable (s : schema).

(** [schema.parse(v)]; [None] throws. *)
Class Zod := { zparse : schema -> jv -> option jv }.

(** The properties a schema found, those that are undefined left out. *)
Definition kept (vs : list (jstr * jv)) : list (jstr * jv) :=
  List.filter (fun e => match e.2 with JUndef => false | _ => true end) vs.

(** What the library documents of the schemas used here. An object loses the
    properties the schema does not name. Infinite numbers and objects that are
    arrays are left open. *)
Class ZodLaws `{Zod} := {
  z_string v : zparse ZString v = match v with JStr _ => Some v | _ => None end;
  z_number x : num_is_finite x = true -> zparse ZNumber (JNum x) = Some (JNum x);
  z_number_nan : zparse ZNumber (JNum S754_nan) = None;
  z_number_other v : (forall x, v <> JNum x) -> zparse ZNumber v = None;
  z_boolean v : zparse ZBoolean v = match v with JBool _ => Some v | _ => None end;
  z_enum ms v :
    zparse (ZEnum ms) v = match v with JStr s => if bool_decide (s ∈ ms) then Some v else None | _ => None end;
  z_array s mn l :
    zparse (ZArray s mn) (JArr l) = if Nat.ltb (length l) mn then None else JArr <$> mapM (zparse s) l;
  z_array_other s mn v : is_array v = false -> zparse (ZArray s mn) v = None;
  z_object fs l :
    zparse (ZObject fs) (JObj l) =
      (fun vs => JObj (kept vs)) <$> mapM (fun f => (fun v => (f.1, v)) <$> zparse f.2 (jv_get (JObj l) f.1)) fs;
  z_object_other fs v : is_object v = false \/ v = JNull -> zparse (ZObject fs) v = None;
  z_optional s v : zparse (ZOptional s) v = match v with JUndef => Some JUndef | _ => zparse s v end;
  z_nullable s v : zparse (ZNullable s) v = match v with JNull => Some JNull | _ => zparse s v end
}.

(** A library that does what the laws say. *)
Fixpoint zod_value (s : schema) (v : jv) : option jv :=
  match s with
  | ZString => match v with JStr _ => Some v | _ => None end
  | ZNumber => match v with JNum x => if num_is_finite x then Some v else None | _ => None end
  | ZBoolean => match v with JBool _ => Some v | _ => None end
  | ZEnum ms => match v with JStr s => if bool_decide (s ∈ ms) then Some v else None | _ => None end
  | ZArray s mn =>
      match v with
      | JArr l => if Nat.ltb (length l) mn then None else JArr <$> mapM (zod_value s) l
      | _ => None
      end
  | ZObject fs =>
      match v with
      | JObj l =>
          (fun vs => JObj (kept vs)) <$>
            (fix fields (fs : list (jstr * schema)) : option (list (jstr * jv)) :=
               match fs with
               | [] => Some []
               | (k, s) :: fs =>
                   match zod_value s (jv_get (JObj l) k), fields fs with
                   | Some v, Some vs => Some ((k, v) :: vs)
                   | _, _ => None
                   end
               end) fs
      | _ => None
      end
  | ZOptional s => match v with JUndef => Some JUndef | _ => zod_value s v end
  | ZNullable s => match v with JNull => Some JNull | _ => zod_value s v end
  end.

#[export] Instance zod_library : Zod := { zparse := zod_value }.

#[export] Instance zod_laws : ZodLaws.
Proof.
  split; try done; simpl.
  - intros x ->. done.
  - intros [] H; try done. by destruct (H x).
  - by intros s mn [].
  - intros fs l. f_equal. induction fs as [|[k s] fs IH]; [done|]. simpl. rewrite IH.
    destruct (zod_value s _); [|done]. simpl. by destruct (mapM _ fs).
  - intros fs v [H| ->]; [|done]. by destruct v.
Qed.

Definition STORAGE_VERSION : Z := 1.
Definition MAX_STORED_MESSAGES : nat := 100.
Definition MAX_STORED_MESSAGES_BYTES : N := 1048576.
Definition MAX_LOADED_MESSAGES_CHARS : N := 120000.
Definition MAX_LOADED_MESSAGE_CHARS : N := 40000.

Definition playgroundConfigSchema : schema := ZObject [
  (js "model", ZOptional ZString); (js "group", ZOptional ZString); (js "temperature", ZOptional ZNumber);
  (js "top_p", ZOptional ZNumber); (js "max_tokens", ZOptional ZNumber);
  (js "frequency_penalty", ZOptional ZNumber); (js "presence_penalty", ZOptional ZNumber);
  (js "seed", ZOptional (ZNullable ZNumber)); (js "stream", ZOptional ZBoolean)].

Definition parameterEnabledSchema : schema := ZObject [
  (js "temperature", ZOptional ZBoolean); (js "top_p", ZOptional ZBoolean); (js "max_tokens", ZOptional ZBoolean);
  (js "frequency_penalty", ZOptional ZBoolean); (js "presence_penalty", ZOptional ZBoolean);
  (js "seed", ZOptional ZBoolean)].

Definition messageRoleSchema : schema := ZEnum [js "user"; js "assistant"; js "system"].
Definition messageStatusSchema : schema := ZEnum [js "loading"; js "streaming"; js "complete"; js "error"].
Definition messageVersionSchema : schema := ZObject [(js "id", ZString); (js "content", ZString)].
Definition sourceSchema : schema := ZObject [(js "href", ZString); (js "title", ZString)].

Definition reasoningSchema : schema := ZObject [
  (js "content", ZString); (js "duration", ZNumber); (js "startedAt", ZOptional ZNumber);
  (js "completedAt", ZOptional ZNumber); (js "durationMs", ZOptional ZNumber)].

Definition messageSchema : schema := ZObject [
  (js "key", ZString); (js "from", messageRoleSchema); (js "versions", ZArray messageVersionSchema 1);
  (js "createdAt", ZOptional ZNumber); (js "startedAt", ZOptional ZNumber); (js "completedAt", ZOptional ZNumber);
  (js "durationMs", ZOptional ZNumber); (js "sources", ZOptional (ZArray sourceSchema 0));
  (js "reasoning", ZOptional reasoningSchema); (js "isReasoningStreaming", ZOptional ZBoolean);
  (js "isReasoningComplete", ZOptional ZBoolean); (js "isContentComplete", ZOptional ZBoolean);
  (js "status", ZOptional messageStatusSchema); (js "errorCode", ZOptional (ZNullable ZString))].

Definition messagesSchema : schema := ZArray messageSchema 0.

(** * Values as JavaScript objects *)

Definition opt_jv {A} (f : A -> jv) (o : option A) : jv := match o with Some x => f x | None => JUndef end.
Definition jv_object (fields : list (jstr * jv)) : jv := JObj (kept fields).

Definition role_text (r : MessageRole) : jstr :=
  match r with USER => js "user" | ASSISTANT => js "assistant" | SYSTEM => js "system" end.
Definition status_text (s : MessageStatus) : jstr :=
  match s with
  | LOADING => js "loading" | STREAMING => js "streaming" | COMPLETE => js "complete" | ERROR => js "error"
  end.

Definition jv_of_version (v : MessageVersion) : jv :=
  jv_object [(js "id", JStr (v_id v)); (js "content", JStr (v_content v))].

Definition jv_of_source (s : Source) : jv := jv_object [(js "href", JStr (href s)); (js "title", JStr (s_title s))].

Definition jv_of_reasoning (r : Reasoning) : jv :=
  jv_object [(js "content", JStr (r_content r)); (js "duration", JNum (r_duration r));
    (js "startedAt", opt_jv JNum (r_startedAt r)); (js "completedAt", opt_jv JNum (r_completedAt r));
    (js "durationMs", opt_jv JNum (r_durationMs r))].

Definition message_fields (m : Message) : list (jstr * jv) :=
  [(js "key", JStr (key m)); (js "from", JStr (role_text (from m)));
   (js "versions", JArr (List.map jv_of_version (versions m))); (js "createdAt", opt_jv JNum (createdAt m));
   (js "startedAt", opt_jv JNum (startedAt m)); (js "completedAt", opt_jv JNum (completedAt m));
   (js "durationMs", opt_jv JNum (durationMs m));
   (js "sources", opt_jv (fun l => JArr (List.map jv_of_source l)) (sources m));
   (js "reasoning", opt_jv jv_of_reasoning (reasoning m));
   (js "isReasoningStreaming", opt_jv JBool (isReasoningStreaming m));
   (js "isReasoningComplete", opt_jv JBool (isReasoningComplete m));
   (js "isContentComplete", opt_jv JBool (isContentComplete m));
   (js "status", opt_jv (fun s => JStr (status_text s)) (status m)); (js "errorCode", errorCode m)].

Definition jv_of_message (m : Message) : jv := jv_object (message_fields m).

(** [as Message\[\]]: the reading of a value the schema accepted. *)
Definition as_str (v : jv) : jstr := match v with JStr s => s | _ => [] end.
Definition as_num (v : jv) : num := match v with JNum x => x | _ => S754_nan end.
Definition as_opt {A} (f : jv -> A) (v : jv) : option A := match v with JUndef => None | _ => Some (f v) end.
Definition as_bool (v : jv) : bool := match v with JBool b => b | _ => false end.
Definition as_list {A} (f : jv -> A) (v : jv) : list A := match v with JArr l => List.map f l | _ => [] end.

Definition role_of (s : jstr) : MessageRole :=
  if (s =s js "user") then USER else if (s =s js "assistant") then ASSISTANT else SYSTEM.
Definition status_of (s : jstr) : MessageStatus :=
  if (s =s js "loading") then LOADING else if (s =s js "streaming") then STREAMING
  else if (s =s js "complete") then COMPLETE else ERROR.

Definition message_of_jv (v : jv) : Message :=
  let get k := jv_get v (js k) in
  MkMessage (as_str (get "key"%string)) (role_of (as_str (get "from"%string)))
    (as_list (fun w => Version (as_str (jv_get w (js "id"))) (as_str (jv_get w (js "content")))) (get "versions"%string))
    (as_opt as_num (get "createdAt"%string)) (as_opt as_num (get "startedAt"%string))
    (as_opt as_num (get "completedAt"%string)) (as_opt as_num (get "durationMs"%string))
    (as_opt (as_list (fun w => MkSource (as_str (jv_get w (js "href"))) (as_str (jv_get w (js "title"))))) (get "sources"%string))
    (as_opt (fun w => MkReasoning (as_str (jv_get w (js "content"))) (as_num (jv_get w (js "duration")))
       (as_opt as_num (jv_get w (js "startedAt"))) (as_opt as_num (jv_get w (js "completedAt")))
       (as_opt as_num (jv_get w (js "durationMs")))) (get "reasoning"%string))
    (as_opt as_bool (get "isReasoningStreaming"%string)) (as_opt as_bool (get "isReasoningComplete"%string))
    (as_opt as_bool (get "isContentComplete"%string)) (as_opt (fun w => status_of (as_str w)) (get "status"%string))
    (get "errorCode"%string).

(** * Loading and saving (lib/storage/storage.ts) *)

Definition CONFIG_KEY : jstr := js "playground_config".
Definition MESSAGES_KEY : jstr := js "playground_messages".
Definition PARAMETER_ENABLED_KEY : jstr := js "playground_parameter_enabled".

Definition TRUNCATED_CONTENT_SUFFIX : jstr := [10; 10]%N ++ js "[...]".
Definition MIN_PREFIX_COLLAPSE_LENGTH : N := 2000.
Definition MIN_REPEATED_SECTION_COUNT : nat := 3.

Definition jlen (s : jstr) : N := N.of_nat (length s).

(** [k in v] *)
Definition jv_has (v : jv) (k : jstr) : bool :=
  match v with JObj l => is_some (map_get k l) | _ => false end.

Definition unwrapStoredValue (value : jv) : jv :=
  if negb (jv_truthy value) || negb (is_object value) then value
  else if jv_has value (js "version") && jv_has value (js "data") then jv_get value (js "data")
  else value.

Definition trimMessages (ms : list Message) : list Message :=
  if Nat.leb (length ms) MAX_STORED_MESSAGES then ms else drop (length ms - MAX_STORED_MESSAGES) ms.

Definition getMessageSize (m : Message) : N :=
  (fold_left (fun total v => total + jlen (v_content v)) (versions m) 0 +
   match reasoning m with Some r => jlen (r_content r) | None => 0 end)%N.

Definition truncateText (text : jstr) (maxLength : N) : jstr :=
  if (jlen text <=? maxLength)%N then text
  else if (maxLength <=? jlen TRUNCATED_CONTENT_SUFFIX)%N then take (N.to_nat maxLength) text
  else take (N.to_nat (maxLength - jlen TRUNCATED_CONTENT_SUFFIX)) text ++ TRUNCATED_CONTENT_SUFFIX.

(** ** Repeated sections *)

Record SectionOccurrence := Occurrence { heading : jstr; index : nat }.

(** The body of [SECTION_HEADING_LINE_PATTERN]; its anchors match at the ends of
    lines. *)
Definition SECTION_HEADING_LINE_PATTERN : re :=
  RSeqs [RRep (RLit [35]%N) 2 (Some 6); RPlus RWs; RPlus RDigit; RLit [46]%N; RPlus RWs; RPlus RDot].

Definition at_line_start (p : option N) : bool := match p with Some c => is_line_end c | None => true end.
Definition at_line_end (s : jstr) : bool := match s with c :: _ => is_line_end c | [] => true end.

(** The length of the heading that begins here. *)
Definition heading_at (p : option N) (s : jstr) : option nat :=
  if at_line_start p then
    match m SECTION_HEADING_LINE_PATTERN (fun s' => if at_line_end (rest s') then Some s' else None) (St p s []) with
    | Some s' => Some (length s - length (rest s'))
    | None => None
    end
  else None.

Fixpoint section_loop (fuel : nat) (i : nat) (p : option N) (s : jstr) : list SectionOccurrence :=
  match fuel with
  | O => []
  | S f =>
      match heading_at p s with
      | Some n => Occurrence (take n s) i :: section_loop f (i + n) (last (take n s)) (drop n s)
      | None => match s with [] => [] | c :: t => section_loop f (S i) (Some c) t end
      end
  end.

Definition getSectionOccurrences (text : jstr) : list SectionOccurrence :=
  section_loop (S (length text)) 0 None text.

Definition getHeadingCounts (occurrences : list SectionOccurrence) : list (jstr * nat) :=
  fold_left (fun counts o => map_set (heading o) (S (map_get (heading o) counts ?? 0)) counts) occurrences [].

(** The loop, on the occurrences from the last to the first. *)
Fixpoint last_repeated (counts : list (jstr * nat)) (seen : list jstr) (occurrences : list SectionOccurrence) : list nat :=
  match occurrences with
  | [] => []
  | o :: rest =>
      let count := map_get (heading o) counts ?? 0 in
      if Nat.ltb count MIN_REPEATED_SECTION_COUNT || bool_decide (heading o ∈ seen)
      then last_repeated counts seen rest
      else index o :: last_repeated counts (heading o :: seen) rest
  end.

Definition findLastRepeatedSectionRunStart (text : jstr) : option nat :=
  let occurrences := getSectionOccurrences text in
  match last_repeated (getHeadingCounts occurrences) [] (reverse occurrences) with
  | [] => None
  | i :: more => Some (fold_left Nat.min more i)
  end.

Definition collapseRepeatedSectionSnapshots (text : jstr) : jstr :=
  if (jlen text <? MIN_PREFIX_COLLAPSE_LENGTH)%N then text
  else match findLastRepeatedSectionRunStart text with
       | None => text
       | Some i => drop i text
       end.

(** ** Loaded messages *)

Definition normalize_version (v : MessageVersion) : MessageVersion :=
  Version (v_id v) (truncateText (collapseRepeatedSectionSnapshots (v_content v)) MAX_LOADED_MESSAGE_CHARS).

Definition version_changed (v : MessageVersion) : bool :=
  let collapsedContent := collapseRepeatedSectionSnapshots (v_content v) in
  negb ((truncateText collapsedContent MAX_LOADED_MESSAGE_CHARS =s v_content v) && (collapsedContent =s v_content v)).

Definition truncate_reasoning (r : Reasoning) : Reasoning :=
  MkReasoning (truncateText (r_content r) MAX_LOADED_MESSAGE_CHARS) (r_duration r) (r_startedAt r) (r_completedAt r)
    (r_durationMs r).

(** The message, and whether it is another object than the one given. *)
Definition normalizeStoredMessageForLoad (clk : clock) (msg : Message) : Message * bool :=
  let changed := existsb version_changed (versions msg) ||
    match reasoning msg with
    | Some r => negb (truncateText (r_content r) MAX_LOADED_MESSAGE_CHARS =s r_content r)
    | None => false
    end in
  let normalized :=
    if changed then
      with_reasoning (match reasoning msg with Some r => Some (truncate_reasoning r) | None => None end)
        (with_versions (List.map (fun v => if version_changed v then normalize_version v else v) (versions msg)) msg)
    else msg in
  if negb (isAssistantMessagePending normalized) then (normalized, changed)
  else if negb (hasMessageContent normalized) && negb (trimmed_reasoning normalized) then (normalized, changed)
  else
    let completed :=
      completedAt normalized ??
      (match reasoning normalized with Some r => r_completedAt r | None => None end ??
      (startedAt normalized ?? (createdAt normalized ?? clk 0))) in
    (completeAssistantTiming
       (with_reasoningStreaming false (with_status COMPLETE (finalizeMessage (later 1 clk) normalized None))) completed,
     true).

(** The loop, on the messages from the last to the first; the kept ones in the
    order they are pushed. *)
Fixpoint keep_sized (count : nat) (totalSize : N) (ms : list Message) : list Message :=
  match ms with
  | [] => []
  | msg :: rest =>
      let messageSize := getMessageSize msg in
      if Nat.ltb 0 count && (MAX_LOADED_MESSAGES_CHARS <? totalSize + messageSize)%N then []
      else msg :: keep_sized (S count) (totalSize + messageSize) rest
  end.

Definition trimMessagesByContentSize (ms : list Message) : list Message :=
  reverse (keep_sized 0 0 (reverse ms)).

Section Storage.
Context {D : Type} `{LocalStorage D} `{Zod}.

(** The outer [None] throws. *)
Definition readStoredValue (k : jstr) (d : D) : option jv :=
  match getItem k d with
  | None => None
  | Some saved =>
      match opt_truthy saved with
      | None => Some JNull
      | Some s => json_parse s
      end
  end.

Definition readStoredMessagesValue (d : D) : option jv * D :=
  match getItem MESSAGES_KEY d with
  | None => (None, d)
  | Some saved =>
      match opt_truthy saved with
      | None => (Some JNull, d)
      | Some s =>
          if (MAX_STORED_MESSAGES_BYTES <? jlen s)%N then
            match removeItem MESSAGES_KEY d with
            | Some d' => (Some JNull, d')
            | None => (None, d)
            end
          else (json_parse s, d)
      end
  end.

Definition stored_text (data : jv) : jstr :=
  json_stringify (jv_object [(js "version", JNum (num_of_Z STORAGE_VERSION)); (js "data", data)]).

Definition writeStoredValue (k : jstr) (data : jv) (d : D) : option D := setItem k (stored_text data) d.

(** [try] around the schema and the write: a failure leaves the storage. *)
Definition save_value (k : jstr) (s : schema) (v : jv) (d : D) : D :=
  match zparse s v with
  | None => d
  | Some parsed => nullish (writeStoredValue k parsed d) d
  end.

Definition load_value (k : jstr) (s : schema) (d : D) : jv :=
  match readStoredValue k d with
  | None => JObj []
  | Some saved => if jv_truthy saved then nullish (zparse s (unwrapStoredValue saved)) (JObj []) else JObj []
  end.

Definition saveMessages (messages : list Message) (d : D) : D :=
  save_value MESSAGES_KEY messagesSchema (JArr (List.map jv_of_message (trimMessages messages))) d.

Definition loadMessages (t : jstr -> jstr) (clk : clock) (d : D) : option (list Message) * D :=
  let '(saved, d) := readStoredMessagesValue d in
  match saved with
  | None => (None, d)
  | Some saved =>
      if negb (jv_truthy saved) then (None, d)
      else
        match zparse messagesSchema (unwrapStoredValue saved) with
        | None => (None, d)
        | Some v =>
            let parsed := as_list message_of_jv v in
            let normalized := imap (fun i m => (normalizeStoredMessageForLoad (later (4 * i) clk) m).1) parsed in
            let trimmed := trimMessages normalized in
            let sizeTrimmed := trimMessagesByContentSize trimmed in
            let sanitized := sanitizeMessagesOnLoad t (later (4 * length parsed) clk) sizeTrimmed in
            (* [sizeTrimmed] is a new array, so the test always holds *)
            (Some sanitized, saveMessages sanitized d)
        end
  end.

(** A partial configuration is the object the schema accepts. *)
Definition loadConfig (d : D) : jv := load_value CONFIG_KEY playgroundConfigSchema d.
Definition saveConfig (config : jv) (d : D) : D := save_value CONFIG_KEY playgroundConfigSchema config d.
Definition loadParameterEnabled (d : D) : jv := load_value PARAMETER_ENABLED_KEY parameterEnabledSchema d.
Definition saveParameterEnabled (enabled : jv) (d : D) : D :=
  save_value PARAMETER_ENABLED_KEY parameterEnabledSchema enabled d.

(** The three removals in one [try]: the first that fails ends it. *)
Definition clearPlaygroundData (d : D) : D :=
  match removeItem CONFIG_KEY d with
  | None => d
  | Some d =>
      match removeItem PARAMETER_ENABLED_KEY d with
      | None => d
      | Some d => nullish (removeItem MESSAGES_KEY d) d
      end
  end.

(** * Initial state (lib/state/playground-state-utils.ts) *)

Definition jv_of_config (c : PlaygroundConfig) : jv :=
  jv_object [(js "model", JStr (model c)); (js "group", JStr (group c)); (js "temperature", JNum (temperature c));
    (js "top_p", JNum (top_p c)); (js "max_tokens", JNum (max_tokens c));
    (js "frequency_penalty", JNum (frequency_penalty c)); (js "presence_penalty", JNum (presence_penalty c));
    (js "seed", match seed c with Some x => JNum x | None => JNull end); (js "stream", JBool (stream c))].

Definition jv_of_enabled (e : ParameterEnabled) : jv :=
  jv_object [(js "temperature", JBool (en_temperature e)); (js "top_p", JBool (en_top_p e));
    (js "max_tokens", JBool (en_max_tokens e)); (js "frequency_penalty", JBool (en_frequency_penalty e));
    (js "presence_penalty", JBool (en_presence_penalty e)); (js "seed", JBool (en_seed e))].

(** [{ ...defaults, ...loaded }], read at a property. *)
Definition spread_get (v : jv) (k : jstr) (d : jv) : jv := if jv_has v k then jv_get v k else d.

Definition getInitialPlaygroundConfig (d : D) : PlaygroundConfig :=
  let v := loadConfig d in
  let dflt := DEFAULT_CONFIG in
  let n k x := as_num (spread_get v (js k) (JNum x)) in
  Config (as_str (spread_get v (js "model") (JStr (model dflt)))) (as_str (spread_get v (js "group") (JStr (group dflt))))
    (n "temperature"%string (temperature dflt)) (n "top_p"%string (top_p dflt)) (n "max_tokens"%string (max_tokens dflt))
    (n "frequency_penalty"%string (frequency_penalty dflt)) (n "presence_penalty"%string (presence_penalty dflt))
    (match spread_get v (js "seed") JNull with JNum x => Some x | _ => None end)
    (as_bool (spread_get v (js "stream") (JBool (stream dflt)))).

Definition getInitialParameterEnabled (d : D) : ParameterEnabled :=
  let v := loadParameterEnabled d in
  let dflt := DEFAULT_PARAMETER_ENABLED in
  let b k x := as_bool (spread_get v (js k) (JBool x)) in
  Enabled (b "temperature"%string (en_temperature dflt)) (b "top_p"%string (en_top_p dflt))
    (b "max_tokens"%string (en_max_tokens dflt)) (b "frequency_penalty"%string (en_frequency_penalty dflt))
    (b "presence_penalty"%string (en_presence_penalty dflt)) (b "seed"%string (en_seed dflt)).

Definition getInitialMessages (t : jstr -> jstr) (clk : clock) (d : D) : list Message * D :=
  let '(ms, d) := loadMessages t clk d in (nullish ms [], d).

(** * Delayed saving (hooks/use-playground-state.ts) *)

(** [messagesSaveTimerRef], [latestMessagesRef], [hasLoadedMessagesRef], the
    first load that is still to come, whether the page was left, and the
    storage. *)
Record Persistence := MkPersistence {
  saveTimer : bool; latestMessages : list Message; hasLoaded : bool; loadPending : bool; cancelled : bool; disk : D }.

Inductive persist_event :=
| PersistUpdate (newMessages : list Message)
| PersistLoad (t : jstr -> jstr) (clk : clock)
| PersistTimer
| PersistUnmount.

Definition persistMessages (messagesToSave : list Message) (p : Persistence) : Persistence :=
  MkPersistence (hasLoaded p || saveTimer p) messagesToSave (hasLoaded p) (loadPending p) (cancelled p) (disk p).

(** The first load reads the storage, and may write it, even when the page was
    left before. *)
Definition persist_step (p : Persistence) (e : persist_event) : Persistence :=
  match e with
  | PersistUpdate ms => persistMessages ms p
  | PersistLoad t clk =>
      if loadPending p then
        let '(loaded, d) := loadMessages t clk (disk p) in
        if cancelled p then MkPersistence (saveTimer p) (latestMessages p) (hasLoaded p) false true d
        else MkPersistence (saveTimer p) (nullish loaded []) true false false d
      else p
  | PersistTimer =>
      if saveTimer p then
        MkPersistence false (latestMessages p) (hasLoaded p) (loadPending p) (cancelled p)
          (saveMessages (latestMessages p) (disk p))
      else p
  | PersistUnmount =>
      MkPersistence false (latestMessages p) (hasLoaded p) (loadPending p) true
        (if saveTimer p then saveMessages (latestMessages p) (disk p) else disk p)
  end.

Definition persist_start (d : D) : Persistence := MkPersistence false [] false true false d.
End Storage.

Arguments Persistence : clear implicits.

(** * Concrete values *)

Example heading_found :
  getSectionOccurrences (js "a" ++ [10]%N ++ js "## 1. One" ++ [10]%N ++ js "####### 2. x") =
  [Occurrence (js "## 1. One") 2].
Proof. vm_compute. reflexivity. Qed.

Example truncated : truncateText (js "abcdefghij") 8 = js "a" ++ TRUNCATED_CONTENT_SUFFIX.
Proof. vm_compute. reflexivity. Qed.

(** * Bounds of what is loaded *)

Lemma truncate_bound text n : (jlen (truncateText text n) <= n)%N.
Proof.
  unfold truncateText, jlen. destruct (N.leb_spec (N.of_nat (length text)) n); [done|].
  destruct (N.leb_spec n (N.of_nat (length TRUNCATED_CONTENT_SUFFIX))).
  - rewrite length_take. lia.
  - rewrite length_app, length_take. lia.
Qed.

Lemma truncate_short text n : (jlen text <= n)%N -> truncateText text n = text.
Proof. intros H. unfold truncateText. by rewrite (proj2 (N.leb_le _ _) H). Qed.

Definition total_size (ms : list Message) : N := foldr (fun m n => getMessageSize m + n)%N 0%N ms.

Lemma total_size_app l1 l2 : total_size (l1 ++ l2) = (total_size l1 + total_size l2)%N.
Proof. induction l1 as [|m l1 IH]; simpl; [done|]. rewrite IH. lia. Qed.

Lemma total_size_reverse l : total_size (reverse l) = total_size l.
Proof. induction l as [|m l IH]; [done|]. rewrite reverse_cons, total_size_app, IH. simpl. lia. Qed.

(** The loop keeps a prefix of the messages from the last on: a message is left
    out only when it does not fit. *)
Lemma keep_sized_prefix ms : forall count tot,
  exists rest, ms = keep_sized (S count) tot ms ++ rest /\
    (keep_sized (S count) tot ms = [] \/ (tot + total_size (keep_sized (S count) tot ms) <= MAX_LOADED_MESSAGES_CHARS)%N) /\
    match rest with
    | [] => True
    | m :: _ => (MAX_LOADED_MESSAGES_CHARS < tot + total_size (keep_sized (S count) tot ms) + getMessageSize m)%N
    end.
Proof.
  induction ms as [|m ms IH]; intros count tot; cbn [keep_sized]; [exists []; by split_and!; [|left|]|].
  change (Nat.ltb 0 (S count)) with true. cbn [andb].
  destruct (N.ltb_spec MAX_LOADED_MESSAGES_CHARS (tot + getMessageSize m)) as [Hl|Hl].
  - exists (m :: ms). split_and!; [done|by left|]. simpl. lia.
  - destruct (IH (S count) (tot + getMessageSize m)%N) as (rest & E & Hb & Hr). exists rest.
    split_and!; [simpl; by f_equal| |].
    + right. simpl. destruct Hb as [-> |Hb]; simpl; lia.
    + destruct rest; [done|]. simpl. lia.
Qed.

(** Of the stored messages the latest are loaded, as many as fit in the
    limit of units, and at least one: what is kept is an end of the list, only a
    single message may be over the limit, and the message before would be. *)
Theorem trim_by_size_spec ms :
  exists older, ms = older ++ trimMessagesByContentSize ms /\
    ((total_size (trimMessagesByContentSize ms) <= MAX_LOADED_MESSAGES_CHARS)%N \/
     exists m, trimMessagesByContentSize ms = [m]) /\
    match last older with
    | Some m => trimMessagesByContentSize ms <> [] /\
        (MAX_LOADED_MESSAGES_CHARS < getMessageSize m + total_size (trimMessagesByContentSize ms))%N
    | None => True
    end.
Proof.
  unfold trimMessagesByContentSize. rewrite <-(reverse_involutive ms). generalize (reverse ms). clear ms. intros ms.
  rewrite !reverse_involutive. destruct ms as [|m ms]; [exists []; split_and!; [done|left; done|done]|].
  cbn [keep_sized]. change (Nat.ltb 0 0) with false. cbn [andb]. rewrite N.add_0_l.
  destruct (keep_sized_prefix ms 0 (getMessageSize m)) as (rest & E & Hb & Hr).
  exists (reverse rest). rewrite total_size_reverse. split_and!.
  - rewrite E at 1. by rewrite app_comm_cons, reverse_app.
  - destruct Hb as [-> |Hb]; [right; by exists m|left; simpl; lia].
  - rewrite last_reverse. destruct rest as [|m' rest]; [done|]. simpl head. split; [|simpl; lia].
    rewrite reverse_cons. by destruct (reverse _).
Qed.

Lemma keep_sized_all ms count tot :
  (tot + total_size ms <= MAX_LOADED_MESSAGES_CHARS)%N -> keep_sized count tot ms = ms.
Proof.
  revert count tot. induction ms as [|m ms IH]; intros count tot Hs; [done|]. simpl in Hs. cbn [keep_sized].
  rewrite (proj2 (N.ltb_ge _ _)) by lia. rewrite andb_false_r, IH; [done|lia].
Qed.

Lemma trim_by_size_id ms : (total_size ms <= MAX_LOADED_MESSAGES_CHARS)%N -> trimMessagesByContentSize ms = ms.
Proof.
  intros Hs. unfold trimMessagesByContentSize. rewrite keep_sized_all; [apply reverse_involutive|].
  by rewrite total_size_reverse.
Qed.

(** * Values and schemas *)

Lemma jv_get_kept k fields : NoDup fields.*1 -> jv_get (JObj (kept fields)) k = map_get k fields ?? JUndef.
Proof.
  intros Hnd. cbn [jv_get]. induction fields as [|[k' v] fields IH]; [done|]. csimpl in Hnd. apply NoDup_cons in Hnd as [Hk Hnd].
  specialize (IH Hnd). simpl. case_bool_decide as E.
  - subst k'. destruct v; simpl; rewrite ?bool_decide_eq_true_2 by done; try done. rewrite IH.
    apply map_get_none in Hk. by rewrite Hk.
  - destruct v; simpl; rewrite ?(bool_decide_eq_false_2 (k = k')) by done; done.
Qed.

Lemma jv_get_field k v fields : NoDup fields.*1 -> (k, v) ∈ fields -> jv_get (jv_object fields) k = v.
Proof. intros Hnd Hin. unfold jv_object. rewrite jv_get_kept by done. by rewrite (map_get_in k v). Qed.

Lemma mapM_step {A B} (f : A -> option B) x l y k :
  f x = Some y -> mapM f l = Some k -> mapM f (x :: l) = Some (y :: k).
Proof. intros H1 H2. simpl. rewrite H1. simpl. by rewrite H2. Qed.

Section Schemas.
Context `{ZL : ZodLaws}.

(** An object whose fields the schema accepts as they are. *)
Lemma z_object_id fs fields :
  NoDup fields.*1 -> Forall2 (fun f e => f.1 = e.1 /\ zparse f.2 e.2 = Some e.2) fs fields ->
  zparse (ZObject fs) (jv_object fields) = Some (jv_object fields).
Proof.
  intros Hnd Hall. unfold jv_object at 1. rewrite z_object. fold (jv_object fields).
  assert (Hm : forall fs' fields', Forall2 (fun f e => f.1 = e.1 /\ zparse f.2 e.2 = Some e.2) fs' fields' ->
    (forall e, e ∈ fields' -> e ∈ fields) ->
    mapM (fun f => (fun v => (f.1, v)) <$> zparse f.2 (jv_get (jv_object fields) f.1)) fs' = Some fields').
  { induction 1 as [|[k s] [k' v] fs' fields' [E1 E2] _ IH]; intros Hin; [done|]. simpl in E1, E2. subst k'.
    apply mapM_step; [|apply IH; intros e He; apply Hin; by right].
    cbn [fst snd]. rewrite (jv_get_field k v) by (done || apply Hin; left). by rewrite E2. }
  by rewrite (Hm fs fields).
Qed.

Lemma z_list_id s n l : n <= length l -> Forall (fun v => zparse s v = Some v) l -> zparse (ZArray s n) (JArr l) = Some (JArr l).
Proof.
  intros Hn Hall. rewrite z_array. rewrite (proj2 (Nat.ltb_ge _ _)) by done.
  assert (mapM (zparse s) l = Some l) as ->; [|done].
  clear Hn. induction Hall as [|v l Hv _ IH]; [done|]. by apply mapM_step.
Qed.

Lemma z_opt {A} s (f : A -> jv) o :
  (forall x, f x <> JUndef) -> (forall x, o = Some x -> zparse s (f x) = Some (f x)) ->
  zparse (ZOptional s) (opt_jv f o) = Some (opt_jv f o).
Proof.
  intros Hf Ho. rewrite z_optional. destruct o as [x|]; [|done]. simpl. specialize (Ho x eq_refl). specialize (Hf x).
  by destruct (f x).
Qed.
End Schemas.

(** * The round trip of the messages *)

Definition num_ok (x : num) : Prop := num_is_finite x = true /\ num_reads x.
Definition opt_ok {A} (P : A -> Prop) (o : option A) : Prop := match o with Some x => P x | None => True end.

(** Messages as the playground keeps them: texts of 16 bit units, numbers that
    are printed so that they read back, an error code that is a text. *)
Record storable (m : Message) : Prop := {
  so_key : units_ok (key m);
  so_versions : versions m <> [] /\ Forall (fun v => units_ok (v_id v) /\ units_ok (v_content v)) (versions m);
  so_created : opt_ok num_ok (createdAt m);
  so_started : opt_ok num_ok (startedAt m);
  so_completed : opt_ok num_ok (completedAt m);
  so_duration : opt_ok num_ok (durationMs m);
  so_sources : opt_ok (Forall (fun s => units_ok (href s) /\ units_ok (s_title s))) (sources m);
  so_reasoning : opt_ok (fun r => units_ok (r_content r) /\ num_ok (r_duration r) /\ opt_ok num_ok (r_startedAt r) /\
    opt_ok num_ok (r_completedAt r) /\ opt_ok num_ok (r_durationMs r)) (reasoning m);
  so_code : match errorCode m with JUndef | JNull => True | JStr s => units_ok s | _ => False end
}.

Lemma message_keys m : NoDup (message_fields m).*1.
Proof. change (message_fields m).*1 with (message_fields (MkMessage [] USER [] None None None None None None None None None None JNull)).*1.
  apply (bool_decide_unpack _). by vm_compute. Qed.

Lemma version_keys v : NoDup [(js "id", JStr (v_id v)); (js "content", JStr (v_content v))].*1.
Proof. apply (bool_decide_unpack _). by vm_compute. Qed.

Lemma source_keys s : NoDup [(js "href", JStr (href s)); (js "title", JStr (s_title s))].*1.
Proof. apply (bool_decide_unpack _). by vm_compute. Qed.

Definition reasoning_fields (r : Reasoning) : list (jstr * jv) :=
  [(js "content", JStr (r_content r)); (js "duration", JNum (r_duration r));
    (js "startedAt", opt_jv JNum (r_startedAt r)); (js "completedAt", opt_jv JNum (r_completedAt r));
    (js "durationMs", opt_jv JNum (r_durationMs r))].

Lemma reasoning_keys r : NoDup (reasoning_fields r).*1.
Proof. change (reasoning_fields r).*1 with (reasoning_fields (MkReasoning [] nzero None None None)).*1.
  apply (bool_decide_unpack _). by vm_compute. Qed.

Section Accepted.
Context `{ZL : ZodLaws}.

Lemma z_str s : zparse ZString (JStr s) = Some (JStr s).
Proof. by rewrite z_string. Qed.

Lemma z_bool_opt o : zparse (ZOptional ZBoolean) (opt_jv JBool o) = Some (opt_jv JBool o).
Proof. apply z_opt; [done|]. intros x _. by rewrite z_boolean. Qed.

Lemma z_num_opt o : opt_ok num_ok o -> zparse (ZOptional ZNumber) (opt_jv JNum o) = Some (opt_jv JNum o).
Proof. intros Ho. apply z_opt; [done|]. intros x ->. apply z_number, Ho. Qed.

Lemma z_version v : zparse messageVersionSchema (jv_of_version v) = Some (jv_of_version v).
Proof. apply z_object_id; [apply version_keys|]. repeat constructor; apply z_str. Qed.

Lemma z_source s : zparse sourceSchema (jv_of_source s) = Some (jv_of_source s).
Proof. apply z_object_id; [apply source_keys|]. repeat constructor; apply z_str. Qed.

(** What is storable the schema accepts as it is. *)
Lemma z_message m : storable m -> zparse messageSchema (jv_of_message m) = Some (jv_of_message m).
Proof.
  intros []. apply z_object_id; [apply message_keys|]. unfold message_fields.
  repeat (apply Forall2_cons; split; [split; [done|]; cbn [snd]|]); [..|by constructor];
    try (by apply z_num_opt); try apply z_bool_opt.
  - apply z_str.
  - unfold messageRoleSchema. rewrite z_enum. by destruct (from m).
  - apply z_list_id.
    + rewrite length_map. destruct (versions m); [by destruct so_versions0|simpl; lia].
    + apply Forall_map, Forall_true. intros v. apply z_version.
  - apply z_opt; [done|]. intros l _. apply z_list_id; [lia|]. apply Forall_map, Forall_true. intros s. apply z_source.
  - apply z_opt; [done|]. intros r E. rewrite E in so_reasoning0. destruct so_reasoning0 as (H1 & H2 & H3 & H4 & H5).
    apply z_object_id; [apply reasoning_keys|].
    repeat (apply Forall2_cons; split; [split; [done|]; cbn [snd]|]); [..|by constructor];
      try (by apply z_num_opt); [apply z_str|apply z_number, H2].
  - apply z_opt; [done|]. intros s _. unfold messageStatusSchema. rewrite z_enum. by destruct s.
  - rewrite z_optional, z_nullable. destruct (errorCode m); try done. apply z_str.
Qed.

Lemma z_messages ms :
  Forall storable ms ->
  zparse messagesSchema (JArr (List.map jv_of_message ms)) = Some (JArr (List.map jv_of_message ms)).
Proof.
  intros Hs. apply z_list_id; [lia|]. apply Forall_map. eapply Forall_impl; [exact Hs|]. apply z_message.
Qed.

(** An error code that is not a text keeps the whole conversation from being
    saved: the schema refuses the message, and the storage stays as it was. *)
Theorem odd_code_not_saved {D} `{LocalStorage D} ms m d :
  m ∈ trimMessages ms -> (forall s, errorCode m <> JStr s) -> jv_truthy (errorCode m) = true ->
  saveMessages ms d = d.
Proof.
  intros Hin Hns Ht. unfold saveMessages, save_value.
  assert (zparse messagesSchema (JArr (List.map jv_of_message (trimMessages ms))) = None) as ->; [|done].
  unfold messagesSchema. rewrite z_array. cbn [Nat.ltb Nat.leb].
  assert (Hm : zparse messageSchema (jv_of_message m) = None).
  { unfold messageSchema, jv_of_message, jv_object. rewrite z_object. fold (jv_object (message_fields m)).
    match goal with |- _ <$> ?x = _ => assert (x = None) as -> end; [|done].
    apply mapM_None_2. apply Exists_exists. exists (js "errorCode", ZOptional (ZNullable ZString)).
    split; [repeat first [left|right]|]. cbn [fst snd].
    rewrite (jv_get_field (js "errorCode") (errorCode m)) by first [apply message_keys|unfold message_fields; repeat first [left|right]].
    rewrite z_optional, z_nullable. destruct (errorCode m) eqn:E; try done; rewrite z_string; try done. by destruct (Hns s). }
  assert (mapM (zparse messageSchema) (List.map jv_of_message (trimMessages ms)) = None) as ->; [|done].
  apply mapM_None_2, Exists_exists. exists (jv_of_message m). split; [|done].
  apply list_elem_of_fmap. by exists m.
Qed.
End Accepted.

(** ** Reading back what was written *)

Lemma as_opt_id {A} (f : jv -> A) (g : A -> jv) o :
  (forall x, g x <> JUndef) -> (forall x, o = Some x -> f (g x) = x) -> as_opt f (opt_jv g o) = o.
Proof.
  intros Hg Hf. destruct o as [x|]; [|done]. simpl. specialize (Hg x). specialize (Hf x eq_refl).
  unfold as_opt. destruct (g x); congruence.
Qed.

Lemma map_read {A} (f : jv -> A) (g : A -> jv) l : (forall x, f (g x) = x) -> List.map f (List.map g l) = l.
Proof. intros Hf. induction l as [|x l IH]; simpl; [done|]. by rewrite Hf, IH. Qed.

Lemma read_version v :
  Version (as_str (jv_get (jv_of_version v) (js "id"))) (as_str (jv_get (jv_of_version v) (js "content"))) = v.
Proof. by destruct v. Qed.

Lemma read_source s :
  MkSource (as_str (jv_get (jv_of_source s) (js "href"))) (as_str (jv_get (jv_of_source s) (js "title"))) = s.
Proof. by destruct s. Qed.

Ltac in_fields := repeat first [left|right].

Lemma read_reasoning r :
  let w := jv_of_reasoning r in
  MkReasoning (as_str (jv_get w (js "content"))) (as_num (jv_get w (js "duration")))
    (as_opt as_num (jv_get w (js "startedAt"))) (as_opt as_num (jv_get w (js "completedAt")))
    (as_opt as_num (jv_get w (js "durationMs"))) = r.
Proof.
  assert (Hg : forall k v, (k, v) ∈ reasoning_fields r -> jv_get (jv_of_reasoning r) k = v)
    by (intros k v Hin; apply jv_get_field; [apply reasoning_keys|done]).
  cbv zeta. rewrite (Hg _ (JStr (r_content r))), (Hg _ (JNum (r_duration r))), (Hg _ (opt_jv JNum (r_startedAt r))),
    (Hg _ (opt_jv JNum (r_completedAt r))), (Hg _ (opt_jv JNum (r_durationMs r))) by in_fields.
  rewrite !(as_opt_id as_num JNum) by done. by destruct r.
Qed.

Lemma read_stored_message m : message_of_jv (jv_of_message m) = m.
Proof.
  assert (Hg : forall k v, (k, v) ∈ message_fields m -> jv_get (jv_of_message m) k = v)
    by (intros k v Hin; apply jv_get_field; [apply message_keys|done]).
  unfold message_of_jv.
  rewrite (Hg _ (JStr (key m))), (Hg _ (JStr (role_text (from m)))), (Hg _ (JArr (List.map jv_of_version (versions m)))),
    (Hg _ (opt_jv JNum (createdAt m))), (Hg _ (opt_jv JNum (startedAt m))), (Hg _ (opt_jv JNum (completedAt m))),
    (Hg _ (opt_jv JNum (durationMs m))), (Hg _ (opt_jv (fun l => JArr (List.map jv_of_source l)) (sources m))),
    (Hg _ (opt_jv jv_of_reasoning (reasoning m))), (Hg _ (opt_jv JBool (isReasoningStreaming m))),
    (Hg _ (opt_jv JBool (isReasoningComplete m))), (Hg _ (opt_jv JBool (isContentComplete m))),
    (Hg _ (opt_jv (fun s => JStr (status_text s)) (status m))), (Hg _ (errorCode m)) by in_fields.
  rewrite !(as_opt_id as_num JNum), !(as_opt_id as_bool JBool) by done.
  rewrite (as_opt_id _ (fun l => JArr (List.map jv_of_source l))) by (try done; intros l _; by apply map_read, read_source).
  rewrite (as_opt_id _ jv_of_reasoning) by (try done; intros r _; apply read_reasoning).
  rewrite (as_opt_id _ (fun s => JStr (status_text s))) by (try done; by intros []).
  cbn [as_list as_str]. rewrite (map_read _ jv_of_version) by apply read_version.
  destruct m as [k r]. simpl. f_equal. by destruct r.
Qed.

Lemma read_stored_messages ms : as_list message_of_jv (JArr (List.map jv_of_message ms)) = ms.
Proof. apply map_read, read_stored_message. Qed.

(** ** Printed objects *)

Lemma plain_jv_object fields :
  NoDup fields.*1 -> Forall (fun k => units_ok k /\ array_index k = None) fields.*1 ->
  Forall (fun e => e.2 = JUndef \/ plain e.2) fields -> plain (jv_object fields).
Proof.
  intros Hnd Hk Hv. unfold jv_object. rewrite plain_obj.
  assert (Hsub : sublist (kept fields).*1 fields.*1).
  { unfold kept. clear. induction fields as [|[k v] t IH]; [constructor|]. simpl. destruct v; csimpl; by constructor. }
  split_and!.
  - by eapply sublist_NoDup.
  - rewrite Forall_forall in *. intros k Hin. apply Hk. by apply (elem_of_sublist _ _ _ Hin).
  - rewrite plain_list_Forall. unfold kept. clear Hnd Hk Hsub. induction Hv as [|[k v] t Hx _ IH]; [constructor|].
    simpl in *. destruct v; csimpl; try constructor; naive_solver.
Qed.

Lemma plain_opt_num o : opt_ok num_ok o -> opt_jv JNum o = JUndef \/ plain (opt_jv JNum o).
Proof. destruct o as [x|]; [|by left]. intros [_ Hx]. by right. Qed.

Lemma plain_opt_bool o : opt_jv JBool o = JUndef \/ plain (opt_jv JBool o).
Proof. destruct o; [by right|by left]. Qed.

(** The names of a literal object; its values, one by one. *)
Ltac names_ok := repeat constructor; vm_compute; repeat constructor.
Ltac each_field := repeat (apply Forall_cons; split; [cbn [snd]|]); [..|by constructor].

Lemma plain_version v : units_ok (v_id v) /\ units_ok (v_content v) -> plain (jv_of_version v).
Proof.
  intros [H1 H2]. apply plain_jv_object; [apply version_keys|names_ok|]. each_field; by right.
Qed.

Lemma plain_source s : units_ok (href s) /\ units_ok (s_title s) -> plain (jv_of_source s).
Proof.
  intros [H1 H2]. apply plain_jv_object; [apply source_keys|names_ok|]. each_field; by right.
Qed.

Lemma plain_list {A} (f : A -> jv) l : Forall (fun x => plain (f x)) l -> plain (JArr (List.map f l)).
Proof. intros H. rewrite plain_arr, plain_list_Forall. by apply Forall_map. Qed.

Lemma plain_message m : storable m -> plain (jv_of_message m).
Proof.
  intros []. apply plain_jv_object; [apply message_keys| |].
  - names_ok.
  - unfold message_fields. each_field;
      try (by apply plain_opt_num); try apply plain_opt_bool; try by right.
    + right. by destruct (from m); repeat constructor.
    + right. apply plain_list. eapply Forall_impl; [apply so_versions0|]. apply plain_version.
    + destruct (sources m) as [l|]; [right|by left]. apply plain_list. eapply Forall_impl; [exact so_sources0|]. apply plain_source.
    + destruct (reasoning m) as [r|]; [right|by left]. destruct so_reasoning0 as (H1 & H2 & H3 & H4 & H5).
      apply plain_jv_object; [apply reasoning_keys|names_ok|].
      each_field; try (by apply plain_opt_num); right; [done|apply H2].
    + destruct (status m) as [s|]; [right|by left]. by destruct s; repeat constructor.
    + destruct (errorCode m); try done; [by left|by right|by right].
Qed.

Lemma envelope_keys data : NoDup [(js "version", JNum (num_of_Z STORAGE_VERSION)); (js "data", data)].*1.
Proof. apply (bool_decide_unpack _). by vm_compute. Qed.

Lemma version_reads : num_reads (num_of_Z STORAGE_VERSION).
Proof. apply num_reads_digits; vm_compute; reflexivity. Qed.

(** The envelope reads back. *)
Lemma stored_text_reads data :
  plain data -> exists v, json_parse (stored_text data) = Some v /\ jv_truthy v = true /\ unwrapStoredValue v = data.
Proof.
  intros Hp. eexists. split_and!; [apply json_parse_compact|done|].
  - apply plain_jv_object; [apply envelope_keys|names_ok|]. each_field; right; [apply version_reads|done].
  - unfold unwrapStoredValue, jv_object. by destruct data.
Qed.

Lemma stored_text_truthy data : truthy (stored_text data) = true.
Proof. unfold stored_text, json_stringify, jv_object. by destruct data. Qed.

(** ** Messages loading leaves as they are *)

Record settled (m : Message) : Prop := {
  se_final : isAssistantMessagePending m = false;
  se_versions : Forall (fun v => version_changed v = false) (versions m);
  se_reasoning : match reasoning m with Some r => (jlen (r_content r) <= MAX_LOADED_MESSAGE_CHARS)%N | None => True end
}.

Lemma normalize_settled clk m : settled m -> normalizeStoredMessageForLoad clk m = (m, false).
Proof.
  intros []. unfold normalizeStoredMessageForLoad.
  assert (existsb version_changed (versions m) = false) as ->.
  { clear -se_versions0. induction se_versions0 as [|v l Hv _ IH]; [done|]. simpl. by rewrite Hv. }
  assert (match reasoning m with Some r => negb (truncateText (r_content r) MAX_LOADED_MESSAGE_CHARS =s r_content r)
    | None => false end = false) as ->.
  { destruct (reasoning m) as [r|]; [|done]. by rewrite truncate_short, jstr_eqb_refl. }
  cbn [orb]. by rewrite se_final0.
Qed.

Lemma last_pending_none ms : Forall (fun m => isAssistantMessagePending m = false) ms -> last_pending ms = None.
Proof.
  induction 1 as [|m ms Hm _ IH]; [done|]. cbn [last_pending]. rewrite IH. unfold isPendingAssistantMessage.
  by rewrite Hm, andb_false_r.
Qed.

Section RoundTrip.
Context {D : Type} `{LocalStorage D} `{!LocalStorageLaws D} `{ZL : ZodLaws}.

Definition messages_text (ms : list Message) : jstr := stored_text (JArr (List.map jv_of_message ms)).

Lemma save_writes ms d d' :
  Forall storable ms -> length ms <= MAX_STORED_MESSAGES -> setItem MESSAGES_KEY (messages_text ms) d = Some d' ->
  saveMessages ms d = d'.
Proof.
  intros Hs Hl Hw. unfold saveMessages, save_value, trimMessages. rewrite (proj2 (Nat.leb_le _ _) Hl).
  rewrite z_messages by done. unfold writeStoredValue. unfold messages_text in Hw. by rewrite Hw.
Qed.


(** * Delayed saving *)

Definition persist_run (es : list persist_event) (p : Persistence D) : Persistence D := fold_left persist_step es p.

(** The messages of the last update. *)
Definition latest_of (ms : list Message) (es : list persist_event) : list Message :=
  fold_left (fun ms e => match e with PersistUpdate ms' => ms' | _ => ms end) es ms.

(** After the first load: what is to be saved is pending, or was saved. *)
Definition saved_or_pending (ms : list Message) (p : Persistence D) : Prop :=
  hasLoaded p = true /\ loadPending p = false /\ latestMessages p = ms /\
  (saveTimer p = true \/ exists d, disk p = saveMessages ms d).

Lemma saved_step ms p e :
  saved_or_pending ms p ->
  saved_or_pending (match e with PersistUpdate ms' => ms' | _ => ms end) (persist_step p e).
Proof.
  intros (Hl & Hp & Hm & Hd). destruct e; simpl.
  - unfold persistMessages. rewrite Hl. split_and!; try done. by left.
  - by rewrite Hp.
  - destruct (saveTimer p) eqn:E; [|by unfold saved_or_pending; rewrite E]. split_and!; try done. right. subst ms. by eexists.
  - split_and!; try done. right. simpl. destruct Hd as [Hd|[d Hd]].
    + rewrite Hd. subst ms. by eexists.
    + destruct (saveTimer p); [subst ms; by eexists|by exists d].
Qed.

Lemma saved_run es : forall ms p, saved_or_pending ms p -> saved_or_pending (latest_of ms es) (persist_run es p).
Proof.
  induction es as [|e es IH]; intros ms p Hp; [done|]. apply (IH _ _ (saved_step ms p e Hp)).
Qed.

(** C40: nothing that was shown is lost by the delay: after the first load,
    whatever updates and timers follow, when the page is left the storage holds
    the messages of the last update, or has refused them. *)
Theorem nothing_lost p ms es :
  hasLoaded p = true -> loadPending p = false ->
  exists d, disk (persist_run (PersistUpdate ms :: es ++ [PersistUnmount]) p) = saveMessages (latest_of ms es) d.
Proof.
  intros Hl Hp. unfold persist_run. cbn [fold_left]. rewrite fold_left_app.
  assert (Hs : saved_or_pending ms (persist_step p (PersistUpdate ms))).
  { simpl. unfold persistMessages. rewrite Hl. split_and!; try done. by left. }
  apply (saved_run es) in Hs. destruct Hs as (_ & _ & Hm & Hd). 
  change (exists d, disk (persist_step (persist_run es (persist_step p (PersistUpdate ms))) PersistUnmount) =
    saveMessages (latest_of ms es) d).
  set (p' := persist_run es (persist_step p (PersistUpdate ms))) in *.
  cbn [persist_step disk]. rewrite Hm. destruct (saveTimer p'); [by eexists|]. by destruct Hd as [Hd|Hd].
Qed.
End RoundTrip.

(** * A concrete store *)

#[export] Instance browser_laws : LocalStorageLaws Browser.
Proof.
  assert (Hf : forall (k k' : jstr) (l : list (jstr * jstr)),
    map_get k' (List.filter (fun e => negb (bool_decide (e.1 = k))) l) = if decide (k = k') then None else map_get k' l).
  { intros k k' l. induction l as [|[k0 v] l IH]; simpl; [by destruct (decide _)|].
    case_bool_decide as E; simpl; subst; rewrite IH; destruct (decide (k = k')) as [->|]; try done.
    - by rewrite bool_decide_eq_false_2.
    - by rewrite (bool_decide_eq_false_2 (k' = k0)). }
  split; simpl; intros.
  - destruct (N.leb _ _); simplify_eq. simpl. by rewrite map_get_set_eq.
  - destruct (N.leb _ _); simplify_eq. simpl. by rewrite map_get_set_ne.
  - simplify_eq. simpl. rewrite Hf. by destruct (decide _).
  - simplify_eq. simpl. rewrite Hf. by destruct (decide _).
Qed.

Definition demo_time : num := num_of_Z 1700000000000.
Definition demo_question : Message := createUserMessage (js "k1") (js "v1") (js "hi") demo_time.
Definition demo_answer : Message :=
  MkMessage (js "k2") ASSISTANT [Version (js "v2") (js "Hello")] (Some demo_time) (Some demo_time) (Some demo_time)
    (Some nzero) None None (Some false) (Some false) (Some false) (Some COMPLETE) JUndef.
Definition demo_disk : Browser := MkBrowser [] 100000.

Lemma demo_time_ok : num_ok demo_time.
Proof. split; [done|]. apply num_reads_digits; vm_compute; reflexivity. Qed.

Lemma demo_zero_ok : num_ok nzero.
Proof. split; [done|]. apply num_reads_digits; vm_compute; reflexivity. Qed.

Lemma opt_ok_some {A} (P : A -> Prop) x : P x -> opt_ok P (Some x).
Proof. done. Qed.

Lemma demo_storable : Forall storable [demo_question; demo_answer].
Proof.
  apply Forall_cons; split; [|apply Forall_cons; split; [|done]]; split;
    lazymatch goal with
    | |- opt_ok num_ok (durationMs demo_answer) => exact (opt_ok_some num_ok nzero demo_zero_ok)
    | |- opt_ok num_ok (durationMs demo_question) => exact I
    | |- opt_ok num_ok (createdAt _) => exact (opt_ok_some num_ok demo_time demo_time_ok)
    | |- opt_ok num_ok (_ demo_answer) => exact (opt_ok_some num_ok demo_time demo_time_ok)
    | |- units_ok _ => units_done
    | |- _ /\ _ => split; [done|]; apply Forall_cons; (split; [split; units_done|done])
    | |- _ => exact I
    end.
Qed.


Lemma nothing_lost_witness :
  exists d, disk (persist_run [PersistUpdate [demo_question]; PersistTimer; PersistUpdate [demo_answer]; PersistUnmount]
    (MkPersistence false [] true false false demo_disk)) = saveMessages [demo_answer] d.
Proof.
  exact (nothing_lost (MkPersistence false [] true false false demo_disk) [demo_question]
    [PersistTimer; PersistUpdate [demo_answer]] eq_refl eq_refl).
Defined.

(** The error a provider sends with a numeric code, and the message it makes. *)
Definition demo_error : StreamErrorDetails :=
  parseStreamErrorDetails (Some (jq "{`error`:{`code`:429,`message`:`busy`}}")).

Definition demo_failed : list Message :=
  updateAssistantMessageWithError demo_time [demo_question; demo_answer] (as_str (sd_errorMessage demo_error))
    (sd_errorCode demo_error) API_REQUEST_ERROR.

Lemma odd_code_not_saved_witness : saveMessages demo_failed demo_disk = demo_disk.
Proof.
  apply (odd_code_not_saved demo_failed (List.nth 1 demo_failed demo_question)).
  - right. left.
  - intros s H. vm_compute in H. discriminate H.
  - vm_compute. reflexivity.
Defined.
