(* ===== verification/JsDate.v ===== *)
(** Digits of a fixed width, and the dates of the language: time values, the days of
    the calendar, [Date.prototype.toISOString] and [Date.parse] of a date and time
    with an offset. *)

From Stdlib Require Import NArith ZArith Lia ZifyBool ZifyN ZifyNat.
From stdpp Require Import base list gmap strings.
From S2P Require Import Prelude JsString JsNum.

(** * Padding *)

(** [s.padEnd(n, '0')] and [s.padStart(n, '0')] *)
Definition pad_end (n : nat) (s : jstr) : jstr := s ++ List.repeat 48%N (n - length s).
Definition pad_start (n : nat) (s : jstr) : jstr := List.repeat 48%N (n - length s) ++ s.

Lemma digits_from_scale acc s : digits_from acc s = (acc * 10 ^ N.of_nat (length s) + digits_value s)%N.
Proof.
  unfold digits_value. revert acc. induction s as [|c s IH]; intros acc; [simpl; lia|].
  change (digits_from ?a (c :: s)) with (digits_from (10 * a + (c - 48)) s). rewrite (IH (10 * acc + (c - 48))%N), (IH (10 * 0 + (c - 48))%N).
  replace (N.of_nat (length (c :: s))) with (N.succ (N.of_nat (length s))) by (simpl; lia). rewrite N.pow_succ_r'. lia.
Qed.

Lemma digits_value_app u v : digits_value (u ++ v) = (digits_value u * 10 ^ N.of_nat (length v) + digits_value v)%N.
Proof. unfold digits_value at 1. by rewrite digits_from_app, digits_from_scale. Qed.

Lemma digits_value_zeros n : digits_value (List.repeat 48%N n) = 0%N.
Proof. induction n as [|n IH]; [done|]. change (digits_from (10 * 0 + (48 - 48)) (List.repeat 48%N n) = 0%N). exact IH. Qed.

Lemma zeros_digits n : forallb is_digit (List.repeat 48%N n) = true.
Proof. induction n; done. Qed.

Lemma digits_value_bound s : forallb is_digit s = true -> (digits_value s < 10 ^ N.of_nat (length s))%N.
Proof.
  induction s as [|c s IH]; intros H; [done|]. simpl in H. apply andb_true_iff in H as [Hc Hs].
  change (c :: s) with ([c] ++ s). rewrite digits_value_app. unfold is_digit, in_range in Hc.
  replace (digits_value [c]) with (c - 48)%N by (unfold digits_value, digits_from; simpl; lia).
  specialize (IH Hs). replace (N.of_nat (length ([c] ++ s))) with (N.succ (N.of_nat (length s))) by (simpl; lia). rewrite N.pow_succ_r'. nia.
Qed.

Lemma pad_end_digits k f : forallb is_digit f = true -> length f <= S k -> all_digits (pad_end (S k) f) = true.
Proof.
  intros Hf Hl. unfold all_digits, pad_end. rewrite forallb_app, Hf, zeros_digits. destruct f as [|c f]; [|done]. done.
Qed.

Lemma pad_end_value k f : length f <= k -> digits_value (pad_end k f) = (digits_value f * 10 ^ N.of_nat (k - length f))%N.
Proof. intros Hl. unfold pad_end. rewrite digits_value_app, digits_value_zeros, repeat_length. lia. Qed.

Lemma dec_digits_length fuel k n acc : (0 < k)%nat -> (n < 10 ^ N.of_nat k)%N -> length (dec_digits fuel n acc) <= k + length acc.
Proof.
  revert k n acc. induction fuel as [|fuel IH]; intros k n acc Hk Hn; simpl; [lia|].
  destruct (N.eqb_spec (n / 10) 0) as [E|E]; [simpl; lia|].
  destruct k as [|[|k]]; [lia| |].
  - exfalso. apply E. apply N.div_small. done.
  - etransitivity; [apply (IH (S k))|simpl; lia]; [lia|]. apply N.Div0.div_lt_upper_bound.
    replace (N.of_nat (S (S k))) with (N.succ (N.of_nat (S k))) in Hn by lia. by rewrite N.pow_succ_r' in Hn.
Qed.

Lemma print_N_length k n : (0 < k)%nat -> (n < 10 ^ N.of_nat k)%N -> length (print_N n) <= k.
Proof. intros Hk Hn. unfold print_N. etransitivity; [by apply (dec_digits_length _ k)|]. simpl. lia. Qed.

Lemma pad_start_parts k n : (0 < k)%nat -> (n < 10 ^ N.of_nat k)%N ->
  forallb is_digit (pad_start k (print_N n)) = true /\ length (pad_start k (print_N n)) = k /\ digits_value (pad_start k (print_N n)) = n.
Proof.
  intros Hk Hn. assert (Hl : length (print_N n) <= k) by (by apply print_N_length).
  destruct (print_N_spec n) as (_ & Hd & Hv). unfold pad_start. split; [by rewrite forallb_app, zeros_digits|].
  split; [rewrite length_app, repeat_length; lia|]. by rewrite digits_value_app, digits_value_zeros, Hv.
Qed.

(** * The calendar *)

(** The day number of a date (1 January 1970 is 0) and back; years are counted from
    March, in eras of 400. *)
Definition days_from_civil (y m d : Z) : Z :=
  let y' := if (m <=? 2)%Z then (y - 1)%Z else y in
  let yoe := (y' mod 400)%Z in
  let doy := ((153 * ((m + 9) mod 12) + 2) / 5 + d - 1)%Z in
  let doe := (yoe * 365 + yoe / 4 - yoe / 100 + doy)%Z in
  ((y' / 400) * 146097 + doe - 719468)%Z.

Definition civil_from_days (n : Z) : Z * Z * Z :=
  let z := (n + 719468)%Z in
  let doe := (z mod 146097)%Z in
  let yoe := ((doe - doe / 1460 + doe / 36524 - doe / 146096) / 365)%Z in
  let doy := (doe - (365 * yoe + yoe / 4 - yoe / 100))%Z in
  let mp := ((5 * doy + 2) / 153)%Z in
  let d := (doy - (153 * mp + 2) / 5 + 1)%Z in
  let m := (if mp <? 10 then mp + 3 else mp - 9)%Z in
  ((yoe + (z / 146097) * 400 + (if m <=? 2 then 1 else 0))%Z, m, d).

Definition is_leap (y : Z) : bool := ((y mod 4 =? 0) && (negb (y mod 100 =? 0) || (y mod 400 =? 0)))%Z%bool.

Definition days_in_month (y m : Z) : Z :=
  if (m =? 2)%Z then (if is_leap y then 29 else 28)%Z
  else if existsb (Z.eqb m) [4; 6; 9; 11]%Z then 30%Z else 31%Z.

Definition valid_date (y m d : Z) : bool := ((1 <=? m) && (m <=? 12) && (1 <=? d) && (d <=? days_in_month y m))%Z%bool.

(** * Time values: milliseconds since the start of 1970 *)

Definition two (z : Z) : jstr := pad_start 2 (print_N (Z.to_N z)).

Definition year_text (y : Z) : jstr :=
  if ((0 <=? y) && (y <=? 9999))%Z%bool then pad_start 4 (print_N (Z.to_N y))
  else (if (y <? 0)%Z then 45%N else 43%N) :: pad_start 6 (print_N (Z.abs_N y)).

(** [Date.prototype.toISOString] of a valid date *)
Definition iso_text (t : Z) : jstr :=
  let ms := (t mod 86400000)%Z in
  let '(y, m, d) := civil_from_days (t / 86400000) in
  year_text y ++ 45%N :: two m ++ 45%N :: two d ++ 84%N :: two (ms / 3600000) ++ 58%N :: two (ms / 60000 mod 60) ++
  58%N :: two (ms / 1000 mod 60) ++ 46%N :: pad_start 3 (print_N (Z.to_N (ms mod 1000))) ++ [90%N].

(** The times of the language. *)
Definition in_time (t : Z) : bool := (Z.abs t <=? 8640000000000000)%Z.

(** [new Date(t).toISOString()] of an integer: [None] when it throws a RangeError. *)
Definition to_iso (t : Z) : option jstr := if in_time t then Some (iso_text t) else None.

(** ** Reading *)

Definition take_digits (k : nat) (s : jstr) : option (Z * jstr) :=
  let ds := take k s in
  if (Nat.eqb (length ds) k && forallb is_digit ds)%bool then Some (Z.of_N (digits_value ds), drop k s) else None.

Definition skip (c : N) (s : jstr) : option jstr := match s with x :: t => if N.eqb x c then Some t else None | [] => None end.

Definition read_year (s : jstr) : option (Z * jstr) :=
  match s with
  | 43%N :: t => take_digits 6 t
  | 45%N :: t => '(y, r) ← take_digits 6 t; if (y =? 0)%Z then None else Some ((- y)%Z, r)
  | _ => take_digits 4 s
  end.

(** [:ss] and [.sss], which may be absent *)
Definition read_seconds (s : jstr) : option (Z * jstr) :=
  match s with
  | 58%N :: t =>
      '(sec, r) ← take_digits 2 t;
      if (59 <? sec)%Z then None
      else match r with
           | 46%N :: u => '(ms, r') ← take_digits 3 u; Some ((sec * 1000 + ms)%Z, r')
           | _ => Some ((sec * 1000)%Z, r)
           end
  | _ => Some (0%Z, s)
  end.

(** [Z] or [+hh:mm], in minutes: the end of the text *)
Definition read_offset (s : jstr) : option Z :=
  let hours_minutes (t : jstr) :=
    '(h, r) ← take_digits 2 t; r ← skip 58 r; '(mi, r) ← take_digits 2 r;
    match r with [] => if ((h <=? 23) && (mi <=? 59))%Z%bool then Some (h * 60 + mi)%Z else None | _ => None end in
  match s with
  | [90%N] => Some 0%Z
  | 43%N :: t => hours_minutes t
  | 45%N :: t => Z.opp <$> hours_minutes t
  | _ => None
  end.

(** A date and time with an offset, in the format of the language; [None] for other
    texts and for elements out of range. *)
Definition iso_time (s : jstr) : option Z :=
  '(y, r) ← read_year s; r ← skip 45 r; '(m, r) ← take_digits 2 r; r ← skip 45 r; '(d, r) ← take_digits 2 r;
  r ← skip 84 r; '(h, r) ← take_digits 2 r; r ← skip 58 r; '(mi, r) ← take_digits 2 r; '(ms, r) ← read_seconds r;
  o ← read_offset r;
  if (valid_date y m d && (mi <=? 59)%Z && ((h <=? 23)%Z || ((h =? 24) && (mi =? 0) && (ms =? 0))%Z))%bool then
    let t := (days_from_civil y m d * 86400000 + h * 3600000 + mi * 60000 + ms - o * 60000)%Z in
    if in_time t then Some t else None
  else None.

Example iso_sample : to_iso 1790784000000 = Some (js "2026-09-30T16:00:00.000Z").
Proof. vm_compute. reflexivity. Qed.

Example iso_shanghai : iso_time (js "2026-10-01T00:00+08:00") = Some 1790784000000%Z.
Proof. vm_compute. reflexivity. Qed.

Example iso_before_year_0 : iso_text (-62198755200001) = js "-000002-12-31T23:59:59.999Z".
Proof. vm_compute. reflexivity. Qed.

(** * Days and dates are inverse *)

Lemma year_of_era doe : (0 <= doe < 146097)%Z ->
  let yoe := ((doe - doe / 1460 + doe / 36524 - doe / 146096) / 365)%Z in
  let doy := (doe - (365 * yoe + yoe / 4 - yoe / 100))%Z in
  (0 <= yoe <= 399)%Z /\ (0 <= doy <= 365)%Z /\ (doy = 365%Z -> is_leap (yoe + 1) = true).
Proof.
  intros Hd yoe doy. assert (H : (0 <= yoe <= 399)%Z /\ (0 <= doy <= 365)%Z) by (unfold doy, yoe; Z.to_euclidean_division_equations; lia).
  split; [tauto|]. split; [tauto|]. intros E. unfold is_leap.
  assert (A : ((yoe + 1) mod 4 = 0)%Z) by (unfold doy, yoe in *; Z.to_euclidean_division_equations; lia).
  assert (B : ((yoe + 1) mod 100 <> 0)%Z \/ ((yoe + 1) mod 400 = 0)%Z).
  { destruct (decide (yoe = 399%Z)) as [->|Hne]; [by right|left]. unfold doy, yoe in *. Z.to_euclidean_division_equations; lia. }
  rewrite A. lia.
Qed.

(** Months have thirty or thirty-one days in a pattern of five, from March on. *)
Lemma month_of_year doy : (0 <= doy <= 365)%Z ->
  let mp := ((5 * doy + 2) / 153)%Z in
  let d := (doy - (153 * mp + 2) / 5 + 1)%Z in
  let m := (if mp <? 10 then mp + 3 else mp - 9)%Z in
  (1 <= m <= 12)%Z /\ (1 <= d)%Z /\ ((m + 9) mod 12 = mp)%Z /\
  (d <= if m =? 2 then 29 else if existsb (Z.eqb m) [4; 6; 9; 11] then 30 else 31)%Z /\ (m = 2%Z -> d = 29%Z -> doy = 365%Z).
Proof.
  intros Hd mp d m. assert (Hm : (0 <= mp <= 11)%Z) by (unfold mp; Z.to_euclidean_division_equations; lia).
  assert (Hb : (153 * mp <= 5 * doy + 2 < 153 * mp + 153)%Z) by (unfold mp; Z.to_euclidean_division_equations; lia).
  clearbody mp. assert (mp = 0 \/ mp = 1 \/ mp = 2 \/ mp = 3 \/ mp = 4 \/ mp = 5 \/ mp = 6 \/ mp = 7 \/ mp = 8 \/ mp = 9 \/ mp = 10 \/ mp = 11)%Z as Hc by lia.
  repeat (destruct Hc as [-> | Hc]); try subst mp; unfold d, m; simpl; repeat split; try lia; Z.to_euclidean_division_equations; lia.
Qed.

Lemma leap_shift y k : is_leap (y + k * 400) = is_leap y.
Proof.
  unfold is_leap.
  assert (E4 : ((y + k * 400) mod 4 = y mod 4)%Z) by (replace (k * 400)%Z with ((k * 100) * 4)%Z by lia; apply Z_mod_plus_full).
  assert (E100 : ((y + k * 400) mod 100 = y mod 100)%Z) by (replace (k * 400)%Z with ((k * 4) * 100)%Z by lia; apply Z_mod_plus_full).
  rewrite E4, E100. by rewrite Z_mod_plus_full.
Qed.

Lemma valid_shift y k m d : valid_date (y + k * 400) m d = valid_date y m d.
Proof. unfold valid_date, days_in_month. by rewrite leap_shift. Qed.

Lemma days_shift y k m d : days_from_civil (y + k * 400) m d = (days_from_civil y m d + k * 146097)%Z.
Proof.
  unfold days_from_civil.
  assert (E : (if m <=? 2 then y + k * 400 - 1 else y + k * 400)%Z = ((if m <=? 2 then y - 1 else y) + k * 400)%Z) by (destruct (m <=? 2)%Z; lia).
  rewrite E, Z_mod_plus_full, Z_div_plus_full by done. lia.
Qed.

Lemma civil_shift n k : civil_from_days (n + k * 146097) = let '(y, m, d) := civil_from_days n in ((y + k * 400)%Z, m, d).
Proof.
  unfold civil_from_days. replace (n + k * 146097 + 719468)%Z with (n + 719468 + k * 146097)%Z by lia.
  rewrite Z_mod_plus_full, Z_div_plus_full by done. cbv zeta. f_equal. f_equal. lia.
Qed.

Lemma era_day doe : (0 <= doe < 146097)%Z -> let '(y, m, d) := civil_from_days (doe - 719468) in
  valid_date y m d = true /\ days_from_civil y m d = (doe - 719468)%Z /\ (0 <= y <= 400)%Z.
Proof.
  intros Hd. unfold civil_from_days. replace (doe - 719468 + 719468)%Z with doe by lia.
  rewrite (Z.mod_small doe 146097), (Z.div_small doe 146097) by done. pose proof (year_of_era doe Hd) as Hy. cbv zeta in Hy. cbv zeta.
  set (yoe := ((doe - doe / 1460 + doe / 36524 - doe / 146096) / 365)%Z) in *. clearbody yoe.
  set (doy := (doe - (365 * yoe + yoe / 4 - yoe / 100))%Z) in *. assert (Ed : (doe = yoe * 365 + yoe / 4 - yoe / 100 + doy)%Z) by lia. clearbody doy.
  destruct Hy as (Hy & Hdoy & Hleap). pose proof (month_of_year doy Hdoy) as Hm. cbv zeta in Hm.
  set (mp := ((5 * doy + 2) / 153)%Z) in *. clearbody mp.
  set (d := (doy - (153 * mp + 2) / 5 + 1)%Z) in *. assert (Hdd : ((153 * mp + 2) / 5 + d - 1 = doy)%Z) by lia. clearbody d.
  set (m := (if mp <? 10 then mp + 3 else mp - 9)%Z) in *. clearbody m. destruct Hm as (Hm & H1 & Hmp & Hdim & H29).
  split; [|split; [|destruct (m <=? 2)%Z; lia]].
  - unfold valid_date, days_in_month. destruct (Z.eqb_spec m 2) as [->|Hne]; [|lia].
    destruct (decide (d = 29%Z)) as [->|H2].
    2: { generalize (is_leap (yoe + 0 * 400 + (if 2 <=? 2 then 1 else 0))%Z). intros []; lia. }
    replace (yoe + 0 * 400 + (if 2 <=? 2 then 1 else 0))%Z with (yoe + 1)%Z by (simpl; lia). by rewrite Hleap by auto.
  - unfold days_from_civil. rewrite Hmp.
    assert (E : (if m <=? 2 then yoe + 0 * 400 + (if m <=? 2 then 1 else 0) - 1 else yoe + 0 * 400 + (if m <=? 2 then 1 else 0))%Z = yoe) by (destruct (m <=? 2)%Z; lia).
    rewrite E, Z.mod_small, Z.div_small by lia. lia.
Qed.

(** The date of a day is a date of the calendar, is that day again, and its year is
    within 400 of the start of its era. *)
Lemma civil_days n : let '(y, m, d) := civil_from_days n in
  valid_date y m d = true /\ days_from_civil y m d = n /\ (0 <= y - (n + 719468) / 146097 * 400 <= 400)%Z.
Proof.
  set (k := ((n + 719468) / 146097)%Z). set (doe := ((n + 719468) mod 146097)%Z).
  assert (Hn : n = (doe - 719468 + k * 146097)%Z) by (unfold k, doe; pose proof (Z_div_mod_eq_full (n + 719468) 146097); lia).
  assert (Hd : (0 <= doe < 146097)%Z) by (apply Z.mod_pos_bound; lia).
  clearbody k doe. rewrite Hn, civil_shift. pose proof (era_day doe Hd) as H.
  destruct (civil_from_days (doe - 719468)) as [[y m] d]. rewrite valid_shift, days_shift. destruct H as (H1 & H2 & H3). split; [done|lia].
Qed.

(** * A time value is read back from its text *)

Lemma take_digits_app k u t : length u = k -> forallb is_digit u = true -> take_digits k (u ++ t) = Some (Z.of_N (digits_value u), t).
Proof. intros <- Hd. unfold take_digits. by rewrite take_app_length, drop_app_length, Nat.eqb_refl, Hd. Qed.

Lemma take_digits_pad k n t : (0 < k)%nat -> (n < 10 ^ N.of_nat k)%N -> take_digits k (pad_start k (print_N n) ++ t) = Some (Z.of_N n, t).
Proof. intros Hk Hn. destruct (pad_start_parts k n Hk Hn) as (Hd & Hl & Hv). by rewrite take_digits_app, Hv. Qed.

Lemma take_two z t : (0 <= z < 100)%Z -> take_digits 2 (two z ++ t) = Some (z, t).
Proof. intros Hz. unfold two. rewrite take_digits_pad by (simpl; lia). do 2 f_equal. lia. Qed.

Lemma read_year_digits c u : is_digit c = true -> read_year (c :: u) = take_digits 4 (c :: u).
Proof.
  intros Hc. unfold is_digit, in_range in Hc. destruct c as [|p]; [done|]. repeat (destruct p as [p|p|]; try done).
Qed.

Lemma read_year_text y t : (Z.abs y < 1000000)%Z -> read_year (year_text y ++ t) = Some (y, t).
Proof.
  intros Hy. unfold year_text. destruct (_ && _)%bool eqn:E.
  - destruct (pad_start_parts 4 (Z.to_N y)) as (Hd & Hl & Hv); [lia|simpl; lia|].
    destruct (pad_start 4 _) as [|c u] eqn:Eu; [done|]. simpl in Hd. pose proof Hd as Hd'. apply andb_true_iff in Hd' as [Hc _].
    change ((c :: u) ++ t) with (c :: (u ++ t)). rewrite read_year_digits by done. change (c :: (u ++ t)) with ((c :: u) ++ t).
    rewrite take_digits_app, Hv by done. do 2 f_equal. lia.
  - assert (Ha : take_digits 6 (pad_start 6 (print_N (Z.abs_N y)) ++ t) = Some (Z.abs y, t)).
    { rewrite take_digits_pad by (simpl; lia). do 2 f_equal. lia. }
    destruct (Z.ltb_spec y 0); simpl; rewrite Ha; simpl.
    + rewrite (proj2 (Z.eqb_neq _ _)) by lia. do 2 f_equal. lia.
    + do 2 f_equal. lia.
Qed.

Lemma skip_hit c t : skip c (c :: t) = Some t.
Proof. unfold skip. by rewrite N.eqb_refl. Qed.

Lemma year_bound n : (Z.abs n <= 100000000)%Z -> let '(y, m, d) := civil_from_days n in (Z.abs y < 1000000)%Z.
Proof.
  intros Hn. pose proof (civil_days n) as H. destruct (civil_from_days n) as [[y m] d]. destruct H as (_ & _ & H).
  revert H. Z.to_euclidean_division_equations. lia.
Qed.

(** A clock reading, by its parts. *)
Lemma clock_parts ms : (0 <= ms < 86400000)%Z ->
  (0 <= ms / 3600000 <= 23)%Z /\ (0 <= ms / 60000 mod 60 <= 59)%Z /\ (0 <= ms / 1000 mod 60 <= 59)%Z /\ (0 <= ms mod 1000 <= 999)%Z /\
  (ms / 3600000 * 3600000 + ms / 60000 mod 60 * 60000 + (ms / 1000 mod 60 * 1000 + ms mod 1000) = ms)%Z.
Proof. intros H. repeat split; Z.to_euclidean_division_equations; lia. Qed.

Lemma two_shape z : (0 <= z < 100)%Z -> length (two z) = 2 /\ forallb is_digit (two z) = true.
Proof. intros Hz. unfold two. destruct (pad_start_parts 2 (Z.to_N z)) as (Hd & Hl & _); [lia|simpl; lia|]. done. Qed.

Lemma year_shape y : (0 <= y <= 9999)%Z -> length (year_text y) = 4 /\ forallb is_digit (year_text y) = true.
Proof.
  intros Hy. unfold year_text. assert (((0 <=? y) && (y <=? 9999))%Z%bool = true) as -> by lia.
  destruct (pad_start_parts 4 (Z.to_N y)) as (Hd & Hl & _); [lia|simpl; lia|]. done.
Qed.

Lemma month_day y m d : valid_date y m d = true -> (0 <= m < 100)%Z /\ (0 <= d < 100)%Z.
Proof.
  unfold valid_date. rewrite !andb_true_iff, !Z.leb_le. intros H.
  assert (days_in_month y m <= 31)%Z; [|lia]. unfold days_in_month. destruct (m =? 2)%Z; [by destruct (is_leap y)|]. by destruct (existsb _ _).
Qed.

(** The ends a text of a time may have: its offset in minutes. *)
Lemma iso_time_parts y m d h mi tail ms o :
  (Z.abs y < 1000000)%Z -> valid_date y m d = true -> (0 <= h <= 23)%Z -> (0 <= mi <= 59)%Z ->
  (exists r, read_seconds tail = Some (ms, r) /\ read_offset r = Some o) ->
  iso_time (year_text y ++ 45%N :: two m ++ 45%N :: two d ++ 84%N :: two h ++ 58%N :: two mi ++ tail) =
  let t := (days_from_civil y m d * 86400000 + h * 3600000 + mi * 60000 + ms - o * 60000)%Z in
  if in_time t then Some t else None.
Proof.
  intros Hy Hv Hh Hm (r & Hs & Ho). destruct (month_day _ _ _ Hv) as [Hmm Hd].
  unfold iso_time. rewrite read_year_text by done. cbn [mbind option_bind]. rewrite skip_hit. cbn [mbind option_bind].
  rewrite take_two by lia. cbn [mbind option_bind]. rewrite skip_hit. cbn [mbind option_bind].
  rewrite take_two by lia. cbn [mbind option_bind]. rewrite skip_hit. cbn [mbind option_bind].
  rewrite take_two by lia. cbn [mbind option_bind]. rewrite skip_hit. cbn [mbind option_bind].
  rewrite take_two by lia. cbn [mbind option_bind]. rewrite Hs. cbn [mbind option_bind]. rewrite Ho. cbn [mbind option_bind].
  rewrite Hv, (proj2 (Z.leb_le mi 59)), (proj2 (Z.leb_le h 23)) by lia. done.
Qed.

Lemma read_full_seconds sec ms r : (0 <= sec <= 59)%Z -> (0 <= ms <= 999)%Z ->
  read_seconds (58%N :: two sec ++ 46%N :: pad_start 3 (print_N (Z.to_N ms)) ++ r) = Some ((sec * 1000 + ms)%Z, r).
Proof.
  intros Hs Hm. unfold read_seconds. rewrite take_two by lia. cbn [mbind option_bind].
  rewrite (proj2 (Z.ltb_ge _ _)) by lia. rewrite take_digits_pad by (simpl; lia). cbn [mbind option_bind]. do 3 f_equal. lia.
Qed.

(** The date and the clock of a text, up to the seconds. *)
Definition date_part (y m d : Z) : jstr := year_text y ++ 45%N :: two m ++ 45%N :: two d.
Definition clock_part (h mi s : Z) : jstr := two h ++ 58%N :: two mi ++ 58%N :: two s.

Definition parts_of_time (y m d h mi s ms : Z) : Prop :=
  valid_date y m d = true /\ (0 <= h <= 23)%Z /\ (0 <= mi <= 59)%Z /\ (0 <= s <= 59)%Z /\ (0 <= ms <= 999)%Z.

Lemma iso_text_parts t : exists y m d h mi s ms,
  iso_text t = date_part y m d ++ 84%N :: clock_part h mi s ++ 46%N :: pad_start 3 (print_N (Z.to_N ms)) ++ [90%N] /\
  parts_of_time y m d h mi s ms /\
  (days_from_civil y m d * 86400000 + h * 3600000 + mi * 60000 + s * 1000 + ms)%Z = t /\
  ((0 <= t <= 240000100000000)%Z -> (0 <= y <= 9999)%Z).
Proof.
  unfold iso_text, parts_of_time, date_part, clock_part. pose proof (civil_days (t / 86400000)) as Hc.
  pose proof (clock_parts (t mod 86400000) (Z.mod_pos_bound t 86400000 ltac:(lia))) as Hp.
  destruct (civil_from_days (t / 86400000)) as [[y m] d]. destruct Hc as (Hv & Hd & Hy). destruct Hp as (H1 & H2 & H3 & H4 & H5).
  exists y, m, d, (t mod 86400000 / 3600000)%Z, (t mod 86400000 / 60000 mod 60)%Z, (t mod 86400000 / 1000 mod 60)%Z, ((t mod 86400000) mod 1000)%Z.
  split; [|split; [done|split]].
  - repeat (rewrite <- !app_assoc; cbn [app]). done.
  - rewrite Hd. pose proof (Z_div_mod_eq_full t 86400000) as Ht. clear - H5 Ht. revert H5 Ht. generalize (t / 86400000)%Z, (t mod 86400000)%Z. intros q ms.
    generalize (ms / 3600000)%Z, (ms / 60000 mod 60)%Z, (ms / 1000 mod 60)%Z, (ms mod 1000)%Z. lia.
  - intros Ht. clear - Hy Ht. revert Hy. Z.to_euclidean_division_equations. lia.
Qed.

Lemma date_part_shape y m d : (0 <= y <= 9999)%Z -> valid_date y m d = true ->
  length (date_part y m d) = 10 /\ (forall c, c ∈ date_part y m d -> is_digit c = true \/ c = 45%N) /\
  exists c u, date_part y m d = c :: u /\ is_digit c = true.
Proof.
  intros Hy Hv. destruct (month_day _ _ _ Hv) as [Hm Hd]. destruct (year_shape y Hy) as [Ly Dy], (two_shape m Hm) as [Lm Dm], (two_shape d Hd) as [Ld Dd].
  unfold date_part. split; [rewrite length_app; simpl; rewrite length_app; simpl; lia|]. split.
  - assert (F : forall u, forallb is_digit u = true -> forall c, c ∈ u -> is_digit c = true)
      by (intros u H c Hc; rewrite forallb_forall in H; apply H; by apply list_elem_of_In).
    intros c [Hc|[->|[Hc|[->|Hc]%elem_of_cons]%elem_of_app]%elem_of_cons]%elem_of_app; eauto.
  - destruct (year_text y) as [|c u]; [done|]. simpl in Dy. apply andb_true_iff in Dy as [Hc _]. by eexists c, _.
Qed.

Lemma clock_part_length h mi s : (0 <= h <= 23)%Z -> (0 <= mi <= 59)%Z -> (0 <= s <= 59)%Z -> length (clock_part h mi s) = 8.
Proof.
  intros Hh Hm Hs. destruct (two_shape h ltac:(lia)) as [Lh _], (two_shape mi ltac:(lia)) as [Lm _], (two_shape s ltac:(lia)) as [Ls _].
  unfold clock_part. rewrite length_app. simpl. rewrite length_app. simpl. lia.
Qed.

(** A time with whole seconds and an offset. *)
Lemma iso_time_clock y m d h mi s o tail :
  (Z.abs y < 1000000)%Z -> valid_date y m d = true -> (0 <= h <= 23)%Z -> (0 <= mi <= 59)%Z -> (0 <= s <= 59)%Z ->
  head tail <> Some 46%N -> read_offset tail = Some o ->
  iso_time (date_part y m d ++ 84%N :: clock_part h mi s ++ tail) =
  let t := (days_from_civil y m d * 86400000 + h * 3600000 + mi * 60000 + s * 1000 - o * 60000)%Z in
  if in_time t then Some t else None.
Proof.
  intros Hy Hv Hh Hm Hs Ht Ho. unfold date_part, clock_part. repeat (rewrite <- !app_assoc; cbn [app]).
  apply iso_time_parts; [done..|]. exists tail. split; [|done].
  cbn [app read_seconds]. rewrite take_two by lia. cbn [mbind option_bind]. rewrite (proj2 (Z.ltb_ge _ _)) by lia.
  destruct tail as [|c u]; [done|]. destruct c as [|p]; [done|]. repeat (destruct p as [p|p|]; try done).
Qed.

Lemma iso_roundtrip t : in_time t = true -> iso_time (iso_text t) = Some t.
Proof.
  intros Ht. pose proof Ht as Hb. apply Z.leb_le in Hb. unfold iso_text. pose proof (civil_days (t / 86400000)) as Hc.
  assert (Hq : (Z.abs (t / 86400000) <= 100000000)%Z) by (Z.to_euclidean_division_equations; lia).
  pose proof (year_bound _ Hq) as Hy. pose proof (clock_parts (t mod 86400000) (Z.mod_pos_bound t 86400000 ltac:(lia))) as Hp.
  destruct (civil_from_days (t / 86400000)) as [[y m] d]. destruct Hc as (Hv & Hd & _). destruct Hp as (H1 & H2 & H3 & H4 & H5).
  rewrite (iso_time_parts y m d _ _ _ (t mod 86400000 / 1000 mod 60 * 1000 + (t mod 86400000) mod 1000) 0) by (done || (eexists; split; [by apply read_full_seconds|done])).
  cbv zeta. rewrite Hd. pose proof (Z_div_mod_eq_full t 86400000) as Ht'.
  match goal with |- (if in_time ?x then _ else _) = _ => assert (x = t) as -> end.
  - clear - H5 Ht'. revert H5 Ht'. generalize (t / 86400000)%Z, (t mod 86400000)%Z. intros q ms.
    generalize (ms / 3600000)%Z, (ms / 60000 mod 60)%Z, (ms / 1000 mod 60)%Z, (ms mod 1000)%Z. lia.
  - by rewrite Ht.
Qed.
