(* ===== verification/UsageAudit.v ===== *)
(** The usage audit of the billing pages (features/billing/lib/usage-audit.ts and
    usage-audit-panel.tsx, usage-audit-results.tsx, usage-audit-cost-table.tsx):
    exact sums of decimal amounts, the exported tables, the form with its
    selection, and what the results show. *)

From Stdlib Require Import NArith ZArith Lia ZifyBool ZifyN ZifyNat SpecFloat.
From stdpp Require Import base list gmap strings.
From S2P Require Import Prelude JsString JsNum Json JsTable JsDate.

(** * Exact amounts *)

(** A minus sign taken off. *)
Definition unsigned (s : jstr) : bool * jstr := match s with 45%N :: u => (true, u) | _ => (false, s) end.

Definition signed (neg : bool) (z : Z) : Z := if neg then (- z)%Z else z.

(** [BigInt(s)] of a text: [None] when it throws. *)
Definition js_BigInt (s : jstr) : option Z :=
  let decimal (neg : bool) (u : jstr) := if all_digits u then Some (signed neg (Z.of_N (digits_value u))) else None in
  let radix (r : N) (u : jstr) := if truthy u then Z.of_N <$> radix_value r 0 u else None in
  match trim s with
  | [] => Some 0%Z
  | 43%N :: u => decimal false u
  | 45%N :: u => decimal true u
  | 48%N :: c :: u =>
      if (N.eqb c 120 || N.eqb c 88)%bool then radix 16%N u
      else if (N.eqb c 111 || N.eqb c 79)%bool then radix 8%N u
      else if (N.eqb c 98 || N.eqb c 66)%bool then radix 2%N u
      else decimal false (48%N :: c :: u)
  | u => decimal false u
  end.

(** [s.replace(c, '')]: the first one goes. *)
Fixpoint remove_first (c : N) (s : jstr) : jstr :=
  match s with
  | [] => []
  | x :: t => if N.eqb x c then t else x :: remove_first c t
  end.

(** [/^-?\d+(?:\.\d{1,k})?$/] with [k] digits at most, or any number of them. *)
Definition decimal_form (k : option nat) (s : jstr) : bool :=
  let '(ip, r) := span_digits (unsigned s).2 in
  truthy ip &&
  match r with
  | [] => true
  | 46%N :: f => (all_digits f && match k with Some k => Nat.leb (length f) k | None => true end)%bool
  | _ => false
  end.

Definition giga : Z := 1000000000.

(** The template both amounts are written by. *)
Definition amount_text (total : Z) : jstr :=
  let absolute := if (total <? 0)%Z then (- total)%Z else total in
  (if (total <? 0)%Z then js "-" else []) ++ print_Z (Z.quot absolute giga) ++ js "." ++ pad_start 9 (print_Z (Z.rem absolute giga)).

(** A thrown error is [None], what is returned is inside. *)
Definition sum_step (value : option jstr) (total : Z) : option (option Z) :=
  match value with
  | None => Some None
  | Some value =>
      if negb (decimal_form (Some 9) value) then Some None
      else
        let pieces := split_unit 46 (remove_first 45 value) in
        let whole := nth 0 pieces [] in
        let fraction := nth 1 pieces [] in
        match js_BigInt whole, js_BigInt (pad_end 9 fraction) with
        | Some w, Some f =>
            let amount := (w * giga + f)%Z in
            Some (Some (total + (if starts_with (js "-") value then - amount else amount))%Z)
        | _, _ => None
        end
  end.

Fixpoint sum_loop (values : list (option jstr)) (total : Z) : option (option Z) :=
  match values with
  | [] => Some (Some total)
  | value :: rest =>
      match sum_step value total with
      | Some (Some total') => sum_loop rest total'
      | other => other
      end
  end.

Definition sumUsageAuditAmounts (values : list (option jstr)) : option (option jstr) :=
  option_map amount_text <$> sum_loop values 0%Z.

(** [priceDifference] of a row: [list_cost.total] and [actual_amount]. *)
Definition priceDifference (total actual : jstr) : option jstr :=
  match js_BigInt (remove_first 46 total), js_BigInt (remove_first 46 actual) with
  | Some a, Some b => Some (amount_text (a - b))
  | _, _ => None
  end.

Example sum_large : sumUsageAuditAmounts [Some (js "577.309850281"); Some (js "858.476531455")] = Some (Some (js "1435.786381736")).
Proof. vm_compute. reflexivity. Qed.

Example sum_small : sumUsageAuditAmounts [Some (js "-0.000000001"); Some (js "0")] = Some (Some (js "-0.000000001")).
Proof. vm_compute. reflexivity. Qed.

Example sum_missing : sumUsageAuditAmounts [Some (js "0.1"); None] = Some None.
Proof. vm_compute. reflexivity. Qed.

(** * What an amount is worth *)

(** The billionths a decimal text with at most nine decimals stands for: the digits
    read as one number, scaled by the decimals that are not written. *)
Definition billionths (s : jstr) : option Z :=
  if decimal_form (Some 9) s then
    let '(neg, u) := unsigned s in
    let '(ip, r) := span_digits u in
    let f := tail r in
    Some (signed neg (Z.of_N (digits_value (ip ++ f)) * 10 ^ (9 - Z.of_nat (length f))))
  else None.

(** An amount as the server writes it: nine decimals. *)
Definition nine_decimals (s : jstr) : Prop := exists z, billionths s = Some z /\ length (drop 1 (span_digits (unsigned s).2).2) = 9.

(** ** Digits *)

Lemma span_digits_run ds t : forallb is_digit ds = true -> (forall c u, t = c :: u -> is_digit c = false) -> span_digits (ds ++ t) = (ds, t).
Proof.
  induction ds as [|d ds IH]; simpl.
  - destruct t as [|c u]; [done|]. intros _ H. simpl. by rewrite (H c u).
  - intros [Hd Hds]%andb_true_iff Ht. by rewrite Hd, IH.
Qed.

Lemma span_digits_split s : exists ip r, span_digits s = (ip, r) /\ s = ip ++ r /\ forallb is_digit ip = true.
Proof.
  induction s as [|c t (ip & r & E & -> & H)]; simpl; [by exists [], []|].
  rewrite E. destruct (is_digit c) eqn:Ec; [|by exists [], (c :: ip ++ r)].
  exists (c :: ip), r. split; [done|]. split; [done|]. simpl. by rewrite Ec.
Qed.

Lemma js_BigInt_digits ds : all_digits ds = true -> js_BigInt ds = Some (Z.of_N (digits_value ds)).
Proof.
  intros H. unfold js_BigInt. pose proof H as H'. unfold all_digits in H'. apply andb_true_iff in H' as [Ht Hd].
  rewrite trim_id by by apply all_digits_trimmed.
  set (v := digits_value ds).
  destruct ds as [|c u]; [done|]. simpl in Hd. apply andb_true_iff in Hd as [Hc Hd].
  assert (Hu : match u with [] => True | d :: _ => is_digit d = true end) by (destruct u; [done|]; simpl in Hd; by apply andb_true_iff in Hd as [Hd _]).
  assert (Hall : (if all_digits (c :: u) then Some (signed false (Z.of_N (digits_value (c :: u)))) else None) = Some (Z.of_N v)) by by rewrite H.
  unfold is_digit, in_range in Hc.
  destruct c as [|p]; [done|]. repeat (destruct p as [p|p|]; try done).
  destruct u as [|d u]; [done|]. unfold is_digit, in_range in Hu.
  rewrite !(proj2 (N.eqb_neq _ _)) by lia. done.
Qed.

Lemma js_BigInt_neg ds : all_digits ds = true -> js_BigInt (45%N :: ds) = Some (- Z.of_N (digits_value ds))%Z.
Proof.
  intros H. unfold js_BigInt. rewrite trim_id; [by rewrite H|].
  apply trimmed_no_ws. unfold all_digits in H. apply andb_true_iff in H as [_ H]. simpl.
  apply forallb_forall. intros c Hc. rewrite forallb_forall in H. by rewrite digit_not_ws by auto.
Qed.

(** ** The parts of an amount *)

(** A sign, digits and decimals, written as an amount. *)
Definition written (neg : bool) (ip f : jstr) : jstr := (if neg then [45%N] else []) ++ ip ++ match f with [] => [] | _ => 46%N :: f end.

Definition parts_ok (ip f : jstr) : Prop := all_digits ip = true /\ forallb is_digit f = true.

Lemma digit_head ip c u : all_digits ip = true -> ip = c :: u -> is_digit c = true.
Proof. intros H ->. unfold all_digits in H. simpl in H. by apply andb_true_iff in H as [? _]. Qed.

Lemma unsigned_written neg ip f : parts_ok ip f -> unsigned (written neg ip f) = (neg, ip ++ match f with [] => [] | _ => 46%N :: f end).
Proof.
  intros [Hi _]. destruct neg; [done|]. unfold written. simpl.
  destruct ip as [|c u]; [done|]. pose proof (digit_head _ c u Hi eq_refl) as Hc. simpl.
  destruct c as [|p]; [done|]. repeat (destruct p as [p|p|]; try done).
Qed.

Lemma span_written ip f : parts_ok ip f -> span_digits (ip ++ match f with [] => [] | _ => 46%N :: f end) = (ip, match f with [] => [] | _ => 46%N :: f end).
Proof.
  intros [Hi _]. apply span_digits_run; [unfold all_digits in Hi; by apply andb_true_iff in Hi as [_ ?]|].
  destruct f as [|d f]; [done|]. intros c u [= <- _]. done.
Qed.

Lemma decimal_written k neg ip f : parts_ok ip f -> decimal_form k (written neg ip f) = match k with Some k => Nat.leb (length f) k | None => true end.
Proof.
  intros Hp. unfold decimal_form. rewrite unsigned_written by done. simpl. rewrite span_written by done.
  destruct Hp as [Hi Hf]. unfold all_digits in Hi. apply andb_true_iff in Hi as [-> _]. simpl.
  destruct f as [|d f]; [by destruct k as [[]|]|]. unfold all_digits. by rewrite Hf.
Qed.

Lemma decimal_parts k s : decimal_form k s = true -> exists neg ip f, s = written neg ip f /\ parts_ok ip f.
Proof.
  unfold decimal_form. intros H.
  assert (Es : s = (if (unsigned s).1 then [45%N] else []) ++ (unsigned s).2).
  { destruct s as [|c t]; [done|]. destruct c as [|p]; [done|]. repeat (destruct p as [p|p|]; try done). }
  destruct (unsigned s) as [neg u]. simpl in *.
  destruct (span_digits_split u) as (ip & r & E & Eu & Hd). rewrite E in H. apply andb_true_iff in H as [Ht H].
  assert (Hi : all_digits ip = true) by (unfold all_digits; by rewrite Ht, Hd). subst u.
  destruct r as [|c f]; [by exists neg, ip, []|].
  destruct (decide (c = 46%N)) as [->|Hc].
  - apply andb_true_iff in H as [Hf _]. exists neg, ip, f. destruct f as [|d f]; [done|]. unfold all_digits in Hf. by apply andb_true_iff in Hf as [_ ?].
  - destruct c as [|p]; [done|]. repeat (destruct p as [p|p|]; try done).
Qed.

Lemma billionths_written neg ip f : parts_ok ip f -> length f <= 9 ->
  billionths (written neg ip f) = Some (signed neg (Z.of_N (digits_value (ip ++ f)) * 10 ^ (9 - Z.of_nat (length f)))).
Proof.
  intros Hp Hl. unfold billionths. rewrite decimal_written by done. rewrite (proj2 (Nat.leb_le _ _)) by done.
  rewrite unsigned_written, span_written by done. by destruct f.
Qed.

Lemma remove_first_absent c s : c ∉ s -> remove_first c s = s.
Proof. induction s as [|x s IH]; [done|]. intros H. simpl. destruct (N.eqb_spec x c); [set_solver|]. rewrite IH; set_solver. Qed.

Lemma remove_first_hit c u v : c ∉ u -> remove_first c (u ++ c :: v) = u ++ v.
Proof. induction u as [|x u IH]; simpl; [by rewrite N.eqb_refl|]. intros H. destruct (N.eqb_spec x c); [set_solver|]. rewrite IH; set_solver. Qed.

Lemma parts_absent c ip f : parts_ok ip f -> is_digit c = false -> c ∉ ip /\ c ∉ f.
Proof.
  intros [Hi Hf] Hc. unfold all_digits in Hi. apply andb_true_iff in Hi as [_ Hi]. split; by eapply all_digits_no.
Qed.

(** One step of the sum adds what the text is worth. *)
Lemma sum_step_written neg ip f total : parts_ok ip f -> length f <= 9 ->
  sum_step (Some (written neg ip f)) total = Some (Some (total + signed neg (Z.of_N (digits_value (ip ++ f)) * 10 ^ (9 - Z.of_nat (length f))))%Z).
Proof.
  intros Hp Hl. unfold sum_step. rewrite decimal_written, (proj2 (Nat.leb_le _ _)) by done. simpl.
  destruct (parts_absent 45 ip f Hp eq_refl) as [Mi Mf]. destruct (parts_absent 46 ip f Hp eq_refl) as [Di Df].
  assert (E : remove_first 45 (written neg ip f) = ip ++ match f with [] => [] | _ => 46%N :: f end).
  { destruct neg; [done|]. apply remove_first_absent. unfold written. destruct f; set_solver. }
  assert (Es : split_unit 46 (ip ++ match f with [] => [] | _ => 46%N :: f end) = match f with [] => [ip] | _ => [ip; f] end).
  { destruct f as [|d f]; [rewrite app_nil_r; by apply split_unit_no|]. by rewrite split_unit_app, split_unit_no. }
  assert (Hw : starts_with (js "-") (written neg ip f) = neg).
  { destruct neg; [done|]. destruct ip as [|c u]; [by destruct Hp|]. apply not_true_iff_false.
    intros (r & [= -> _])%starts_with_true. set_solver. }
  rewrite E, Es, Hw. destruct Hp as [Hi Hf].
  assert (nth 0 match f with [] => [ip] | _ => [ip; f] end [] = ip) as -> by by destruct f.
  assert (nth 1 match f with [] => [ip] | _ => [ip; f] end [] = f) as -> by by destruct f.
  rewrite (js_BigInt_digits ip), (js_BigInt_digits (pad_end 9 f)), pad_end_value by (try apply pad_end_digits; done).
  assert (A : (Z.of_N (digits_value ip) * giga + Z.of_N (digits_value f * 10 ^ N.of_nat (9 - length f)))%Z =
              (Z.of_N (digits_value (ip ++ f)) * 10 ^ (9 - Z.of_nat (length f)))%Z).
  { rewrite digits_value_app. replace (9 - Z.of_nat (length f))%Z with (Z.of_N (N.of_nat (9 - length f))) by lia.
    rewrite N2Z.inj_mul, N2Z.inj_add, N2Z.inj_mul, !N2Z.inj_pow. change (Z.of_N 10) with 10%Z.
    rewrite Z.mul_add_distr_r, <- Z.mul_assoc, <- Z.pow_add_r by lia.
    replace (Z.of_N (N.of_nat (length f)) + Z.of_N (N.of_nat (9 - length f)))%Z with 9%Z by lia. done. }
  rewrite A. by destruct neg.
Qed.

(** ** The sum *)

Lemma sum_step_spec value total : sum_step value total = Some ((fun z => total + z)%Z <$> (value ≫= billionths)).
Proof.
  destruct value as [s|]; [|done]. change (Some s ≫= billionths) with (billionths s). destruct (decimal_form (Some 9) s) eqn:E.
  - destruct (decimal_parts _ _ E) as (neg & ip & f & -> & Hp). rewrite decimal_written in E by done. apply Nat.leb_le in E.
    by rewrite sum_step_written, billionths_written.
  - unfold sum_step, billionths. by rewrite E.
Qed.

(** The sum of what the texts are worth, if all of them are amounts. *)
Definition exact_sum (values : list (option jstr)) : option Z := foldr Z.add 0%Z <$> mapM (fun v => v ≫= billionths) values.

Lemma sum_loop_spec values total : sum_loop values total = Some ((fun z => total + z)%Z <$> exact_sum values).
Proof.
  revert total. induction values as [|v values IH]; intros total; simpl; [by rewrite Z.add_0_r|].
  rewrite sum_step_spec. unfold exact_sum in *. simpl. destruct (v ≫= billionths) as [z|]; simpl; [|done].
  rewrite IH. destruct (mapM _ values); simpl; [|done]. by rewrite Z.add_assoc.
Qed.

Lemma print_Z_nonneg z : (0 <= z)%Z -> print_Z z = print_N (Z.to_N z).
Proof. by destruct z. Qed.

Lemma amount_text_written z : exists ip f, amount_text z = written (z <? 0)%Z ip f /\ parts_ok ip f /\ length f = 9 /\ Z.of_N (digits_value (ip ++ f)) = Z.abs z.
Proof.
  unfold amount_text. set (a := if (z <? 0)%Z then (- z)%Z else z). assert (Ha : a = Z.abs z) by (unfold a; destruct (Z.ltb_spec z 0); lia). clearbody a. subst a.
  assert (Hg : (giga <> 0)%Z) by done. pose proof (Z.rem_bound_pos (Z.abs z) giga ltac:(lia) ltac:(done)) as Hr.
  pose proof (Z.quot_rem' (Z.abs z) giga) as Hq. pose proof (Z.quot_pos (Z.abs z) giga ltac:(lia) ltac:(done)) as Hp.
  rewrite !print_Z_nonneg by lia.
  destruct (pad_start_parts 9 (Z.to_N (Z.rem (Z.abs z) giga))) as (Hd & Hl & Hv); [lia|unfold giga in *; lia|].
  exists (print_N (Z.to_N (Z.quot (Z.abs z) giga))), (pad_start 9 (print_N (Z.to_N (Z.rem (Z.abs z) giga)))).
  split. { destruct (pad_start 9 _) as [|c f] eqn:E; [done|]. unfold written. by destruct (z <? 0)%Z. }
  split; [split; [apply print_N_digits|done]|]. split; [done|].
  rewrite digits_value_app, Hl, Hv, print_N_value. rewrite N2Z.inj_add, N2Z.inj_mul, N2Z.inj_pow, !Z2N.id by lia. unfold giga in *. lia.
Qed.

Lemma amount_text_value z : billionths (amount_text z) = Some z.
Proof.
  destruct (amount_text_written z) as (ip & f & -> & Hp & Hl & Hv). rewrite billionths_written, Hl by (done || lia).
  simpl (_ ^ _)%Z. rewrite Z.mul_1_r, Hv. f_equal. unfold signed. destruct (Z.ltb_spec z 0); lia.
Qed.

Lemma written_nine neg ip f : parts_ok ip f -> length f = 9 -> nine_decimals (written neg ip f).
Proof.
  intros Hp Hl. unfold nine_decimals. rewrite billionths_written by (done || lia). eexists. split; [done|].
  rewrite unsigned_written by done. simpl. rewrite span_written by done. by destruct f.
Qed.

Lemma amount_text_nine z : nine_decimals (amount_text z).
Proof. destruct (amount_text_written z) as (ip & f & -> & Hp & Hl & _). by apply written_nine. Qed.

(** C23: The subtotal of amounts is exact: if every text is a decimal of at most nine
    decimals the result stands for the sum of what they stand for, and is written
    with nine decimals; if one is missing or another text there is no subtotal; and
    nothing is thrown. *)
Theorem amounts_sum_exact values :
  exists r, sumUsageAuditAmounts values = Some r /\
  match exact_sum values with
  | Some z => exists s, r = Some s /\ billionths s = Some z /\ nine_decimals s
  | None => r = None
  end.
Proof.
  unfold sumUsageAuditAmounts. rewrite sum_loop_spec. destruct (exact_sum values) as [z|]; simpl; eexists; (split; [done|]); [|done].
  eexists. split; [done|]. split; [apply amount_text_value|apply amount_text_nine].
Qed.

(** A subtotal of subtotals is the subtotal of all. *)
Lemma exact_sum_cons o v : exact_sum (o :: v) = ((o ≫= billionths) ≫= fun a => (fun b => a + b)%Z <$> exact_sum v).
Proof. unfold exact_sum. simpl. destruct (o ≫= billionths); [|done]. simpl. by destruct (mapM _ v). Qed.

Lemma exact_sum_app u v : exact_sum (u ++ v) = (exact_sum u ≫= fun a => (fun b => a + b)%Z <$> exact_sum v).
Proof.
  induction u as [|o u IH]; [simpl; destruct (exact_sum v); done|].
  change ((o :: u) ++ v) with (o :: (u ++ v)). rewrite !exact_sum_cons, IH. destruct (o ≫= billionths) as [a|]; [|done]. simpl.
  destruct (exact_sum u) as [b|]; [|done]. simpl. destruct (exact_sum v) as [c|]; [|done]. simpl. by rewrite Z.add_assoc.
Qed.

Theorem amounts_sum_nested u v s :
  sumUsageAuditAmounts u = Some (Some s) -> sumUsageAuditAmounts (Some s :: v) = sumUsageAuditAmounts (u ++ v).
Proof.
  unfold sumUsageAuditAmounts. rewrite !sum_loop_spec, exact_sum_app, exact_sum_cons. simpl. destruct (exact_sum u) as [z|]; simpl; [|done].
  intros [= <-]. rewrite amount_text_value. simpl. done.
Qed.

(** The difference of the prices of a row is exact for amounts as the server writes
    them, and is the subtotal of the list price and the amount taken away. *)
Lemma whole_units s : nine_decimals s -> exists z, billionths s = Some z /\ js_BigInt (remove_first 46 s) = Some z.
Proof.
  intros (z & Hz & Hl). exists z. split; [done|]. pose proof Hz as Hb. unfold billionths in Hb. destruct (decimal_form (Some 9) s) eqn:E; [|done]. clear Hb.
  destruct (decimal_parts _ _ E) as (neg & ip & f & -> & Hp). rewrite unsigned_written in Hl by done. simpl in Hl. rewrite span_written in Hl by done.
  destruct f as [|d f]; [done|]. simpl in Hl. rewrite billionths_written in Hz by (done || simpl; lia).
  destruct (parts_absent 46 _ _ Hp eq_refl) as [Di _].
  assert (El : remove_first 46 (written neg ip (d :: f)) = (if neg then [45%N] else []) ++ ip ++ d :: f).
  { unfold written. rewrite !app_assoc. apply remove_first_hit. destruct neg; set_solver. }
  assert (Hd : all_digits (ip ++ d :: f) = true).
  { destruct Hp as [Hi Hf]. unfold all_digits in *. apply andb_true_iff in Hi as [Ht Hi]. rewrite forallb_app, Hi, Hf. by destruct ip. }
  rewrite El. simpl length in Hz. rewrite Hl in Hz. replace (9 - Z.of_nat 9)%Z with 0%Z in Hz by done. rewrite Z.mul_1_r in Hz. rewrite <- Hz.
  destruct neg; simpl app; [by rewrite js_BigInt_neg|by rewrite js_BigInt_digits].
Qed.

Theorem price_difference_exact total actual :
  nine_decimals total -> nine_decimals actual ->
  exists a b s, billionths total = Some a /\ billionths actual = Some b /\ priceDifference total actual = Some s /\ billionths s = Some (a - b)%Z /\ nine_decimals s.
Proof.
  intros (a & Ha & Ea)%whole_units (b & Hb & Eb)%whole_units. exists a, b, (amount_text (a - b)).
  unfold priceDifference. rewrite Ea, Eb. repeat split; [done|done|apply amount_text_value|apply amount_text_nine].
Qed.

(** Amounts with other numbers of decimals are not lined up. *)
Example difference_of_short_amounts : priceDifference (js "1.5") (js "0.5") = Some (js "0.000000010").
Proof. vm_compute. reflexivity. Qed.

Lemma price_difference_witness :
  exists a b s, billionths (js "0.020174000") = Some a /\ billionths (js "-0.500000001") = Some b /\ priceDifference (js "0.020174000") (js "-0.500000001") = Some s /\ billionths s = Some (a - b)%Z /\ nine_decimals s.
Proof. apply price_difference_exact; eexists; split; vm_compute; reflexivity. Defined.

(** * Exported tables *)

(** A cell: a text, a number, or [null] and [undefined]. *)
Inductive Cell := CText (s : jstr) | CNum (x : num) | CNone.

Definition cell_string (v : Cell) : jstr := match v with CText s => s | CNum x => num_to_string x | CNone => [] end.

(** [/^[=+\-@\t\r]/] *)
Definition formula_start (s : jstr) : bool := match s with c :: _ => bool_decide (c ∈ [61; 43; 45; 64; 9; 13]%N) | [] => false end.

Definition cell_text (v : Cell) : jstr :=
  let cell := cell_string v in
  if (formula_start cell && negb (decimal_form None cell))%bool then 39%N :: cell else cell.

(** [cell.replaceAll]: every quote is written twice. *)
Fixpoint double_quotes (s : jstr) : jstr :=
  match s with
  | [] => []
  | c :: t => if N.eqb c 34 then 34%N :: 34%N :: double_quotes t else c :: double_quotes t
  end.

Definition csv_cell (v : Cell) : jstr := 34%N :: double_quotes (cell_text v) ++ [34%N].
Definition csv_row (row : list Cell) : jstr := join (js ",") (List.map csv_cell row).
Definition usageAuditCsv (records : list (list Cell)) : jstr := 65279%N :: join [13; 10]%N (List.map csv_row records).

(** ** A reader of such tables

    Fields in quotes or bare, separated by commas, records ended by CR LF (RFC 4180),
    after an optional mark of the byte order. *)
Inductive CsvState := FieldStart | InQuotes | AfterQuote | Bare | AfterCr.

Section Reader.
Definition csv_field (cell : jstr) (row : list jstr) : list jstr := row ++ [reverse cell].

Fixpoint csv_read (st : CsvState) (cell : jstr) (row : list jstr) (rows : list (list jstr)) (s : jstr) : option (list (list jstr)) :=
  match s with
  | [] =>
      match st with
      | InQuotes | AfterCr => None
      | _ => Some (rows ++ [csv_field cell row])
      end
  | c :: t =>
      match st with
      | InQuotes => if N.eqb c 34 then csv_read AfterQuote cell row rows t else csv_read InQuotes (c :: cell) row rows t
      | AfterCr => if N.eqb c 10 then csv_read FieldStart [] [] (rows ++ [csv_field cell row]) t else None
      | _ =>
          if N.eqb c 34 then
            match st with
            | FieldStart => csv_read InQuotes [] row rows t
            | AfterQuote => csv_read InQuotes (34%N :: cell) row rows t
            | _ => None
            end
          else if N.eqb c 44 then csv_read FieldStart [] (csv_field cell row) rows t
          else if N.eqb c 13 then csv_read AfterCr cell row rows t
          else match st with AfterQuote => None | _ => csv_read Bare (c :: cell) row rows t end
      end
  end.

Definition read_csv (s : jstr) : option (list (list jstr)) :=
  csv_read FieldStart [] [] [] (match s with 65279%N :: t => t | _ => s end).
End Reader.

Example csv_sample :
  usageAuditCsv [[CText (jq "=HYPERLINK(`x`)"); CText (js "key,name"); CText (js "-0.020174"); CText (js "line" ++ [10%N] ++ js "break")]] =
  65279%N :: jq "`'=HYPERLINK(``x``)`,`key,name`,`-0.020174`,`line" ++ [10%N] ++ jq "break`".
Proof. vm_compute. reflexivity. Qed.

(** ** What is written is read *)

Lemma csv_read_quoted u cell row rows t :
  csv_read InQuotes cell row rows (double_quotes u ++ 34%N :: t) = csv_read AfterQuote (reverse u ++ cell) row rows t.
Proof.
  revert cell. induction u as [|c u IH]; intros cell; [done|].
  rewrite reverse_cons, <- app_assoc. simpl. destruct (N.eqb_spec c 34) as [->|Hc]; simpl; [apply IH|].
  rewrite (proj2 (N.eqb_neq _ _)) by done. apply IH.
Qed.

Lemma csv_read_cell v row rows t :
  csv_read FieldStart [] row rows (csv_cell v ++ t) = csv_read AfterQuote (reverse (cell_text v)) row rows t.
Proof.
  change (csv_read InQuotes [] row rows ((double_quotes (cell_text v) ++ [34%N]) ++ t) = csv_read AfterQuote (reverse (cell_text v)) row rows t).
  rewrite <- app_assoc. change ([34%N] ++ t) with (34%N :: t). by rewrite csv_read_quoted, app_nil_r.
Qed.

Lemma csv_read_row v vs row rows t :
  csv_read FieldStart [] row rows (csv_row (v :: vs) ++ t) =
  csv_read AfterQuote (reverse (cell_text (List.last (v :: vs) CNone))) (row ++ List.map cell_text (removelast (v :: vs))) rows t.
Proof.
  revert v row. induction vs as [|w vs IH]; intros v row; [unfold csv_row; cbn [List.map join List.last removelast]; by rewrite app_nil_r, csv_read_cell|].
  unfold csv_row in *. cbn [List.map]. rewrite join_cons2, <- app_assoc, csv_read_cell. cbn [List.map] in IH.
  change ((js "," ++ join (js ",") (csv_cell w :: List.map csv_cell vs)) ++ t) with (44%N :: join (js ",") (csv_cell w :: List.map csv_cell vs) ++ t).
  cbn [csv_read N.eqb Pos.eqb]. rewrite IH. unfold csv_field. rewrite reverse_involutive, <- app_assoc. done.
Qed.

Lemma row_closed v vs : csv_field (reverse (cell_text (List.last (v :: vs) CNone))) (List.map cell_text (removelast (v :: vs))) = List.map cell_text (v :: vs).
Proof.
  unfold csv_field. rewrite reverse_involutive. rewrite (app_removelast_last CNone (l := v :: vs)) at 3 by done. by rewrite List.map_app.
Qed.

Lemma csv_read_records r records rows :
  r <> [] -> Forall (fun r => r <> []) records ->
  csv_read FieldStart [] [] rows (join [13; 10]%N (List.map csv_row (r :: records))) = Some (rows ++ List.map (List.map cell_text) (r :: records)).
Proof.
  revert r rows. induction records as [|q records IH]; intros r rows Hr Hf; destruct r as [|v vs]; [done| |done|].
  - simpl join. rewrite <- (app_nil_r (csv_row (v :: vs))), csv_read_row. cbn [csv_read N.eqb Pos.eqb app]. by rewrite ?app_nil_l, row_closed.
  - inversion Hf; subst. simpl List.map. rewrite join_cons2, csv_read_row. simpl List.map in IH.
    change (([13; 10] ++ join [13; 10] (csv_row q :: List.map csv_row records))%N) with (13%N :: 10%N :: join [13; 10]%N (csv_row q :: List.map csv_row records)).
    cbn [csv_read N.eqb Pos.eqb app]. rewrite ?app_nil_l, row_closed, IH by done. by rewrite <- app_assoc.
Qed.

(** C24: An exported table is read back row by row and cell by cell, whatever the
    cells hold: commas, quotes and line ends do not break it. *)
Theorem csv_reads_back records :
  records <> [] -> Forall (fun row => row <> []) records ->
  read_csv (usageAuditCsv records) = Some (List.map (List.map cell_text) records).
Proof.
  intros Hn Hf. destruct records as [|r records]; [done|]. inversion Hf; subst.
  unfold read_csv, usageAuditCsv. by rewrite csv_read_records.
Qed.

(** No cell is a formula, and a cell is the text it was given, or that text behind
    an apostrophe. *)
Theorem cells_neutral v :
  (formula_start (cell_text v) = true -> decimal_form None (cell_text v) = true) /\
  (cell_text v = cell_string v \/ cell_text v = 39%N :: cell_string v /\ decimal_form None (cell_string v) = false).
Proof.
  unfold cell_text. destruct (formula_start (cell_string v)) eqn:Ef, (decimal_form None (cell_string v)) eqn:Ed; simpl; split; auto; try congruence.
Qed.

(** An amount stays an amount. *)
Lemma amount_cell s z : billionths s = Some z -> cell_text (CText s) = s.
Proof.
  unfold billionths. destruct (decimal_form (Some 9) s) eqn:E; [|done]. intros _.
  destruct (decimal_parts _ _ E) as (neg & ip & f & -> & Hp). unfold cell_text. simpl. by rewrite decimal_written, andb_false_r.
Qed.

(** * The records of a report *)

Record Tokens := {
  tk_input : Z; tk_cache_read : Z; tk_cache_creation : Z; tk_output : Z; tk_total_input : Z }.

Record Cost := {
  co_input : jstr; co_cache_read : jstr; co_cache_write : jstr; co_output : jstr; co_rounding : jstr; co_total : jstr }.

Record Recalculation := {
  rc_request_count : Z; rc_excluded : Z; rc_tokens : Z; rc_cache_read : Z; rc_cache_creation : Z; rc_unpriced : Z;
  rc_platform_amount : jstr; rc_list_amount : jstr }.

(** The pricing evidence; ratios may be [null]. *)
Record Evidence := {
  ev_request_path : jstr; ev_request_conversion : option (list jstr); ev_billing_path : jstr;
  ev_model_ratio : option num; ev_completion_ratio : option num; ev_cache_ratio : option num; ev_creation_ratio : option num;
  ev_creation_ratio_5m : option num; ev_creation_ratio_1h : option num; ev_creation_tokens_5m : Z; ev_creation_tokens_1h : Z }.

Record AuditRow := {
  ar_recalculation : option Recalculation; ar_id : Z; ar_user_id : Z; ar_username : jstr; ar_token_id : Z; ar_token_name : jstr;
  ar_created_at : Z; ar_request_id : jstr; ar_upstream_request_id : jstr; ar_model : jstr; ar_group : jstr; ar_channel_id : Z;
  ar_is_stream : bool; ar_kind : jstr; ar_protocol : jstr; ar_usage_semantic : jstr; ar_group_ratio : option num; ar_tokens : option Tokens;
  ar_actual_amount : jstr; ar_list_prices : option Cost; ar_list_cost : option Cost; ar_discounted_cost : option Cost;
  ar_difference : option jstr; ar_duplicate_tokens : Z; ar_duplicate_status : jstr; ar_issue : jstr; ar_evidence : option Evidence }.

(** What the export of the details uses of a report. *)
Record AuditReport := {
  re_sha256 : jstr; re_start_at : Z; re_end_at : Z; re_generated_at : Z; re_currency_code : jstr; re_currency_rate : jstr;
  re_basis : jstr; re_rows : list AuditRow }.

(** ** The details *)

Definition detail_headers : list jstr := List.map js [
  "report_sha256"; "user_id"; "username"; "token_id"; "token_name"; "created_at_utc"; "request_id"; "upstream_request_id"; "model";
  "group"; "group_ratio"; "protocol"; "usage_semantic"; "input_tokens"; "cache_read_input_tokens"; "cache_creation_input_tokens";
  "output_tokens"; "total_input_tokens"; "actual_amount"; "list_amount"; "discounted_amount"; "actual_minus_recalculated";
  "list_input_per_million"; "list_cache_read_per_million"; "list_cache_write_per_million"; "list_output_per_million";
  "discounted_input_amount"; "discounted_cache_read_amount"; "discounted_cache_write_amount"; "discounted_output_amount";
  "possible_duplicate_input_tokens"; "duplicate_status"; "issue"; "currency"; "currency_rate"; "log_id"; "log_kind";
  "created_at_shanghai"; "channel_id"; "is_stream"; "list_input_amount"; "list_cache_read_amount"; "list_cache_write_amount";
  "list_output_amount"; "list_rounding_amount"; "platform_rounding_amount"; "list_minus_platform_amount";
  "possible_duplicate_cache_read_tokens"; "possible_duplicate_cache_write_tokens"; "input_repricing_tokens";
  "input_repricing_platform_amount"; "input_repricing_base_amount"; "input_repricing_unpriced_tokens"; "period_start_utc";
  "period_end_exclusive_utc"; "report_generated_at_utc"; "request_path"; "request_conversion"; "billing_path"; "model_ratio";
  "completion_ratio"; "cache_read_ratio"; "cache_write_ratio"; "cache_write_5m_ratio"; "cache_write_1h_ratio";
  "cache_write_5m_tokens"; "cache_write_1h_tokens"; "recalculation_basis"]%string.

(** An integer of the server, as a cell. *)
Definition CInt (z : Z) : Cell := CText (print_Z z).
Definition opt_text (o : option jstr) : Cell := match o with Some s => CText s | None => CNone end.
Definition opt_int (o : option Z) : Cell := match o with Some z => CInt z | None => CNone end.
Definition opt_num (o : option num) : Cell := match o with Some x => CNum x | None => CNone end.

(** [new Date(seconds * 1000).toISOString()] *)
Definition utc_text (seconds : Z) : option jstr := to_iso (seconds * 1000).

Fixpoint replace_first (c d : N) (s : jstr) : jstr :=
  match s with
  | [] => []
  | x :: t => if N.eqb x c then d :: t else x :: replace_first c d t
  end.

(** The wall clock eight hours ahead *)
Definition shanghai_text (seconds : Z) : option jstr :=
  (fun s => replace_first 84 32 (take 19 s) ++ js "+08:00") <$> to_iso ((seconds + 28800) * 1000).

(** A row of the details; [None] when a date or an amount throws. *)
Definition detail_row (report : AuditReport) (row : AuditRow) : option (list Cell) :=
  difference ← match ar_list_cost row with
               | Some cost => Some <$> priceDifference (co_total cost) (ar_actual_amount row)
               | None => Some None
               end;
  created_utc ← utc_text (ar_created_at row);
  created_shanghai ← shanghai_text (ar_created_at row);
  period_start ← utc_text (re_start_at report);
  period_end ← utc_text (re_end_at report);
  generated ← utc_text (re_generated_at report);
  let tokens (f : Tokens -> Z) := opt_int (f <$> ar_tokens row) in
  let list_cost (f : Cost -> jstr) := opt_text (f <$> ar_list_cost row) in
  let discounted (f : Cost -> jstr) := opt_text (f <$> ar_discounted_cost row) in
  let prices (f : Cost -> jstr) := opt_text (f <$> ar_list_prices row) in
  let repriced (f : Recalculation -> Z) := CInt ((f <$> ar_recalculation row) ?? 0%Z) in
  let repriced_text (f : Recalculation -> jstr) := opt_text (f <$> ar_recalculation row) in
  let evidence_ratio (f : Evidence -> option num) := opt_num (ar_evidence row ≫= f) in
  Some [
    CText (re_sha256 report); CInt (ar_user_id row); CText (ar_username row); CInt (ar_token_id row); CText (ar_token_name row);
    CText created_utc; CText (ar_request_id row); CText (ar_upstream_request_id row); CText (ar_model row); CText (ar_group row);
    opt_num (ar_group_ratio row); CText (ar_protocol row); CText (ar_usage_semantic row);
    tokens tk_input; tokens tk_cache_read; tokens tk_cache_creation; tokens tk_output; tokens tk_total_input;
    CText (ar_actual_amount row); list_cost co_total; discounted co_total; opt_text (ar_difference row);
    prices co_input; prices co_cache_read; prices co_cache_write; prices co_output;
    discounted co_input; discounted co_cache_read; discounted co_cache_write; discounted co_output;
    CInt (ar_duplicate_tokens row); CText (ar_duplicate_status row); CText (ar_issue row);
    CText (re_currency_code report); CText (re_currency_rate report); CInt (ar_id row); CText (ar_kind row);
    CText created_shanghai; CInt (ar_channel_id row); CText (if ar_is_stream row then js "true" else js "false");
    list_cost co_input; list_cost co_cache_read; list_cost co_cache_write; list_cost co_output; list_cost co_rounding;
    discounted co_rounding; opt_text difference;
    repriced rc_cache_read; repriced rc_cache_creation; repriced rc_tokens;
    repriced_text rc_platform_amount; repriced_text rc_list_amount; repriced rc_unpriced;
    CText period_start; CText period_end; CText generated;
    opt_text (ev_request_path <$> ar_evidence row);
    opt_text (join (js " -> ") <$> (ar_evidence row ≫= ev_request_conversion));
    opt_text (ev_billing_path <$> ar_evidence row);
    evidence_ratio ev_model_ratio; evidence_ratio ev_completion_ratio; evidence_ratio ev_cache_ratio; evidence_ratio ev_creation_ratio;
    evidence_ratio ev_creation_ratio_5m; evidence_ratio ev_creation_ratio_1h;
    opt_int (ev_creation_tokens_5m <$> ar_evidence row); opt_int (ev_creation_tokens_1h <$> ar_evidence row);
    CText (re_basis report)].

Definition detail_records (report : AuditReport) : option (list (list Cell)) :=
  rows ← mapM (detail_row report) (re_rows report); Some (List.map CText detail_headers :: rows).

Definition usageAuditDetailsCsv (report : AuditReport) : option jstr := usageAuditCsv <$> detail_records report.

(** ** What the details hold *)

(** The field of a record under a header. *)
Definition column (header : jstr) (record : list jstr) : option jstr :=
  '(i, _) ← list_find (fun h => h = header) detail_headers; record !! i.

(** Times of the server, as far as years of four digits surely go. *)
Definition server_time (seconds : Z) : Prop := (0 <= seconds <= 240000000000)%Z.

Definition row_ok (row : AuditRow) : Prop :=
  server_time (ar_created_at row) /\ nine_decimals (ar_actual_amount row) /\
  match ar_list_cost row with Some cost => nine_decimals (co_total cost) | None => True end.

Definition report_ok (report : AuditReport) : Prop :=
  server_time (re_start_at report) /\ server_time (re_end_at report) /\ server_time (re_generated_at report) /\ Forall row_ok (re_rows report).

Definition field_is (record : list jstr) (header : string) (s : jstr) : Prop := column (js header) record = Some s.

(** The record of a log: every column is there, the identifiers and the amount are the
    log's, both times name its instant, and the difference is exact. *)
Definition record_of (row : AuditRow) (record : list jstr) : Prop :=
  length record = length detail_headers /\
  field_is record "log_id" (print_Z (ar_id row)) /\
  field_is record "request_id" (cell_text (CText (ar_request_id row))) /\
  field_is record "actual_amount" (ar_actual_amount row) /\
  (exists u, field_is record "created_at_utc" u /\ iso_time u = Some (ar_created_at row * 1000)%Z) /\
  (exists u, field_is record "created_at_shanghai" u /\ iso_time (replace_first 32 84 u) = Some (ar_created_at row * 1000)%Z) /\
  match ar_list_cost row with
  | Some cost => exists a b d, billionths (co_total cost) = Some a /\ billionths (ar_actual_amount row) = Some b /\
                   field_is record "list_minus_platform_amount" d /\ billionths d = Some (a - b)%Z
  | None => field_is record "list_minus_platform_amount" []
  end.

(** The text of a time of the server. *)
Lemma server_text t : (0 <= t <= 240000100000000)%Z -> exists c u, iso_text t = c :: u /\ is_digit c = true.
Proof.
  intros Ht. destruct (iso_text_parts t) as (y & m & d & h & mi & s & ms & -> & _ & _ & Hy).
  destruct (year_shape y) as (Hl & Hd); [auto|]. unfold date_part. destruct (year_text y) as [|c u]; [done|].
  simpl in Hd. apply andb_true_iff in Hd as [Hc _]. eexists c, _. done.
Qed.

Lemma digit_cell c u : is_digit c = true -> cell_text (CText (c :: u)) = c :: u.
Proof.
  intros Hc. unfold cell_text, formula_start. simpl. unfold is_digit, in_range in Hc.
  rewrite bool_decide_eq_false_2; [done|]. set_unfold. lia.
Qed.

Lemma utc_cell seconds : (0 <= seconds <= 240000000000)%Z ->
  exists u, utc_text seconds = Some u /\ cell_text (CText u) = u /\ iso_time u = Some (seconds * 1000)%Z.
Proof.
  intros Hs. unfold utc_text, to_iso. assert (Hi : in_time (seconds * 1000) = true) by (unfold in_time; lia). rewrite Hi.
  destruct (server_text (seconds * 1000)) as (c & u & E & Hc); [lia|]. eexists. split; [done|].
  split; [rewrite E; by apply digit_cell|by apply iso_roundtrip].
Qed.

Lemma replace_first_hit c d u v : c ∉ u -> replace_first c d (u ++ c :: v) = u ++ d :: v.
Proof. induction u as [|x u IH]; simpl; [by rewrite N.eqb_refl|]. intros H. destruct (N.eqb_spec x c); [set_solver|]. rewrite IH; set_solver. Qed.

Lemma shanghai_cell seconds : (0 <= seconds <= 240000000000)%Z ->
  exists u, shanghai_text seconds = Some u /\ cell_text (CText u) = u /\ iso_time (replace_first 32 84 u) = Some (seconds * 1000)%Z.
Proof.
  intros Hs. unfold shanghai_text, to_iso. set (t := ((seconds + 28800) * 1000)%Z).
  assert (Hi : in_time t = true) by (unfold in_time, t; lia). rewrite Hi.
  destruct (iso_text_parts t) as (y & m & d & h & mi & s & ms & E & Hp & Hsum & Hy). specialize (Hy ltac:(unfold t; lia)).
  pose proof (date_part_shape y m d Hy ltac:(apply Hp)) as (Hl & Hn & Hh). pose proof (clock_part_length h mi s ltac:(apply Hp) ltac:(apply Hp) ltac:(apply Hp)) as Hc.
  assert (Et : take 19 (iso_text t) = date_part y m d ++ 84%N :: clock_part h mi s).
  { rewrite E. change (84%N :: clock_part h mi s ++ ?x) with ((84%N :: clock_part h mi s) ++ x). rewrite app_assoc.
    apply take_app_length'. rewrite length_app. simpl. lia. }
  eexists. split; [done|]. rewrite Et, replace_first_hit by (intros Hin; by destruct (Hn _ Hin)).
  assert (Hms : ms = 0%Z).
  { destruct Hp as (_ & _ & _ & _ & Hms). unfold t in Hsum. lia. }
  split.
  - destruct Hh as (c & u & -> & Hc'). by apply digit_cell.
  - rewrite <- app_assoc. simpl app. rewrite replace_first_hit by (intros Hin; by destruct (Hn _ Hin)).
    rewrite (iso_time_clock y m d h mi s 480 (js "+08:00")) by (try apply Hp; done || lia).
    unfold t in Hsum. subst ms. cbv zeta. match goal with |- (if in_time ?x then _ else _) = _ => assert (x = (seconds * 1000)%Z) as -> by lia end.
    by assert (in_time (seconds * 1000) = true) as -> by (unfold in_time; lia).
Qed.

Lemma print_Z_cell z : cell_text (CInt z) = print_Z z.
Proof.
  assert (E : exists neg ip, print_Z z = written neg ip [] /\ parts_ok ip []).
  { destruct z as [|p|p]; simpl.
    - exists false, (print_N 0). done.
    - exists false, (print_N (Npos p)). unfold written. rewrite app_nil_r. split; [done|]. split; [apply print_N_digits|done].
    - exists true, (print_N (Npos p)). unfold written. rewrite app_nil_r. split; [done|]. split; [apply print_N_digits|done]. }
  destruct E as (neg & ip & E & Hp). unfold cell_text, CInt. simpl. rewrite E, decimal_written by done. by rewrite andb_false_r.
Qed.

Lemma nine_cell s : nine_decimals s -> cell_text (CText s) = s.
Proof. intros (z & Hz & _). by eapply amount_cell. Qed.

Lemma headers_plain : List.map cell_text (List.map CText detail_headers) = detail_headers.
Proof. vm_compute. reflexivity. Qed.

Lemma headers_distinct : NoDup detail_headers.
Proof. apply (bool_decide_unpack _). vm_compute. exact I. Qed.

(** The difference of a row: absent without a list price, exact otherwise. *)
Lemma row_difference row : row_ok row -> exists difference,
  match ar_list_cost row with
  | Some cost => Some <$> priceDifference (co_total cost) (ar_actual_amount row)
  | None => Some None
  end = Some difference /\
  match ar_list_cost row with
  | Some cost => exists a b d, billionths (co_total cost) = Some a /\ billionths (ar_actual_amount row) = Some b /\
                   cell_text (opt_text difference) = d /\ billionths d = Some (a - b)%Z
  | None => cell_text (opt_text difference) = []
  end.
Proof.
  intros (_ & Ha & Hc). destruct (ar_list_cost row) as [cost|]; [|by exists None].
  destruct (whole_units _ Hc) as (a & Ea & Wa), (whole_units _ Ha) as (b & Eb & Wb).
  exists (Some (amount_text (a - b))). unfold priceDifference. rewrite Wa, Wb. split; [done|].
  exists a, b, (amount_text (a - b)). split; [done|]. split; [done|].
  split; [apply nine_cell, amount_text_nine|apply amount_text_value].
Qed.

Lemma detail_row_of report row : report_ok report -> row_ok row ->
  exists cells, detail_row report row = Some cells /\ record_of row (List.map cell_text cells).
Proof.
  intros (Hs & He & Hg & _) Hr. pose proof Hr as (Hc & Ha & _). destruct (row_difference row Hr) as (difference & Ed & Hd).
  destruct (utc_cell _ Hc) as (u & Eu & Cu & Iu), (shanghai_cell _ Hc) as (v & Ev & Cv & Iv).
  destruct (utc_cell _ Hs) as (s & Es & _), (utc_cell _ He) as (e & Ee & _), (utc_cell _ Hg) as (g & Eg & _).
  unfold detail_row. rewrite Ed, Eu, Ev, Es, Ee, Eg. cbn [mbind option_bind]. eexists. split; [done|].
  unfold record_of, field_is. cbn [List.map].
  split; [done|]. split; [rewrite <- print_Z_cell; reflexivity|]. split; [reflexivity|].
  split; [rewrite <- (nine_cell _ Ha) at 2; reflexivity|].
  split; [exists (cell_text (CText u)); split; [reflexivity|by rewrite Cu]|].
  split; [exists (cell_text (CText v)); split; [reflexivity|by rewrite Cv]|].
  destruct (ar_list_cost row) as [cost|].
  - destruct Hd as (a & b & d & Eca & Ecb & Ecd & Ebd). exists a, b, (cell_text (opt_text difference)).
    split; [done|]. split; [done|]. split; [reflexivity|by rewrite Ecd].
  - change (Some (cell_text (opt_text difference)) = Some []). by rewrite Hd.
Qed.

Lemma detail_rows_of report rows : report_ok report -> Forall row_ok rows ->
  exists cells, mapM (detail_row report) rows = Some cells /\ Forall (fun r => r <> []) cells /\ Forall2 record_of rows (List.map (List.map cell_text) cells).
Proof.
  intros Hok. induction 1 as [|row rows Hr _ (cells & E & Hn & H)]; [by exists []|].
  destruct (detail_row_of report row Hok Hr) as (cs & Ec & Hc). exists (cs :: cells). simpl. rewrite Ec, E. split; [done|].
  split; [|by constructor]. constructor; [|done]. intros ->. by destruct Hc.
Qed.

(** C22: The export of the details succeeds for what the server sends, and its text,
    read as a table, is the headers and one record per log, in order, with every
    column: the identifiers and the amount of the log, both times naming its instant,
    and the exact difference to the list price. *)
Theorem details_read_back report : report_ok report ->
  exists csv records, usageAuditDetailsCsv report = Some csv /\ read_csv csv = Some (detail_headers :: records) /\
    Forall2 record_of (re_rows report) records.
Proof.
  intros Hok. destruct (detail_rows_of report (re_rows report) Hok ltac:(apply Hok)) as (cells & E & Hn & H).
  exists (usageAuditCsv (List.map CText detail_headers :: cells)), (List.map (List.map cell_text) cells).
  unfold usageAuditDetailsCsv, detail_records. rewrite E. split; [done|]. split; [|done].
  unfold read_csv, usageAuditCsv. rewrite csv_read_records by done. cbn [List.map app]. by rewrite headers_plain.
Qed.

(** A time the dates do not reach stops the export. *)
Lemma details_date_throws report row rows :
  re_rows report = row :: rows -> in_time (re_generated_at report * 1000) = false -> usageAuditDetailsCsv report = None.
Proof.
  intros Er Hg. assert (E : detail_row report row = None).
  { unfold detail_row. replace (utc_text (re_generated_at report)) with (@None jstr) by (unfold utc_text, to_iso; by rewrite Hg).
    repeat match goal with |- (?o ≫= _) = None => destruct o; cbn [mbind option_bind]; [|done] end. done. }
  unfold usageAuditDetailsCsv, detail_records. rewrite Er. cbn [mapM]. by rewrite E.
Qed.

Definition sample_cost : Cost := {|
  co_input := js "0.001920000"; co_cache_read := js "0.009650000"; co_cache_write := js "0.000000000"; co_output := js "0.008600000";
  co_rounding := js "0.000004000"; co_total := js "0.020174000" |}.

Definition sample_row : AuditRow := {|
  ar_recalculation := None; ar_id := 51; ar_user_id := 8; ar_username := js "customer"; ar_token_id := 12; ar_token_name := jq "=1+1,`x`";
  ar_created_at := 1790784000; ar_request_id := js "request-cached"; ar_upstream_request_id := js "upstream-one"; ar_model := js "kimi-k3";
  ar_group := js "kimi"; ar_channel_id := 40; ar_is_stream := true; ar_kind := js "consumption"; ar_protocol := js "anthropic";
  ar_usage_semantic := js "openai"; ar_group_ratio := Some (num_of_Z 1); ar_tokens := None; ar_actual_amount := js "0.020174001";
  ar_list_prices := None; ar_list_cost := Some sample_cost; ar_discounted_cost := None; ar_difference := None; ar_duplicate_tokens := 4825;
  ar_duplicate_status := js "needs_response_evidence"; ar_issue := []; ar_evidence := None |}.

Definition sample_report : AuditReport := {|
  re_sha256 := js "evidence"; re_start_at := 1790784000; re_end_at := 1790870400; re_generated_at := 1790870400; re_currency_code := js "CNY";
  re_currency_rate := js "7"; re_basis := js "legacy"; re_rows := [sample_row] |}.

Lemma details_read_back_witness :
  report_ok sample_report /\
  exists csv records, usageAuditDetailsCsv sample_report = Some csv /\ read_csv csv = Some (detail_headers :: records) /\
    Forall2 record_of (re_rows sample_report) records.
Proof.
  assert (H : report_ok sample_report).
  { split; [unfold server_time; simpl; lia|]. split; [unfold server_time; simpl; lia|]. split; [unfold server_time; simpl; lia|].
    constructor; [|constructor]. split; [unfold server_time; simpl; lia|]. split; eexists; split; vm_compute; reflexivity. }
  split; [exact H|]. exact (details_read_back sample_report H).
Defined.

(** The field of the first log in an export. *)
Definition first_field (header : string) (csv : option jstr) : option jstr :=
  match csv ≫= read_csv with
  | Some (_ :: record :: _) => column (js header) record
  | _ => None
  end.

Example audit_sample_fields : List.map (fun h => first_field h (usageAuditDetailsCsv sample_report)) ["list_minus_platform_amount"; "created_at_shanghai"; "token_name"]%string =
  [Some (js "-0.000000001"); Some (js "2026-10-01 00:00:00+08:00"); Some (jq "'=1+1,`x`")].
Proof. vm_compute. reflexivity. Qed.

Lemma csv_reads_back_witness :
  let records := [[CText (jq "a`,`b"); CNone]; [CNum (num_of_Z 3)]] in
  (records <> [] /\ Forall (fun row => row <> []) records) /\ read_csv (usageAuditCsv records) = Some (List.map (List.map cell_text) records).
Proof.
  intros records. assert (H : records <> [] /\ Forall (fun row => row <> []) records) by (split; [done|repeat constructor; done]).
  split; [exact H|]. exact (csv_reads_back records (proj1 H) (proj2 H)).
Defined.

(** * The form and its selection *)

Inductive Scope := Customer | AllCustomers.
Inductive Protocol := AnyProtocol | Anthropic | OpenAI.

Definition protocol_text (p : Protocol) : jstr := match p with AnyProtocol => [] | Anthropic => js "anthropic" | OpenAI => js "openai" end.

Record UsageAuditValues := {
  va_scope : Scope; va_start : jstr; va_end : jstr; va_token : jstr; va_channel : jstr; va_model : jstr; va_group : jstr; va_protocol : Protocol }.

Record UsageAuditFilter := {
  fi_user_id : num; fi_token_id : num; fi_channel_id : num; fi_start_at : num; fi_end_at : num; fi_model : jstr; fi_group : jstr; fi_protocol : jstr }.

Definition day_ms : Z := 86400000.

(** [Number.isSafeInteger(x)] *)
Definition is_safe_integer (x : num) : bool := match num_to_Z x with Some z => (Z.abs z <=? 9007199254740991)%Z | None => false end.

(** An id of the form is refused. *)
Definition id_refused (s : jstr) : bool := (negb (is_safe_integer (num_of_string s)) || num_ltb (num_of_Z 2147483647) (num_of_string s))%bool.

Definition opt_number (o : option Z) : num := match o with Some z => num_of_Z z | None => S754_nan end.

Section Form.
(** [Date.parse] of a text that is not a date and time with an offset in the format of
    the language is the host's. *)
Context (host_date : jstr -> option Z).

Definition date_parse (s : jstr) : option Z := match iso_time s with Some t => Some t | None => host_date s end.

Definition shanghai_time (s : jstr) : option Z := date_parse (s ++ js "+08:00").

(** The object part, which trims the model and the group. *)
Definition object_part (v : UsageAuditValues) : option UsageAuditValues :=
  let model := trim (va_model v) in
  let group := trim (va_group v) in
  if (Nat.leb 16 (length (va_start v)) && Nat.leb 16 (length (va_end v)) && all_digits (va_token v) && forallb is_digit (va_channel v) &&
      Nat.leb (length model) 255 && Nat.leb (length group) 64)%bool
  then Some {| va_scope := va_scope v; va_start := va_start v; va_end := va_end v; va_token := va_token v; va_channel := va_channel v;
               va_model := model; va_group := group; va_protocol := va_protocol v |}
  else None.

Definition period_refused (v : UsageAuditValues) : bool :=
  match shanghai_time (va_start v), shanghai_time (va_end v) with
  | Some start, Some stop => ((stop <=? start) || (93 * day_ms <? stop - start))%Z%bool
  | _, _ => true
  end.

(** The fields that [superRefine] complains about *)
Definition refined_issues (v : UsageAuditValues) : list jstr :=
  (if period_refused v then [js "end"] else []) ++
  (if id_refused (va_token v) then [js "token"] else []) ++ (if id_refused (va_channel v) then [js "channel"] else []).

(** [usageAuditSchema]: what the submit handler is given. *)
Definition usageAuditSchema (v : UsageAuditValues) : option UsageAuditValues :=
  p ← object_part v; match refined_issues p with [] => Some p | _ => None end.

Definition usageAuditSelection (userId : num) (value : UsageAuditValues) : UsageAuditFilter := {|
  fi_user_id := match va_scope value with AllCustomers => nzero | Customer => userId end;
  fi_token_id := num_of_string (va_token value);
  fi_channel_id := num_of_string (va_channel value);
  fi_start_at := num_div (opt_number (shanghai_time (va_start value))) (num_of_Z 1000);
  fi_end_at := num_div (opt_number (shanghai_time (va_end value))) (num_of_Z 1000);
  fi_model := trim (va_model value);
  fi_group := trim (va_group value);
  fi_protocol := protocol_text (va_protocol value) |}.

(** [defaultValues] of the panel, for the date of today; [None] when it throws. *)
Definition default_values (today : jstr) : option UsageAuditValues :=
  midnight ← date_parse (today ++ js "T00:00:00Z");
  tomorrow ← to_iso (midnight + day_ms);
  Some {| va_scope := Customer; va_start := take 7 today ++ js "-01T00:00"; va_end := take 10 tomorrow ++ js "T00:00";
          va_token := js "0"; va_channel := []; va_model := []; va_group := []; va_protocol := AnyProtocol |}.

(** ** The panel *)

Definition filter_json (f : UsageAuditFilter) : jstr := json_stringify (JObj [
  (js "user_id", JNum (fi_user_id f)); (js "token_id", JNum (fi_token_id f)); (js "channel_id", JNum (fi_channel_id f));
  (js "start_at", JNum (fi_start_at f)); (js "end_at", JNum (fi_end_at f)); (js "model", JStr (fi_model f));
  (js "group", JStr (fi_group f)); (js "protocol", JStr (fi_protocol f))]).

(** The form, the customer it is shown for (another one mounts another panel), and the one mutation: its variables, its
    answer, whether it runs.  [pn_sent] are the queries, newest first. *)
Record Panel := {
  pn_user : num; pn_values : UsageAuditValues; pn_search : jstr; pn_pending : bool; pn_variables : option UsageAuditFilter;
  pn_data : option AuditReport; pn_sent : list UsageAuditFilter }.

Definition stale (p : Panel) : bool :=
  match pn_variables p with
  | Some f => negb (filter_json (usageAuditSelection (pn_user p) (pn_values p)) =s filter_json f)
  | None => true
  end.

(** The results are shown, and their exports are enabled. *)
Definition exports_enabled (p : Panel) : bool := (is_some (pn_data p) && negb (stale p))%bool.

Inductive PanelEvent :=
  | EditForm (v : UsageAuditValues)
  | ChangeScope (s : Scope)
  | TypeSearch (s : jstr)
  | SubmitForm
  | Answered (report : option AuditReport).

Definition with_values (v : UsageAuditValues) (search : jstr) (p : Panel) : Panel :=
  {| pn_user := pn_user p; pn_values := v; pn_search := search; pn_pending := pn_pending p; pn_variables := pn_variables p; pn_data := pn_data p; pn_sent := pn_sent p |}.

(** [query.mutate(f)]: the earlier answer is dropped. *)
Definition mutate (f : UsageAuditFilter) (p : Panel) : Panel :=
  {| pn_user := pn_user p; pn_values := pn_values p; pn_search := pn_search p; pn_pending := true; pn_variables := Some f; pn_data := None; pn_sent := f :: pn_sent p |}.

(** The submit handler; the fieldset is disabled while a query runs. *)
Definition submit (p : Panel) : Panel :=
  if pn_pending p then p
  else match usageAuditSchema (pn_values p) with
       | Some input => mutate (usageAuditSelection (pn_user p) input) p
       | None => p
       end.

Definition panel_step (p : Panel) (e : PanelEvent) : Panel :=
  match e with
  | EditForm v => with_values v (pn_search p) p
  | ChangeScope s =>
      let v := pn_values p in
      with_values {| va_scope := s; va_start := va_start v; va_end := va_end v; va_token := js "0"; va_channel := va_channel v;
                     va_model := va_model v; va_group := va_group v; va_protocol := va_protocol v |} [] p
  | TypeSearch s => with_values (pn_values p) s p
  | SubmitForm => submit p
  | Answered report =>
      if pn_pending p then
        {| pn_user := pn_user p; pn_values := pn_values p; pn_search := pn_search p; pn_pending := false; pn_variables := pn_variables p;
           pn_data := report; pn_sent := pn_sent p |}
      else p
  end.

Definition panel_run (p : Panel) (es : list PanelEvent) : Panel := fold_left panel_step es p.
End Form.

(** ** The results *)

(** A tab of the results, the page, whether all models are shown, and the one chosen. *)
Inductive ResultTab := ByModel | AllModels.
Record Results := { rs_view : ResultTab; rs_page : nat; rs_all : bool; rs_selected : jstr }.

Inductive ResultEvent := ChooseTab (t : ResultTab) | ChooseModel (label : jstr) | ToggleAll | Previous | Next.

Section ResultsOf.
Context {Group : Type} (label : Group -> jstr) (models : list Group).

Definition pageSize : nat := 10.

Definition results_init : Results :=
  {| rs_view := ByModel; rs_page := 0; rs_all := false; rs_selected := match models with m :: _ => label m | [] => [] end |}.

Definition selectedModel (r : Results) : option Group := or_else (List.find (fun m => label m =s rs_selected r) models) (head models).

Definition visibleModels (r : Results) : list Group :=
  if rs_all r then take ((rs_page r + 1) * pageSize - rs_page r * pageSize) (drop (rs_page r * pageSize) models)
  else match selectedModel r with Some m => [m] | None => [] end.

(** A disabled button does nothing; the paging is there for more than a page. *)
Definition paging_shown (r : Results) : bool := (rs_all r && Nat.ltb pageSize (length models))%bool.

Definition results_step (r : Results) (e : ResultEvent) : Results :=
  match e with
  | ChooseTab t => {| rs_view := t; rs_page := 0; rs_all := rs_all r; rs_selected := rs_selected r |}
  | ChooseModel l => {| rs_view := rs_view r; rs_page := 0; rs_all := false; rs_selected := l |}
  | ToggleAll => if Nat.eqb (length models) 0 then r else {| rs_view := rs_view r; rs_page := 0; rs_all := negb (rs_all r); rs_selected := rs_selected r |}
  | Previous => if (paging_shown r && negb (Nat.eqb (rs_page r) 0))%bool then {| rs_view := rs_view r; rs_page := rs_page r - 1; rs_all := rs_all r; rs_selected := rs_selected r |} else r
  | Next => if (paging_shown r && negb (Nat.leb (length models) ((rs_page r + 1) * pageSize)))%bool then {| rs_view := rs_view r; rs_page := rs_page r + 1; rs_all := rs_all r; rs_selected := rs_selected r |} else r
  end.

(** What the card of the repricing shows. *)
Definition shown_recalculation {C} (recalculation : Group -> option C) (summary : C) (r : Results) : C :=
  if (rs_all r || match rs_view r with AllModels => true | ByModel => false end)%bool then summary
  else (selectedModel r ≫= recalculation) ?? summary.
End ResultsOf.

(** ** The selection *)

Lemma num_of_dec_integer n : num_of_dec false n (0 - Z.of_nat 0) = num_of_Z (Z.of_N n).
Proof.
  destruct n as [|p]; [done|]. unfold num_of_dec, num_of_Z. change (0 - Z.of_nat 0)%Z with 0%Z.
  rewrite (proj2 (Z.ltb_ge 400 0)) by lia. rewrite (proj2 (Z.ltb_ge 0 _)) by (pose proof (Z.log2_nonneg (Zpos p)); lia).
  change (0 <=? 0)%Z with true. cbn iota. by rewrite Z.pow_0_r, Z.mul_1_r.
Qed.

Lemma num_of_string_digits ds : all_digits ds = true -> num_of_string ds = num_of_Z (Z.of_N (digits_value ds)).
Proof.
  intros H. pose proof H as H'. unfold all_digits in H'. apply andb_true_iff in H' as [Ht Hd].
  assert (Hu : read_unsigned false ds = Some (num_of_Z (Z.of_N (digits_value ds)), [])).
  { unfold read_unsigned. assert (E : span_digits ds = (ds, [])) by (rewrite <- (app_nil_r ds) at 1; by apply span_digits_run).
    rewrite E, app_nil_r, Ht. cbn [read_exponent length]. by rewrite num_of_dec_integer. }
  unfold num_of_string. rewrite trim_id by by apply all_digits_trimmed. destruct ds as [|c u]; [done|].
  assert (Hi : (c :: u =s js "Infinity") = false).
  { apply jstr_eqb_false. intros [= -> _]. done. }
  assert (Hs : (if c :: u =s js "Infinity" then S754_infinity false else match read_unsigned false (c :: u) with Some (x, []) => x | _ => S754_nan end) =
    num_of_Z (Z.of_N (digits_value (c :: u)))) by (rewrite Hi, Hu; done).
  simpl in Hd. apply andb_true_iff in Hd as [Hc Hd]. 
  assert (Hv : match u with [] => True | d :: _ => is_digit d = true end) by (destruct u; [done|]; simpl in Hd; by apply andb_true_iff in Hd as [Hd _]).
  unfold is_digit, in_range in Hc. destruct c as [|p]; [done|]. repeat (destruct p as [p|p|]; try done).
  destruct u as [|d u]; [done|]. unfold is_digit, in_range in Hv.
  rewrite !(proj2 (N.eqb_neq _ _)) by lia. done.
Qed.

Section FormProps.
Context (host_date : jstr -> option Z).
Notation schema := (usageAuditSchema host_date).
Notation selection := (usageAuditSelection host_date).

Lemma schema_some v p : schema v = Some p ->
  p = {| va_scope := va_scope v; va_start := va_start v; va_end := va_end v; va_token := va_token v; va_channel := va_channel v;
         va_model := trim (va_model v); va_group := trim (va_group v); va_protocol := va_protocol v |} /\
  all_digits (va_token v) = true /\ forallb is_digit (va_channel v) = true /\
  length (trim (va_model v)) <= 255 /\ length (trim (va_group v)) <= 64 /\
  period_refused host_date v = false /\ id_refused (va_token v) = false /\ id_refused (va_channel v) = false.
Proof.
  unfold usageAuditSchema, object_part. destruct (_ && _)%bool eqn:E; [|done]. cbn [mbind option_bind]. rewrite !andb_true_iff, !Nat.leb_le in E.
  unfold refined_issues. change (period_refused host_date {| va_scope := va_scope v; va_start := va_start v; va_end := va_end v; va_token := va_token v; va_channel := va_channel v;
         va_model := trim (va_model v); va_group := trim (va_group v); va_protocol := va_protocol v |}) with (period_refused host_date v). cbn [va_token va_channel].
  destruct (period_refused host_date v), (id_refused (va_token v)), (id_refused (va_channel v)); try done. intros [= <-]. tauto.
Qed.

(** What is shown as selected is what was sent: trimming again changes nothing. *)
Lemma selection_parsed u v p : schema v = Some p -> selection u p = selection u v.
Proof. intros (-> & _)%schema_some. unfold usageAuditSelection. simpl. by rewrite !trim_idemp. Qed.

Lemma channel_number s : forallb is_digit s = true -> num_of_string s = num_of_Z (Z.of_N (digits_value s)).
Proof. destruct s as [|c s]; [done|]. intros H. apply num_of_string_digits. exact H. Qed.

(** An accepted form selects a period of a millisecond to 93 days, read as Shanghai
    time, the key and the channel with exactly the numbers typed (0 for no channel),
    and texts without blanks around them that fit their columns. *)
Theorem accepted_selection u v p : schema v = Some p ->
  let f := selection u p in
  (exists a b, shanghai_time host_date (va_start v) = Some a /\ shanghai_time host_date (va_end v) = Some b /\ (a < b <= a + 93 * day_ms)%Z /\
    fi_start_at f = num_div (num_of_Z a) (num_of_Z 1000) /\ fi_end_at f = num_div (num_of_Z b) (num_of_Z 1000)) /\
  fi_token_id f = num_of_Z (Z.of_N (digits_value (va_token v))) /\ fi_channel_id f = num_of_Z (Z.of_N (digits_value (va_channel v))) /\
  num_ltb (num_of_Z 2147483647) (fi_token_id f) = false /\ num_ltb (num_of_Z 2147483647) (fi_channel_id f) = false /\
  trimmed (fi_model f) /\ trimmed (fi_group f) /\ length (fi_model f) <= 255 /\ length (fi_group f) <= 64.
Proof.
  intros H f. unfold f. rewrite (selection_parsed _ _ _ H). clear f. apply schema_some in H as (_ & Ht & Hc & Hm & Hg & Hp & It & Ic).
  unfold usageAuditSelection; simpl. split.
  { unfold period_refused in Hp. destruct (shanghai_time host_date (va_start v)) as [a|], (shanghai_time host_date (va_end v)) as [b|]; try done.
    exists a, b. repeat split; lia. }
  unfold id_refused in It, Ic. apply orb_false_iff in It as [_ It], Ic as [_ Ic].
  repeat split; [by apply num_of_string_digits|by apply channel_number|done|done|apply trim_trimmed..|done|done].
Qed.
End FormProps.

(** ** The form as it opens *)

Lemma days_linear y m d : days_from_civil y m d = (days_from_civil y m 1 + (d - 1))%Z.
Proof. unfold days_from_civil. cbv zeta. lia. Qed.

Lemma take_date y m d t : (0 <= y <= 9999)%Z -> valid_date y m d = true ->
  take 10 (date_part y m d ++ t) = date_part y m d /\ take 7 (date_part y m d ++ t) = year_text y ++ 45%N :: two m.
Proof.
  intros Hy Hv. destruct (date_part_shape y m d Hy Hv) as (Hl & _). destruct (month_day _ _ _ Hv) as [Hm _].
  destruct (year_shape y Hy) as [Ly _], (two_shape m Hm) as [Lm _]. split; [by apply take_app_length'|].
  unfold date_part. rewrite <- app_assoc. change (year_text y ++ (45%N :: two m ++ 45%N :: two d) ++ t) with (year_text y ++ ((45%N :: two m) ++ 45%N :: two d) ++ t).
  rewrite <- app_assoc, app_assoc. apply take_app_length'. rewrite length_app. simpl. lia.
Qed.

Lemma days_bound y m d : (1971 <= y <= 6000)%Z -> valid_date y m d = true -> (0 <= days_from_civil y m d <= 1500000)%Z.
Proof.
  intros Hy Hv. destruct (month_day _ _ _ Hv) as [_ Hd]. unfold valid_date in Hv. rewrite !andb_true_iff, !Z.leb_le in Hv.
  unfold days_from_civil. assert (Hm : (0 <= (m + 9) mod 12 <= 11)%Z) by (pose proof (Z.mod_pos_bound (m + 9) 12); lia).
  revert Hm. generalize ((m + 9) mod 12)%Z. intros mp Hm.
  assert (Hy' : (1970 <= (if m <=? 2 then y - 1 else y) <= 6000)%Z) by (destruct (m <=? 2)%Z; lia).
  revert Hy'. generalize (if (m <=? 2)%Z then (y - 1)%Z else y). intros y' Hy'. cbv zeta.
  assert (Hdoy : (0 <= (153 * mp + 2) / 5 + d - 1 <= 440)%Z) by (destruct Hv as [[_ Hv] _]; clear - Hm Hd Hv; Z.to_euclidean_division_equations; lia).
  revert Hdoy. generalize ((153 * mp + 2) / 5 + d - 1)%Z. intros doy Hdoy. clear - Hy' Hdoy. Z.to_euclidean_division_equations. lia.
Qed.

Lemma first_of_month y m d : valid_date y m d = true -> valid_date y m 1 = true /\ (1 <= d <= 31)%Z.
Proof.
  unfold valid_date. rewrite !andb_true_iff, !Z.leb_le. intros H.
  assert (28 <= days_in_month y m <= 31)%Z; [|lia]. unfold days_in_month. destruct (m =? 2)%Z; [by destruct (is_leap y)|]. by destruct (existsb _ _).
Qed.

(** A midnight, written with an offset. *)
Lemma midnight_time y m d o tail : (0 <= y <= 9999)%Z -> valid_date y m d = true -> read_seconds tail = Some (0%Z, tail) -> read_offset tail = Some o ->
  in_time (days_from_civil y m d * day_ms - o * 60000) = true ->
  iso_time (date_part y m d ++ js "T00:00" ++ tail) = Some (days_from_civil y m d * day_ms - o * 60000)%Z.
Proof.
  intros Hy Hv Hs Ho Hi. unfold date_part. repeat (rewrite <- !app_assoc; cbn [app]).
  change (js "T00:00" ++ tail) with (84%N :: two 0 ++ 58%N :: two 0 ++ tail).
  rewrite (iso_time_parts y m d 0 0 tail 0 o) by (try done; try lia; by exists tail). cbv zeta.
  replace (days_from_civil y m d * 86400000 + 0 * 3600000 + 0 * 60000 + 0 - o * 60000)%Z with (days_from_civil y m d * day_ms - o * 60000)%Z by (unfold day_ms; lia).
  by rewrite Hi.
Qed.

(** The text of a midnight in UTC. *)
Lemma midnight_text k : (0 <= k <= 2000000)%Z -> exists y m d tail,
  iso_text (k * day_ms) = date_part y m d ++ tail /\ (0 <= y <= 9999)%Z /\ valid_date y m d = true /\ days_from_civil y m d = k.
Proof.
  intros Hk. destruct (iso_text_parts (k * day_ms)) as (y & m & d & h & mi & s & ms & E & Hp & Hsum & Hy).
  exists y, m, d. eexists. split; [exact E|]. split; [apply Hy; unfold day_ms; lia|]. split; [apply Hp|].
  destruct Hp as (_ & Hp). unfold day_ms in Hsum. lia.
Qed.

(** The form the panel opens with on a date is accepted: from the first of the month
    to the end of that day, in Shanghai. *)
Theorem default_form_accepted host_date y m d : (1971 <= y <= 6000)%Z -> valid_date y m d = true ->
  exists v, default_values host_date (date_part y m d) = Some v /\ usageAuditSchema host_date v = Some v /\
    shanghai_time host_date (va_start v) = Some ((days_from_civil y m d - (d - 1)) * day_ms - 28800000)%Z /\
    shanghai_time host_date (va_end v) = Some ((days_from_civil y m d + 1) * day_ms - 28800000)%Z.
Proof.
  intros Hy Hv. pose proof (days_bound y m d Hy Hv) as Hb. destruct (first_of_month y m d Hv) as [Hv1 Hd].
  pose proof (days_bound y m 1 Hy Hv1) as Hb1. pose proof (days_linear y m d) as Hlin.
  set (k := days_from_civil y m d) in *. destruct (midnight_text (k + 1)) as (y' & m' & d' & tail & Et & Hy' & Hv' & Hk); [lia|].
  assert (Em : date_parse host_date (date_part y m d ++ js "T00:00:00Z") = Some (k * day_ms)%Z).
  { unfold date_parse. change (js "T00:00:00Z") with (84%N :: clock_part 0 0 0 ++ [90%N]).
    rewrite (iso_time_clock y m d 0 0 0 0 [90%N]) by (done || lia). cbv zeta. fold k.
    replace (k * 86400000 + 0 * 3600000 + 0 * 60000 + 0 * 1000 - 0 * 60000)%Z with (k * day_ms)%Z by (unfold day_ms; lia).
    by assert (in_time (k * day_ms) = true) as -> by (unfold in_time, day_ms; lia). }
  unfold default_values. rewrite Em. cbn [mbind option_bind]. unfold to_iso.
  replace (k * day_ms + day_ms)%Z with ((k + 1) * day_ms)%Z by lia.
  assert (in_time ((k + 1) * day_ms) = true) as -> by (unfold in_time, day_ms; lia). cbn [mbind option_bind].
  rewrite Et. rewrite (proj1 (take_date y' m' d' tail Hy' Hv')).
  pose proof (proj2 (take_date y m d [] ltac:(lia) Hv)) as E7. rewrite app_nil_r in E7. rewrite E7. clear E7.
  assert (Es : shanghai_time host_date ((year_text y ++ 45%N :: two m) ++ js "-01T00:00") = Some ((k - (d - 1)) * day_ms - 28800000)%Z).
  { unfold shanghai_time, date_parse. replace (((year_text y ++ 45%N :: two m) ++ js "-01T00:00") ++ js "+08:00") with (date_part y m 1 ++ js "T00:00" ++ js "+08:00")
      by (unfold date_part; repeat (rewrite <- !app_assoc; cbn [app]); reflexivity).
    rewrite (midnight_time y m 1 480) by (done || lia || (unfold in_time, day_ms; lia)). f_equal. lia. }
  assert (Ee : shanghai_time host_date (date_part y' m' d' ++ js "T00:00") = Some ((k + 1) * day_ms - 28800000)%Z).
  { unfold shanghai_time, date_parse. rewrite <- app_assoc, (midnight_time y' m' d' 480) by (done || (rewrite Hk; unfold in_time, day_ms; lia)). by rewrite Hk. }
  eexists. split; [done|]. cbn [va_start va_end]. split; [|done].
  unfold usageAuditSchema, object_part. cbn [va_start va_end va_token va_channel va_model va_group].
  assert (L1 : length ((year_text y ++ 45%N :: two m) ++ js "-01T00:00") = 16).
  { destruct (year_shape y ltac:(lia)) as [Ly _], (month_day _ _ _ Hv) as [Hm _]. destruct (two_shape m Hm) as [Lm _]. rewrite !length_app. simpl. lia. }
  assert (L2 : length (date_part y' m' d' ++ js "T00:00") = 16) by (rewrite length_app, (proj1 (date_part_shape y' m' d' Hy' Hv')); done).
  rewrite L1, L2. cbn [Nat.leb andb]. change (all_digits (js "0")) with true. change (trim []) with (@nil N). cbn [forallb andb length Nat.leb mbind option_bind].
  unfold refined_issues. cbn [va_token va_channel]. change (id_refused (js "0")) with false. change (id_refused []) with false.
  unfold period_refused. cbn [va_start va_end]. rewrite Es, Ee.
  assert ((((k + 1) * day_ms - 28800000 <=? (k - (d - 1)) * day_ms - 28800000) || (93 * day_ms <? (k + 1) * day_ms - 28800000 - ((k - (d - 1)) * day_ms - 28800000)))%Z%bool = false) as -> by (unfold day_ms; lia).
  done.
Qed.

(** ** The panel shows what was asked *)

Section PanelProps.
Context (host_date : jstr -> option Z).
Notation schema := (usageAuditSchema host_date).
Notation selection := (usageAuditSelection host_date).
Notation step := (panel_step host_date).
Notation run := (panel_run host_date).

(** A selection of a form that the schema accepts *)
Definition asked_by_form (u : num) (f : UsageAuditFilter) : Prop := exists v p, schema v = Some p /\ f = selection u p.

(** The answer shown is to the newest query, which is the one compared with the form. *)
Definition panel_ok (p : Panel) : Prop :=
  Forall (asked_by_form (pn_user p)) (pn_sent p) /\ pn_variables p = head (pn_sent p) /\
  (pn_pending p = true -> pn_data p = None /\ is_some (pn_variables p) = true) /\ (is_some (pn_data p) = true -> is_some (pn_variables p) = true).

Lemma panel_step_ok p e : panel_ok p -> panel_ok (step p e) /\ pn_user (step p e) = pn_user p.
Proof.
  intros Hok. pose proof Hok as (Hs & Hv & Hp & Hd). destruct e as [v|s|s| |report]; simpl; try exact (conj Hok eq_refl).
  - unfold submit. destruct (pn_pending p); [done|]. destruct (schema (pn_values p)) as [input|] eqn:E; [|done].
    unfold panel_ok, mutate. simpl. split; [|done]. split; [constructor; [by exists (pn_values p), input|done]|done].
  - destruct (pn_pending p); [|done]. destruct (Hp eq_refl) as [_ Hi]. split; [|done]. by split; [|split; [|split]].
Qed.

Lemma panel_run_ok p es : panel_ok p -> panel_ok (run p es) /\ pn_user (run p es) = pn_user p.
Proof.
  unfold panel_run. revert p. induction es as [|e es IH]; intros p Hp; [done|]. simpl. destruct (panel_step_ok p e Hp) as [H E].
  destruct (IH _ H) as [H' E']. split; [done|congruence].
Qed.

Definition opened (u : num) (v : UsageAuditValues) : Panel :=
  {| pn_user := u; pn_values := v; pn_search := []; pn_pending := false; pn_variables := None; pn_data := None; pn_sent := [] |}.

(** Whatever is edited, submitted and answered, the exports are enabled only when
    no query runs and the newest query, sent from a form that was accepted, is the
    selection the form shows now. *)
Theorem exports_current u v es : let p := run (opened u v) es in
  exports_enabled host_date p = true ->
  pn_pending p = false /\
  exists f rest, pn_sent p = f :: rest /\ asked_by_form u f /\ filter_json f = filter_json (selection u (pn_values p)).
Proof.
  intros p. destruct (panel_run_ok (opened u v) es) as [(Hs & Hv & Hp & Hd) Hu]; [split; [constructor|done]|].
  change (run (opened u v) es) with p in Hs, Hv, Hp, Hd, Hu. clearbody p. simpl in Hu. subst u.
  unfold exports_enabled, stale. rewrite andb_true_iff. intros [Hdata Hst].
  split; [destruct (pn_pending p); [|done]; by destruct (Hp eq_refl) as [E _]; rewrite E in Hdata|].
  destruct (pn_variables p) as [f|] eqn:Ev; [|done]. apply negb_true_iff, negb_false_iff, jstr_eqb_true in Hst.
  destruct (pn_sent p) as [|g rest] eqn:Es; [done|]. simpl in Hv. injection Hv as <-. inversion Hs; subst. by exists f, rest.
Qed.

(** After an accepted form is sent and answered, the exports are enabled until
    something changes. *)
Theorem fresh_after_answer p report : panel_ok p -> pn_pending p = false -> is_some (schema (pn_values p)) = true ->
  exports_enabled host_date (run p [SubmitForm; Answered (Some report)]) = true.
Proof.
  intros Hp Hn Ha. unfold panel_run. simpl. unfold submit. rewrite Hn. destruct (schema (pn_values p)) as [input|] eqn:E; [|done].
  unfold exports_enabled, stale, mutate. cbn [pn_pending pn_data pn_variables pn_values pn_user is_some andb]. by rewrite (selection_parsed _ _ _ _ E), jstr_eqb_refl.
Qed.
End PanelProps.

(** ** The pages of the results *)

Section ResultsProps.
Context {Group : Type} (label : Group -> jstr) (models : list Group).
Notation step := (results_step models).
Notation run := (fold_left step).

Definition page_ok (r : Results) : Prop := rs_page r = 0 \/ (rs_all r = true /\ rs_page r * pageSize < length models).

Lemma step_page_ok r e : page_ok r -> page_ok (step r e).
Proof.
  intros Hr. destruct e; simpl; try (by left).
  - destruct (Nat.eqb _ _); [done|by left].
  - destruct (paging_shown models r && negb (Nat.eqb (rs_page r) 0))%bool eqn:E; [|done]. rewrite andb_true_iff, negb_true_iff, Nat.eqb_neq in E.
    unfold page_ok, paging_shown in *. simpl. right. unfold pageSize in *. destruct Hr as [|[? ?]]; lia.
  - destruct (paging_shown models r && _)%bool eqn:E; [|done]. rewrite andb_true_iff, negb_true_iff, Nat.leb_gt in E. right. simpl.
    destruct E as [E1 E2]. unfold paging_shown in E1. apply andb_true_iff in E1 as [E1 _]. by split.
Qed.

(** Whatever is clicked in the results, a model is shown when there is one, at most
    ten at a time, and the page shown is one of the pages. *)
Theorem results_never_empty es : let r := run es (results_init label models) in
  page_ok r /\ (models <> [] -> visibleModels label models r <> []) /\ length (visibleModels label models r) <= 10.
Proof.
  intros r. assert (Hr : page_ok r).
  { unfold r. assert (H : page_ok (results_init label models)) by by left. revert H. generalize (results_init label models).
    induction es as [|e es IH]; intros r0 H; [done|]. apply IH. by apply step_page_ok. }
  split; [done|]. unfold visibleModels, selectedModel. destruct (rs_all r) eqn:Ea.
  - replace ((rs_page r + 1) * pageSize - rs_page r * pageSize) with 10 by (unfold pageSize; lia). split; [|rewrite length_take; lia].
    intros Hm He. apply (f_equal length) in He. rewrite length_take, length_drop in He. cbn [length] in He.
    assert (length models <> 0) by (by destruct models). unfold page_ok, pageSize in *. destruct Hr as [E0|[_ Hlt]]; [rewrite E0 in He|]; lia.
  - split; [|destruct (or_else _ _); simpl; lia]. intros Hm. destruct (List.find _ models); [done|]. by destruct models.
Qed.

(** The pages are all the models, in order. *)
Lemma pages_cover n : concat (List.map (fun i => visibleModels label models {| rs_view := ByModel; rs_page := i; rs_all := true; rs_selected := [] |}) (seq 0 n)) = take (n * 10) models.
Proof.
  induction n as [|n IH]; [done|]. rewrite seq_S, List.map_app, concat_app, IH. simpl concat. rewrite app_nil_r. unfold visibleModels. simpl rs_all. cbn iota.
  replace ((0 + n + 1) * pageSize - (0 + n) * pageSize) with 10 by (unfold pageSize; lia). simpl rs_page. unfold pageSize.
  rewrite take_take_drop. f_equal. lia.
Qed.
End ResultsProps.

Definition sample_values : UsageAuditValues := {|
  va_scope := Customer; va_start := js "2026-10-01T00:00"; va_end := js "2026-10-02T00:00"; va_token := js "12"; va_channel := [];
  va_model := js " kimi-k3 "; va_group := []; va_protocol := Anthropic |}.

Definition sample_filter : UsageAuditFilter := {|
  fi_user_id := num_of_Z 8; fi_token_id := num_of_Z 12; fi_channel_id := nzero; fi_start_at := num_of_Z 1790784000; fi_end_at := num_of_Z 1790870400;
  fi_model := js "kimi-k3"; fi_group := []; fi_protocol := js "anthropic" |}.

Definition audit_parsed (v : UsageAuditValues) : UsageAuditValues :=
  match usageAuditSchema (fun _ => None) v with Some p => p | None => v end.

Example audit_selection_sample : usageAuditSelection (fun _ => None) (num_of_Z 8) sample_values = sample_filter.
Proof. vm_compute. reflexivity. Qed.

Lemma accepted_selection_witness :
  usageAuditSchema (fun _ => None) sample_values = Some (audit_parsed sample_values) /\
  num_ltb (num_of_Z 2147483647) (fi_token_id (usageAuditSelection (fun _ => None) (num_of_Z 8) (audit_parsed sample_values))) = false.
Proof.
  assert (H : usageAuditSchema (fun _ => None) sample_values = Some (audit_parsed sample_values)) by (vm_compute; reflexivity).
  split; [exact H|]. exact (proj1 (proj2 (proj2 (proj2 (accepted_selection (fun _ => None) (num_of_Z 8) _ _ H))))).
Defined.

Lemma default_form_accepted_witness : exists v, default_values (fun _ => None) (date_part 2026 10 31) = Some v /\ usageAuditSchema (fun _ => None) v = Some v /\
    shanghai_time (fun _ => None) (va_start v) = Some ((days_from_civil 2026 10 31 - (31 - 1)) * day_ms - 28800000)%Z /\
    shanghai_time (fun _ => None) (va_end v) = Some ((days_from_civil 2026 10 31 + 1) * day_ms - 28800000)%Z.
Proof. apply default_form_accepted; [lia|reflexivity]. Defined.

Lemma exports_current_witness :
  let es := [SubmitForm; Answered (Some sample_report)] in
  let p := panel_run (fun _ => None) (opened (num_of_Z 8) sample_values) es in
  exports_enabled (fun _ => None) p = true /\ pn_pending p = false.
Proof.
  intros es p. assert (H : exports_enabled (fun _ => None) p = true) by (vm_compute; reflexivity).
  split; [exact H|]. exact (proj1 (exports_current (fun _ => None) (num_of_Z 8) sample_values es H)).
Defined.

Lemma fresh_after_answer_witness : exports_enabled (fun _ => None) (panel_run (fun _ => None) (opened (num_of_Z 8) sample_values) [SubmitForm; Answered (Some sample_report)]) = true.
Proof. apply fresh_after_answer; [by repeat split|done|vm_compute; reflexivity]. Defined.

Lemma amounts_sum_nested_witness :
  sumUsageAuditAmounts [Some (js "1.5")] = Some (Some (js "1.500000000")) /\
  sumUsageAuditAmounts [Some (js "1.500000000"); Some (js "-2")] = sumUsageAuditAmounts [Some (js "1.5"); Some (js "-2")].
Proof.
  assert (H : sumUsageAuditAmounts [Some (js "1.5")] = Some (Some (js "1.500000000"))) by (vm_compute; reflexivity).
  split; [exact H|]. exact (amounts_sum_nested _ [Some (js "-2")] _ H).
Defined.
