(* ===== verification/SupplierStandard.v ===== *)
(** Judgment standards of the supplier test (features/supplier-test/baselines.ts
    and the stored standard of index.tsx): the thresholds, how they are read,
    clamped and edited, and the verdicts on the figures of a stress or cache test. *)

From Stdlib Require Import NArith ZArith Lia ZifyBool ZifyN SpecFloat.
From stdpp Require Import base list strings option.
From S2P Require Import Prelude JsString JsNum Json JsTable.

(** * Numbers *)

(** [x.toFixed(f)] *)
Definition to_fixed (f : nat) (x : num) : jstr :=
  let shown (neg : bool) (n : N) : jstr :=
    let ds := print_N n in
    let ds := zeros (Z.of_nat (S f) - Z.of_nat (length ds)) ++ ds in
    let k := length ds - f in
    (if neg then js "-" else []) ++ take k ds ++ (match f with O => [] | _ => js "." ++ drop k ds end) in
  match x with
  | S754_zero _ => shown false 0%N
  | S754_finite s mm e =>
      if num_leb (num_of_dec false 1 21) (num_abs x) then num_to_string x
      else
        let '(nu, de) := exact_ratio mm e in
        shown s (Z.to_N ((2 * nu * 10 ^ Z.of_nat f + de) / (2 * de)))
  | _ => num_to_string x
  end.

(** * Verdicts *)

Inductive Verdict := ok | slow | abnormal | na.

#[export] Instance verdict_eq_dec : EqDecision Verdict.
Proof. solve_decision. Defined.

Definition VERDICT_LABEL (v : Verdict) : jstr :=
  js match v with ok => "Normal" | slow => "Slow" | abnormal => "Abnormal" | na => "Skipped" end.

Inductive MetricGroup := shallow | perf.

#[export] Instance group_eq_dec : EqDecision MetricGroup.
Proof. solve_decision. Defined.

(** Values a message is filled in with. *)
Definition Values : Type := list (jstr * jv).

Record MetricRow := MkRow {
  r_id : jstr; r_label : jstr; r_measured : jstr; r_measuredValues : option Values;
  r_threshold : jstr; r_thresholdValues : option Values; r_verdict : Verdict; r_group : option MetricGroup
}.

Definition INFORMATIONAL_ROW_IDS : list jstr :=
  List.map js ["duration"; "request_duration"; "tokens"; "tps"; "request_tps"; "rpm"; "tpm"; "cache_mode"; "hit_frequency"; "hit_depth"]%string.

Definition isInformationalRow (row : MetricRow) : bool := bool_decide (r_id row ∈ INFORMATIONAL_ROW_IDS).

Record Assessment := MkAssessment { rows : list MetricRow; overall : Verdict }.

Definition worstVerdict (verdicts : list Verdict) : Verdict :=
  if bool_decide (abnormal ∈ verdicts) then abnormal
  else if bool_decide (slow ∈ verdicts) then slow
  else if bool_decide (ok ∈ verdicts) then ok
  else na.

Definition in_group (group : MetricGroup) (row : MetricRow) : bool := bool_decide (nullish (r_group row) perf = group).
Definition is_shallow (row : MetricRow) : bool := bool_decide (r_group row = Some shallow).

Definition assessmentGroup (assessment : Assessment) (group : MetricGroup) : Assessment :=
  let rs := List.filter (in_group group) (rows assessment) in
  let worst := worstVerdict (List.map r_verdict rs) in
  MkAssessment rs
    match group with
    | perf =>
        let shallowVerdict := worstVerdict (List.map r_verdict (List.filter is_shallow (rows assessment))) in
        if bool_decide (shallowVerdict = abnormal) then (if bool_decide (worst = abnormal) then abnormal else na) else worst
    | shallow => worst
    end.

Definition overallLabel (verdict : Verdict) : jstr :=
  js match verdict with ok => "Overall: normal" | slow => "Overall: slow" | abnormal => "Overall: abnormal" | na => "Skipped" end.

(** [/\[A-Za-z\]/.test(s)] and [/^\d/.test(s)] *)
Definition has_letter (s : jstr) : bool := existsb (fun c => in_range 65 90 c || in_range 97 122 c)%bool s.
Definition digit_first (s : jstr) : bool := match s with c :: _ => is_digit c | [] => false end.

Definition displayMeasured (row : MetricRow) (t : jstr -> option Values -> jstr) : jstr :=
  if (is_some (r_measuredValues row) || includes (js "{{") (r_measured row))%bool then t (r_measured row) (r_measuredValues row)
  else if (has_letter (r_measured row) && negb (digit_first (r_measured row)))%bool then t (r_measured row) None
  else r_measured row.

Definition displayThreshold (row : MetricRow) (t : jstr -> option Values -> jstr) : jstr := t (r_threshold row) (r_thresholdValues row).

(** * Standards *)

Record SupplierStandard := MkStandard {
  id : jstr; labelKey : jstr;
  errorSlow : num; ttftShortOkMs : num; ttftLongOkMs : num; ttftP90AvgTimes : num; tpotAvgOkMs : num; tpotP90OkMs : num;
  cacheHitOk : num; ttlWaitSeconds : num; longInputTokens : num
}.

Definition DEFAULT_STANDARD : SupplierStandard :=
  MkStandard (js "default") (js "Default standard")
    (num_of_dec false 1 (-1)) (num_of_Z 8000) (num_of_Z 15000) (num_of_Z 3) (num_of_Z 80) (num_of_Z 150)
    (num_of_dec false 5 (-1)) (num_of_Z 30) (num_of_Z 8000).

Definition tight : SupplierStandard :=
  MkStandard (js "tight") (js "Tight standard")
    (num_of_dec false 5 (-2)) (num_of_Z 3000) (num_of_Z 8000) (num_of_Z 2) (num_of_Z 50) (num_of_Z 80)
    (num_of_dec false 8 (-1)) (num_of_Z 30) (num_of_Z 8000).

Definition SUPPLIER_STANDARDS : list SupplierStandard := [DEFAULT_STANDARD; tight].

Inductive StandardNumberKey :=
| ErrorSlow | TtftShortOkMs | TtftLongOkMs | TtftP90AvgTimes | TpotAvgOkMs | TpotP90OkMs | CacheHitOk | TtlWaitSeconds | LongInputTokens.

#[export] Instance number_key_eq_dec : EqDecision StandardNumberKey.
Proof. solve_decision. Defined.

Definition STANDARD_NUMBER_KEYS : list StandardNumberKey :=
  [ErrorSlow; TtftShortOkMs; TtftLongOkMs; TtftP90AvgTimes; TpotAvgOkMs; TpotP90OkMs; CacheHitOk; TtlWaitSeconds; LongInputTokens].

Definition key_text (k : StandardNumberKey) : jstr :=
  js match k with
     | ErrorSlow => "errorSlow" | TtftShortOkMs => "ttftShortOkMs" | TtftLongOkMs => "ttftLongOkMs"
     | TtftP90AvgTimes => "ttftP90AvgTimes" | TpotAvgOkMs => "tpotAvgOkMs" | TpotP90OkMs => "tpotP90OkMs"
     | CacheHitOk => "cacheHitOk" | TtlWaitSeconds => "ttlWaitSeconds" | LongInputTokens => "longInputTokens"
     end%string.

(** [standard\[key\]] *)
Definition standard_num (s : SupplierStandard) (k : StandardNumberKey) : num :=
  match k with
  | ErrorSlow => errorSlow s | TtftShortOkMs => ttftShortOkMs s | TtftLongOkMs => ttftLongOkMs s
  | TtftP90AvgTimes => ttftP90AvgTimes s | TpotAvgOkMs => tpotAvgOkMs s | TpotP90OkMs => tpotP90OkMs s
  | CacheHitOk => cacheHitOk s | TtlWaitSeconds => ttlWaitSeconds s | LongInputTokens => longInputTokens s
  end.

(** A standard as the object it is. *)
Definition standard_obj (s : SupplierStandard) : list (jstr * jv) :=
  (js "id", JStr (id s)) :: (js "labelKey", JStr (labelKey s)) ::
  List.map (fun k => (key_text k, JNum (standard_num s k))) STANDARD_NUMBER_KEYS.

(** [clampNumber]; [None] when the conversion throws. *)
Definition clampNumber (value : jv) (fallback lo hi : num) : option num :=
  next ← (match value with JNum x => Some x | _ => js_Number value end);
  Some (if num_is_finite next then num_min hi (num_max lo next) else fallback).

Definition getStandard (i : jstr) : SupplierStandard :=
  nullish (List.find (fun s => id s =s i) SUPPLIER_STANDARDS) DEFAULT_STANDARD.

(** The bounds a number of a standard is kept in. *)
Definition lower_bound (k : StandardNumberKey) : Z :=
  match k with ErrorSlow | CacheHitOk | TtlWaitSeconds => 0 | _ => 1 end.
Definition upper_bound (k : StandardNumberKey) : Z :=
  match k with
  | ErrorSlow => 1 | TtftShortOkMs => 120000 | TtftLongOkMs => 180000 | TtftP90AvgTimes => 10 | TpotAvgOkMs => 5000
  | TpotP90OkMs => 5000 | CacheHitOk => 1 | TtlWaitSeconds => 600 | LongInputTokens => 256000
  end.

(** [typeof v === 'string' && v.trim() ? v.trim() : d] *)
Definition text_or (v : jv) (d : jstr) : jstr :=
  match v with JStr s => if truthy (trim s) then trim s else d | _ => d end.

Definition clamped (raw : jv) (k : StandardNumberKey) : option num :=
  clampNumber (jv_get raw (key_text k)) (standard_num DEFAULT_STANDARD k) (num_of_Z (lower_bound k)) (num_of_Z (upper_bound k)).

(** [sanitizeStandard]; [raw] may be any value. *)
Definition sanitizeStandard (raw : jv) : option SupplierStandard :=
  a ← clamped raw ErrorSlow; b ← clamped raw TtftShortOkMs; c ← clamped raw TtftLongOkMs; d ← clamped raw TtftP90AvgTimes;
  e ← clamped raw TpotAvgOkMs; f ← clamped raw TpotP90OkMs; g ← clamped raw CacheHitOk; h ← clamped raw TtlWaitSeconds;
  i ← clamped raw LongInputTokens;
  Some (MkStandard (text_or (jv_get raw (js "id")) (js "custom")) (text_or (jv_get raw (js "labelKey")) (js "Custom standard")) a b c d e f g h i).

Definition close_to (a b : num) : bool := num_ltb (num_abs (num_sub a b)) (num_of_dec false 1 (-9)).

Definition matchingStandardId (standard : SupplierStandard) : option jstr :=
  option_map id (List.find (fun preset => forallb (fun k => close_to (standard_num preset k) (standard_num standard k)) STANDARD_NUMBER_KEYS) SUPPLIER_STANDARDS).

(** [readStoredStandard]: [stored] is what the session storage gives, if there is one. *)
Definition readStoredStandard (stored : option jstr) : SupplierStandard :=
  match stored with
  | None | Some [] => DEFAULT_STANDARD
  | Some raw => nullish (v ← json_parse raw; sanitizeStandard v) DEFAULT_STANDARD
  end.

(** * The editor of a standard *)

Inductive Display := percent | seconds | raw.
Inductive FieldGroup := stress | cache.

Record StandardEditorField := MkField {
  f_id : jstr; f_key : StandardNumberKey; f_group : FieldGroup; f_label : jstr; f_hint : jstr; f_min : num; f_max : num;
  f_step : option num; f_display : Display
}.

Definition MAX_TOKENS_CAP : Z := 256000.
Definition half : num := num_of_dec false 5 (-1).
Definition tenth : num := num_of_dec false 1 (-1).

Definition STANDARD_EDITOR_FIELDS : list StandardEditorField :=
  [MkField (js "std-error") ErrorSlow stress (js "Error rate (%)")
     (js "At or below this share of failed requests is still Normal. Comes from Stress test, not Basic acceptance.") (num_of_Z 0) (num_of_Z 100) None percent;
   MkField (js "std-ttft-short") TtftShortOkMs stress (js "TTFT short (s)")
     (js "Time to first token on a short prompt. Stress test with stream on. Above this is Slow.") tenth (num_of_Z 120) (Some half) seconds;
   MkField (js "std-ttft-long") TtftLongOkMs stress (js "TTFT long (s)")
     (js "Time to first token when prompt tokens reach Long input tokens. Stress test with stream on.") tenth (num_of_Z 180) (Some half) seconds;
   MkField (js "std-ttft-p90") TtftP90AvgTimes stress (js "TTFT P90 " ++ [215%N] ++ js " avg")
     (js "If P90 first-token time is more than this times the average, replies are jumpy.") (num_of_Z 1) (num_of_Z 10) (Some half) raw;
   MkField (js "std-tpot-avg") TpotAvgOkMs stress (js "TPOT avg (ms)")
     (js "Milliseconds per output token after the first token. How fast it types. Stress test with stream on.") (num_of_Z 1) (num_of_Z 5000) None raw;
   MkField (js "std-tpot-p90") TpotP90OkMs stress (js "TPOT P90 (ms)")
     (js "90th percentile of time per output token. Stress test with stream on.") (num_of_Z 1) (num_of_Z 5000) None raw;
   MkField (js "std-long-input") LongInputTokens stress (js "Long input tokens")
     (js "Prompt tokens at or above this use the long TTFT ruler. Comes from stress usage, not a tokenizer audit.") (num_of_Z 1) (num_of_Z MAX_TOKENS_CAP) None raw;
   MkField (js "std-cache") CacheHitOk cache (js "Cache hit (%)")
     (js "Share of cache probe rounds that returned cached_tokens. Below this is Slow.") (num_of_Z 0) (num_of_Z 100) None percent;
   MkField (js "std-ttl") TtlWaitSeconds cache (js "TTL wait (s)")
     (js "Wait this long after the first cache request before judging TTL. A shorter wait skips the TTL check.") (num_of_Z 0) (num_of_Z 600) None raw].

Definition standardEditorValue (standard : SupplierStandard) (field : StandardEditorField) : num :=
  let x := standard_num standard (f_key field) in
  match f_display field with
  | percent => num_round (num_mul x (num_of_Z 100))
  | seconds => num_div x (num_of_Z 1000)
  | raw => x
  end.

Definition stored_of (display : Display) (x : num) : num :=
  match display with
  | percent => num_div x (num_of_Z 100)
  | seconds => num_mul x (num_of_Z 1000)
  | raw => x
  end.

Definition applyStandardEditorValue (standard : SupplierStandard) (field : StandardEditorField) (display : num) : option SupplierStandard :=
  sanitizeStandard (JObj (map_set (key_text (f_key field)) (JNum (stored_of (f_display field) display)) (standard_obj standard))).

(** * Figures of a test *)

Record StressMetrics := MkStress {
  total : num; attempted : option num; not_run : option num; succeeded : num; failed : num; error_rate : num; elapsed_ms : num;
  tokens_per_sec : num; request_tokens_per_sec : option num; request_avg_ms : option num; request_p50_ms : option num;
  request_p90_ms : option num; usage_n : option num; prompt_tokens : num; completion_tokens : num;
  ttft_avg_ms : num; ttft_p50_ms : num; ttft_p90_ms : num; ttft_n : num; tpot_avg_ms : num; tpot_p50_ms : num; tpot_p90_ms : num;
  tpot_n : num; rpm : num; tpm : num
}.

Inductive CacheMode := static | cumulative.

Record CacheMetrics := MkCache {
  warm_prompt_tokens : num; avg_hit_rate : num; min_hit_rate : num; last_cached_tokens : num; last_prompt_tokens : num;
  wait_seconds : num; rounds : num; has_cached_tokens : bool; hit_count : option num; avg_depth_rate : option num; mode : option CacheMode
}.

(** * Texts *)

Definition shown_number (value : option num) (show : num -> jstr) (positive : bool) : jstr :=
  match value with
  | Some x => if (negb (num_is_finite x) || (positive && num_leb x nzero))%bool then [] else show x
  | None => []
  end.

Definition formatMs (value : option num) : jstr :=
  shown_number value (fun x => (if num_ltb x (num_of_Z 10) then to_fixed 1 x else num_to_string (num_round x)) ++ js " ms") true.

Definition formatPercent (value : option num) : jstr :=
  shown_number value (fun x => to_fixed 1 (num_mul x (num_of_Z 100)) ++ js "%") false.

Definition formatCount (value : option num) (unit : jstr) : jstr :=
  shown_number value (fun x =>
    (if num_leb (num_of_Z 10000) x then to_fixed 1 (num_div x (num_of_Z 1000)) ++ js "k"
     else if num_is_integer x then num_to_string x else to_fixed 1 x) ++ js " " ++ unit) true.

Definition NO_SAMPLE : jstr := js "No sample".
Definition TTFT_RULE : jstr := js "Normal " ++ [8804%N] ++ js " {{seconds}}s; slower above that".
Definition TTFT_P90 : jstr := js "Normal " ++ [8804%N] ++ js " {{seconds}}s and " ++ [8804%N] ++ js " avg " ++ [215%N] ++ js " {{times}}; slower above that".
Definition TPOT_RULE : jstr := js "Normal " ++ [8804%N] ++ js " {{ms}}ms; slower above that".
Definition HIT_RATE : jstr := js "Normal " ++ [8805%N] ++ js " {{percent}}%; abnormal below that".
Definition TTL_RULE : jstr := js "Wait " ++ [8805%N] ++ js " {{seconds}}s and hit rate still " ++ [8805%N] ++ js " {{percent}}%".
Definition RATE_ESTIMATE : jstr := js "Short-run estimate, not a vendor limit".
Definition ERROR_RATE : jstr := js "Normal < {{percent}}%; abnormal at that or above".
Definition SUCCESS_RULE : jstr := js "Most requests succeed".
Definition TOKEN_RULE : jstr := js "Used as the long-input TTFT cutoff; not a tokenizer audit".

Definition sampleOr (value : jstr) : jstr := or_str value NO_SAMPLE.

Definition latencyRow (i label : jstr) (ms : num) (threshold : jstr) (values : Values) (verdict : Verdict) (sampled : bool) : MetricRow :=
  MkRow i label (if sampled then formatMs (Some ms) else NO_SAMPLE) None threshold (Some values) (if sampled then verdict else na) None.

(** * Bands *)

Definition positive (x : num) : bool := num_ltb nzero x.

(** A latency against its limit. *)
Definition band (ms limit : num) : Verdict := if negb (positive ms) then na else if num_leb ms limit then ok else slow.

Definition ttft_limit (longInput : bool) (standard : SupplierStandard) : num :=
  if longInput then ttftLongOkMs standard else ttftShortOkMs standard.

Definition ttftBand (ms : num) (longInput : bool) (standard : SupplierStandard) : Verdict := band ms (ttft_limit longInput standard).
Definition tpotAvgBand (ms : num) (standard : SupplierStandard) : Verdict := band ms (tpotAvgOkMs standard).
Definition tpotP90Band (ms : num) (standard : SupplierStandard) : Verdict := band ms (tpotP90OkMs standard).

Definition hitBand (rate : num) (standard : SupplierStandard) : Verdict :=
  if negb (num_leb nzero rate) then na else if num_leb (cacheHitOk standard) rate then ok else abnormal.

Definition percentValue (rate : num) : num := num_div (num_round (num_mul rate (num_of_Z 1000))) (num_of_Z 10).

(** * The stress test *)

Definition avgPrompt (m : StressMetrics) : num :=
  if (positive (succeeded m) && positive (prompt_tokens m))%bool then num_div (prompt_tokens m) (succeeded m) else nzero.
Definition long_input (m : StressMetrics) (s : SupplierStandard) : bool := num_leb (longInputTokens s) (avgPrompt m).

Definition errorVerdict (m : StressMetrics) (s : SupplierStandard) : Verdict :=
  if (num_leb (errorSlow s) (error_rate m) || (positive (total m) && num_eqb (succeeded m) nzero))%bool then abnormal else ok.

Definition p90Verdict (m : StressMetrics) (s : SupplierStandard) : Verdict :=
  if (positive (ttft_avg_ms m) && num_ltb (num_mul (ttft_avg_ms m) (ttftP90AvgTimes s)) (ttft_p90_ms m))%bool then slow
  else ttftBand (ttft_p90_ms m) (long_input m s) s.

(** A row that is shown and not judged. *)
Definition info_row (i label measured : jstr) (values : option Values) (threshold : jstr) (group : MetricGroup) : MetricRow :=
  MkRow i label measured values threshold None na (Some group).

Definition stress_rows (m : StressMetrics) (s : SupplierStandard) : list MetricRow :=
  let longInput := long_input m s in
  let limit := num_div (ttft_limit longInput s) (num_of_Z 1000) in
  let ttftValues : Values := [(js "seconds", JNum limit)] in
  let ttftSampled := positive (ttft_avg_ms m) in
  let tpotSampled := positive (tpot_avg_ms m) in
  let error := errorVerdict m s in
  let tpotValues k : Values := [(js "ms", JNum k)] in
  let slash := js " / " in
  [MkRow (js "error_rate") (js "Error rate") (or_str (formatPercent (Some (error_rate m))) (js "0.0%")) None
     ERROR_RATE (Some [(js "percent", JNum (percentValue (errorSlow s)))]) error (Some shallow);
   MkRow (js "success") (js "Succeeded")
     (num_to_string (succeeded m) ++ js "/" ++ num_to_string (nullish (attempted m) (total m))) None SUCCESS_RULE None error (Some shallow);
   info_row (js "duration") (js "Batch wall time")
     (if num_leb (num_of_Z 1000) (elapsed_ms m) then to_fixed 2 (num_div (elapsed_ms m) (num_of_Z 1000)) ++ js " s"
      else num_to_string (num_round (elapsed_ms m)) ++ js " ms") None (js "Wall time of this run") shallow;
   info_row (js "request_duration") (js "Request duration avg / P50 / P90")
     (if num_truthy (nullish (request_avg_ms m) S754_nan)
      then formatMs (request_avg_ms m) ++ slash ++ formatMs (request_p50_ms m) ++ slash ++ formatMs (request_p90_ms m)
      else js "No sample") None (js "Successful request wall time, including first output and completion") perf;
   latencyRow (js "ttft_avg") (js "TTFT avg") (ttft_avg_ms m) TTFT_RULE ttftValues (ttftBand (ttft_avg_ms m) longInput s) ttftSampled;
   latencyRow (js "ttft_p50") (js "TTFT P50") (ttft_p50_ms m) TTFT_RULE ttftValues (ttftBand (ttft_p50_ms m) longInput s) ttftSampled;
   latencyRow (js "ttft_p90") (js "TTFT P90") (ttft_p90_ms m) TTFT_P90 [(js "seconds", JNum limit); (js "times", JNum (ttftP90AvgTimes s))]
     (p90Verdict m s) ttftSampled;
   latencyRow (js "tpot_avg") (js "TPOT avg") (tpot_avg_ms m) TPOT_RULE (tpotValues (tpotAvgOkMs s)) (tpotAvgBand (tpot_avg_ms m) s) tpotSampled;
   latencyRow (js "tpot_p50") (js "TPOT P50") (tpot_p50_ms m) TPOT_RULE (tpotValues (tpotAvgOkMs s)) (tpotAvgBand (tpot_p50_ms m) s) tpotSampled;
   latencyRow (js "tpot_p90") (js "TPOT P90") (tpot_p90_ms m) TPOT_RULE (tpotValues (tpotP90OkMs s)) (tpotP90Band (tpot_p90_ms m) s) tpotSampled;
   info_row (js "tokens") (js "Prompt / completion tokens") (js "{{prompt}} / {{completion}} (usage {{sampled}}/{{succeeded}})")
     (Some [(js "prompt", JNum (prompt_tokens m)); (js "completion", JNum (completion_tokens m));
            (js "sampled", JNum (nullish (usage_n m) (succeeded m))); (js "succeeded", JNum (succeeded m))]) TOKEN_RULE perf;
   info_row (js "tps") (js "Batch output throughput") (sampleOr (formatCount (Some (tokens_per_sec m)) (js "tok/s"))) None
     (js "Completion tokens divided by batch wall time; requires usage on every success") perf;
   info_row (js "request_tps") (js "Per-request output rate") (sampleOr (formatCount (request_tokens_per_sec m) (js "tok/s"))) None
     (js "Completion tokens divided by summed successful request durations") perf;
   info_row (js "rpm") (js "RPM (estimate)") (sampleOr (formatCount (Some (rpm m)) (js "req/min"))) None RATE_ESTIMATE perf;
   info_row (js "tpm") (js "TPM (estimate)") (sampleOr (formatCount (Some (tpm m)) (js "tok/min"))) None RATE_ESTIMATE perf].

Definition assess (rs : list MetricRow) : Assessment := MkAssessment rs (worstVerdict (List.map r_verdict rs)).

Definition assessStress (m : StressMetrics) (standard : SupplierStandard) : Assessment := assess (stress_rows m standard).

(** * The cache test *)

Definition hit_values (s : SupplierStandard) : Values := [(js "percent", JNum (percentValue (cacheHitOk s)))].
Definition ttl_values (s : SupplierStandard) : Values :=
  [(js "seconds", JNum (ttlWaitSeconds s)); (js "percent", JNum (percentValue (cacheHitOk s)))].

(** A row of the cache test; only these two are judged. *)
Definition hit_row (s : SupplierStandard) (measured : jstr) (v : Verdict) : MetricRow :=
  MkRow (js "hit") (js "Cache hit rate") measured None HIT_RATE (Some (hit_values s)) v None.
Definition ttl_rows (m : CacheMetrics) (s : SupplierStandard) (measured : jstr) (values : option Values) (v : Verdict) : list MetricRow :=
  if num_leb (ttlWaitSeconds s) (wait_seconds m)
  then [MkRow (js "ttl") (js "Cache TTL") measured values TTL_RULE (Some (ttl_values s)) v None] else [].

Definition note_row (i label measured : jstr) : MetricRow := MkRow i label measured None (js "Informational only") None na None.

Definition mode_rows (m : CacheMetrics) : list MetricRow :=
  match mode m with
  | Some md => [note_row (js "cache_mode") (js "Cache mode") (match md with cumulative => js "Cumulative chat" | static => js "Static prefix" end)]
  | None => []
  end.

Definition frequency_rows (m : CacheMetrics) : list MetricRow :=
  match hit_count m with
  | Some n =>
      if positive (rounds m) then
        [note_row (js "hit_frequency") (js "Hit frequency")
           (num_to_string n ++ js "/" ++ num_to_string (rounds m) ++ js " (" ++ formatPercent (Some (num_div n (rounds m))) ++ js ")")]
      else []
  | None => []
  end.

Definition depth_rows (m : CacheMetrics) : list MetricRow :=
  match avg_depth_rate m with
  | Some d =>
      if positive (nullish (hit_count m) nzero) then [note_row (js "hit_depth") (js "Hit depth") (formatPercent (Some d))] else []
  | None => []
  end.

Definition assessCache (metrics : option CacheMetrics) (standard : SupplierStandard) : Assessment :=
  match metrics with
  | None => MkAssessment [] na
  | Some m =>
      if negb (has_cached_tokens m) then
        MkAssessment (hit_row standard (js "No cached_tokens field") na :: ttl_rows m standard (js "No cached_tokens field") None na) na
      else
        let hitVerdict := hitBand (avg_hit_rate m) standard in
        let hitText := formatPercent (Some (avg_hit_rate m)) in
        assess (hit_row standard hitText hitVerdict ::
                ttl_rows m standard (js "Waited {{seconds}}s, hit {{rate}}") (Some [(js "seconds", JNum (wait_seconds m)); (js "rate", JStr hitText)]) hitVerdict ++
                mode_rows m ++ frequency_rows m ++ depth_rows m)
  end.

(** * Proofs: verdicts

    The worst of a list is the join of its verdicts. *)

Definition worse (a b : Verdict) : Verdict :=
  match a, b with
  | abnormal, _ | _, abnormal => abnormal
  | slow, _ | _, slow => slow
  | ok, _ | _, ok => ok
  | na, na => na
  end.

#[export] Instance worse_assoc : Assoc (=) worse.
Proof. by intros [] [] []. Qed.
#[export] Instance worse_comm : Comm (=) worse.
Proof. by intros [] []. Qed.
#[export] Instance worse_idemp : IdemP (=) worse.
Proof. by intros []. Qed.
#[export] Instance worse_na : LeftId (=) na worse.
Proof. by intros []. Qed.

Lemma worst_cons v l : worstVerdict (v :: l) = worse v (worstVerdict l).
Proof.
  unfold worstVerdict. destruct v; repeat case_bool_decide; rewrite ?elem_of_cons in *; naive_solver.
Qed.

Lemma worst_fold l : worstVerdict l = foldr worse na l.
Proof. induction l as [|v l IH]; [done|]. by rewrite worst_cons, IH. Qed.

Lemma worst_app l k : worstVerdict (l ++ k) = worse (worstVerdict l) (worstVerdict k).
Proof.
  induction l as [|v l IH]; cbn [app]; [by rewrite (left_id na worse)|].
  by rewrite !worst_cons, IH, (assoc worse).
Qed.

(** A latency that is above its limit. *)
Definition above (ms limit : num) : bool := positive ms && negb (num_leb ms limit).

Lemma band_worse ms limit v : v <> na -> worse v (band ms limit) = if above ms limit then worse v slow else v.
Proof. unfold band, above. intros Hv. destruct (positive ms), (num_leb ms limit), v; done. Qed.

Lemma if_distr {A B} (f : A -> B) (c : bool) a b : f (if c then a else b) = if c then f a else f b.
Proof. by destruct c. Qed.

(** ** Decimal fractions read back *)

Lemma span_digits_app a c t : forallb is_digit a = true -> is_digit c = false -> span_digits (a ++ c :: t) = (a, c :: t).
Proof.
  intros Ha Hc. induction a as [|x a IH]; simpl in *; [by rewrite Hc|].
  apply andb_true_iff in Ha as [Hx Ha]. by rewrite Hx, IH.
Qed.

Lemma num_stop_exponent t : num_stop t = true -> read_exponent t = Some (0%Z, t).
Proof.
  destruct t as [|c t]; [done|]. unfold read_exponent. simpl. intros Ht.
  destruct (N.eqb_spec c 101) as [->|]; [done|]. by destruct (N.eqb_spec c 69) as [->|].
Qed.

(** The text of a decimal fraction below one and above a millionth: ["0."] and digits. *)
Lemma num_reads_fraction x b :
  json_num x = js "0." ++ b -> all_digits b = true ->
  num_of_dec false (digits_value (48%N :: b)) (- Z.of_nat (length b)) = x -> num_reads x.
Proof.
  intros Hx Hb Hv. pose proof Hb as [Hb1 Hb2]%andb_true_iff. split.
  - rewrite Hx. exists 48%N, (46%N :: b). split; [done|by left].
  - intros t Ht. rewrite Hx. unfold parse_number.
    change (js "0." ++ b) with (48%N :: 46%N :: b). cbn [app].
    assert (Hs : span_digits (b ++ t) = (b, t)) by (by apply span_digits_stop).
    assert (Hip : span_digits (48%N :: 46%N :: b ++ t) = ([48%N], 46%N :: b ++ t)) by done.
    rewrite Hip, Hs. cbn [fst]. rewrite Hb1. cbn [andb]. unfold read_unsigned. rewrite Hip, Hs.
    cbn [app truthy]. rewrite num_stop_exponent by done. by rewrite Z.sub_0_l, Hv.
Qed.

(** ** Clamping *)

Definition clamp (k : StandardNumberKey) (x : num) : num := num_min (num_of_Z (upper_bound k)) (num_max (num_of_Z (lower_bound k)) x).

(** A number [clamp] leaves alone. *)
Definition settled_num (k : StandardNumberKey) (x : num) : Prop :=
  x = num_of_Z (lower_bound k) \/ x = num_of_Z (upper_bound k) \/
  (num_is_finite x = true /\ num_ltb (num_of_Z (lower_bound k)) x = true /\
   num_ltb (num_of_Z (upper_bound k)) x = false /\ num_ltb x (num_of_Z (upper_bound k)) = true).

Lemma num_max_below a b : num_ltb a b = true -> num_max a b = b.
Proof. unfold num_max. intros H. rewrite H. by destruct a, b. Qed.

Lemma num_min_above a b : num_ltb a b = false -> num_ltb b a = true -> num_min a b = b.
Proof. unfold num_min. intros H1 H2. rewrite H1, H2. by destruct a, b. Qed.

Lemma num_max_or a b : num_is_finite b = true -> a <> S754_zero true -> a <> S754_nan -> num_max a b = b /\ num_ltb a b = true \/ num_max a b = a.
Proof.
  intros Hb Hz Ha. destruct (num_ltb a b) eqn:H; [left; split; [by apply num_max_below|done]|right].
  unfold num_max. rewrite H. destruct (num_ltb b a); destruct a as [[]|[]| |], b; done.
Qed.

Lemma num_min_or a b : num_is_finite b = true -> a <> S754_zero false -> a <> S754_nan ->
  num_min a b = b /\ num_ltb a b = false /\ num_ltb b a = true \/ num_min a b = a.
Proof.
  intros Hb Hz Ha. destruct (num_ltb a b) eqn:H1; [right|destruct (num_ltb b a) eqn:H2; [left; split; [by apply num_min_above|done]|right]];
    unfold num_min; rewrite H1, ?H2; destruct a as [[]|[]| |], b; done.
Qed.

Lemma bounds_apart k :
  num_min (num_of_Z (upper_bound k)) (num_of_Z (lower_bound k)) = num_of_Z (lower_bound k) /\
  num_max (num_of_Z (lower_bound k)) (num_of_Z (upper_bound k)) = num_of_Z (upper_bound k) /\
  num_max (num_of_Z (lower_bound k)) (num_of_Z (lower_bound k)) = num_of_Z (lower_bound k) /\
  num_min (num_of_Z (upper_bound k)) (num_of_Z (upper_bound k)) = num_of_Z (upper_bound k).
Proof. by destruct k; vm_compute. Qed.

Lemma clamp_settled k x : num_is_finite x = true -> settled_num k (clamp k x).
Proof.
  intros Hx. unfold clamp, settled_num. destruct (bounds_apart k) as (H1 & H2 & H3 & H4).
  destruct (num_max_or (num_of_Z (lower_bound k)) x) as [(-> & Hlt)| ->]; [done|by destruct k; vm_compute|by destruct k; vm_compute| |].
  - destruct (num_min_or (num_of_Z (upper_bound k)) x) as [(-> & Hge & Hl)| ->];
      [done|by destruct k; vm_compute|by destruct k; vm_compute|right; right; done|right; by left].
  - left. exact H1.
Qed.

Lemma clamp_id k x : settled_num k x -> clamp k x = x.
Proof.
  unfold clamp. destruct (bounds_apart k) as (H1 & H2 & H3 & H4). intros [->|[->|(Hf & Hl & Hge & Hu)]].
  - by rewrite H3.
  - by rewrite H2.
  - rewrite (num_max_below _ x) by done. by apply num_min_above.
Qed.

Lemma ltb_leb a b : num_ltb a b = true -> num_leb a b = true.
Proof. unfold num_ltb, num_leb, SFltb, SFleb. by destruct (SFcompare a b) as [[]|]. Qed.

Lemma settled_bounds k x : settled_num k x ->
  num_is_finite x = true /\ num_leb (num_of_Z (lower_bound k)) x = true /\ num_leb x (num_of_Z (upper_bound k)) = true.
Proof.
  intros [->|[->|(Hf & Hl & _ & Hu)]]; [by destruct k; vm_compute..|]. split; [done|]. split; by apply ltb_leb.
Qed.

Lemma default_settled k : settled_num k (standard_num DEFAULT_STANDARD k).
Proof. right; right. by destruct k; vm_compute. Qed.

Lemma clamped_settled v k x : clamped v k = Some x -> settled_num k x.
Proof.
  unfold clamped, clampNumber. intros H. apply bind_Some in H as (y & _ & H).
  injection H as <-. destruct (num_is_finite y) eqn:E; [by apply clamp_settled|apply default_settled].
Qed.

Lemma clamped_number v k x : jv_get v (key_text k) = JNum x -> settled_num k x -> clamped v k = Some x.
Proof.
  intros Hv Hx. unfold clamped, clampNumber. rewrite Hv. cbn [mbind option_bind].
  destruct (settled_bounds k x Hx) as [-> _]. f_equal. by apply clamp_id.
Qed.

(** ** Reading a standard *)

Lemma sanitize_spec v s :
  sanitizeStandard v = Some s <->
  (forall k, clamped v k = Some (standard_num s k)) /\
  id s = text_or (jv_get v (js "id")) (js "custom") /\ labelKey s = text_or (jv_get v (js "labelKey")) (js "Custom standard").
Proof.
  unfold sanitizeStandard. split.
  - intros H. repeat (apply bind_Some in H as (? & ? & H)). injection H as <-. split; [by intros []|done].
  - intros (Hk & Hi & Hl).
    rewrite (Hk ErrorSlow), (Hk TtftShortOkMs), (Hk TtftLongOkMs), (Hk TtftP90AvgTimes), (Hk TpotAvgOkMs), (Hk TpotP90OkMs),
      (Hk CacheHitOk), (Hk TtlWaitSeconds), (Hk LongInputTokens).
    destruct s. cbn in *. by rewrite Hi, Hl.
Qed.

Lemma standard_get s k : jv_get (JObj (standard_obj s)) (key_text k) = JNum (standard_num s k).
Proof. by destruct k. Qed.

(** A standard that reading makes and keeps. *)
Record sane (s : SupplierStandard) : Prop := {
  sane_num : forall k, settled_num k (standard_num s k);
  sane_id : trim (id s) = id s /\ id s <> [];
  sane_label : trim (labelKey s) = labelKey s /\ labelKey s <> []
}.

Lemma text_or_trimmed v d : trim d = d -> d <> [] -> trim (text_or v d) = text_or v d /\ text_or v d <> [].
Proof.
  intros Hd Hn. unfold text_or. destruct v; try done. destruct (truthy (trim s)) eqn:E; [|done].
  split; [apply trim_idemp|by apply truthy_true].
Qed.

Lemma text_or_id s d : trim s = s -> s <> [] -> text_or (JStr s) d = s.
Proof. intros Hs Hn. unfold text_or. rewrite Hs. by rewrite (proj2 (truthy_true s)). Qed.

Lemma sanitize_sane v s : sanitizeStandard v = Some s -> sane s.
Proof.
  intros (Hk & Hi & Hl)%sanitize_spec. split.
  - intros k. eapply clamped_settled, Hk.
  - rewrite Hi. by apply text_or_trimmed.
  - rewrite Hl. by apply text_or_trimmed.
Qed.

Lemma sane_sanitize s : sane s -> sanitizeStandard (JObj (standard_obj s)) = Some s.
Proof.
  intros [Hk [Hi1 Hi2] [Hl1 Hl2]]. apply sanitize_spec. split.
  - intros k. apply clamped_number; [apply standard_get|done].
  - split; symmetry; by apply text_or_id.
Qed.

Lemma default_sane : sane DEFAULT_STANDARD.
Proof. split; [exact default_settled|split; by vm_compute..]. Qed.

Lemma tight_sane : sane tight.
Proof. split; [|split; by vm_compute..]. intros k. right; right. by destruct k; vm_compute. Qed.

(** ** Editing one number *)

Lemma key_text_inj k k' : key_text k = key_text k' -> k = k'.
Proof. by destruct k, k'; vm_compute. Qed.

Lemma key_text_other k : js "id" <> key_text k /\ js "labelKey" <> key_text k.
Proof. by destruct k. Qed.

Lemma edited_get s k x i :
  jv_get (JObj (map_set (key_text k) (JNum x) (standard_obj s))) i =
  if decide (i = key_text k) then JNum x else jv_get (JObj (standard_obj s)) i.
Proof. unfold jv_get. rewrite map_get_set. by destruct (decide _). Qed.

(** An edit stores the clamped number and touches nothing else. *)
Lemma apply_spec s f d :
  sane s -> num_is_finite (stored_of (f_display f) d) = true ->
  exists s', applyStandardEditorValue s f d = Some s' /\ sane s' /\ id s' = id s /\ labelKey s' = labelKey s /\
    forall k, standard_num s' k = if decide (k = f_key f) then clamp k (stored_of (f_display f) d) else standard_num s k.
Proof.
  intros Hs Hf. set (x := stored_of (f_display f) d) in *. unfold applyStandardEditorValue. fold x.
  set (n k := if decide (k = f_key f) then clamp k x else standard_num s k).
  set (s' := MkStandard (id s) (labelKey s) (n ErrorSlow) (n TtftShortOkMs) (n TtftLongOkMs) (n TtftP90AvgTimes) (n TpotAvgOkMs)
    (n TpotP90OkMs) (n CacheHitOk) (n TtlWaitSeconds) (n LongInputTokens)).
  assert (Hn : forall k, standard_num s' k = n k) by (by intros []).
  destruct (sane_id s Hs) as [Hi1 Hi2], (sane_label s Hs) as [Hl1 Hl2].
  assert (Hr : sanitizeStandard (JObj (map_set (key_text (f_key f)) (JNum x) (standard_obj s))) = Some s').
  { apply sanitize_spec. split; [|split].
    - intros k. rewrite Hn. unfold clamped. rewrite edited_get. unfold n. destruct (decide (k = f_key f)) as [->|Hk].
      + rewrite decide_True by done. unfold clampNumber. cbn [mbind option_bind]. by rewrite Hf.
      + rewrite decide_False by (intros E; by apply Hk, key_text_inj). apply clamped_number; [apply standard_get|apply Hs].
    - rewrite edited_get, decide_False by apply key_text_other. symmetry. by apply text_or_id.
    - rewrite edited_get, decide_False by apply key_text_other. symmetry. by apply text_or_id. }
  exists s'. split; [done|]. split; [by eapply sanitize_sane|]. done.
Qed.

(** What a field of the editor can be set to: whole percents, half seconds, and
    any number inside its bounds. *)
Definition admissible (f : StandardEditorField) (d : num) : Prop :=
  match f_display f with
  | percent => exists z, (0 <= z <= 100)%Z /\ d = num_of_Z z
  | seconds => exists z, (1 <= z <= 2 * (upper_bound (f_key f) / 1000))%Z /\ d = num_div (num_of_Z z) (num_of_Z 2)
  | raw => settled_num (f_key f) d
  end.

Definition range (n : nat) : list Z := List.map Z.of_nat (seq 0 n).

Lemma in_range_list n z : (0 <= z < Z.of_nat n)%Z -> z ∈ range n.
Proof.
  intros H. apply list_elem_of_fmap. exists (Z.to_nat z). split; [lia|]. apply elem_of_seq. lia.
Qed.

Lemma forallb_range n (P : Z -> bool) z : forallb P (range n) = true -> (0 <= z < Z.of_nat n)%Z -> P z = true.
Proof. intros H Hz. rewrite forallb_forall in H. apply H, list_elem_of_In. by apply in_range_list. Qed.

Definition shows_back (k : StandardNumberKey) (display : Display) (d : num) : bool :=
  let x := stored_of display d in
  num_is_finite x && bool_decide (standardEditorValue (MkStandard [] [] (clamp k x) (clamp k x) (clamp k x) (clamp k x) (clamp k x)
    (clamp k x) (clamp k x) (clamp k x) (clamp k x)) (MkField [] k stress [] [] nzero nzero None display) = d).

Lemma percents_show_back : forallb (fun z => shows_back ErrorSlow percent (num_of_Z z) && shows_back CacheHitOk percent (num_of_Z z))%bool (range 101) = true.
Proof. vm_compute. reflexivity. Qed.

Lemma seconds_show_back :
  forallb (fun z => bool_decide (z = 0%Z) || bool_decide (240 < z)%Z || shows_back TtftShortOkMs seconds (num_div (num_of_Z z) (num_of_Z 2)))%bool (range 361) = true /\
  forallb (fun z => bool_decide (z = 0%Z) || shows_back TtftLongOkMs seconds (num_div (num_of_Z z) (num_of_Z 2)))%bool (range 361) = true.
Proof. split; vm_compute; reflexivity. Qed.

Definition FIELD_KINDS : list (StandardNumberKey * Display) :=
  [(ErrorSlow, percent); (TtftShortOkMs, seconds); (TtftLongOkMs, seconds); (TtftP90AvgTimes, raw); (TpotAvgOkMs, raw); (TpotP90OkMs, raw);
   (LongInputTokens, raw); (CacheHitOk, percent); (TtlWaitSeconds, raw)].

Definition field_kind (f : StandardEditorField) : StandardNumberKey * Display := (f_key f, f_display f).

Lemma field_kinds_all : List.map field_kind STANDARD_EDITOR_FIELDS = FIELD_KINDS.
Proof. reflexivity. Qed.

Lemma mem_map {A B} (g : A -> B) x l : x ∈ l -> g x ∈ List.map g l.
Proof. intros H. apply list_elem_of_fmap. by exists x. Qed.

Lemma field_kinds f : f ∈ STANDARD_EDITOR_FIELDS -> field_kind f ∈ FIELD_KINDS.
Proof. intros H%(mem_map field_kind). by rewrite field_kinds_all in H. Qed.

Lemma raw_shows k d : settled_num k d -> shows_back k raw d = true.
Proof.
  intros Hk. unfold shows_back. cbn [stored_of]. rewrite (clamp_id k d Hk).
  destruct (settled_bounds k d Hk) as [-> _]. apply bool_decide_true. by destruct k.
Qed.

Lemma percent_shows k z : (k, percent) ∈ FIELD_KINDS -> (0 <= z <= 100)%Z -> shows_back k percent (num_of_Z z) = true.
Proof.
  intros Hk Hz. assert (k = ErrorSlow \/ k = CacheHitOk) as Hor.
  { unfold FIELD_KINDS in Hk. rewrite !elem_of_cons, elem_of_nil in Hk. naive_solver. }
  pose proof (forallb_range _ _ z percents_show_back ltac:(lia)) as [H1 H2]%andb_true_iff.
  destruct Hor as [-> | ->]; [exact H1|exact H2].
Qed.

Lemma second_shows k z : (k, seconds) ∈ FIELD_KINDS -> (1 <= z <= 2 * (upper_bound k / 1000))%Z ->
  shows_back k seconds (num_div (num_of_Z z) (num_of_Z 2)) = true.
Proof.
  intros Hk Hz.
  assert (k = TtftShortOkMs \/ k = TtftLongOkMs) as [-> | ->].
  { unfold FIELD_KINDS in Hk. rewrite !elem_of_cons, elem_of_nil in Hk. naive_solver. }
  all: destruct seconds_show_back as [Hs1 Hs2].
  - change (upper_bound TtftShortOkMs / 1000)%Z with 120%Z in Hz. apply (forallb_range _ _ z) in Hs1; [|lia].
    cbv beta in Hs1. rewrite !bool_decide_false in Hs1 by lia. exact Hs1.
  - change (upper_bound TtftLongOkMs / 1000)%Z with 180%Z in Hz. apply (forallb_range _ _ z) in Hs2; [|lia].
    cbv beta in Hs2. rewrite bool_decide_false in Hs2 by lia. exact Hs2.
Qed.

Lemma admissible_shows f d : f ∈ STANDARD_EDITOR_FIELDS -> admissible f d -> shows_back (f_key f) (f_display f) d = true.
Proof.
  intros Hf%field_kinds. unfold admissible, field_kind in *. destruct (f_display f).
  - intros (z & Hz & ->). by apply percent_shows.
  - intros (z & Hz & ->). by apply second_shows.
  - apply raw_shows.
Qed.

Lemma editor_value_of s s' f g : f_key f = f_key g -> f_display f = f_display g -> standard_num s (f_key f) = standard_num s' (f_key g) ->
  standardEditorValue s f = standardEditorValue s' g.
Proof. unfold standardEditorValue. by intros -> -> ->. Qed.

(** ** The verdicts of a stress test *)

Definition gated (sampled : bool) (v : Verdict) : Verdict := if sampled then v else na.

Lemma stress_verdicts m s :
  List.map r_verdict (stress_rows m s) =
  let ttft := gated (positive (ttft_avg_ms m)) in
  let tpot := gated (positive (tpot_avg_ms m)) in
  let limit := ttft_limit (long_input m s) s in
  [errorVerdict m s; errorVerdict m s; na; na; ttft (band (ttft_avg_ms m) limit); ttft (band (ttft_p50_ms m) limit); ttft (p90Verdict m s);
   tpot (band (tpot_avg_ms m) (tpotAvgOkMs s)); tpot (band (tpot_p50_ms m) (tpotAvgOkMs s)); tpot (band (tpot_p90_ms m) (tpotP90OkMs s));
   na; na; na; na; na].
Proof. reflexivity. Qed.

(** Three latencies of one kind, measured or not: what they add to a verdict. *)
Lemma three_latencies (sampled : bool) a b c e v :
  e <> na -> a <> abnormal -> b <> abnormal -> c <> abnormal ->
  worse e (worse (gated sampled a) (worse (gated sampled b) (worse (gated sampled c) v))) =
  worse (if (sampled && (bool_decide (a = slow) || bool_decide (b = slow) || bool_decide (c = slow)))%bool then worse e slow else e) v.
Proof. intros He Ha Hb Hc. by destruct sampled, a, b, c, e, v. Qed.

Lemma band_slow ms limit : bool_decide (band ms limit = slow) = above ms limit.
Proof. unfold band, above. by destruct (positive ms), (num_leb ms limit). Qed.

Lemma band_never_abnormal ms limit : band ms limit <> abnormal.
Proof. unfold band. by destruct (positive ms), (num_leb ms limit). Qed.

Lemma error_judged m s : errorVerdict m s <> na.
Proof. unfold errorVerdict. by case_match. Qed.

Lemma worse_judged (c : bool) e v : e <> na -> (if c then worse e v else e) <> na.
Proof. by destruct c, e, v. Qed.

Lemma p90_slow m s : bool_decide (p90Verdict m s = slow) =
  (positive (ttft_avg_ms m) && num_ltb (num_mul (ttft_avg_ms m) (ttftP90AvgTimes s)) (ttft_p90_ms m) ||
   above (ttft_p90_ms m) (ttft_limit (long_input m s) s))%bool.
Proof. unfold p90Verdict. destruct (_ && _)%bool; [done|]. apply band_slow. Qed.

Lemma p90_never_abnormal m s : p90Verdict m s <> abnormal.
Proof. unfold p90Verdict. destruct (_ && _)%bool; [done|]. apply band_never_abnormal. Qed.

(** * Theorems *)

(** C37: whatever a standard is read from (a stored text, another version's
    object, values of any type), every number of it is finite and inside its
    bounds, and reading it once more changes nothing. *)
Theorem standard_in_bounds (v : jv) (s : SupplierStandard) :
  sanitizeStandard v = Some s ->
  (forall k, num_is_finite (standard_num s k) = true /\ num_leb (num_of_Z (lower_bound k)) (standard_num s k) = true /\
     num_leb (standard_num s k) (num_of_Z (upper_bound k)) = true) /\
  sanitizeStandard (JObj (standard_obj s)) = Some s.
Proof.
  intros H%sanitize_sane. split; [|by apply sane_sanitize]. intros k. apply settled_bounds, H.
Qed.

(** The value typed into a field of the judgment standard is the value the
    field shows afterwards, and no other number of the standard changes. *)
Theorem edited_value_shown (s : SupplierStandard) (f : StandardEditorField) (d : num) :
  sane s -> f ∈ STANDARD_EDITOR_FIELDS -> admissible f d ->
  exists s', applyStandardEditorValue s f d = Some s' /\ standardEditorValue s' f = d /\ sane s' /\
    forall k, k <> f_key f -> standard_num s' k = standard_num s k.
Proof.
  intros Hs Hf Hd. apply admissible_shows in Hd; [|done]. apply andb_true_iff in Hd as [Hfin Hd%bool_decide_eq_true].
  destruct (apply_spec s f d Hs Hfin) as (s' & Ha & Hs' & _ & _ & Hn). exists s'. split; [done|]. split; [|split; [done|]].
  - etrans; [|exact Hd]. apply editor_value_of; [done..|]. rewrite Hn, decide_True by done. by destruct (f_key f).
  - intros k Hk. by rewrite Hn, decide_False.
Qed.

(** A judgment standard kept in the session storage is read back as it was. *)
Theorem standard_reloads (s : SupplierStandard) :
  sane s -> plain (JObj (standard_obj s)) -> readStoredStandard (Some (json_stringify (JObj (standard_obj s)))) = s.
Proof.
  intros Hs Hp. unfold readStoredStandard.
  assert (Hj : json_stringify (JObj (standard_obj s)) <> []) by done.
  destruct (json_stringify (JObj (standard_obj s))) as [|c u] eqn:E; [done|]. rewrite <-E, (json_parse_compact _ Hp).
  cbn [mbind option_bind]. by rewrite sane_sanitize.
Qed.

(** The verdict on a stress test: abnormal exactly when the error rate
    reaches its limit or nothing succeeded, slow when some measured latency is
    above its limit (or the P90 jumps), normal in all other cases; the rows that
    only inform have no say. *)
Theorem stress_overall (m : StressMetrics) (s : SupplierStandard) :
  let limit := if num_leb (longInputTokens s) (avgPrompt m) then ttftLongOkMs s else ttftShortOkMs s in
  let failing := (num_leb (errorSlow s) (error_rate m) || (positive (total m) && num_eqb (succeeded m) nzero))%bool in
  let ttft_late := (positive (ttft_avg_ms m) &&
    (above (ttft_avg_ms m) limit || above (ttft_p50_ms m) limit || above (ttft_p90_ms m) limit ||
     num_ltb (num_mul (ttft_avg_ms m) (ttftP90AvgTimes s)) (ttft_p90_ms m)))%bool in
  let tpot_late := (positive (tpot_avg_ms m) &&
    (above (tpot_avg_ms m) (tpotAvgOkMs s) || above (tpot_p50_ms m) (tpotAvgOkMs s) || above (tpot_p90_ms m) (tpotP90OkMs s)))%bool in
  overall (assessStress m s) = if failing then abnormal else if (ttft_late || tpot_late)%bool then slow else ok.
Proof.
  intros limit failing ttft_late tpot_late. unfold assessStress, assess. cbn [overall].
  rewrite worst_fold, stress_verdicts. cbv zeta. cbn [foldr]. rewrite !(left_id na worse), (assoc worse), (idemp worse).
  rewrite three_latencies; [|apply error_judged|by apply band_never_abnormal..|apply p90_never_abnormal].
  rewrite three_latencies; [|by apply worse_judged, error_judged|by apply band_never_abnormal..].
  rewrite !band_slow, p90_slow, (comm worse _ na), (left_id na worse).
  change (ttft_limit (long_input m s) s) with limit. change (errorVerdict m s) with (if failing then abnormal else ok).
  unfold ttft_late, tpot_late. destruct failing, (positive (ttft_avg_ms m)), (positive (tpot_avg_ms m)); cbn [andb];
    destruct (num_ltb _ _); repeat match goal with |- context [above ?x ?y] => destruct (above x y) end; done.
Qed.

Lemma worst_partition (p : MetricRow -> bool) l :
  worstVerdict (List.map r_verdict l) =
  worse (worstVerdict (List.map r_verdict (List.filter p l))) (worstVerdict (List.map r_verdict (List.filter (fun r => negb (p r)) l))).
Proof.
  induction l as [|r l IH]; [done|]. cbn [List.map List.filter]. rewrite worst_cons, IH.
  destruct (p r); cbn [negb List.map]; rewrite worst_cons, !(assoc worse); [done|]. f_equal. by rewrite (comm worse (r_verdict r)).
Qed.

Lemma filter_ext_bool {A} (p q : A -> bool) l : (forall x, p x = q x) -> List.filter p l = List.filter q l.
Proof. intros H. by apply List.filter_ext. Qed.

Lemma partition_perm {A} (p : A -> bool) (l : list A) : l ≡ₚ List.filter p l ++ List.filter (fun x => negb (p x)) l.
Proof.
  induction l as [|x l IH]; [done|]. cbn [List.filter]. destruct (p x); cbn [negb app]; [by f_equiv|].
  rewrite IH at 1. by rewrite Permutation_middle.
Qed.

Lemma in_perf r : in_group perf r = negb (in_group shallow r).
Proof. unfold in_group. by destruct (r_group r) as [[]|]. Qed.

Lemma shallow_group r : is_shallow r = in_group shallow r.
Proof. unfold is_shallow, in_group. by destruct (r_group r) as [[]|]. Qed.

(** The two groups an assessment is shown in hold every row once, their verdicts
    together give the overall one, and when the connection itself is abnormal
    the performance is not called normal or slow. *)
Theorem assessment_groups (rs : list MetricRow) :
  let a := assess rs in
  rows a ≡ₚ rows (assessmentGroup a shallow) ++ rows (assessmentGroup a perf) /\
  overall a = worse (overall (assessmentGroup a shallow)) (overall (assessmentGroup a perf)) /\
  (overall (assessmentGroup a shallow) = abnormal ->
   overall (assessmentGroup a perf) = abnormal \/ overall (assessmentGroup a perf) = na).
Proof.
  cbv zeta. unfold assess, assessmentGroup. cbn [rows overall].
  rewrite (filter_ext_bool _ _ rs in_perf), (filter_ext_bool _ _ rs shallow_group).
  split; [apply partition_perm|]. rewrite (worst_partition (in_group shallow) rs).
  destruct (worstVerdict (List.map r_verdict (List.filter (in_group shallow) rs))), (worstVerdict (List.map r_verdict (List.filter (fun r => negb (in_group shallow r)) rs)));
    cbn; split; auto; done.
Qed.

(** The verdict on a cache test is the verdict on the hit rate, when the answers
    carry cached tokens; nothing else counts. *)
Theorem cache_overall (metrics : option CacheMetrics) (s : SupplierStandard) :
  overall (assessCache metrics s) =
  match metrics with
  | Some m => if has_cached_tokens m then hitBand (avg_hit_rate m) s else na
  | None => na
  end.
Proof.
  destruct metrics as [m|]; [|done]. unfold assessCache. destruct (has_cached_tokens m); [|done]. cbn [negb]. cbv zeta.
  unfold assess. cbn [overall List.map]. rewrite worst_cons, !map_app, !worst_app.
  assert (Hn : forall l, Forall (fun r => r_verdict r = na) l -> worstVerdict (List.map r_verdict l) = na).
  { induction 1 as [|r l Hr _ IH]; [done|]. cbn [List.map]. by rewrite worst_cons, Hr, IH. }
  rewrite (Hn (mode_rows m)), (Hn (frequency_rows m)), (Hn (depth_rows m)).
  2-4: unfold depth_rows, frequency_rows, mode_rows; repeat case_match; repeat constructor.
  rewrite !(left_id na worse), (comm worse _ na), (left_id na worse). unfold ttl_rows. cbn [hit_row r_verdict].
  destruct (num_leb _ _); cbn [List.map r_verdict]; [rewrite worst_cons|]; by destruct (hitBand _ _).
Qed.

(** * Concrete runs *)

Ltac reads_back :=
  first [apply num_reads_digits; vm_compute; reflexivity
        |eapply num_reads_fraction; [vm_compute; reflexivity|vm_compute; reflexivity|vm_compute; reflexivity]].

Lemma tight_plain : plain (JObj (standard_obj tight)).
Proof.
  rewrite plain_obj, plain_list_Forall. split; [|split].
  - by apply (bool_decide_unpack _); vm_compute.
  - unfold standard_obj, STANDARD_NUMBER_KEYS. cbn [List.map fmap list_fmap fst].
    repeat (apply Forall_cons_2; [split; [apply units_check; vm_compute; reflexivity|vm_compute; reflexivity]|]). by apply Forall_nil.
  - unfold standard_obj, STANDARD_NUMBER_KEYS. cbn [List.map fmap list_fmap snd standard_num].
    repeat (apply Forall_cons_2; [cbn [plain]; first [units_done|cbn; reads_back]|]). by apply Forall_nil.
Qed.

Lemma standard_reloads_witness : readStoredStandard (Some (json_stringify (JObj (standard_obj tight)))) = tight.
Proof. apply (standard_reloads tight tight_sane tight_plain). Defined.

(** A stored text with a string, a null, a number out of bounds and junk. *)
Definition odd_standard : jv :=
  JObj [(js "id", JStr (js "  mine ")); (js "errorSlow", JStr (js "0.25")); (js "cacheHitOk", JNull);
        (js "ttftLongOkMs", JNum (num_of_Z 999999)); (js "tpotAvgOkMs", JObj [])].

Definition odd_read : SupplierStandard :=
  MkStandard (js "mine") (js "Custom standard") (num_of_dec false 25 (-2)) (num_of_Z 8000) (num_of_Z 180000) (num_of_Z 3) (num_of_Z 80) (num_of_Z 150)
    nzero (num_of_Z 30) (num_of_Z 8000).

Lemma standard_in_bounds_witness :
  sanitizeStandard odd_standard = Some odd_read /\ num_leb (ttftLongOkMs odd_read) (num_of_Z 180000) = true.
Proof.
  assert (H : sanitizeStandard odd_standard = Some odd_read) by (vm_compute; reflexivity).
  split; [exact H|]. destruct (standard_in_bounds odd_standard odd_read H) as [Hb _]. apply (Hb TtftLongOkMs).
Defined.

Definition ttft_field : StandardEditorField :=
  MkField (js "std-ttft-short") TtftShortOkMs stress (js "TTFT short (s)")
    (js "Time to first token on a short prompt. Stress test with stream on. Above this is Slow.") tenth (num_of_Z 120) (Some half) seconds.

Lemma edited_value_shown_witness :
  exists s', applyStandardEditorValue tight ttft_field (num_of_dec false 45 (-1)) = Some s' /\
    standardEditorValue s' ttft_field = num_of_dec false 45 (-1) /\ sane s' /\
    forall k, k <> TtftShortOkMs -> standard_num s' k = standard_num tight k.
Proof.
  apply (edited_value_shown tight ttft_field); [exact tight_sane|right; left|].
  exists 9%Z. split; [vm_compute; done|]. vm_compute. reflexivity.
Defined.

(** The presets are recognised. *)
Example presets_match : matchingStandardId DEFAULT_STANDARD = Some (js "default") /\ matchingStandardId tight = Some (js "tight") /\ matchingStandardId odd_read = None.
Proof. by vm_compute. Qed.

(** A run of 20 requests of which [f] failed, without latencies. *)
Definition sample_stress (f : Z) : StressMetrics :=
  MkStress (num_of_Z 20) None None (num_of_Z (20 - f)) (num_of_Z f) (num_div (num_of_Z f) (num_of_Z 20)) (num_of_Z 1500) nzero None None None None None
    nzero nzero nzero nzero nzero nzero nzero nzero nzero nzero nzero nzero.

(** With two failures of twenty the error rate is at its limit of 10 percent. *)
Example at_the_limit :
  overall (assessStress (sample_stress 2) DEFAULT_STANDARD) = abnormal /\ overall (assessStress (sample_stress 1) DEFAULT_STANDARD) = ok.
Proof. by vm_compute. Qed.

Definition sample_cache : CacheMetrics :=
  MkCache (num_of_Z 3000) (num_of_dec false 4 (-1)) nzero nzero nzero nzero (num_of_Z 5) true (Some (num_of_Z 2)) None (Some static).

(** A hit rate below the limit. *)
Example below_the_limit : overall (assessCache (Some sample_cache) DEFAULT_STANDARD) = abnormal.
Proof. by vm_compute. Qed.

Example fixed_texts :
  to_fixed 1 (num_of_dec false 4 (-2)) = js "0.0" /\ to_fixed 2 (num_of_dec false 1005 (-3)) = js "1.00" /\ formatPercent (Some (num_of_dec false 5 (-2))) = js "5.0%" /\
  formatCount (Some (num_of_Z 12345)) (js "tok/s") = js "12.3k tok/s".
Proof. by vm_compute. Qed.
