(* ===== verification/SupplierRequest.v ===== *)
(** What the supplier test asks for (features/supplier-test/constants.ts,
    video-json.ts and the handlers of index.tsx): the forms of its four modules,
    the body of a video request written from the form and read back into it, the
    checks before a run and the request that starts it. *)

From Stdlib Require Import NArith ZArith Lia ZifyBool ZifyN SpecFloat.
From stdpp Require Import base list gmap strings.
From S2P Require Import Prelude JsString JsNum Json JsTable.

(** * Numbers and texts *)

(** [Number.parseInt(s, 10)] *)
Definition parse_int (s : jstr) : num :=
  let go (neg : bool) (u : jstr) :=
    let '(ds, _) := span_digits u in
    if truthy ds then num_of_dec neg (digits_value ds) 0 else S754_nan in
  match trim_start s with
  | 43%N :: v => go false v
  | 45%N :: v => go true v
  | u => go false u
  end.

(** The code points of a text; a surrogate that is alone is one of its own. *)
Fixpoint code_points (s : jstr) : list (N * jstr) :=
  match s with
  | [] => []
  | c :: t =>
      match t with
      | d :: u => if (is_high c && is_low d)%bool then ((65536 + (c - 55296) * 1024 + (d - 56320))%N, [c; d]) :: code_points u else (c, [c]) :: code_points t
      | [] => [(c, [c])]
      end
  end.

(** Chinese and Japanese characters, counted as a token each. *)
Definition is_cjk (code : N) : bool := (in_range 19968 40959 code || in_range 13312 19903 code || in_range 12352 12543 code)%bool.

Definition estimateTokens (text : jstr) : num :=
  let raw := trim text in
  if negb (truthy raw) then nzero
  else
    let points := code_points raw in
    let cjk := List.filter (fun p => is_cjk p.1) points in
    let other := List.filter (fun p => negb (is_cjk p.1) && truthy (trim p.2))%bool points in
    num_max (num_of_Z 1) (num_round (num_add (num_of_Z (Z.of_nat (length cjk))) (num_div (num_of_Z (Z.of_nat (length other))) (num_of_Z 4)))).

(** A corpus of the picker; the texts come with the program. *)
Record Corpus := MkCorpus { co_id : jstr; co_prompt : jstr }.

Definition resolveCorpusPrompt (CORPORA : list Corpus) (shortText : jstr) (corpus prompt : jstr) : jstr :=
  let builtin :=
    match List.find (fun c => co_id c =s corpus) CORPORA with
    | Some c => or_str (co_prompt c) (trim shortText)
    | None => trim shortText
    end in
  if corpus =s js "custom" then or_str (trim prompt) builtin else builtin.

(** [optionalNumber] *)
Definition optionalNumber (raw : jstr) : option num :=
  let trimmed := trim raw in
  if negb (truthy trimmed) then None
  else let value := num_of_string trimmed in if num_is_finite value then Some value else None.

(** * The video form *)

Inductive UploadMode := url | base64.

#[export] Instance upload_mode_eq_dec : EqDecision UploadMode.
Proof. solve_decision. Defined.

(** [hasImage], [uploadMode], [imageUrl] and [base64Data]; the same of the last frame. *)
Record Frame := MkFrame { has : bool; mode : UploadMode; frame_url : jstr; frame_base64 : jstr }.

(** A field [x] that is sent when [hasX] is set is a pair of both. *)
Record VideoForm := MkVideo {
  prompt : jstr; image : Frame; role : jstr; lastFrame : Frame; resolution : bool * jstr; ratio : bool * jstr; duration : bool * num;
  watermark : bool * bool; seed : bool * jstr; generateAudio : bool * bool; returnLastFrame : bool * bool; customJson : bool * jstr;
  customPath : jstr; rawPayload : option jstr; taskId : option jstr
}.

Definition DEFAULT_VIDEO_FORM : VideoForm :=
  MkVideo [] (MkFrame false url [] []) (js "first_frame") (MkFrame false url [] []) (false, js "720p") (false, js "16:9") (false, num_of_Z 5)
    (false, false) (false, []) (false, false) (false, false) (false, []) [] None (Some []).

(** ** The body of a request *)

Definition frame_text (f : Frame) : jstr := trim match mode f with url => frame_url f | base64 => frame_base64 f end.

Definition image_item (u r : jstr) : jv :=
  JObj [(js "type", JStr (js "image_url")); (js "image_url", JObj [(js "url", JStr u)]); (js "role", JStr r)].

(** The item of a picture that is chosen and not blank. *)
Definition frame_items (f : Frame) (r : jstr) : list jv :=
  if (has f && truthy (frame_text f))%bool then [image_item (frame_text f) r] else [].

Definition text_items (p : jstr) : list jv :=
  if truthy (trim p) then [JObj [(js "type", JStr (js "text")); (js "text", JStr (trim p))]] else [].

Definition content_of (v : VideoForm) : list jv :=
  text_items (prompt v) ++ frame_items (image v) (or_str (role v) (js "reference_image")) ++ frame_items (lastFrame v) (js "last_frame").

(** [if (c) payload.k = v] *)
Definition assign_if (c : bool) (k : jstr) (v : jv) (t : Table) : Table := if c then obj_set k v t else t.

Definition seed_number (s : jstr) : option num :=
  if negb (truthy (trim s)) then None else match parse_int (trim s) with S754_nan => None | x => Some x end.

(** The object of the extra parameters; what is not one is ignored. *)
Definition extra_of (custom : bool * jstr) : Table :=
  if (custom.1 && truthy (trim custom.2))%bool then
    match json_parse (trim custom.2) with Some (JObj extra) => extra | _ => [] end
  else [].

Definition form_fields (v : VideoForm) : Table :=
  let content := content_of v in
  let p := assign_if (negb (Nat.eqb (length content) 0)) (js "content") (JArr content) [] in
  let p := assign_if ((resolution v).1 && truthy (resolution v).2) (js "resolution") (JStr (resolution v).2) p in
  let p := assign_if ((ratio v).1 && truthy (ratio v).2) (js "ratio") (JStr (ratio v).2) p in
  let p := assign_if ((duration v).1 && num_ltb nzero (duration v).2) (js "duration") (JNum (duration v).2) p in
  let p := assign_if (watermark v).1 (js "watermark") (JBool (watermark v).2) p in
  let p := assign_if ((seed v).1 && is_some (seed_number (seed v).2)) (js "seed") (JNum (nullish (seed_number (seed v).2) nzero)) p in
  let p := assign_if (generateAudio v).1 (js "generate_audio") (JBool (generateAudio v).2) p in
  assign_if (returnLastFrame v).1 (js "return_last_frame") (JBool (returnLastFrame v).2) p.

Definition buildVideoRequestPayload (model : jstr) (v : VideoForm) : option Table :=
  let payload := fold_left (fun t e => obj_set e.1 e.2 t) (extra_of (customJson v)) (form_fields v) in
  match payload with
  | [] => None
  | _ => Some (assign_if (truthy (trim model)) (js "model") (JStr (trim model)) payload)
  end.

(** ** The body read into the form *)

(** The assignments to the patch of the form, a constructor for those that go together. *)
Inductive VideoUpdate :=
| UPrompt (s : jstr)
| UImage (m : UploadMode) (u r : jstr)
| ULastFrame (m : UploadMode) (u : jstr)
| UResolution (s : jstr)
| URatio (s : jstr)
| UDuration (x : num)
| UWatermark (b : bool)
| USeed (s : jstr)
| UGenerateAudio (b : bool)
| UReturnLastFrame (b : bool)
| UCustomJson (s : jstr).

Definition put_frame (m : UploadMode) (u : jstr) (f : Frame) : Frame :=
  match m with url => MkFrame true m u (frame_base64 f) | base64 => MkFrame true m (frame_url f) u end.

(** [{...current, ...patch}], one assignment after the other. *)
Definition apply_update (v : VideoForm) (u : VideoUpdate) : VideoForm :=
  let '(MkVideo p im ro la re ra du wa se ge rl cu pa raw ta) := v in
  match u with
  | UPrompt s => MkVideo s im ro la re ra du wa se ge rl cu pa raw ta
  | UImage m x r => MkVideo p (put_frame m x im) r la re ra du wa se ge rl cu pa raw ta
  | ULastFrame m x => MkVideo p im ro (put_frame m x la) re ra du wa se ge rl cu pa raw ta
  | UResolution s => MkVideo p im ro la (true, s) ra du wa se ge rl cu pa raw ta
  | URatio s => MkVideo p im ro la re (true, s) du wa se ge rl cu pa raw ta
  | UDuration x => MkVideo p im ro la re ra (true, x) wa se ge rl cu pa raw ta
  | UWatermark b => MkVideo p im ro la re ra du (true, b) se ge rl cu pa raw ta
  | USeed s => MkVideo p im ro la re ra du wa (true, s) ge rl cu pa raw ta
  | UGenerateAudio b => MkVideo p im ro la re ra du wa se (true, b) rl cu pa raw ta
  | UReturnLastFrame b => MkVideo p im ro la re ra du wa se ge (true, b) cu pa raw ta
  | UCustomJson s => MkVideo p im ro la re ra du wa se ge rl (true, s) pa raw ta
  end.

Definition apply_patch (v : VideoForm) (patch : list VideoUpdate) : VideoForm := fold_left apply_update patch v.

Definition handledKeys : list jstr :=
  List.map js ["model"; "content"; "resolution"; "ratio"; "duration"; "watermark"; "seed"; "generate_audio"; "return_last_frame"]%string.

Definition upload_mode (u : jstr) : UploadMode := if starts_with (js "data:image/") u then base64 else url.

(** [v === s] *)
Definition is_text (s : jstr) (v : jv) : bool := match v with JStr x => x =s s | _ => false end.

(** One item of the content. *)
Definition item_updates (item : jv) : list VideoUpdate :=
  if negb (jv_truthy item && is_object item) then []
  else
    let type := jv_get item (js "type") in
    if (is_text (js "text") type && (jv_typeof (jv_get item (js "text")) =s js "string"))%bool
    then [UPrompt (string_or_empty (jv_get item (js "text")))]
    else if is_text (js "image_url") type then
      let urlStr := string_or_empty (jv_get (jv_get item (js "image_url")) (js "url")) in
      let roleStr := string_or_empty (jv_get item (js "role")) in
      if roleStr =s js "last_frame" then [ULastFrame (upload_mode urlStr) urlStr]
      else [UImage (upload_mode urlStr) urlStr (or_str roleStr (js "reference_image"))]
    else [].

(** [typeof v === 'string' && v.trim()] *)
Definition text_update (v : jv) (up : jstr -> VideoUpdate) : list VideoUpdate :=
  match v with JStr s => if truthy (trim s) then [up (trim s)] else [] | _ => [] end.

Definition bool_update (v : jv) (up : bool -> VideoUpdate) : list VideoUpdate :=
  match v with JBool b => [up b] | _ => [] end.

Inductive ParseVideoPayloadResult :=
| ParseFailed (error : jstr)
| Parsed (patch : list VideoUpdate) (model : option jstr).

Section Parse.
(** The message of a syntax error, which the engine words. *)
Variable syntax_error : jstr -> jstr.

(** The patch an object gives; [None] when [String(obj.seed)] throws. *)
Definition object_updates (o : Table) : option (list VideoUpdate * option jstr) :=
  let g k := jv_get (JObj o) (js k) in
  seed ← (match g "seed"%string with JUndef | JNull => Some [] | v => option_map (fun s => [USeed s]) (js_String v) end);
  let content := match g "content"%string with JArr items => concat (List.map item_updates items) | _ => [] end in
  let duration := match g "duration"%string with JNum x => if num_ltb nzero x then [UDuration x] else [] | _ => [] end in
  let extra := List.filter (fun e => negb (bool_decide (e.1 ∈ handledKeys))) o in
  let model := match g "model"%string with JStr s => if truthy (trim s) then Some (trim s) else None | _ => None end in
  Some (content ++ text_update (g "resolution"%string) UResolution ++ text_update (g "ratio"%string) URatio ++ duration ++
        bool_update (g "watermark"%string) UWatermark ++ seed ++ bool_update (g "generate_audio"%string) UGenerateAudio ++
        bool_update (g "return_last_frame"%string) UReturnLastFrame ++
        match extra with [] => [] | _ => [UCustomJson (json_stringify2 (JObj extra))] end, model).

Definition parseVideoPayloadToForm (raw : jstr) : option ParseVideoPayloadResult :=
  let trimmed := trim raw in
  if negb (truthy trimmed) then Some (ParseFailed (js "Empty JSON string"))
  else
    match json_parse trimmed with
    | None => Some (ParseFailed (syntax_error trimmed))
    | Some (JObj o) => r ← object_updates o; Some (Parsed r.1 r.2)
    | Some _ => Some (ParseFailed (js "Root payload must be a JSON object"))
    end.

(** [handleApplyJsonToForm]: the form and the model after it. *)
Definition handleApplyJsonToForm (raw : jstr) (v : VideoForm) (model : jstr) : option (VideoForm * jstr) :=
  r ← parseVideoPayloadToForm raw;
  Some match r with
       | ParseFailed _ => (v, model)
       | Parsed patch m => (apply_patch v patch, match m with Some m => if truthy m then m else model | None => model end)
       end.
End Parse.

(** * The forms of the page and the request *)

Inductive SupplierTestModule := basic | stress | cache | video.

#[export] Instance module_eq_dec : EqDecision SupplierTestModule.
Proof. solve_decision. Defined.

Inductive VendorId := generic | glm | kimi | deepseek.

#[export] Instance vendor_eq_dec : EqDecision VendorId.
Proof. solve_decision. Defined.

Inductive CacheProbe := static | cumulative.

Record TargetForm := MkTarget { baseUrl : jstr; apiKey : jstr; target_model : jstr; vendor : VendorId }.
Record BasicForm := MkBasic { b_prompt : jstr; b_maxTokens : num; temperature : jstr; topP : jstr; b_stream : bool }.
Record CacheForm := MkCacheForm {
  c_corpus : jstr; c_prompt : jstr; followUp : jstr; waitSeconds : num; c_maxTokens : num; c_rounds : num; c_stream : bool; c_mode : CacheProbe
}.
Record StressForm := MkStressForm {
  concurrency : num; s_rounds : num; s_maxTokens : num; s_corpus : jstr; s_prompt : jstr; breakCache : bool; s_stream : bool
}.

(** The state of the page that a request is made of, and the task the last run reported. *)
Record Page := MkPage {
  pg_target : TargetForm; pg_basic : BasicForm; pg_cache : CacheForm; pg_stress : StressForm; pg_video : VideoForm; pg_run_task : option jstr
}.

Record BasicRequest := MkBasicReq {
  bq_prompt : jstr; bq_max_tokens : num; bq_stream : bool; bq_temperature : option num; bq_top_p : option num; bq_checks : list jstr
}.
Record CacheRequest := MkCacheReq {
  cq_prompt : jstr; cq_follow_up : jstr; cq_wait_seconds : num; cq_max_tokens : num; cq_rounds : num; cq_stream : bool; cq_mode : CacheProbe
}.
Record StressRequest := MkStressReq {
  sq_concurrency : num; sq_rounds : num; sq_max_tokens : num; sq_prompt : jstr; sq_break_cache : bool; sq_stream : bool
}.
(** The options of a video request are sent as an object of those that are set. *)
Record VideoRequest := MkVideoReq {
  vq_checks : option (list jstr); vq_task_id : option jstr; vq_raw_payload : option jstr; vq_prompt : jstr; vq_options : Table
}.

Record SupplierTestRunRequest := MkRunRequest {
  rq_base_url : jstr; rq_api_key : jstr; rq_model : jstr; rq_vendor : VendorId; rq_modules : list SupplierTestModule;
  rq_basic : BasicRequest; rq_cache : CacheRequest; rq_stress : StressRequest; rq_video : VideoRequest
}.

Definition SHALLOW_BASIC_IDS : list jstr :=
  List.map js ["connectivity"; "stream_format"; "usage"; "request_id"; "sampling"; "auth_error"; "bad_request"]%string.
Definition PROTOCOL_BASIC_IDS : list jstr := List.map js ["json_mode"; "tool_call"; "thinking"; "kimi_kvv"]%string.

Definition MAX_CONCURRENCY : num := num_of_Z 1000.
Definition MAX_ROUNDS : num := num_of_Z 10000.
Definition MAX_STRESS_REQUESTS : num := num_of_Z 10000.
Definition MAX_TOKENS_CAP : num := num_of_Z 256000.
Definition MAX_CACHE_ROUNDS : num := num_of_Z 50.
Definition MAX_CACHE_WAIT_SECONDS : num := num_of_Z 600.

(** [checks && checks.length > 0] *)
Definition some_checks (checks : option (list jstr)) : option (list jstr) :=
  match checks with Some (c :: l) => Some (c :: l) | _ => None end.

Definition basic_checks (m : SupplierTestModule) (vd : VendorId) (checks : option (list jstr)) : list jstr :=
  let default :=
    SHALLOW_BASIC_IDS ++
    (if bool_decide (vd = kimi) then PROTOCOL_BASIC_IDS else List.filter (fun i => negb (i =s js "kimi_kvv")) PROTOCOL_BASIC_IDS) in
  if bool_decide (m = basic) then nullish (some_checks checks) default else default.

(** The task a query is about: the one of the form, else the one of the last run. *)
Definition task_of (v : VideoForm) (run_task : option jstr) : option jstr :=
  let task := or_str (nullish (taskId v) []) (nullish run_task []) in
  if truthy task then Some (trim task) else None.

Definition raw_payload_of (m : SupplierTestModule) (model : jstr) (v : VideoForm) : option jstr :=
  let edited := trim (nullish (rawPayload v) []) in
  if truthy edited then Some edited
  else if negb (bool_decide (m = video)) then None
  else option_map (fun p => json_stringify (JObj p)) (buildVideoRequestPayload model v).

Definition mode_text (m : UploadMode) : jstr := match m with url => js "url" | base64 => js "base64" end.

Definition video_options (v : VideoForm) : Table :=
  let im := image v in
  let la := lastFrame v in
  let t := assign_if (has im) (js "upload_mode") (JStr (mode_text (mode im))) [] in
  let t := assign_if (has im && bool_decide (mode im = url)) (js "image_url") (JStr (trim (frame_url im))) t in
  let t := assign_if (has im && bool_decide (mode im = base64)) (js "base64_data") (JStr (trim (frame_base64 im))) t in
  let t := assign_if (has im) (js "role") (JStr (role v)) t in
  let t := assign_if (has la) (js "last_frame_mode") (JStr (mode_text (mode la))) t in
  let t := assign_if (has la && bool_decide (mode la = url)) (js "last_frame_url") (JStr (trim (frame_url la))) t in
  let t := assign_if (has la && bool_decide (mode la = base64)) (js "last_frame_base64") (JStr (trim (frame_base64 la))) t in
  let t := assign_if ((resolution v).1 && truthy (resolution v).2) (js "resolution") (JStr (resolution v).2) t in
  let t := assign_if ((ratio v).1 && truthy (ratio v).2) (js "ratio") (JStr (ratio v).2) t in
  let t := assign_if ((duration v).1 && num_ltb nzero (duration v).2) (js "duration") (JNum (duration v).2) t in
  let t := assign_if (watermark v).1 (js "watermark") (JBool (watermark v).2) t in
  let t := assign_if ((seed v).1 && truthy (trim (seed v).2)) (js "seed") (JNum (parse_int (seed v).2)) t in
  let t := assign_if (generateAudio v).1 (js "generate_audio") (JBool (generateAudio v).2) t in
  let t := assign_if (returnLastFrame v).1 (js "return_last_frame") (JBool (returnLastFrame v).2) t in
  let t := assign_if ((customJson v).1 && truthy (trim (customJson v).2)) (js "custom_json") (JStr (trim (customJson v).2)) t in
  assign_if (truthy (trim (customPath v))) (js "custom_path") (JStr (trim (customPath v))) t.

Section Start.
Context (CORPORA : list Corpus) (shortText : jstr).

Definition buildPayload (pg : Page) (m : SupplierTestModule) (checks : option (list jstr)) : SupplierTestRunRequest :=
  let tg := pg_target pg in
  let b := pg_basic pg in
  let c := pg_cache pg in
  let s := pg_stress pg in
  let v := pg_video pg in
  MkRunRequest (trim (baseUrl tg)) (apiKey tg) (trim (target_model tg)) (vendor tg) [m]
    (MkBasicReq (b_prompt b) (b_maxTokens b) (b_stream b) (optionalNumber (temperature b)) (optionalNumber (topP b)) (basic_checks m (vendor tg) checks))
    (MkCacheReq (resolveCorpusPrompt CORPORA shortText (c_corpus c) (c_prompt c)) (followUp c) (waitSeconds c) (c_maxTokens c) (c_rounds c) (c_stream c) (c_mode c))
    (MkStressReq (concurrency s) (s_rounds s) (s_maxTokens s) (resolveCorpusPrompt CORPORA shortText (s_corpus s) (s_prompt s)) (breakCache s) (s_stream s))
    (MkVideoReq (if bool_decide (m = video) then some_checks checks else None) (task_of v (pg_run_task pg))
       (raw_payload_of m (target_model tg) v) (trim (prompt v)) (video_options v)).

(** [validateTarget]: the message of the first thing missing. *)
Definition validateTarget (tg : TargetForm) (requireModel : bool) : option jstr :=
  if negb (truthy (trim (baseUrl tg))) then Some (js "Enter a base URL first")
  else if (requireModel && negb (truthy (trim (target_model tg))))%bool then Some (js "Select a model first")
  else None.

Definition outside (x lo hi : num) : bool := num_ltb x lo || num_ltb hi x.
Definition not_integer_in (x hi : num) : bool := negb (num_is_integer x) || num_ltb x (num_of_Z 1) || num_ltb hi x.

(** Conditions with their messages: the first that holds. *)
Definition first_error (checks : list (bool * jstr)) : option jstr :=
  option_map snd (List.find fst checks).

Definition module_error (pg : Page) (m : SupplierTestModule) : option jstr :=
  let c := pg_cache pg in
  let s := pg_stress pg in
  match m with
  | basic => first_error [(not_integer_in (b_maxTokens (pg_basic pg)) MAX_TOKENS_CAP, js "Max tokens must be between 1 and {{max}}")]
  | cache =>
      first_error
        [(outside (waitSeconds c) nzero MAX_CACHE_WAIT_SECONDS, js "Cache wait must be between 0 and {{max}} seconds");
         (not_integer_in (c_rounds c) MAX_CACHE_ROUNDS, js "Cache rounds must be between 1 and {{max}}");
         (not_integer_in (c_maxTokens c) MAX_TOKENS_CAP, js "Cache max tokens must be between 1 and {{max}}")]
  | stress =>
      first_error
        [(not_integer_in (concurrency s) MAX_CONCURRENCY, js "Concurrency must be between 1 and {{max}}");
         (not_integer_in (s_rounds s) MAX_ROUNDS, js "Rounds must be between 1 and {{max}}");
         (num_ltb MAX_STRESS_REQUESTS (num_mul (concurrency s) (s_rounds s)), js "Concurrency " ++ [215%N] ++ js " rounds must be at most {{max}} requests");
         (not_integer_in (s_maxTokens s) MAX_TOKENS_CAP, js "Max tokens must be between 1 and {{max}}")]
  | video => None
  end.

Definition is_json (s : jstr) : bool := is_some (json_parse s).

Definition video_error (v : VideoForm) (run_task : option jstr) (queryOnly : bool) : option jstr :=
  let raw := trim (nullish (rawPayload v) []) in
  let missing f m := (has f && bool_decide (mode f = m) && negb (truthy (frame_text f)))%bool in
  if queryOnly then
    first_error [(negb (truthy (or_str (trim (nullish (taskId v) [])) (trim (nullish run_task [])))), js "Please submit task first or provide a Task ID")]
  else if truthy raw then first_error [(negb (is_json raw), js "Invalid JSON format")]
  else
    first_error
      [(negb (truthy (trim (prompt v))), js "Please enter a prompt for video generation");
       (missing (image v) url, js "Please enter an image URL");
       (missing (image v) base64, js "Please select an image file or provide Base64 data");
       (missing (lastFrame v) url, js "Please enter an end frame image URL");
       (missing (lastFrame v) base64, js "Please select an end frame image file or provide Base64 data");
       ((customJson v).1 && truthy (trim (customJson v).2) && negb (is_json (customJson v).2), js "Custom extra parameters must be valid JSON")]%bool.

(** [startModule]: the message of the refusal, or the request the run starts with. *)
Definition query_only (m : SupplierTestModule) (checks : option (list jstr)) : bool :=
  (bool_decide (m = video) &&
   match some_checks checks with Some l => negb (bool_decide (js "video_submit" ∈ l)) | None => false end)%bool.

Definition startModule (pg : Page) (m : SupplierTestModule) (checks : option (list jstr)) : jstr + SupplierTestRunRequest :=
  let errors := [validateTarget (pg_target pg) (negb (query_only m checks)); module_error pg m;
                 if bool_decide (m = video) then video_error (pg_video pg) (pg_run_task pg) (query_only m checks) else None] in
  match foldr or_else None errors with
  | Some message => inl message
  | None => inr (buildPayload pg m checks)
  end.

Definition handleSendRawJson (pg : Page) (rawJson : jstr) : jstr + SupplierTestRunRequest :=
  match validateTarget (pg_target pg) true with
  | Some message => inl message
  | None =>
      let r := buildPayload pg video None in
      let q := rq_video r in
      inr (MkRunRequest (rq_base_url r) (rq_api_key r) (rq_model r) (rq_vendor r) (rq_modules r) (rq_basic r) (rq_cache r) (rq_stress r)
        (MkVideoReq (vq_checks q) (vq_task_id q) (Some (trim rawJson)) (vq_prompt q) (vq_options q)))
  end.
End Start.

(** * Proofs: the body and the form

    The body is a list of properties, each there when its condition holds. *)

Definition when {A} (c : bool) (x : A) : list A := if c then [x] else [].

(** A condition, a key and a value. *)
Definition Assignment : Type := bool * (jstr * jv).

Definition assign_all (l : list Assignment) (t : Table) : Table := fold_left (fun t a => assign_if a.1 a.2.1 a.2.2 t) l t.
Definition assigned (l : list Assignment) : Table := concat (List.map (fun a => when a.1 a.2) l).
Definition keys_of (l : list Assignment) : list jstr := List.map (fun a => a.2.1) l.

Lemma obj_set_fresh k (v : jv) (t : Table) :
  k ∉ t.*1 -> array_index k = None -> Forall (fun k => array_index k = None) t.*1 -> obj_set k v t = t ++ [(k, v)].
Proof.
  intros Hk Hi Ht. unfold obj_set.
  assert (Hm : map_set k v t = t ++ [(k, v)]).
  { clear -Hk. induction t as [|[k' v'] t IH]; [done|]. csimpl in Hk. apply not_elem_of_cons in Hk as [H1 H2].
    simpl. rewrite bool_decide_false by done. by rewrite IH. }
  rewrite Hm. apply ordinary_sorted. rewrite fmap_app. apply Forall_app. split; [done|]. by apply Forall_singleton.
Qed.

Lemma assigned_keys l k : k ∈ (assigned l).*1 -> k ∈ keys_of l.
Proof.
  induction l as [|[c [k' v]] l IH]; [done|]. unfold assigned. cbn [List.map concat when keys_of fst snd].
  rewrite fmap_app, elem_of_app, elem_of_cons. intros [H|H]; [|right; by apply IH]. left. destruct c; [|by apply elem_of_nil in H].
  by apply list_elem_of_singleton in H.
Qed.

Lemma assign_all_app l t :
  NoDup (t.*1 ++ keys_of l) -> Forall (fun k => array_index k = None) (t.*1 ++ keys_of l) -> assign_all l t = t ++ assigned l.
Proof.
  revert t. induction l as [|[c [k v]] l IH]; intros t Hn Ha; [by rewrite app_nil_r|].
  unfold assign_all, assigned, keys_of in *. cbn [List.map concat fst snd fold_left] in *. unfold assign_if at 2.
  apply Forall_app in Ha as [Ht Ha]. apply Forall_cons in Ha as [Hk Ha].
  assert (Hkt : k ∉ t.*1) by (apply NoDup_app in Hn as (_ & Hd & _); intros Hin; apply (Hd k Hin); by left).
  destruct c; cbn [when app].
  - rewrite (obj_set_fresh k v t) by done. rewrite IH, <-app_assoc; [done| |]; rewrite fmap_app, <-app_assoc; [done|].
    apply Forall_app. split; [done|]. apply Forall_app. split; [by apply Forall_singleton|done].
  - apply IH; [|by apply Forall_app]. eapply sublist_NoDup; [exact Hn|]. apply sublist_app; [done|by apply sublist_cons].
Qed.

Lemma get_assigned l c k v :
  NoDup (keys_of l) -> ((c, (k, v)) : Assignment) ∈ l -> map_get k (assigned l) = if c then Some v else None.
Proof.
  induction l as [|[c' [k' v']] l IH]; intros Hn Hin; [by apply elem_of_nil in Hin|].
  unfold keys_of in Hn. cbn [List.map fst snd] in Hn. apply NoDup_cons in Hn as [Hk Hn].
  unfold assigned. cbn [List.map concat fst snd]. apply elem_of_cons in Hin as [[= -> -> ->]|Hin].
  - destruct c'; cbn [when app map_get]; [by rewrite bool_decide_true|]. apply map_get_none. intros H%assigned_keys. done.
  - assert (k <> k').
    { intros ->. apply Hk. unfold keys_of. apply list_elem_of_fmap. by exists ((c, (k', v)) : Assignment). }
    destruct c'; cbn [when app map_get]; [rewrite bool_decide_false by done|]; by apply IH.
Qed.

Lemma assigned_app l l' : assigned (l ++ l') = assigned l ++ assigned l'.
Proof. unfold assigned. by rewrite map_app, concat_app. Qed.

Lemma assigned_all (t : Table) : assigned (List.map (pair true) t) = t.
Proof. induction t as [|e t IH]; [done|]. unfold assigned in *. cbn. by rewrite IH. Qed.

Lemma keys_all (t : Table) : keys_of (List.map (pair true) t) = t.*1.
Proof. unfold keys_of. by rewrite map_map. Qed.

Lemma assign_extra (l t : Table) : assign_all (List.map (pair true) l) t = fold_left (fun t e => obj_set e.1 e.2 t) l t.
Proof. revert t. induction l as [|e l IH]; intros t; [done|]. cbn. apply IH. Qed.

(** The properties of a body. *)
Definition field_list (v : VideoForm) : list Assignment :=
  let content := content_of v in
  [(negb (Nat.eqb (length content) 0), (js "content", JArr content));
   ((resolution v).1 && truthy (resolution v).2, (js "resolution", JStr (resolution v).2));
   ((ratio v).1 && truthy (ratio v).2, (js "ratio", JStr (ratio v).2));
   ((duration v).1 && num_ltb nzero (duration v).2, (js "duration", JNum (duration v).2));
   ((watermark v).1, (js "watermark", JBool (watermark v).2));
   ((seed v).1 && is_some (seed_number (seed v).2), (js "seed", JNum (nullish (seed_number (seed v).2) nzero)));
   ((generateAudio v).1, (js "generate_audio", JBool (generateAudio v).2));
   ((returnLastFrame v).1, (js "return_last_frame", JBool (returnLastFrame v).2))]%bool.

Definition body_list (v : VideoForm) : list Assignment := field_list v ++ List.map (pair true) (extra_of (customJson v)).

Definition model_item (model : jstr) : Assignment := (truthy (trim model), (js "model", JStr (trim model))).

(** Extra parameters whose names are no others, and print. *)
Definition extra_ok (v : VideoForm) : Prop :=
  plain_table (extra_of (customJson v)) /\ Forall (fun k => k ∉ handledKeys) (extra_of (customJson v)).*1.

Definition body_keys : list jstr := List.map js ["content"; "resolution"; "ratio"; "duration"; "watermark"; "seed"; "generate_audio"; "return_last_frame"]%string.

Lemma field_keys v : keys_of (field_list v) = body_keys.
Proof. reflexivity. Qed.

Lemma body_keys_ok : NoDup body_keys /\ Forall (fun k => array_index k = None) body_keys /\ Forall (fun k => k ∈ handledKeys) body_keys /\
  js "model" ∉ body_keys /\ js "model" ∈ handledKeys /\ array_index (js "model") = None.
Proof. split_and!; first [by apply (bool_decide_unpack _); vm_compute|by vm_compute]. Qed.

Lemma all_keys v model : extra_ok v ->
  NoDup (keys_of (body_list v ++ [model_item model])) /\ Forall (fun k => array_index k = None) (keys_of (body_list v ++ [model_item model])).
Proof.
  intros [(Hn & Ho & Hp)%plain_table_spec Hx]. destruct body_keys_ok as (Hb & Hi & Hh & Hm & Hmh & Hmi).
  assert (E : keys_of (body_list v ++ [model_item model]) = body_keys ++ (extra_of (customJson v)).*1 ++ [js "model"]).
  { unfold body_list, keys_of. rewrite !map_app. fold (keys_of (field_list v)). rewrite field_keys, <-app_assoc. do 2 f_equal.
    apply keys_all. }
  rewrite E. rewrite Forall_forall in Hx, Hh. split.
  - apply NoDup_app. split; [done|]. split.
    + intros k Hk [Hk'|Hk']%elem_of_app; [by apply (Hx k Hk'), Hh|]. apply list_elem_of_singleton in Hk' as ->. done.
    + apply NoDup_app. split; [done|]. split; [|apply NoDup_singleton].
      intros k Hk Hk'. apply list_elem_of_singleton in Hk' as ->. by apply (Hx _ Hk).
  - rewrite !Forall_app. split; [done|]. split; [|by apply Forall_singleton]. eapply Forall_impl; [exact Ho|]. by intros ? [].
Qed.

Lemma build_spec v model : extra_ok v ->
  buildVideoRequestPayload model v =
  match assigned (body_list v) with [] => None | _ => Some (assigned (body_list v ++ [model_item model])) end.
Proof.
  intros Hx. destruct (all_keys v model Hx) as [Hn Hi].
  assert (Hb : NoDup (keys_of (body_list v)) /\ Forall (fun k => array_index k = None) (keys_of (body_list v))).
  { unfold keys_of in Hn, Hi |- *. rewrite map_app in Hn, Hi. apply NoDup_app in Hn as (Hn & _ & _). by apply Forall_app in Hi as [Hi _]. }
  assert (E : fold_left (fun t e => obj_set e.1 e.2 t) (extra_of (customJson v)) (form_fields v) = assigned (body_list v)).
  { change (form_fields v) with (assign_all (field_list v) []).
    transitivity (assign_all (body_list v) []).
    - unfold assign_all, body_list. rewrite fold_left_app. symmetry. apply assign_extra.
    - rewrite assign_all_app; [done| |]; by destruct Hb. }
  unfold buildVideoRequestPayload. rewrite E. clear E. rewrite assigned_app.
  assert (Hk : forall k, k ∈ (assigned (body_list v)).*1 -> k ∈ keys_of (body_list v)) by apply assigned_keys.
  destruct (assigned (body_list v)) as [|e t]; [done|]. f_equal.
  unfold assign_if, assigned, model_item. cbn [List.map concat fst snd]. rewrite app_nil_r.
  destruct (truthy (trim model)); cbn [when]; [|by rewrite app_nil_r]. apply obj_set_fresh.
  - intros Hin%Hk. unfold keys_of in Hn. rewrite map_app in Hn. apply NoDup_app in Hn as (_ & Hd & _). apply (Hd _ Hin). by left.
  - apply body_keys_ok.
  - apply Forall_forall. intros k Hin%Hk. destruct Hb as [_ Hb]. rewrite Forall_forall in Hb. by apply Hb.
Qed.

(** ** What is read back *)

(** A form whose body prints and reads: no picture plays another's part, the
    extra parameters are no others, texts are trimmed where the body keeps them. *)
Record sendable (v : VideoForm) : Prop := {
  sd_extra : extra_ok v;
  sd_units : units_ok (prompt v) /\ units_ok (frame_text (image v)) /\ units_ok (frame_text (lastFrame v)) /\ units_ok (role v);
  sd_role : role v <> js "last_frame";
  sd_resolution : trim (resolution v).2 = (resolution v).2 /\ units_ok (resolution v).2;
  sd_ratio : trim (ratio v).2 = (ratio v).2 /\ units_ok (ratio v).2;
  sd_duration : (duration v).1 = true -> num_reads (duration v).2;
  sd_seed : forall x, seed_number (seed v).2 = Some x -> num_reads x /\ seed_number (num_to_string x) = Some x
}.

(** A form with nothing in it. *)
Record blank (v : VideoForm) : Prop := {
  bl_prompt : trim (prompt v) = [];
  bl_image : has (image v) = false; bl_last : has (lastFrame v) = false;
  bl_resolution : (resolution v).1 = false; bl_ratio : (ratio v).1 = false; bl_duration : (duration v).1 = false;
  bl_watermark : (watermark v).1 = false; bl_seed : (seed v).1 = false; bl_audio : (generateAudio v).1 = false;
  bl_return : (returnLastFrame v).1 = false; bl_custom : (customJson v).1 = false
}.

Definition shown_frame (f : Frame) : bool := has f && truthy (frame_text f).
Definition image_role (v : VideoForm) : jstr := or_str (role v) (js "reference_image").
Definition extra_update (extra : Table) : list VideoUpdate :=
  match extra with [] => [] | _ => [UCustomJson (json_stringify2 (JObj extra))] end.
Definition seed_set (v : VideoForm) : bool := (seed v).1 && is_some (seed_number (seed v).2).
Definition seed_value (v : VideoForm) : num := nullish (seed_number (seed v).2) nzero.

(** The patch a body gives back. *)
Definition patch_of (v : VideoForm) : list VideoUpdate :=
  (when (truthy (trim (prompt v))) (UPrompt (trim (prompt v))) ++
   when (shown_frame (image v)) (UImage (upload_mode (frame_text (image v))) (frame_text (image v)) (image_role v)) ++
   when (shown_frame (lastFrame v)) (ULastFrame (upload_mode (frame_text (lastFrame v))) (frame_text (lastFrame v)))) ++
  when ((resolution v).1 && truthy (resolution v).2) (UResolution (resolution v).2) ++
  when ((ratio v).1 && truthy (ratio v).2) (URatio (ratio v).2) ++
  when ((duration v).1 && num_ltb nzero (duration v).2) (UDuration (duration v).2) ++
  when (watermark v).1 (UWatermark (watermark v).2) ++
  when (seed_set v) (USeed (num_to_string (seed_value v))) ++
  when (generateAudio v).1 (UGenerateAudio (generateAudio v).2) ++
  when (returnLastFrame v).1 (UReturnLastFrame (returnLastFrame v).2) ++
  extra_update (extra_of (customJson v)).

Lemma text_item s : item_updates (JObj [(js "type", JStr (js "text")); (js "text", JStr s)]) = [UPrompt s].
Proof. reflexivity. Qed.

Lemma image_item_updates u r :
  item_updates (image_item u r) =
  if r =s js "last_frame" then [ULastFrame (upload_mode u) u] else [UImage (upload_mode u) u (or_str r (js "reference_image"))].
Proof. reflexivity. Qed.

Lemma content_updates v : role v <> js "last_frame" ->
  concat (List.map item_updates (content_of v)) =
  when (truthy (trim (prompt v))) (UPrompt (trim (prompt v))) ++
  when (shown_frame (image v)) (UImage (upload_mode (frame_text (image v))) (frame_text (image v)) (image_role v)) ++
  when (shown_frame (lastFrame v)) (ULastFrame (upload_mode (frame_text (lastFrame v))) (frame_text (lastFrame v))).
Proof.
  intros Hr. unfold content_of, text_items, frame_items, shown_frame. rewrite !map_app, !concat_app. f_equal; [|f_equal].
  - by destruct (truthy _).
  - destruct (has (image v) && _)%bool; [|done]. cbn [List.map concat when app]. rewrite image_item_updates, app_nil_r. unfold image_role.
    assert (E : or_str (role v) (js "reference_image") =s js "last_frame" = false).
    { unfold jstr_eqb. apply bool_decide_false. unfold or_str. by destruct (truthy (role v)). }
    rewrite E. by unfold or_str; destruct (truthy (role v)) eqn:Et; rewrite ?Et.
  - destruct (has (lastFrame v) && _)%bool; [|done]. cbn [List.map concat when app]. by rewrite image_item_updates.
Qed.

Lemma get_body v model c k x :
  extra_ok v -> ((c, (k, x)) : Assignment) ∈ field_list v -> jv_get (JObj (assigned (body_list v ++ [model_item model]))) k = if c then x else JUndef.
Proof.
  intros Hx Hin. unfold jv_get. rewrite (get_assigned _ c k x); [by destruct c|by apply all_keys|].
  apply elem_of_app. left. apply elem_of_app. by left.
Qed.

Lemma text_update_when (c : bool) s up : trim s = s -> (c = true -> truthy s = true) -> text_update (if c then JStr s else JUndef) up = when c (up s).
Proof. intros Hs Hc. destruct c; [|done]. cbn. by rewrite Hs, Hc. Qed.

Lemma filter_assigned_handled l : Forall (fun k => k ∈ handledKeys) (keys_of l) ->
  List.filter (fun e : jstr * jv => negb (bool_decide (e.1 ∈ handledKeys))) (assigned l) = [].
Proof.
  induction l as [|[c [k x]] l IH]; [done|]. unfold keys_of. cbn [List.map fst snd]. intros [Hk Hl]%Forall_cons.
  unfold assigned. cbn [List.map concat fst snd]. rewrite List.filter_app. fold (assigned l). rewrite IH, app_nil_r by done.
  destruct c; [|done]. cbn [when List.filter fst]. by rewrite bool_decide_true.
Qed.

Lemma filter_unhandled (t : Table) : Forall (fun k => k ∉ handledKeys) t.*1 ->
  List.filter (fun e : jstr * jv => negb (bool_decide (e.1 ∈ handledKeys))) t = t.
Proof.
  induction t as [|e t IH]; [done|]. csimpl. intros [He Ht]%Forall_cons. cbn [List.filter]. rewrite bool_decide_false by done. cbn [negb]. by rewrite IH.
Qed.

Lemma body_extra v model : extra_ok v ->
  List.filter (fun e : jstr * jv => negb (bool_decide (e.1 ∈ handledKeys))) (assigned (body_list v ++ [model_item model])) = extra_of (customJson v).
Proof.
  intros [_ Hx]. destruct body_keys_ok as (_ & _ & Hh & _ & Hm & _). unfold body_list. rewrite !assigned_app, assigned_all, !List.filter_app.
  rewrite filter_assigned_handled by (by rewrite field_keys). rewrite (filter_unhandled _ Hx).
  rewrite filter_assigned_handled; [by rewrite app_nil_r|]. by apply Forall_singleton.
Qed.

Lemma seed_updates (c : bool) x :
  match (if c then JNum x else JUndef) with JUndef | JNull => Some [] | v => option_map (fun s => [USeed s]) (js_String v) end =
  Some (when c (USeed (num_to_string x))).
Proof. by destruct c. Qed.

(** Reading the object of a body gives the patch, and the model it names. *)
Lemma body_updates v model : sendable v ->
  object_updates (assigned (body_list v ++ [model_item model])) =
  Some (patch_of v, if truthy (trim model) then Some (trim model) else None).
Proof.
  intros Hs. pose proof (sd_extra v Hs) as Hx. pose proof (get_body v model) as G.
  assert (Gm : jv_get (JObj (assigned (body_list v ++ [model_item model]))) (js "model") = if truthy (trim model) then JStr (trim model) else JUndef).
  { unfold jv_get. rewrite (get_assigned _ (truthy (trim model)) (js "model") (JStr (trim model))); [by destruct (truthy _)|by apply all_keys|].
    apply elem_of_app. right. by apply list_elem_of_singleton. }
  unfold object_updates. cbv zeta. rewrite body_extra by done. rewrite Gm.
  rewrite (G _ (js "content") _ Hx) by left. rewrite (G _ (js "resolution") _ Hx) by (do 1 right; left). rewrite (G _ (js "ratio") _ Hx) by (do 2 right; left).
  rewrite (G _ (js "duration") _ Hx) by (do 3 right; left). rewrite (G _ (js "watermark") _ Hx) by (do 4 right; left).
  rewrite (G _ (js "seed") _ Hx) by (do 5 right; left). rewrite (G _ (js "generate_audio") _ Hx) by (do 6 right; left).
  rewrite (G _ (js "return_last_frame") _ Hx) by (do 7 right; left).
  rewrite seed_updates. cbn [mbind option_bind]. unfold patch_of. rewrite <-(content_updates v (sd_role v Hs)).
  do 2 f_equal.
  - repeat f_equal.
    + by destruct (content_of v).
    + apply text_update_when; [apply Hs|]. by intros [_ H]%andb_true_iff.
    + apply text_update_when; [apply Hs|]. by intros [_ H]%andb_true_iff.
    + destruct (duration v) as [[] d]; [|done]. cbn [fst snd andb]. by destruct (num_ltb nzero d) eqn:E; rewrite ?E.
    + by destruct (watermark v).1.
    + by destruct (generateAudio v).1.
    + by destruct (returnLastFrame v).1.
  - destruct (truthy (trim model)) eqn:E; [|done]. by rewrite trim_idemp, E.
Qed.

(** ** The form after the patch *)

Definition either {A} (c : bool) (a b : A) : A := if c then a else b.

(** A form with what [v] sends, and the rest of [w]. *)
Definition filled (w v : VideoForm) : VideoForm :=
  MkVideo (either (truthy (trim (prompt v))) (trim (prompt v)) (prompt w))
    (either (shown_frame (image v)) (put_frame (upload_mode (frame_text (image v))) (frame_text (image v)) (image w)) (image w))
    (either (shown_frame (image v)) (image_role v) (role w))
    (either (shown_frame (lastFrame v)) (put_frame (upload_mode (frame_text (lastFrame v))) (frame_text (lastFrame v)) (lastFrame w)) (lastFrame w))
    (either ((resolution v).1 && truthy (resolution v).2) (true, (resolution v).2) (resolution w))
    (either ((ratio v).1 && truthy (ratio v).2) (true, (ratio v).2) (ratio w))
    (either ((duration v).1 && num_ltb nzero (duration v).2) (true, (duration v).2) (duration w))
    (either (watermark v).1 (true, (watermark v).2) (watermark w))
    (either (seed_set v) (true, num_to_string (seed_value v)) (seed w))
    (either (generateAudio v).1 (true, (generateAudio v).2) (generateAudio w))
    (either (returnLastFrame v).1 (true, (returnLastFrame v).2) (returnLastFrame w))
    (match extra_of (customJson v) with [] => customJson w | extra => (true, json_stringify2 (JObj extra)) end)
    (customPath w) (rawPayload w) (taskId w).

Lemma patch_app w a b : apply_patch w (a ++ b) = apply_patch (apply_patch w a) b.
Proof. apply fold_left_app. Qed.

(** One assignment of the patch, under its condition: field by field. *)
Lemma patch_when (c : bool) u p im ro la re ra du wa se ge rl cu pa rw ta :
  let w := MkVideo p im ro la re ra du wa se ge rl cu pa rw ta in apply_patch w (when c u) = either c (apply_update w u) w.
Proof. by destruct c. Qed.

Lemma either_same {A} c (x : A) : either c x x = x.
Proof. by destruct c. Qed.

Lemma either_video (c : bool) p im ro la re ra du wa se ge rl cu pa rw ta p' im' ro' la' re' ra' du' wa' se' ge' rl' cu' pa' rw' ta' :
  either c (MkVideo p im ro la re ra du wa se ge rl cu pa rw ta) (MkVideo p' im' ro' la' re' ra' du' wa' se' ge' rl' cu' pa' rw' ta') =
  MkVideo (either c p p') (either c im im') (either c ro ro') (either c la la') (either c re re') (either c ra ra') (either c du du')
    (either c wa wa') (either c se se') (either c ge ge') (either c rl rl') (either c cu cu') (either c pa pa') (either c rw rw') (either c ta ta').
Proof. by destruct c. Qed.

Lemma patch_filled w v : apply_patch w (patch_of v) = filled w v.
Proof.
  destruct w as [p im ro la re ra du wa se ge rl cu pa rw ta]. unfold patch_of, filled. rewrite !patch_app.
  repeat (rewrite patch_when; cbv zeta; cbn [apply_update]; rewrite either_video, !either_same).
  cbn [prompt image role lastFrame resolution ratio duration watermark seed generateAudio returnLastFrame customJson customPath rawPayload taskId].
  by destruct (extra_of (customJson v)).
Qed.

(** ** The body of the form after the patch *)

Lemma frame_put f g : shown_frame f = true -> has (put_frame (upload_mode (frame_text f)) (frame_text f) g) = true /\
  frame_text (put_frame (upload_mode (frame_text f)) (frame_text f) g) = frame_text f.
Proof.
  intros _. unfold put_frame, upload_mode. destruct (starts_with _ _); split; try done; unfold frame_text at 1; cbn; apply trim_idemp.
Qed.

Lemma filled_frame f g r r' : has g = false -> (shown_frame f = true -> r = r') ->
  frame_items (either (shown_frame f) (put_frame (upload_mode (frame_text f)) (frame_text f) g) g) r = frame_items f r'.
Proof.
  intros Hg Hr. unfold either. destruct (shown_frame f) eqn:E.
  - destruct (frame_put f g E) as [H1 H2]. unfold frame_items. rewrite H1, H2, Hr by done.
    apply andb_true_iff in E as [-> ->]. done.
  - unfold frame_items. rewrite Hg. unfold shown_frame in E. by rewrite E.
Qed.

Lemma filled_content w v : blank w -> content_of (filled w v) = content_of v.
Proof.
  intros Hb. unfold content_of, filled. cbn [prompt image role lastFrame]. f_equal; [|f_equal].
  - unfold text_items, either. destruct (truthy (trim (prompt v))) eqn:E; [by rewrite trim_idemp, E|by rewrite (bl_prompt w Hb)].
  - apply filled_frame; [apply Hb|]. intros E. rewrite E. cbn [either]. unfold image_role, or_str. by destruct (truthy (role v)) eqn:E'; rewrite ?E'.
  - apply filled_frame; [apply Hb|done].
Qed.

Lemma filled_extra w v : blank w -> sendable v -> extra_of (customJson (filled w v)) = extra_of (customJson v).
Proof.
  intros Hb Hs. pose proof (proj1 (sd_extra v Hs)) as Hp. unfold filled. cbn [customJson].
  destruct (extra_of (customJson v)) as [|e t] eqn:E.
  - unfold extra_of. by rewrite (bl_custom w Hb).
  - unfold extra_of. cbn [fst snd andb]. rewrite (trim_id (json_stringify2 _)) by apply stringify_trimmed. rewrite json_parse_stringify by exact Hp.
    destruct (stringify_head (js "  ") [] (JObj (e :: t)) Hp) as (c & u & Ec & _). unfold json_stringify2. by rewrite Ec.
Qed.

Lemma field_pair {A} (x w : bool * A) (c : A -> bool) (g : A -> jstr * jv) : w.1 = false ->
  let y := either (x.1 && c x.2) (true, x.2) w in when (y.1 && c y.2) (g y.2) = when (x.1 && c x.2) (g x.2).
Proof. intros Hw. unfold either. destruct (x.1 && c x.2)%bool eqn:E; cbn [fst snd]; [by apply andb_true_iff in E as [_ ->]|by rewrite Hw]. Qed.

Lemma field_flag {A} (x w : bool * A) (g : A -> jstr * jv) : w.1 = false ->
  let y := either x.1 (true, x.2) w in when y.1 (g y.2) = when x.1 (g x.2).
Proof. intros Hw. unfold either. destruct x as [[] x]; cbn; [done|by rewrite Hw]. Qed.

Lemma field_seed v w : (seed w).1 = false -> (forall x, seed_number (seed v).2 = Some x -> seed_number (num_to_string x) = Some x) ->
  let y := either (seed_set v) (true, num_to_string (seed_value v)) (seed w) in
  when (y.1 && is_some (seed_number y.2)) (js "seed", JNum (nullish (seed_number y.2) nzero)) =
  when (seed_set v) (js "seed", JNum (seed_value v)).
Proof.
  intros Hw H. unfold either. destruct (seed_set v) eqn:E; cbn [fst snd]; [|by rewrite Hw].
  unfold seed_set, seed_value in *. destruct (seed_number (seed v).2) as [x|]; [|by rewrite andb_false_r in E].
  cbn [nullish]. by rewrite (H x).
Qed.

(** Every property of the body is the same. *)
Lemma filled_list w v : blank w -> sendable v -> assigned (body_list (filled w v)) = assigned (body_list v).
Proof.
  intros Hb Hs. unfold body_list. rewrite !assigned_app, (filled_extra w v Hb Hs). f_equal.
  unfold field_list. cbv zeta. rewrite (filled_content w v Hb). unfold assigned. cbn [List.map concat fst snd]. do 1 f_equal.
  unfold filled. cbn [resolution ratio duration watermark seed generateAudio returnLastFrame].
  rewrite (field_pair (resolution v) (resolution w) truthy (fun s => (js "resolution", JStr s))) by apply Hb.
  rewrite (field_pair (ratio v) (ratio w) truthy (fun s => (js "ratio", JStr s))) by apply Hb.
  rewrite (field_pair (duration v) (duration w) (num_ltb nzero) (fun x => (js "duration", JNum x))) by apply Hb.
  rewrite (field_flag (watermark v) (watermark w) (fun b => (js "watermark", JBool b))) by apply Hb.
  rewrite (field_flag (generateAudio v) (generateAudio w) (fun b => (js "generate_audio", JBool b))) by apply Hb.
  rewrite (field_flag (returnLastFrame v) (returnLastFrame w) (fun b => (js "return_last_frame", JBool b))) by apply Hb.
  rewrite field_seed; [done|apply Hb|]. intros x Hx. by apply Hs.
Qed.

Lemma filled_extra_ok w v : blank w -> sendable v -> extra_ok (filled w v).
Proof. intros Hb Hs. unfold extra_ok. rewrite (filled_extra w v Hb Hs). apply Hs. Qed.

(** ** Printing a body *)

Lemma image_item_plain u r : units_ok u -> units_ok r -> plain (image_item u r).
Proof.
  intros Hu Hr. unfold image_item. cbn [plain]. split_and!; try done; try (by apply (bool_decide_unpack _); vm_compute); try units_done.
  all: repeat (apply Forall_cons; split; [split; [units_done|by vm_compute]|]); try by apply Forall_nil.
Qed.

Lemma text_item_plain s : units_ok s -> plain (JObj [(js "type", JStr (js "text")); (js "text", JStr s)]).
Proof.
  intros Hs. cbn [plain]. split_and!; try done; try (by apply (bool_decide_unpack _); vm_compute); try units_done.
  all: repeat (apply Forall_cons; split; [split; [units_done|by vm_compute]|]); try by apply Forall_nil.
Qed.

Lemma assigned_keys_sublist l : (assigned l).*1 `sublist_of` keys_of l.
Proof.
  induction l as [|[[] [k x]] l IH]; [done| |]; unfold assigned, keys_of; cbn [List.map concat when fst snd app fmap list_fmap].
  - by apply sublist_skip.
  - by apply sublist_cons.
Qed.

Lemma assigned_plain l :
  NoDup (keys_of l) -> Forall ordinary (keys_of l) -> Forall (fun a : Assignment => a.1 = true -> plain a.2.2) l -> plain_table (assigned l).
Proof.
  intros Hn Ho Hp. apply plain_table_spec. split; [eapply sublist_NoDup; [exact Hn|apply assigned_keys_sublist]|]. split.
  - apply Forall_forall. intros k Hk%assigned_keys. rewrite Forall_forall in Ho. by apply Ho.
  - clear Hn Ho. induction Hp as [|[[] [k x]] l Hx _ IH]; [by apply Forall_nil| |exact IH].
    unfold assigned. cbn [List.map concat when fst snd app fmap list_fmap]. apply Forall_cons. split; [by apply Hx|exact IH].
Qed.

Lemma or_str_units s d : units_ok s -> units_ok d -> units_ok (or_str s d).
Proof. unfold or_str. by destruct (truthy s). Qed.

Lemma trim_units_ok s : units_ok s -> units_ok (trim s).
Proof. unfold units_ok. rewrite !Forall_forall. intros H c Hc. apply H, trim_sub, Hc. Qed.

Lemma content_plain v : sendable v -> plain (JArr (content_of v)).
Proof.
  intros Hs. destruct (sd_units v Hs) as (Hp & Hi & Hl & Hr). rewrite plain_arr, plain_list_Forall. unfold content_of, text_items, frame_items.
  rewrite !Forall_app. split; [|split]; destruct (_ : bool); try by apply Forall_nil.
  - apply Forall_singleton, text_item_plain. by apply trim_units_ok.
  - apply Forall_singleton, image_item_plain; [done|]. apply or_str_units; [done|units_done].
  - apply Forall_singleton, image_item_plain; [done|units_done].
Qed.

Lemma body_plain v model : sendable v -> units_ok model -> plain_table (assigned (body_list v ++ [model_item model])).
Proof.
  intros Hs Hm. pose proof (sd_extra v Hs) as Hx. destruct (all_keys v model Hx) as [Hn Hi].
  destruct Hx as [(_ & Ho & Hp)%plain_table_spec _]. apply assigned_plain; [done| |].
  - unfold keys_of, body_list. rewrite !map_app, !Forall_app. fold (keys_of (field_list v)). rewrite field_keys. split; [split|].
    + repeat (apply Forall_cons; split; [split; [units_done|by vm_compute]|]). by apply Forall_nil.
    + fold (keys_of (List.map (pair true) (extra_of (customJson v)))). by rewrite keys_all.
    + apply Forall_singleton. split; [units_done|by vm_compute].
  - unfold body_list. rewrite !Forall_app. split; [split|].
    + unfold field_list. cbv zeta. repeat (apply Forall_cons; split; [cbn [fst snd plain]|]); try by apply Forall_nil.
      * intros _. by apply content_plain.
      * intros _. apply Hs.
      * intros _. apply Hs.
      * intros [Hd _]%andb_true_iff. by apply (sd_duration v Hs).
      * done.
      * intros [_ Hd]%andb_true_iff. destruct (seed_number (seed v).2) as [x|] eqn:E; [|done]. by apply (sd_seed v Hs x).
      * done.
      * done.
    + apply Forall_forall. intros a (e & -> & He)%list_elem_of_fmap. intros _. cbn.
      eapply (proj1 (Forall_forall _ _) Hp), list_elem_of_fmap. by exists e.
    + apply Forall_singleton. intros _. cbn. by apply trim_units_ok.
Qed.

(** * Theorems *)

(** C21: the body of a video request shown as JSON and applied to an empty form
    gives a form, and a model, with the same body: nothing that is sent is lost. *)
Theorem video_body_roundtrip (syntax_error : jstr -> jstr) (model : jstr) (v w : VideoForm) (p : Table) :
  sendable v -> units_ok model -> blank w -> buildVideoRequestPayload model v = Some p ->
  exists w' model', handleApplyJsonToForm syntax_error (json_stringify2 (JObj p)) w model = Some (w', model') /\
    buildVideoRequestPayload model' w' = Some p.
Proof.
  intros Hs Hm Hb Hp. rewrite build_spec in Hp by apply Hs.
  destruct (assigned (body_list v)) as [|e t] eqn:Eb; [done|].
  assert (Ep : p = assigned (body_list v ++ [model_item model])) by congruence. clear Hp. subst p.
  set (p := assigned (body_list v ++ [model_item model])).
  assert (Hpl : plain (JObj p)) by (by apply body_plain).
  destruct (stringify_head (js "  ") [] (JObj p) Hpl) as (c & u & Ec & _).
  assert (Hparse : parseVideoPayloadToForm syntax_error (json_stringify2 (JObj p)) =
    Some (Parsed (patch_of v) (if truthy (trim model) then Some (trim model) else None))).
  { unfold parseVideoPayloadToForm. rewrite (trim_id (json_stringify2 _)) by apply stringify_trimmed.
    rewrite json_parse_stringify by done. unfold json_stringify2 at 1. rewrite Ec. cbn [truthy negb].
    unfold p. by rewrite (body_updates v model Hs). }
  exists (filled w v), (if truthy (trim model) then trim model else model). split.
  - unfold handleApplyJsonToForm. rewrite Hparse. cbn [mbind option_bind]. rewrite patch_filled.
    destruct (truthy (trim model)) eqn:E; by rewrite ?E.
  - rewrite build_spec by (by apply filled_extra_ok). rewrite (filled_list w v Hb Hs), Eb, assigned_app, (filled_list w v Hb Hs).
    unfold p. rewrite assigned_app. do 2 f_equal. unfold model_item, assigned. cbn [List.map concat fst snd].
    destruct (truthy (trim model)) eqn:E; by rewrite ?trim_idemp, ?E.
Qed.

(** A picture a form has stays in it when a body without one is applied. *)
Definition with_image : VideoForm :=
  apply_patch DEFAULT_VIDEO_FORM [UPrompt (js "hi"); UImage url (js "http://x/a.png") (js "first_frame"); UWatermark true].

Definition text_body : Table :=
  [(js "content", JArr [JObj [(js "type", JStr (js "text")); (js "text", JStr (js "hi"))]]); (js "model", JStr (js "m"))].

Example removed_image_stays :
  exists w' m', handleApplyJsonToForm (fun _ => []) (json_stringify2 (JObj text_body)) with_image (js "m") = Some (w', m') /\
    has (image w') = true /\ watermark w' = (true, true) /\ buildVideoRequestPayload m' w' <> Some text_body.
Proof. eexists _, _. split; [vm_compute; reflexivity|]. by vm_compute. Qed.

(** A video run that is started (and does not only ask for a task) sends a
    body that is JSON; when the body was not edited it is an object with the
    content of the form and the model of the page. *)
Theorem video_start_body (CORPORA : list Corpus) (shortText : jstr) (pg : Page) (checks : option (list jstr)) (r : SupplierTestRunRequest) :
  startModule CORPORA shortText pg video checks = inr r -> query_only video checks = false ->
  sendable (pg_video pg) -> units_ok (target_model (pg_target pg)) ->
  exists raw o, vq_raw_payload (rq_video r) = Some raw /\ json_parse raw = Some o /\
    (trim (nullish (rawPayload (pg_video pg)) []) = [] ->
     jv_get o (js "content") = JArr (content_of (pg_video pg)) /\ jv_get o (js "model") = JStr (rq_model r) /\ rq_model r <> []).
Proof.
  intros Hr Hq Hs Hu. unfold startModule in Hr. rewrite Hq in Hr. cbn [negb foldr module_error] in Hr. rewrite bool_decide_true in Hr by done.
  destruct (validateTarget _ _) as [e|] eqn:Ht; [done|]. destruct (video_error _ _ _) as [e|] eqn:He; [done|]. cbn in Hr. injection Hr as <-.
  unfold validateTarget in Ht. destruct (negb _); [done|]. destruct (truthy (trim (target_model (pg_target pg)))) eqn:Em; [|done]. clear Ht.
  cbn [buildPayload rq_video vq_raw_payload rq_model]. unfold raw_payload_of. unfold video_error in He.
  destruct (truthy (trim (nullish (rawPayload (pg_video pg)) []))) eqn:Eraw.
  - unfold first_error in He. cbn [List.find fst] in He. unfold is_json in He.
    destruct (json_parse (trim (nullish (rawPayload (pg_video pg)) []))) as [o|] eqn:Ep; [|done].
    exists (trim (nullish (rawPayload (pg_video pg)) [])), o. split; [done|]. split; [done|]. intros H. by rewrite H in Eraw.
  - rewrite bool_decide_true by done. cbn [negb].
    unfold first_error in He. cbn [List.find fst] in He. destruct (truthy (trim (prompt (pg_video pg)))) eqn:Epr; [|done]. clear He.
    set (v := pg_video pg) in *. set (model := target_model (pg_target pg)) in *.
    assert (Hc : exists c l, content_of v = c :: l) by (unfold content_of, text_items; rewrite Epr; by eexists _, _).
    destruct Hc as (c & l & Hc).
    rewrite build_spec by apply Hs.
    destruct (assigned (body_list v)) as [|e t] eqn:Eb.
    { exfalso. unfold body_list, field_list in Eb. cbv zeta in Eb. rewrite Hc in Eb. done. }
    eexists _, (JObj (assigned (body_list v ++ [model_item model]))). split; [reflexivity|].
    split; [apply json_parse_compact; by apply body_plain|]. intros _. split; [|split].
    + rewrite (get_body v model (negb (Nat.eqb (length (content_of v)) 0)) (js "content") (JArr (content_of v))); [by rewrite Hc|apply Hs|left].
    + unfold jv_get. rewrite (get_assigned _ (truthy (trim model)) (js "model") (JStr (trim model))); [by rewrite Em|apply all_keys, Hs|].
      apply elem_of_app. right. by apply list_elem_of_singleton.
    + by apply truthy_true.
Qed.

(** * Concrete runs *)

Definition sample_video : VideoForm :=
  MkVideo (js " a cat ") (MkFrame true base64 [] (js "data:image/png;base64,AA==")) (js "first_frame") (MkFrame true url (js "http://x/l.png ") []) (true, js "720p")
    (false, js "16:9") (true, num_of_Z 5) (true, false) (true, js " 42x") (false, false) (true, true) (true, js "{}") [] None (Some (js "  ")).

Lemma sample_sendable : sendable sample_video.
Proof.
  split.
  - unfold extra_ok. assert (E : extra_of (customJson sample_video) = []) by (by vm_compute). rewrite E. split; [|by apply Forall_nil].
    apply plain_table_spec. split_and!; [apply NoDup_nil_2|by apply Forall_nil..].
  - split_and!; apply units_check; by vm_compute.
  - done.
  - split; [by vm_compute|apply units_check; by vm_compute].
  - split; [by vm_compute|apply units_check; by vm_compute].
  - intros _. apply num_reads_digits; by vm_compute.
  - intros x Hx. assert (E : seed_number (seed sample_video).2 = Some (num_of_Z 42)) by (by vm_compute).
    rewrite E in Hx. injection Hx as <-. split; [apply num_reads_digits|]; by vm_compute.
Qed.

Lemma default_blank : blank DEFAULT_VIDEO_FORM.
Proof. by split; vm_compute. Qed.

Lemma video_body_roundtrip_witness :
  exists p, buildVideoRequestPayload (js "veo") sample_video = Some p /\
  exists w' model', handleApplyJsonToForm (fun s => s) (json_stringify2 (JObj p)) DEFAULT_VIDEO_FORM (js "veo") = Some (w', model') /\
    buildVideoRequestPayload model' w' = Some p.
Proof.
  eexists. split; [vm_compute; reflexivity|].
  apply (video_body_roundtrip (fun s => s) (js "veo") sample_video DEFAULT_VIDEO_FORM); [exact sample_sendable|units_done|exact default_blank|vm_compute; reflexivity].
Defined.

Definition sample_page (v : VideoForm) (run_task : option jstr) : Page :=
  MkPage (MkTarget (js "http://host") (js "key") (js "veo") generic) (MkBasic (js "hi") (num_of_Z 64) [] [] true)
    (MkCacheForm (js "3k") [] [] (num_of_Z 30) (num_of_Z 16) (num_of_Z 5) true static)
    (MkStressForm (num_of_Z 10) (num_of_Z 1) (num_of_Z 256) (js "short") [] false true) v run_task.

Lemma video_start_body_witness :
  exists r raw o, startModule [] [] (sample_page sample_video None) video None = inr r /\
    vq_raw_payload (rq_video r) = Some raw /\ json_parse raw = Some o /\ jv_get o (js "model") = JStr (js "veo").
Proof.
  destruct (startModule [] [] (sample_page sample_video None) video None) as [e|r] eqn:E; [by vm_compute in E|].
  destruct (video_start_body [] [] (sample_page sample_video None) None r E eq_refl sample_sendable ltac:(units_done)) as (raw & o & H1 & H2 & H3).
  exists r, raw, o. split; [done|]. split; [done|]. split; [done|].
  destruct (H3 eq_refl) as (_ & H4 & _). rewrite H4. assert (Hm : rq_model r = js "veo"); [|by rewrite Hm].
  vm_compute in E. injection E as <-. reflexivity.
Defined.

(** A blank task of the form hides the task of the last run: the check passes
    for the one and the other is sent. *)
Example blank_task_sent :
  exists r, startModule [] [] (sample_page sample_video (Some (js "task-1"))) video (Some [js "video_poll"]) = inr r /\
    vq_task_id (rq_video r) = Some [].
Proof. eexists. split; [vm_compute; reflexivity|]. by vm_compute. Qed.

(** The limits of a stress test, as the handler words them. *)
Example stress_refused :
  let pg c r := MkPage (MkTarget (js "http://host") [] (js "m") generic) (MkBasic [] nzero [] [] true)
    (MkCacheForm [] [] [] nzero nzero nzero true static) (MkStressForm c r (num_of_Z 8) [] [] false true) DEFAULT_VIDEO_FORM None in
  startModule [] [] (pg (num_of_Z 1000) (num_of_Z 11)) stress None = inl (js "Concurrency " ++ [215%N] ++ js " rounds must be at most {{max}} requests") /\
  startModule [] [] (pg (num_of_dec false 15 (-1)) (num_of_Z 1)) stress None = inl (js "Concurrency must be between 1 and {{max}}") /\
  is_some (match startModule [] [] (pg (num_of_Z 1000) (num_of_Z 10)) stress None with inr r => Some r | _ => None end) = true.
Proof. by vm_compute. Qed.

Example tokens_estimated : estimateTokens (js "abcd efgh") = num_of_Z 2 /\ estimateTokens [20320; 22909]%N = num_of_Z 2 /\ estimateTokens (js "  ") = nzero.
Proof. by vm_compute. Qed.
