(* ===== verification/SupplierRun.v ===== *)
(** A run of the supplier test (features/supplier-test/hooks/use-supplier-test-run.ts,
    the tables of checks of constants.ts): the hook as a machine whose events are
    what the user does, the answer to the request for headers, what a stream
    sends, its end, and the unmounting of the page. A stream is named by the run
    that opened it, since a run opens one at most. Updaters of state are applied
    at once, as none of them reads another state. A text sent where an object is
    expected is taken to have no properties. *)

From Stdlib Require Import NArith ZArith Lia ZifyBool ZifyN SpecFloat.
From stdpp Require Import base list gmap strings.
From S2P Require Import Prelude JsString JsNum Json JsTable SupplierRequest.

(** * Checks *)

(** What the server sends for a check is kept as it is. *)
Record CheckResult := MkCheck { c_id : jstr; c_title : jv; c_status : jv; c_message : jv; c_messageArgs : jv; c_hintKey : jstr }.

Definition idle : jv := JStr (js "idle").

Definition check (i title hintKey : string) : CheckResult := MkCheck (js i) (JStr (js title)) idle JUndef JUndef (js hintKey).

Definition BASIC_CHECKS : list CheckResult :=
  [check "connectivity" "Connectivity" "First chat request. Pass means HTTP 200 with text, thinking, or a tool call.";
   check "stream_format" "Stream format" "Streaming frames are valid. Missing finish_reason is skipped, not failed.";
   check "usage" "Usage fields" "Response includes prompt_tokens and completion_tokens. Needed for billing, not intelligence.";
   check "request_id" "Request id" "Response body or common headers include a request id, for troubleshooting.";
   check "sampling" "Sampling parameters" "Only checks max_tokens and the temperature / top_p you filled. Vendor 4xx is skipped.";
   check "auth_error" "Auth error" "A bad key should return 401 or 403. Other codes are skipped.";
   check "bad_request" "Bad request" "A request missing required fields should return 4xx. Other codes are skipped.";
   check "json_mode" "JSON mode" "Asks the vendor to return JSON. No JSON mode is skipped, not failed.";
   check "tool_call" "Tool call" "Asks the vendor to call a tool. No tools API is skipped, not failed.";
   check "thinking" "Thinking mode" "Asks the vendor for thinking / reasoning. No thinking API is skipped, not failed.";
   check "kimi_kvv" "KVV preflight" "KVV preflight only. A pass is not official Kimi KVV certification."].

Definition CACHE_CHECKS : list CheckResult :=
  [check "cache_warm" "Cache warm" "First request with the same corpus prefix, to fill the vendor cache.";
   check "cache_probe" "Cache probe" "Later rounds reuse that prefix plus a follow-up, to see if cache hits.";
   check "cache_tokens" "Cached tokens" "Whether usage.cached_tokens is present. Missing field is skipped, not failed.";
   check "cache_hit_rate" "Cache hit rate" "Hits divided by probe rounds. Judged by the Cache hit (%) ruler above.";
   check "cache_ttl" "Cache TTL" "Hit rate after waiting. Wait less than TTL wait (s) and this cannot be compared."].

Definition VIDEO_CHECKS : list CheckResult :=
  [check "video_submit" "Task submit" "POST /api/v3/contents/generations/tasks: returns task ID.";
   check "video_poll" "Status polling" "GET /api/v3/contents/generations/tasks/{id}: polls status until completed.";
   check "video_result" "Video result" "Extracts playable video_url from completed task."].

Definition reset_check (c : CheckResult) : CheckResult := MkCheck (c_id c) (c_title c) idle JUndef JUndef (c_hintKey c).

Definition resetChecks (current : list CheckResult) (ids : option (list jstr)) : list CheckResult :=
  match some_checks ids with
  | None => List.map reset_check current
  | Some selected => List.map (fun c => if bool_decide (c_id c ∈ selected) then reset_check c else c) current
  end.

(** * The state *)

Record Summaries := MkSummaries { sum_basic : jv; sum_cache : jv; sum_stress : jv }.

(** What the page shows of the hook. *)
Record View := MkView {
  runningModule : option SupplierTestModule;
  basicChecks : list CheckResult; cacheChecks : list CheckResult; videoChecks : list CheckResult;
  streamText : jstr; basicStreamText : jstr; progress : jv * jv;
  metrics : option jv; cacheMetrics : option jv; videoMetrics : option jv; summaries : Summaries; errorMessage : jv; toasts : list jv
}.

(** [pending]: runs whose headers are awaited; [completed]: streams whose flag of
    that name is set; [opened] and [closed]: the streams that were. *)
Record Run := MkRun {
  runId : N; sourceRef : option N; view : View; pending : list N; completed : list N; opened : list N; closed : list N
}.

Definition zero_zero : jv * jv := (JNum nzero, JNum nzero).

Definition init : Run :=
  MkRun 0 None (MkView None BASIC_CHECKS CACHE_CHECKS VIDEO_CHECKS [] [] zero_zero None None None (MkSummaries (JStr []) (JStr []) (JStr [])) (JStr []) [])
    [] [] [] [].

(** ** Setters *)

Definition setRunningModule (m : option SupplierTestModule) (v : View) : View :=
  MkView m (basicChecks v) (cacheChecks v) (videoChecks v) (streamText v) (basicStreamText v) (progress v) (metrics v) (cacheMetrics v) (videoMetrics v) (summaries v) (errorMessage v) (toasts v).
Definition setBasicChecks (f : list CheckResult -> list CheckResult) (v : View) : View :=
  MkView (runningModule v) (f (basicChecks v)) (cacheChecks v) (videoChecks v) (streamText v) (basicStreamText v) (progress v) (metrics v) (cacheMetrics v) (videoMetrics v) (summaries v) (errorMessage v) (toasts v).
Definition setCacheChecks (f : list CheckResult -> list CheckResult) (v : View) : View :=
  MkView (runningModule v) (basicChecks v) (f (cacheChecks v)) (videoChecks v) (streamText v) (basicStreamText v) (progress v) (metrics v) (cacheMetrics v) (videoMetrics v) (summaries v) (errorMessage v) (toasts v).
Definition setVideoChecks (f : list CheckResult -> list CheckResult) (v : View) : View :=
  MkView (runningModule v) (basicChecks v) (cacheChecks v) (f (videoChecks v)) (streamText v) (basicStreamText v) (progress v) (metrics v) (cacheMetrics v) (videoMetrics v) (summaries v) (errorMessage v) (toasts v).
Definition setStreamText (f : jstr -> jstr) (v : View) : View :=
  MkView (runningModule v) (basicChecks v) (cacheChecks v) (videoChecks v) (f (streamText v)) (basicStreamText v) (progress v) (metrics v) (cacheMetrics v) (videoMetrics v) (summaries v) (errorMessage v) (toasts v).
Definition setBasicStreamText (f : jstr -> jstr) (v : View) : View :=
  MkView (runningModule v) (basicChecks v) (cacheChecks v) (videoChecks v) (streamText v) (f (basicStreamText v)) (progress v) (metrics v) (cacheMetrics v) (videoMetrics v) (summaries v) (errorMessage v) (toasts v).
Definition setProgress (p : jv * jv) (v : View) : View :=
  MkView (runningModule v) (basicChecks v) (cacheChecks v) (videoChecks v) (streamText v) (basicStreamText v) p (metrics v) (cacheMetrics v) (videoMetrics v) (summaries v) (errorMessage v) (toasts v).
Definition setMetrics (m : option jv) (v : View) : View :=
  MkView (runningModule v) (basicChecks v) (cacheChecks v) (videoChecks v) (streamText v) (basicStreamText v) (progress v) m (cacheMetrics v) (videoMetrics v) (summaries v) (errorMessage v) (toasts v).
Definition setCacheMetrics (m : option jv) (v : View) : View :=
  MkView (runningModule v) (basicChecks v) (cacheChecks v) (videoChecks v) (streamText v) (basicStreamText v) (progress v) (metrics v) m (videoMetrics v) (summaries v) (errorMessage v) (toasts v).
Definition setVideoMetrics (f : option jv -> option jv) (v : View) : View :=
  MkView (runningModule v) (basicChecks v) (cacheChecks v) (videoChecks v) (streamText v) (basicStreamText v) (progress v) (metrics v) (cacheMetrics v) (f (videoMetrics v)) (summaries v) (errorMessage v) (toasts v).
Definition setSummaries (f : Summaries -> Summaries) (v : View) : View :=
  MkView (runningModule v) (basicChecks v) (cacheChecks v) (videoChecks v) (streamText v) (basicStreamText v) (progress v) (metrics v) (cacheMetrics v) (videoMetrics v) (f (summaries v)) (errorMessage v) (toasts v).
Definition setErrorMessage (m : jv) (v : View) : View :=
  MkView (runningModule v) (basicChecks v) (cacheChecks v) (videoChecks v) (streamText v) (basicStreamText v) (progress v) (metrics v) (cacheMetrics v) (videoMetrics v) (summaries v) m (toasts v).
Definition toast_error (m : jv) (v : View) : View :=
  MkView (runningModule v) (basicChecks v) (cacheChecks v) (videoChecks v) (streamText v) (basicStreamText v) (progress v) (metrics v) (cacheMetrics v) (videoMetrics v) (summaries v) (errorMessage v) (toasts v ++ [m]).

(** * Events of a stream *)

(** [a ?? b] on values *)
Definition jv_default (a b : jv) : jv := match a with JUndef | JNull => b | _ => a end.

(** [{...a, ...b}] *)
Definition spread (t : Table) (v : jv) : Table := fold_left (fun t e => obj_set e.1 e.2 t) (jv_entries v) t.

Definition merge_video (video : jv) (prev : option jv) : option jv :=
  match prev with
  | None => Some video
  | Some p =>
      let keep k t := obj_set (js k) (jv_or (jv_get video (js k)) (jv_get p (js k))) t in
      Some (JObj (keep "endpoint_url"%string (keep "raw_submit_response_json"%string (keep "raw_request_json"%string (spread (spread [] p) video)))))
  end.

(** The updater of both kinds of events that name a check. *)
Definition applyCheck (e : jv) (current : list CheckResult) : list CheckResult :=
  List.map (fun c =>
    if is_text (c_id c) (jv_get e (js "check_id")) then
      MkCheck (c_id c) (jv_or (jv_get e (js "title")) (c_title c)) (jv_default (jv_get e (js "status")) (c_status c))
        (jv_get e (js "message")) (jv_get e (js "message_args")) (c_hintKey c)
    else c) current.

Definition of_module (e : jv) (m : string) : bool := is_text (js m) (jv_get e (js "module")).
Definition of_type (e : jv) (ty : string) : bool := is_text (js ty) (jv_get e (js "type")).
Definition present (e : jv) (k : string) : bool := jv_truthy (jv_get e (js k)).

Definition setModuleChecks (e : jv) (v : View) : View :=
  if of_module e "video" then setVideoChecks (applyCheck e) v
  else if of_module e "cache" then setCacheChecks (applyCheck e) v
  else if negb (of_module e "stress") then setBasicChecks (applyCheck e) v
  else v.

Definition setSummary (e : jv) (v : View) : View :=
  let next := jv_get e (js "summary") in
  setSummaries (fun s =>
    if of_module e "cache" then MkSummaries (sum_basic s) next (sum_stress s)
    else if of_module e "stress" then MkSummaries (sum_basic s) (sum_cache s) next
    else MkSummaries next (sum_cache s) (sum_stress s)) v.

(** What is left to do after an event. *)
Inductive Outcome := Go | Failed (message : jv) | Done.

Definition with_video (e : jv) (v : View) : View :=
  if present e "video" then setVideoMetrics (merge_video (jv_get e (js "video"))) v else v.

(** The listener of messages, for a parsed event that is not null. *)
Definition on_event (e : jv) (v0 : View) : View * Outcome :=
  let v := with_video e v0 in
  let g k := jv_get e (js k) in
  if of_type e "error" then (v, Failed (jv_or (g "message"%string) (JStr (js "Failed to start test"))))
  else if (of_type e "check" && present e "check_id")%bool then (setModuleChecks e v, Go)
  else if (of_type e "stream" && present e "text")%bool then
    let add text := text ++ jv_to_string (g "text"%string) in
    (if of_module e "basic" then setBasicStreamText add v else if of_module e "stress" then setStreamText add v else v, Go)
  else if of_type e "progress" then
    let v := if present e "check_id" then setModuleChecks e v else v in
    (setProgress (jv_default (g "completed"%string) (JNum nzero), jv_default (g "total"%string) (JNum nzero)) v, Go)
  else
    let cached := (of_type e "metrics" && present e "cache")%bool in
    let v := if cached then setCacheMetrics (Some (g "cache"%string)) v else v in
    if (cached && negb (present e "metrics"))%bool then (v, Go)
    else if (of_type e "metrics" && present e "metrics")%bool then
      let total := jv_get (g "metrics"%string) (js "total") in
      (setProgress (jv_default (g "completed"%string) total, jv_default (g "total"%string) total) (setMetrics (Some (g "metrics"%string)) v), Go)
    else if (of_type e "summary" && present e "summary")%bool then (setSummary e v, Go)
    else if of_type e "done" then (v, Done)
    else (v, Go).

(** [errorMessageFromStream] *)
Definition message_in (text : jstr) : option (option jv) :=
  match json_parse text with
  | None | Some JNull => None
  | Some v => Some (if jv_truthy (jv_get v (js "message")) then Some (jv_get v (js "message")) else None)
  end.

Definition chunk_message (chunk : option jstr) : option jv :=
  let text := trim (nullish chunk []) in
  if negb (truthy text) then None
  else
    match message_in text with
    | Some m => m
    | None =>
        match List.find (starts_with (js "data:")) (split_unit 10 text) with
        | Some line => nullish (message_in (trim (drop 5 line))) None
        | None => None
        end
    end.

Definition errorMessageFromStream (data responseText : option jstr) (fallback : jv) : jv :=
  nullish (or_else (chunk_message data) (chunk_message responseText)) fallback.

(** * The machine

    A message that is the JSON [null] makes the listener throw: nothing changes. *)

Inductive Event :=
| Start (payload : SupplierTestRunRequest)
| HeadersReady (r : N)
| HeadersFailed (r : N) (message : jv)
| Message (r : N) (data : option jstr)
| Aborted (r : N)
| StreamError (r : N) (responseCode status : option N) (data responseText : option jstr)
| Stop
| Unmount
| QueryResult (result : jv).

(** The stream of run [r] is the one listened to. *)
Definition live (s : Run) (r : N) : bool := bool_decide (runId s = r) && bool_decide (sourceRef s = Some r).

Definition on_view (f : View -> View) (s : Run) : Run :=
  MkRun (runId s) (sourceRef s) (f (view s)) (pending s) (completed s) (opened s) (closed s).

(** [sourceRef.current?.close(); sourceRef.current = null] *)
Definition close_source (s : Run) : Run :=
  MkRun (runId s) None (view s) (pending s) (completed s) (opened s) (match sourceRef s with Some r => r :: closed s | None => closed s end).

Definition next_run (s : Run) : Run := MkRun (runId s + 1) (sourceRef s) (view s) (pending s) (completed s) (opened s) (closed s).

(** [finish] and [handleError] of the stream that is live. *)
Definition finish (s : Run) : Run := close_source (on_view (setRunningModule None) s).
Definition handleError (m : jv) (s : Run) : Run := on_view (toast_error m) (finish (on_view (setErrorMessage m) s)).

Definition set_completed (r : N) (s : Run) : Run :=
  MkRun (runId s) (sourceRef s) (view s) (pending s) (r :: completed s) (opened s) (closed s).

Definition no_text : jv := JStr [].

(** The state a module starts from. *)
Definition start_view (payload : SupplierTestRunRequest) (v0 : View) : View :=
  let m := head (rq_modules payload) in
  let v := setProgress zero_zero (setErrorMessage no_text (setRunningModule m v0)) in
  match m with
  | Some basic =>
      setSummaries (fun s => MkSummaries no_text (sum_cache s) (sum_stress s))
        (setBasicStreamText (fun _ => []) (setBasicChecks (fun c => resetChecks c (Some (bq_checks (rq_basic payload)))) v))
  | Some cache =>
      setSummaries (fun s => MkSummaries (sum_basic s) no_text (sum_stress s))
        (setCacheMetrics None (setCacheChecks (fun _ => CACHE_CHECKS) v))
  | Some stress =>
      setSummaries (fun s => MkSummaries (sum_basic s) (sum_cache s) no_text) (setMetrics None (setStreamText (fun _ => []) v))
  | Some video =>
      let ids := vq_checks (rq_video payload) in
      let v := setVideoChecks (fun c => resetChecks c ids) v in
      if match ids with None => true | Some l => bool_decide (js "video_submit" ∈ l) end then setVideoMetrics (fun _ => None) v else v
  | None => v
  end.

Definition start (payload : SupplierTestRunRequest) (s0 : Run) : Run :=
  let s := close_source (next_run s0) in
  MkRun (runId s) (sourceRef s) (start_view payload (view s)) (runId s :: pending s) (completed s) (opened s) (closed s).

(** The headers of a run arrive, or their request fails. *)
Definition settle (r : N) (s : Run) : Run :=
  MkRun (runId s) (sourceRef s) (view s) (List.filter (fun q => negb (q =? r)%N) (pending s)) (completed s) (opened s) (closed s).

Definition open_source (r : N) (s : Run) : Run :=
  MkRun (runId s) (Some r) (view s) (pending s) (completed s) (r :: opened s) (closed s).

Definition on_headers (r : N) (k : Run -> Run) (s0 : Run) : Run :=
  if bool_decide (r ∈ pending s0) then let s := settle r s0 in if (runId s =? r)%N then k s else s else s0.

Definition on_message (r : N) (data : option jstr) (s : Run) : Run :=
  if negb (live s r) then s
  else
    let data := nullish data [] in
    if trim data =s js "[DONE]" then finish (set_completed r s)
    else
      match json_parse data with
      | None => handleError (JStr (js "Failed to parse stream")) s
      | Some JNull => s
      | Some e =>
          let '(v, outcome) := on_event e (view s) in
          let s := on_view (fun _ => v) s in
          match outcome with
          | Go => s
          | Failed m => handleError m s
          | Done => on_view (setRunningModule None) (set_completed r s)
          end
      end.

Definition ended : jv := JStr (js "Test stream ended unexpectedly").

Definition is_completed (r : N) (s : Run) : bool := bool_decide (r ∈ completed s).

Definition on_abort (r : N) (s : Run) : Run :=
  if negb (live s r) then s else if is_completed r s then finish s else handleError ended s.

Definition on_error (r : N) (responseCode status : option N) (data responseText : option jstr) (s : Run) : Run :=
  if negb (live s r) then s
  else if is_completed r s then finish s
  else
    let code := nullish responseCode (nullish status 0%N) in
    if in_range 200 299 code then handleError ended s
    else handleError (errorMessageFromStream data responseText (JStr (js "Failed to start test"))) s.

(** ** The answer to a manual query *)

Definition query_metrics (result : jv) (prev : option jv) : option jv :=
  let p := nullish prev JUndef in
  let or3 k := jv_or (jv_get result (js k)) (jv_or (jv_get p (js k)) no_text) in
  let or2 k k' := jv_or (jv_get result (js k)) (jv_get p (js k')) in
  Some (JObj
    (obj_set (js "raw_poll_response_json") (or2 "raw_response"%string "raw_poll_response_json"%string)
    (obj_set (js "fail_reason") (or2 "fail_reason"%string "fail_reason"%string)
    (obj_set (js "video_url") (or2 "video_url"%string "video_url"%string)
    (obj_set (js "elapsed_ms") (jv_default (jv_get p (js "elapsed_ms")) (JNum nzero))
    (obj_set (js "status") (or3 "status"%string)
    (obj_set (js "task_id") (or3 "task_id"%string) (spread [] p)))))))).

Definition is_success (status : jstr) : bool := lower_is (js "succeeded") status || lower_is (js "success") status.
Definition is_failed (status : jstr) : bool :=
  existsb (fun w => lower_is (js w) status) ["failed"; "failure"; "cancelled"; "expired"]%string.

Definition set_check (c : CheckResult) (status : string) (message args : jv) : CheckResult :=
  MkCheck (c_id c) (c_title c) (JStr (js status)) message args (c_hintKey c).

Definition fail_reason (result : jv) : jv := jv_or (jv_get result (js "fail_reason")) (JStr (js "Task failed")).

Definition query_check (result : jv) (status : jstr) (c : CheckResult) : CheckResult :=
  let url := jv_truthy (jv_get result (js "video_url")) in
  if c_id c =s js "video_poll" then
    if is_success status then set_check c "pass" (JStr (js "Manual query: task completed")) JUndef
    else if is_failed status then set_check c "fail" (fail_reason result) JUndef
    else set_check c "running" (JStr (js "Current status: {{status}}")) (JObj [(js "status", JStr status)])
  else if c_id c =s js "video_result" then
    if is_success status then
      set_check c (if url then "pass" else "fail")
        (JStr (if url then js "Successfully fetched video playback URL" else js "Task succeeded but no video URL returned")) JUndef
    else if is_failed status then set_check c "fail" (fail_reason result) JUndef
    else c
  else c.

Definition updateVideoMetricsWithQueryResult (result : jv) (v : View) : View :=
  let v := setVideoMetrics (query_metrics result) v in
  match jv_get result (js "status") with
  | JStr status => if truthy status then setVideoChecks (List.map (query_check result status)) v else v
  | _ => v
  end.

Definition handle (e : Event) (s : Run) : Run :=
  match e with
  | Start payload => start payload s
  | HeadersReady r => on_headers r (open_source r) s
  | HeadersFailed r m => on_headers r (on_view (fun v => toast_error m (setRunningModule None v))) s
  | Message r data => on_message r data s
  | Aborted r => on_abort r s
  | StreamError r code status data text => on_error r code status data text s
  | Stop => on_view (setRunningModule None) (close_source (next_run s))
  | Unmount => close_source (next_run s)
  | QueryResult result => on_view (updateVideoMetricsWithQueryResult result) s
  end.

Definition run (es : list Event) (s : Run) : Run := fold_left (fun s e => handle e s) es s.

(** * Proofs: the streams *)

(** What is true of the streams after any events: one at most is listened to, of
    the newest run; every other that was opened is closed, once. *)
Record streams_ok (s : Run) : Prop := {
  so_live : forall r, sourceRef s = Some r -> r = runId s /\ r ∈ opened s /\ r ∉ closed s;
  so_opened : forall r, r ∈ opened s -> sourceRef s = Some r \/ r ∈ closed s;
  so_once : NoDup (closed s);
  so_closed : forall r, r ∈ closed s -> r ∈ opened s;
  so_old : forall r, r ∈ opened s \/ r ∈ pending s -> (r <= runId s)%N;
  so_pending : forall r, r ∈ pending s -> r ∉ opened s
}.

(** A page that says it is running waits for headers or listens to a stream. *)
Definition busy_ok (s : Run) : Prop := runningModule (view s) <> None -> runId s ∈ pending s \/ sourceRef s = Some (runId s).

Lemma init_ok : streams_ok init.
Proof. split; cbn; intros; try done; try constructor; try (by destruct H as [H%elem_of_nil|H%elem_of_nil]); by apply elem_of_nil in H. Qed.

Lemma close_ok s : streams_ok s -> streams_ok (close_source s).
Proof.
  intros [Hl Ho Hn Hc Hold Hp]. unfold close_source. destruct (sourceRef s) as [r|] eqn:E; [|by split].
  destruct (Hl r eq_refl) as (_ & Hro & Hrc). split; cbn; try done.
  - intros q Hq. right. destruct (Ho q Hq) as [[= <-]|H]; by constructor.
  - by constructor.
  - intros q [->|H]%elem_of_cons; auto.
Qed.

Lemma next_closed_ok s : streams_ok s -> streams_ok (close_source (next_run s)).
Proof.
  intros H%close_ok. destruct H as [Hl Ho Hn Hc Hold Hp]. split; cbn in *; try done.
  intros r Hr. specialize (Hold r Hr). lia.
Qed.

Lemma view_ok f s : streams_ok s -> streams_ok (on_view f s).
Proof. by intros [? ? ? ? ? ?]; split. Qed.

Lemma set_completed_ok r s : streams_ok s -> streams_ok (set_completed r s).
Proof. by intros [? ? ? ? ? ?]; split. Qed.

Lemma finish_ok s : streams_ok s -> streams_ok (finish s).
Proof. intros H. by apply close_ok, view_ok. Qed.

Lemma handleError_ok m s : streams_ok s -> streams_ok (handleError m s).
Proof. intros H. by apply view_ok, finish_ok, view_ok. Qed.

Lemma start_ok p s : streams_ok s -> streams_ok (start p s).
Proof.
  intros H. pose proof (so_old s H) as Hlt. apply next_closed_ok in H. destruct H as [Hl Ho Hn Hc Hold Hp]. split; cbn in *; try done.
  - intros r [Hr|[->|Hr]%elem_of_cons]; [apply Hold; by left|lia|apply Hold; by right].
  - intros r [->|Hr]%elem_of_cons; [|by apply Hp]. intros Hr. specialize (Hlt (runId s + 1)%N (or_introl Hr)). lia.
Qed.

Lemma settle_ok r s : streams_ok s -> streams_ok (settle r s) /\ (forall q, q ∈ pending (settle r s) -> q ∈ pending s /\ q <> r).
Proof.
  assert (Hf : forall q, q ∈ pending (settle r s) -> q ∈ pending s /\ q <> r).
  { intros q Hq. cbn in Hq. apply list_elem_of_In, List.filter_In in Hq as [Hq Hr]. split; [by apply list_elem_of_In|].
    intros ->. by rewrite N.eqb_refl in Hr. }
  intros [Hl Ho Hn Hc Hold Hp]. split; [|done]. split; try done.
  - intros q [Hq|Hq]; apply Hold; [by left|right]. by apply Hf.
  - intros q Hq. apply Hp. by apply Hf.
Qed.

Lemma headers_ok r k s : streams_ok s ->
  (forall t, streams_ok t -> r ∈ pending s -> r ∉ pending t -> runId t = r -> sourceRef t = sourceRef s -> opened t = opened s -> closed t = closed s -> streams_ok (k t)) ->
  streams_ok (on_headers r k s).
Proof.
  intros H Hk. unfold on_headers. case_bool_decide as Hr; [|done]. destruct (settle_ok r s H) as [Hs Hf].
  destruct (N.eqb_spec (runId s) r) as [E|E]; cbn in *; rewrite ?E, ?N.eqb_refl; [|by destruct (N.eqb_spec (runId s) r)].
  apply Hk; try done. intros Hin. by apply Hf in Hin as [_ ?].
Qed.

Lemma open_ok r s t : streams_ok s -> streams_ok t -> r ∈ pending s -> r ∉ pending t -> runId t = r ->
  sourceRef t = sourceRef s -> opened t = opened s -> closed t = closed s -> streams_ok (open_source r t).
Proof.
  intros Hs [Hl Ho Hn Hc Hold Hp] Hr Hrt Hid Esrc Eo Ec.
  assert (Hno : r ∉ opened t) by (rewrite Eo; by apply (so_pending s Hs)).
  assert (Hnone : sourceRef t = None).
  { destruct (sourceRef t) as [q|] eqn:E; [|done]. destruct (Hl q eq_refl) as (-> & Hq & _). by rewrite Hid in Hq. }
  split; cbn; try done.
  - intros q [= <-]. split; [done|]. split; [by left|]. intros Hin. by apply Hno, Hc.
  - intros q [->|Hq]%elem_of_cons; [by left|right]. destruct (Ho q Hq) as [E|E]; [by rewrite Hnone in E|done].
  - intros q Hq. right. by apply Hc.
  - intros q [[->|Hq]%elem_of_cons|Hq]; [lia|apply Hold; by left|apply Hold; by right].
  - intros q Hq [->|Hin]%elem_of_cons; [done|]. by apply (Hp q Hq).
Qed.

Lemma message_ok r data s : streams_ok s -> streams_ok (on_message r data s).
Proof.
  intros H. unfold on_message. destruct (live s r); cbn [negb]; [|done]. cbv zeta.
  destruct (_ =s _); [by apply finish_ok, set_completed_ok|].
  destruct (json_parse _) as [[]|]; try by apply handleError_ok.
  all: try done.
  all: destruct (on_event _ _) as [v []]; first [by apply view_ok|by apply handleError_ok, view_ok|by apply view_ok, set_completed_ok, view_ok].
Qed.

Lemma handle_ok e s : streams_ok s -> streams_ok (handle e s).
Proof.
  intros H. destruct e; cbn [handle].
  - by apply start_ok.
  - apply headers_ok; [done|]. intros t Ht. by apply open_ok.
  - apply headers_ok; [done|]. intros t Ht _ _ _ _ _ _. by apply view_ok.
  - by apply message_ok.
  - unfold on_abort. destruct (live s r); cbn [negb]; [|done]. destruct (is_completed r s); [by apply finish_ok|by apply handleError_ok].
  - unfold on_error. destruct (live s r); cbn [negb]; [|done]. destruct (is_completed r s); [by apply finish_ok|]. cbv zeta.
    destruct (in_range _ _ _); by apply handleError_ok.
  - by apply view_ok, next_closed_ok.
  - by apply next_closed_ok.
  - by apply view_ok.
Qed.

Lemma run_ok es s : streams_ok s -> streams_ok (run es s).
Proof. revert s. induction es as [|e es IH]; intros s H; [done|]. by apply IH, handle_ok. Qed.

(** ** Busy *)

Lemma set_checks_running e v : runningModule (setModuleChecks e v) = runningModule v.
Proof. unfold setModuleChecks. by repeat case_match. Qed.

Lemma on_event_running e v : runningModule (on_event e v).1 = runningModule v.
Proof.
  assert (Hv : runningModule (with_video e v) = runningModule v) by (unfold with_video; by case_match).
  unfold on_event. cbv zeta. repeat (case_match; cbn [fst runningModule setProgress setMetrics setSummary setSummaries setStreamText setBasicStreamText setCacheMetrics]);
    rewrite ?set_checks_running; done.
Qed.

Lemma live_spec s r : live s r = true <-> runId s = r /\ sourceRef s = Some r.
Proof. unfold live. rewrite andb_true_iff, !bool_decide_eq_true. done. Qed.

Lemma idle_busy s : runningModule (view s) = None -> busy_ok s.
Proof. by intros H ?. Qed.

Lemma handle_busy e s : streams_ok s -> e <> Unmount -> busy_ok s -> busy_ok (handle e s).
Proof.
  intros Hs He Hb. destruct e; cbn [handle]; try done.
  - intros _. left. by left.
  - unfold on_headers. case_bool_decide; [|done]. cbv zeta. destruct (N.eqb_spec (runId (settle r s)) r) as [E|E]; [intros _; right; cbn in *; by rewrite E|].
    intros Hr. cbn in *. destruct (Hb Hr) as [Hp|Hp]; [left|by right]. apply list_elem_of_In, List.filter_In. split; [by apply list_elem_of_In|].
    by destruct (N.eqb_spec (runId s) r).
  - unfold on_headers. case_bool_decide; [|done]. cbv zeta. destruct (N.eqb_spec (runId (settle r s)) r) as [E|E]; [by apply idle_busy|].
    intros Hr. cbn in *. destruct (Hb Hr) as [Hp|Hp]; [left|by right]. apply list_elem_of_In, List.filter_In. split; [by apply list_elem_of_In|].
    by destruct (N.eqb_spec (runId s) r).
  - unfold on_message. destruct (live s r) eqn:El; cbn [negb]; [|done]. apply live_spec in El as [E1 E2]. cbv zeta.
    destruct (_ =s _); [by apply idle_busy|]. destruct (json_parse _) as [[]|]; try done; try by apply idle_busy.
    all: destruct (on_event _ _) as [v []]; first [by apply idle_busy|intros _; right; cbn; by rewrite E1, E2].
  - unfold on_abort. destruct (live s r); cbn [negb]; [|done]. by destruct (is_completed r s); apply idle_busy.
  - unfold on_error. destruct (live s r); cbn [negb]; [|done]. destruct (is_completed r s); [by apply idle_busy|]. cbv zeta.
    destruct (in_range _ _ _); by apply idle_busy.
  - by apply idle_busy.
  - intros Hr. apply Hb. intros E. apply Hr. cbn. unfold updateVideoMetricsWithQueryResult. by repeat case_match.
Qed.

Lemma run_busy es s : streams_ok s -> Unmount ∉ es -> busy_ok s -> busy_ok (run es s).
Proof.
  revert s. induction es as [|e es IH]; intros s Hs He Hb; [done|]. apply not_elem_of_cons in He as [He Hes].
  apply IH; [by apply handle_ok|done|]. by apply handle_busy.
Qed.

(** ** Superseded runs *)

(** The run an event is about. *)
Definition about (r : N) (e : Event) : bool :=
  match e with
  | HeadersReady q | HeadersFailed q _ | Message q _ | Aborted q | StreamError q _ _ _ _ => (q =? r)%N
  | Start _ | Stop | Unmount | QueryResult _ => false
  end.

(** States that differ in what is remembered of the run [r] alone. *)
Record alike (r : N) (s t : Run) : Prop := {
  al_id : runId s = runId t; al_source : sourceRef s = sourceRef t; al_view : view s = view t;
  al_pending : forall q, q <> r -> q ∈ pending s <-> q ∈ pending t;
  al_completed : forall q, q <> r -> q ∈ completed s <-> q ∈ completed t
}.

#[export] Instance alike_equiv r : Equivalence (alike r).
Proof.
  split.
  - intros s. by split.
  - intros s t [? ? ? Hp Hc]. split; try done; intros q Hq; symmetry; auto.
  - intros s t u [? ? ? Hp Hc] [? ? ? Hp' Hc']. split; try congruence; intros q Hq; [by rewrite Hp, Hp'|by rewrite Hc, Hc'].
Qed.

#[export] Instance on_view_alike r f : Proper (alike r ==> alike r) (on_view f).
Proof. intros s t [? ? Hv ? ?]. split; cbn; try done. by rewrite Hv. Qed.

#[export] Instance close_alike r : Proper (alike r ==> alike r) close_source.
Proof. intros s t [? Hs ? ? ?]. by split. Qed.

#[export] Instance next_alike r : Proper (alike r ==> alike r) next_run.
Proof. intros s t [Hi ? ? ? ?]. split; cbn; try done. by rewrite Hi. Qed.

#[export] Instance finish_alike r : Proper (alike r ==> alike r) finish.
Proof. intros s t H. unfold finish. by rewrite H. Qed.

#[export] Instance error_alike r m : Proper (alike r ==> alike r) (handleError m).
Proof. intros s t H. unfold handleError. by rewrite H. Qed.

#[export] Instance completed_alike r q : Proper (alike r ==> alike r) (set_completed q).
Proof. intros s t [? ? ? ? Hc]. split; cbn; try done. intros x Hx. rewrite !elem_of_cons, (Hc x Hx). done. Qed.

#[export] Instance open_alike r q : Proper (alike r ==> alike r) (open_source q).
Proof. by intros s t [? ? ? ? ?]; split. Qed.

Lemma pending_settle q x s : x ∈ pending (settle q s) <-> x ∈ pending s /\ x <> q.
Proof.
  cbn. rewrite !list_elem_of_In, List.filter_In. split.
  - intros [H Hn]. split; [done|]. intros ->. by rewrite N.eqb_refl in Hn.
  - intros [H Hn]. split; [done|]. by destruct (N.eqb_spec x q).
Qed.

#[export] Instance settle_alike r q : Proper (alike r ==> alike r) (settle q).
Proof. intros s t [? ? ? Hp ?]. split; try done. intros x Hx. rewrite !pending_settle, (Hp x Hx). done. Qed.

Lemma live_alike r s t q : alike r s t -> live s q = live t q.
Proof. intros [Hi Hs _ _ _]. unfold live. by rewrite Hi, Hs. Qed.

(** An event of a superseded run leaves everything else as it is. *)
Lemma about_silent r e s : (r < runId s)%N -> about r e = true -> alike r (handle e s) s.
Proof.
  intros Hr Ha. assert (Hlive : live s r = false).
  { apply not_true_is_false. intros [E _]%live_spec. lia. }
  assert (Hh : forall k, alike r (on_headers r k s) s).
  { intros k. unfold on_headers. case_bool_decide; [|done]. cbv zeta. cbn. destruct (N.eqb_spec (runId s) r) as [E|E]; [lia|].
    split; try done. intros q Hq. rewrite pending_settle. tauto. }
  destruct e; cbn [about] in Ha; try done; apply N.eqb_eq in Ha as ->; cbn [handle]; try apply Hh.
  - unfold on_message. by rewrite Hlive.
  - unfold on_abort. by rewrite Hlive.
  - unfold on_error. by rewrite Hlive.
Qed.

Lemma headers_alike r q k s t : q <> r -> Proper (alike r ==> alike r) k -> alike r s t -> alike r (on_headers q k s) (on_headers q k t).
Proof.
  intros Hq Hk H. unfold on_headers.
  rewrite (bool_decide_ext (q ∈ pending s) (q ∈ pending t)) by (by apply (al_pending r s t H)).
  case_bool_decide; [|done]. cbv zeta. assert (Hs : alike r (settle q s) (settle q t)) by (by rewrite H).
  rewrite (al_id r _ _ Hs). destruct (_ =? _)%N; [by apply Hk|done].
Qed.

Lemma completed_at r q s t : q <> r -> alike r s t -> is_completed q s = is_completed q t.
Proof. intros Hq H. unfold is_completed. apply bool_decide_ext. by apply (al_completed r s t H). Qed.

Lemma handle_alike r e s t : about r e = false -> alike r s t -> alike r (handle e s) (handle e t).
Proof.
  intros Ha H. destruct e; cbn [about handle] in *; try (apply N.eqb_neq in Ha).
  - unfold start. assert (Hc : alike r (close_source (next_run s)) (close_source (next_run t))) by (by rewrite H).
    destruct Hc as [Hi Hs Hv Hp Hc]. split; cbn [runId sourceRef view pending completed]; [done|done|by rewrite Hv| |exact Hc].
    intros q Hq. rewrite !elem_of_cons, (Hp q Hq), Hi. done.
  - by apply headers_alike; [|apply _|].
  - by apply headers_alike; [|apply _|].
  - unfold on_message. rewrite (live_alike r s t _ H). destruct (live t r0); cbn [negb]; [|done]. cbv zeta.
    destruct (_ =s _); [by rewrite H|]. rewrite (al_view r s t H). destruct (json_parse _) as [[]|]; try by rewrite H.
    all: destruct (on_event _ _) as [v []]; by rewrite H.
  - unfold on_abort. rewrite (live_alike r s t _ H), (completed_at r r0 s t) by done. destruct (live t r0); cbn [negb]; [|done].
    destruct (is_completed r0 t); by rewrite H.
  - unfold on_error. rewrite (live_alike r s t _ H), (completed_at r r0 s t) by done. destruct (live t r0); cbn [negb]; [|done].
    destruct (is_completed r0 t); [by rewrite H|]. cbv zeta. destruct (in_range _ _ _); by rewrite H.
  - by rewrite H.
  - by rewrite H.
  - by rewrite H.
Qed.

Lemma handle_run_id e s : (runId s <= runId (handle e s))%N.
Proof.
  assert (Hh : forall q k, (forall t, runId (k t) = runId t) -> runId (on_headers q k s) = runId s).
  { intros q k Hk. unfold on_headers. case_bool_decide; [|done]. cbv zeta. destruct (_ =? _)%N; [by rewrite Hk|done]. }
  destruct e; cbn [handle]; try (rewrite Hh by done); try (cbn; lia).
  - unfold on_message. cbv zeta. repeat case_match; cbn; lia.
  - unfold on_abort. repeat case_match; cbn; lia.
  - unfold on_error. cbv zeta. repeat case_match; cbn; lia.
Qed.

Lemma superseded_alike r es s t : (r < runId s)%N -> alike r s t ->
  alike r (run es s) (run (List.filter (fun e => negb (about r e)) es) t).
Proof.
  revert s t. induction es as [|e es IH]; intros s t Hr H; [done|]. cbn [run fold_left List.filter].
  fold (run es (handle e s)). pose proof (handle_run_id e s). destruct (about r e) eqn:Ea; cbn [negb].
  - apply IH; [lia|]. by rewrite (about_silent r e s Hr Ea).
  - apply IH; [lia|]. by apply handle_alike.
Qed.

(** ** Names of checks *)

Definition ids (v : View) : list jstr * list jstr * list jstr :=
  (List.map c_id (basicChecks v), List.map c_id (cacheChecks v), List.map c_id (videoChecks v)).

Lemma map_same {A B} (f : A -> B) (g : A -> A) l : (forall x, f (g x) = f x) -> List.map f (List.map g l) = List.map f l.
Proof. intros H. rewrite List.map_map. by apply List.map_ext. Qed.

Lemma applyCheck_ids e l : List.map c_id (applyCheck e l) = List.map c_id l.
Proof. apply map_same. intros c. by case_match. Qed.

Lemma resetChecks_ids l ids : List.map c_id (resetChecks l ids) = List.map c_id l.
Proof. unfold resetChecks. case_match; apply map_same; [|done]. intros c. by case_match. Qed.

Lemma query_ids r st l : List.map c_id (List.map (query_check r st) l) = List.map c_id l.
Proof. apply map_same. intros c. unfold query_check, set_check. by repeat case_match. Qed.

Ltac view_cbn :=
  cbn [fst basicChecks cacheChecks videoChecks setProgress setMetrics setSummary setSummaries setStreamText setBasicStreamText setCacheMetrics
       setBasicChecks setCacheChecks setVideoChecks setVideoMetrics setRunningModule setErrorMessage].

Definition same_ids (v w : View) : Prop := ids v = ids w.

Lemma checks_ids e v : same_ids (setModuleChecks e v) v.
Proof. unfold same_ids, setModuleChecks, ids. repeat case_match; cbn; by rewrite ?applyCheck_ids. Qed.

Lemma on_event_ids e v : same_ids (on_event e v).1 v.
Proof.
  assert (Hv : same_ids (with_video e v) v) by (unfold with_video; by case_match).
  unfold same_ids in *. rewrite <-Hv. unfold on_event. cbv zeta. generalize (with_video e v). clear Hv v. intros v.
  pose proof (checks_ids e v) as Hc. unfold same_ids, ids in *. repeat (case_match; view_cbn); try done; try exact Hc.
Qed.

Lemma start_ids p v : List.map c_id (cacheChecks v) = List.map c_id CACHE_CHECKS -> same_ids (start_view p v) v.
Proof.
  intros Hc. unfold same_ids, start_view, ids. repeat case_match; view_cbn; rewrite ?resetChecks_ids, ?Hc; done.
Qed.

Lemma query_view_ids r v : same_ids (updateVideoMetricsWithQueryResult r v) v.
Proof. unfold same_ids, updateVideoMetricsWithQueryResult, ids. repeat case_match; cbn; by rewrite ?query_ids. Qed.

Lemma handle_ids e s : ids (view s) = ids (view init) -> ids (view (handle e s)) = ids (view init).
Proof.
  intros H. assert (Hc : List.map c_id (cacheChecks (view s)) = List.map c_id CACHE_CHECKS) by exact (f_equal (fun x => x.1.2) H).
  rewrite <-H. destruct e; cbn [handle].
  - cbn. by apply start_ids.
  - unfold on_headers. by repeat (case_match; cbv zeta).
  - unfold on_headers. by repeat (case_match; cbv zeta).
  - unfold on_message. destruct (live s r); cbn [negb]; [|done]. cbv zeta. destruct (_ =s _); [done|].
    destruct (json_parse _) as [w|]; [|done]. pose proof (on_event_ids w (view s)) as He.
    destruct w; try done; destruct (on_event _ _) as [v []]; exact He.
  - unfold on_abort. by repeat case_match.
  - unfold on_error. cbv zeta. by repeat case_match.
  - done.
  - done.
  - apply query_view_ids.
Qed.

(** ** Streamed text *)

Definition stream_event (m t : jstr) : jv := JObj [(js "type", JStr (js "stream")); (js "module", JStr m); (js "text", JStr t)].
Definition stream_message (r : N) (m t : jstr) : Event := Message r (Some (json_stringify (stream_event m t))).

Lemma stream_plain m t : units_ok m -> units_ok t -> plain (stream_event m t).
Proof.
  intros Hm Ht. cbn [stream_event plain]. split_and!; try done; try (by apply (bool_decide_unpack _); vm_compute); try units_done.
  all: repeat (apply Forall_cons; split; [split; [units_done|by vm_compute]|]); try by apply Forall_nil.
Qed.

Lemma stream_step r t s :
  live s r = true -> units_ok t ->
  handle (stream_message r (js "basic") t) s = on_view (setBasicStreamText (fun x => x ++ t)) s.
Proof.
  intros Hl Ht. cbn [handle stream_message]. unfold on_message. rewrite Hl. cbn [negb nullish]. cbv zeta.
  pose proof (json_parse_compact _ (stream_plain (js "basic") t ltac:(units_done) Ht)) as Hp.
  assert (Hn : trim (json_stringify (stream_event (js "basic") t)) =s js "[DONE]" = false).
  { unfold json_stringify. rewrite trim_id by apply stringify_trimmed. reflexivity. }
  rewrite Hn, Hp. unfold on_event, with_video.
  change (present (stream_event (js "basic") t) "video") with false.
  change (of_type (stream_event (js "basic") t) "error") with false. change (of_type (stream_event (js "basic") t) "check") with false.
  change (of_type (stream_event (js "basic") t) "stream") with true. change (of_module (stream_event (js "basic") t) "basic") with true.
  change (of_type (stream_event (js "basic") t) "progress") with false. change (of_type (stream_event (js "basic") t) "metrics") with false.
  change (of_type (stream_event (js "basic") t) "summary") with false. change (of_type (stream_event (js "basic") t) "done") with false.
  change (jv_get (stream_event (js "basic") t) (js "text")) with (JStr t). change (present (stream_event (js "basic") t) "text") with (truthy t).
  cbv zeta. cbn [andb jv_to_string]. destruct t as [|c t]; [|done]. cbn. unfold on_view, setBasicStreamText. cbn. rewrite app_nil_r. by destruct (view s).
Qed.

Lemma stream_steps r ts s : live s r = true -> Forall units_ok ts ->
  run (List.map (stream_message r (js "basic")) ts) s = on_view (setBasicStreamText (fun x => x ++ concat ts)) s.
Proof.
  revert s. induction ts as [|t ts IH]; intros s Hl Ht.
  - cbn. unfold on_view, setBasicStreamText. rewrite app_nil_r. by destruct s as [? ? []].
  - apply Forall_cons in Ht as [Ht Hts]. cbn [List.map run fold_left]. rewrite (stream_step r t s Hl Ht).
    fold (run (List.map (stream_message r (js "basic")) ts) (on_view (setBasicStreamText (fun x => x ++ t)) s)).
    rewrite IH by done. unfold on_view, setBasicStreamText. cbn. by rewrite <-app_assoc.
Qed.

(** * Theorems *)

(** C31: after any events at most one stream is listened to, the one of the newest
    run; every other stream that was opened has been closed, exactly once; and a
    page that is not unmounted and says it is running waits for headers or
    listens to a stream. *)
Theorem one_stream (es : list Event) :
  let s := run es init in
  (forall r, sourceRef s = Some r -> r = runId s /\ r ∈ opened s /\ r ∉ closed s) /\
  (forall r, r ∈ opened s -> sourceRef s = Some r \/ r ∈ closed s) /\ NoDup (closed s) /\
  (Unmount ∉ es -> runningModule (view s) <> None -> runId s ∈ pending s \/ sourceRef s = Some (runId s)).
Proof.
  cbv zeta. destruct (run_ok es init init_ok) as [Hl Ho Hn _ _ _]. split; [exact Hl|]. split; [exact Ho|]. split; [exact Hn|].
  intros He. exact (run_busy es init init_ok He (idle_busy init eq_refl)).
Qed.

(** C13: a run that was stopped or superseded shows nothing more: whatever its
    stream and its request for headers still deliver, and however that is
    interleaved with the newer run, the page is what it is without them. *)
Theorem superseded_run_silent (s : Run) (r : N) (es : list Event) :
  (r < runId s)%N -> view (run es s) = view (run (List.filter (fun e => negb (about r e)) es) s).
Proof. intros Hr. by apply (al_view r), superseded_alike. Qed.

(** The events that end the stream of a run. *)
Definition ends (r : N) (e : Event) : bool :=
  match e with
  | Message q data => (q =? r)%N && (trim (nullish data []) =s js "[DONE]")
  | Aborted q | StreamError q _ _ _ _ => (q =? r)%N
  | Stop | Unmount => true
  | _ => false
  end.

(** Every way in which a stream ends leaves the page not running and the
    stream closed; an end the server has not announced is reported as an error,
    and one it has announced is not. *)
Theorem run_ends (s : Run) (r : N) (e : Event) :
  live s r = true -> ends r e = true ->
  sourceRef (handle e s) = None /\ r ∈ closed (handle e s) /\
  (e <> Unmount -> runningModule (view (handle e s)) = None) /\
  (e = Aborted r -> errorMessage (view (handle e s)) = if is_completed r s then errorMessage (view s) else ended).
Proof.
  intros Hl He. pose proof Hl as [E1 E2]%live_spec.
  assert (Hc : forall t, sourceRef t = Some r -> sourceRef (close_source t) = None /\ r ∈ closed (close_source t)).
  { intros t Ht. unfold close_source. cbn. rewrite Ht. split; [done|by left]. }
  destruct e; cbn [ends handle] in *; try done.
  - apply andb_true_iff in He as [->%N.eqb_eq Hd]. unfold on_message. rewrite Hl. cbn [negb]. cbv zeta. rewrite Hd.
    destruct (Hc (on_view (setRunningModule None) (set_completed r s))) as [H1 H2]; [done|]. by split_and!.
  - apply N.eqb_eq in He as ->. unfold on_abort. rewrite Hl. cbn [negb].
    destruct (is_completed r s); (split; [done|]; split; [by cbn; rewrite E2; left|done]).
  - apply N.eqb_eq in He as ->. unfold on_error. rewrite Hl. cbn [negb]. cbv zeta.
    destruct (is_completed r s); [|destruct (in_range _ _ _)]; (split; [done|]; split; [by cbn; rewrite E2; left|done]).
  - split; [done|]. split; [by cbn; rewrite E2; left|done].
  - split; [done|]. split; [by cbn; rewrite E2; left|done].
Qed.

(** What the stream of a basic test sends is shown as it came, from the beginning. *)
Theorem streamed_text (es : list Event) (p : SupplierTestRunRequest) (ts : list jstr) :
  let r := (runId (run es init) + 1)%N in
  head (rq_modules p) = Some basic -> Forall units_ok ts ->
  basicStreamText (view (run (es ++ [Start p; HeadersReady r] ++ List.map (stream_message r (js "basic")) ts) init)) = concat ts.
Proof.
  intros r Hm Ht. unfold run. rewrite fold_left_app. fold (run es init). rewrite fold_left_app.
  set (s := fold_left _ [Start p; HeadersReady r] _). fold (run (List.map (stream_message r (js "basic")) ts) s).
  assert (Hs : s = open_source r (settle r (start p (run es init)))).
  { unfold s. cbn [fold_left handle]. unfold on_headers. rewrite bool_decide_true by (cbn; by left). cbv zeta. cbn [runId settle start close_source next_run].
    fold r. by rewrite N.eqb_refl. }
  clearbody s. subst s. rewrite stream_steps; [|apply live_spec; split; done|done]. cbn. unfold start_view. rewrite Hm. done.
Qed.

(** The tables of checks keep their rows, in their order. *)
Theorem checks_kept (es : list Event) : ids (view (run es init)) = ids (view init).
Proof.
  assert (H : forall s, ids (view s) = ids (view init) -> ids (view (run es s)) = ids (view init)); [|by apply H].
  induction es as [|e es IH]; intros s Hs; [done|]. by apply IH, handle_ids.
Qed.

(** * Concrete runs *)

Definition basic_request (ids : list jstr) : SupplierTestRunRequest :=
  match startModule [] [] (sample_page DEFAULT_VIDEO_FORM None) basic (Some ids) with
  | inr r => r
  | inl _ => MkRunRequest [] [] [] generic [] (MkBasicReq [] nzero true None None []) (MkCacheReq [] [] nzero nzero nzero true static)
      (MkStressReq nzero nzero nzero [] false true) (MkVideoReq None None None [] [])
  end.

Definition first_run : list Event := [Start (basic_request []); HeadersReady 1].

Lemma superseded_run_silent_witness :
  let s := run (first_run ++ [Start (basic_request [js "usage"])]) init in
  let es := [stream_message 1 (js "basic") (js "old"); HeadersReady 2; stream_message 2 (js "basic") (js "new"); Aborted 1] in
  view (run es s) = view (run [HeadersReady 2; stream_message 2 (js "basic") (js "new")] s) /\ basicStreamText (view (run es s)) = js "new".
Proof.
  cbv zeta. split; [|vm_compute; reflexivity].
  apply (superseded_run_silent (run (first_run ++ [Start (basic_request [js "usage"])]) init) 1
    [stream_message 1 (js "basic") (js "old"); HeadersReady 2; stream_message 2 (js "basic") (js "new"); Aborted 1]).
  vm_compute. reflexivity.
Defined.

Lemma one_stream_witness :
  let s := run (first_run ++ [Start (basic_request []); HeadersReady 2]) init in sourceRef s = Some 2%N /\ (sourceRef s = Some 1%N \/ 1%N ∈ closed s).
Proof.
  destruct (one_stream (first_run ++ [Start (basic_request []); HeadersReady 2])) as (_ & H & _).
  split; [by vm_compute|]. apply H. vm_compute. by right; left.
Defined.

Lemma run_ends_witness :
  runningModule (view (handle (Aborted 1) (run first_run init))) = None /\ errorMessage (view (handle (Aborted 1) (run first_run init))) = ended.
Proof.
  destruct (run_ends (run first_run init) 1 (Aborted 1) ltac:(vm_compute; reflexivity) eq_refl) as (_ & _ & H1 & H2).
  split; [by apply H1|]. rewrite H2 by done. vm_compute. reflexivity.
Defined.

Definition done_message (r : N) : Event := Message r (Some (json_stringify (JObj [(js "type", JStr (js "done"))]))).

(** A stream that ends after the server has announced it is no error. *)
Example announced_end : let s := run (first_run ++ [done_message 1; Aborted 1]) init in
  errorMessage (view s) = no_text /\ toasts (view s) = [] /\ sourceRef s = None.
Proof. by vm_compute. Qed.

(** A failed task that is queried again and has succeeded keeps its reason of failure. *)
Definition task_result (status : string) (reason : list (jstr * jv)) : jv := JObj ((js "status", JStr (js status)) :: reason).

Example old_reason_kept :
  let s := run [QueryResult (task_result "failed" [(js "fail_reason", JStr (js "busy"))]); QueryResult (task_result "Succeeded" [])] init in
  option_map (fun m => (jv_get m (js "status"), jv_get m (js "fail_reason"))) (videoMetrics (view s)) = Some (JStr (js "Succeeded"), JStr (js "busy")).
Proof. by vm_compute. Qed.
